(* ===== verification/_CoqProject ===== *)
-Q . S2P
Prelude.v
Monad.v
Cdll.v
Pagemem.v
Alloc.v
Pool.v
NpgOps.v
NptMap.v
NptRange.v
Walk.v
Vmcs.v
Machine.v
NptTables.v
NptSem.v
NptXlate.v
Str.v
Vm.v
VmMem.v
Words.v
Mbi.v
Elf.v
Boot.v
BootMap.v
BootPg.v
Net.v
NetSem.v
NetArp.v
Cpu.v
CpuRegs.v
Rmode.v
CpuMode.v
CpuRun.v
CpuEvt.v
RmodeSem.v
Bios.v
Dev.v
DevHdl.v
DevSem.v
DevKbd.v
DevUart.v
DevTy.v
ExitDt.v
Exits.v
ExitInv.v
ExitRun.v
Invg.v
ExitSem.v
VmxInit.v
VmxSetup.v
RegsSem.v
Slab.v
GdbPkt.v
DbgHard.v
DbgSoft.v
DbgVm.v
Ctrl.v
GdbCmd.v
