(* ===== verification/Prelude.v ===== *)
(** * Ramooflax: a verification library

    Ramooflax is a bare-metal hypervisor: it virtualises the machine it is
    started on, runs the operating system of that machine as its one vm, and
    lets a remote client inspect and control the vm through the gdb protocol.
    The library models the parts of it that compute: the memory allocators of
    the vmm, the nested page tables and the page walks, the accesses to the
    memory of the vm, the debugger, the controller and the gdb stub.

    ** The parts and how they interact

    - The pool of pages of the vmm ([Cdll], [Pool]) is the source of all its
      memory.  Its clients are written against the class [Alloc.PageAlloc],
      the two operations they call and what they rely on; [Pool] has the
      instance and proves the laws.
    - The nested page mapper ([NptMap], [NptRange]) edits the tables that
      translate the physical addresses of the vm.  It takes its tables from a
      [PageAlloc] and writes entries through [NpgOps.NpgOps], the entry format
      of the processor, with an instance for AMD and one for Intel.
    - The walks ([Walk]) read these tables, and the tables of the vm, whose
      content the vm controls.
    - The accesses of [Vm] walk the tables of the vm, refuse what would touch
      the memory of the vmm and copy bytes.  They are what the debugger and
      the gdb stub use to reach the vm, and what the emulation uses on behalf
      of the vm, in which case a failed translation injects a page fault.
    - The slab allocator ([Slab]) is [malloc] and [free] over a [PageAlloc].
    - The debugger has hardware breakpoints and the single-step ([DbgHard]),
      which share the debug registers and [rflags] with the vm, and software
      breakpoints ([DbgSoft]), which share its memory: against the class
      [DbgSoft.GuestMem], whose instances over [Vm] are in [DbgVm].  A page of
      the vm may be absent: an access then does nothing and says so.
    - The controller ([Ctrl]) decides between two runs of the vm whether the
      breakpoints are visible, and sends the events of the vm through the
      handlers of the vmm, the debugger and the user.
    - The gdb stub receives and sends packets ([GdbPkt], against the classes
      [GdbPkt.CtrlIO], the control device, and [GdbPkt.CpuView], the registers
      it reports), and runs the commands they carry ([GdbCmd]) on the
      debugger, the registers and the memory of the vm.
    - The exit of the vm ([Machine]) reads the fields the handlers count on
      from the control structure of the processor, through its cache
      ([Vmcs]), calls the handler of the exit, and commits what it marked.
      The handlers of the processor ([Cpu], [CpuRegs], [Rmode]) emulate the
      control, debug and model specific registers, the identification of the
      processor, the fast system calls, the interrupts of real mode and the
      memory services of the bios, and deliver exceptions and interrupts.  What
      they call outside of this is recorded in the state ([m_calls]).
    - The accesses of the vm to ports ([Dev], [DevHdl]) make it exit when the
      vmm denies the port: the device is emulated, or the access is done on
      the machine through a buffer, after a filter has looked at it.  They
      read and write the memory of the vm through [Vm], and its processor
      through [Cpu].
    - The whole exit handler ([Exits]) loads the fields, calls the resolver of
      the reason (the handlers above, exceptions, faults of the nested tables,
      hypercalls, the descriptor table instructions of [ExitDt]), delivers
      again the event the exit interrupted, sets pending the single step the
      emulation lost, runs the controller, known by the class
      [Exits.Controller], and commits.
    - The set-up of an Intel processor ([VmxInit]) checks what the processor
      has, fills the control structure, the bitmaps and the registers of the
      vm; when the processor refuses the state of the vm, the vmm looks for
      the reason ([Invg]), which is also the reference the set-up is proved
      against.
    - The network stack ([Net]) carries the remote control when it runs over
      an ethernet card: arp, ip, icmp and udp packets are built in the buffers
      of the card and taken apart in place.  The card sends the descriptors of
      its ring at a pace of its own, that the state carries and the theorems
      leave free.
    - At boot ([Mbi], [Elf], [Boot]) the memory is divided: from the map of the
      machine and the options of the command line the set-up lays out the area
      of the vmm, that everything above lives in and the checks of [Walk] and
      [Vm] protect; it loads the vmm there, initialises the pool, hides the
      area from the map [Rmode] will report to the vm, and builds the tables of
      the vmm.
    - [Str] has the conversions and checksums everything above prints with.

    ** Files

    - [Prelude]: machine integers, bit fields, truncation, the option monad
      notations, the lemmas the other files share.
    - [Monad]: the state and failure monad of the stateful parts, its weakest
      preconditions and their tactics.
    - [Cdll]: [include/cdll.h].  One store of links, each macro its reads and
      writes; [rep] is the sequence a store represents.
    - [Pagemem]: [include/pagemem.h], [include/types.h].  Alignment, indexes,
      entry fields.
    - [Alloc]: the page allocator interface.
    - [Pool]: [common/libc/pool.c].  Descriptors, the two lists, the statistics.
    - [NpgOps]: the [npg_*] macros of [svm_vm.h] and [vmx_ept.h].
    - [NptMap], [NptRange]: [common/libc/npt_map.c], a state and failure monad
      over table memory; [NptRange] is about the decomposition of a range.
    - [NptTables], [NptSem], [NptXlate]: the invariant of the nested tables, what
      each operation of the mapper does to it, and what that does to the
      translation [Walk] computes.
    - [Walk]: [vmm/src/core/npt_walk.c], [vmm/src/core/mmu_walk.c].
    - [Str]: [common/libc/string.c], [print.c], [base64.c],
      [common/net/checksum.c].
    - [Vm]: [vmm/src/core/vm.c]; [VmMem]: what an access reads and writes byte by
      byte, for the vm or the vmm, with or without paging.  [Words]: integers as
      bytes of memory.
    - [Mbi]: [common/libc/mbi.c].  [Elf]: [common/libc/elf.c].
    - [Boot]: [setup/src/core/smap.c], [pmem.c], [vmem.c], the definitions;
      [BootMap]: the layout and the map of the vm; [BootPg]: the tables.
    - [Net]: [common/net/ether.c], [arp.c], [ip.c], [icmp.c], [udp.c],
      [net.c], with what the driver [e1000.c] does to the rings of descriptors;
      [NetSem] is about the packets, [NetArp] about the cache of addresses.
    - [Vmcs]: [include/vmx_vmcs_acc.h], [vmm/src/vmx/vmx_vmcs_acc.c],
      [setup/src/vmx/vmx_vmcs_enc.c].  A field is its encoding; the state has
      its copy, the flags of its encoding and what the processor holds.
    - [Machine]: [vmm/src/vmx/vmx_exit.c], the state of the handlers.  [cst] is
      the assertion they are proved with: what a field is worth, whether its
      copy is loaded, marked, or changed since; [cstep] is the tactic that
      runs one access, and [cst_vm_exit] is the rule of a whole exit.
    - [Cpu]: [vmm/src/core/cr.c], [emulate_insn.c], [intr.c],
      [vmm/src/vmx/vmx_exit_cr.c], [vmx_exit_msr.c], [vmx_exit_int.c],
      [vmx_exit_excp.c], [include/cpu_modes.h], the definitions.
    - [CpuRegs]: [vmm/src/core/dr.c], [msr.c], [cpuid.c], [insn.c],
      [vmm/src/vmx/vmx_exit_dr.c], [vmx_exit_cpuid.c].
    - [Rmode]: [vmm/src/core/emulate.c], [emulate_insn.c], [emulate_int.c],
      [emulate_int15.c], [emulate_rmode.c], [vmm/src/vmx/vmx_exit_gp.c], from
      the answer of the disassembler.
    - [CpuMode]: the handlers of [Cpu] one by one, and the invariant on the mode
      of the processor; [CpuRun]: the exits of the vm as a step relation, the
      handlers that leave the mode alone, and the invariant of every run;
      [CpuEvt], [RegsSem]: what the handlers deliver and show.
    - [RmodeSem]: an interrupt of real mode and the return from it; [Bios]: the
      loop of a program that asks for the memory map.
    - [Dev]: [vmm/src/devices/io.c] and the filters of [sio.c], [pci.c] and
      [ata.c]; [DevHdl]: the handlers ([kbd.c], [ps2.c], [uart.c], [ata.c],
      [sio.c], [pci.c], [acpi.c]), [core/device.c], [vmx/vmx_exit_io.c] and the
      initial devices of [setup/src/core/vm.c].  [DevSem]: the forwarded
      accesses and the filter of the pci; [DevKbd]: the address line the
      keyboard controller drives; [DevUart]: the repeated output on the serial
      line; [DevTy]: the types of the state.
    - [ExitDt]: [vmm/src/vmx/vmx_exit_dt.c].  [Exits]: [vmm/src/vmx/vmx_exit.c],
      [vmx_exit_excp.c], [vmx_exit_pf.c], [vmx_exit_db.c],
      [vmm/src/core/excp.c], [insn.c], over the state of [Dev].  [ExitInv]:
      the judgement [tame] of a partial computation that keeps the mode of the
      processor, and the devices; [ExitRun]: the resolvers, the handler and the
      runs of the vm; [ExitSem]: what the handler delivers.
    - [Invg]: [vmm/src/vmx/vmx_exit_invg.c].  [VmxInit]:
      [setup/src/vmx/vmx_cpu.c], [vmx_vmcs.c], [vmx_guest.c], [vmx_vm.c],
      [vmx_vmm.c], [setup/src/core/cpu.c], the definitions; [VmxSetup]: the
      state the set-up leaves, the bitmap of the msrs.
    - [Slab]: [vmm/src/core/slab.c], [common/libc/malloc.c], [ppg.c].
    - [GdbPkt]: [vmm/src/control/gdbstub_pkt.c].
    - [DbgHard]: [vmm/src/control/dbg_hard*.c].
    - [DbgSoft], [DbgVm]: [vmm/src/control/dbg_soft.c], [dbg.c].
    - [Ctrl]: [vmm/src/control/ctrl.c], [ctrl_evt.c], [vmm_evt.c],
      [dbg_evt.c].
    - [GdbCmd]: [vmm/src/control/gdbstub_cmd.c], [gdbstub_reg.c],
      [gdbstub.c].

    Every operation of a file keeps the name of the C function or macro, apart
    from leading underscores and an [m_] or a state prefix where two would
    collide.  A global structure is a record with one setter per field, an
    operation takes it last and returns it; enumerations of the source are
    inductive types; a pointer to an element is its address or its index, the
    null pointer is 0.

    ** Conventions

    A [w]-bit integer is a [Z] and its wrap-around is written out ([wrap]);
    a bit field is [bits] and [set_bits].  [None] is what the source leaves
    without meaning: a panic, an access outside an array, a loop that does not
    end.  The codes of the vmm ([VM_DONE], [VM_FAULT], [VM_FAIL], ...) are
    values of [Vm]'s type of codes.

    Loops whose bound is not structural have fuel, and the theorems about them
    show that the fuel the definitions choose is enough: [while_below] of
    [NptMap] is given the number of multiples of its step below its limit;
    a walk over a circular list is given the length the list counter holds,
    which the invariants relate to the list; [Vm.vm_access_loop] is given one
    unit per byte, and every step copies at least one; [uint64_to_hex] and the
    decimal conversions have one unit per digit of a 64-bit number.  The
    reception of packets is given fuel by its caller, and a theorem of
    [GdbPkt] shows an input on which no fuel is enough.

    ** What the theorems show

    - Allocators: [Pool] refines a last in, first out allocator for every
      sequence of calls; [malloc] of [Slab] returns aligned blocks disjoint
      from the live ones, [free] gives a block back to the list of its cache
      and a second one does nothing; the list macros refine the operations on
      sequences.
    - Nested paging: the range functions perform exactly the page operations
      of a tiling of the range; mapping a page makes the walk translate its
      addresses to the frame asked for, and changes no other translation;
      a successful walk names a present entry of the right level.
    - Isolation: walks and accesses on behalf of the vm neither read nor
      write the memory of the vmm, in the modes where the checks of the source
      ensure it; two lemmas exhibit those where they do not.
    - Processor of the vm: the cache of the control structure is transparent;
      the mode of the vm is consistent in every state it reaches, by rule
      induction on the runs of the vm and the exits, as long as it does not
      forge the bit lma of its efer; an interrupt is delivered when no other one
      is awaited, a moved control or debug register reads back; cpuid does not show the
      extension; an interrupt of real mode and its return resume the program,
      and the bios enumerates the memory map.  Two lemmas show what a vm that
      writes its efer freely obtains.
    - Exits: over the whole handler and for every reason, the mode of the vm is
      consistent and its devices well typed at each resumption, for the exits
      [exit_sane] describes and a controller that leaves the mode alone, such
      as the [debugger] that edits registers, memory and its own fields; an
      exception the controller ignores is the one the processor delivers; the pending single step is one the
      processor accepts.
    - Set-up of the processor: when its checks pass, the first entry into the
      vm finds a state none of the conditions of [Invg] rejects; the bitmap of
      the msrs denies exactly the accesses asked for.
    - Debugger: the breakpoints never change the program the vm sees once they
      are disarmed, arming installs each of them but the one that is stepped
      over, which is put back after it, all this in the pages that are present;
      the controller hides them from other address spaces once an update is
      pending.
    - Gdb stub: packets and numbers survive the round trip, cutting the input
      anywhere does not change what is processed, what gdb writes in
      registers, and in memory the tables of the vm map, is what it reads.
    - Boot: an elf module is loaded and relocated; the structures of the vmm are
      apart inside its area, aligned, and no entry of the map of the vm meets
      the area, on the machines [boot_ok] describes; the tables of the vmm map
      the memory to itself; the options of the command line are found, and the
      line is left as it was.
    - Devices: repeated string accesses move every unit between the memory of
      the vm and the port, and move its index and counter ([str_ok]: forward,
      in mapped memory); the pool they go through is overrun exactly when their
      size wraps around; the identity of the card of the vmm is hidden from
      32-bit accesses; the address line of the machine is never masked; an
      output on the serial line ends, and what the console gets is told.
    - Network: what a stack writes is sent, as long as the card keeps up with
      the driver, and the stack of a peer that has received it reads it, in
      packets with right checksums; the circular cache of addresses other than
      0.0.0.0 is a queue.

    ** What is not modelled, and why

    Drivers (ehci, iommu, the initialisation of the card), the interrupts of
    the vmm itself, the assembly at the entry and the exit of the vm and what
    the handler asks the serial line and the iommu on its way are hardware
    input and output; the dumps of the failures only print.  The AMD versions
    of the exit handler and of the set-up are left to a model of the AMD
    control block, and so is the set-up of the range registers of the caches.
    The disassembler is third-party code; the parts of the single-step and of
    the instruction emulation that depend on it are parameters or are left
    out.  [common/libc/paging.c] and [devices/pic.c] are old code nothing
    calls.

    The nested tables are read by the processor; the walk of [Walk] is the
    vmm's software version of that read.  The processor's caches (tlb) are not
    modelled: flushes have no effect on the state. *)

From stdpp Require Export base tactics numbers list gmap.
From Stdlib Require Export ZArith Lia Bool Btauto.

#[global] Open Scope Z_scope.

(** ** Machine integers

    A [w]-bit unsigned integer is a [Z] in [0, 2^w); the wrap-around of C's
    unsigned arithmetic is written out with [wrap]. *)

Definition wrap (w z : Z) : Z := z mod 2 ^ w.

Abbreviation wrap8 := (wrap 8).
Abbreviation wrap16 := (wrap 16).
Abbreviation wrap32 := (wrap 32).
Abbreviation wrap64 := (wrap 64).

(** [fits w z]: [z] is the value of a [w]-bit unsigned integer. *)
Definition fits (w z : Z) : Prop := 0 <= z < 2 ^ w.

(** Bitwise complement of a [w]-bit integer, C's [~]. *)
Definition wnot (w z : Z) : Z := Z.lxor z (Z.ones w).

(** C's truth values: every non-zero integer is true. *)
Definition c_true (z : Z) : bool := negb (z =? 0).

Lemma c_true_ne z : z <> 0 -> c_true z = true.
Proof. intros. unfold c_true. by apply negb_true_iff, Z.eqb_neq. Qed.

Lemma c_true_length {A} (x : A) l : c_true (Z.of_nat (length (x :: l))) = true.
Proof. done. Qed.

Lemma c_true_0 : c_true 0 = false.
Proof. done. Qed.

(** ** Memory words

    Memory is a finite map; a word that was never written reads 0. *)

Definition rd0 (m : gmap Z Z) (p : Z) : Z := default 0 (m !! p).

Lemma rd0_insert m p v q : rd0 (<[p := v]> m) q = if decide (p = q) then v else rd0 m q.
Proof. unfold rd0. rewrite lookup_insert. by case_decide. Qed.

(** ** Bit fields

    A C bit field of [w] bits at offset [lo] of an integer. *)

Definition bits (z lo w : Z) : Z := Z.land (Z.shiftr z lo) (Z.ones w).

Definition set_bits (z lo w v : Z) : Z :=
  Z.lor (Z.ldiff z (Z.shiftl (Z.ones w) lo))
        (Z.shiftl (Z.land v (Z.ones w)) lo).

Definition bit (z i : Z) : bool := Z.testbit z i.

(** ** Bit-level automation

    [bitblast i] proves an equality of integers bit by bit: it compares the
    [i]-th bits, pushes [Z.testbit] through the operators with the [zbit]
    rewriting database, splits on the positions the goal compares and ends
    with propositional reasoning. *)

Lemma testbit_wrap w z i : 0 <= w -> 0 <= i ->
  Z.testbit (wrap w z) i = (i <? w) && Z.testbit z i.
Proof.
  intros Hw Hi. unfold wrap. destruct (Z.ltb_spec i w).
  - by rewrite Z.mod_pow2_bits_low.
  - by rewrite Z.mod_pow2_bits_high.
Qed.

Lemma testbit_shiftl z n i : 0 <= i ->
  Z.testbit (Z.shiftl z n) i = Z.testbit z (i - n).
Proof. apply Z.shiftl_spec. Qed.

Lemma testbit_neg z i : i < 0 -> Z.testbit z i = false.
Proof. apply Z.testbit_neg_r. Qed.

Lemma testbit_b2z b i : 0 <= i -> Z.testbit (Z.b2z b) i = b && (i =? 0).
Proof.
  intros Hi. destruct (Z.eqb_spec i 0) as [->|].
  - rewrite Z.b2z_bit0. by destruct b.
  - destruct b; [|by rewrite Z.bits_0].
    rewrite andb_false_r. apply Z.bits_above_log2; simpl; lia.
Qed.

Create Rewrite HintDb zbit.
#[export] Hint Rewrite Z.lor_spec Z.land_spec Z.lxor_spec Z.ldiff_spec
  Z.testbit_0_l : zbit.
#[export] Hint Rewrite Z.lnot_spec Z.shiftr_spec testbit_shiftl
  Z.testbit_ones testbit_wrap testbit_b2z using lia : zbit.

Lemma fits_testbit w z i : fits w z -> w <= i -> Z.testbit z i = false.
Proof.
  intros [H1 H2] Hi. destruct (Z.eq_dec z 0) as [->|]; [apply Z.bits_0|].
  apply Z.bits_above_log2; [lia|].
  assert (Z.log2 z < w) by (apply Z.log2_lt_pow2; lia). lia.
Qed.

Lemma fits_of_testbit w z : 0 <= w -> 0 <= z ->
  (forall i, w <= i -> Z.testbit z i = false) -> fits w z.
Proof.
  intros Hw Hz Hb. split; [done|].
  destruct (Z.eq_dec z 0) as [->|]; [apply Z.pow_pos_nonneg; lia|].
  apply Z.log2_lt_pow2; [lia|].
  destruct (Z.lt_ge_cases (Z.log2 z) w) as [|Hge]; [done|].
  specialize (Hb _ Hge). rewrite Z.bit_log2 in Hb by lia. done.
Qed.

Ltac zbit_split :=
  match goal with
  | |- context [Z.leb ?a ?b] => destruct (Z.leb_spec a b); try lia
  | |- context [Z.ltb ?a ?b] => destruct (Z.ltb_spec a b); try lia
  | |- context [Z.eqb ?a ?b] => destruct (Z.eqb_spec a b); try lia
  end.

Ltac zbit_bool :=
  rewrite ?andb_true_r, ?andb_true_l, ?andb_false_r, ?andb_false_l,
    ?orb_false_r, ?orb_false_l, ?orb_true_r, ?orb_true_l,
    ?xorb_false_r, ?xorb_false_l, ?negb_true_iff; simpl.

Ltac bitblast i :=
  apply Z.bits_inj'; intros i ?;
  autorewrite with zbit; repeat zbit_split; zbit_bool;
  first [ done | repeat (f_equal; try lia)
        | rewrite ?testbit_neg by lia; zbit_bool; btauto ].

(** *** Bit fields *)

Lemma testbit_bits z lo w i : 0 <= lo -> 0 <= w -> 0 <= i ->
  Z.testbit (bits z lo w) i = (i <? w) && Z.testbit z (i + lo).
Proof.
  intros. unfold bits. autorewrite with zbit. repeat zbit_split; btauto.
Qed.

Lemma testbit_set_bits z lo w v i : 0 <= lo -> 0 <= w -> 0 <= i ->
  Z.testbit (set_bits z lo w v) i =
    if (lo <=? i) && (i <? lo + w) then Z.testbit v (i - lo)
    else Z.testbit z i.
Proof.
  intros. unfold set_bits. autorewrite with zbit.
  destruct (Z.leb_spec lo i); simpl.
  - autorewrite with zbit. repeat zbit_split; simpl; btauto.
  - rewrite !(testbit_neg _ (i - lo)) by lia. repeat zbit_split; btauto.
Qed.
#[export] Hint Rewrite testbit_bits testbit_set_bits using lia : zbit.

Lemma bits_set_same z lo w v : 0 <= lo -> 0 <= w ->
  bits (set_bits z lo w v) lo w = wrap w v.
Proof.
  intros. apply Z.bits_inj'; intros i ?. autorewrite with zbit.
  repeat zbit_split; simpl; f_equal; lia.
Qed.

Lemma bits_set_other z lo w v lo' w' : 0 <= lo -> 0 <= w -> 0 <= lo' -> 0 <= w' ->
  lo + w <= lo' \/ lo' + w' <= lo ->
  bits (set_bits z lo w v) lo' w' = bits z lo' w'.
Proof.
  intros. apply Z.bits_inj'; intros i ?. autorewrite with zbit.
  destruct (Z.ltb_spec i w'); simpl; [|done].
  repeat zbit_split; simpl; done || lia.
Qed.

Lemma bits_fits z lo w : 0 <= lo -> 0 <= w -> fits w (bits z lo w).
Proof.
  intros. unfold bits. rewrite Z.land_ones by lia.
  apply Z.mod_pos_bound, Z.pow_pos_nonneg; lia.
Qed.

Lemma bits_div_mod z lo w : 0 <= lo -> 0 <= w ->
  bits z lo w = (z / 2 ^ lo) mod 2 ^ w.
Proof.
  intros. unfold bits. by rewrite Z.land_ones, Z.shiftr_div_pow2.
Qed.

Lemma set_bits_fits n z lo w v : 0 <= lo -> 0 <= w -> lo + w <= n ->
  fits n z -> fits n (set_bits z lo w v).
Proof.
  intros Hlo Hw Hn Hz. apply fits_of_testbit; [lia| |].
  - unfold set_bits. apply Z.lor_nonneg; split.
    + apply Z.ldiff_nonneg. left. apply Hz.
    + apply Z.shiftl_nonneg, Z.land_nonneg. right.
      rewrite Z.ones_equiv. assert (0 < 2 ^ w) by (apply Z.pow_pos_nonneg; lia). lia.
  - intros i Hi. rewrite testbit_set_bits by lia.
    repeat zbit_split; simpl; apply (fits_testbit n); done.
Qed.

(** Replacing the low [w] bits. *)
Lemma bits_low n f w : 0 <= w -> 0 <= f < 2 ^ w -> bits (n * 2 ^ w + f) 0 w = f.
Proof.
  intros Hw Hf. rewrite bits_div_mod, Z.pow_0_r, Z.div_1_r by lia.
  rewrite Z.add_comm, Z.mod_add by lia. by apply Z.mod_small.
Qed.

Lemma set_bits_low n f w v : 0 <= w -> 0 <= f < 2 ^ w ->
  set_bits (n * 2 ^ w + f) 0 w v = n * 2 ^ w + wrap w v.
Proof.
  intros Hw Hf. unfold set_bits. rewrite !Z.shiftl_0_r.
  assert (Z.ldiff (n * 2 ^ w + f) (Z.ones w) = n * 2 ^ w) as ->.
  { rewrite Z.ldiff_ones_r, Z.shiftr_div_pow2, Z.shiftl_mul_pow2 by lia.
    rewrite Z.div_add_l, Z.div_small by lia. lia. }
  unfold wrap. rewrite Z.land_ones by done.
  enough (Z.land (n * 2 ^ w) (v mod 2 ^ w) = 0) as H0.
  { pose proof (Z.add_lor_land (n * 2 ^ w) (v mod 2 ^ w)). lia. }
  apply Z.bits_inj'. intros i Hi. rewrite Z.land_spec, Z.bits_0.
  destruct (Z.lt_ge_cases i w).
  - by rewrite Z.mul_pow2_bits_low.
  - by rewrite Z.mod_pow2_bits_high, andb_false_r by lia.
Qed.

(** Or-ing above the low bits is addition. *)
Lemma lor_shiftl_add v n sh : 0 <= sh -> 0 <= v < 2 ^ sh ->
  Z.lor v (Z.shiftl n sh) = v + n * 2 ^ sh.
Proof.
  intros Hs Hv. rewrite Z.shiftl_mul_pow2 by done.
  enough (Z.land v (n * 2 ^ sh) = 0) as H0.
  { pose proof (Z.add_lor_land v (n * 2 ^ sh)). lia. }
  apply Z.bits_inj'. intros i Hi. rewrite Z.land_spec, Z.bits_0.
  destruct (Z.lt_ge_cases i sh).
  - rewrite Z.mul_pow2_bits_low by done. apply andb_false_r.
  - by rewrite (fits_testbit sh v i).
Qed.

(** *** Wrap-around *)

Lemma wrap_fits w z : 0 <= w -> fits w (wrap w z).
Proof. intros. apply Z.mod_pos_bound, Z.pow_pos_nonneg; lia. Qed.

Lemma wrap_id w z : fits w z -> wrap w z = z.
Proof. apply Z.mod_small. Qed.

Lemma wrap_wrap w z : wrap w (wrap w z) = wrap w z.
Proof. apply Zmod_mod. Qed.

#[export] Hint Resolve wrap_fits bits_fits : core.

(** ** Lists *)

(** [list_elem] decides goals about membership in concatenations and cons
    cells, without the search of [set_solver]. *)
Ltac list_elem :=
  rewrite ?NoDup_cons, ?NoDup_app, ?elem_of_app, ?elem_of_cons, ?elem_of_nil in *;
  repeat match goal with
  | |- ~ _ => intro
  | |- _ <> _ => intro
  | H : _ /\ _ |- _ => destruct H
  end;
  subst;
  rewrite ?elem_of_app, ?elem_of_cons, ?elem_of_nil in *;
  first [ tauto | intuition congruence ].

Lemma wnot_sub w z : 0 <= w -> fits w z -> wnot w z = 2 ^ w - 1 - z.
Proof.
  intros Hw Hz. unfold wnot.
  assert (Z.ldiff z (Z.ones w) = 0) as Hd.
  { apply Z.bits_inj'; intros i ?. autorewrite with zbit.
    destruct (Z.lt_ge_cases i w); [|by rewrite (fits_testbit w z)].
    repeat zbit_split; btauto. }
  replace (2 ^ w - 1 - z) with (Z.ones w - z) by (rewrite Z.ones_equiv; lia).
  rewrite Z.sub_nocarry_ldiff by done. apply Z.bits_inj'; intros i ?. autorewrite with zbit.
  destruct (Z.lt_ge_cases i w).
  - repeat zbit_split; btauto.
  - rewrite (fits_testbit w z) by done. repeat zbit_split; btauto.
Qed.

(** Writing a field keeps only the bits that fit, over what was there. *)
Lemma set_bits_wrap z lo w v : 0 <= lo -> 0 <= w -> set_bits z lo w (wrap w v) = set_bits z lo w v.
Proof.
  intros. apply Z.bits_inj'; intros i ?. autorewrite with zbit.
  destruct (Z.leb_spec lo i), (Z.ltb_spec i (lo + w)); simpl; try done.
  rewrite testbit_wrap by lia. by rewrite (proj2 (Z.ltb_lt (i - lo) w)) by lia.
Qed.

Lemma set_bits_twice z lo w v v' : 0 <= lo -> 0 <= w ->
  set_bits (set_bits z lo w v) lo w v' = set_bits z lo w v'.
Proof.
  intros. apply Z.bits_inj'; intros i ?. autorewrite with zbit.
  by destruct (Z.leb_spec lo i), (Z.ltb_spec i (lo + w)); simpl.
Qed.

Lemma set_bits_bits z lo w : 0 <= lo -> 0 <= w -> set_bits z lo w (bits z lo w) = z.
Proof.
  intros. apply Z.bits_inj'; intros i ?. autorewrite with zbit.
  destruct (Z.leb_spec lo i), (Z.ltb_spec i (lo + w)); simpl; try done.
  rewrite testbit_bits by lia. rewrite (proj2 (Z.ltb_lt (i - lo) w)) by lia.
  simpl. f_equal. lia.
Qed.

Lemma wrap_sub_add w a b : wrap w (wrap w (a + b) - b) = wrap w a.
Proof.
  unfold wrap. rewrite Zminus_mod_idemp_l. f_equal. lia.
Qed.
