(* ===== verification/Monad.v ===== *)
(** * State and failure

    The parts of the vmm that thread a state through many calls and may panic
    are written in one monad: a computation takes the state and returns a
    value and the new state, or [None] when the code panics.  [wp] is its
    weakest precondition, with total correctness: the computation returns. *)

From S2P Require Import Prelude.

Definition M (S A : Type) : Type := S -> option (A * S).

#[export] Instance M_ret {S} : MRet (M S) := fun A x s => Some (x, s).
#[export] Instance M_bind {S} : MBind (M S) := fun A B k m s =>
  match m s with Some (x, s') => k x s' | None => None end.
Definition fail {S A} : M S A := fun _ => None.

Definition gets {S A} (f : S -> A) : M S A := fun s => Some (f s, s).
Definition modify {S} (f : S -> S) : M S unit := fun s => Some (tt, f s).

(** [if(b) m] *)
Definition when {S} (b : bool) (m : M S unit) : M S unit := if b then m else mret tt.

Fixpoint for_each {S A} (l : list A) (f : A -> M S unit) : M S unit :=
  match l with
  | [] => mret tt
  | x :: l => f x ;; for_each l f
  end.

(** A computation on a part of the state. *)
Definition zoom {S T A} (get : T -> S) (put : S -> T -> T) (m : M S A) : M T A := fun t =>
  match m (get t) with Some (x, s) => Some (x, put s t) | None => None end.

(** ** Weakest preconditions *)

Section wp.
Context {S : Type}.

Definition wp {A} (m : M S A) (s : S) (Q : A -> S -> Prop) : Prop :=
  match m s with Some (x, s') => Q x s' | None => False end.

Lemma wp_ret {A} (x : A) s Q : wp (mret x) s Q <-> Q x s.
Proof. done. Qed.
Lemma wp_bind {A B} (m : M S A) (k : A -> M S B) s Q :
  wp (m ≫= k) s Q <-> wp m s (fun x s' => wp (k x) s' Q).
Proof. unfold wp, mbind, M_bind. by destruct (m s) as [[x s']|]. Qed.
Lemma wp_gets {A} (f : S -> A) s Q : wp (gets f) s Q <-> Q (f s) s.
Proof. done. Qed.
Lemma wp_modify (f : S -> S) s Q : wp (modify f) s Q <-> Q tt (f s).
Proof. done. Qed.
Lemma wp_when b m s Q : wp (when b m) s Q <-> (if b then wp m s Q else Q tt s).
Proof. by destruct b. Qed.

Lemma wp_mono {A} (m : M S A) s (Q Q' : A -> S -> Prop) :
  wp m s Q -> (forall x s', Q x s' -> Q' x s') -> wp m s Q'.
Proof. unfold wp. destruct (m s) as [[x s']|]; auto. Qed.

Lemma wp_and {A} (m : M S A) s Q Q' : wp m s Q -> wp m s Q' -> wp m s (fun x s' => Q x s' /\ Q' x s').
Proof. unfold wp. by destruct (m s) as [[x s']|]. Qed.

Lemma wp_run {A} (m : M S A) s x s' Q : wp m s Q -> m s = Some (x, s') -> Q x s'.
Proof. unfold wp. intros H Hm. by rewrite Hm in H. Qed.

Lemma wp_exists {A} (m : M S A) s Q : wp m s Q -> exists x s', m s = Some (x, s') /\ Q x s'.
Proof. unfold wp. destruct (m s) as [[x s']|]; [eauto|done]. Qed.

(** A loop over a list: the invariant speaks of what has been done. *)
Lemma wp_for_each {A} (I : list A -> S -> Prop) (f : A -> M S unit) l s :
  I [] s ->
  (forall done x s, x ∈ l -> I done s -> wp (f x) s (fun _ => I (done ++ [x]))) ->
  wp (for_each l f) s (fun _ => I l).
Proof.
  intros H0 Hf.
  assert (forall l' dn s, (forall x, x ∈ l' -> x ∈ l) -> I dn s ->
    wp (for_each l' f) s (fun _ => I (dn ++ l'))) as H.
  { clear s H0. induction l' as [|x l' IH]; intros dn s Hl HI; cbn [for_each].
    - apply wp_ret. by rewrite app_nil_r.
    - apply wp_bind. eapply wp_mono; [apply Hf; [apply Hl; left|exact HI]|].
      intros [] s' HI'. eapply wp_mono; [apply IH; [|exact HI']|].
      + intros y Hy. apply Hl. by right.
      + intros [] s''. by rewrite <- app_assoc. }
  by apply (H l []).
Qed.
End wp.

Lemma wp_zoom {S T A} (get : T -> S) (put : S -> T -> T) (m : M S A) t Q :
  wp (zoom get put m) t Q <-> wp m (get t) (fun x s => Q x (put s t)).
Proof. unfold wp, zoom. by destruct (m (get t)) as [[x s]|]. Qed.

(** Symbolic execution of straight-line code. *)
Ltac wp_step :=
  lazymatch goal with
  | |- wp (mret _) _ _ => apply wp_ret
  | |- wp (_ ≫= _) _ _ => apply wp_bind
  | |- wp (gets _) _ _ => apply wp_gets
  | |- wp (modify _) _ _ => apply wp_modify
  | |- wp (when _ _) _ _ => apply wp_when
  end.
Ltac wp_steps := repeat wp_step.
Ltac wp_if :=
  lazymatch goal with
  | |- wp (if ?b then _ else _) _ _ => destruct b eqn:?
  | |- (if ?b then wp _ _ _ else _) => destruct b eqn:?
  end.
