(* ===== verification/Cdll.v ===== *)
(** * Circular doubly linked lists (include/cdll.h)

    The macros of [cdll.h] link nodes that live anywhere in memory: pool page
    descriptors, slab caches and the free objects of a slab.  The model keeps
    one shared store of link fields, a map from a node's address to its [next]
    and [prev] pointers, and every macro is the sequence of reads and writes
    the macro performs on that store.  Address 0 is the null pointer.

    The abstract view of a list is the sequence of its node addresses ([rep]);
    the theorems show that each macro is the expected operation on that
    sequence and leaves every other node of the store alone. *)

From S2P Require Import Prelude.

Record links := mk_links { next : Z; prev : Z }.

#[export] Instance links_inhabited : Inhabited links := populate (mk_links 0 0).

#[export] Instance links_eq_dec : EqDecision links.
Proof. solve_decision. Defined.

(** The store: link fields of the node at each address. *)
Abbreviation store := (gmap Z links).

Definition get_next (h : store) (p : Z) : Z := next (h !!! p).
Definition get_prev (h : store) (p : Z) : Z := prev (h !!! p).
Definition set_next (h : store) (p v : Z) : store :=
  <[p := mk_links v (get_prev h p)]> h.
Definition set_prev (h : store) (p v : Z) : store :=
  <[p := mk_links (get_next h p) v]> h.

(** ** The macros *)

Definition cdll_add (h : store) (lst new : Z) : store :=
  if c_true lst then
    let h := set_next h new lst in
    let h := set_prev h new (get_prev h lst) in
    let h := set_next h (get_prev h lst) new in
    set_prev h lst new
  else
    let h := set_prev h new new in
    set_next h new new.

Definition cdll_fill (h : store) (lst new : Z) : store * Z :=
  (cdll_add h lst new, if c_true lst then lst else new).

Definition cdll_push (h : store) (lst new : Z) : store * Z :=
  (cdll_add h lst new, new).

(** [cel->next->prev = cel->prev; cel->prev->next = cel->next], the unlinking
    shared by [cdll_pop] and [cdll_del]. *)
Definition cdll_unlink (h : store) (cel : Z) : store :=
  let h := set_prev h (get_next h cel) (get_prev h cel) in
  set_next h (get_prev h cel) (get_next h cel).

(** The popped node (0 when the list is empty), the store and the new head. *)
Definition cdll_pop (h : store) (lst : Z) : Z * (store * Z) :=
  if c_true lst then
    if lst =? get_next h lst then (lst, (h, 0))
    else
      let h := cdll_unlink h lst in
      (lst, (h, get_next h lst))
  else (0, (h, lst)).

Definition cdll_del (h : store) (lst cel : Z) : store * Z :=
  if c_true lst then
    if (lst =? get_next h lst) && (lst =? cel) then (h, 0)
    else
      let h := cdll_unlink h cel in
      (h, if cel =? lst then get_next h lst else lst)
  else (h, lst).

Definition cdll_insert_before (h : store) (lst cel ref : Z) : store * Z :=
  if c_true lst then
    let h := set_prev h cel (get_prev h ref) in
    let h := set_next h (get_prev h ref) cel in
    let h := set_next h cel ref in
    let h := set_prev h ref cel in
    (h, if ref =? lst then cel else lst)
  else (h, lst).

(** The loop of [cdll_search] from [tmp]; [None] when the fuel runs out. *)
Fixpoint cdll_search_from (fuel : nat) (h : store) (lst cel tmp : Z) : option bool :=
  match fuel with
  | O => None
  | S fuel =>
      if negb (tmp =? cel) && negb (get_next h tmp =? lst)
      then cdll_search_from fuel h lst cel (get_next h tmp)
      else Some (tmp =? cel)
  end.

Definition cdll_search (fuel : nat) (h : store) (lst cel : Z) : option bool :=
  if c_true lst then cdll_search_from fuel h lst cel lst else Some false.

(** ** Representation *)

(** [seg h pr l nx]: the nodes [l] are chained in order; the node before the
    first is [pr] and the node after the last is [nx]. *)
Fixpoint seg (h : store) (pr : Z) (l : list Z) (nx : Z) : Prop :=
  match l with
  | [] => True
  | x :: l' => h !! x = Some (mk_links (hd nx l') pr) /\ seg h x l' nx
  end.

Definition ring (h : store) (l : list Z) : Prop :=
  NoDup l /\ (0 ∉ l) /\ seg h (List.last l 0) l (hd 0 l).

(** The list headed by [lst] holds exactly the nodes [l], in order. *)
Definition rep (h : store) (lst : Z) (l : list Z) : Prop :=
  lst = hd 0 l /\ ring h l.

(** Every node outside [l] keeps its links. *)
Definition frame (l : list Z) (h h' : store) : Prop :=
  forall p, (p ∉ l) -> h' !! p = h !! p.

(** ** Segments *)

Lemma hd_app {A} (d : A) l1 l2 : hd d (l1 ++ l2) = hd (hd d l2) l1.
Proof. by destruct l1. Qed.

Lemma last_cons {A} (d : A) x l : List.last (x :: l) d = List.last l x.
Proof. revert d x. induction l as [|y l IH]; intros d x; [done|]. by rewrite (IH x y), <- (IH d y). Qed.

Lemma last_app_hd {A} (d : A) l1 l2 : List.last (l1 ++ l2) d = List.last l2 (List.last l1 d).
Proof.
  revert d. induction l1 as [|x l1 IH]; intros d; [done|].
  rewrite last_cons. simpl app. by rewrite last_cons.
Qed.

Lemma seg_app h pr l1 l2 nx :
  seg h pr (l1 ++ l2) nx <-> seg h pr l1 (hd nx l2) /\ seg h (List.last l1 pr) l2 nx.
Proof.
  revert pr. induction l1 as [|x l1 IH]; intros pr; simpl; [tauto|].
  rewrite IH, hd_app, <- last_cons with (d := pr). simpl. tauto.
Qed.

Lemma seg_frame h h' pr l nx :
  (forall x, (x ∈ l) -> h' !! x = h !! x) -> seg h pr l nx -> seg h' pr l nx.
Proof.
  revert pr. induction l as [|x l IH]; intros pr Hf; simpl; [done|].
  intros [Hx Hs]. split; [by rewrite Hf by set_solver|].
  apply IH; [set_solver|done].
Qed.

Lemma ring_frame h h' l l' : frame l' h h' -> l ## l' -> ring h l -> ring h' l.
Proof.
  intros Hf Hd (Hnd & H0 & Hs). split_and!; [done..|].
  eapply seg_frame; [|done]. intros x Hx. apply Hf. set_solver.
Qed.

Lemma rep_frame h h' lst l l' : frame l' h h' -> l ## l' -> rep h lst l -> rep h' lst l.
Proof. intros Hf Hd [-> Hr]. split; [done|by eapply ring_frame]. Qed.

(** A ring may be cut anywhere. *)
Lemma ring_rotate h l1 l2 : ring h (l1 ++ l2) -> ring h (l2 ++ l1).
Proof.
  intros (Hnd & H0 & Hs). split_and!.
  - by rewrite Permutation_app_comm.
  - rewrite elem_of_app in *. tauto.
  - apply seg_app in Hs as [Hs1 Hs2]. apply seg_app.
    rewrite !last_app_hd, !hd_app in *.
    destruct l1 as [|x1 l1], l2 as [|x2 l2]; simpl hd in *;
      rewrite ?last_cons in *; split; done.
Qed.

(** *** Reading the links of a ring *)

Lemma seg_next h pr l1 x l2 nx : seg h pr (l1 ++ x :: l2) nx -> get_next h x = hd nx l2.
Proof.
  rewrite seg_app. intros [_ [Hx _]].
  unfold get_next. by rewrite lookup_total_alt, Hx.
Qed.

Lemma seg_prev h pr l1 x l2 nx : seg h pr (l1 ++ x :: l2) nx -> get_prev h x = List.last l1 pr.
Proof.
  rewrite seg_app. intros [_ [Hx _]].
  unfold get_prev. by rewrite lookup_total_alt, Hx.
Qed.

Lemma ring_head_next h x l : ring h (x :: l) -> get_next h x = hd x l.
Proof. intros (_ & _ & Hs). by apply (seg_next _ _ [] _ _ _ Hs). Qed.

Lemma ring_head_prev h x l : ring h (x :: l) -> get_prev h x = List.last l x.
Proof.
  intros (_ & _ & Hs). rewrite (seg_prev _ _ [] _ _ _ Hs).
  exact (last_cons 0 x l).
Qed.

(** *** Writing the links *)

Lemma get_next_set_next h p q v :
  get_next (set_next h p v) q = if decide (p = q) then v else get_next h q.
Proof.
  unfold get_next, set_next. rewrite !lookup_total_alt, lookup_insert. by case_decide.
Qed.
Lemma get_prev_set_prev h p q v :
  get_prev (set_prev h p v) q = if decide (p = q) then v else get_prev h q.
Proof.
  unfold get_prev, set_prev. rewrite !lookup_total_alt, lookup_insert. by case_decide.
Qed.
Lemma get_next_set_prev h p q v : get_next (set_prev h p v) q = get_next h q.
Proof.
  unfold get_next, set_prev, get_next. rewrite !lookup_total_alt, lookup_insert.
  by case_decide; subst.
Qed.
Lemma get_prev_set_next h p q v : get_prev (set_next h p v) q = get_prev h q.
Proof.
  unfold get_prev, set_next, get_prev. rewrite !lookup_total_alt, lookup_insert.
  by case_decide; subst.
Qed.

Create Rewrite HintDb cdll.
#[export] Hint Rewrite get_next_set_next get_prev_set_prev get_next_set_prev
  get_prev_set_next : cdll.

(** The store after a write, at any address. *)
Lemma lookup_set_next h p q v :
  set_next h p v !! q = if decide (p = q) then Some (mk_links v (get_prev h p)) else h !! q.
Proof. unfold set_next. apply lookup_insert. Qed.
Lemma lookup_set_prev h p q v :
  set_prev h p v !! q = if decide (p = q) then Some (mk_links (get_next h p) v) else h !! q.
Proof. unfold set_prev. apply lookup_insert. Qed.
#[export] Hint Rewrite lookup_set_next lookup_set_prev : cdll.

(** [cdll_simpl] evaluates reads after writes on the store, splitting on the
    addresses that may coincide. *)
Ltac cdll_simpl :=
  repeat (autorewrite with cdll in *;
          repeat case_decide; simplify_eq; try done).


(** ** Linking a node before the head of a ring *)

(** The four writes of [__cdll_add] and of [cdll_insert_before]: [new] goes
    between [ref] and its predecessor. *)
Definition link_before (h : store) (ref new : Z) : store :=
  let h := set_next h new ref in
  let h := set_prev h new (get_prev h ref) in
  let h := set_next h (get_prev h ref) new in
  set_prev h ref new.

Lemma last_in {A} (d : A) l : List.last l d ∈ d :: l.
Proof.
  destruct (decide (l = [])) as [->|Hne]; [by left|].
  destruct (exists_last Hne) as (m & y & ->). rewrite List.last_last. set_solver.
Qed.

Lemma lookup_link_before h ref new p :
  new <> ref -> new <> get_prev h ref ->
  link_before h ref new !! p =
    if decide (p = ref) then
      Some (mk_links (if decide (get_prev h ref = ref) then new else get_next h ref) new)
    else if decide (p = get_prev h ref) then Some (mk_links new (get_prev h p))
    else if decide (p = new) then Some (mk_links ref (get_prev h ref))
    else h !! p.
Proof. intros. unfold link_before. autorewrite with cdll. repeat case_decide; congruence. Qed.

Lemma link_before_frame h ref new l : ring h (ref :: l) -> new ∉ ref :: l ->
  frame (new :: ref :: l) h (link_before h ref new).
Proof.
  intros Hr Hn p Hp. pose proof (ring_head_prev _ _ _ Hr) as Hprev.
  pose proof (last_in ref l) as Hin. clear Hr.
  rewrite lookup_link_before; rewrite ?Hprev; [|list_elem..].
  rewrite !decide_False by list_elem. done.
Qed.

Lemma ring_link_before h ref new l : ring h (ref :: l) -> new ∉ ref :: l -> new <> 0 ->
  ring (link_before h ref new) (ref :: l ++ [new]).
Proof.
  intros Hr Hn H0. pose proof (ring_head_prev _ _ _ Hr) as Hprev.
  pose proof (ring_head_next _ _ _ Hr) as Hnext.
  assert (new <> ref /\ new <> get_prev h ref) as [Hn1 Hn2].
  { rewrite Hprev. pose proof (last_in ref l). list_elem. }
  destruct Hr as (Hnd & Hz & Hs).
  split_and!.
  - change (NoDup ((ref :: l) ++ [new])). apply NoDup_app. split_and!; [done| |by apply NoDup_singleton].
    intros x Hx ?. list_elem.
  - list_elem.
  - rewrite last_cons, List.last_last. simpl hd.
    destruct (decide (l = [])) as [->|Hne].
    + simpl in *. split_and!; [..|done]; rewrite lookup_link_before by done;
        rewrite Hprev, ?Hnext; simpl; by repeat case_decide.
    + destruct (exists_last Hne) as (m & y & ->).
      rewrite !List.last_last in *. simpl in Hs. destruct Hs as [Href Hs].
      apply seg_app in Hs as [Hm [Hy _]].
      assert (y <> ref /\ new <> y /\ forall x, x ∈ m -> x <> ref /\ x <> y /\ x <> new) as (? & ? & Hd).
      { apply NoDup_cons in Hnd as [Hd1 Hd2]. apply NoDup_app in Hd2 as (_ & Hd2 & _).
        split_and!; [list_elem..|]. intros x Hx. specialize (Hd2 x Hx). split_and!; list_elem. }
      clear Hnd Hz Hn.
      rewrite <- app_assoc. split; [|apply seg_app; split].
      * rewrite lookup_link_before by done. rewrite Hprev, Hnext.
        rewrite decide_True, decide_False by done. by destruct m.
      * eapply seg_frame; [|exact Hm]. intros x Hx. destruct (Hd x Hx) as (? & ? & ?).
        rewrite lookup_link_before by done. by rewrite Hprev, !decide_False.
      * simpl. split_and!; [..|done].
        -- rewrite lookup_link_before by done. rewrite Hprev, decide_False, decide_True by done.
           f_equal. f_equal. unfold get_prev. by rewrite lookup_total_alt, Hy.
        -- rewrite lookup_link_before by done. rewrite Hprev.
           rewrite !(decide_False (P := new = _)) by done. by rewrite decide_True.
Qed.

(** ** Unlinking the head of a ring *)

Lemma lookup_unlink h c p : get_next h c <> c -> get_prev h c <> c ->
  cdll_unlink h c !! p =
    if decide (p = get_prev h c) then
      Some (mk_links (get_next h c)
              (if decide (get_next h c = get_prev h c) then get_prev h c else get_prev h p))
    else if decide (p = get_next h c) then Some (mk_links (get_next h p) (get_prev h c))
    else h !! p.
Proof.
  intros. unfold cdll_unlink. autorewrite with cdll. repeat case_decide; congruence.
Qed.

Lemma ring_unlink h c r : ring h (c :: r) -> r <> [] ->
  ring (cdll_unlink h c) r /\ frame r h (cdll_unlink h c) /\
  get_next (cdll_unlink h c) c = hd 0 r.
Proof.
  intros Hr Hne. pose proof (ring_head_prev _ _ _ Hr) as Hprev.
  pose proof (ring_head_next _ _ _ Hr) as Hnext.
  destruct Hr as (Hnd & Hz & Hs). simpl in Hs. destruct Hs as [Hc Hs].
  apply NoDup_cons in Hnd as [Hcr Hnd].
  destruct r as [|x r]; [done|]. clear Hne. simpl in Hnext.
  assert (get_next h c <> c /\ get_prev h c <> c) as [Hn1 Hn2].
  { rewrite Hprev, Hnext, last_cons. pose proof (last_in x r). list_elem. }
  split; [split_and!; [done|list_elem|]|split].
  - destruct (decide (r = [])) as [->|Hne].
    + simpl in *. split; [|done]. rewrite lookup_unlink by done.
      rewrite Hprev, Hnext. simpl. by repeat case_decide.
    + destruct (exists_last Hne) as (m & y & ->).
      rewrite !last_cons, !List.last_last in *. simpl in Hs. destruct Hs as [Hx Hs].
      apply seg_app in Hs as [Hm [Hy _]].
      assert (y <> x /\ forall z, z ∈ m -> z <> x /\ z <> y) as (? & Hd).
      { apply NoDup_cons in Hnd as [Hd1 Hd2]. apply NoDup_app in Hd2 as (_ & Hd2 & _).
        split; [list_elem|]. intros z Hz'. specialize (Hd2 z Hz'). split; list_elem. }
      split; [|apply seg_app; split].
      * rewrite lookup_unlink by done. rewrite Hprev, Hnext.
        rewrite decide_False, decide_True by done.
        unfold get_next. rewrite lookup_total_alt, Hx. by destruct m.
      * eapply seg_frame; [|exact Hm]. intros z Hz'. destruct (Hd z Hz').
        rewrite lookup_unlink by done. by rewrite Hprev, Hnext, !decide_False.
      * simpl. split; [|done].
        rewrite lookup_unlink by done. rewrite Hprev, Hnext, decide_True, decide_False by done.
        unfold get_prev. by rewrite lookup_total_alt, Hy.
  - intros p Hp. rewrite lookup_unlink by done. rewrite Hprev, Hnext, last_cons.
    pose proof (last_in x r). rewrite !decide_False by list_elem. done.
  - unfold get_next. rewrite lookup_total_alt, lookup_unlink by done.
    rewrite Hprev, Hnext, last_cons. pose proof (last_in x r).
    rewrite !decide_False by list_elem. by rewrite Hc.
Qed.

(** ** The macros refine the list operations *)

(** Linking into an empty list makes the node its own neighbour. *)
Lemma ring_singleton h x : x <> 0 -> ring (cdll_add h 0 x) [x].
Proof.
  intros Hx. split_and!; [by apply NoDup_singleton|list_elem|].
  unfold cdll_add. rewrite c_true_0. simpl. autorewrite with cdll. by rewrite !decide_True.
Qed.

Lemma ring_nonzero h x l : ring h (x :: l) -> x <> 0.
Proof. intros (_ & H0 & _) ->. apply H0. by left. Qed.

Lemma cdll_add_link h lst new : lst <> 0 -> cdll_add h lst new = link_before h lst new.
Proof. intros. unfold cdll_add, link_before. by rewrite c_true_ne. Qed.

Lemma rep_add h lst l new : rep h lst l -> new ∉ l -> new <> 0 ->
  ring (cdll_add h lst new) (l ++ [new]) /\ frame (new :: l) h (cdll_add h lst new).
Proof.
  intros [-> Hr] Hn H0. destruct l as [|x l]; simpl.
  - split; [by apply ring_singleton|]. intros p Hp. unfold cdll_add. rewrite c_true_0.
    autorewrite with cdll. rewrite !decide_False by list_elem. done.
  - pose proof (ring_nonzero _ _ _ Hr). rewrite cdll_add_link by done.
    split; [by apply ring_link_before|by apply link_before_frame].
Qed.

Lemma rep_fill h lst l new : rep h lst l -> new ∉ l -> new <> 0 ->
  rep (cdll_fill h lst new).1 (cdll_fill h lst new).2 (l ++ [new]) /\
  frame (new :: l) h (cdll_fill h lst new).1.
Proof.
  intros Hl Hn H0. destruct (rep_add _ _ _ _ Hl Hn H0) as [Hr Hf].
  split; [split|done]; [|done]. destruct Hl as [-> Hl]. simpl.
  destruct l as [|x l]; [done|]. rewrite c_true_ne; [done|by eapply ring_nonzero].
Qed.

Lemma rep_push h lst l new : rep h lst l -> new ∉ l -> new <> 0 ->
  rep (cdll_push h lst new).1 (cdll_push h lst new).2 (new :: l) /\
  frame (new :: l) h (cdll_push h lst new).1.
Proof.
  intros Hl Hn H0. destruct (rep_add _ _ _ _ Hl Hn H0) as [Hr Hf].
  split; [split|]; [done| |done]. by apply (ring_rotate _ l [new]).
Qed.

Lemma ring_single_next h x l : ring h (x :: l) -> get_next h x = x <-> l = [].
Proof.
  intros Hr. rewrite (ring_head_next _ _ _ Hr). destruct Hr as (Hnd & _).
  destruct l as [|y l]; [done|]. simpl. split; [intros ->; list_elem|done].
Qed.

Lemma rep_pop_nil h lst : rep h lst [] -> cdll_pop h lst = (0, (h, 0)).
Proof. by intros [-> _]. Qed.

Lemma rep_pop_cons h lst x l : rep h lst (x :: l) ->
  (cdll_pop h lst).1 = x /\
  rep (cdll_pop h lst).2.1 (cdll_pop h lst).2.2 l /\ frame l h (cdll_pop h lst).2.1.
Proof.
  intros [-> Hr]. simpl hd. unfold cdll_pop. rewrite (c_true_ne x) by (by eapply ring_nonzero).
  pose proof (ring_single_next _ _ _ Hr) as Hone. rewrite (Z.eqb_sym x).
  destruct (Z.eqb_spec (get_next h x) x) as [He|Hne]; simpl.
  - apply Hone in He as ->. split_and!; [done| |done]. split; [done|].
    split_and!; [by apply NoDup_nil|list_elem|done].
  - assert (l <> []) by tauto. destruct (ring_unlink _ _ _ Hr) as (H1 & H2 & H3); [done|].
    by split_and!.
Qed.

(** Deleting a node of the list. *)
Lemma rep_del h lst l1 c l2 : rep h lst (l1 ++ c :: l2) ->
  rep (cdll_del h lst c).1 (cdll_del h lst c).2 (l1 ++ l2) /\
  frame (l1 ++ l2) h (cdll_del h lst c).1.
Proof.
  intros [-> Hr]. rewrite hd_app. simpl.
  pose proof (ring_rotate _ _ _ Hr) as Hc. simpl in Hc.
  assert (hd c l1 <> 0) as H0 by (destruct l1; eapply ring_nonzero; done).
  pose proof (ring_single_next _ _ _ Hc) as Hone.
  unfold cdll_del. rewrite c_true_ne by done.
  destruct l1 as [|x l1]; simpl in *.
  - rewrite app_nil_r in *. rewrite Z.eqb_refl, andb_true_r, Z.eqb_sym.
    destruct (Z.eqb_spec (get_next h c) c) as [He|Hne]; simpl.
    + apply Hone in He as ->. split; [|done]. split; [done|].
      split_and!; [by apply NoDup_nil|list_elem|done].
    + destruct (ring_unlink _ _ _ Hc) as (H1 & H2 & H3); [tauto|]. by split_and!.
  - assert (x <> c) as Hxc by (destruct Hr as [Hnd _]; list_elem).
    rewrite (proj2 (Z.eqb_neq x c)), (proj2 (Z.eqb_neq c x)), andb_false_r by congruence. simpl.
    destruct (ring_unlink _ _ _ Hc) as (H1 & H2 & _); [by destruct l2|].
    split; [split; [done|]|].
    + by apply (ring_rotate _ l2 (x :: l1)).
    + intros p Hp. apply H2. list_elem.
Qed.

(** [cdll_insert_before] performs the writes of [__cdll_add] in another order. *)
Lemma insert_before_link h lst cel ref : lst <> 0 -> cel <> ref -> cel <> get_prev h ref ->
  cdll_insert_before h lst cel ref =
    (link_before h ref cel, if ref =? lst then cel else lst).
Proof.
  intros. unfold cdll_insert_before. rewrite c_true_ne by done. f_equal.
  apply map_eq. intros p. rewrite lookup_link_before by done.
  autorewrite with cdll. repeat case_decide; congruence.
Qed.

Lemma rep_insert_before h lst l1 ref l2 cel :
  rep h lst (l1 ++ ref :: l2) -> cel ∉ l1 ++ ref :: l2 -> cel <> 0 ->
  rep (cdll_insert_before h lst cel ref).1 (cdll_insert_before h lst cel ref).2
      (l1 ++ cel :: ref :: l2) /\
  frame (l1 ++ cel :: ref :: l2) h (cdll_insert_before h lst cel ref).1.
Proof.
  intros [-> Hr] Hn H0. rewrite hd_app. simpl.
  pose proof (ring_rotate _ _ _ Hr) as Hc. simpl in Hc.
  assert (cel ∉ ref :: l2 ++ l1) as Hn' by list_elem.
  pose proof (ring_head_prev _ _ _ Hc) as Hprev. pose proof (last_in ref (l2 ++ l1)) as Hin.
  rewrite insert_before_link; [|destruct l1; eapply ring_nonzero; done|list_elem|].
  2: { rewrite Hprev. intros ->. tauto. }
  simpl. split; [split|].
  - rewrite hd_app. destruct l1 as [|x l1]; simpl; [by rewrite Z.eqb_refl|].
    destruct (Z.eqb_spec ref x); [|done]. destruct Hr as [Hnd _]. simpl in Hnd. list_elem.
  - pose proof (ring_link_before _ _ cel _ Hc Hn' H0) as Hl.
    rewrite <- app_assoc in Hl. by apply (ring_rotate _ (ref :: l2) (l1 ++ [cel])) in Hl;
      rewrite <- app_assoc in Hl.
  - intros p Hp. apply (link_before_frame _ _ _ (l2 ++ l1)); [done..|list_elem].
Qed.

(** The search loop terminates: one step per node is enough. *)
(** Walking the list: after [x] comes the next node, or the head again when
    [x] is the last one. *)
Lemma rep_walk h lst l1 x l2 : rep h lst (l1 ++ x :: l2) ->
  get_next h x = hd lst l2 /\ (get_next h x =? lst) = bool_decide (l2 = []).
Proof.
  intros [Hlst (Hnd & _ & Hs)]. apply seg_next in Hs. rewrite Hs, <- Hlst.
  destruct l2 as [|y l2]; simpl; [by rewrite Z.eqb_refl|]. split; [done|].
  rewrite hd_app in Hlst. simpl in Hlst. destruct (Z.eqb_spec y lst) as [->|]; [|done].
  destruct l1; simpl in *; list_elem.
Qed.

Lemma search_from_spec fuel h lst cel l1 x l2 :
  rep h lst (l1 ++ x :: l2) -> (length (x :: l2) <= fuel)%nat ->
  cdll_search_from fuel h lst cel x = Some (bool_decide (cel ∈ x :: l2)).
Proof.
  revert l1 x l2. induction fuel as [|fuel IH]; intros l1 x l2 Hl Hf; simpl in *; [lia|].
  destruct (Z.eqb_spec x cel) as [->|Hne]; simpl.
  { rewrite bool_decide_eq_true_2; [done|by left]. }
  destruct (rep_walk _ _ _ _ _ Hl) as [Hn Hb]. rewrite Hb, Hn. destruct l2 as [|y l2]; simpl.
  - by rewrite bool_decide_eq_false_2 by list_elem.
  - rewrite (IH (l1 ++ [x]) y l2); [| |simpl in *; lia].
    + f_equal. apply bool_decide_ext. rewrite (elem_of_cons _ cel x). intuition congruence.
    + by rewrite <- app_assoc.
Qed.

Lemma rep_search fuel h lst cel l : rep h lst l -> (length l <= fuel)%nat ->
  cdll_search fuel h lst cel = Some (bool_decide (cel ∈ l)).
Proof.
  intros Hl Hf. unfold cdll_search. destruct Hl as [-> Hr]. destruct l as [|x l]; simpl.
  - done.
  - rewrite c_true_ne by (by eapply ring_nonzero). by apply (search_from_spec _ _ _ _ []).
Qed.

(** ** The list as an abstract data type

    A client drives one list with a sequence of macros.  On the abstract side
    the list is the sequence of its nodes; a macro's precondition is what the
    callers ensure: a node that is added is not linked yet, a node that is
    removed or used as reference is. *)

Inductive cdll_op :=
  | op_fill (new : Z) | op_push (new : Z) | op_pop | op_del (cel : Z)
  | op_insert_before (cel ref : Z) | op_search (cel : Z).

(** The macros on the store and the head, with what they return. *)
Definition run_op (fuel : nat) (op : cdll_op) (st : store * Z) : option (Z * (store * Z)) :=
  let '(h, lst) := st in
  match op with
  | op_fill new => Some (0, cdll_fill h lst new)
  | op_push new => Some (0, cdll_push h lst new)
  | op_pop => Some (cdll_pop h lst)
  | op_del cel => Some (0, cdll_del h lst cel)
  | op_insert_before cel ref => Some (0, cdll_insert_before h lst cel ref)
  | op_search cel => found ← cdll_search fuel h lst cel; Some (Z.b2z found, st)
  end.

Fixpoint run_ops (fuel : nat) (ops : list cdll_op) (st : store * Z) : option (list Z * (store * Z)) :=
  match ops with
  | [] => Some ([], st)
  | op :: ops =>
      '(r, st) ← run_op fuel op st;
      '(rs, st) ← run_ops fuel ops st;
      Some (r :: rs, st)
  end.

Fixpoint insert_before (cel ref : Z) (l : list Z) : list Z :=
  match l with
  | [] => []
  | x :: l => if decide (x = ref) then cel :: x :: l else x :: insert_before cel ref l
  end.

(** The same operations on the sequence; [None] when the precondition of an
    operation fails. *)
Definition spec_op (op : cdll_op) (l : list Z) : option (Z * list Z) :=
  match op with
  | op_fill new => if decide ((new ∉ l) /\ new <> 0) then Some (0, l ++ [new]) else None
  | op_push new => if decide ((new ∉ l) /\ new <> 0) then Some (0, new :: l) else None
  | op_pop => Some (hd 0 l, tail l)
  | op_del cel => if decide (cel ∈ l) then Some (0, filter (fun x => x <> cel) l) else None
  | op_insert_before cel ref =>
      if decide (ref ∈ l /\ (cel ∉ l) /\ cel <> 0) then Some (0, insert_before cel ref l) else None
  | op_search cel => Some (Z.b2z (bool_decide (cel ∈ l)), l)
  end.

Fixpoint spec_ops (ops : list cdll_op) (l : list Z) : option (list Z * list Z) :=
  match ops with
  | [] => Some ([], l)
  | op :: ops =>
      '(r, l) ← spec_op op l;
      '(rs, l) ← spec_ops ops l;
      Some (r :: rs, l)
  end.

Lemma insert_before_split cel ref l1 l2 : ref ∉ l1 ->
  insert_before cel ref (l1 ++ ref :: l2) = l1 ++ cel :: ref :: l2.
Proof.
  induction l1 as [|x l1 IH]; intros Hn; simpl; [by rewrite decide_True|].
  rewrite decide_False by (intros ->; apply Hn; by left). f_equal. apply IH. list_elem.
Qed.

Lemma filter_split (c : Z) l1 l2 : NoDup (l1 ++ c :: l2) ->
  filter (fun x => x <> c) (l1 ++ c :: l2) = l1 ++ l2.
Proof.
  intros Hnd. assert (forall l : list Z, c ∉ l -> filter (fun x => x <> c) l = l) as Hf.
  { intros l. induction l as [|x l IH]; intros Hn; [done|].
    rewrite filter_cons, decide_True by list_elem. f_equal. apply IH. list_elem. }
  apply NoDup_app in Hnd as (_ & Hd & Hnd). apply NoDup_cons in Hnd as [H2 _].
  rewrite filter_app, filter_cons, decide_False by auto.
  rewrite !Hf; [done|done|]. intros H1. apply (Hd c H1). by left.
Qed.

Lemma spec_op_length op l r l' : spec_op op l = Some (r, l') -> (length l' <= S (length l))%nat.
Proof.
  destruct op; simpl; intros H; repeat case_decide; simplify_eq; simpl;
    rewrite ?length_app; simpl; try lia.
  - destruct l; simpl; lia.
  - pose proof (length_filter (fun x => x <> cel) l). lia.
  - clear. induction l as [|x l IH]; simpl; [lia|]. case_decide; simpl; lia.
Qed.

Lemma rep_nil h : rep h 0 [].
Proof. split; [done|]. split_and!; [apply NoDup_nil_2|apply not_elem_of_nil|done]. Qed.

Lemma run_op_spec fuel op h lst l r l' : rep h lst l -> (length l <= fuel)%nat ->
  spec_op op l = Some (r, l') ->
  exists h' lst', run_op fuel op (h, lst) = Some (r, (h', lst')) /\ rep h' lst' l'.
Proof.
  intros Hl Hf Hs. pose proof Hl as [_ (Hnd & _ & _)].
  assert (forall (r0 : Z) (x : store * Z), rep x.1 x.2 l' ->
    exists h' lst', Some (r0, x) = Some (r0, (h', lst')) /\ rep h' lst' l') as Hex.
  { intros r0 [h' lst'] ?. by exists h', lst'. }
  destruct op as [new|new| |cel|cel ref|cel]; simpl in *.
  - case_decide as Hc; [|done]. destruct Hc. simplify_eq. apply Hex. by apply rep_fill.
  - case_decide as Hc; [|done]. destruct Hc. simplify_eq. apply Hex. by apply rep_push.
  - simplify_eq. destruct l as [|x l].
    + rewrite (rep_pop_nil _ _ Hl). by apply Hex, rep_nil.
    + destruct (rep_pop_cons _ _ _ _ Hl) as (Hr & Hp & _).
      destruct (cdll_pop h lst) as [r0 x0]. simpl in *. subst. by apply Hex.
  - case_decide as Hc; [|done]. simplify_eq. apply list_elem_of_split in Hc as (l1 & l2 & ->).
    rewrite filter_split in * by done. apply Hex. by apply rep_del.
  - case_decide as Hc; [|done]. destruct Hc as (Hr & Hn & H0). simplify_eq.
    apply list_elem_of_split in Hr as (l1 & l2 & ->).
    assert (ref ∉ l1) as Hr1.
    { apply NoDup_app in Hnd as (_ & Hd & _). intros Hr. apply (Hd ref Hr). by left. }
    rewrite insert_before_split in * by done. apply Hex. by apply rep_insert_before.
  - simplify_eq. rewrite (rep_search _ _ _ _ _ Hl Hf). simpl. by apply Hex.
Qed.

(** ** Property *)

(** C38: the macros implement the list: on any sequence of operations whose
    preconditions hold ([spec_ops] answers: an element added is not null nor
    in the list, and one removed or inserted before is in it), run from a list that holds the nodes [l], the store
    returns what the abstract list returns, and ends as a representation of
    the abstract result.  The fuel bounds the length of the list, which only
    [cdll_search] walks. *)
Theorem cdll_refines fuel ops h lst l rs l' : rep h lst l ->
  (length l + length ops <= fuel)%nat -> spec_ops ops l = Some (rs, l') ->
  exists h' lst', run_ops fuel ops (h, lst) = Some (rs, (h', lst')) /\ rep h' lst' l'.
Proof.
  revert h lst l rs l'. induction ops as [|op ops IH]; intros h lst l rs l' Hl Hf Hs;
    cbn [run_ops spec_ops length] in *.
  { simplify_eq. eauto. }
  destruct (spec_op op l) as [[r l1]|] eqn:Ho; [|done]. simpl in Hs.
  destruct (spec_ops ops l1) as [[rs1 l2]|] eqn:Hos; [|done]. simpl in Hs. simplify_eq.
  pose proof (spec_op_length _ _ _ _ Ho).
  destruct (run_op_spec fuel _ _ _ _ _ _ Hl ltac:(lia) Ho) as (h1 & lst1 & -> & Hl1). simpl.
  destruct (IH _ _ _ _ _ Hl1 ltac:(lia) Hos) as (h2 & lst2 & -> & Hl2). simpl. eauto.
Qed.

Example cdll_refines_witness : exists h' lst',
  run_ops 16 [op_fill 10; op_push 20; op_insert_before 30 10; op_del 20; op_search 20; op_pop] (∅, 0)
    = Some ([0; 0; 0; 0; 0; 30], (h', lst')) /\ rep h' lst' [10].
Proof.
  apply (cdll_refines 16 _ ∅ 0 []).
  - apply rep_nil.
  - simpl. lia.
  - reflexivity.
Defined.
