(* ===== verification/Pagemem.v ===== *)
(** * Addresses and paging entries (include/types.h, include/pagemem.h)

    The alignment and index macros on 64-bit addresses, the bit layout of the
    long-mode paging entries and the macros that read and write them.  An
    entry is its raw 64-bit value; a C bit field is [bits]/[set_bits]. *)

From S2P Require Import Prelude.

(** ** Alignment and ranges (types.h) *)

(** [__align], [__aligned], [__align_next] on 64-bit addresses. *)
Definition align (addr val : Z) : Z := Z.land addr (wnot 64 (val - 1)).
Definition aligned (addr val : Z) : bool := negb (c_true (Z.land addr (val - 1))).
Definition align_next (addr val : Z) : Z := align (wrap64 (addr + val)) val.

Definition mem_range (a s e : Z) : bool := (s <=? a) && (a <? e).

Definition sizeof_long : Z := 8.
Definition long_aligned (addr : Z) : bool := aligned addr sizeof_long.
Definition long_align_next (addr : Z) : Z := align_next addr sizeof_long.

(** ** Page sizes *)

Definition PG_4K_SHIFT : Z := 12.
Definition PG_2M_SHIFT : Z := 21.
Definition PG_4M_SHIFT : Z := 22.
Definition PG_1G_SHIFT : Z := 30.
Definition PG_512G_SHIFT : Z := 39.

Definition PG_4K_SIZE : Z := Z.shiftl 1 PG_4K_SHIFT.
Definition PG_2M_SIZE : Z := Z.shiftl 1 PG_2M_SHIFT.
Definition PG_4M_SIZE : Z := Z.shiftl 1 PG_4M_SHIFT.
Definition PG_1G_SIZE : Z := Z.shiftl 1 PG_1G_SHIFT.
Definition PG_512G_SIZE : Z := Z.shiftl 1 PG_512G_SHIFT.
Abbreviation PAGE_SIZE := PG_4K_SIZE.
Abbreviation PAGE_SHIFT := PG_4K_SHIFT.

(** [pg_xx_offset], [pg_xx_nr], [pg_xx_addr] for the page size [1 << shf]. *)
Definition pg_offset (shf addr : Z) : Z := Z.land addr (Z.shiftl 1 shf - 1).
Definition pg_nr (shf addr : Z) : Z := Z.shiftr addr shf.
Definition pg_addr (shf pfn : Z) : Z := wrap64 (Z.shiftl pfn shf).

Definition page_nr (addr : Z) : Z := pg_nr PG_4K_SHIFT addr.
Definition page_addr (pfn : Z) : Z := pg_addr PG_4K_SHIFT pfn.
Definition page_align (addr : Z) : Z := align addr PAGE_SIZE.
Definition page_aligned (addr : Z) : bool := aligned addr PAGE_SIZE.

(** ** Table indexes *)

Definition pml4_idx (addr : Z) : Z := Z.land (Z.shiftr addr PG_512G_SHIFT) 0x1ff.
Definition pdp_idx (addr : Z) : Z := Z.land (Z.shiftr addr PG_1G_SHIFT) 0x1ff.
Definition pd64_idx (addr : Z) : Z := Z.land (Z.shiftr addr PG_2M_SHIFT) 0x1ff.
Definition pt64_idx (addr : Z) : Z := Z.land (Z.shiftr addr PG_4K_SHIFT) 0x1ff.
Definition pdp_pae_idx (addr : Z) : Z := Z.land (Z.shiftr addr PG_1G_SHIFT) 0x3.
Definition pd32_idx (addr : Z) : Z := Z.land (Z.shiftr addr PG_4M_SHIFT) 0x3ff.
Definition pt32_idx (addr : Z) : Z := Z.land (Z.shiftr addr PG_4K_SHIFT) 0x3ff.

Definition pg_abs_idx (addr shift : Z) : Z := Z.shiftr addr shift.

(** Number of entries of a 64-bit table, and the address of an entry. *)
Definition ENTRIES : nat := 512.
Definition entry64 (table idx : Z) : Z := table + 8 * idx.
Definition entry32 (table idx : Z) : Z := table + 4 * idx.

(** ** Attribute bits *)

Definition PG_P : Z := Z.shiftl 1 0.
Definition PG_RW : Z := Z.shiftl 1 1.
Definition PG_USR : Z := Z.shiftl 1 2.
Definition PG_PS : Z := Z.shiftl 1 7.
Definition PG_NX : Z := Z.shiftl 1 63.

(** ** Entries

    The fields of [pml4e_t], [pdpe_t], [pde64_t] and [pte64_t]: the low bits
    and the 40-bit frame number are at the same place in the four of them, a
    large page has its frame number higher. *)

Definition e_p (e : Z) : bool := bit e 0.
Definition e_rw (e : Z) : bool := bit e 1.
Definition e_lvl (e : Z) : bool := bit e 2.
Definition e_ps (e : Z) : bool := bit e 7.
Definition e_nx (e : Z) : bool := bit e 63.
Definition e_addr (e : Z) : Z := bits e 12 40.
Definition set_e_addr (e pfn : Z) : Z := set_bits e 12 40 pfn.

Definition pdpe_page_addr (e : Z) : Z := bits e 30 22.
Definition pde_page_addr (e : Z) : Z := bits e 21 31.
Definition set_pdpe_page_addr (e pfn : Z) : Z := set_bits e 30 22 pfn.
Definition set_pde_page_addr (e pfn : Z) : Z := set_bits e 21 31 pfn.

(** The fields of [pdpe_t.pae] that differ. *)
Definition pae_r0 (e : Z) : Z := bits e 1 2.
Definition pae_r1 (e : Z) : Z := bits e 5 4.

(** [pde32_t] and [pte32_t]. *)
Definition e32_addr (e : Z) : Z := bits e 12 20.
Definition pde32_page_addr (e : Z) : Z := bits e 22 10.

(** ** Macros on entries *)

Definition pg_present (e : Z) : bool := e_p e.
Definition pg_readable (e : Z) : bool := pg_present e.
Definition pg_writable (e : Z) : bool := pg_present e && e_rw e.
Definition pg_large (e : Z) : bool := e_ps e.

(** [pg64_executable]; [nxe] is the guest's EFER.NXE. *)
Definition pg64_executable (nxe : bool) (e : Z) : bool :=
  if nxe then negb (e_nx e) else true.

Definition pg_get_attr (e : Z) : Z := Z.land e (Z.lor PG_USR PG_RW).

(** [valid_pae_pdpe] for the maximum physical address [max_paddr]. *)
Definition valid_pae_pdpe (max_paddr e : Z) : bool :=
  if e_p e then
    negb (c_true (pae_r0 e) || c_true (pae_r1 e)) && negb (max_paddr <? e)
  else true.

(** [pg_set_pvl] and [pg_has_pvl_w] on the low byte. *)
Definition pg_set_pvl (e pvl : Z) : Z :=
  let e := set_bits e 0 8 (Z.land (bits e 0 8) (wnot 8 7)) in
  set_bits e 0 8 (Z.lor (bits e 0 8) pvl).
Definition pg_has_pvl_w (e : Z) : bool := c_true (Z.land (bits e 0 8) PG_RW).

Definition pg_set_entry (attr pfn : Z) : Z := set_e_addr (Z.lor attr PG_P) pfn.
Definition pg_set_large_pde (attr pfn : Z) : Z :=
  set_pde_page_addr (Z.lor (Z.lor attr PG_PS) PG_P) pfn.
Definition pg_set_large_pdpe (attr pfn : Z) : Z :=
  set_pdpe_page_addr (Z.lor (Z.lor attr PG_PS) PG_P) pfn.

(** ** Arithmetic reading of the macros *)

Lemma wnot_pow2 k : 0 <= k <= 64 -> forall i, 0 <= i ->
  Z.testbit (wnot 64 (2 ^ k - 1)) i = (k <=? i) && (i <? 64).
Proof.
  intros Hk i Hi. unfold wnot. rewrite Z.sub_1_r, <- Z.ones_equiv.
  autorewrite with zbit. repeat zbit_split; done.
Qed.

(** Alignment on a power of two is rounding down. *)
Lemma align_pow2 k a : 0 <= k <= 64 -> fits 64 a -> align a (2 ^ k) = 2 ^ k * (a / 2 ^ k).
Proof.
  intros Hk Ha. rewrite Z.mul_comm, <- Z.shiftr_div_pow2, <- Z.shiftl_mul_pow2 by lia.
  unfold align. apply Z.bits_inj'. intros i Hi.
  rewrite Z.land_spec, wnot_pow2, testbit_shiftl by lia.
  destruct (Z.leb_spec k i); simpl.
  - rewrite Z.shiftr_spec by lia. replace (i - k + k) with i by lia.
    destruct (Z.ltb_spec i 64); simpl; [by rewrite andb_true_r|].
    by rewrite (fits_testbit 64 a i) by (done || lia).
  - rewrite (testbit_neg _ (i - k)) by lia. apply andb_false_r.
Qed.

Lemma aligned_pow2 k a : 0 <= k -> aligned a (2 ^ k) = (a mod 2 ^ k =? 0).
Proof.
  intros Hk. unfold aligned, c_true. rewrite negb_involutive, Z.sub_1_r, <- Z.ones_equiv.
  by rewrite Z.land_ones.
Qed.

Lemma pg_offset_mod shf a : 0 <= shf -> pg_offset shf a = a mod 2 ^ shf.
Proof.
  intros. unfold pg_offset. rewrite Z.shiftl_1_l, Z.sub_1_r, <- Z.ones_equiv.
  by rewrite Z.land_ones.
Qed.

Lemma pg_nr_div shf a : 0 <= shf -> pg_nr shf a = a / 2 ^ shf.
Proof. apply Z.shiftr_div_pow2. Qed.

Lemma pg_addr_mul shf n : 0 <= shf -> fits (64 - shf) n -> pg_addr shf n = n * 2 ^ shf.
Proof.
  intros Hs [Hn1 Hn2]. unfold pg_addr. rewrite Z.shiftl_mul_pow2 by done.
  apply wrap_id. split; [lia|].
  destruct (Z.le_gt_cases shf 64).
  - replace 64 with ((64 - shf) + shf) at 1 by lia. rewrite Z.pow_add_r by lia. nia.
  - rewrite Z.pow_neg_r in Hn2 by lia. lia.
Qed.

(** Splitting an address at a page boundary and joining it again. *)
Lemma pg_addr_nr_offset shf a : 0 <= shf <= 64 -> fits 64 a ->
  pg_addr shf (pg_nr shf a) + pg_offset shf a = a.
Proof.
  intros Hs [Ha1 Ha2]. rewrite pg_offset_mod, pg_nr_div by lia.
  assert (0 < 2 ^ shf) by (apply Z.pow_pos_nonneg; lia).
  rewrite pg_addr_mul; [|lia|].
  - pose proof (Z.div_mod a (2 ^ shf)). lia.
  - split; [apply Z.div_pos; lia|]. apply Z.div_lt_upper_bound; [lia|].
    rewrite <- Z.pow_add_r by lia. by replace (shf + (64 - shf)) with 64 by lia.
Qed.

Lemma idx9 a shf : 0 <= shf -> Z.land (Z.shiftr a shf) 0x1ff = (a / 2 ^ shf) mod 512.
Proof. intros. change 0x1ff with (Z.ones 9). by rewrite Z.land_ones, Z.shiftr_div_pow2. Qed.

Lemma idx9_bound a shf : 0 <= Z.land (Z.shiftr a shf) 0x1ff < 512.
Proof. change 0x1ff with (Z.ones 9). rewrite Z.land_ones by lia. apply Z.mod_pos_bound. lia. Qed.

(** The four indexes and the page offset of an address determine it. *)
Lemma idx_decompose a : fits 48 a ->
  a = pml4_idx a * 2 ^ 39 + pdp_idx a * 2 ^ 30 + pd64_idx a * 2 ^ 21
      + pt64_idx a * 2 ^ 12 + pg_offset 12 a.
Proof.
  intros [H0 H1]. assert (a / 2 ^ 39 < 512) by (apply Z.div_lt_upper_bound; lia).
  unfold pml4_idx, pdp_idx, pd64_idx, pt64_idx.
  rewrite pg_offset_mod, !idx9 by (unfold PG_512G_SHIFT, PG_1G_SHIFT, PG_2M_SHIFT, PG_4K_SHIFT; lia).
  unfold PG_512G_SHIFT, PG_1G_SHIFT, PG_2M_SHIFT, PG_4K_SHIFT.
  change (2 ^ 39) with 549755813888. change (2 ^ 30) with 1073741824.
  change (2 ^ 21) with 2097152. change (2 ^ 12) with 4096.
  change (2 ^ 48) with 281474976710656 in H1.
  Z.to_euclidean_division_equations; lia.
Qed.
