(* ===== verification/Alloc.v ===== *)
(** * The page allocator interface

    What the vmm's page pool promises to its clients, the nested page mapper
    and the slab allocator: two operations on a state and the laws relating
    them to an abstract view, the free pages in allocation order and the set
    of pages in use.  [Pool.v] proves the laws for the real pool; the clients
    are proved against this class only. *)

From S2P Require Import Prelude.
From S2P Require Import Pagemem.

(** A page frame that can be handed out: page aligned, never null, inside the
    52-bit physical address space. *)
Definition is_page (p : Z) : Prop :=
  exists n, p = n * 4096 /\ 0 < n < 2 ^ 40.

Class PageAlloc (S : Type) := {
  pa_pop : S -> Z * S;
  pa_push : Z -> S -> S;
  (** [alloc_rep s free used]: the abstract view of [s]. *)
  alloc_rep : S -> list Z -> gset Z -> Prop;
}.

Class PageAllocLaws (S : Type) {PA : PageAlloc S} := {
  alloc_pages s free used : alloc_rep s free used ->
    forall p, p ∈ free \/ p ∈ used -> is_page p;
  alloc_disjoint s free used : alloc_rep s free used ->
    NoDup free /\ (forall p, p ∈ free -> p ∉ used);
  pop_empty s used : alloc_rep s [] used -> pa_pop s = (0, s);
  pop_page s p free used : alloc_rep s (p :: free) used ->
    (pa_pop s).1 = p /\ alloc_rep (pa_pop s).2 free ({[p]} ∪ used);
  push_used s p free used : alloc_rep s free used -> p ∈ used ->
    alloc_rep (pa_push p s) (p :: free) (used ∖ {[p]});
  push_other s p free used : alloc_rep s free used -> (4096 | p) -> p ∉ used ->
    pa_push p s = s;
}.

(** ** Sequences of calls

    The abstract allocator: the free pages form a stack, the used ones a set.
    Giving back a page that is not in use has no effect, which makes a double
    free harmless. *)

Inductive alloc_op := alloc_pop | alloc_push (pg : Z).

Definition alloc_step {S} {PA : PageAlloc S} (op : alloc_op) (s : S) : Z * S :=
  match op with alloc_pop => pa_pop s | alloc_push pg => (0, pa_push pg s) end.

Definition alloc_spec_step (op : alloc_op) (st : list Z * gset Z) : Z * (list Z * gset Z) :=
  let '(free, used) := st in
  match op with
  | alloc_pop =>
      match free with [] => (0, st) | p :: free => (p, (free, {[p]} ∪ used)) end
  | alloc_push pg =>
      if decide (pg ∈ used) then (0, (pg :: free, used ∖ {[pg]})) else (0, st)
  end.

(** The results of the calls and the final state. *)
Fixpoint run_steps {S} (step : alloc_op -> S -> Z * S) (ops : list alloc_op) (s : S) : list Z * S :=
  match ops with
  | [] => ([], s)
  | op :: ops =>
      let (r, s) := step op s in
      let (rs, s) := run_steps step ops s in
      (r :: rs, s)
  end.

Definition op_page_ok (op : alloc_op) : Prop :=
  match op with alloc_pop => True | alloc_push pg => is_page pg end.

Section refinement.
  Context {S : Type} {PA : PageAlloc S} {PL : PageAllocLaws S}.

Lemma alloc_step_spec op s free used : alloc_rep s free used -> op_page_ok op ->
  let r := alloc_step op s in let r' := alloc_spec_step op (free, used) in
  r.1 = r'.1 /\ alloc_rep r.2 r'.2.1 r'.2.2.
Proof.
  intros Hs Hop. destruct op as [|pg]; simpl.
  - destruct free as [|p free]; [by rewrite (pop_empty _ _ Hs)|]. by apply pop_page.
  - case_decide; [split; [done|by apply push_used]|].
    destruct Hop as (n & -> & _). by rewrite (push_other _ _ _ _ Hs) by (done || by exists n).
Qed.

Lemma run_steps_refines ops : forall s free used, alloc_rep s free used -> Forall op_page_ok ops ->
  let r := run_steps alloc_step ops s in let r' := run_steps alloc_spec_step ops (free, used) in
  r.1 = r'.1 /\ alloc_rep r.2 r'.2.1 r'.2.2.
Proof.
  induction ops as [|op ops IH]; intros s free used Hs Hops; [done|].
  apply Forall_cons in Hops as [Hop Hops]. cbn [run_steps].
  destruct (alloc_step_spec op s free used Hs Hop) as [Hr Hs'].
  destruct (alloc_step op s) as [r s'], (alloc_spec_step op (free, used)) as [r' [free' used']].
  cbn [fst snd] in *. subst r'. destruct (IH s' free' used' Hs' Hops) as [Hrs Hs''].
  destruct (run_steps _ ops s') as [rs s''], (run_steps _ ops (free', used')) as [rs' [free'' used'']].
  cbn [fst snd] in *. by subst.
Qed.

End refinement.
