(* ===== verification/Pool.v ===== *)
(** * The vmm page pool (common/libc/pool.c, include/pool.h)

    The pool describes each of its pages by a descriptor, an element of the
    array [all]; free and used descriptors are linked in two circular lists
    and a flag of the descriptor says which one it is on.  The model keeps the
    descriptors in memory: their [page.raw] word by address and their links in
    the shared store of [Cdll]. *)

From S2P Require Import Prelude.
From S2P Require Import Cdll.
From S2P Require Import Pagemem.
From S2P Require Import Alloc.

Definition POOL_PG_INUSE : Z := 1.

(** [sizeof(pool_pg_desc_t)]: a 64-bit word and two pointers, packed. *)
Definition sizeof_pool_pg_desc : Z := 24.

(** [vmm_pool_t], with the memory the descriptors live in. *)
Record vmm_pool := mk_pool {
  p_addr : Z;          (** [addr]: first page *)
  p_sz : Z;            (** [sz]: size in bytes *)
  p_all : Z;           (** [all]: descriptor array *)
  p_used : Z;          (** [used]: list of used descriptors *)
  p_free : Z;          (** [free]: list of free descriptors *)
  p_raw : gmap Z Z;    (** [page.raw] of the descriptor at an address *)
  p_lnk : store;       (** links of the descriptors *)
}.

Definition raw_of (pl : vmm_pool) (d : Z) : Z := rd0 (p_raw pl) d.

(** The 12-bit [flags] field of the descriptor's word. *)
Definition desc_flags (pl : vmm_pool) (d : Z) : Z := bits (raw_of pl d) 0 12.

Definition set_raw (d v : Z) (pl : vmm_pool) : vmm_pool :=
  mk_pool (p_addr pl) (p_sz pl) (p_all pl) (p_used pl) (p_free pl) (<[d := v]> (p_raw pl)) (p_lnk pl).
Definition set_flags (d v : Z) (pl : vmm_pool) : vmm_pool :=
  set_raw d (set_bits (raw_of pl d) 0 12 v) pl.
Definition with_used (r : store * Z) (pl : vmm_pool) : vmm_pool :=
  mk_pool (p_addr pl) (p_sz pl) (p_all pl) r.2 (p_free pl) (p_raw pl) r.1.
Definition with_free (r : store * Z) (pl : vmm_pool) : vmm_pool :=
  mk_pool (p_addr pl) (p_sz pl) (p_all pl) (p_used pl) r.2 (p_raw pl) r.1.

(** [&info->vmm.pool.all[i]] *)
Definition desc_at (pl : vmm_pool) (i : Z) : Z := p_all pl + i * sizeof_pool_pg_desc.

(** ** Operations *)

Definition pool_init_step (pl : vmm_pool) (i : Z) : vmm_pool :=
  let d := desc_at pl i in
  let pl := set_raw d (wrap64 (p_addr pl + i * PAGE_SIZE)) pl in
  with_free (cdll_push (p_lnk pl) (p_free pl) d) pl.

Definition pool_init (pl : vmm_pool) : vmm_pool :=
  fold_left pool_init_step (seqZ 0 (p_sz pl / PAGE_SIZE)) pl.

Definition pool_get_desc (pl : vmm_pool) (pg : Z) : Z :=
  let nr := page_nr pg in
  let mn := page_nr (p_addr pl) in
  let mx := page_nr (wrap64 (p_addr pl + p_sz pl)) in
  if (nr <? mn) || (mx <=? nr) then 0 else desc_at pl (nr - mn).

Definition pool_push_page (pg : Z) (pl : vmm_pool) : vmm_pool :=
  let desc := pool_get_desc pl pg in
  if negb (c_true desc) || negb (c_true (Z.land (desc_flags pl desc) POOL_PG_INUSE))
  then pl
  else
    let pl := with_used (cdll_del (p_lnk pl) (p_used pl) desc) pl in
    let pl := set_flags desc (Z.land (desc_flags pl desc) (wnot 12 POOL_PG_INUSE)) pl in
    with_free (cdll_push (p_lnk pl) (p_free pl) desc) pl.

Definition pool_pop_page (pl : vmm_pool) : Z * vmm_pool :=
  let (desc, fr) := cdll_pop (p_lnk pl) (p_free pl) in
  let pl := with_free fr pl in
  if negb (c_true desc) then (0, pl)
  else
    let pl := set_flags desc (Z.lor (desc_flags pl desc) POOL_PG_INUSE) pl in
    let pl := with_used (cdll_push (p_lnk pl) (p_used pl) desc) pl in
    (Z.land (raw_of pl desc) (wnot 64 (PAGE_SIZE - 1)), pl).

(** ** The invariant

    [fi] and [ui] are the indexes of the free and used descriptors, in list
    order.  Together they enumerate the pool; the raw word of descriptor [i]
    is the address of page [i], with the in-use flag in its low bits. *)

Definition page (pl : vmm_pool) (i : Z) : Z := p_addr pl + i * 4096.
Definition nr_pages (pl : vmm_pool) : Z := p_sz pl / 4096.

Record layout_ok (pl : vmm_pool) : Prop := {
  lo_addr : exists a, p_addr pl = a * 4096 /\ 0 < a /\ a + nr_pages pl < 2 ^ 40;
  lo_sz : p_sz pl = nr_pages pl * 4096 /\ 0 <= nr_pages pl;
  lo_all : 0 < p_all pl;
}.

Record pool_wf (pl : vmm_pool) (fi ui : list Z) : Prop := {
  wf_layout : layout_ok pl;
  wf_free : rep (p_lnk pl) (p_free pl) (desc_at pl <$> fi);
  wf_used : rep (p_lnk pl) (p_used pl) (desc_at pl <$> ui);
  wf_perm : fi ++ ui ≡ₚ seqZ 0 (nr_pages pl);
  wf_free_raw i : i ∈ fi -> raw_of pl (desc_at pl i) = page pl i;
  wf_used_raw i : i ∈ ui -> raw_of pl (desc_at pl i) = page pl i + POOL_PG_INUSE;
}.

Lemma layout_same pl pl' : p_addr pl = p_addr pl' -> p_sz pl = p_sz pl' ->
  p_all pl = p_all pl' -> layout_ok pl -> layout_ok pl'.
Proof.
  intros Ha Hs Hl [H1 H2 H3]. unfold nr_pages in *.
  split; unfold nr_pages; rewrite <- ?Ha, <- ?Hs, <- ?Hl; done.
Qed.

Lemma desc_at_inj pl : Inj (=) (=) (desc_at pl).
Proof. intros i j. unfold desc_at, sizeof_pool_pg_desc. lia. Qed.
#[export] Existing Instance desc_at_inj.

Lemma page_inj pl : Inj (=) (=) (page pl).
Proof. intros i j. unfold page. lia. Qed.
#[export] Existing Instance page_inj.

Lemma elem_of_descs pl (l : list Z) i : desc_at pl i ∈ desc_at pl <$> l <-> i ∈ l.
Proof. apply list_elem_of_fmap_inj, _. Qed.

Section wf.
Context (pl : vmm_pool) (fi ui : list Z) (Hwf : pool_wf pl fi ui).

Lemma wf_index i : i ∈ fi \/ i ∈ ui -> 0 <= i < nr_pages pl.
Proof.
  intros Hi. assert (i ∈ seqZ 0 (nr_pages pl)) as Hs%elem_of_seqZ; [|lia].
  rewrite <- (wf_perm _ _ _ Hwf), elem_of_app. done.
Qed.

Lemma wf_nodup : NoDup fi /\ NoDup ui /\ forall i, i ∈ fi -> i ∉ ui.
Proof.
  assert (NoDup (fi ++ ui)) as Hn by (rewrite (wf_perm _ _ _ Hwf); apply NoDup_seqZ).
  apply NoDup_app in Hn as (? & ? & ?). auto.
Qed.

Lemma wf_descs_disjoint : (desc_at pl <$> fi) ## (desc_at pl <$> ui).
Proof.
  intros d (i & -> & Hi)%list_elem_of_fmap Hu%elem_of_descs.
  by apply (proj2 (proj2 wf_nodup) i).
Qed.

Lemma wf_desc_nonzero i : 0 <= i -> desc_at pl i <> 0.
Proof.
  intros Hi. pose proof (lo_all _ (wf_layout _ _ _ Hwf)).
  unfold desc_at, sizeof_pool_pg_desc. lia.
Qed.

Lemma wf_page i : i ∈ fi \/ i ∈ ui -> is_page (page pl i).
Proof.
  intros Hi%wf_index. destruct (lo_addr _ (wf_layout _ _ _ Hwf)) as (a & Ha & ? & ?).
  exists (a + i). unfold page. lia.
Qed.

Lemma wf_page_fits i : i ∈ fi \/ i ∈ ui -> fits 64 (page pl i).
Proof. intros (n & -> & ? & ?)%wf_page. split; lia. Qed.

(** The descriptor of an address in the pool, and of one outside. *)
Lemma get_desc_page i : 0 <= i < nr_pages pl -> pool_get_desc pl (page pl i) = desc_at pl i.
Proof.
  intros Hi. destruct (wf_layout _ _ _ Hwf) as [(a & Ha & ? & ?) [Hs ?] ?].
  unfold pool_get_desc, page_nr, page, PG_4K_SHIFT. rewrite !pg_nr_div, wrap_id by (lia || split; lia).
  rewrite Ha, Hs, <- !Z.mul_add_distr_r. change (2 ^ 12) with 4096. rewrite !Z.div_mul by lia.
  rewrite (proj2 (Z.ltb_ge _ _)), (proj2 (Z.leb_gt _ _)) by lia. simpl. f_equal. lia.
Qed.

Lemma get_desc_inv n : pool_get_desc pl (n * 4096) = 0 \/
  exists i, 0 <= i < nr_pages pl /\ n * 4096 = page pl i /\ pool_get_desc pl (n * 4096) = desc_at pl i.
Proof.
  destruct (wf_layout _ _ _ Hwf) as [(a & Ha & ? & ?) [Hs ?] ?].
  unfold pool_get_desc, page_nr, page, PG_4K_SHIFT. rewrite !pg_nr_div, wrap_id by (lia || split; lia).
  rewrite Ha, Hs, <- !Z.mul_add_distr_r. change (2 ^ 12) with 4096. rewrite !Z.div_mul by lia.
  destruct (Z.ltb_spec n a), (Z.leb_spec (a + nr_pages pl) n); simpl; auto.
  right. exists (n - a). lia.
Qed.
End wf.

(** The flag bits of a descriptor's word. *)
Lemma flags_page pl fi ui d i f v : pool_wf pl fi ui -> i ∈ fi \/ i ∈ ui ->
  raw_of pl d = page pl i + f -> 0 <= f < 4096 ->
  desc_flags pl d = f /\ set_bits (raw_of pl d) 0 12 v = page pl i + v mod 4096.
Proof.
  intros Hwf Hi Hr Hf. destruct (wf_page _ _ _ Hwf _ Hi) as (n & Hn & _).
  unfold desc_flags. rewrite Hr, Hn. change 4096 with (2 ^ 12) in *.
  by rewrite bits_low, set_bits_low by lia.
Qed.

Lemma page_of_raw pl fi ui i f : pool_wf pl fi ui -> i ∈ fi \/ i ∈ ui -> 0 <= f < 4096 ->
  Z.land (page pl i + f) (wnot 64 (PAGE_SIZE - 1)) = page pl i.
Proof.
  intros Hwf Hi Hf. destruct (wf_page _ _ _ Hwf _ Hi) as (n & Hn & ? & ?). rewrite Hn.
  change PAGE_SIZE with (2 ^ 12). change (Z.land ?a (wnot 64 (2 ^ 12 - 1))) with (align a (2 ^ 12)).
  rewrite align_pow2 by (lia || split; lia). change (2 ^ 12) with 4096.
  rewrite Z.div_add_l, Z.div_small by lia. lia.
Qed.

(** ** The operations preserve the invariant *)

Lemma raw_of_set_raw pl d v d' :
  raw_of (set_raw d v pl) d' = if decide (d = d') then v else raw_of pl d'.
Proof. apply rd0_insert. Qed.

(** Moving a descriptor between the lists: what the raw words become. *)
Lemma raw_of_moved pl pl' i j v : raw_of (set_raw (desc_at pl i) v pl') (desc_at pl j) =
  if decide (i = j) then v else raw_of pl' (desc_at pl j).
Proof.
  rewrite raw_of_set_raw. destruct (decide (i = j)) as [->|Hne].
  - by rewrite decide_True.
  - rewrite decide_False; [done|]. by intros ?%(inj (desc_at pl)).
Qed.

Lemma raw_of_with_free r pl d : raw_of (with_free r pl) d = raw_of pl d.
Proof. done. Qed.
Lemma raw_of_with_used r pl d : raw_of (with_used r pl) d = raw_of pl d.
Proof. done. Qed.

(** The invariant of an updated pool, stated with the layout of the old one. *)
Lemma wf_update pl pl' fi ui : layout_ok pl ->
  p_addr pl' = p_addr pl -> p_sz pl' = p_sz pl -> p_all pl' = p_all pl ->
  rep (p_lnk pl') (p_free pl') (desc_at pl <$> fi) ->
  rep (p_lnk pl') (p_used pl') (desc_at pl <$> ui) ->
  fi ++ ui ≡ₚ seqZ 0 (nr_pages pl) ->
  (forall i, i ∈ fi -> raw_of pl' (desc_at pl i) = page pl i) ->
  (forall i, i ∈ ui -> raw_of pl' (desc_at pl i) = page pl i + POOL_PG_INUSE) ->
  pool_wf pl' fi ui.
Proof.
  intros Hl Ha Hs Hd Hf Hu Hp Hfr Hur.
  assert (desc_at pl' = desc_at pl) as Hda by (unfold desc_at; by rewrite Hd).
  assert (page pl' = page pl) as Hpg by (unfold page; by rewrite Ha).
  split; rewrite ?Hda, ?Hpg; [by apply (layout_same pl)|done..| |done|done].
  unfold nr_pages. by rewrite Hs.
Qed.

Create Rewrite HintDb pool.
#[export] Hint Rewrite raw_of_with_free raw_of_with_used raw_of_moved : pool.

Lemma pop_wf pl i fi ui : pool_wf pl (i :: fi) ui ->
  (pool_pop_page pl).1 = page pl i /\ pool_wf (pool_pop_page pl).2 fi (i :: ui).
Proof.
  intros Hwf. pose proof (wf_nodup _ _ _ Hwf) as (Hnf & Hnu & Hd).
  pose proof (wf_descs_disjoint _ _ _ Hwf) as Hdd. rewrite fmap_cons in Hdd.
  apply NoDup_cons in Hnf as [Hif Hnf].
  assert (i ∉ ui) as Hiu by (apply Hd; by left).
  assert (i ∈ i :: fi \/ i ∈ ui) as Hi by (left; by left).
  destruct (rep_pop_cons _ _ _ _ (wf_free _ _ _ Hwf)) as (He & Hr1 & Hf1).
  unfold pool_pop_page. destruct (cdll_pop _ _) as [d fr]. cbn [fst snd] in He, Hr1, Hf1. subst d.
  pose proof (wf_desc_nonzero _ _ _ Hwf i (proj1 (wf_index _ _ _ Hwf i Hi))) as Hnz.
  rewrite c_true_ne by done. cbn [negb].
  set (v := Z.lor _ POOL_PG_INUSE).
  destruct (flags_page pl _ _ (desc_at pl i) i 0 v Hwf Hi) as [Hfl Hset];
    [rewrite (wf_free_raw _ _ _ Hwf) by (by left); lia|lia|].
  assert (v = POOL_PG_INUSE) as Hv by (unfold v, desc_flags in *; by rewrite raw_of_with_free, Hfl).
  rewrite Hv in Hset. unfold set_flags. rewrite raw_of_with_free, Hv, Hset. clear Hfl Hset Hv v.
  change (POOL_PG_INUSE mod 4096) with POOL_PG_INUSE.
  destruct (rep_push fr.1 (p_used pl) (desc_at pl <$> ui) (desc_at pl i)) as [Hr2 Hf2];
    [|by rewrite elem_of_descs|done|].
  { eapply rep_frame; [exact Hf1| |apply (wf_used _ _ _ Hwf)]. intros d Hd1 Hd2. apply (Hdd d); list_elem. }
  cbn [fst snd]. split.
  - rewrite raw_of_with_used, raw_of_moved, decide_True by done.
    by apply (page_of_raw pl _ _ _ _ Hwf Hi).
  - apply (wf_update pl); [apply (wf_layout _ _ _ Hwf)|done..| |done| | |].
    + eapply rep_frame; [exact Hf2| |exact Hr1]. intros d Hd1 Hd2.
      apply list_elem_of_fmap in Hd1 as (j & -> & Hj).
      rewrite elem_of_cons, elem_of_descs in Hd2. destruct Hd2 as [?%(inj (desc_at pl))|Hj2];
        [by subst|]. apply (Hd j); [by right|done].
    + rewrite <- (wf_perm _ _ _ Hwf). apply Permutation_sym, Permutation_middle.
    + intros j Hj. autorewrite with pool. rewrite decide_False by congruence.
      apply (wf_free_raw _ _ _ Hwf). by right.
    + intros j Hj. autorewrite with pool. case_decide as Hij; [by subst|].
      apply (wf_used_raw _ _ _ Hwf). list_elem.
Qed.

Lemma pop_empty_pool pl ui : pool_wf pl [] ui -> pool_pop_page pl = (0, pl).
Proof.
  intros Hwf. unfold pool_pop_page. pose proof (wf_free _ _ _ Hwf) as Hr.
  rewrite (rep_pop_nil _ _ Hr). simpl. f_equal. destruct Hr as [Hr _].
  destruct pl. simpl in *. by subst.
Qed.

Lemma push_wf pl i fi u1 u2 : pool_wf pl fi (u1 ++ i :: u2) ->
  pool_wf (pool_push_page (page pl i) pl) (i :: fi) (u1 ++ u2).
Proof.
  intros Hwf. pose proof (wf_nodup _ _ _ Hwf) as (Hnf & Hnu & Hd).
  pose proof (wf_descs_disjoint _ _ _ Hwf) as Hdd.
  assert (i ∉ fi) as Hif by (intros ?%Hd; list_elem).
  assert (i ∉ u1 ++ u2) as Hiu.
  { rewrite <- Permutation_middle in Hnu. by apply NoDup_cons in Hnu as [? _]. }
  assert (i ∈ fi \/ i ∈ u1 ++ i :: u2) as Hi by (right; list_elem).
  pose proof (wf_index _ _ _ Hwf i Hi) as Hidx.
  pose proof (wf_desc_nonzero _ _ _ Hwf i (proj1 Hidx)) as Hnz.
  unfold pool_push_page. rewrite (get_desc_page _ _ _ Hwf) by done.
  rewrite c_true_ne by done.
  destruct (flags_page pl _ _ (desc_at pl i) i POOL_PG_INUSE 0 Hwf Hi) as [Hfl Hset];
    [by rewrite (wf_used_raw _ _ _ Hwf) by list_elem|unfold POOL_PG_INUSE; lia|].
  rewrite Hfl. cbn [negb orb]. change (c_true (Z.land POOL_PG_INUSE POOL_PG_INUSE)) with true. cbn [negb].
  unfold set_flags. rewrite raw_of_with_used.
  replace (Z.land _ (wnot 12 POOL_PG_INUSE)) with 0
    by (unfold desc_flags in *; by rewrite raw_of_with_used, Hfl).
  rewrite Hset, Z.mod_0_l, Z.add_0_r by lia. clear Hfl Hset.
  pose proof (wf_used _ _ _ Hwf) as Hu. rewrite fmap_app, fmap_cons in Hu.
  apply rep_del in Hu as [Hr1 Hf1]. rewrite <- fmap_app in Hr1, Hf1.
  set (r := cdll_del _ _ _) in *.
  assert ((desc_at pl <$> fi) ## (desc_at pl <$> u1 ++ u2)) as Hdd'.
  { intros d Hd1 Hd2. apply (Hdd d); [done|]. rewrite fmap_app in *. rewrite fmap_cons. list_elem. }
  destruct (rep_push r.1 (p_free pl) (desc_at pl <$> fi) (desc_at pl i)) as [Hr2 Hf2];
    [|by rewrite elem_of_descs|done|].
  { by eapply rep_frame; [exact Hf1| |apply (wf_free _ _ _ Hwf)]. }
  apply (wf_update pl); [apply (wf_layout _ _ _ Hwf)|done..| | | |].
  - eapply rep_frame; [exact Hf2| |exact Hr1]. intros d Hd1 Hd2.
    rewrite elem_of_cons in Hd2. destruct Hd2 as [->|Hd2]; [by apply elem_of_descs in Hd1|].
    by apply (Hdd' d).
  - rewrite <- (wf_perm _ _ _ Hwf). simpl.
    rewrite !app_assoc. apply Permutation_middle.
  - intros j Hj. autorewrite with pool. case_decide; [by subst|].
    apply (wf_free_raw _ _ _ Hwf). list_elem.
  - intros j Hj. autorewrite with pool. rewrite decide_False by congruence.
    apply (wf_used_raw _ _ _ Hwf). list_elem.
Qed.

(** Pushing a page that is not in use, or an address outside the pool, does
    nothing: a double free is harmless. *)
Lemma push_ignored pl fi ui n : pool_wf pl fi ui ->
  (forall i, i ∈ ui -> n * 4096 <> page pl i) -> pool_push_page (n * 4096) pl = pl.
Proof.
  intros Hwf Hn. unfold pool_push_page.
  destruct (get_desc_inv _ _ _ Hwf n) as [->|(i & Hi & He & ->)]; [done|].
  assert (i ∈ fi ++ ui) as Hiu by (rewrite (wf_perm _ _ _ Hwf); by apply elem_of_seqZ).
  apply elem_of_app in Hiu as [Hf|Hu]; [|by specialize (Hn i Hu)].
  destruct (flags_page pl _ _ (desc_at pl i) i 0 0 Hwf (or_introl Hf)) as [-> _];
    [rewrite (wf_free_raw _ _ _ Hwf) by done; lia|lia|].
  by rewrite orb_true_r.
Qed.

Lemma page_pop pl : page (pool_pop_page pl).2 = page pl.
Proof.
  unfold pool_pop_page, page. destruct (cdll_pop _ _) as [d fr]. by destruct (negb _).
Qed.

Lemma page_push pl p : page (pool_push_page p pl) = page pl.
Proof. unfold pool_push_page, page. by destruct (_ || _). Qed.

(** ** The pool implements the allocator interface *)

#[export] Instance pool_alloc : PageAlloc vmm_pool := {
  pa_pop := pool_pop_page;
  pa_push := pool_push_page;
  alloc_rep pl free used := exists fi ui, pool_wf pl fi ui /\
    free = page pl <$> fi /\ used = list_to_set (page pl <$> ui);
}.

#[export] Instance pool_alloc_laws : PageAllocLaws vmm_pool.
Proof.
  split.
  - intros pl f u (fi & ui & Hwf & -> & ->) p Hp. rewrite elem_of_list_to_set in Hp.
    rewrite !list_elem_of_fmap in Hp.
    destruct Hp as [(i & -> & Hi)|(i & -> & Hi)]; apply (wf_page _ _ _ Hwf); auto.
  - intros pl f u (fi & ui & Hwf & -> & ->). pose proof (wf_nodup _ _ _ Hwf) as (Hf & Hu & Hd).
    split; [by apply NoDup_fmap; [apply _|]|].
    intros p (i & -> & Hi)%list_elem_of_fmap.
    rewrite elem_of_list_to_set, list_elem_of_fmap. intros (j & Hj%(inj (page pl)) & Hju). subst.
    by eapply Hd.
  - intros pl u (fi & ui & Hwf & Hf & ->). destruct fi; [|done]. by eapply pop_empty_pool.
  - intros pl p f u (fi & ui & Hwf & Hf & ->). destruct fi as [|i fi]; [done|].
    rewrite fmap_cons in Hf. injection Hf as -> ->. destruct (pop_wf _ _ _ _ Hwf) as [He Hw].
    split; [done|]. exists fi, (i :: ui). split_and!; [done| |].
    + simpl. by rewrite page_pop.
    + simpl. by rewrite page_pop.
  - intros pl p f u (fi & ui & Hwf & -> & ->) Hp.
    apply elem_of_list_to_set, list_elem_of_fmap in Hp as (i & -> & Hi).
    apply list_elem_of_split in Hi as (u1 & u2 & ->).
    pose proof (push_wf _ _ _ _ _ Hwf) as Hw.
    exists (i :: fi), (u1 ++ u2). simpl. rewrite page_push. split_and!; [done..|].
    pose proof (wf_nodup _ _ _ Hwf) as (_ & Hu & _).
    rewrite <- Permutation_middle in Hu. apply NoDup_cons in Hu as [Hu _].
    apply set_eq. intros q. rewrite elem_of_difference, !elem_of_list_to_set, elem_of_singleton.
    rewrite !list_elem_of_fmap. split.
    + intros [(j & -> & Hj) Hne]. exists j. split; [done|].
      assert (j <> i) by congruence. list_elem.
    + intros (j & -> & Hj). split; [exists j; split; [done|list_elem]|].
      intros Hq%(inj (page pl)). by subst.
  - intros pl p f u (fi & ui & Hwf & -> & ->) [n ->] Hp.
    eapply push_ignored; [done|]. intros i Hi He. apply Hp.
    rewrite He. apply elem_of_list_to_set, list_elem_of_fmap. by exists i.
Qed.

(** ** Initialisation *)

Lemma init_prefix pl (k : nat) : layout_ok pl -> p_free pl = 0 ->
  0 <= Z.of_nat k <= nr_pages pl ->
  let pl' := fold_left pool_init_step (seqZ 0 (Z.of_nat k)) pl in
  (p_addr pl' = p_addr pl /\ p_sz pl' = p_sz pl /\ p_all pl' = p_all pl /\ p_used pl' = p_used pl) /\
  rep (p_lnk pl') (p_free pl') (desc_at pl <$> reverse (seqZ 0 (Z.of_nat k))) /\
  (forall i, 0 <= i < Z.of_nat k -> raw_of pl' (desc_at pl i) = page pl i).
Proof.
  intros Hlo Hf0. induction k as [|k IH]; intros Hk; cbn [fold_left].
  { split; [done|]. split; [|lia]. split; [done|]. split_and!; [by apply NoDup_nil|list_elem|done]. }
  replace (Z.of_nat (S k)) with (Z.of_nat k + 1) by lia. rewrite seqZ_app by lia.
  rewrite fold_left_app. specialize (IH ltac:(lia)). cbn zeta in IH |- *.
  set (q := fold_left _ _ pl) in *. destruct IH as ((Ha & Hs & Hal & Hu) & Hr & Hraw).
  change (seqZ (0 + Z.of_nat k) 1) with [0 + Z.of_nat k]. cbn [fold_left]. rewrite Z.add_0_l.
  unfold pool_init_step.
  assert (desc_at q = desc_at pl) as Hda by (unfold desc_at; by rewrite Hal). rewrite Hda.
  assert (wrap64 (p_addr q + Z.of_nat k * PAGE_SIZE) = page pl (Z.of_nat k)) as ->.
  { rewrite Ha. change PAGE_SIZE with 4096. apply wrap_id.
    destruct (lo_addr _ Hlo) as (a & ? & ? & ?). unfold page; split; lia. }
  rewrite reverse_app, fmap_app. cbn [reverse rev_append fmap list_fmap app].
  destruct (rep_push (p_lnk q) (p_free q) _ (desc_at pl (Z.of_nat k)) Hr) as [Hr' _].
  - rewrite elem_of_descs, elem_of_reverse, elem_of_seqZ. lia.
  - pose proof (lo_all _ Hlo). unfold desc_at, sizeof_pool_pg_desc. lia.
  - split; [done|]. split; [done|]. intros i Hi. autorewrite with pool.
    case_decide; [by subst|]. apply Hraw. lia.
Qed.

Lemma init_wf pl : layout_ok pl -> p_free pl = 0 -> p_used pl = 0 ->
  pool_wf (pool_init pl) (reverse (seqZ 0 (nr_pages pl))) [].
Proof.
  intros Hlo Hf Hu. destruct (lo_sz _ Hlo) as [_ Hn].
  destruct (init_prefix pl (Z.to_nat (nr_pages pl)) Hlo Hf ltac:(lia)) as ((Ha & Hs & Hal & Hu') & Hr & Hraw).
  rewrite Z2Nat.id in * by done. change (fold_left _ _ pl) with (pool_init pl) in *.
  apply (wf_update pl); try done.
  - split; [by rewrite Hu', Hu|]. split_and!; [by apply NoDup_nil|list_elem|done].
  - rewrite app_nil_r. apply reverse_Permutation.
  - intros i. rewrite elem_of_reverse, elem_of_seqZ. apply Hraw.
  - intros i Hi. by apply elem_of_nil in Hi.
Qed.

Lemma page_init pl : page (pool_init pl) = page pl.
Proof.
  unfold pool_init, page. assert (forall l pl, p_addr (fold_left pool_init_step l pl) = p_addr pl) as ->; [|done].
  intros l. induction l as [|i l IH]; intros q; simpl; [done|]. by rewrite IH.
Qed.

(** ** Properties *)

(** Popping from a well-formed pool gives the first page of the free list,
    page aligned and inside the pool, and moves its descriptor to the used
    list; the invariant holds again. *)
Theorem pool_pop_page_spec pl i fi ui : pool_wf pl (i :: fi) ui ->
  let (p, pl') := pool_pop_page pl in
  p = p_addr pl + i * PAGE_SIZE /\ page_aligned p = true /\
  p_addr pl <= p < p_addr pl + p_sz pl /\ pool_wf pl' fi (i :: ui).
Proof.
  intros Hwf. destruct (pop_wf _ _ _ _ Hwf) as [He Hw].
  destruct (pool_pop_page pl) as [p pl']. cbn [fst snd] in *. subst p.
  assert (0 <= i < nr_pages pl) as Hi by (apply (wf_index _ _ _ Hwf); left; by left).
  pose proof (wf_layout _ _ _ Hwf) as [(a & Ha & Ha0 & _) [Hsz _] _].
  change PAGE_SIZE with 4096. split_and!; [done| |unfold page; lia..|done].
  unfold page_aligned. change PAGE_SIZE with (2 ^ 12). rewrite aligned_pow2 by lia.
  unfold page. rewrite Ha, <- Z.mul_add_distr_r. apply Z.eqb_eq, Z.mod_mul. lia.
Qed.

(** Giving back the page of a used descriptor puts it first on the free list;
    giving back any other page, in particular one that is already free, or
    one the pool does not own, changes nothing. *)
Theorem pool_push_page_spec pl fi ui n : pool_wf pl fi ui ->
  if decide (Exists (fun i => n * PAGE_SIZE = p_addr pl + i * PAGE_SIZE) ui)
  then exists i u1 u2, ui = u1 ++ i :: u2 /\ n * PAGE_SIZE = p_addr pl + i * PAGE_SIZE /\
      pool_wf (pool_push_page (n * PAGE_SIZE) pl) (i :: fi) (u1 ++ u2)
  else pool_push_page (n * PAGE_SIZE) pl = pl.
Proof.
  change PAGE_SIZE with 4096. intros Hwf. case_decide as Hd.
  - apply Exists_exists in Hd as (i & Hi & Hn). apply list_elem_of_split in Hi as (u1 & u2 & ->).
    exists i, u1, u2. split_and!; [done..|]. rewrite Hn. by apply (push_wf pl i fi u1 u2).
  - eapply push_ignored; [done|]. intros i Hi He. apply Hd, Exists_exists. by exists i.
Qed.

(** C40: Any sequence of calls to a pool fresh from [pool_init] returns what the
    abstract allocator returns, from the stack of the pages of the pool, last
    one first: pages come out in last-in first-out order, a page is never
    handed out again before it is given back, and a double free is harmless. *)
Theorem pool_refines_allocator pl ops : layout_ok pl -> p_free pl = 0 -> p_used pl = 0 ->
  Forall op_page_ok ops ->
  (run_steps (alloc_step (PA := pool_alloc)) ops (pool_init pl)).1 =
  (run_steps alloc_spec_step ops
     ((fun i => p_addr pl + i * PAGE_SIZE) <$> reverse (seqZ 0 (p_sz pl / PAGE_SIZE)), ∅)).1.
Proof.
  intros Hlo Hf Hu Hops. apply run_steps_refines; [|done].
  exists (reverse (seqZ 0 (nr_pages pl))), []. split; [by apply init_wf|]. split; [|done].
  by rewrite page_init.
Qed.

(** A pool of four pages for the witnesses. *)
Definition pool_example : vmm_pool := mk_pool 0x100000 0x4000 0x80000 0 0 ∅ ∅.

Lemma pool_example_layout : layout_ok pool_example.
Proof.
  split; unfold nr_pages, pool_example; simpl.
  - exists 0x100. change (0x4000 / 4096) with 4. lia.
  - by change (0x4000 / 4096) with 4.
  - lia.
Qed.

Lemma pool_example_wf : pool_wf (pool_init pool_example) [3; 2; 1; 0] [].
Proof. by apply (init_wf pool_example pool_example_layout). Qed.

Example pool_pop_page_spec_witness :
  let (p, pl') := pool_pop_page (pool_init pool_example) in
  p = 0x100000 + 3 * PAGE_SIZE /\ page_aligned p = true /\
  0x100000 <= p < 0x100000 + 0x4000 /\ pool_wf pl' [2; 1; 0] [3].
Proof. exact (pool_pop_page_spec _ _ _ _ pool_example_wf). Defined.

Example pool_push_page_spec_witness :
  pool_push_page (0x103 * PAGE_SIZE) (pool_init pool_example) = pool_init pool_example.
Proof. exact (pool_push_page_spec _ _ _ 0x103 pool_example_wf). Defined.

Example pool_refines_allocator_witness :
  (run_steps (alloc_step (PA := pool_alloc))
     [alloc_pop; alloc_push 0x103000; alloc_push 0x103000; alloc_pop; alloc_pop] (pool_init pool_example)).1 =
  [0x103000; 0; 0; 0x103000; 0x102000].
Proof.
  apply (pool_refines_allocator pool_example); [exact pool_example_layout|done|done|].
  repeat constructor; exists 0x103; lia.
Defined.
