(* ===== verification/NpgOps.v ===== *)
(** * Nested paging entries (include/svm_vm.h, include/vmx_ept.h, include/vmx_vm.h)

    The nested page tables have the shape of long-mode tables on both
    architectures but not the same entry format: AMD reuses the legacy entries,
    Intel has its own permission bits, memory types and an ignored bit the vmm
    uses to remember that an MTRR covers the page.  The mapper and the walker
    are written against the [npg_*] macros; here these macros are a class,
    with an instance per architecture and the laws both satisfy. *)

From S2P Require Import Prelude.
From S2P Require Import Pagemem.

(** The [npg_*] macros.  Setting a page entry may panic on Intel (an MTRR
    overlap the vmm does not manage): it is an option. *)
Class NpgOps := {
  npg_present : Z -> bool;
  (** The rights are the values of the macros, which the walks store in fields
      of one bit. *)
  npg_readable : Z -> Z;
  npg_writable : Z -> Z;
  npg_executable : Z -> Z;
  npg_large : Z -> bool;
  npg_get_attr : Z -> Z;
  npg_dft_pvl : Z;
  npg_zero : Z -> Z;
  (** [npg_set_entry old attr pfn], and so on: the new value of an entry. *)
  npg_set_entry : Z -> Z -> Z -> Z;
  npg_set_page_entry : Z -> Z -> Z -> option Z;
  npg_set_large_pde : Z -> Z -> Z -> option Z;
  npg_set_large_pdpe : Z -> Z -> Z -> option Z;
}.

(** ** AMD: the legacy long-mode entries *)

Section svm.
(** The EFER.NXE bit read by [pg64_executable]. *)
Variable nxe : bool.

Definition svm_npg : NpgOps := {|
  npg_present := pg_present;
  npg_readable e := Z.b2z (pg_readable e);
  npg_writable e := Z.b2z (pg_writable e);
  npg_executable e := Z.b2z (pg64_executable nxe e);
  npg_large := pg_large;
  npg_get_attr := pg_get_attr;
  npg_dft_pvl := Z.lor PG_USR PG_RW;
  npg_zero := fun _ => 0;
  npg_set_entry := fun _ attr pfn => pg_set_entry attr pfn;
  npg_set_page_entry := fun _ attr pfn => Some (pg_set_entry attr pfn);
  npg_set_large_pde := fun _ attr pfn => Some (pg_set_large_pde attr pfn);
  npg_set_large_pdpe := fun _ attr pfn => Some (pg_set_large_pdpe attr pfn);
|}.
End svm.

(** ** Intel: EPT entries *)

Definition VMX_EPT_PVL_R : Z := 1.
Definition VMX_EPT_PVL_W : Z := 2.
Definition VMX_EPT_PVL_X : Z := 4.
Definition VMX_EPT_PVL_RWX : Z := 7.
Definition VMX_EPT_MEM_TYPE_UC : Z := 0.
Definition VMX_EPT_MEM_TYPE_WT : Z := 4.

Definition ept_has_mtrr : Z := Z.shiftl 1 52.
Definition VMX_EPT_KEEP_MTRR_TYPE : Z := Z.lor ept_has_mtrr (Z.shiftl 7 3).

(** [ept_pg_get_attr]: the low byte without its seventh bit. *)
Definition ept_pg_get_attr (e : Z) : Z := Z.land (bits e 0 8) 0x7f.
Definition ept_pg_present (e : Z) : bool := c_true (Z.land (ept_pg_get_attr e) 0x7).
Definition ept_pg_readable (e : Z) : Z := Z.land (ept_pg_get_attr e) VMX_EPT_PVL_R.
Definition ept_pg_writable (e : Z) : Z := Z.land (ept_pg_get_attr e) VMX_EPT_PVL_W.
Definition ept_pg_executable (e : Z) : Z := Z.land (ept_pg_get_attr e) VMX_EPT_PVL_X.

(** [__ept_dft_attr]: the default memory type when MTRRs are enabled. *)
Definition ept_dft_attr_of (mtrr_e : bool) (mtrr_type pvl : Z) : Z :=
  let type := if mtrr_e then mtrr_type else VMX_EPT_MEM_TYPE_UC in
  Z.lor (Z.shiftl type 3) pvl.

(** [__ept_mtrr_resolve] of common/vmx/vmx_ept.c; [None] is its panic. *)
Definition ept_mtrr_resolve (old new : Z) : option Z :=
  let o_type := Z.land (Z.shiftr old 3) 7 in
  let n_type := Z.land (Z.shiftr new 3) 7 in
  let c_type := Z.land o_type n_type in
  if o_type =? n_type then Some new
  else if negb (c_type =? VMX_EPT_MEM_TYPE_UC) && negb (c_type =? VMX_EPT_MEM_TYPE_WT)
  then None
  else Some (Z.lor (Z.land new (wnot 64 (Z.shiftl 7 3))) (Z.shiftl c_type 3)).

(** [ept_pg_set_attr] *)
Definition ept_pg_set_attr (e attr : Z) : option Z :=
  if c_true (Z.land attr ept_has_mtrr) && c_true (Z.land e ept_has_mtrr)
  then ept_mtrr_resolve e attr
  else Some attr.

Definition ept_zero (e : Z) : Z :=
  if c_true (Z.land e ept_has_mtrr) then Z.land e VMX_EPT_KEEP_MTRR_TYPE else 0.

Definition ept_pg_set_entry (attr pfn : Z) : Z :=
  set_e_addr (Z.land attr (wnot 64 (Z.shiftl 0xf 3))) pfn.
Definition ept_pg_set_page_entry (e attr pfn : Z) : option Z :=
  e ← ept_pg_set_attr e attr; Some (set_e_addr e pfn).
Definition ept_pg_set_large_pde (e attr pfn : Z) : option Z :=
  e ← ept_pg_set_attr e (Z.lor attr PG_PS); Some (set_pde_page_addr e pfn).
Definition ept_pg_set_large_pdpe (e attr pfn : Z) : option Z :=
  e ← ept_pg_set_attr e (Z.lor attr PG_PS); Some (set_pdpe_page_addr e pfn).

Definition ept_npg : NpgOps := {|
  npg_present := ept_pg_present;
  npg_readable := ept_pg_readable;
  npg_writable := ept_pg_writable;
  npg_executable := ept_pg_executable;
  npg_large := pg_large;
  npg_get_attr := ept_pg_get_attr;
  npg_dft_pvl := VMX_EPT_PVL_RWX;
  npg_zero := ept_zero;
  npg_set_entry := fun _ attr pfn => ept_pg_set_entry attr pfn;
  npg_set_page_entry := ept_pg_set_page_entry;
  npg_set_large_pde := ept_pg_set_large_pde;
  npg_set_large_pdpe := ept_pg_set_large_pdpe;
|}.

(** ** What the mapper relies on

    Both formats name frames of the same widths, clear an entry to an absent
    one, and keep the attributes they are given.  [attr_ok]: the attributes
    map something and do not ask for a large page.  Setting a page may panic
    on Intel only, which [may_panic] records. *)

Class NpgLaws (NO : NpgOps) := {
  may_panic : Prop;
  attr_ok : Z -> Prop;
  npg_absent_0 : npg_present 0 = false /\ npg_large 0 = false;
  npg_absent_zero e :
    npg_present (npg_zero e) = false /\ npg_large (npg_zero e) = false /\ e_addr (npg_zero e) = 0;
  npg_attr_get e : npg_present e = true -> attr_ok (npg_get_attr e);
  npg_table e attr pfn : attr_ok attr ->
    let e' := npg_set_entry e (Z.lor attr npg_dft_pvl) pfn in
    npg_present e' = true /\ npg_large e' = false /\ e_addr e' = wrap 40 pfn;
  npg_page e attr pfn : attr_ok attr ->
    match npg_set_page_entry e attr pfn with
    | Some e' => npg_present e' = true /\ e_addr e' = wrap 40 pfn
    | None => may_panic
    end;
  npg_page_2M e attr pfn : attr_ok attr ->
    match npg_set_large_pde e attr pfn with
    | Some e' => npg_present e' = true /\ npg_large e' = true /\ pde_page_addr e' = wrap 31 pfn
    | None => may_panic
    end;
  npg_page_1G e attr pfn : attr_ok attr ->
    match npg_set_large_pdpe e attr pfn with
    | Some e' => npg_present e' = true /\ npg_large e' = true /\ pdpe_page_addr e' = wrap 22 pfn
    | None => may_panic
    end;
}.

(** Reading one bit of a value built by the setters. *)
Ltac npg_bit :=
  unfold pg_present, e_p, pg_large, e_ps, bit, set_e_addr, set_pde_page_addr, set_pdpe_page_addr;
  rewrite ?testbit_set_bits by lia; cbn [Z.leb Z.ltb Z.compare Pos.compare Pos.compare_cont andb];
  rewrite ?Z.lor_spec, ?Z.land_spec; try done.

#[export] Instance svm_laws nxe : NpgLaws (svm_npg nxe).
Proof.
  refine {| may_panic := False; attr_ok a := bit a 7 = false |}; cbn [npg_present npg_large
    npg_zero npg_get_attr npg_set_entry npg_dft_pvl npg_set_page_entry npg_set_large_pde
    npg_set_large_pdpe svm_npg].
  - done.
  - done.
  - intros e _. unfold pg_get_attr, bit. rewrite Z.land_spec. apply andb_false_r.
  - intros _ attr pfn Ha. unfold pg_set_entry. split_and!; [npg_bit| |apply bits_set_same; lia].
    + apply orb_true_r.
    + npg_bit. unfold bit in Ha. by rewrite Ha.
  - intros _ attr pfn Ha. unfold pg_set_entry. split; [npg_bit|apply bits_set_same; lia].
    apply orb_true_r.
  - intros _ attr pfn Ha. unfold pg_set_large_pde. split_and!; [npg_bit|npg_bit|apply bits_set_same; lia].
    + apply orb_true_r.
    + by rewrite orb_true_r.
  - intros _ attr pfn Ha. unfold pg_set_large_pdpe. split_and!; [npg_bit|npg_bit|apply bits_set_same; lia].
    + apply orb_true_r.
    + by rewrite orb_true_r.
Defined.

Lemma ept_present_low e : ept_pg_present e = c_true (Z.land e 7).
Proof.
  unfold ept_pg_present, ept_pg_get_attr. f_equal. apply Z.bits_inj'. intros i Hi.
  rewrite !Z.land_spec, testbit_bits, Z.add_0_r by lia.
  destruct (Z.lt_ge_cases i 3).
  - assert (i = 0 \/ i = 1 \/ i = 2) as [->|[->| ->]] by lia; simpl; btauto.
  - rewrite (fits_testbit 3 7 i) by (done || lia). btauto.
Qed.

Lemma ept_present_set e lo w v : 3 <= lo -> 0 <= w ->
  ept_pg_present (set_bits e lo w v) = ept_pg_present e.
Proof.
  intros Hlo Hw. rewrite !ept_present_low. f_equal. apply Z.bits_inj'. intros i Hi.
  rewrite !Z.land_spec. destruct (Z.lt_ge_cases i 3).
  - rewrite testbit_set_bits by lia. by rewrite (proj2 (Z.leb_gt lo i)) by lia.
  - rewrite (fits_testbit 3 7 i) by (done || lia). by rewrite !andb_false_r.
Qed.

(** The attributes an MTRR overlap resolves to keep the rights and the size. *)
Lemma ept_set_attr_bits e attr a : ept_pg_set_attr e attr = Some a ->
  Z.land a 7 = Z.land attr 7 /\ bit a 7 = bit attr 7.
Proof.
  unfold ept_pg_set_attr, ept_mtrr_resolve. intros H.
  destruct (_ && _); [|by injection H as <-].
  destruct (_ =? _); [by injection H as <-|]. destruct (_ && _); [done|]. injection H as <-.
  set (n := Z.land _ (Z.land _ 7)).
  assert (forall i, i = 0 \/ i = 1 \/ i = 2 \/ i = 7 ->
    Z.testbit (Z.lor (Z.land attr (wnot 64 (Z.shiftl 7 3))) (Z.shiftl n 3)) i = Z.testbit attr i) as Hb.
  { intros i Hi. rewrite Z.lor_spec, Z.land_spec, testbit_shiftl by lia.
    assert (Z.testbit (wnot 64 (Z.shiftl 7 3)) i = true) as ->
      by (destruct Hi as [->|[->|[->| ->]]]; reflexivity).
    assert (Z.testbit n (i - 3) = false) as ->; [|btauto].
    destruct (Z.lt_ge_cases i 3); [apply testbit_neg; lia|].
    replace i with 7 by lia. unfold n. rewrite !Z.land_spec. cbn. by rewrite !andb_false_r. }
  split; [|apply Hb; auto]. apply Z.bits_inj'. intros i Hi. rewrite !(Z.land_spec _ 7).
  destruct (Z.lt_ge_cases i 3).
  - by rewrite Hb by lia.
  - rewrite (fits_testbit 3 7 i) by (done || lia). by rewrite !andb_false_r.
Qed.

Lemma ept_lor_low attr n : Z.land n 7 = 0 -> c_true (Z.land (Z.lor attr n) 7) = c_true (Z.land attr 7).
Proof. intros Hn. by rewrite Z.land_lor_distr_l, Hn, Z.lor_0_r. Qed.

#[export] Instance ept_laws : NpgLaws ept_npg.
Proof.
  refine {| may_panic := True; attr_ok a := bit a 7 = false /\ c_true (Z.land a 7) = true |};
    cbn [npg_present npg_large npg_zero npg_get_attr npg_set_entry npg_dft_pvl npg_set_page_entry
    npg_set_large_pde npg_set_large_pdpe ept_npg].
  - done.
  - intros e. unfold ept_zero. destruct (c_true _); [|done]. split_and!.
    + rewrite ept_present_low, <- Z.land_assoc. by rewrite Z.land_0_r.
    + unfold pg_large, e_ps, bit. rewrite Z.land_spec. apply andb_false_r.
    + unfold e_addr, bits. rewrite Z.shiftr_land, <- Z.land_assoc. by rewrite Z.land_0_r.
  - intros e He. split.
    + unfold ept_pg_get_attr, bit. rewrite Z.land_spec. apply andb_false_r.
    + exact He.
  - intros _ attr pfn [Ha Hp]. unfold ept_pg_set_entry, set_e_addr. split_and!.
    + rewrite ept_present_set, ept_present_low by lia.
      rewrite <- Z.land_assoc, Z.land_lor_distr_l. by destruct (Z.land attr _) as [|[]|[]].
    + npg_bit. unfold bit in Ha. by rewrite Z.lor_spec, Ha.
    + apply bits_set_same; lia.
  - intros e attr pfn [Ha Hp]. unfold ept_pg_set_page_entry.
    destruct (ept_pg_set_attr e attr) as [a|] eqn:He; [|done]. cbn [mbind option_bind]. apply ept_set_attr_bits in He as [Hl _].
    split; [|apply bits_set_same; lia]. unfold set_e_addr. by rewrite ept_present_set, ept_present_low, Hl by lia.
  - intros e attr pfn [Ha Hp]. unfold ept_pg_set_large_pde.
    destruct (ept_pg_set_attr e _) as [a|] eqn:He; [|done]. cbn [mbind option_bind]. apply ept_set_attr_bits in He as [Hl H7].
    split_and!; [| |apply bits_set_same; lia].
    + unfold set_pde_page_addr. rewrite ept_present_set, ept_present_low, Hl by lia.
      by rewrite ept_lor_low.
    + npg_bit. unfold bit in H7. rewrite H7, Z.lor_spec. by apply orb_true_r.
  - intros e attr pfn [Ha Hp]. unfold ept_pg_set_large_pdpe.
    destruct (ept_pg_set_attr e _) as [a|] eqn:He; [|done]. cbn [mbind option_bind]. apply ept_set_attr_bits in He as [Hl H7].
    split_and!; [| |apply bits_set_same; lia].
    + unfold set_pdpe_page_addr. rewrite ept_present_set, ept_present_low, Hl by lia.
      by rewrite ept_lor_low.
    + npg_bit. unfold bit in H7. rewrite H7, Z.lor_spec. by apply orb_true_r.
Defined.
