(* ===== verification/NptMap.v ===== *)
(** * The nested page mapper (common/libc/npt_map.c)

    The mapper edits a 4-level table in physical memory and takes its tables
    from the page allocator.  Its state is that memory (64-bit words by
    address) and the allocator's state; a panic stops the machine and is
    [None].  Entry pointers are addresses, the null pointer is 0. *)

From S2P Require Import Prelude.
From S2P Require Import Monad.
From S2P Require Import Pagemem.
From S2P Require Import Alloc.
From S2P Require Import NpgOps.

(** [for(i=from ; i<from+n ; i++) f(i)] *)
Fixpoint for_from {S} (n : nat) (from : Z) (f : Z -> M S unit) : M S unit :=
  match n with
  | O => mret tt
  | Datatypes.S n => f from ;; for_from n (from + 1) f
  end.
Definition for_table {S} (f : Z -> M S unit) : M S unit := for_from ENTRIES 0 f.

(** [while(addr < limit) { f(addr); addr += sz; }], with the number of
    iterations it can take as fuel. *)
Fixpoint while_below {S} (fuel : nat) (limit sz addr : Z) (f : Z -> M S unit) : M S Z :=
  if addr <? limit then
    match fuel with
    | O => fail
    | Datatypes.S fuel =>
        f addr ;; while_below fuel limit sz (wrap64 (addr + sz)) f
    end
  else mret addr.
Definition iterations (limit sz addr : Z) : nat := Z.to_nat ((limit - addr) / sz + 1).

(** The operations of the mapper that a range can ask for. *)
Inductive npg_op_type := NPG_OP_MAP | NPG_OP_UNMAP | NPG_OP_REMAP.

(** [npg_op_t]: page size, shift and functions of one level; the [nxt]
    pointer is the rest of a list of operators. *)
Record npg_op (S : Type) := mk_npg_op {
  op_sz : Z;
  op_shf : Z;
  op_fnc : npg_op_type -> Z -> Z -> M S unit;
}.
Arguments mk_npg_op {S}.
Arguments op_sz {S}.
Arguments op_shf {S}.
Arguments op_fnc {S}.

(** ** Generic range services *)

Section range.
Context {S : Type}.

Fixpoint npg_bk_op (start end_ upper attr : Z) (ops : list (npg_op S))
    (act : npg_op_type) : M S Z :=
  match ops with
  | [] => mret start
  | op :: nxt =>
      addr ←
        match nxt with
        | _ :: _ =>
            let start_up := align_next start (op_sz op) in
            let diff_tbl :=
              negb (pg_abs_idx start (op_shf op) =? pg_abs_idx end_ (op_shf op)) in
            if aligned start (op_sz op) && diff_tbl then
              op_fnc op act start attr ;; mret start_up
            else npg_bk_op start end_ start_up attr nxt act
        | [] => mret (align start (op_sz op))
        end; 
      let limit := Z.min (align end_ (op_sz op)) upper in
      while_below (iterations limit (op_sz op) addr) limit (op_sz op) addr
        (fun a => op_fnc op act a attr)
  end.

Fixpoint npg_fw_op (start end_ attr : Z) (ops : list (npg_op S))
    (act : npg_op_type) : M S unit :=
  match ops with
  | [] => mret tt
  | op :: nxt =>
      let limit := align end_ (op_sz op) in
      addr ← while_below (iterations limit (op_sz op) start) limit (op_sz op) start
                     (fun a => op_fnc op act a attr);
      match nxt with
      | _ :: _ => if negb (aligned end_ (op_sz op)) then npg_fw_op addr end_ attr nxt act
                  else mret tt
      | [] => mret tt
      end
  end.

(** The body shared by [npg_map] and [npg_unmap]: backward then forward. *)
Definition npg_range (max_paddr start end_ attr : Z) (ops : list (npg_op S))
    (act : npg_op_type) : M S unit :=
  addr ← npg_bk_op start end_ max_paddr attr ops act;
  npg_fw_op addr end_ attr ops act.
End range.

(** ** The machine state *)

(** Page-table memory: the 64-bit word at each address. *)
Abbreviation memory := (gmap Z Z).

Record npst (A : Type) := mk_npst { np_mem : memory; np_al : A }.
Arguments mk_npst {A}.
Arguments np_mem {A}.
Arguments np_al {A}.

(** The words of the page at [pg], all zero. *)
Definition zero_page (pg : Z) (m : memory) : memory :=
  fold_left (fun m i => <[entry64 pg i := 0]> m) (seqZ 0 (Z.of_nat ENTRIES)) m.

(** What the mapper reads of [info]: the table root of the active paging, the
    nested page sizes the cpu has and its maximum physical address. *)
Record npg_cfg := mk_npg_cfg {
  pml4 : Z;
  skillz_pg_2M : bool;
  skillz_pg_1G : bool;
  max_paddr : Z;
}.

Section mapper.
Context {A : Type} {PA : PageAlloc A} {NO : NpgOps} (cfg : npg_cfg).
Abbreviation m := (M (npst A)).

Definition rd (p : Z) : m Z := fun s => Some (rd0 (np_mem s) p, s).
Definition wr (p v : Z) : m unit := fun s =>
  Some (tt, mk_npst (<[p := v]> (np_mem s)) (np_al s)).
(** A store whose value may be a panic. *)
Definition wr_opt (p : Z) (v : option Z) : m unit :=
  match v with Some v => wr p v | None => fail end.
Definition free_page (p : Z) : m unit := fun s =>
  Some (tt, mk_npst (np_mem s) (pa_push p (np_al s))).

(** *** Allocations *)

Definition npg_new_pg : m Z := fun s =>
  let (pg, al) := pa_pop (np_al s) in
  if negb (c_true pg) then None
  else Some (pg, mk_npst (zero_page pg (np_mem s)) al).

(** *** Low level entry retrieval *)

Definition npg_get_pdpe_nocheck (pml4e addr : Z) : m Z :=
  e ← rd pml4e; mret (entry64 (page_addr (e_addr e)) (pdp_idx addr)).
Definition npg_get_pde_nocheck (pdpe addr : Z) : m Z :=
  e ← rd pdpe; mret (entry64 (page_addr (e_addr e)) (pd64_idx addr)).
Definition npg_get_pte_nocheck (pde addr : Z) : m Z :=
  e ← rd pde; mret (entry64 (page_addr (e_addr e)) (pt64_idx addr)).

Definition npg_get_pdpe (addr : Z) : m Z :=
  let pml4e := entry64 (pml4 cfg) (pml4_idx addr) in
  e ← rd pml4e;
  if negb (npg_present e) then mret 0 else npg_get_pdpe_nocheck pml4e addr.

Definition npg_get_pde (pdpe addr : Z) : m Z :=
  e ← rd pdpe;
  if negb (npg_present e) || npg_large e then mret 0 else npg_get_pde_nocheck pdpe addr.

Definition npg_get_pte_from (pde addr : Z) : m Z :=
  e ← rd pde;
  if negb (npg_present e) || npg_large e then mret 0 else npg_get_pte_nocheck pde addr.

(** [_npg_get_pte] *)
Definition npg_get_pte (addr : Z) : m Z :=
  pdpe ← npg_get_pdpe addr;
  if negb (c_true pdpe) then mret 0 else
  e ← rd pdpe;
  if negb (npg_present e) || npg_large e then mret 0 else
  pde ← npg_get_pde pdpe addr;
  if negb (c_true pde) then mret 0 else
  e ← rd pde;
  if negb (npg_present e) || npg_large e then mret 0 else
  npg_get_pte_from pde addr.

(** *** Resolution, allocating the missing tables *)

Definition npg_resolve_pdpe (addr attr : Z) : m Z :=
  let pml4e := entry64 (pml4 cfg) (pml4_idx addr) in
  e ← rd pml4e;
  pdp ← (if negb (npg_present e) then
           pdp ← npg_new_pg;
           wr pml4e (npg_set_entry e (Z.lor attr npg_dft_pvl) (page_nr pdp));;
           mret pdp
         else mret (page_addr (e_addr e)));
  mret (entry64 pdp (pdp_idx addr)).

Definition npg_resolve_pde (pdpe addr attr : Z) : m Z :=
  e ← rd pdpe;
  if negb (npg_present e) then
    pd ← npg_new_pg;
    wr pdpe (npg_set_entry e (Z.lor attr npg_dft_pvl) (page_nr pd));;
    mret (entry64 pd (pd64_idx addr))
  else if npg_large e then mret 0
  else mret (entry64 (page_addr (e_addr e)) (pd64_idx addr)).

Definition npg_resolve_pte (pde addr attr : Z) : m Z :=
  e ← rd pde;
  if negb (npg_present e) then
    pt ← npg_new_pg;
    wr pde (npg_set_entry e (Z.lor attr npg_dft_pvl) (page_nr pt));;
    mret (entry64 pt (pt64_idx addr))
  else if npg_large e then mret 0
  else mret (entry64 (page_addr (e_addr e)) (pt64_idx addr)).

(** *** Low level services *)

Definition npg_clear (p : Z) : m unit := e ← rd p; wr p (npg_zero e).

Definition npg_unmap_2M_entry (pde : Z) : m unit :=
  e ← rd pde;
  (if negb (npg_large e) then
     let pt := page_addr (e_addr e) in
     for_table (fun i =>
       pte ← rd (entry64 pt i);
       if npg_present pte then npg_clear (entry64 pt i) else mret tt);;
     free_page pt
   else mret tt);;
  npg_clear pde.

Definition npg_map_2M_nolarge (pde addr attr : Z) : m unit :=
  pt ← npg_new_pg;
  let pfn := pg_nr PG_4K_SHIFT addr in
  for_table (fun i =>
    old ← rd (entry64 pt i);
    wr_opt (entry64 pt i) (npg_set_page_entry old attr (wrap64 (pfn + i))));;
  e ← rd pde;
  wr pde (npg_set_entry e (Z.lor attr npg_dft_pvl) (page_nr pt)).

Definition npg_map_2M_entry (pde addr attr : Z) : m unit :=
  e ← rd pde;
  (if npg_present e then npg_unmap_2M_entry pde else mret tt);;
  if skillz_pg_2M cfg then
    e ← rd pde;
    wr_opt pde (npg_set_large_pde e attr (pg_nr PG_2M_SHIFT addr))
  else npg_map_2M_nolarge pde addr attr.

Definition npg_remap_2M_finest (pde addr : Z) : m unit :=
  e ← rd pde;
  let attr := npg_get_attr e in
  let addr := if negb (aligned addr PG_2M_SIZE) then align addr PG_2M_SIZE else addr in
  npg_unmap_2M_entry pde;;
  npg_map_2M_nolarge pde addr attr.

Definition npg_unmap_1G_entry (pdpe : Z) : m unit :=
  e ← rd pdpe;
  (if negb (npg_large e) then
     let pd := page_addr (e_addr e) in
     for_table (fun i =>
       pde ← rd (entry64 pd i);
       if npg_present pde then npg_unmap_2M_entry (entry64 pd i) else mret tt);;
     free_page pd
   else mret tt);;
  npg_clear pdpe.

Definition npg_map_1G_nolarge (pdpe addr attr : Z) : m unit :=
  pd ← npg_new_pg;
  for_table (fun i =>
    npg_map_2M_entry (entry64 pd i) (wrap64 (addr + i * PG_2M_SIZE)) attr);;
  e ← rd pdpe;
  wr pdpe (npg_set_entry e (Z.lor attr npg_dft_pvl) (page_nr pd)).

Definition npg_map_1G_entry (pdpe addr attr : Z) : m unit :=
  e ← rd pdpe;
  (if npg_present e then npg_unmap_1G_entry pdpe else mret tt);;
  if skillz_pg_1G cfg then
    e ← rd pdpe;
    wr_opt pdpe (npg_set_large_pdpe e attr (pg_nr PG_1G_SHIFT addr))
  else npg_map_1G_nolarge pdpe addr attr.

Definition npg_remap_1G_finest (pdpe addr : Z) : m unit :=
  e ← rd pdpe;
  let attr := npg_get_attr e in
  let addr := if negb (aligned addr PG_1G_SIZE) then align addr PG_1G_SIZE else addr in
  npg_unmap_1G_entry pdpe;;
  npg_map_1G_nolarge pdpe addr attr.

(** *** Intermediate services, on aligned addresses *)

Definition npg_map_512G (addr attr : Z) : m unit :=
  pdp ← npg_resolve_pdpe (align addr PG_512G_SIZE) attr;
  for_table (fun i =>
    npg_map_1G_entry (entry64 pdp i) (wrap64 (addr + i * PG_1G_SIZE)) attr).

Definition npg_map_1G (addr attr : Z) : m unit :=
  pdpe ← npg_resolve_pdpe addr attr;
  npg_map_1G_entry pdpe addr attr.

Definition npg_map_2M (addr attr : Z) : m unit :=
  pdpe ← npg_resolve_pdpe addr attr;
  e ← rd pdpe;
  if npg_large e then mret tt else
  pde ← npg_resolve_pde pdpe addr attr;
  npg_map_2M_entry pde addr attr.

Definition npg_map_4K (addr attr : Z) : m unit :=
  pdpe ← npg_resolve_pdpe addr attr;
  pde ← npg_resolve_pde pdpe addr attr;
  e ← rd pdpe;
  if npg_large e then mret tt else
  e ← rd pde;
  if npg_large e then mret tt else
  pte ← npg_resolve_pte pde addr attr;
  e ← rd pte;
  wr_opt pte (npg_set_page_entry e attr (pg_nr PG_4K_SHIFT addr)).

Definition npg_unmap_512G (addr : Z) : m unit :=
  pdp ← npg_get_pdpe addr;
  if negb (c_true pdp) then mret tt else
  for_table (fun i =>
    e ← rd (entry64 pdp i);
    if npg_present e then npg_unmap_1G_entry (entry64 pdp i) else mret tt).

Definition npg_unmap_1G (addr : Z) : m unit :=
  pdpe ← npg_get_pdpe addr;
  if negb (c_true pdpe) then mret tt else
  e ← rd pdpe;
  if npg_present e then npg_unmap_1G_entry pdpe else mret tt.

Definition npg_unmap_2M (addr : Z) : m unit :=
  pdpe ← npg_get_pdpe addr;
  if negb (c_true pdpe) then mret tt else
  e ← rd pdpe;
  if negb (npg_present e) then mret tt else
  (if npg_large e then npg_remap_1G_finest pdpe addr else mret tt);;
  pde ← npg_get_pde pdpe addr;
  npg_unmap_2M_entry pde.

(** [_npg_remap_finest_4K] *)
Definition npg_remap_finest_4K (addr : Z) : m Z :=
  pdpe ← npg_get_pdpe addr;
  if negb (c_true pdpe) then mret 0 else
  e ← rd pdpe;
  if negb (npg_present e) then mret 0 else
  (if npg_large e then npg_remap_1G_finest pdpe addr else mret tt);;
  pde ← npg_get_pde pdpe addr;
  if negb (c_true pde) then mret 0 else
  e ← rd pde;
  if negb (npg_present e) then mret 0 else
  (if npg_large e then npg_remap_2M_finest pde addr else mret tt);;
  npg_get_pte_from pde addr.

Definition npg_unmap_4K (addr : Z) : m unit :=
  pte ← npg_remap_finest_4K addr;
  if c_true pte then npg_clear pte else mret tt.

(** [_npg_remap_xxx] are not implemented: they panic. *)
Definition npg_remap (_ _ : Z) : m unit := fail.

(** *** Operators and high-level services *)

Definition npg_fnc (map : Z -> Z -> m unit) (unmap : Z -> m unit)
    (act : npg_op_type) (addr attr : Z) : m unit :=
  match act with
  | NPG_OP_MAP => map addr attr
  | NPG_OP_UNMAP => unmap addr
  | NPG_OP_REMAP => npg_remap addr attr
  end.

Definition npg_4K_op := mk_npg_op PG_4K_SIZE PG_4K_SHIFT (npg_fnc npg_map_4K npg_unmap_4K).
Definition npg_2M_op := mk_npg_op PG_2M_SIZE PG_2M_SHIFT (npg_fnc npg_map_2M npg_unmap_2M).
Definition npg_1G_op := mk_npg_op PG_1G_SIZE PG_1G_SHIFT (npg_fnc npg_map_1G npg_unmap_1G).
Definition npg_512G_op :=
  mk_npg_op PG_512G_SIZE PG_512G_SHIFT (npg_fnc npg_map_512G npg_unmap_512G).
Definition npg_ops : list (npg_op (npst A)) := [npg_512G_op; npg_1G_op; npg_2M_op; npg_4K_op].

Definition npg_map (start end_ attr : Z) : m unit :=
  npg_range (max_paddr cfg) start end_ attr npg_ops NPG_OP_MAP.
Definition npg_unmap (start end_ : Z) : m unit :=
  npg_range (max_paddr cfg) start end_ 0 npg_ops NPG_OP_UNMAP.
End mapper.
