(* ===== verification/NptRange.v ===== *)
(** * The range decomposition of the nested page mapper

    [npg_map] and [npg_unmap] cut a range into 4KB, 2MB, 1GB and 512GB pages:
    backward from the first page to the largest boundary, then forward to the
    end.  The theorems of this file hold for any operators: the calls made
    tile the range exactly, each on an address aligned on its page size, and
    the loops always terminate within their fuel. *)

From S2P Require Import Prelude.
From S2P Require Import Monad.
From S2P Require Import Cdll.
From S2P Require Import Pagemem.
From S2P Require Import Alloc.
From S2P Require Import Pool.
From S2P Require Import NpgOps.
From S2P Require Import NptMap.

Section range.
Context {S : Type}.
Implicit Types (ops : list (npg_op S)) (op : npg_op S).

(** A call of an operator: the operator and the address. *)
Abbreviation call := (npg_op S * Z)%type.

Fixpoint run_calls (act : npg_op_type) (attr : Z) (l : list call) : M S unit :=
  match l with
  | [] => mret tt
  | (op, a) :: l => op_fnc op act a attr ;; run_calls act attr l
  end.

(** [tiles ops a b l]: the calls [l] cover [a, b) exactly, in order. *)
Inductive tiles (ops : list (npg_op S)) : Z -> Z -> list call -> Prop :=
  | tiles_nil a : tiles ops a a []
  | tiles_cons op a b l : op ∈ ops -> (op_sz op | a) ->
      tiles ops (a + op_sz op) b l -> tiles ops a b ((op, a) :: l).

Lemma tiles_app ops a b c l1 l2 : tiles ops a b l1 -> tiles ops b c l2 -> tiles ops a c (l1 ++ l2).
Proof. induction 1; simpl; [done|]. intros. by constructor; auto. Qed.

Lemma tiles_mono ops ops' a b l : (forall op, op ∈ ops -> op ∈ ops') ->
  tiles ops a b l -> tiles ops' a b l.
Proof. intros Hsub. induction 1; constructor; auto. Qed.

Lemma run_calls_app act attr l1 l2 s :
  run_calls act attr (l1 ++ l2) s = (run_calls act attr l1 ;; run_calls act attr l2) s.
Proof.
  revert s. induction l1 as [|[op a] l1 IH]; intros s; [done|]. simpl.
  unfold mbind, M_bind. destruct (op_fnc op act a attr s) as [[[] s']|]; [|done]. apply IH.
Qed.

Lemma bind_cong {A B} (m m' : M S A) (k k' : A -> M S B) s :
  m s = m' s -> (forall x s', k x s' = k' x s') -> (m ≫= k) s = (m' ≫= k') s.
Proof. intros Hm Hk. unfold mbind, M_bind. rewrite Hm. destruct (m' s) as [[]|]; auto. Qed.

(** Running calls, then a function that runs calls and returns [r]. *)
Lemma run_calls_seq {A} act attr l1 l2 (r : A) (m : M S A) s :
  (forall s', m s' = (run_calls act attr l2 ;; mret r) s') ->
  (run_calls act attr l1 ;; m) s = (run_calls act attr (l1 ++ l2) ;; mret r) s.
Proof.
  intros Hm. unfold mbind at 2, M_bind at 2. rewrite run_calls_app.
  unfold mbind, M_bind. destruct (run_calls act attr l1 s) as [[[] s']|]; [|done]. apply Hm.
Qed.

(** ** The loop *)

Lemma while_calls op act attr fuel limit addr :
  0 < op_sz op -> 0 <= addr -> limit + op_sz op <= 2 ^ 64 ->
  (limit <= addr \/ (op_sz op | addr)) -> limit - addr < Z.of_nat fuel * op_sz op ->
  exists l r, tiles [op] addr r l /\ addr <= r /\ limit <= r /\
    (limit <= addr /\ r = addr \/ addr < limit /\ (op_sz op | r) /\ r < limit + op_sz op) /\
    forall s, while_below fuel limit (op_sz op) addr (fun a => op_fnc op act a attr) s =
      (run_calls act attr l ;; mret r) s.
Proof.
  intros Hsz. revert addr. induction fuel as [|fuel IH]; intros addr H0 Hlim Hal Hf; simpl.
  - exists [], addr. destruct (Z.ltb_spec addr limit); [lia|].
    split_and!; [constructor|lia|lia|left; split; [lia|done]|done].
  - destruct (Z.ltb_spec addr limit).
    + destruct Hal as [|Hal]; [lia|].
      assert (wrap64 (addr + op_sz op) = addr + op_sz op) as -> by (apply wrap_id; split; lia).
      destruct (IH (addr + op_sz op)) as (l & r & Ht & Hr1 & Hr2 & Hr3 & Hrun); [lia|lia| |lia|].
      { right. apply Z.divide_add_r; [done|apply Z.divide_refl]. }
      exists ((op, addr) :: l), r. split_and!; [|lia|lia| |].
      * constructor; [by left|done|done].
      * right. split; [done|]. destruct Hr3 as [[? ->]|]; [|tauto]. split; [|lia].
        apply Z.divide_add_r; [done|apply Z.divide_refl].
      * intros s. simpl. unfold mbind, M_bind. destruct (op_fnc op act addr attr s) as [[[] s']|]; [|done].
        apply Hrun.
    + exists [], addr. split_and!; [constructor|lia|lia|left; split; [lia|done]|done].
Qed.

Lemma iterations_enough limit sz addr : 0 < sz -> limit - addr < Z.of_nat (iterations limit sz addr) * sz.
Proof.
  intros Hsz. unfold iterations. pose proof (Z.mul_succ_div_gt (limit - addr) sz Hsz).
  set (q := (limit - addr) / sz) in *.
  assert (q + 1 <= Z.of_nat (Z.to_nat (q + 1))) by lia. nia.
Qed.

(** ** Operator chains *)

Definition op_ok op : Prop := op_sz op = 2 ^ op_shf op /\ 12 <= op_shf op <= 48.

(** Sizes decrease by powers of two down to 4KB. *)
Fixpoint chain_ok ops : Prop :=
  match ops with
  | [] => False
  | op :: nxt =>
      op_ok op /\
      match nxt with
      | [] => op_shf op = 12
      | op' :: _ => op_shf op' <= op_shf op /\ chain_ok nxt
      end
  end.

Lemma op_ok_pos op : op_ok op -> 0 < op_sz op <= 2 ^ 48.
Proof.
  intros [-> [? ?]]. split; [apply Z.pow_pos_nonneg; lia|]. apply Z.pow_le_mono_r; lia.
Qed.

Lemma chain_head op nxt : chain_ok (op :: nxt) -> op_ok op.
Proof. by intros [? _]. Qed.

Lemma chain_divides op nxt op' : chain_ok (op :: nxt) -> op' ∈ op :: nxt ->
  op_ok op' /\ (op_sz op' | op_sz op).
Proof.
  revert op. induction nxt as [|op1 nxt IH]; intros op.
  - intros [H _] ->%list_elem_of_singleton. split; [done|apply Z.divide_refl].
  - intros (H & Hle & Hc) [->|Hin]%elem_of_cons; [split; [done|apply Z.divide_refl]|].
    destruct (IH _ Hc Hin) as [Ho Hd]. split; [done|].
    etrans; [exact Hd|]. destruct H as [-> ?], (chain_head _ _ Hc) as [-> ?].
    exists (2 ^ (op_shf op - op_shf op1)). rewrite <- Z.pow_add_r by lia. f_equal. lia.
Qed.

(** The macros on the page size of an operator. *)
Lemma align_op op a : op_ok op -> 0 <= a < 2 ^ 63 -> align a (op_sz op) = op_sz op * (a / op_sz op).
Proof. intros [-> ?] Ha. apply align_pow2; [lia|split; lia]. Qed.

Lemma align_op_bounds op a : op_ok op -> 0 <= a < 2 ^ 63 ->
  0 <= align a (op_sz op) <= a /\ a < align a (op_sz op) + op_sz op /\ (op_sz op | align a (op_sz op)).
Proof.
  intros Ho Ha. rewrite align_op by done. pose proof (op_ok_pos _ Ho).
  pose proof (Z.div_mod a (op_sz op)). pose proof (Z.mod_pos_bound a (op_sz op)).
  assert (0 <= a / op_sz op) by (apply Z.div_pos; lia).
  split_and!; [nia|lia|lia|apply Z.divide_factor_l].
Qed.

Lemma aligned_op op a : op_ok op -> aligned a (op_sz op) = true <-> (op_sz op | a).
Proof.
  intros Ho. pose proof (op_ok_pos _ Ho). destruct Ho as [-> ?].
  rewrite aligned_pow2, Z.eqb_eq by lia. apply Z.mod_divide. lia.
Qed.

(** The next boundary above [a]. *)
Lemma align_next_op op a : op_ok op -> 0 <= a < 2 ^ 62 ->
  align_next a (op_sz op) = align a (op_sz op) + op_sz op.
Proof.
  intros Ho Ha. pose proof (op_ok_pos _ Ho). unfold align_next.
  rewrite wrap_id by (split; lia). rewrite !align_op by (done || lia).
  rewrite <- (Z.mul_1_l (op_sz op)) at 2. rewrite Z.div_add by lia. lia.
Qed.

Lemma diff_tbl_op op a b : op_ok op -> 0 <= a < 2 ^ 63 -> 0 <= b < 2 ^ 63 ->
  pg_abs_idx a (op_shf op) = pg_abs_idx b (op_shf op) <->
  align a (op_sz op) = align b (op_sz op).
Proof.
  intros Ho Ha Hb. rewrite !align_op by done. pose proof (op_ok_pos _ Ho).
  destruct Ho as [Hs ?]. unfold pg_abs_idx. rewrite !Z.shiftr_div_pow2, <- Hs by lia. nia.
Qed.

(** Comparing multiples of the same size. *)
Lemma divide_le_next d a b : 0 < d -> (d | a) -> (d | b) -> a < b -> a + d <= b.
Proof. intros Hd [p ->] [q ->] ?. assert (p < q) by nia. nia. Qed.

Lemma align_le_multiple op a b : op_ok op -> 0 <= a < 2 ^ 63 -> (op_sz op | b) -> b <= a ->
  b <= align a (op_sz op).
Proof.
  intros Ho Ha Hd Hb. destruct (align_op_bounds _ _ Ho Ha) as (? & ? & ?).
  destruct (Z.le_gt_cases b (align a (op_sz op))) as [|Hgt]; [done|].
  pose proof (op_ok_pos _ Ho).
  pose proof (divide_le_next (op_sz op) (align a (op_sz op)) b ltac:(lia) ltac:(done) Hd Hgt). lia.
Qed.

(** *** Backward *)

(** [reached ops end_ r]: at every level, [r] is a page boundary or the last
    page of [end_] at that level is already covered. *)
Definition reached ops (end_ r : Z) : Prop :=
  forall op, op ∈ ops -> align end_ (op_sz op) <= r \/ (op_sz op | r).

Lemma reached_aligned op nxt end_ r : chain_ok (op :: nxt) -> (op_sz op | r) ->
  reached (op :: nxt) end_ r.
Proof.
  intros Hc Hd op' Hin. right. destruct (chain_divides _ _ _ Hc Hin) as [_ Hd'].
  by etrans.
Qed.

Lemma bk_first op op' nxt act attr start end_ (r0 : Z) (l0 : list call) :
  chain_ok (op :: op' :: nxt) -> 0 <= start <= end_ -> end_ < 2 ^ 62 ->
  let start_up := align start (op_sz op) + op_sz op in
  tiles (op' :: nxt) start r0 l0 -> start <= r0 <= end_ ->
  reached (op' :: nxt) end_ r0 -> (start_up <= end_ -> r0 = start_up) ->
  exists l a0, tiles (op :: op' :: nxt) start a0 l /\ start <= a0 <= end_ /\
    ((a0 = start_up) \/
     (end_ < start_up /\ align end_ (op_sz op) <= start /\ reached (op' :: nxt) end_ a0)) /\
    forall s, (if aligned start (op_sz op) &&
                  negb (pg_abs_idx start (op_shf op) =? pg_abs_idx end_ (op_shf op))
               then op_fnc op act start attr ;; mret start_up
               else run_calls act attr l0 ;; mret r0) s = (run_calls act attr l ;; mret a0) s.
Proof.
  intros Hc H0 He start_up Ht0 Hr0 Hf0 Hup. pose proof (chain_head _ _ Hc) as Ho.
  pose proof (op_ok_pos _ Ho) as Hsz.
  destruct (align_op_bounds op start Ho ltac:(lia)) as (Hs1 & Hs2 & Hs3).
  destruct (align_op_bounds op end_ Ho ltac:(lia)) as (He1 & He2 & He3).
  assert (align start (op_sz op) <= align end_ (op_sz op)) as Hmono.
  { apply align_le_multiple; [done|lia|done|lia]. }
  destruct (aligned start (op_sz op)) eqn:Hal; simpl.
  - apply (aligned_op _ _ Ho) in Hal.
    pose proof (align_le_multiple op start start Ho ltac:(lia) Hal ltac:(lia)) as Hss.
    destruct (Z.eqb_spec (pg_abs_idx start (op_shf op)) (pg_abs_idx end_ (op_shf op))) as [Hi|Hi]; simpl.
    + apply diff_tbl_op in Hi; [|done|lia|lia].
      exists l0, r0. split_and!; [|lia|lia| |done].
      * eapply tiles_mono; [|done]. intros. by right.
      * right. unfold start_up. split_and!; [lia|lia|done].
    + assert (start_up <= end_).
      { pose proof (diff_tbl_op op start end_ Ho ltac:(lia) ltac:(lia)).
        pose proof (divide_le_next (op_sz op) _ _ ltac:(lia) Hs3 He3). unfold start_up. lia. }
      exists [(op, start)], start_up. unfold start_up in *. split_and!; [|lia|lia|by left|].
      * replace (align start (op_sz op)) with start by lia.
        constructor; [by left|done|constructor].
      * intros s. simpl. unfold mbind, M_bind.
        destruct (op_fnc op act start attr s) as [[[] s']|]; done.
  - exists l0, r0. split_and!; [|lia|lia| |done].
    + eapply tiles_mono; [|done]. intros. by right.
    + destruct (Z.le_gt_cases start_up end_) as [Hle|Hgt]; [left; by apply Hup|].
      right. split_and!; [done| |done]. unfold start_up in *.
      destruct (Z.le_gt_cases (align end_ (op_sz op)) (align start (op_sz op))) as [|Hgt2]; [lia|].
      pose proof (divide_le_next (op_sz op) _ _ ltac:(lia) Hs3 He3 Hgt2). lia.
Qed.

(** The loop of one level, from the address the lower level reached. *)
Lemma level_loop op nxt act attr start end_ upper a0 :
  chain_ok (op :: nxt) -> 0 <= start <= end_ -> end_ < 2 ^ 62 -> start <= a0 <= end_ ->
  let start_up := align start (op_sz op) + op_sz op in
  start < upper ->
  (a0 = start_up \/ op_sz op = 4096 /\ (4096 | start) /\ a0 = start \/
   (end_ < start_up /\ align end_ (op_sz op) <= start /\ reached nxt end_ a0)) ->
  let limit := Z.min (align end_ (op_sz op)) upper in
  exists l r, tiles (op :: nxt) a0 r l /\ a0 <= r <= end_ /\ reached (op :: nxt) end_ r /\
    ((op_sz op | upper) -> upper <= end_ -> r = upper) /\
    forall s, while_below (iterations limit (op_sz op) a0) limit (op_sz op) a0
                (fun a => op_fnc op act a attr) s = (run_calls act attr l ;; mret r) s.
Proof.
  intros Hc H0 He Ha0 start_up Hup Hcase limit. pose proof (chain_head _ _ Hc) as Ho.
  pose proof (op_ok_pos _ Ho) as Hsz.
  destruct (align_op_bounds op start Ho ltac:(lia)) as (Hs1 & Hs2 & Hs3).
  destruct (align_op_bounds op end_ Ho ltac:(lia)) as (He1 & He2 & He3).
  assert (limit <= a0 \/ (op_sz op | a0)) as Hal.
  { destruct Hcase as [->|[(-> & ? & ->)|(? & ? & _)]]; [right|by right|left; lia].
    apply Z.divide_add_r; [done|apply Z.divide_refl]. }
  assert (limit <= end_ /\ limit <= upper /\ limit <= align end_ (op_sz op)) as (Hle1 & Hle2 & Hle3)
    by (unfold limit; lia).
  destruct (while_calls op act attr (iterations limit (op_sz op) a0) limit a0)
    as (l & r & Ht & Hr1 & Hr2 & Hr3 & Hrun); [lia..|done|by apply iterations_enough; lia|].
  assert (tiles (op :: nxt) a0 r l) as Ht'.
  { eapply tiles_mono; [|done]. intros op' ->%list_elem_of_singleton. by left. }
  exists l, r. split; [done|].
  assert ((op_sz op | r) \/ r = a0 /\ end_ < start_up /\ align end_ (op_sz op) <= start /\
            reached nxt end_ a0) as Hr.
  { destruct Hr3 as [[? ->]|(? & ? & ?)]; [|by left].
    destruct Hcase as [->|[(-> & ? & ->)|?]]; [left|by left|by right].
    apply Z.divide_add_r; [done|apply Z.divide_refl]. }
  assert (r <= end_).
  { destruct Hr3 as [[? ->]|(? & Hd & ?)]; [lia|].
    destruct (Z.le_gt_cases r (align end_ (op_sz op))) as [|Hgt]; [lia|].
    pose proof (divide_le_next (op_sz op) _ _ ltac:(lia) He3 Hd Hgt). lia. }
  split_and!; [lia|done| | |exact Hrun].
  - destruct Hr as [Hd|(-> & ? & ? & Hrc)]; [by apply reached_aligned|].
    intros op' [->|Hin]%elem_of_cons; [left; lia|by apply Hrc].
  - intros Hd Hue.
    assert (start_up <= upper) as Hsu.
    { apply divide_le_next; [lia|done|done|lia]. }
    assert (limit = upper) as Hlim.
    { pose proof (align_le_multiple op end_ upper Ho ltac:(lia) Hd Hue). unfold limit. lia. }
    destruct Hr3 as [[? ->]|(? & Hd' & ?)].
    + destruct Hcase as [->|[(? & ? & ->)|?]]; lia.
    + destruct (Z.lt_ge_cases upper r) as [Hgt|]; [|lia].
      pose proof (divide_le_next (op_sz op) _ _ ltac:(lia) Hd Hd' Hgt). lia.
Qed.

Lemma bk_calls ops act attr start end_ upper :
  chain_ok ops -> (4096 | start) -> 0 <= start <= end_ -> end_ < 2 ^ 62 -> start < upper ->
  exists l r, tiles ops start r l /\ start <= r <= end_ /\ reached ops end_ r /\
    (forall op, head ops = Some op -> (op_sz op | upper) -> upper <= end_ -> r = upper) /\
    forall s, npg_bk_op start end_ upper attr ops act s = (run_calls act attr l ;; mret r) s.
Proof.
  revert upper. induction ops as [|op nxt IH]; intros upper Hc Hst H0 He Hup; [done|].
  pose proof (chain_head _ _ Hc) as Ho. pose proof (op_ok_pos _ Ho) as Hsz.
  destruct (align_op_bounds op start Ho ltac:(lia)) as (Hs1 & Hs2 & Hs3).
  destruct nxt as [|op' nxt].
  - assert (op_sz op = 4096) as H4K by (destruct Hc as [[-> _] ->]; done).
    destruct (level_loop op [] act attr start end_ upper start) as (l & r & Ht & Hr & Hrc & Hu & Hrun);
      [done|lia|lia|lia|lia|by right; left|].
    exists l, r. split_and!; [done|lia|lia|done|by intros ? [= ->]|].
    intros s. simpl.
    replace (align start (op_sz op)) with start; [apply Hrun|].
    pose proof (align_le_multiple op start start Ho ltac:(lia) ltac:(by rewrite H4K) ltac:(lia)). lia.
  - destruct (IH (align start (op_sz op) + op_sz op)) as (l0 & r0 & Ht0 & Hr0 & Hrc0 & Hu0 & Hrun0);
      [apply Hc|done|done|done|lia|].
    destruct (bk_first op op' nxt act attr start end_ r0 l0) as (l1 & a0 & Ht1 & Ha0 & Hcase & Hrun1);
      [done..| |].
    { intros Hse. apply (Hu0 op'); [done| |done]. apply Z.divide_add_r;
        [etrans; [|exact Hs3]|]; apply (chain_divides op (op' :: nxt)); first [done | by right; left | by left]. }
    destruct (level_loop op (op' :: nxt) act attr start end_ upper a0)
      as (l2 & r & Ht & Hr & Hrc & Hu & Hrun); [done..|lia|lia|tauto|].
    exists (l1 ++ l2), r. split_and!; [by eapply tiles_app|lia|lia|done|by intros ? [= ->]|].
    intros s. rewrite <- (run_calls_seq act attr l1 l2 r (while_below
      (iterations (Z.min (align end_ (op_sz op)) upper) (op_sz op) a0)
      (Z.min (align end_ (op_sz op)) upper) (op_sz op) a0 (fun a => op_fnc op act a attr)) s Hrun).
    cbn [npg_bk_op].
    transitivity (((run_calls act attr l1 ;; mret a0) ≫= fun addr =>
      while_below (iterations (Z.min (align end_ (op_sz op)) upper) (op_sz op) addr)
      (Z.min (align end_ (op_sz op)) upper) (op_sz op) addr (fun a => op_fnc op act a attr)) s).
    + apply bind_cong; [|done]. rewrite <- Hrun1, align_next_op by (done || lia).
      destruct (_ && _); [done|]. apply Hrun0.
    + unfold mbind, M_bind. destruct (run_calls act attr l1 s) as [[[] s']|]; done.
Qed.

(** *** Forward *)

Lemma fw_calls ops act attr start end_ :
  chain_ok ops -> (4096 | end_) -> 0 <= start <= end_ -> end_ < 2 ^ 62 -> reached ops end_ start ->
  exists l, tiles ops start end_ l /\
    forall s, npg_fw_op start end_ attr ops act s = run_calls act attr l s.
Proof.
  revert start. induction ops as [|op nxt IH]; intros start Hc Hen H0 He Hrc; [done|].
  pose proof (chain_head _ _ Hc) as Ho. pose proof (op_ok_pos _ Ho) as Hsz.
  destruct (align_op_bounds op end_ Ho ltac:(lia)) as (He1 & He2 & He3).
  set (limit := align end_ (op_sz op)) in *.
  destruct (while_calls op act attr (iterations limit (op_sz op) start) limit start)
    as (l & r & Ht & Hr1 & Hr2 & Hr3 & Hrun);
    [lia..|apply Hrc; by left|by apply iterations_enough; lia|].
  assert (tiles (op :: nxt) start r l) as Ht'.
  { eapply tiles_mono; [|done]. intros op' ->%list_elem_of_singleton. by left. }
  assert (r <= end_).
  { destruct Hr3 as [[? ->]|(? & Hd & ?)]; [lia|].
    destruct (Z.le_gt_cases r limit) as [|Hgt]; [lia|].
    pose proof (divide_le_next (op_sz op) _ _ ltac:(lia) He3 Hd Hgt). lia. }
  assert (reached (op :: nxt) end_ r) as Hrr.
  { destruct Hr3 as [[? ->]|(? & Hd & ?)]; [done|by apply reached_aligned]. }
  assert (limit = end_ -> r = end_) as Hend by lia.
  assert (forall s, (addr ← while_below (iterations limit (op_sz op) start) limit (op_sz op) start
             (fun a => op_fnc op act a attr); mret tt) s = run_calls act attr l s) as Hstop.
  { intros s. rewrite (bind_cong _ _ _ (fun _ => mret tt) s (Hrun s)) by done.
    unfold mbind, M_bind. destruct (run_calls act attr l s) as [[[] s']|]; done. }
  assert (aligned end_ (op_sz op) = true -> limit = end_) as Hlim.
  { intros Hal%(aligned_op _ _ Ho).
    pose proof (align_le_multiple op end_ end_ Ho ltac:(lia) Hal ltac:(lia)). lia. }
  cbn [npg_fw_op]. destruct nxt as [|op' nxt].
  - exists l. rewrite <- Hend at 1; [by split|]. apply Hlim, (aligned_op _ _ Ho).
    destruct Hc as [[-> _] ->]. done.
  - destruct (aligned end_ (op_sz op)) eqn:Hal; cbn [negb].
    + exists l. rewrite <- Hend at 1; [by split|]. by apply Hlim.
    + destruct (IH r) as (l2 & Ht2 & Hrun2); [apply Hc|done|lia|done| |].
      { intros op2 Hin. apply Hrr. by right. }
      exists (l ++ l2). split.
      * eapply tiles_app; [done|]. eapply tiles_mono; [|done]. intros. by right.
      * intros s. rewrite run_calls_app. rewrite (bind_cong _ _ _ _ s (Hrun s) (fun _ _ => eq_refl)).
        unfold mbind, M_bind. destruct (run_calls act attr l s) as [[[] s']|]; [apply Hrun2|done].
Qed.

Lemma range_calls ops act attr start end_ maxp :
  chain_ok ops -> (4096 | start) -> (4096 | end_) -> 0 <= start <= end_ -> end_ < 2 ^ 62 ->
  start < maxp ->
  exists l, tiles ops start end_ l /\
    forall s, npg_range maxp start end_ attr ops act s = run_calls act attr l s.
Proof.
  intros Hc Hst Hen H0 He Hup.
  destruct (bk_calls ops act attr start end_ maxp) as (l1 & r & Ht1 & Hr & Hrc & _ & Hrun1); [done..|].
  destruct (fw_calls ops act attr r end_) as (l2 & Ht2 & Hrun2); [done|done|lia|done|done|].
  exists (l1 ++ l2). split; [by eapply tiles_app|].
  intros s. unfold npg_range. rewrite (bind_cong _ _ _ _ s (Hrun1 s) (fun _ _ => eq_refl)).
  rewrite run_calls_app. unfold mbind, M_bind.
  destruct (run_calls act attr l1 s) as [[[] s']|]; [apply Hrun2|done].
Qed.
End range.

(** ** Properties *)

Lemma npg_ops_chain {A} {PA : PageAlloc A} {NO : NpgOps} cfg : chain_ok (npg_ops cfg).
Proof. split_and!; try done; simpl; split; done. Qed.

(** C3: [npg_map] and [npg_unmap] are the sequences of calls of an exact tiling of
    the range: every 4KB page of [start, end) is covered by exactly one call,
    each call is on an address aligned on its page size, nothing outside the
    range is touched, and the loops terminate. *)
Theorem npg_map_tiles {A} {PA : PageAlloc A} {NO : NpgOps} cfg start end_ attr :
  (4096 | start) -> (4096 | end_) -> 0 <= start <= end_ -> end_ < 2 ^ 62 ->
  start < max_paddr cfg ->
  (exists l, tiles (npg_ops cfg) start end_ l /\
     forall s, npg_map cfg start end_ attr s = run_calls NPG_OP_MAP attr l s) /\
  (exists l, tiles (npg_ops cfg) start end_ l /\
     forall s, npg_unmap cfg start end_ s = run_calls NPG_OP_UNMAP 0 l s).
Proof.
  intros Hs He H0 H1 Hm. split; apply range_calls; auto using npg_ops_chain.
Qed.

(** A nested table with a page directory that maps nothing at 2MB, and a word
    with its low bit set at physical address 0. *)
Definition ex_pool : vmm_pool :=
  pool_init (mk_pool 0x100000 (8 * 4096) 0x200000 0 0 ∅ ∅).
Definition ex_cfg : npg_cfg := mk_npg_cfg 0x50000 true true (2 ^ 36 - 1).
Definition ex_state : npst vmm_pool :=
  mk_npst (<[0x50000 := 0x60007]> (<[0x60000 := 0x61007]> (<[0 := 0xf000ff53]> ∅))) ex_pool.

Lemma npg_map_tiles_witness :
  (exists l, tiles (npg_ops (NO:=ept_npg) ex_cfg) 0x1000 0x40205000 l /\
     forall s : npst vmm_pool,
       npg_map (NO:=ept_npg) ex_cfg 0x1000 0x40205000 7 s = run_calls NPG_OP_MAP 7 l s) /\
  (exists l, tiles (npg_ops (NO:=ept_npg) ex_cfg) 0x1000 0x40205000 l /\
     forall s : npst vmm_pool,
       npg_unmap (NO:=ept_npg) ex_cfg 0x1000 0x40205000 s = run_calls NPG_OP_UNMAP 0 l s).
Proof.
  apply npg_map_tiles; [by exists 1|by exists 0x40205|lia|lia|]. vm_compute. reflexivity.
Defined.

(** Unmapping a 2MB page that is not mapped erases memory that is not a page
    table: the absent entry's frame number is 0, and the words of physical
    page 0 are cleared as if they were table entries. *)
Theorem unmap_2M_absent_clobbers :
  let pde := entry64 0x61000 (pd64_idx 0x200000) in
  npg_present (NpgOps:=svm_npg true) (rd0 (np_mem ex_state) pde) = false /\
  exists s', npg_unmap (NO:=svm_npg true) ex_cfg 0x200000 0x400000 ex_state = Some (tt, s') /\
    rd0 (np_mem ex_state) 0 = 0xf000ff53 /\ rd0 (np_mem s') 0 = 0.
Proof.
  split; [vm_compute; reflexivity|].
  eexists. split; [vm_compute; reflexivity|]. split; vm_compute; reflexivity.
Qed.
