(* ===== verification/Walk.v ===== *)
(** * Page walks (vmm/src/core/npt_walk.c, vmm/src/core/mmu_walk.c)

    The vmm translates addresses in software: guest physical to system
    physical through the nested tables, and guest virtual to guest physical
    through the guest's own tables in the three paging modes it supports.
    Guest tables are read in memory the guest controls, so these walks check
    that every table they follow is outside the area the vmm occupies. *)

From S2P Require Import Prelude.
From S2P Require Import Pagemem.
From S2P Require Import NpgOps.

(** ** Shared data (include/npg.h, include/vmerr.h, include/info_data.h) *)

Inductive vm_code :=
  | VM_FAIL | VM_FAULT | VM_DONE | VM_DONE_LET_RIP
  | VM_NATIVE | VM_IGNORE | VM_INTERN | VM_PARTIAL.

Inductive walk_type :=
  | PG_WALK_TYPE_PML4E | PG_WALK_TYPE_PDPE | PG_WALK_TYPE_PDPE_PAE
  | PG_WALK_TYPE_PDE64 | PG_WALK_TYPE_PDE32 | PG_WALK_TYPE_PTE64 | PG_WALK_TYPE_PTE32.

#[export] Instance vm_code_eq_dec : EqDecision vm_code.
Proof. solve_decision. Defined.
#[export] Instance walk_type_eq_dec : EqDecision walk_type.
Proof. solve_decision. Defined.

(** [pg_wlk_t]: the address of the last entry read, the translation and its
    page size, and the access rights gathered on the way. *)
Record pg_wlk := mk_wlk {
  w_entry : Z;
  w_addr : Z;
  w_size : Z;
  w_u : bool; w_r : bool; w_w : bool; w_x : bool;
  w_type : walk_type;
}.

(** [wlk->attr = 0] clears the rights and the type, which share the byte. *)
Definition wlk_clear (w : pg_wlk) : pg_wlk :=
  mk_wlk (w_entry w) (w_addr w) (w_size w) false false false false PG_WALK_TYPE_PML4E.
Definition wlk_rights (u r wr x : bool) (w : pg_wlk) : pg_wlk :=
  mk_wlk (w_entry w) (w_addr w) (w_size w) u r wr x (w_type w).
(** [wlk->type = t; wlk->entry = e] before a fault is returned. *)
Definition wlk_stop (t : walk_type) (e : Z) (w : pg_wlk) : pg_wlk :=
  mk_wlk e (w_addr w) (w_size w) (w_u w) (w_r w) (w_w w) (w_x w) t.
(** The four assignments of a translation. *)
Definition wlk_done (a : Z) (t : walk_type) (sz e : Z) (w : pg_wlk) : pg_wlk :=
  mk_wlk e a sz (w_u w) (w_r w) (w_w w) (w_x w) t.
(** A value stored in a field of one bit; [&=] on such a field is the
    conjunction with it. *)
Definition bit1 (v : Z) : bool := bit v 0.
(** [wlk->u &= u; ...] *)
Definition wlk_and (u r wr x : bool) (w : pg_wlk) : pg_wlk :=
  wlk_rights (w_u w && u) (w_r w && r) (w_w w && wr) (w_x w && x) w.

(** The walks read table entries with [rd64 p], the 64-bit word of physical
    memory at [p], a multiple of 8; [rd32] is the half of it a 32-bit entry
    takes. *)
Definition rd32 (rd64 : Z -> Z) (p : Z) : Z :=
  bits (rd64 (p - p mod 8)) (8 * (p mod 8)) 32.

(** The area of physical memory the vmm occupies ([info->area]). *)
Record area_t := mk_area { area_start : Z; area_end : Z }.

Definition vmm_area (ar : area_t) (addr : Z) : bool :=
  mem_range addr (area_start ar) (area_end ar).

Definition vmm_area_range (ar : area_t) (addr sz : Z) : bool :=
  if sz <? 2 then vmm_area ar addr
  else
    let last := wrap64 (addr + sz - 1) in
    if addr <? last then vmm_area ar addr && vmm_area ar last
    else true.

(** ** Nested walk ([__npg_walk]) *)

Section npg_walk.
Context {NO : NpgOps} (pg_2M pg_1G : bool) (rd64 : Z -> Z).

Definition npg_walk (pml4 vaddr : Z) (wlk : pg_wlk) : vm_code * pg_wlk :=
  let wlk := wlk_rights true false false false (wlk_clear wlk) in
  let pml4e_p := entry64 pml4 (pml4_idx vaddr) in
  let pml4e := rd64 pml4e_p in
  if negb (npg_present pml4e) then (VM_FAULT, wlk_stop PG_WALK_TYPE_PML4E pml4e_p wlk) else
  let wlk := wlk_rights (w_u wlk) (bit1 (npg_readable pml4e)) (bit1 (npg_writable pml4e))
               (bit1 (npg_executable pml4e)) wlk in
  let pdpe_p := entry64 (page_addr (e_addr pml4e)) (pdp_idx vaddr) in
  let pdpe := rd64 pdpe_p in
  if negb (npg_present pdpe) then (VM_FAULT, wlk_stop PG_WALK_TYPE_PDPE pdpe_p wlk) else
  let wlk := wlk_and true (bit1 (npg_readable pdpe)) (bit1 (npg_writable pdpe)) (bit1 (npg_executable pdpe)) wlk in
  if pg_1G && npg_large pdpe then
    (VM_DONE, wlk_done (wrap64 (pg_addr PG_1G_SHIFT (pdpe_page_addr pdpe) + pg_offset PG_1G_SHIFT vaddr))
                PG_WALK_TYPE_PDPE PG_1G_SIZE pdpe_p wlk) else
  let pde_p := entry64 (page_addr (e_addr pdpe)) (pd64_idx vaddr) in
  let pde := rd64 pde_p in
  if negb (npg_present pde) then (VM_FAULT, wlk_stop PG_WALK_TYPE_PDE64 pde_p wlk) else
  let wlk := wlk_and true (bit1 (npg_readable pde)) (bit1 (npg_writable pde)) (bit1 (npg_executable pde)) wlk in
  if pg_2M && npg_large pde then
    (VM_DONE, wlk_done (wrap64 (pg_addr PG_2M_SHIFT (pde_page_addr pde) + pg_offset PG_2M_SHIFT vaddr))
                PG_WALK_TYPE_PDE64 PG_2M_SIZE pde_p wlk) else
  let pte_p := entry64 (page_addr (e_addr pde)) (pt64_idx vaddr) in
  let pte := rd64 pte_p in
  if negb (npg_present pte) then (VM_FAULT, wlk_stop PG_WALK_TYPE_PTE64 pte_p wlk) else
  let wlk := wlk_done (wrap64 (pg_addr PG_4K_SHIFT (e_addr pte) + pg_offset PG_4K_SHIFT vaddr))
               PG_WALK_TYPE_PTE64 PG_4K_SIZE pte_p wlk in
  (VM_DONE, wlk_and true (bit1 (npg_readable pte)) (bit1 (npg_writable pte)) (bit1 (npg_executable pte)) wlk).
End npg_walk.

(** The Intel macros give 2 and 4 for the rights to write and to execute, which
    a field of one bit cuts to 0: on these tables a walk answers that no page
    can be written or executed. *)
Lemma ept_walk_no_rights pg_2M pg_1G rd64 pml4 v w0 w :
  npg_walk (NO := ept_npg) pg_2M pg_1G rd64 pml4 v w0 = (VM_DONE, w) -> w_w w = false /\ w_x w = false.
Proof.
  assert (forall e, bit1 (ept_pg_writable e) = false /\ bit1 (ept_pg_executable e) = false) as He.
  { intros e. unfold bit1, bit, ept_pg_writable, ept_pg_executable. rewrite !Z.land_spec. by rewrite !andb_false_r. }
  unfold npg_walk. repeat (case_match; try done); intros [= <-]; cbn -[ept_pg_writable ept_pg_executable bit1 entry64 pml4_idx]; destruct (He (rd64 (entry64 pml4 (pml4_idx v)))) as [-> ->]; done.
Qed.

(** ** Guest walks *)

(** What the guest walks read of the vm's state: EFER.LMA and EFER.NXE,
    CR4.PAE and CR4.PSE, the 1GB page feature of the cpu and the vmm area. *)
Record mmu_cfg := mk_mmu_cfg {
  efer_lma : bool;
  efer_nxe : bool;
  cr4_pae : bool;
  cr4_pse : bool;
  cpu_pg_1G : bool;
  area : area_t;
}.

Section mmu_walk.
Variables (c : mmu_cfg) (rd64 : Z -> Z).

Let x64 := pg64_executable (efer_nxe c).
Let in_vmm (p : Z) := vmm_area_range (area c) p PG_4K_SIZE.

(** CR3: the frame number of the root table, or 32-byte aligned for PAE. *)
Definition cr3_addr (cr3 : Z) : Z := bits cr3 12 40.
Definition cr3_addr32 (cr3 : Z) : Z := bits cr3 12 20.
Definition cr3_pae_addr (cr3 : Z) : Z := bits cr3 5 27.

(** [__pg_walk_lmode] *)
Definition pg_walk_lmode (cr3 vaddr : Z) (wlk : pg_wlk) : vm_code * pg_wlk :=
  let wlk := wlk_clear wlk in
  let pml4 := page_addr (cr3_addr cr3) in
  if in_vmm pml4 then (VM_FAIL, wlk) else
  let pml4e_p := entry64 pml4 (pml4_idx vaddr) in
  let pml4e := rd64 pml4e_p in
  if negb (pg_present pml4e) then (VM_FAULT, wlk_stop PG_WALK_TYPE_PML4E pml4e_p wlk) else
  let wlk := wlk_rights (e_lvl pml4e) true (e_rw pml4e) (x64 pml4e) wlk in
  let pdp := page_addr (e_addr pml4e) in
  if in_vmm pdp then (VM_FAIL, wlk) else
  let pdpe_p := entry64 pdp (pdp_idx vaddr) in
  let pdpe := rd64 pdpe_p in
  if negb (pg_present pdpe) then (VM_FAULT, wlk_stop PG_WALK_TYPE_PDPE pdpe_p wlk) else
  let wlk := wlk_and (e_lvl pdpe) true (e_rw pdpe) (x64 pdpe) wlk in
  if cpu_pg_1G c && pg_large pdpe then
    (VM_DONE, wlk_done (wrap64 (pg_addr PG_1G_SHIFT (pdpe_page_addr pdpe) + pg_offset PG_1G_SHIFT vaddr))
                PG_WALK_TYPE_PDPE PG_1G_SIZE pdpe_p wlk) else
  let pd := page_addr (e_addr pdpe) in
  if in_vmm pd then (VM_FAIL, wlk) else
  let pde_p := entry64 pd (pd64_idx vaddr) in
  let pde := rd64 pde_p in
  if negb (pg_present pde) then (VM_FAULT, wlk_stop PG_WALK_TYPE_PDE64 pde_p wlk) else
  let wlk := wlk_and (e_lvl pde) true (e_rw pde) (x64 pde) wlk in
  if pg_large pde then
    (VM_DONE, wlk_done (wrap64 (pg_addr PG_2M_SHIFT (pde_page_addr pde) + pg_offset PG_2M_SHIFT vaddr))
                PG_WALK_TYPE_PDE64 PG_2M_SIZE pde_p wlk) else
  let pt := page_addr (e_addr pde) in
  if in_vmm pt then (VM_FAIL, wlk) else
  let pte_p := entry64 pt (pt64_idx vaddr) in
  let pte := rd64 pte_p in
  if negb (pg_present pte) then (VM_FAULT, wlk_stop PG_WALK_TYPE_PTE64 pte_p wlk) else
  let wlk := wlk_done (wrap64 (pg_addr PG_4K_SHIFT (e_addr pte) + pg_offset PG_4K_SHIFT vaddr))
               PG_WALK_TYPE_PTE64 PG_4K_SIZE pte_p wlk in
  (VM_DONE, wlk_and (e_lvl pte) true (e_rw pte) (x64 pte) wlk).

(** [__pg_walk_pmode_pae]: the four top entries carry no rights. *)
Definition pg_walk_pmode_pae (cr3 vaddr : Z) (wlk : pg_wlk) : vm_code * pg_wlk :=
  let vaddr := Z.land vaddr 0xffffffff in
  let wlk := wlk_clear wlk in
  let pdp := pg_addr 5 (cr3_pae_addr cr3) in
  if in_vmm pdp then (VM_FAIL, wlk) else
  let pdpe_p := entry64 pdp (pdp_pae_idx vaddr) in
  let pdpe := rd64 pdpe_p in
  if negb (pg_present pdpe) then (VM_FAULT, wlk_stop PG_WALK_TYPE_PDPE_PAE pdpe_p wlk) else
  let pd := page_addr (e_addr pdpe) in
  if in_vmm pd then (VM_FAIL, wlk) else
  let pde_p := entry64 pd (pd64_idx vaddr) in
  let pde := rd64 pde_p in
  if negb (pg_present pde) then (VM_FAULT, wlk_stop PG_WALK_TYPE_PDE64 pde_p wlk) else
  let wlk := wlk_rights (e_lvl pde) true (e_rw pde) (x64 pde) wlk in
  if cr4_pse c && pg_large pde then
    (VM_DONE, wlk_done (wrap64 (pg_addr PG_2M_SHIFT (pde_page_addr pde) + pg_offset PG_2M_SHIFT vaddr))
                PG_WALK_TYPE_PDE64 PG_2M_SIZE pde_p wlk) else
  let pt := page_addr (e_addr pde) in
  if in_vmm pt then (VM_FAIL, wlk) else
  let pte_p := entry64 pt (pt64_idx vaddr) in
  let pte := rd64 pte_p in
  if negb (pg_present pte) then (VM_FAULT, wlk_stop PG_WALK_TYPE_PTE64 pte_p wlk) else
  let wlk := wlk_done (wrap64 (pg_addr PG_4K_SHIFT (e_addr pte) + pg_offset PG_4K_SHIFT vaddr))
               PG_WALK_TYPE_PTE64 PG_4K_SIZE pte_p wlk in
  (VM_DONE, wlk_and (e_lvl pte) true (e_rw pte) (x64 pte) wlk).

(** [__pg_walk_pmode]: 32-bit entries and arithmetic, always executable. *)
Definition pg_walk_pmode (cr3 vaddr : Z) (wlk : pg_wlk) : vm_code * pg_wlk :=
  let vaddr := Z.land vaddr 0xffffffff in
  let wlk := wlk_clear wlk in
  let pd := page_addr (cr3_addr32 cr3) in
  if in_vmm pd then (VM_FAIL, wlk) else
  let pde_p := entry32 pd (pd32_idx vaddr) in
  let pde := rd32 rd64 pde_p in
  if negb (pg_present pde) then (VM_FAULT, wlk_stop PG_WALK_TYPE_PDE32 pde_p wlk) else
  let wlk := wlk_rights (e_lvl pde) true (e_rw pde) true wlk in
  if cr4_pse c && pg_large pde then
    (VM_DONE, wlk_done (wrap64 (wrap32 (Z.shiftl (pde32_page_addr pde) PG_4M_SHIFT) + pg_offset PG_4M_SHIFT vaddr))
                PG_WALK_TYPE_PDE32 PG_4M_SIZE pde_p wlk) else
  let pt := page_addr (e32_addr pde) in
  if in_vmm pt then (VM_FAIL, wlk) else
  let pte_p := entry32 pt (pt32_idx vaddr) in
  let pte := rd32 rd64 pte_p in
  if negb (pg_present pte) then (VM_FAULT, wlk_stop PG_WALK_TYPE_PTE32 pte_p wlk) else
  let wlk := wlk_done (wrap64 (wrap32 (Z.shiftl (e32_addr pte) PG_4K_SHIFT) + pg_offset PG_4K_SHIFT vaddr))
               PG_WALK_TYPE_PTE32 PG_4K_SIZE pte_p wlk in
  (VM_DONE, wlk_and (e_lvl pte) true (e_rw pte) true wlk).

(** [__pg_walk] *)
Definition pg_walk (cr3 vaddr : Z) (wlk : pg_wlk) : vm_code * pg_wlk :=
  if efer_lma c then pg_walk_lmode cr3 vaddr wlk
  else if cr4_pae c then pg_walk_pmode_pae cr3 vaddr wlk
  else pg_walk_pmode cr3 vaddr wlk.
End mmu_walk.

(** ** Confinement of the guest walks

    The vmm area is made of whole pages, so a table page is either inside it
    or outside: a walk that checks a page-aligned table reads none of the
    vmm's memory. *)

Record area_ok (ar : area_t) : Prop := {
  ao_start : (4096 | area_start ar);
  ao_end : (4096 | area_end ar);
}.

(** Two memories that differ only inside the vmm area. *)
Definition agree_outside (ar : area_t) (m m' : Z -> Z) : Prop :=
  forall p, (8 | p) -> vmm_area ar p = false -> m p = m' p.

Definition page_frame (t : Z) : Prop := (4096 | t) /\ 0 <= t < 2 ^ 52.

Lemma page_addr_frame n : fits 40 n -> page_frame (page_addr n) /\ page_addr n = n * 4096.
Proof.
  intros [H0 H1]. assert (page_addr n = n * 4096) as ->.
  { unfold page_addr, PG_4K_SHIFT. rewrite pg_addr_mul; [done|lia|split; lia]. }
  split; [|done]. split; [apply Z.divide_factor_r|lia].
Qed.

Lemma outside_page ar t q : area_ok ar -> page_frame t ->
  vmm_area_range ar t PG_4K_SIZE = false -> t <= q < t + 4096 -> vmm_area ar q = false.
Proof.
  intros [[a Ha] [b Hb]] [[n ->] [H0 H1]] Hr Hq.
  unfold vmm_area_range in Hr. change (PG_4K_SIZE <? 2) with false in Hr.
  change PG_4K_SIZE with 4096 in Hr. cbv beta iota zeta in Hr.
  rewrite wrap_id in Hr by (split; lia).
  rewrite (proj2 (Z.ltb_lt _ _)) in Hr by lia.
  unfold vmm_area, mem_range in *. rewrite Ha, Hb in *.
  destruct (Z.leb_spec (a * 4096) (n * 4096)), (Z.ltb_spec (n * 4096) (b * 4096)),
    (Z.leb_spec (a * 4096) (n * 4096 + 4096 - 1)), (Z.ltb_spec (n * 4096 + 4096 - 1) (b * 4096)),
    (Z.leb_spec (a * 4096) q), (Z.ltb_spec q (b * 4096)); try done; lia.
Qed.

Section confined.
Context (ar : area_t) (m m' : Z -> Z) (Har : area_ok ar) (Hag : agree_outside ar m m').

Lemma read_confined t idx : page_frame t -> vmm_area_range ar t PG_4K_SIZE = false ->
  0 <= idx < 512 -> m (entry64 t idx) = m' (entry64 t idx).
Proof.
  intros Ht Hr Hi. unfold entry64. apply Hag; [|eapply outside_page; [done..|lia]].
  destruct Ht as [[n ->] _]. exists (n * 512 + idx). lia.
Qed.

Lemma read32_confined t idx : page_frame t -> vmm_area_range ar t PG_4K_SIZE = false ->
  0 <= idx < 1024 -> rd32 m (entry32 t idx) = rd32 m' (entry32 t idx).
Proof.
  intros Ht Hr Hi. unfold rd32, entry32. rewrite Hag; [done| |].
  { exists ((t + 4 * idx) / 8). pose proof (Z.div_mod (t + 4 * idx) 8). lia. }
  eapply outside_page; [done..|]. destruct Ht as [[n ->] ?].
  pose proof (Z.mod_pos_bound (n * 4096 + 4 * idx) 8).
  assert (0 <= (n * 4096 + 4 * idx) mod 8 <= 4 * idx); [|lia].
  replace (n * 4096 + 4 * idx) with (4 * idx + (n * 512) * 8) by lia.
  rewrite Z.mod_add by lia. split; [apply Z.mod_pos_bound; lia|apply Z.mod_le; lia].
Qed.
End confined.

Lemma table_frame e : page_frame (page_addr (e_addr e)).
Proof. apply page_addr_frame, bits_fits; lia. Qed.
Lemma cr3_frame cr3 : page_frame (page_addr (cr3_addr cr3)).
Proof. apply page_addr_frame, bits_fits; lia. Qed.
Lemma table32_frame e : page_frame (page_addr (e32_addr e)).
Proof. apply page_addr_frame. destruct (bits_fits e 12 20); [lia..|]. unfold e32_addr; split; lia. Qed.
Lemma cr3_frame32 cr3 : page_frame (page_addr (cr3_addr32 cr3)).
Proof. apply page_addr_frame. destruct (bits_fits cr3 12 20); [lia..|]. unfold cr3_addr32; split; lia. Qed.

Create HintDb walk.
#[export] Hint Resolve table_frame cr3_frame table32_frame cr3_frame32 : walk.

Lemma idx10_bound a shf : 0 <= Z.land (Z.shiftr a shf) 0x3ff < 1024.
Proof. change 0x3ff with (Z.ones 10). rewrite Z.land_ones by lia. apply Z.mod_pos_bound. lia. Qed.

Lemma lmode_confined c m m' cr3 vaddr wlk : area_ok (area c) -> agree_outside (area c) m m' ->
  pg_walk_lmode c m cr3 vaddr wlk = pg_walk_lmode c m' cr3 vaddr wlk.
Proof.
  intros Har Hag. pose proof (fun t idx => read_confined (area c) m m' Har Hag t idx) as Hrd.
  unfold pg_walk_lmode. 
  destruct (vmm_area_range _ (page_addr (cr3_addr cr3)) _) eqn:Hv1; [done|].
  rewrite (Hrd _ (pml4_idx vaddr)) by (eauto with walk; apply idx9_bound).
  set (pml4e := m' _). destruct (negb _); [done|].
  destruct (vmm_area_range _ (page_addr (e_addr pml4e)) _) eqn:Hv2; [done|].
  rewrite (Hrd _ (pdp_idx vaddr)) by (eauto with walk; apply idx9_bound).
  set (pdpe := m' (entry64 (page_addr (e_addr pml4e)) _)). destruct (negb _); [done|].
  destruct (cpu_pg_1G c && _); [done|].
  destruct (vmm_area_range _ (page_addr (e_addr pdpe)) _) eqn:Hv3; [done|].
  rewrite (Hrd _ (pd64_idx vaddr)) by (eauto with walk; apply idx9_bound).
  set (pde := m' (entry64 (page_addr (e_addr pdpe)) _)). destruct (negb _); [done|].
  destruct (pg_large pde); [done|].
  destruct (vmm_area_range _ (page_addr (e_addr pde)) _) eqn:Hv4; [done|].
  by rewrite (Hrd _ (pt64_idx vaddr)) by (eauto with walk; apply idx9_bound).
Qed.

Lemma pmode_confined c m m' cr3 vaddr wlk : area_ok (area c) -> agree_outside (area c) m m' ->
  pg_walk_pmode c m cr3 vaddr wlk = pg_walk_pmode c m' cr3 vaddr wlk.
Proof.
  intros Har Hag. pose proof (fun t idx => read32_confined (area c) m m' Har Hag t idx) as Hrd.
  unfold pg_walk_pmode.
  destruct (vmm_area_range _ (page_addr (cr3_addr32 cr3)) _) eqn:Hv1; [done|].
  rewrite (Hrd _ (pd32_idx _)) by (eauto with walk; apply idx10_bound).
  set (pde := rd32 m' _). destruct (negb _); [done|].
  destruct (cr4_pse c && _); [done|].
  destruct (vmm_area_range _ (page_addr (e32_addr pde)) _) eqn:Hv2; [done|].
  by rewrite (Hrd _ (pt32_idx _)) by (eauto with walk; apply idx10_bound).
Qed.

(** ** Translations keep the page offset *)

Lemma mod_add_frame shf n v : 0 <= shf < 64 -> (n * 2 ^ shf + v mod 2 ^ shf) mod 2 ^ shf = v mod 2 ^ shf.
Proof.
  intros Hs. assert (0 < 2 ^ shf) by (apply Z.pow_pos_nonneg; lia).
  rewrite Z.add_comm, Z.mod_add by lia. by rewrite Zmod_mod.
Qed.

Lemma join_offset shf w n v : 0 <= shf -> 0 <= w -> shf + w <= 64 -> fits w n ->
  wrap64 (pg_addr shf n + pg_offset shf v) = n * 2 ^ shf + v mod 2 ^ shf.
Proof.
  intros Hs Hw Hsw [Hn0 Hn1]. assert (0 < 2 ^ shf) by (apply Z.pow_pos_nonneg; lia).
  assert (2 ^ w <= 2 ^ (64 - shf)) by (apply Z.pow_le_mono_r; lia).
  assert (2 ^ (64 - shf) * 2 ^ shf = 2 ^ 64) by (rewrite <- Z.pow_add_r by lia; f_equal; lia).
  rewrite pg_addr_mul, pg_offset_mod by (lia || split; lia).
  pose proof (Z.mod_pos_bound v (2 ^ shf)). apply wrap_id. split; nia.
Qed.

(** The address a page of [2 ^ shf] bytes gives: offset and frame. *)
Lemma join_frame shf w n v : 0 <= shf < 64 -> 0 <= w -> shf + w <= 64 -> fits w n ->
  let a := wrap64 (pg_addr shf n + pg_offset shf v) in
  a mod 2 ^ shf = v mod 2 ^ shf /\ a / 2 ^ shf = n.
Proof.
  intros Hs Hw Hsw Hn a. unfold a. rewrite (join_offset shf w) by (lia || done).
  assert (0 < 2 ^ shf) by (apply Z.pow_pos_nonneg; lia).
  split; [by apply mod_add_frame|].
  rewrite Z.div_add_l, Z.div_small by (lia || apply Z.mod_pos_bound; lia). lia.
Qed.

Lemma join_1G e v : let a := wrap64 (pg_addr PG_1G_SHIFT (pdpe_page_addr e) + pg_offset PG_1G_SHIFT v) in
  a mod PG_1G_SIZE = v mod PG_1G_SIZE /\ a / PG_1G_SIZE = pdpe_page_addr e.
Proof. apply (join_frame 30 22); [lia..|apply bits_fits; lia]. Qed.
Lemma join_2M e v : let a := wrap64 (pg_addr PG_2M_SHIFT (pde_page_addr e) + pg_offset PG_2M_SHIFT v) in
  a mod PG_2M_SIZE = v mod PG_2M_SIZE /\ a / PG_2M_SIZE = pde_page_addr e.
Proof. apply (join_frame 21 31); [lia..|apply bits_fits; lia]. Qed.
Lemma join_4K e v : let a := wrap64 (pg_addr PG_4K_SHIFT (e_addr e) + pg_offset PG_4K_SHIFT v) in
  a mod PG_4K_SIZE = v mod PG_4K_SIZE /\ a / PG_4K_SIZE = e_addr e.
Proof. apply (join_frame 12 40); [lia..|apply bits_fits; lia]. Qed.

(** ** Addresses of one page translate alike *)

Lemma shiftr_stable k s v i : 0 <= k <= s -> 0 <= v -> 0 <= i -> v mod 2 ^ k + i < 2 ^ k ->
  Z.shiftr (v + i) s = Z.shiftr v s.
Proof.
  intros Hk Hv Hi Hb. assert (0 < 2 ^ k) by (apply Z.pow_pos_nonneg; lia).
  rewrite !Z.shiftr_div_pow2 by lia. replace s with (k + (s - k)) by lia.
  rewrite Z.pow_add_r, <- !Z.div_div by (lia || apply Z.pow_pos_nonneg; lia). f_equal.
  pose proof (Z.div_mod v (2 ^ k)). pose proof (Z.mod_pos_bound v (2 ^ k)).
  symmetry. apply Z.div_unique with (v mod 2 ^ k + i); lia.
Qed.

Lemma offset_stable k v i : 0 <= k -> 0 <= v -> 0 <= i -> v mod 2 ^ k + i < 2 ^ k ->
  (v + i) mod 2 ^ k = v mod 2 ^ k + i.
Proof.
  intros Hk Hv Hi Hb. assert (0 < 2 ^ k) by (apply Z.pow_pos_nonneg; lia).
  pose proof (Z.mod_pos_bound v (2 ^ k)).
  rewrite <- Z.add_mod_idemp_l by lia. apply Z.mod_small. lia.
Qed.

Lemma land_32 v : Z.land v 0xffffffff = v mod 2 ^ 32.
Proof. change 0xffffffff with (Z.ones 32). by rewrite Z.land_ones. Qed.

Lemma mod_mod_32 k v : 0 <= k <= 32 -> (v mod 2 ^ 32) mod 2 ^ k = v mod 2 ^ k.
Proof.
  intros Hk. assert (0 < 2 ^ k) by (apply Z.pow_pos_nonneg; lia).
  assert (0 < 2 ^ (32 - k)) by (apply Z.pow_pos_nonneg; lia).
  replace (2 ^ 32) with (2 ^ k * 2 ^ (32 - k)) by (rewrite <- Z.pow_add_r by lia; f_equal; lia).
  rewrite Z.rem_mul_r by lia. rewrite Z.mul_comm, Z.mod_add by lia. apply Z.mod_mod. lia.
Qed.

(** What a successful translation says: the page size is a power of two, the
    offset is kept and the page lies in the 52-bit physical address space. *)
Definition done_in_page (k v : Z) (w : pg_wlk) : Prop :=
  w_size w = 2 ^ k /\ w_addr w mod 2 ^ k = v mod 2 ^ k /\
  0 <= w_addr w /\ w_addr w - w_addr w mod 2 ^ k + 2 ^ k <= 2 ^ 52.

(** [w] translates [i] bytes further. *)
Definition wlk_shift (i : Z) (w : pg_wlk) : pg_wlk :=
  mk_wlk (w_entry w) (w_addr w + i) (w_size w) (w_u w) (w_r w) (w_w w) (w_x w) (w_type w).

Lemma join_page shf w n v : 0 <= shf < 64 -> 0 <= w -> shf + w <= 52 -> fits w n ->
  let a := wrap64 (pg_addr shf n + pg_offset shf v) in
  a mod 2 ^ shf = v mod 2 ^ shf /\ 0 <= a /\ a - a mod 2 ^ shf + 2 ^ shf <= 2 ^ 52.
Proof.
  intros Hs Hw Hsw Hn a. assert (0 < 2 ^ shf) by (apply Z.pow_pos_nonneg; lia).
  destruct (join_frame shf w n v) as [Hm _]; [lia..|done|]. fold a in Hm. rewrite Hm.
  split; [done|]. unfold a. rewrite (join_offset shf w) by (done || lia).
  pose proof (Z.mod_pos_bound v (2 ^ shf)). destruct Hn as [Hn0 Hn1].
  assert (2 ^ w * 2 ^ shf <= 2 ^ 52) by (rewrite <- Z.pow_add_r by lia; apply Z.pow_le_mono_r; lia).
  nia.
Qed.

Lemma join_shift shf w n v i : 0 <= shf < 64 -> 0 <= w -> shf + w <= 64 -> fits w n ->
  0 <= v -> 0 <= i -> v mod 2 ^ shf + i < 2 ^ shf ->
  wrap64 (pg_addr shf n + pg_offset shf (v + i)) = wrap64 (pg_addr shf n + pg_offset shf v) + i.
Proof.
  intros. rewrite !(join_offset shf w) by (done || lia). rewrite offset_stable by lia. lia.
Qed.

Lemma join32 shf w n v : 0 <= shf -> 0 <= w -> shf + w <= 32 -> fits w n ->
  wrap64 (wrap32 (Z.shiftl n shf) + pg_offset shf v) = wrap64 (pg_addr shf n + pg_offset shf v).
Proof.
  intros Hs Hw Hsw [Hn0 Hn1]. f_equal. f_equal. unfold pg_addr.
  rewrite Z.shiftl_mul_pow2 by lia.
  assert (2 ^ w * 2 ^ shf <= 2 ^ 32) by (rewrite <- Z.pow_add_r by lia; apply Z.pow_le_mono_r; lia).
  assert (0 < 2 ^ shf) by (apply Z.pow_pos_nonneg; lia).
  rewrite !wrap_id; [done|split; nia..].
Qed.

(** The frames of the entries, at the widths of their fields. *)
Lemma fits_1G e : fits 22 (pdpe_page_addr e).
Proof. apply bits_fits; lia. Qed.
Lemma fits_2M e : fits 31 (pde_page_addr e).
Proof. apply bits_fits; lia. Qed.
Lemma fits_4K e : fits 40 (e_addr e).
Proof. apply bits_fits; lia. Qed.
Lemma fits_4M e : fits 10 (pde32_page_addr e).
Proof. apply bits_fits; lia. Qed.
Lemma fits_4K32 e : fits 20 (e32_addr e).
Proof. apply bits_fits; lia. Qed.

(** [walk_cases H] splits a walk that returned on the tests it made. *)
Ltac walk_cases H :=
  repeat match type of H with
  | (if ?b then _ else _) = _ => destruct b eqn:?; [try discriminate H|try discriminate H]
  end.

Lemma page_1G e v : let a := wrap64 (pg_addr PG_1G_SHIFT (pdpe_page_addr e) + pg_offset PG_1G_SHIFT v) in
  a mod 2 ^ PG_1G_SHIFT = v mod 2 ^ PG_1G_SHIFT /\ 0 <= a /\
  a - a mod 2 ^ PG_1G_SHIFT + 2 ^ PG_1G_SHIFT <= 2 ^ 52.
Proof. apply (join_page PG_1G_SHIFT 22); unfold PG_1G_SHIFT; [lia..|apply fits_1G]. Qed.
Lemma page_2M e v : let a := wrap64 (pg_addr PG_2M_SHIFT (pde_page_addr e) + pg_offset PG_2M_SHIFT v) in
  a mod 2 ^ PG_2M_SHIFT = v mod 2 ^ PG_2M_SHIFT /\ 0 <= a /\
  a - a mod 2 ^ PG_2M_SHIFT + 2 ^ PG_2M_SHIFT <= 2 ^ 52.
Proof. apply (join_page PG_2M_SHIFT 31); unfold PG_2M_SHIFT; [lia..|apply fits_2M]. Qed.
Lemma page_4K n v : fits 40 n -> let a := wrap64 (pg_addr PG_4K_SHIFT n + pg_offset PG_4K_SHIFT v) in
  a mod 2 ^ PG_4K_SHIFT = v mod 2 ^ PG_4K_SHIFT /\ 0 <= a /\
  a - a mod 2 ^ PG_4K_SHIFT + 2 ^ PG_4K_SHIFT <= 2 ^ 52.
Proof. intros Hn. apply (join_page PG_4K_SHIFT 40); unfold PG_4K_SHIFT; [lia..|done]. Qed.

Lemma lmode_done c rd64 cr3 v w0 w : pg_walk_lmode c rd64 cr3 v w0 = (VM_DONE, w) ->
  exists k, (k = PG_4K_SHIFT \/ k = PG_2M_SHIFT \/ k = PG_1G_SHIFT) /\ done_in_page k v w.
Proof.
  unfold pg_walk_lmode. intros H. walk_cases H.
  all: injection H as <-; unfold done_in_page;
    cbn [w_addr w_size wlk_done wlk_and wlk_rights wlk_clear].
  - exists PG_1G_SHIFT. split; [auto|]. split; [done|]. apply page_1G.
  - exists PG_2M_SHIFT. split; [auto|]. split; [done|]. apply page_2M.
  - exists PG_4K_SHIFT. split; [auto|]. split; [done|]. apply page_4K, fits_4K.
Qed.

Lemma pae_done c rd64 cr3 v w0 w : pg_walk_pmode_pae c rd64 cr3 v w0 = (VM_DONE, w) ->
  exists k, (k = PG_4K_SHIFT \/ k = PG_2M_SHIFT) /\ done_in_page k v w.
Proof.
  unfold pg_walk_pmode_pae. rewrite land_32. intros H. walk_cases H.
  all: injection H as <-; unfold done_in_page;
    cbn [w_addr w_size wlk_done wlk_and wlk_rights wlk_clear].
  - exists PG_2M_SHIFT. split; [auto|]. split; [done|].
    rewrite <- (mod_mod_32 PG_2M_SHIFT v) by (unfold PG_2M_SHIFT; lia). apply page_2M.
  - exists PG_4K_SHIFT. split; [auto|]. split; [done|].
    rewrite <- (mod_mod_32 PG_4K_SHIFT v) by (unfold PG_4K_SHIFT; lia). apply page_4K, fits_4K.
Qed.

Lemma page_4M e v : let a := wrap64 (wrap32 (Z.shiftl (pde32_page_addr e) PG_4M_SHIFT) + pg_offset PG_4M_SHIFT v) in
  a mod 2 ^ PG_4M_SHIFT = v mod 2 ^ PG_4M_SHIFT /\ 0 <= a /\
  a - a mod 2 ^ PG_4M_SHIFT + 2 ^ PG_4M_SHIFT <= 2 ^ 52.
Proof.
  rewrite (join32 PG_4M_SHIFT 10) by (unfold PG_4M_SHIFT; lia || apply fits_4M).
  apply (join_page PG_4M_SHIFT 10); unfold PG_4M_SHIFT; [lia..|apply fits_4M].
Qed.

Lemma page_4K32 e v : let a := wrap64 (wrap32 (Z.shiftl (e32_addr e) PG_4K_SHIFT) + pg_offset PG_4K_SHIFT v) in
  a mod 2 ^ PG_4K_SHIFT = v mod 2 ^ PG_4K_SHIFT /\ 0 <= a /\
  a - a mod 2 ^ PG_4K_SHIFT + 2 ^ PG_4K_SHIFT <= 2 ^ 52.
Proof.
  rewrite (join32 PG_4K_SHIFT 20) by (unfold PG_4K_SHIFT; lia || apply fits_4K32).
  apply (join_page PG_4K_SHIFT 20); unfold PG_4K_SHIFT; [lia..|apply fits_4K32].
Qed.

Lemma pmode_done c rd64 cr3 v w0 w : pg_walk_pmode c rd64 cr3 v w0 = (VM_DONE, w) ->
  exists k, (k = PG_4K_SHIFT \/ k = PG_4M_SHIFT /\ cr4_pse c = true) /\ done_in_page k v w.
Proof.
  unfold pg_walk_pmode. rewrite land_32. intros H. walk_cases H.
  all: injection H as <-; unfold done_in_page;
    cbn [w_addr w_size wlk_done wlk_and wlk_rights wlk_clear].
  - exists PG_4M_SHIFT. split; [right; split; [done|by destruct (cr4_pse c)]|]. split; [done|].
    rewrite <- (mod_mod_32 PG_4M_SHIFT v) by (unfold PG_4M_SHIFT; lia). apply page_4M.
  - exists PG_4K_SHIFT. split; [auto|]. split; [done|].
    rewrite <- (mod_mod_32 PG_4K_SHIFT v) by (unfold PG_4K_SHIFT; lia). apply page_4K32.
Qed.

(** The guest walks always translate inside a page of at most 1GB; with CR4.PSE
    clear in 32-bit mode the page is 4KB. *)
Lemma pg_walk_done c rd64 cr3 v w0 w : pg_walk c rd64 cr3 v w0 = (VM_DONE, w) ->
  exists k, 12 <= k <= 30 /\ done_in_page k v w /\
    (efer_lma c = false -> cr4_pae c = false -> cr4_pse c = false -> k = 12).
Proof.
  unfold pg_walk. destruct (efer_lma c); [|destruct (cr4_pae c)]; intros H.
  - apply lmode_done in H as (k & Hk & Hd). exists k.
    unfold PG_4K_SHIFT, PG_2M_SHIFT, PG_1G_SHIFT in Hk. by split_and!; try lia.
  - apply pae_done in H as (k & Hk & Hd). exists k.
    unfold PG_4K_SHIFT, PG_2M_SHIFT in Hk. by split_and!; try lia.
  - apply pmode_done in H as (k & Hk & Hd). exists k.
    unfold PG_4K_SHIFT, PG_4M_SHIFT in Hk. split_and!; [lia|lia|apply Hd..|].
    intros _ _ Hp. destruct Hk as [?|[_ Hk]]; congruence.
Qed.

(** *** Shifting the address inside its page *)

Section idx_stable.
Context (k v i : Z) (Hk : 0 <= k) (Hv : 0 <= v) (Hi : 0 <= i) (Hb : v mod 2 ^ k + i < 2 ^ k).

Lemma pml4_idx_stable : k <= PG_512G_SHIFT -> pml4_idx (v + i) = pml4_idx v.
Proof using Hk Hv Hi Hb. intros. unfold pml4_idx. by rewrite (shiftr_stable k). Qed.
Lemma pdp_idx_stable : k <= PG_1G_SHIFT -> pdp_idx (v + i) = pdp_idx v.
Proof using Hk Hv Hi Hb. intros. unfold pdp_idx. by rewrite (shiftr_stable k). Qed.
Lemma pdp_pae_idx_stable : k <= PG_1G_SHIFT -> pdp_pae_idx (v + i) = pdp_pae_idx v.
Proof using Hk Hv Hi Hb. intros. unfold pdp_pae_idx. by rewrite (shiftr_stable k). Qed.
Lemma pd64_idx_stable : k <= PG_2M_SHIFT -> pd64_idx (v + i) = pd64_idx v.
Proof using Hk Hv Hi Hb. intros. unfold pd64_idx. by rewrite (shiftr_stable k). Qed.
Lemma pt64_idx_stable : k <= PG_4K_SHIFT -> pt64_idx (v + i) = pt64_idx v.
Proof using Hk Hv Hi Hb. intros. unfold pt64_idx. by rewrite (shiftr_stable k). Qed.
Lemma pd32_idx_stable : k <= PG_4M_SHIFT -> pd32_idx (v + i) = pd32_idx v.
Proof using Hk Hv Hi Hb. intros. unfold pd32_idx. by rewrite (shiftr_stable k). Qed.
Lemma pt32_idx_stable : k <= PG_4K_SHIFT -> pt32_idx (v + i) = pt32_idx v.
Proof using Hk Hv Hi Hb. intros. unfold pt32_idx. by rewrite (shiftr_stable k). Qed.
End idx_stable.

(** [walk_shift k H]: a page of [2 ^ k] bytes was found on the path the
    hypotheses record; the same path is taken [i] bytes further. *)
Ltac walk_shift k H :=
  injection H as <-; cbn [w_size w_addr wlk_done wlk_and wlk_rights wlk_clear];
  intros Hb;
  rewrite ?(pml4_idx_stable k), ?(pdp_idx_stable k), ?(pdp_pae_idx_stable k),
    ?(pd64_idx_stable k), ?(pt64_idx_stable k), ?(pd32_idx_stable k), ?(pt32_idx_stable k)
    by (done || (unfold PG_512G_SHIFT, PG_1G_SHIFT, PG_4M_SHIFT, PG_2M_SHIFT, PG_4K_SHIFT; lia));
  repeat match goal with
  | Hc : ?b = _ |- context [if ?b then _ else _] => rewrite Hc
  end; unfold wlk_shift, wlk_done, wlk_and, wlk_rights, wlk_clear;
  cbn [w_addr w_size w_entry w_u w_r w_w w_x w_type];
  do 2 f_equal.

(** The translations of [v + i], for the four frame widths. *)
Lemma shift_frame shf w n v i : shf = PG_4K_SHIFT \/ shf = PG_2M_SHIFT \/ shf = PG_4M_SHIFT \/ shf = PG_1G_SHIFT ->
  0 <= w -> shf + w <= 64 -> fits w n ->
  0 <= v -> 0 <= i -> v mod 2 ^ shf + i < 2 ^ shf ->
  wrap64 (pg_addr shf n + pg_offset shf (v + i)) = wrap64 (pg_addr shf n + pg_offset shf v) + i.
Proof.
  intros Hs. apply join_shift.
  destruct Hs as [->|[->|[->| ->]]]; unfold PG_4K_SHIFT, PG_2M_SHIFT, PG_4M_SHIFT, PG_1G_SHIFT; lia.
Qed.

Lemma shift_32 shf w n v i : shf = PG_4K_SHIFT \/ shf = PG_4M_SHIFT ->
  0 <= w -> shf + w <= 32 -> fits w n ->
  0 <= v -> 0 <= i -> v mod 2 ^ shf + i < 2 ^ shf ->
  wrap64 (wrap32 (Z.shiftl n shf) + pg_offset shf (v + i)) =
  wrap64 (wrap32 (Z.shiftl n shf) + pg_offset shf v) + i.
Proof.
  intros Hs Hw Hsw Hn Hv Hi Hb.
  assert (0 <= shf) by (destruct Hs as [->| ->]; unfold PG_4K_SHIFT, PG_4M_SHIFT; lia).
  rewrite !(join32 shf w) by done. apply (shift_frame shf w); [tauto|lia..|done|done|done|done].
Qed.

(** Closes the last goal of a leaf, on the address, with one of the two
    lemmas and the width of the frame. *)
Ltac shift_leaf lem frame :=
  apply lem; [tauto|lia| |apply frame|assumption..];
  unfold PG_1G_SHIFT, PG_4M_SHIFT, PG_2M_SHIFT, PG_4K_SHIFT; lia.

Lemma lmode_shift c rd64 cr3 v w0 w i : pg_walk_lmode c rd64 cr3 v w0 = (VM_DONE, w) ->
  0 <= v -> 0 <= i -> v mod w_size w + i < w_size w ->
  pg_walk_lmode c rd64 cr3 (v + i) w0 = (VM_DONE, wlk_shift i w).
Proof.
  unfold pg_walk_lmode. intros H Hv Hi. walk_cases H.
  - walk_shift PG_1G_SHIFT H. shift_leaf (shift_frame PG_1G_SHIFT 22) fits_1G.
  - walk_shift PG_2M_SHIFT H. shift_leaf (shift_frame PG_2M_SHIFT 31) fits_2M.
  - walk_shift PG_4K_SHIFT H. shift_leaf (shift_frame PG_4K_SHIFT 40) fits_4K.
Qed.

Lemma land_32_shift k v i : 0 <= k <= 32 -> 0 <= v -> 0 <= i -> v mod 2 ^ k + i < 2 ^ k ->
  Z.land (v + i) 0xffffffff = Z.land v 0xffffffff + i /\ Z.land v 0xffffffff mod 2 ^ k = v mod 2 ^ k /\
  0 <= Z.land v 0xffffffff.
Proof.
  intros Hk Hv Hi Hb. rewrite !land_32, mod_mod_32 by lia.
  assert (0 <= v mod 2 ^ 32 < 2 ^ 32) by (apply Z.mod_pos_bound; lia).
  split_and!; [|done|lia]. apply offset_stable; [lia..|].
  assert (0 < 2 ^ k) by (apply Z.pow_pos_nonneg; lia).
  assert (0 < 2 ^ (32 - k)) by (apply Z.pow_pos_nonneg; lia).
  assert (2 ^ 32 = 2 ^ k * 2 ^ (32 - k)) as He by (rewrite <- Z.pow_add_r by lia; f_equal; lia).
  pose proof (mod_mod_32 k v Hk) as Hm. pose proof (Z.div_mod (v mod 2 ^ 32) (2 ^ k)).
  assert (v mod 2 ^ 32 / 2 ^ k < 2 ^ (32 - k)) by (apply Z.div_lt_upper_bound; lia).
  nia.
Qed.

(** The same for the 32-bit walks, which mask the address first. *)
Ltac walk_shift_32 k v i H :=
  injection H as <-; cbn [w_size w_addr wlk_done wlk_and wlk_rights wlk_clear]; intros Hb';
  change (v mod 2 ^ k + i < 2 ^ k) in Hb';
  let Hl := fresh in
  destruct (land_32_shift k v i) as (-> & Hl & ?);
    [unfold PG_4K_SHIFT, PG_2M_SHIFT, PG_4M_SHIFT; lia|assumption..|];
  rewrite <- Hl in Hb'; clear Hl;
  rewrite ?(pdp_pae_idx_stable k), ?(pd64_idx_stable k), ?(pt64_idx_stable k), ?(pd32_idx_stable k),
    ?(pt32_idx_stable k)
    by (done || (unfold PG_1G_SHIFT, PG_4M_SHIFT, PG_2M_SHIFT, PG_4K_SHIFT; lia));
  repeat match goal with
  | Hc : ?b = _ |- context [if ?b then _ else _] => rewrite Hc
  end; unfold wlk_shift, wlk_done, wlk_and, wlk_rights, wlk_clear;
  cbn [w_addr w_size w_entry w_u w_r w_w w_x w_type];
  do 2 f_equal.

Lemma pae_shift c rd64 cr3 v w0 w i : pg_walk_pmode_pae c rd64 cr3 v w0 = (VM_DONE, w) ->
  0 <= v -> 0 <= i -> v mod w_size w + i < w_size w ->
  pg_walk_pmode_pae c rd64 cr3 (v + i) w0 = (VM_DONE, wlk_shift i w).
Proof.
  unfold pg_walk_pmode_pae. intros H Hv Hi. walk_cases H.
  - walk_shift_32 PG_2M_SHIFT v i H. shift_leaf (shift_frame PG_2M_SHIFT 31) fits_2M.
  - walk_shift_32 PG_4K_SHIFT v i H. shift_leaf (shift_frame PG_4K_SHIFT 40) fits_4K.
Qed.

Lemma pmode_shift c rd64 cr3 v w0 w i : pg_walk_pmode c rd64 cr3 v w0 = (VM_DONE, w) ->
  0 <= v -> 0 <= i -> v mod w_size w + i < w_size w ->
  pg_walk_pmode c rd64 cr3 (v + i) w0 = (VM_DONE, wlk_shift i w).
Proof.
  unfold pg_walk_pmode. intros H Hv Hi. walk_cases H.
  - walk_shift_32 PG_4M_SHIFT v i H. shift_leaf (shift_32 PG_4M_SHIFT 10) fits_4M.
  - walk_shift_32 PG_4K_SHIFT v i H. shift_leaf (shift_32 PG_4K_SHIFT 20) fits_4K32.
Qed.

Lemma pg_walk_shift c rd64 cr3 v w0 w i : pg_walk c rd64 cr3 v w0 = (VM_DONE, w) ->
  0 <= v -> 0 <= i -> v mod w_size w + i < w_size w ->
  pg_walk c rd64 cr3 (v + i) w0 = (VM_DONE, wlk_shift i w).
Proof.
  unfold pg_walk. destruct (efer_lma c); [apply lmode_shift|].
  destruct (cr4_pae c); [apply pae_shift|apply pmode_shift].
Qed.

(** A walk does not read the walk structure it fills, once it succeeds. *)
Lemma pg_walk_undef c rd64 cr3 v w0 w1 w : pg_walk c rd64 cr3 v w0 = (VM_DONE, w) ->
  pg_walk c rd64 cr3 v w1 = (VM_DONE, w).
Proof.
  unfold pg_walk, pg_walk_lmode, pg_walk_pmode_pae, pg_walk_pmode. intros H.
  destruct (efer_lma c); [|destruct (cr4_pae c)]; walk_cases H; injection H as <-;
    repeat match goal with Hc : ?b = _ |- context [if ?b then _ else _] => rewrite Hc end; done.
Qed.

Lemma pg_walk_code c rd64 cr3 v w0 : let rc := (pg_walk c rd64 cr3 v w0).1 in
  rc = VM_FAIL \/ rc = VM_FAULT \/ rc = VM_DONE.
Proof.
  unfold pg_walk, pg_walk_lmode, pg_walk_pmode_pae, pg_walk_pmode. cbv zeta.
  repeat match goal with |- context [if ?b then _ else _] => destruct b end; simpl; auto.
Qed.

(** ** Properties *)

(** A nested walk that succeeds keeps the offset of the address in the page it
    found, and the entry it stopped at is present, names the frame of the
    translation and, for a large page, has its size bit. *)
Theorem npg_walk_translates (NO : NpgOps) pg_2M pg_1G rd64 pml4 v w0 w :
  npg_walk pg_2M pg_1G rd64 pml4 v w0 = (VM_DONE, w) ->
  let e := rd64 (w_entry w) in
  w_addr w mod w_size w = v mod w_size w /\
  npg_present e = true /\
  ((w_type w = PG_WALK_TYPE_PDPE /\ pg_1G = true /\ npg_large e = true /\
    w_size w = PG_1G_SIZE /\ w_addr w / w_size w = pdpe_page_addr e) \/
   (w_type w = PG_WALK_TYPE_PDE64 /\ pg_2M = true /\ npg_large e = true /\
    w_size w = PG_2M_SIZE /\ w_addr w / w_size w = pde_page_addr e) \/
   (w_type w = PG_WALK_TYPE_PTE64 /\ w_size w = PG_4K_SIZE /\ w_addr w / w_size w = e_addr e)).
Proof.
  unfold npg_walk. intros H. walk_cases H.
  all: repeat match goal with Hb : negb _ = false |- _ => apply negb_false_iff in Hb
       | Hb : _ && _ = true |- _ => apply andb_true_iff in Hb as [? ?] end.
  all: injection H as <-; cbv zeta; cbn [w_entry w_type w_addr w_size wlk_done wlk_and wlk_rights].
  - split_and!; [apply join_1G|done|]. left. split_and!; [done..|apply join_1G].
  - split_and!; [apply join_2M|done|]. right; left. split_and!; [done..|apply join_2M].
  - split_and!; [apply join_4K|done|]. right; right. split_and!; [done..|apply join_4K].
Qed.

(** C27: In long mode and in non-PAE protected mode a guest page walk depends on no
    byte of the vmm's memory: whatever that memory holds, the result, the
    entry reported and the rights are the same. *)
Theorem pg_walk_confined c m m' cr3 v w :
  area_ok (area c) -> agree_outside (area c) m m' ->
  efer_lma c = true \/ cr4_pae c = false ->
  pg_walk c m cr3 v w = pg_walk c m' cr3 v w.
Proof.
  intros Har Hag Hmode. unfold pg_walk. destruct (efer_lma c); [by apply lmode_confined|].
  destruct (cr4_pae c); [by destruct Hmode|by apply pmode_confined].
Qed.

(** A guest in PAE mode escapes the check: a page directory pointer table in
    the last page of the vmm area, off its start, is read although it is
    inside the area. *)
Theorem pae_walk_reads_vmm : exists c m m' cr3 v w,
  area_ok (area c) /\ agree_outside (area c) m m' /\
  (pg_walk c m cr3 v w).1 <> (pg_walk c m' cr3 v w).1.
Proof.
  set (ar := mk_area 0x1000000 0x1002000).
  exists (mk_mmu_cfg false false true true false ar).
  exists (rd0 (<[0x1001020 := 0x2001]> (<[0x2000 := 0x83]> ∅))), (rd0 (<[0x2000 := 0x83]> ∅)).
  exists 0x1001020, 0, (mk_wlk 0 0 0 false false false false PG_WALK_TYPE_PML4E).
  split_and!; [split; simpl| |vm_compute; discriminate].
  - by exists 0x1000.
  - by exists 0x1002.
  - intros p _ Hp. rewrite rd0_insert. case_decide; [subst|done]. vm_compute in Hp. discriminate.
Qed.

Definition ex_area : area_t := mk_area 0x1000000 0x1002000.
Definition ex_mmu_cfg : mmu_cfg := mk_mmu_cfg true false true true false ex_area.

Lemma ex_area_ok : area_ok ex_area.
Proof. split; [by exists 0x1000|by exists 0x1002]. Qed.

(** The root table inside the area: both memories give the same refusal. *)
Lemma pg_walk_confined_witness :
  pg_walk ex_mmu_cfg (rd0 (<[0x1000000 := 1]> ∅)) 0x1000000 0 (mk_wlk 0 0 0 false false false false PG_WALK_TYPE_PML4E) =
  pg_walk ex_mmu_cfg (rd0 ∅) 0x1000000 0 (mk_wlk 0 0 0 false false false false PG_WALK_TYPE_PML4E).
Proof.
  apply pg_walk_confined; [exact ex_area_ok| |by left].
  intros p _ Hp. rewrite rd0_insert. case_decide; [subst|done]. vm_compute in Hp. discriminate.
Defined.

Definition ex_npt : gmap Z Z :=
  <[0x50000 := 0x100007]> (<[0x100000 := 0x101007]> (<[0x101000 := 0x102007]>
    (<[0x102008 := 0x1007]> ∅))).

Lemma npg_walk_translates_witness :
  let w := (npg_walk (NO:=svm_npg true) true true (rd0 ex_npt) 0x50000 0x1234
              (mk_wlk 0 0 0 false false false false PG_WALK_TYPE_PML4E)).2 in
  w_addr w = 0x1234 /\ w_addr w mod w_size w = 0x1234 mod w_size w.
Proof.
  intros w. split; [vm_compute; reflexivity|].
  apply (npg_walk_translates (svm_npg true) true true (rd0 ex_npt) 0x50000 0x1234
    (mk_wlk 0 0 0 false false false false PG_WALK_TYPE_PML4E) w). vm_compute. reflexivity.
Defined.
