(* ===== verification/Vmcs.v ===== *)
(** * The vmcs cache (include/vmx_vmcs_acc.h, vmm/src/vmx/vmx_vmcs_acc.c)

    The state of the vm is in the vmcs of the processor, which only [vmread]
    and [vmwrite] reach.  The vmm works on copies of its fields: a field is
    read from the processor at its first use, changed in the copy, and written
    back before the vm is resumed.  Three reserved bits of a field's encoding
    record whether the copy is valid, whether it was changed, and whether the
    field is a fake one, a register of the processor the vmcs does not hold. *)

From S2P Require Import Prelude.
From S2P Require Import Monad.

(** ** Fields (include/vmx_vmcs.h, include/vmx_vmcs_enc.h)

    A field is named by its encoding; [CR2] and [DR6] are the fake ones. *)

Inductive field := Fld (enc : Z) | CR2 | DR6.

#[export] Instance field_eq_dec : EqDecision field.
Proof. solve_decision. Defined.

Definition exec_vpid : field := Fld 0.
Definition st_es_selector : field := Fld 0x800.
Definition st_cs_selector : field := Fld 0x802.
Definition st_ss_selector : field := Fld 0x804.
Definition st_ds_selector : field := Fld 0x806.
Definition st_fs_selector : field := Fld 0x808.
Definition st_gs_selector : field := Fld 0x80a.
Definition st_ldtr_selector : field := Fld 0x80c.
Definition st_tr_selector : field := Fld 0x80e.
Definition exec_io_bitmap_a : field := Fld 0x2000.
Definition exec_io_bitmap_b : field := Fld 0x2002.
Definition exec_msr_bitmap : field := Fld 0x2004.
Definition exit_msr_store_addr : field := Fld 0x2006.
Definition exit_msr_load_addr : field := Fld 0x2008.
Definition entry_msr_load_addr : field := Fld 0x200a.
Definition exec_executive_vmcs_ptr : field := Fld 0x200c.
Definition exec_tsc_offset : field := Fld 0x2010.
Definition exec_vapic_addr : field := Fld 0x2012.
Definition exec_apic_addr : field := Fld 0x2014.
Definition exec_eptp : field := Fld 0x201a.
Definition info_guest_physical : field := Fld 0x2400.
Definition st_vmcs_link_ptr : field := Fld 0x2800.
Definition st_ia32_dbgctl : field := Fld 0x2802.
Definition st_ia32_pat : field := Fld 0x2804.
Definition st_ia32_efer : field := Fld 0x2806.
Definition st_ia32_perf : field := Fld 0x2808.
Definition st_pdpe_0 : field := Fld 0x280a.
Definition st_pdpe_1 : field := Fld 0x280c.
Definition st_pdpe_2 : field := Fld 0x280e.
Definition st_pdpe_3 : field := Fld 0x2810.
Definition exec_pin : field := Fld 0x4000.
Definition exec_proc : field := Fld 0x4002.
Definition exec_excp_bitmap : field := Fld 0x4004.
Definition exec_pagefault_err_code_mask : field := Fld 0x4006.
Definition exec_pagefault_err_code_match : field := Fld 0x4008.
Definition exec_cr3_target_count : field := Fld 0x400a.
Definition exit_exit : field := Fld 0x400c.
Definition exit_msr_store_count : field := Fld 0x400e.
Definition exit_msr_load_count : field := Fld 0x4010.
Definition entry_entry : field := Fld 0x4012.
Definition entry_msr_load_count : field := Fld 0x4014.
Definition entry_int_info : field := Fld 0x4016.
Definition entry_err_code : field := Fld 0x4018.
Definition entry_insn_len : field := Fld 0x401a.
Definition exec_tpr_threshold : field := Fld 0x401c.
Definition exec_proc2 : field := Fld 0x401e.
Definition info_vmx_insn_err : field := Fld 0x4400.
Definition info_reason : field := Fld 0x4402.
Definition info_int_info : field := Fld 0x4404.
Definition info_int_err_code : field := Fld 0x4406.
Definition info_idt_info : field := Fld 0x4408.
Definition info_idt_err_code : field := Fld 0x440a.
Definition info_insn_len : field := Fld 0x440c.
Definition info_insn_info : field := Fld 0x440e.
Definition st_es_limit : field := Fld 0x4800.
Definition st_cs_limit : field := Fld 0x4802.
Definition st_ss_limit : field := Fld 0x4804.
Definition st_ds_limit : field := Fld 0x4806.
Definition st_fs_limit : field := Fld 0x4808.
Definition st_gs_limit : field := Fld 0x480a.
Definition st_ldtr_limit : field := Fld 0x480c.
Definition st_tr_limit : field := Fld 0x480e.
Definition st_gdtr_limit : field := Fld 0x4810.
Definition st_idtr_limit : field := Fld 0x4812.
Definition st_es_attributes : field := Fld 0x4814.
Definition st_cs_attributes : field := Fld 0x4816.
Definition st_ss_attributes : field := Fld 0x4818.
Definition st_ds_attributes : field := Fld 0x481a.
Definition st_fs_attributes : field := Fld 0x481c.
Definition st_gs_attributes : field := Fld 0x481e.
Definition st_ldtr_attributes : field := Fld 0x4820.
Definition st_tr_attributes : field := Fld 0x4822.
Definition st_interrupt : field := Fld 0x4824.
Definition st_activity : field := Fld 0x4826.
Definition st_smbase : field := Fld 0x4828.
Definition st_ia32_sysenter_cs : field := Fld 0x482a.
Definition st_preempt_timer : field := Fld 0x482e.
Definition exec_cr0_mask : field := Fld 0x6000.
Definition exec_cr4_mask : field := Fld 0x6002.
Definition exec_cr0_read_shadow : field := Fld 0x6004.
Definition exec_cr4_read_shadow : field := Fld 0x6006.
Definition exec_cr3_target_0 : field := Fld 0x6008.
Definition exec_cr3_target_1 : field := Fld 0x600a.
Definition exec_cr3_target_2 : field := Fld 0x600c.
Definition exec_cr3_target_3 : field := Fld 0x600e.
Definition info_qualification : field := Fld 0x6400.
Definition info_io_rcx : field := Fld 0x6402.
Definition info_io_rsi : field := Fld 0x6404.
Definition info_io_rdi : field := Fld 0x6406.
Definition info_io_rip : field := Fld 0x6408.
Definition info_guest_linear : field := Fld 0x640a.
Definition st_cr0 : field := Fld 0x6800.
Definition st_cr3 : field := Fld 0x6802.
Definition st_cr4 : field := Fld 0x6804.
Definition st_es_base : field := Fld 0x6806.
Definition st_cs_base : field := Fld 0x6808.
Definition st_ss_base : field := Fld 0x680a.
Definition st_ds_base : field := Fld 0x680c.
Definition st_fs_base : field := Fld 0x680e.
Definition st_gs_base : field := Fld 0x6810.
Definition st_tr_base : field := Fld 0x6814.
Definition st_ldtr_base : field := Fld 0x6812.
Definition st_gdtr_base : field := Fld 0x6816.
Definition st_idtr_base : field := Fld 0x6818.
Definition st_dr7 : field := Fld 0x681a.
Definition st_rsp : field := Fld 0x681c.
Definition st_rip : field := Fld 0x681e.
Definition st_rflags : field := Fld 0x6820.
Definition st_dbg_excp : field := Fld 0x6822.
Definition st_ia32_sysenter_esp : field := Fld 0x6824.
Definition st_ia32_sysenter_eip : field := Fld 0x6826.
Definition st_cr2 : field := CR2.
Definition st_dr6 : field := DR6.

(** [vmx_vmcs_encode]: the initial [_enc] of each field. *)
Definition FAKE_BIT : Z := 17.
Definition encode (f : field) : Z :=
  match f with Fld e => e | CR2 | DR6 => 2 ^ FAKE_BIT end.

(** [vmcs_field_enc_t] *)
Definition enc_fwidth (e : Z) : Z := bits e 13 2.
Definition enc_read (e : Z) : bool := bit e 15.
Definition enc_dirty (e : Z) : bool := bit e 16.
Definition enc_fake (e : Z) : bool := bit e FAKE_BIT.
Definition set_enc_read (b : bool) (e : Z) : Z := set_bits e 15 1 (Z.b2z b).
Definition set_enc_dirty (b : bool) (e : Z) : Z := set_bits e 16 1 (Z.b2z b).

Definition VMCS_FIELD_ENC_FIELD_WIDTH_16 : Z := 0.
Definition VMCS_FIELD_ENC_FIELD_WIDTH_32 : Z := 2.

(** Bits of a field, and of the fake ones. *)
Definition enc_width (e : Z) : Z :=
  if enc_fwidth e =? VMCS_FIELD_ENC_FIELD_WIDTH_16 then 16
  else if enc_fwidth e =? VMCS_FIELD_ENC_FIELD_WIDTH_32 then 32 else 64.
Definition width (f : field) : Z :=
  match f with Fld e => enc_width e | CR2 | DR6 => 64 end.

(** ** State

    The copies and their [_enc], and the processor: its vmcs by encoding, its
    cr2 and its dr6. *)

Record vmcs := mk_vmcs {
  val : field -> Z;
  enc : field -> Z;
  hw : field -> Z;
}.

Definition upd (m : field -> Z) (f : field) (v : Z) : field -> Z :=
  fun g => if decide (f = g) then v else m g.

Definition set_val f v s := mk_vmcs (upd (val s) f v) (enc s) (hw s).
Definition set_enc f e s := mk_vmcs (val s) (upd (enc s) f e) (hw s).
Definition set_hw f v s := mk_vmcs (val s) (enc s) (upd (hw s) f v).

(** [vmx_fixed] pairs: bits fixed to one, bits allowed to be one. *)
Record fixed := mk_fixed { allow_0 : Z; allow_1 : Z }.
Definition vmx_set_fixed (v : Z) (fx : fixed) : Z := Z.lor (Z.land v (allow_1 fx)) (allow_0 fx).

(** The capabilities found at boot, and the options of the build. *)
Record vmcs_cfg := mk_vmcs_cfg {
  vmx_fx_entry : fixed; vmx_fx_exit : fixed;
  vmx_fx_pin : fixed; vmx_fx_proc : fixed; vmx_fx_proc2 : fixed;
  vmx_fx_cr0 : fixed; vmx_fx_cr4 : fixed;
  feat_exec_ptr : bool; feat_smbase : bool;
}.

(** ** Access *)

Section sync.
(** The encodings the processor implements: [vmread] and [vmwrite] fail on the
    others. *)
Variable supported : Z -> bool.
Variable c : vmcs_cfg.

Definition vmx_vmread (e : Z) : M vmcs Z := fun s =>
  if supported e then Some (hw s (Fld e), s) else None.
Definition vmx_vmwrite (v e : Z) : M vmcs unit := fun s =>
  if supported e then Some (tt, set_hw (Fld e) (wrap (enc_width e) v) s) else None.

Definition vmcs_force_read (f : field) : M vmcs unit :=
  e ← gets (fun s => enc s f);
  v ← gets (fun s => val s f);
  if negb (enc_fake e) then
    tmp ← vmx_vmread e;
    modify (set_val f
      (if enc_fwidth e =? VMCS_FIELD_ENC_FIELD_WIDTH_16 then set_bits v 0 16 tmp
       else if enc_fwidth e =? VMCS_FIELD_ENC_FIELD_WIDTH_32 then set_bits v 0 32 tmp
       else tmp))
  else if decide (f = CR2) then modify (fun s => set_val CR2 (hw s CR2) s)
  else if decide (f = DR6) then modify (fun s => set_val DR6 (hw s DR6) s)
  else mret tt.

Definition vmcs_force_flush (f : field) : M vmcs unit :=
  e ← gets (fun s => enc s f);
  v ← gets (fun s => val s f);
  if negb (enc_fake e) then vmx_vmwrite v e
  else if decide (f = CR2) then modify (set_hw CR2 v)
  else if decide (f = DR6) then modify (set_hw DR6 v)
  else mret tt.

Definition put_read (f : field) (b : bool) : M vmcs unit :=
  modify (fun s => set_enc f (set_enc_read b (enc s f)) s).
Definition put_dirty (f : field) (b : bool) : M vmcs unit :=
  modify (fun s => set_enc f (set_enc_dirty b (enc s f)) s).

Definition vmcs_is_dirty (f : field) : M vmcs bool := gets (fun s => enc_dirty (enc s f)).
Definition vmcs_set_read (f : field) : M vmcs unit := put_read f true.
Definition vmcs_clear (f : field) : M vmcs unit := put_dirty f false.

Definition vmcs_dirty (f : field) : M vmcs unit :=
  d ← vmcs_is_dirty f;
  when (negb d) (put_read f true ;; put_dirty f true).

Definition vmcs_read (f : field) : M vmcs unit :=
  r ← gets (fun s => enc_read (enc s f));
  when (negb r) (vmcs_force_read f ;; put_read f true).

Definition vmcs_flush (f : field) : M vmcs unit :=
  put_read f false ;;
  d ← vmcs_is_dirty f;
  when d (put_dirty f false ;; vmcs_force_flush f).

Definition vmcs_flush_fixed (f : field) (fx : fixed) : M vmcs unit :=
  put_read f false ;;
  d ← vmcs_is_dirty f;
  when d
    (put_dirty f false ;;
     modify (fun s => set_val f (vmx_set_fixed (val s f) fx) s) ;;
     vmcs_force_flush f).

Definition vmcs_cond (will_wr : bool) (f : field) : M vmcs unit :=
  vmcs_read f ;; when will_wr (put_dirty f true).

(** ** Commit *)

Definition vmx_vmcs_commit : M vmcs unit :=
  for_each [exec_vpid; st_es_selector; st_cs_selector; st_ss_selector; st_ds_selector;
      st_fs_selector; st_gs_selector; st_ldtr_selector; st_tr_selector; exec_io_bitmap_a;
      exec_io_bitmap_b; exec_msr_bitmap; exit_msr_store_addr; exit_msr_load_addr;
      entry_msr_load_addr] vmcs_flush ;;
  when (feat_exec_ptr c) (vmcs_flush exec_executive_vmcs_ptr) ;;
  vmcs_flush exec_tsc_offset ;;
  when (bit (allow_1 (vmx_fx_proc c)) 21) (vmcs_flush exec_vapic_addr) ;;
  when (bit (allow_1 (vmx_fx_proc2 c)) 0) (vmcs_flush exec_apic_addr) ;;
  for_each [exec_eptp; info_guest_physical; st_vmcs_link_ptr; st_ia32_dbgctl] vmcs_flush ;;
  vmcs_flush_fixed entry_entry (vmx_fx_entry c) ;;
  v ← gets (fun s => val s entry_entry); when (bit v 14) (vmcs_flush st_ia32_pat) ;;
  v ← gets (fun s => val s entry_entry); when (bit v 15) (vmcs_flush st_ia32_efer) ;;
  v ← gets (fun s => val s entry_entry); when (bit v 13) (vmcs_flush st_ia32_perf) ;;
  for_each [st_pdpe_0; st_pdpe_1; st_pdpe_2; st_pdpe_3] vmcs_flush ;;
  vmcs_flush_fixed exec_pin (vmx_fx_pin c) ;;
  vmcs_flush_fixed exec_proc (vmx_fx_proc c) ;;
  for_each [exec_excp_bitmap; exec_pagefault_err_code_mask; exec_pagefault_err_code_match;
      exec_cr3_target_count] vmcs_flush ;;
  vmcs_flush_fixed exit_exit (vmx_fx_exit c) ;;
  for_each [exit_msr_store_count; exit_msr_load_count; entry_msr_load_count; entry_int_info;
      entry_err_code; entry_insn_len; exec_tpr_threshold] vmcs_flush ;;
  vmcs_flush_fixed exec_proc2 (vmx_fx_proc2 c) ;;
  for_each [info_vmx_insn_err; info_reason; info_int_info; info_int_err_code; info_idt_info;
      info_idt_err_code; info_insn_len; info_insn_info; st_es_limit; st_cs_limit; st_ss_limit;
      st_ds_limit; st_fs_limit; st_gs_limit; st_ldtr_limit; st_tr_limit; st_gdtr_limit;
      st_idtr_limit; st_es_attributes; st_cs_attributes; st_ss_attributes; st_ds_attributes;
      st_fs_attributes; st_gs_attributes; st_ldtr_attributes; st_tr_attributes; st_interrupt;
      st_activity] vmcs_flush ;;
  when (feat_smbase c) (vmcs_flush st_smbase) ;;
  vmcs_flush st_ia32_sysenter_cs ;;
  when (bit (allow_1 (vmx_fx_pin c)) 6) (vmcs_flush st_preempt_timer) ;;
  for_each [exec_cr0_mask; exec_cr4_mask; exec_cr0_read_shadow; exec_cr4_read_shadow;
      exec_cr3_target_0; exec_cr3_target_1; exec_cr3_target_2; exec_cr3_target_3;
      info_qualification; info_io_rcx; info_io_rsi; info_io_rdi; info_io_rip;
      info_guest_linear; st_cr3] vmcs_flush ;;
  vmcs_flush_fixed st_cr0 (vmx_fx_cr0 c) ;;
  vmcs_flush_fixed st_cr4 (vmx_fx_cr4 c) ;;
  for_each [st_es_base; st_cs_base; st_ss_base; st_ds_base; st_fs_base; st_gs_base;
      st_tr_base; st_ldtr_base; st_gdtr_base; st_idtr_base; st_dr7; st_rsp; st_rip; st_rflags;
      st_dbg_excp; st_ia32_sysenter_esp; st_ia32_sysenter_eip; st_cr2; st_dr6] vmcs_flush.
End sync.

(** The fields [vmx_vmcs_encode] names, and which of them the commit writes
    back: some only on the processors, builds or entries that use them; [e] is
    the copy of the entry controls. *)
Definition flushed (c : vmcs_cfg) (e : Z) (f : field) : bool :=
  if decide (f = exec_executive_vmcs_ptr) then feat_exec_ptr c else
  if decide (f = exec_vapic_addr) then bit (allow_1 (vmx_fx_proc c)) 21 else
  if decide (f = exec_apic_addr) then bit (allow_1 (vmx_fx_proc2 c)) 0 else
  if decide (f = st_ia32_pat) then bit e 14 else
  if decide (f = st_ia32_efer) then bit e 15 else
  if decide (f = st_ia32_perf) then bit e 13 else
  if decide (f = st_smbase) then feat_smbase c else
  if decide (f = st_preempt_timer) then bit (allow_1 (vmx_fx_pin c)) 6 else
  true.
Definition vmcs_fields : list field :=
  [exec_vpid; st_es_selector; st_cs_selector; st_ss_selector; st_ds_selector; st_fs_selector;
   st_gs_selector; st_ldtr_selector; st_tr_selector; exec_io_bitmap_a; exec_io_bitmap_b;
   exec_msr_bitmap; exit_msr_store_addr; exit_msr_load_addr; entry_msr_load_addr;
   exec_executive_vmcs_ptr; exec_tsc_offset; exec_vapic_addr; exec_apic_addr; exec_eptp;
   info_guest_physical; st_vmcs_link_ptr; st_ia32_dbgctl; st_ia32_pat; st_ia32_efer;
   st_ia32_perf; st_pdpe_0; st_pdpe_1; st_pdpe_2; st_pdpe_3; exec_pin; exec_proc;
   exec_excp_bitmap; exec_pagefault_err_code_mask; exec_pagefault_err_code_match;
   exec_cr3_target_count; exit_exit; exit_msr_store_count; exit_msr_load_count; entry_entry;
   entry_msr_load_count; entry_int_info; entry_err_code; entry_insn_len; exec_tpr_threshold;
   exec_proc2; info_vmx_insn_err; info_reason; info_int_info; info_int_err_code; info_idt_info;
   info_idt_err_code; info_insn_len; info_insn_info; st_es_limit; st_cs_limit; st_ss_limit;
   st_ds_limit; st_fs_limit; st_gs_limit; st_ldtr_limit; st_tr_limit; st_gdtr_limit;
   st_idtr_limit; st_es_attributes; st_cs_attributes; st_ss_attributes; st_ds_attributes;
   st_fs_attributes; st_gs_attributes; st_ldtr_attributes; st_tr_attributes; st_interrupt;
   st_activity; st_smbase; st_ia32_sysenter_cs; st_preempt_timer; exec_cr0_mask; exec_cr4_mask;
   exec_cr0_read_shadow; exec_cr4_read_shadow; exec_cr3_target_0; exec_cr3_target_1;
   exec_cr3_target_2; exec_cr3_target_3; info_qualification; info_io_rcx; info_io_rsi;
   info_io_rdi; info_io_rip; info_guest_linear; st_cr0; st_cr3; st_cr4; st_es_base; st_cs_base;
   st_ss_base; st_ds_base; st_fs_base; st_gs_base; st_tr_base; st_ldtr_base; st_gdtr_base;
   st_idtr_base; st_dr7; st_rsp; st_rip; st_rflags; st_dbg_excp; st_ia32_sysenter_esp;
   st_ia32_sysenter_eip; st_cr2; st_dr6].

(** ** What a field is worth *)

Definition rd (s : vmcs) (f : field) : bool := enc_read (enc s f).
Definition dt (s : vmcs) (f : field) : bool := enc_dirty (enc s f).

(** The value of a field for the vmm: its copy once it was read. *)
Definition view (s : vmcs) (f : field) : Z := if rd s f then val s f else hw s f.

(** [_enc] with the two synchronisation bits. *)
Definition mk_enc (f : field) (r d : bool) : Z := set_enc_dirty d (set_enc_read r (encode f)).

(** A field the processor implements, under an encoding whose reserved bits
    are clear. *)
Definition ok_field (supported : Z -> bool) (f : field) : Prop :=
  match f with Fld e => fits 15 e /\ supported e = true | _ => True end.

Section mk_enc.
Variable supported : Z -> bool.
Variable f : field.
Hypothesis Hf : ok_field supported f.

Lemma encode_bit i : 15 <= i -> i <> FAKE_BIT -> Z.testbit (encode f) i = false.
Proof.
  intros Hi Hn. destruct f as [e| |]; simpl in *; [apply (fits_testbit 15); [apply Hf|done]| |];
    apply Z.pow2_bits_false; unfold FAKE_BIT in *; lia.
Qed.

Lemma mk_enc_clean : mk_enc f false false = encode f.
Proof.
  unfold mk_enc, set_enc_dirty, set_enc_read. apply Z.bits_inj'. intros i Hi.
  autorewrite with zbit. repeat zbit_split; simpl; try done;
  rewrite encode_bit; unfold FAKE_BIT; done || lia.
Qed.

Lemma mk_enc_read r d : enc_read (mk_enc f r d) = r.
Proof.
  unfold mk_enc, enc_read, set_enc_dirty, set_enc_read, bit. autorewrite with zbit.
  by destruct r, d.
Qed.
Lemma mk_enc_dirty r d : enc_dirty (mk_enc f r d) = d.
Proof.
  unfold mk_enc, enc_dirty, set_enc_dirty, set_enc_read, bit. autorewrite with zbit.
  by destruct r, d.
Qed.
Lemma mk_enc_set_read r d b : set_enc_read b (mk_enc f r d) = mk_enc f b d.
Proof.
  unfold mk_enc, set_enc_dirty, set_enc_read. apply Z.bits_inj'. intros i Hi.
  autorewrite with zbit. repeat zbit_split; simpl; done || lia.
Qed.
Lemma mk_enc_set_dirty r d b : set_enc_dirty b (mk_enc f r d) = mk_enc f r b.
Proof. unfold mk_enc, set_enc_dirty. apply set_bits_twice; lia. Qed.
Lemma mk_enc_fake r d : enc_fake (mk_enc f r d) = enc_fake (encode f).
Proof.
  unfold mk_enc, enc_fake, set_enc_dirty, set_enc_read, bit, FAKE_BIT. autorewrite with zbit. done.
Qed.
Lemma mk_enc_fwidth r d : enc_fwidth (mk_enc f r d) = enc_fwidth (encode f).
Proof.
  unfold mk_enc, enc_fwidth, set_enc_dirty, set_enc_read. rewrite !bits_set_other by lia. done.
Qed.
End mk_enc.

(** ** One field at a time

    [at_ s f r d v h]: the synchronisation bits of [f], its copy and its value
    in the processor; [frame f s s'] says the other fields are the same. *)

Record at_ (s : vmcs) (f : field) (r d : bool) (v h : Z) : Prop := mk_at {
  at_enc : enc s f = mk_enc f r d;
  at_val : val s f = v;
  at_hw : hw s f = h;
}.

Record same_at (s s' : vmcs) (f : field) : Prop := mk_same {
  sa_enc : enc s' f = enc s f;
  sa_val : val s' f = val s f;
  sa_hw : hw s' f = hw s f;
}.
Definition frame (f : field) (s s' : vmcs) : Prop := forall g, g <> f -> same_at s s' g.

Lemma frame_refl f s : frame f s s.
Proof. by intros g _. Qed.
Lemma frame_trans f s1 s2 s3 : frame f s1 s2 -> frame f s2 s3 -> frame f s1 s3.
Proof.
  intros H1 H2 g Hg. destruct (H1 g Hg) as [A1 A2 A3], (H2 g Hg) as [B1 B2 B3].
  split; congruence.
Qed.

Lemma upd_eq m f v : upd m f v f = v.
Proof. unfold upd. by rewrite decide_True. Qed.
Lemma upd_ne m f v g : g <> f -> upd m f v g = m g.
Proof. intros. unfold upd. by rewrite decide_False. Qed.

Lemma set_bits_whole w v h : 0 <= w -> fits w v -> fits w h -> set_bits v 0 w h = h.
Proof.
  intros Hw Hv Hh. pose proof (set_bits_low 0 v w h Hw Hv) as H. rewrite Z.mul_0_l, !Z.add_0_l in H.
  rewrite H. by apply wrap_id.
Qed.

Ltac at_upd :=
  split; [intros g Hg; split; simpl; rewrite ?upd_ne by done; done|];
  split; simpl; rewrite ?upd_eq; try done.

Lemma fake_fld e : fits 15 e -> enc_fake (encode (Fld e)) = false.
Proof. intros He. by apply (fits_testbit 15). Qed.

Lemma read_width e v h : fits (enc_width e) v -> fits (enc_width e) h ->
  (if enc_fwidth e =? VMCS_FIELD_ENC_FIELD_WIDTH_16 then set_bits v 0 16 h
   else if enc_fwidth e =? VMCS_FIELD_ENC_FIELD_WIDTH_32 then set_bits v 0 32 h else h) = h.
Proof.
  unfold enc_width. intros Fv Fh. destruct (_ =? _); [by apply set_bits_whole|].
  destruct (_ =? _); [by apply set_bits_whole|done].
Qed.

Section ops.
Variable supported : Z -> bool.

Lemma force_read_at f s d v h : ok_field supported f -> at_ s f false d v h -> d = false ->
  fits (width f) v -> fits (width f) h ->
  wp (vmcs_force_read supported f) s (fun _ s' => frame f s s' /\ at_ s' f false d h h).
Proof.
  intros Hf [He Hv Hh] -> Fv Fh. unfold vmcs_force_read. wp_steps.
  rewrite He, mk_enc_fake, Hv, (mk_enc_clean supported) by done. destruct f as [e| |].
  - destruct Hf as [Hw Hs]. rewrite fake_fld by done. cbn [negb]. wp_step. unfold vmx_vmread, wp.
    cbn [encode]. rewrite Hs, Hh. unfold modify. rewrite read_width by done. at_upd.
  - change (enc_fake (encode CR2)) with true. cbn [negb]. rewrite decide_True by done. wp_step.
    at_upd.
  - change (enc_fake (encode DR6)) with true. cbn [negb]. rewrite decide_False by done.
    rewrite decide_True by done. wp_step. at_upd.
Qed.

Lemma force_flush_at f s v h : ok_field supported f -> at_ s f false false v h ->
  wp (vmcs_force_flush supported f) s (fun _ s' => frame f s s' /\
    at_ s' f false false v (match f with Fld _ => wrap (width f) v | _ => v end)).
Proof.
  intros Hf [He Hv Hh]. unfold vmcs_force_flush. wp_steps.
  rewrite He, mk_enc_fake, Hv, (mk_enc_clean supported) by done. destruct f as [e| |].
  - destruct Hf as [Hw Hs]. rewrite fake_fld by done. cbn [negb]. unfold vmx_vmwrite, wp.
    cbn [encode]. rewrite Hs. at_upd.
  - change (enc_fake (encode CR2)) with true. cbn [negb]. rewrite decide_True by done. wp_step.
    at_upd.
  - change (enc_fake (encode DR6)) with true. cbn [negb]. rewrite decide_False by done.
    rewrite decide_True by done. wp_step. at_upd.
Qed.

Lemma put_read_at f s b r d v h : at_ s f r d v h ->
  wp (put_read f b) s (fun _ s' => frame f s s' /\ at_ s' f b d v h).
Proof. intros [He Hv Hh]. unfold put_read. wp_step. at_upd. by rewrite He, mk_enc_set_read. Qed.

Lemma put_dirty_at f s b r d v h : at_ s f r d v h ->
  wp (put_dirty f b) s (fun _ s' => frame f s s' /\ at_ s' f r b v h).
Proof. intros [He Hv Hh]. unfold put_dirty. wp_step. at_upd. by rewrite He, mk_enc_set_dirty. Qed.

Lemma set_val_at f s r d v h w : at_ s f r d v h ->
  wp (modify (set_val f w)) s (fun _ s' => frame f s s' /\ at_ s' f r d w h).
Proof. intros [He Hv Hh]. wp_step. at_upd. Qed.
End ops.

(** Chains of operations on one field. *)
Lemma wp_at_bind {A} f s (m : M vmcs A) (k : A -> M vmcs unit) (P : A -> vmcs -> Prop) (Q : vmcs -> Prop) :
  wp m s (fun x s' => frame f s s' /\ P x s') ->
  (forall x s', P x s' -> wp (k x) s' (fun _ s'' => frame f s' s'' /\ Q s'')) ->
  wp (m ≫= k) s (fun _ s' => frame f s s' /\ Q s').
Proof.
  intros Hm Hk. apply wp_bind. eapply wp_mono; [exact Hm|]. intros x s' [Hf HP].
  eapply wp_mono; [by apply Hk|]. intros [] s'' [Hf' HQ]. split; [by eapply frame_trans|done].
Qed.

(** A field with a valid copy needs no read; the dirty bit implies the read
    bit; a copy that was not changed is what the processor holds. *)
Record loc_ok (f : field) (r d : bool) (v h : Z) : Prop := {
  lo_dirty : d = true -> r = true;
  lo_clean : r = true -> d = false -> v = h;
  lo_v : fits (width f) v;
  lo_h : fits (width f) h;
}.

Section macros.
Variable supported : Z -> bool.

Lemma vmcs_read_at f s r d v h : ok_field supported f -> at_ s f r d v h -> loc_ok f r d v h ->
  wp (vmcs_read supported f) s (fun _ s' => frame f s s' /\ at_ s' f true d (if r then v else h) h).
Proof.
  intros Hf Hat [Hd _ Fv Fh]. unfold vmcs_read. apply wp_bind, wp_gets. rewrite (at_enc _ _ _ _ _ _ Hat), mk_enc_read.
  apply wp_when. destruct r; cbn [negb]; [split; [apply frame_refl|done]|].
  destruct d; [by specialize (Hd eq_refl)|].
  eapply wp_at_bind; [by eapply force_read_at|]. cbn beta. intros [] s' Hat'. by eapply put_read_at.
Qed.

Lemma vmcs_dirty_at f s r d v h : at_ s f r d v h -> (d = true -> r = true) ->
  wp (vmcs_dirty f) s (fun _ s' => frame f s s' /\ at_ s' f true true v h).
Proof.
  intros Hat Hd. unfold vmcs_dirty. apply wp_bind, wp_gets. rewrite (at_enc _ _ _ _ _ _ Hat), mk_enc_dirty.
  apply wp_when. destruct d; cbn [negb]; [split; [apply frame_refl|by rewrite Hd in Hat]|].
  eapply wp_at_bind; [by eapply put_read_at|]. intros [] s' Hat'. by eapply put_dirty_at.
Qed.

(** The value written back: [fx] is applied to a changed copy. *)
Definition fix_val (fx : option fixed) (v : Z) : Z :=
  match fx with Some fx => vmx_set_fixed v fx | None => v end.
Definition flush1 (f : field) (fx : option fixed) : M vmcs unit :=
  match fx with Some fx => vmcs_flush_fixed supported f fx | None => vmcs_flush supported f end.
Definition hw_val (f : field) (v : Z) : Z := match f with Fld _ => wrap (width f) v | _ => v end.

Lemma flush1_at f fx s r d v h : ok_field supported f -> at_ s f r d v h ->
  wp (flush1 f fx) s (fun _ s' => frame f s s' /\
    at_ s' f false false (if d then fix_val fx v else v) (if d then hw_val f (fix_val fx v) else h)).
Proof.
  intros Hf Hat. destruct fx as [fx|]; cbn [flush1 fix_val]; unfold vmcs_flush_fixed, vmcs_flush;
  (eapply wp_at_bind; [by eapply put_read_at|]; cbn beta; intros [] s1 H1;
   apply wp_bind, wp_gets; rewrite (at_enc _ _ _ _ _ _ H1), mk_enc_dirty; apply wp_when;
   destruct d; [|split; [apply frame_refl|done]];
   eapply wp_at_bind; [by eapply put_dirty_at|]; cbn beta; intros [] s2 H2).
  - eapply wp_at_bind with (P := fun _ s' => at_ s' f false false (vmx_set_fixed v fx) h).
    + wp_step. rewrite (at_val _ _ _ _ _ _ H2). apply (set_val_at f s2 _ _ _ _ _ H2).
    + intros [] s3 H3. by apply (force_flush_at supported f s3 _ h).
  - by apply (force_flush_at supported f s2 _ h).
Qed.
End macros.

(** ** The cache refines direct access

    The operations of the handlers on a field: read it, change it after a
    read, overwrite it.  [direct_run] performs them on the fields themselves. *)

Inductive vop := Vread (f : field) | Vwrite (f : field) (g : Z -> Z) | Vset (f : field) (v : Z).
Definition vop_field (o : vop) : field := match o with Vread f | Vwrite f _ | Vset f _ => f end.
Definition vop_writes (o : vop) : bool := match o with Vread _ => false | _ => true end.

Definition direct_op (o : vop) (A : field -> Z) : Z * (field -> Z) :=
  match o with
  | Vread f => (A f, A)
  | Vwrite f g => (A f, upd A f (wrap (width f) (g (A f))))
  | Vset f v => (0, upd A f (wrap (width f) v))
  end.
Fixpoint direct_run (os : list vop) (A : field -> Z) : list Z * (field -> Z) :=
  match os with
  | [] => ([], A)
  | o :: os => let (v, A) := direct_op o A in let (vs, A) := direct_run os A in (v :: vs, A)
  end.

(** The fields a sequence of operations writes. *)
Definition vop_wr (f : field) (o : vop) : bool := vop_writes o && bool_decide (vop_field o = f).
Definition written (os : list vop) (f : field) : bool := existsb (vop_wr f) os.

Lemma direct_unwritten os f : forall A, written os f = false -> snd (direct_run os A) f = A f.
Proof.
  induction os as [|o os IH]; intros A Hw; [done|]. cbn [written existsb] in Hw.
  apply orb_false_iff in Hw as [Ho Hos]. cbn [direct_run].
  destruct (direct_op o A) as [v A1] eqn:E1. specialize (IH A1 Hos).
  destruct (direct_run os A1) as [vs A2] eqn:E2. cbn [snd] in *. rewrite IH.
  unfold vop_wr in Ho. destruct o as [g|g h|g w]; cbn [direct_op] in E1; simplify_eq; [done| |];
  simpl in Ho; apply bool_decide_eq_false_1 in Ho; by rewrite upd_ne by done.
Qed.

Section refine.
Variable supported : Z -> bool.

Definition cache_op (o : vop) : M vmcs Z :=
  match o with
  | Vread f => vmcs_read supported f ;; gets (fun s => val s f)
  | Vwrite f g =>
      vmcs_read supported f ;;
      v ← gets (fun s => val s f);
      modify (set_val f (wrap (width f) (g v))) ;;
      vmcs_dirty f ;;
      mret v
  | Vset f v => modify (set_val f (wrap (width f) v)) ;; vmcs_dirty f ;; mret 0
  end.
Fixpoint cache_run (os : list vop) : M vmcs (list Z) :=
  match os with
  | [] => mret []
  | o :: os => v ← cache_op o; vs ← cache_run os; mret (v :: vs)
  end.

(** The invariant of the cache. *)
Record field_ok (s : vmcs) (f : field) : Prop := {
  fo_at : at_ s f (rd s f) (dt s f) (val s f) (hw s f);
  fo_loc : loc_ok f (rd s f) (dt s f) (val s f) (hw s f);
}.
Definition cached (s : vmcs) : Prop := forall f, ok_field supported f -> field_ok s f.

Lemma at_flags s f r d v h : at_ s f r d v h -> rd s f = r /\ dt s f = d /\ val s f = v /\ hw s f = h.
Proof.
  intros [He Hv Hh]. unfold rd, dt. rewrite He, mk_enc_read, mk_enc_dirty. done.
Qed.
Lemma at_field_ok s f r d v h : at_ s f r d v h -> loc_ok f r d v h -> field_ok s f.
Proof. intros Hat Hl. destruct (at_flags _ _ _ _ _ _ Hat) as (<- & <- & <- & <-). by split. Qed.
Lemma at_view s f r d v h : at_ s f r d v h -> view s f = if r then v else h.
Proof. intros Hat. unfold view. by destruct (at_flags _ _ _ _ _ _ Hat) as (-> & _ & -> & ->). Qed.

Lemma same_flags s s' f : same_at s s' f -> rd s' f = rd s f /\ dt s' f = dt s f /\ view s' f = view s f.
Proof. intros [H1 H2 H3]. unfold view, rd, dt. by rewrite H1, H2, H3. Qed.

Lemma same_field_ok s s' f : same_at s s' f -> field_ok s f -> field_ok s' f.
Proof.
  intros Hs [Ha Hl]. destruct (same_flags _ _ _ Hs) as (E1 & E2 & _). destruct Hs as [H1 H2 H3].
  split; rewrite E1, E2, H2, H3; [|done]. destruct Ha. split; congruence.
Qed.

(** A step that changes one field, within the invariant. *)
Lemma cached_step f s s' r d v h : cached s -> frame f s s' -> at_ s' f r d v h -> loc_ok f r d v h ->
  cached s'.
Proof.
  intros Hc Hf Hat Hl g Hg. destruct (decide (g = f)) as [->|Hn]; [by eapply at_field_ok|].
  eapply same_field_ok; [by apply Hf|by apply Hc].
Qed.

Lemma upd_view f s s' A v : (forall g, ok_field supported g -> view s g = A g) -> frame f s s' ->
  view s' f = v -> forall g, ok_field supported g -> view s' g = upd A f v g.
Proof.
  intros HA Hf Hv g Hg. destruct (decide (g = f)) as [->|Hn]; [by rewrite upd_eq|].
  rewrite upd_ne by done. rewrite <- HA by done. apply same_flags. by apply Hf.
Qed.

(** The result of one operation: related views, and the dirty bit of what was
    written. *)
Record refines (s : vmcs) (w : field -> bool) (A : field -> Z) (s' : vmcs) : Prop := {
  rf_cached : cached s';
  rf_view f : ok_field supported f -> view s' f = A f;
  rf_dirty f : ok_field supported f -> dt s' f = dt s f || w f;
}.

Lemma write_at f s v : ok_field supported f -> cached s ->
  wp (modify (set_val f (wrap (width f) v)) ;; vmcs_dirty f) s
    (fun _ s' => frame f s s' /\ at_ s' f true true (wrap (width f) v) (hw s f)).
Proof.
  intros Hf Hc. destruct (Hc f Hf) as [Ha [Hd _ _ _]].
  eapply wp_at_bind; [by eapply set_val_at|]. cbn beta. intros [] s1 H1. by eapply vmcs_dirty_at.
Qed.


Lemma written_refines s s' f v A o : cached s -> ok_field supported f ->
  (forall g, ok_field supported g -> view s g = A g) ->
  vop_writes o = true -> vop_field o = f ->
  frame f s s' -> at_ s' f true true (wrap (width f) v) (hw s f) ->
  refines s (fun g => vop_wr g o) (upd A f (wrap (width f) v)) s'.
Proof.
  intros Hc Hf HA Ho Ef Hfr Hat. destruct (Hc f Hf) as [_ [_ _ _ Fh]]. split.
  - eapply cached_step; [done|done|exact Hat|]. split; try done. apply wrap_fits.
    unfold width, enc_width. destruct f; repeat case_match; lia.
  - eapply upd_view; [done|done|]. by rewrite (at_view _ _ _ _ _ _ Hat).
  - intros g Hg. unfold vop_wr. rewrite Ho, Ef. destruct (decide (f = g)) as [->|Hn].
    + rewrite bool_decide_true, orb_true_r by done. by destruct (at_flags _ _ _ _ _ _ Hat) as (_ & -> & _).
    + rewrite bool_decide_false, andb_false_r, orb_false_r by done.
      assert (g <> f) as Hn' by congruence. by destruct (same_flags _ _ _ (Hfr g Hn')) as (_ & -> & _).
Qed.

Lemma read_refines s f A : cached s -> ok_field supported f ->
  (forall g, ok_field supported g -> view s g = A g) ->
  wp (vmcs_read supported f) s (fun _ s' => refines s (fun _ => false) A s' /\ val s' f = A f /\ hw s' f = hw s f).
Proof.
  intros Hc Hf HA. destruct (Hc f Hf) as [Ha Hl].
  eapply wp_mono; [by eapply vmcs_read_at|]. intros [] s' [Hfr Hat].
  assert ((if rd s f then val s f else hw s f) = A f) as HAf by (rewrite <- HA by done; done).
  destruct (at_flags _ _ _ _ _ _ Hat) as (E1 & E2 & E3 & E4).
  split; [|by rewrite E3, E4]. split.
  - eapply cached_step; [done|done|exact Hat|]. destruct Hl as [L1 L2 L3 L4].
    split; [done|intros _; destruct (rd s f); auto| |done]. by destruct (rd s f).
  - intros g Hg. destruct (decide (g = f)) as [->|Hn].
    + by rewrite (at_view _ _ _ _ _ _ Hat).
    + rewrite <- HA by done. apply same_flags. by apply Hfr.
  - intros g Hg. rewrite orb_false_r. destruct (decide (g = f)) as [->|Hn]; [done|].
    by destruct (same_flags _ _ _ (Hfr g Hn)) as (_ & -> & _).
Qed.

Lemma cache_op_refines o s A : cached s -> ok_field supported (vop_field o) ->
  (forall g, ok_field supported g -> view s g = A g) ->
  wp (cache_op o) s (fun v s' => v = fst (direct_op o A) /\
    refines s (fun g => vop_wr g o) (snd (direct_op o A)) s').
Proof.
  intros Hc Hf HA. destruct o as [f|f g|f v]; cbn [vop_field cache_op direct_op fst snd] in *.
  - apply wp_bind. eapply wp_mono; [by apply read_refines|]. intros [] s' (Hr & Hv & _).
    apply wp_gets. split; [done|]. destruct Hr. by split.
  - apply wp_bind. eapply wp_mono; [by apply read_refines|]. intros [] s1 (Hr & Hv & Hh).
    apply wp_bind, wp_gets. rewrite Hv. destruct Hr as [R1 R2 R3].
    enough (wp ((modify (set_val f (wrap (width f) (g (A f)))) ;; vmcs_dirty f) ;; mret (A f)) s1
      (fun v s' => v = A f /\ refines s (fun g0 => vop_wr g0 (Vwrite f g)) (upd A f (wrap (width f) (g (A f)))) s'))
      as H. { revert H. unfold wp, mbind, M_bind, modify. by destruct (vmcs_dirty f _) as [[]|]. }
    apply wp_bind. eapply wp_mono; [by apply write_at|]. intros [] s2 [F2 A2]. apply wp_ret. split; [done|].
    destruct (written_refines s1 s2 f (g (A f)) A (Vwrite f g)) as [W1 W2 W3]; try done.
    split; [done|done|]. intros h Hh'. rewrite W3, R3 by done. by rewrite orb_false_r.
  - enough (wp ((modify (set_val f (wrap (width f) v)) ;; vmcs_dirty f) ;; mret 0) s
      (fun v0 s' => v0 = 0 /\ refines s (fun g0 => vop_wr g0 (Vset f v)) (upd A f (wrap (width f) v)) s'))
      as H. { revert H. unfold wp, mbind, M_bind, modify. by destruct (vmcs_dirty f _) as [[]|]. }
    apply wp_bind. eapply wp_mono; [by apply write_at|]. intros [] s2 [F2 A2]. apply wp_ret. split; [done|].
    by apply (written_refines s s2 f v A (Vset f v)).
Qed.


Lemma cache_run_refines os : forall s A, cached s -> Forall (fun o => ok_field supported (vop_field o)) os ->
  (forall g, ok_field supported g -> view s g = A g) ->
  wp (cache_run os) s (fun vs s' => vs = fst (direct_run os A) /\
    refines s (written os) (snd (direct_run os A)) s').
Proof.
  induction os as [|o os IH]; intros s A Hc Ho HA; cbn [cache_run direct_run].
  { apply wp_ret. split; [done|]. split; [done|done|]. intros. by rewrite orb_false_r. }
  apply Forall_cons in Ho as [Ho Hos]. apply wp_bind. eapply wp_mono; [by apply cache_op_refines|].
  intros v s1 [-> [R1 R2 R3]]. destruct (direct_op o A) as [v1 A1] eqn:E1. cbn [fst snd] in *.
  apply wp_bind. eapply wp_mono; [by apply IH|]. intros vs s2 [-> [Q1 Q2 Q3]].
  destruct (direct_run os A1) as [vs2 A2] eqn:E2. cbn [fst snd] in *. apply wp_ret. split; [done|].
  split; [done|done|]. intros f Hf. rewrite Q3, R3 by done. cbn [written existsb].
  unfold written. by rewrite orb_assoc.
Qed.
End refine.

(** ** The commit writes back every field

    [vmx_vmcs_commit] is a sequence of flushes; [committed_at] says what one
    flush leaves of a field, and [J] follows the set of the fields done. *)

Section commit.
Variable supported : Z -> bool.
Variable c : vmcs_cfg.

(** The fields the processor fixes bits of. *)
Definition fixof (f : field) : option fixed :=
  if decide (f = entry_entry) then Some (vmx_fx_entry c) else
  if decide (f = exec_pin) then Some (vmx_fx_pin c) else
  if decide (f = exec_proc) then Some (vmx_fx_proc c) else
  if decide (f = exit_exit) then Some (vmx_fx_exit c) else
  if decide (f = exec_proc2) then Some (vmx_fx_proc2 c) else
  if decide (f = st_cr0) then Some (vmx_fx_cr0 c) else
  if decide (f = st_cr4) then Some (vmx_fx_cr4 c) else None.

Definition copy_after (s : vmcs) (f : field) : Z :=
  if dt s f then fix_val (fixof f) (val s f) else val s f.
Definition hw_after (s : vmcs) (f : field) : Z :=
  if dt s f then hw_val f (fix_val (fixof f) (val s f)) else hw s f.
Definition committed_at (s s' : vmcs) (f : field) : Prop :=
  at_ s' f false false (copy_after s f) (hw_after s f).

Definition cond_fields : list field :=
  [exec_executive_vmcs_ptr; exec_vapic_addr; exec_apic_addr; st_ia32_pat; st_ia32_efer; st_ia32_perf;
   st_smbase; st_preempt_timer].
Definition fixed_fields : list field :=
  [entry_entry; exec_pin; exec_proc; exit_exit; exec_proc2; st_cr0; st_cr4].

(** Lists the commit flushes without a condition. *)
Definition plain (l : list field) : bool :=
  forallb (fun f => bool_decide (f ∈ vmcs_fields) && bool_decide (f ∉ cond_fields) &&
    bool_decide (f ∉ fixed_fields)) l.

Lemma flushed_uncond e f : f ∉ cond_fields -> flushed c e f = true.
Proof.
  unfold cond_fields. rewrite !not_elem_of_cons. intros (H1 & H2 & H3 & H4 & H5 & H6 & H7 & H8 & _).
  unfold flushed. by rewrite !decide_False.
Qed.
Lemma fixof_plain f : f ∉ fixed_fields -> fixof f = None.
Proof.
  unfold fixed_fields. rewrite !not_elem_of_cons. intros (H1 & H2 & H3 & H4 & H5 & H6 & H7 & _).
  unfold fixof. by rewrite !decide_False.
Qed.

Section run.
Variable s0 : vmcs.
Let e := copy_after s0 entry_entry.
Hypothesis Hsup : forall f, f ∈ vmcs_fields -> flushed c e f = true -> ok_field supported f.

(** The encodings are those of the fields, whatever the copies are. *)
Definition shaped (s : vmcs) : Prop := forall f, ok_field supported f ->
  at_ s f (rd s f) (dt s f) (val s f) (hw s f).

Definition J (P : field -> bool) (s : vmcs) : Prop := forall f,
  if P f then committed_at s0 s f else same_at s0 s f.

Lemma J_flush P f fx s : shaped s0 -> ok_field supported f -> fx = fixof f -> J P s ->
  wp (flush1 supported f fx) s (fun _ => J (fun g => bool_decide (g = f) || P g)).
Proof.
  intros Hc Hf -> HJ. pose proof (Hc f Hf) as Ha.
  assert (exists d v h, at_ s f (if P f then false else rd s0 f) d v h /\
    (if d then fix_val (fixof f) v else v) = copy_after s0 f /\
    (if d then hw_val f (fix_val (fixof f) v) else h) = hw_after s0 f) as (d & v & h & Hat & Ev & Eh).
  { pose proof (HJ f) as Hf'. destruct (P f).
    - by exists false, (copy_after s0 f), (hw_after s0 f).
    - exists (dt s0 f), (val s0 f), (hw s0 f). split; [|done]. destruct Hf' as [E1 E2 E3], Ha. split; congruence. }
  eapply wp_mono; [by eapply flush1_at|]. intros [] s' [Hfr Hat']. rewrite Ev, Eh in Hat'. intros g.
  destruct (decide (g = f)) as [->|Hn].
  - by rewrite bool_decide_true.
  - rewrite bool_decide_false by done. simpl. specialize (HJ g). destruct (Hfr g Hn) as [E1 E2 E3].
    destruct (P g); destruct HJ; split; congruence.
Qed.

Lemma J_ext P P' s : (forall g, P g = P' g) -> J P s -> J P' s.
Proof. intros HP HJ g. rewrite <- HP. apply HJ. Qed.

Lemma J_plain P f s : shaped s0 -> plain [f] = true -> J P s ->
  wp (vmcs_flush supported f) s (fun _ => J (fun g => bool_decide (g = f) || P g)).
Proof.
  intros Hc Hp HJ. unfold plain in Hp. simpl in Hp. rewrite andb_true_r, !andb_true_iff in Hp.
  destruct Hp as [[H1%bool_decide_eq_true_1 H2%bool_decide_eq_true_1] H3%bool_decide_eq_true_1].
  apply (J_flush P f None); [done| | |done]; [|by rewrite fixof_plain].
  apply Hsup; [done|by apply flushed_uncond].
Qed.

Lemma J_list P l : forall s, shaped s0 -> plain l = true -> J P s ->
  wp (for_each l (vmcs_flush supported)) s (fun _ => J (fun g => bool_decide (g ∈ l) || P g)).
Proof.
  revert P. induction l as [|f l IH]; intros P s Hc Hp HJ; cbn [for_each].
  { apply wp_ret. eapply J_ext; [|exact HJ]. intros g. by rewrite bool_decide_false by apply not_elem_of_nil. }
  unfold plain in Hp. cbn [forallb] in Hp. apply andb_true_iff in Hp as [Hp1 Hp2].
  apply wp_bind. eapply wp_mono; [apply (J_plain P f); [done| |done]|].
  { unfold plain. cbn [forallb]. by rewrite Hp1. }
  intros [] s1 H1. eapply wp_mono; [by apply IH|]. intros [] s2. apply J_ext. intros g.
  rewrite orb_assoc. f_equal. destruct (decide (g = f)) as [->|Hn].
  - rewrite (bool_decide_true (f = f)), orb_true_r by done. symmetry. apply bool_decide_true. by left.
  - rewrite (bool_decide_false (g = f)), orb_false_r by done. apply bool_decide_ext. rewrite elem_of_cons. tauto.
Qed.

Lemma J_when P b f s : shaped s0 -> f ∈ vmcs_fields -> flushed c e f = b -> fixof f = None -> J P s ->
  wp (when b (vmcs_flush supported f)) s (fun _ => J (fun g => (b && bool_decide (g = f)) || P g)).
Proof.
  intros Hc Hin Hb Hfx HJ. apply wp_when. destruct b.
  - apply (J_flush P f None); [done|by apply Hsup|by rewrite Hfx|done].
  - eapply J_ext; [|exact HJ]. done.
Qed.

Lemma J_fixed P f fx s : shaped s0 -> f ∈ vmcs_fields -> f ∉ cond_fields -> fixof f = Some fx -> J P s ->
  wp (vmcs_flush_fixed supported f fx) s (fun _ => J (fun g => bool_decide (g = f) || P g)).
Proof.
  intros Hc Hin Hcd Hfx HJ. apply (J_flush P f (Some fx)); [done| |done|done].
  apply Hsup; [done|by apply flushed_uncond].
Qed.

Lemma J_entry P s : P entry_entry = true -> J P s -> val s entry_entry = e.
Proof. intros HP HJ. specialize (HJ entry_entry). rewrite HP in HJ. apply HJ. Qed.

Lemma in_fields f : bool_decide (f ∈ vmcs_fields) = true -> f ∈ vmcs_fields.
Proof. apply bool_decide_eq_true_1. Qed.
Lemma not_cond f : bool_decide (f ∉ cond_fields) = true -> f ∉ cond_fields.
Proof. apply bool_decide_eq_true_1. Qed.

Ltac commit_op :=
  lazymatch goal with
  | HJ : J ?P ?s |- wp (for_each ?l _) ?s _ => apply (J_list P l s); [done|vm_compute; reflexivity|exact HJ]
  | HJ : J ?P ?s |- wp (vmcs_flush _ ?f) ?s _ => apply (J_plain P f s); [done|vm_compute; reflexivity|exact HJ]
  | HJ : J ?P ?s |- wp (vmcs_flush_fixed _ ?f ?fx) ?s _ =>
      apply (J_fixed P f fx s); [done|apply in_fields; vm_compute; reflexivity|apply not_cond; vm_compute; reflexivity|reflexivity|exact HJ]
  | HJ : J ?P ?s |- wp (when ?b (vmcs_flush _ ?f)) ?s _ =>
      apply (J_when P b f s); [done|apply in_fields; vm_compute; reflexivity|reflexivity|reflexivity|exact HJ]
  end.
Ltac entry_done :=
  cbn beta; rewrite (bool_decide_true (entry_entry = entry_entry)) by done;
  rewrite ?orb_true_l, ?orb_true_r; reflexivity.
Ltac commit_step :=
  lazymatch goal with
  | HJ : J ?P ?s |- wp (gets _ ≫= _) ?s _ =>
      apply wp_bind, wp_gets; rewrite (J_entry P s) by (entry_done || exact HJ)
  | HJ : J ?P ?s |- wp (_ ≫= _) ?s _ =>
      apply wp_bind; eapply wp_mono; [commit_op|]; clear HJ; let s' := fresh "s" in intros [] s' ?
  end.

Lemma plain_in g l : plain l = true -> g ∈ l -> g ∈ vmcs_fields.
Proof.
  unfold plain. rewrite forallb_forall. intros Hp Hg.
  specialize (Hp g (proj1 (list_elem_of_In _ _) Hg)). rewrite !andb_true_iff in Hp.
  destruct Hp as [[H1%bool_decide_eq_true_1 _] _]. done.
Qed.

Ltac bool_tree :=
  repeat match goal with
  | |- context [if ?b then false else false] => replace (if b then false else false) with false by (by destruct b)
  | |- context [if ?b then true else true] => replace (if b then true else true) with true by (by destruct b)
  end;
  cbv iota; first [reflexivity | match goal with |- context [if ?b then _ else _] => by destruct b end].

Lemma commit_J : shaped s0 -> wp (vmx_vmcs_commit supported c) s0 (fun _ => J (fun f =>
  bool_decide (f ∈ vmcs_fields) && flushed c e f)).
Proof.
  intros Hc. assert (J (fun _ => false) s0) as HJ by (intros f; by split).
  unfold vmx_vmcs_commit. repeat commit_step. eapply wp_mono; [commit_op|].
  intros [] s'. apply J_ext. clear. intros g. destruct (decide (g ∈ vmcs_fields)) as [Hin|Hn].
  - rewrite (bool_decide_true (g ∈ vmcs_fields)) by done. revert g Hin. apply Forall_forall.
    unfold flushed.
    generalize (feat_exec_ptr c), (bit (allow_1 (vmx_fx_proc c)) 21), (bit (allow_1 (vmx_fx_proc2 c)) 0),
      (bit e 14), (bit e 15), (bit e 13), (feat_smbase c), (bit (allow_1 (vmx_fx_pin c)) 6).
    intros b1 b2 b3 b4 b5 b6 b7 b8. unfold vmcs_fields.
    repeat (apply Forall_cons_2; [vm_compute; bool_tree|]).
    apply Forall_nil_2.
  - rewrite (bool_decide_false (g ∈ vmcs_fields)) by done. cbn [andb].
    repeat match goal with
    | |- context [bool_decide (g ∈ ?l)] =>
        rewrite (bool_decide_false (g ∈ l)) by (intros Hg; apply Hn, (plain_in g l); [vm_compute; reflexivity|exact Hg])
    | |- context [bool_decide (g = ?f)] =>
        rewrite (bool_decide_false (g = f)) by (intros ->; apply Hn, in_fields; vm_compute; reflexivity)
    end.
    by rewrite !andb_false_r.
Qed.
End run.
End commit.

(** ** One exit of the vm *)

(** The bits the processor fixes to one are bits of the field. *)
Definition cfg_ok (c : vmcs_cfg) : Prop := forall f fx, fixof c f = Some fx -> fits (width f) (allow_0 fx).

Lemma fits_lor w a b : 0 <= w -> fits w a -> fits w b -> fits w (Z.lor a b).
Proof.
  intros Hw Ha Hb. apply fits_of_testbit; [done|apply Z.lor_nonneg; split; [apply Ha|apply Hb]|].
  intros i Hi. by rewrite Z.lor_spec, !(fits_testbit w).
Qed.
Lemma fits_land w a b : 0 <= w -> fits w a -> fits w (Z.land a b).
Proof.
  intros Hw Ha. apply fits_of_testbit; [done|apply Z.land_nonneg; left; apply Ha|].
  intros i Hi. by rewrite Z.land_spec, (fits_testbit w a).
Qed.
Lemma width_pos f : 0 <= width f.
Proof. unfold width, enc_width. destruct f; repeat case_match; lia. Qed.

Lemma fix_val_fits c f v : cfg_ok c -> fits (width f) v -> fits (width f) (fix_val (fixof c f) v).
Proof.
  intros Hc Hv. unfold fix_val. destruct (fixof c f) as [fx|] eqn:E; [|done].
  apply fits_lor; [apply width_pos| |by apply (Hc f)]. apply fits_land; [apply width_pos|done].
Qed.

Lemma hw_val_id f v : fits (width f) v -> hw_val f v = v.
Proof. intros Hv. unfold hw_val. destruct f; try done. by apply wrap_id. Qed.

(** What the fields are worth at the end of an exit that ran [os]. *)
Definition exit_result (c : vmcs_cfg) (os : list vop) (A : field -> Z) (f : field) : Z :=
  if written os f then fix_val (fixof c f) (snd (direct_run os A) f) else A f.

Section exit.
Variable supported : Z -> bool.
Variable c : vmcs_cfg.

(** The state in which a vm exits: the cache holds nothing. *)
Definition fresh (s : vmcs) : Prop :=
  cached supported s /\ forall f, ok_field supported f -> rd s f = false.

Lemma fresh_view s f : fresh s -> ok_field supported f -> view s f = hw s f.
Proof. intros [_ Hr] Hf. unfold view. by rewrite Hr. Qed.
Lemma fresh_clean s f : fresh s -> ok_field supported f -> dt s f = false.
Proof.
  intros [Hc Hr] Hf. destruct (Hc f Hf) as [_ [Hd _ _ _]]. destruct (dt s f); [|done].
  by rewrite Hr in Hd by done; specialize (Hd eq_refl).
Qed.

Lemma committed_view s s' f : cached supported s -> ok_field supported f -> cfg_ok c ->
  committed_at c s s' f -> rd s' f = false /\ dt s' f = false /\ field_ok s' f /\
  hw s' f = if dt s f then fix_val (fixof c f) (view s f) else view s f.
Proof.
  intros Hc Hf Hcfg Hat. destruct (Hc f Hf) as [_ [Hd Hcl Fv Fh]].
  destruct (at_flags _ _ _ _ _ _ Hat) as (E1 & E2 & _ & E4).
  assert (fits (width f) (fix_val (fixof c f) (val s f))) as Ff by by apply fix_val_fits.
  assert (hw_after c s f = if dt s f then fix_val (fixof c f) (view s f) else view s f) as Eh.
  { unfold hw_after, view. destruct (dt s f) eqn:Ed.
    - rewrite Hd by done. by apply hw_val_id.
    - destruct (rd s f) eqn:Er; [symmetry; auto|done]. }
  split_and!; [done|done| |by rewrite E4, Eh].
  eapply at_field_ok; [exact Hat|]. split; try done.
  - unfold copy_after. by destruct (dt s f).
  - unfold hw_after. destruct (dt s f); [|done]. by rewrite hw_val_id.
Qed.
End exit.

(** C4: the cache of the vmcs is transparent.  Whatever reads and writes the
    handlers of an exit do through the cache, they run without a panic and
    read what direct access to the fields would give; the commit then leaves
    in the processor exactly the fields they wrote, with the bits the
    processor fixes, and empties the cache: no write is lost, no field is
    stale at the next exit. *)
Theorem vmcs_exit_refines supported c os s : cfg_ok c -> fresh supported s ->
  Forall (fun o => ok_field supported (vop_field o)) os ->
  exists s1, cache_run supported os s = Some (fst (direct_run os (hw s)), s1) /\
  ((forall f, f ∈ vmcs_fields -> flushed c (copy_after c s1 entry_entry) f = true -> ok_field supported f) ->
   exists s2, vmx_vmcs_commit supported c s1 = Some (tt, s2) /\ cached supported s2 /\
     forall f, f ∈ vmcs_fields -> flushed c (copy_after c s1 entry_entry) f = true ->
       rd s2 f = false /\ dt s2 f = false /\ hw s2 f = exit_result c os (hw s) f).
Proof.
  intros Hcfg Hs Hos. pose proof (cache_run_refines supported os s (hw s)) as Hrun.
  apply wp_exists in Hrun as (vs & s1 & Hrun & -> & [R1 R2 R3]); [|apply Hs|done|by intros; apply (fresh_view supported)].
  exists s1. split; [done|]. intros Hsup.
  destruct (wp_exists _ _ _ (commit_J supported c s1 Hsup (fun f Hf => fo_at _ _ (R1 f Hf)))) as ([] & s2 & Hcm & HJ).
  exists s2. split; [done|].
  assert (forall f, f ∈ vmcs_fields -> flushed c (copy_after c s1 entry_entry) f = true ->
    committed_at c s1 s2 f) as Hcom.
  { intros f Hin Hfl. specialize (HJ f). cbn beta in HJ. rewrite (bool_decide_true (f ∈ vmcs_fields)), Hfl in HJ by done. exact HJ. }
  split.
  - intros f Hf. specialize (HJ f). cbn beta in HJ. destruct (_ && _); [|by eapply same_field_ok; [exact HJ|apply R1]].
    by destruct (committed_view supported c s1 s2 f R1 Hf Hcfg HJ) as (_ & _ & ? & _).
  - intros f Hin Hfl. assert (ok_field supported f) as Hf by by apply Hsup.
    destruct (committed_view supported c s1 s2 f R1 Hf Hcfg (Hcom f Hin Hfl)) as (E1 & E2 & _ & ->).
    split_and!; [done|done|]. unfold exit_result. rewrite R2, R3 by done.
    rewrite (fresh_clean supported s f Hs Hf). cbn [orb].
    destruct (written os f) eqn:Ew; [done|]. by apply direct_unwritten.
Qed.

(** ** A concrete exit *)

Definition ex_supported (e : Z) : bool := (0 <=? e) && (e <? 2 ^ 15).
Definition ex_fx : fixed := mk_fixed 0 0xffffffff.
Definition ex_cfg : vmcs_cfg := mk_vmcs_cfg ex_fx ex_fx ex_fx ex_fx ex_fx ex_fx ex_fx false false.
Definition ex_vmcs : vmcs := mk_vmcs (fun _ => 0) encode (upd (fun _ => 0) st_rip 0x1000).
Definition ex_ops : list vop := [Vread st_rip; Vwrite st_rip (fun v => v + 2); Vset entry_int_info 0x80000b0d].

Lemma ex_cfg_ok : cfg_ok ex_cfg.
Proof.
  intros f fx. unfold fixof. repeat case_decide; intros [= <-]; split; try done; apply Z.pow_pos_nonneg; try done; apply width_pos.
Qed.

Lemma ex_fresh : fresh ex_supported ex_vmcs.
Proof.
  assert (forall f, ok_field ex_supported f -> at_ ex_vmcs f false false 0 (hw ex_vmcs f)) as Hat.
  { intros f Hf. split; [symmetry; by apply (mk_enc_clean ex_supported)|done|done]. }
  assert (forall f, fits (width f) 0) as F0.
  { intros f. split; [done|]. apply Z.pow_pos_nonneg; [done|apply width_pos]. }
  split; intros f Hf.
  - eapply at_field_ok; [by apply Hat|]. split; try done. simpl. unfold upd.
    destruct (decide (st_rip = f)) as [<-|]; [|done]. split; done.
  - by destruct (at_flags _ _ _ _ _ _ (Hat f Hf)).
Qed.

Lemma ex_supported_fields f : f ∈ vmcs_fields -> ok_field ex_supported f.
Proof.
  intros Hf. enough (match f with Fld e => ex_supported e = true | _ => True end) as H.
  { destruct f; try done. split; [|done]. unfold ex_supported in H. unfold fits. lia. }
  revert f Hf. apply Forall_forall. repeat (apply Forall_cons_2; [vm_compute; done|]). apply Forall_nil_2.
Qed.

Lemma vmcs_exit_refines_witness : exists s1 s2,
  cache_run ex_supported ex_ops ex_vmcs = Some ([0x1000; 0x1000; 0], s1) /\
  vmx_vmcs_commit ex_supported ex_cfg s1 = Some (tt, s2) /\ hw s2 st_rip = 0x1002.
Proof.
  destruct (vmcs_exit_refines ex_supported ex_cfg ex_ops ex_vmcs ex_cfg_ok ex_fresh) as (s1 & H1 & H2).
  { repeat (apply Forall_cons_2; [split; [split; done|done]|]). apply Forall_nil_2. }
  destruct H2 as (s2 & H3 & _ & H4); [intros f Hf _; by apply ex_supported_fields|].
  exists s1, s2. split; [exact H1|]. split; [exact H3|].
  destruct (H4 st_rip) as (_ & _ & ->); [apply in_fields; reflexivity|reflexivity|reflexivity].
Defined.
