(* ===== verification/Machine.v ===== *)
(** * The vm's processor as the exit handlers see it (vmm/src/vmx/vmx_exit.c, include/vm.h)

    A handler runs between the exit of the vm and its resumption: it works on
    the cached vmcs, the general registers the exit saved, and the data the
    vmm keeps about the vm's processor.  [vst] is the assertion the handlers
    are proved with: it separates what a field is worth from where its value
    is, so that a read of a copy that was not loaded, or a change that is not
    marked dirty, has no proof. *)

From S2P Require Import Prelude.
From S2P Require Import Monad.
From S2P Require Import Walk.
From S2P Require Import Vmcs.

(** ** State *)

(** Order of the saved registers (include/gpr.h). *)
Definition GPR64_RAX : Z := 15.
Definition GPR64_RCX : Z := 14.
Definition GPR64_RDX : Z := 13.
Definition GPR64_RBX : Z := 12.
Definition GPR64_RSP : Z := 11.
Definition GPR64_RDI : Z := 8.

(** The calls that reach the controller of the vm and its nested paging. *)
Inductive vm_call := CTRL_EVT_CR_RD (cr : Z) | CTRL_EVT_CR_WR (cr : Z) | CTRL_EVT_CPUID (idx : Z) | VMX_EPT_REMAP
  | CTRL_EVT_SUSPEND.

Record mach := mk_mach {
  m_vmcs : vmcs;
  m_gpr : Z -> Z;             (* [info->vm.cpu.gpr->raw] *)
  m_efer : Z;                 (* [info->vm.efer], the efer the vm believes in *)
  m_dflt_excp : Z;            (* [info->vm.cpu.dflt_excp] *)
  m_usr_excp : Z;             (* [info->vmm.ctrl.usr.excp | info->vmm.ctrl.dbg.excp] *)
  m_idt_saved : Z;            (* [info->vm.idt_limit_saved] *)
  m_idt_rmode : Z;            (* [info->vm.idt_limit_rmode] *)
  m_io_denied : Z -> bool;    (* [info->vm.cpu.vmc->io_bitmap], the bit of a port *)
  m_irq_pending : Z;          (* [irq_msg.pending] *)
  m_irq_vector : Z;           (* [irq_msg.vector] *)
  m_a20 : Z;                  (* [info->vm.dev.mem.a20] *)
  m_dr : Z -> Z;              (* [info->vm.dr_shadow]: dr0 to dr3, dr6 and dr7 *)
  m_mtrr_def : Z;             (* [info->vm.mtrr_def] *)
  m_emu_done : bool;          (* [info->vm.cpu.emu_sts == EMU_STS_DONE] *)
  m_mem : gmap Z Z;           (* physical memory, by byte *)
  m_calls : list vm_call;     (* what other parts of the vmm were called for, the last one first *)
}.

Definition with_vmcs v s := mk_mach v (m_gpr s) (m_efer s) (m_dflt_excp s) (m_usr_excp s)
  (m_idt_saved s) (m_idt_rmode s) (m_io_denied s) (m_irq_pending s) (m_irq_vector s)
  (m_a20 s) (m_dr s) (m_mtrr_def s) (m_emu_done s) (m_mem s) (m_calls s).
Definition with_gpr v s := mk_mach (m_vmcs s) v (m_efer s) (m_dflt_excp s) (m_usr_excp s)
  (m_idt_saved s) (m_idt_rmode s) (m_io_denied s) (m_irq_pending s) (m_irq_vector s)
  (m_a20 s) (m_dr s) (m_mtrr_def s) (m_emu_done s) (m_mem s) (m_calls s).
Definition with_efer v s := mk_mach (m_vmcs s) (m_gpr s) v (m_dflt_excp s) (m_usr_excp s)
  (m_idt_saved s) (m_idt_rmode s) (m_io_denied s) (m_irq_pending s) (m_irq_vector s)
  (m_a20 s) (m_dr s) (m_mtrr_def s) (m_emu_done s) (m_mem s) (m_calls s).
Definition with_dflt_excp v s := mk_mach (m_vmcs s) (m_gpr s) (m_efer s) v (m_usr_excp s)
  (m_idt_saved s) (m_idt_rmode s) (m_io_denied s) (m_irq_pending s) (m_irq_vector s)
  (m_a20 s) (m_dr s) (m_mtrr_def s) (m_emu_done s) (m_mem s) (m_calls s).
Definition with_idt_saved v s := mk_mach (m_vmcs s) (m_gpr s) (m_efer s) (m_dflt_excp s) (m_usr_excp s)
  v (m_idt_rmode s) (m_io_denied s) (m_irq_pending s) (m_irq_vector s)
  (m_a20 s) (m_dr s) (m_mtrr_def s) (m_emu_done s) (m_mem s) (m_calls s).
Definition with_io_denied v s := mk_mach (m_vmcs s) (m_gpr s) (m_efer s) (m_dflt_excp s) (m_usr_excp s)
  (m_idt_saved s) (m_idt_rmode s) v (m_irq_pending s) (m_irq_vector s)
  (m_a20 s) (m_dr s) (m_mtrr_def s) (m_emu_done s) (m_mem s) (m_calls s).
Definition with_irq_pending v s := mk_mach (m_vmcs s) (m_gpr s) (m_efer s) (m_dflt_excp s) (m_usr_excp s)
  (m_idt_saved s) (m_idt_rmode s) (m_io_denied s) v (m_irq_vector s)
  (m_a20 s) (m_dr s) (m_mtrr_def s) (m_emu_done s) (m_mem s) (m_calls s).
Definition with_irq_vector v s := mk_mach (m_vmcs s) (m_gpr s) (m_efer s) (m_dflt_excp s) (m_usr_excp s)
  (m_idt_saved s) (m_idt_rmode s) (m_io_denied s) (m_irq_pending s) v
  (m_a20 s) (m_dr s) (m_mtrr_def s) (m_emu_done s) (m_mem s) (m_calls s).
Definition with_a20 v s := mk_mach (m_vmcs s) (m_gpr s) (m_efer s) (m_dflt_excp s) (m_usr_excp s)
  (m_idt_saved s) (m_idt_rmode s) (m_io_denied s) (m_irq_pending s) (m_irq_vector s)
  v (m_dr s) (m_mtrr_def s) (m_emu_done s) (m_mem s) (m_calls s).
Definition with_dr v s := mk_mach (m_vmcs s) (m_gpr s) (m_efer s) (m_dflt_excp s) (m_usr_excp s)
  (m_idt_saved s) (m_idt_rmode s) (m_io_denied s) (m_irq_pending s) (m_irq_vector s)
  (m_a20 s) v (m_mtrr_def s) (m_emu_done s) (m_mem s) (m_calls s).
Definition with_mtrr_def v s := mk_mach (m_vmcs s) (m_gpr s) (m_efer s) (m_dflt_excp s) (m_usr_excp s)
  (m_idt_saved s) (m_idt_rmode s) (m_io_denied s) (m_irq_pending s) (m_irq_vector s)
  (m_a20 s) (m_dr s) v (m_emu_done s) (m_mem s) (m_calls s).
Definition with_emu_done v s := mk_mach (m_vmcs s) (m_gpr s) (m_efer s) (m_dflt_excp s) (m_usr_excp s)
  (m_idt_saved s) (m_idt_rmode s) (m_io_denied s) (m_irq_pending s) (m_irq_vector s)
  (m_a20 s) (m_dr s) (m_mtrr_def s) v (m_mem s) (m_calls s).
Definition with_mem v s := mk_mach (m_vmcs s) (m_gpr s) (m_efer s) (m_dflt_excp s) (m_usr_excp s)
  (m_idt_saved s) (m_idt_rmode s) (m_io_denied s) (m_irq_pending s) (m_irq_vector s)
  (m_a20 s) (m_dr s) (m_mtrr_def s) (m_emu_done s) v (m_calls s).
Definition with_calls v s := mk_mach (m_vmcs s) (m_gpr s) (m_efer s) (m_dflt_excp s) (m_usr_excp s)
  (m_idt_saved s) (m_idt_rmode s) (m_io_denied s) (m_irq_pending s) (m_irq_vector s)
  (m_a20 s) (m_dr s) (m_mtrr_def s) (m_emu_done s) (m_mem s) v.

(** ** The intercepted ports (include/vmx_vmcs.h, include/dev_io_ports.h)

    The two bitmaps of the vmcs are one function of the port. *)

Definition KBD_START_PORT : Z := 0x60.
Definition KBD_END_PORT : Z := 0x6f.

Definition vmx_access_io (deny : bool) (p : Z) (bm : Z -> bool) : Z -> bool :=
  fun q => if decide (p = q) then deny else bm q.
Definition vmx_access_io_range (deny : bool) (sp ep : Z) (bm : Z -> bool) : Z -> bool :=
  fold_left (fun bm p => vmx_access_io deny p bm) (seqZ sp (ep + 1 - sp)) bm.

Lemma access_io_range deny sp ep bm q :
  vmx_access_io_range deny sp ep bm q = if decide (sp <= q <= ep) then deny else bm q.
Proof.
  unfold vmx_access_io_range.
  assert (forall n sp bm, fold_left (fun bm p => vmx_access_io deny p bm) (seqZ sp (Z.of_nat n)) bm q =
    if decide (sp <= q < sp + Z.of_nat n) then deny else bm q) as H.
  { clear. induction n as [|n IH]; intros sp bm; [by rewrite decide_False by lia|].
    rewrite seqZ_cons by lia. cbn [fold_left]. replace (Z.pred (Z.of_nat (S n))) with (Z.of_nat n) by lia.
    rewrite IH. unfold vmx_access_io. repeat case_decide; try done; lia. }
  destruct (Z.le_gt_cases sp (ep + 1)) as [Hle|Hgt].
  - rewrite <- (Z2Nat.id (ep + 1 - sp)) by lia. rewrite H. repeat case_decide; try done; lia.
  - rewrite seqZ_nil by lia. cbn. by rewrite decide_False by lia.
Qed.

Definition allow_io (p : Z) (s : mach) : mach := with_io_denied (vmx_access_io false p (m_io_denied s)) s.
Definition deny_io (p : Z) (s : mach) : mach := with_io_denied (vmx_access_io true p (m_io_denied s)) s.
Definition allow_io_range (sp ep : Z) (s : mach) : mach :=
  with_io_denied (vmx_access_io_range false sp ep (m_io_denied s)) s.
Definition deny_io_range (sp ep : Z) (s : mach) : mach :=
  with_io_denied (vmx_access_io_range true sp ep (m_io_denied s)) s.

(** The keyboard ports are all intercepted, or none is. *)
Definition kbd_denied (s : mach) (b : bool) : Prop :=
  forall p, KBD_START_PORT <= p <= KBD_END_PORT -> m_io_denied s p = b.

(** ** The processor

    The capabilities of the machine, as an interface: it implements every
    field of the vmcs, the optional ones when it announces them. *)

Definition optional_fields : list field :=
  [exec_executive_vmcs_ptr; exec_vapic_addr; exec_apic_addr; st_smbase; st_preempt_timer].

Class Vmx := {
  vmx_supported : Z -> bool;
  vmx_cfg : vmcs_cfg;
  vmx_implements f : f ∈ vmcs_fields -> f ∉ optional_fields -> ok_field vmx_supported f;
  vmx_optional f e : f ∈ vmcs_fields -> flushed vmx_cfg e f = true -> f ∈ optional_fields ->
    ok_field vmx_supported f;
  vmx_cfg_ok : cfg_ok vmx_cfg;
  vmx_feat_exit_dt : bool;    (* [CONFIG_VMX_FEAT_EXIT_DT] *)
  vmx_msr_proxy : bool;       (* [CONFIG_MSR_PROXY] *)
  vmx_rdmsr : Z -> Z;         (* what the instruction returns *)
  vmx_cpuid : Z -> Z -> Z * Z * Z * Z;
}.

(** ** Access to the registers *)

Section access.
Context {V : Vmx}.

Definition on_vmcs {A} (m : M vmcs A) : M mach A := zoom m_vmcs with_vmcs m.

(** [__pre_access], [__post_access] and the copy itself. *)
Definition pre_access (f : field) : M mach unit := on_vmcs (vmcs_read vmx_supported f).
Definition post_access (f : field) : M mach unit := on_vmcs (vmcs_dirty f).
Definition getf (f : field) : M mach Z := gets (fun s => val (m_vmcs s) f).
Definition putf (f : field) (v : Z) : M mach unit := on_vmcs (modify (set_val f v)).
Definition put_fld (f : field) (lo w v : Z) : M mach unit :=
  x ← getf f; putf f (set_bits x lo w v).

Definition call (c : vm_call) : M mach unit := modify (fun s => with_calls (c :: m_calls s) s).

Definition get_gpr (r : Z) : M mach Z := gets (fun s => m_gpr s r).
Definition put_gpr (r v : Z) : M mach unit :=
  modify (fun s => with_gpr (fun r' => if decide (r = r') then v else m_gpr s r') s).
(** Fields of a register: [low], [wlow], [blow], [bhigh]. *)
Definition put_gpr_fld (r lo w v : Z) : M mach unit := x ← get_gpr r; put_gpr r (set_bits x lo w v).

(** The reads of [vmx_vmexit_pre_hdl]. *)
Definition pre_hdl_fields : list field :=
  [info_reason; st_rflags; st_cr0; st_cr3; exec_cr0_read_shadow; st_cs_base; st_cs_selector;
   st_cs_attributes; st_rip; st_ss_base; st_rsp].
Definition vmx_vmexit_pre_hdl : M mach unit :=
  for_each pre_hdl_fields pre_access ;;
  v ← getf st_rsp;
  put_gpr GPR64_RSP v.

(** The end of [vmx_vmexit_post_hdl]. *)
Definition vmx_vmexit_post_hdl : M mach unit :=
  v ← get_gpr GPR64_RSP;
  putf st_rsp v ;;
  post_access st_rsp ;;
  modify (with_emu_done false) ;;
  on_vmcs (vmx_vmcs_commit vmx_supported vmx_cfg).

(** ** Assertions on the fields

    [vst H A L D W s]: the processor holds [H]; the fields are worth [A] to the
    vmm; the copies of those in [L] are loaded, those of [D] are marked dirty,
    and those in [W] were changed in their copy since.  A field that is in
    none of them is worth what the processor holds. *)

Record fst_ok (s : vmcs) (H A : field -> Z) (L D W : list field) (f : field) : Prop := {
  fs_at : at_ s f (bool_decide (f ∈ L)) (bool_decide (f ∈ D)) (val s f) (H f);
  fs_sub : f ∈ D -> f ∈ L;
  fs_worth : f ∈ L \/ f ∈ W -> val s f = A f;
  fs_clean : f ∉ D -> f ∉ W -> A f = H f;
  fs_val : fits (width f) (val s f);
  fs_hw : fits (width f) (H f);
}.
Definition vst (H A : field -> Z) (L D W : list field) (s : mach) : Prop :=
  forall f, ok_field vmx_supported f -> fst_ok (m_vmcs s) H A L D W f.

Definition same_elem (f : field) (l l' : list field) : Prop := forall g, g <> f -> g ∈ l' <-> g ∈ l.

Lemma same_elem_refl f l : same_elem f l l.
Proof. by intros g _. Qed.
Lemma same_elem_cons f l : same_elem f l (f :: l).
Proof. intros g Hg. rewrite elem_of_cons. tauto. Qed.
Lemma same_elem_filter f l : same_elem f l (filter (fun g => g <> f) l).
Proof. intros g Hg. rewrite list_elem_of_filter. tauto. Qed.

(** A step of the cache on one field. *)
Lemma vst_step H A A' L L' D D' W W' f s v x : vst H A L D W s -> frame f (m_vmcs s) v ->
  at_ v f (bool_decide (f ∈ L')) (bool_decide (f ∈ D')) x (H f) ->
  (forall g, g <> f -> A' g = A g) -> same_elem f L L' -> same_elem f D D' -> same_elem f W W' ->
  (f ∈ D' -> f ∈ L') -> (f ∈ L' \/ f ∈ W' -> x = A' f) -> (f ∉ D' -> f ∉ W' -> A' f = H f) ->
  fits (width f) x -> vst H A' L' D' W' (with_vmcs v s).
Proof.
  intros Hv Hfr Hat HA HL HD HW H1 H2 H3 H4 g Hok. cbn [m_vmcs with_vmcs].
  destruct (decide (g = f)) as [->|Hn].
  - assert (val v f = x) as Hx by apply Hat. destruct (Hv f Hok) as [_ _ _ _ _ F6].
    split; rewrite ?Hx; done.
  - destruct (Hv g Hok) as [F1 F2 F3 F4 F5 F6], (Hfr g Hn) as [S1 S2 S3].
    pose proof (HL g Hn) as EL. pose proof (HD g Hn) as ED. pose proof (HW g Hn) as EW.
    split; rewrite ?S2, ?(HA g Hn), ?EL, ?ED, ?EW; try done.
    rewrite (bool_decide_ext _ _ EL), (bool_decide_ext _ _ ED). destruct F1. split; congruence.
Qed.

Lemma wp_on_vmcs {X} (m : M vmcs X) s (Q : X -> mach -> Prop) :
  wp m (m_vmcs s) (fun x v => Q x (with_vmcs v s)) -> wp (on_vmcs m) s Q.
Proof. apply wp_zoom. Qed.

Lemma vst_loc H A L D W s f : vst H A L D W s -> ok_field vmx_supported f -> f ∉ W ->
  loc_ok f (bool_decide (f ∈ L)) (bool_decide (f ∈ D)) (val (m_vmcs s) f) (H f).
Proof.
  intros Hv Hf Hw. destruct (Hv f Hf) as [F1 F2 F3 F4 F5 F6]. split; [| |done|done].
  - rewrite !bool_decide_eq_true. done.
  - rewrite bool_decide_eq_true, bool_decide_eq_false. intros HL HD. rewrite F3 by (by left). auto.
Qed.

Lemma wp_pre_access H A L D W s f Q : ok_field vmx_supported f -> f ∉ W -> vst H A L D W s ->
  (forall v, vst H A (f :: L) D W (with_vmcs v s) -> Q tt (with_vmcs v s)) -> wp (pre_access f) s Q.
Proof.
  intros Hf Hw Hv HQ. apply wp_on_vmcs. destruct (Hv f Hf) as [F1 F2 F3 F4 F5 F6].
  eapply wp_mono; [eapply vmcs_read_at; [done|exact F1|by eapply vst_loc]|].
  intros [] v [Hfr Hat]. apply HQ. eapply (vst_step H A A L (f :: L) D D W W f s v);
    [done|done| |done|apply same_elem_cons|apply same_elem_refl|apply same_elem_refl| | |done|].
  - rewrite (bool_decide_true (f ∈ f :: L)) by (by left). exact Hat.
  - by left.
  - intros _. destruct (decide (f ∈ L)) as [HL|HL].
    + rewrite (bool_decide_true (f ∈ L)) by done. auto.
    + rewrite (bool_decide_false (f ∈ L)) by done. symmetry. apply F4; [|done]. auto.
  - by destruct (bool_decide (f ∈ L)).
Qed.

Lemma wp_post_access H A L D W s f Q : ok_field vmx_supported f -> f ∈ W \/ f ∈ L -> vst H A L D W s ->
  (forall v, vst H A (f :: L) (f :: D) (filter (fun g => g <> f) W) (with_vmcs v s) -> Q tt (with_vmcs v s)) ->
  wp (post_access f) s Q.
Proof.
  intros Hf Hw Hv HQ. apply wp_on_vmcs. destruct (Hv f Hf) as [F1 F2 F3 F4 F5 F6].
  eapply wp_mono; [eapply vmcs_dirty_at; [exact F1|]|]; [by rewrite !bool_decide_eq_true|].
  intros [] v [Hfr Hat]. apply HQ. eapply (vst_step H A A L (f :: L) D (f :: D) W _ f s v);
    [done|done| |done|apply same_elem_cons|apply same_elem_cons|apply same_elem_filter| | | |exact F5].
  - rewrite !bool_decide_true by (by left). exact Hat.
  - by left.
  - intros _. apply F3. tauto.
  - intros Hn. exfalso. apply Hn. by left.
Qed.

Lemma wp_getf H A L D W s f Q : ok_field vmx_supported f -> f ∈ W \/ f ∈ L -> vst H A L D W s ->
  Q (A f) s -> wp (getf f) s Q.
Proof.
  intros Hf Hw Hv HQ. apply wp_gets. destruct (Hv f Hf) as [_ _ F3 _ _ _]. rewrite F3 by tauto. done.
Qed.

Lemma wp_putf H A L D W s f x Q : ok_field vmx_supported f -> fits (width f) x -> vst H A L D W s ->
  (forall v, vst H (upd A f x) L D (f :: W) (with_vmcs v s) -> Q tt (with_vmcs v s)) -> wp (putf f x) s Q.
Proof.
  intros Hf Hx Hv HQ. apply wp_on_vmcs. destruct (Hv f Hf) as [F1 F2 F3 F4 F5 F6].
  eapply wp_mono; [eapply set_val_at; exact F1|]. intros [] v [Hfr Hat]. apply HQ.
  eapply (vst_step H A _ L L D D W (f :: W) f s v);
    [done|done|exact Hat| |apply same_elem_refl|apply same_elem_refl|apply same_elem_cons|done| | |done].
  - intros g Hg. by rewrite upd_ne.
  - intros _. by rewrite upd_eq.
  - intros _ Hn. exfalso. apply Hn. by left.
Qed.

(** A copy that is marked already may change again. *)
Lemma vst_marked H A L D W f s : f ∈ D -> vst H A L D (f :: W) s -> vst H A L D W s.
Proof.
  intros HD Hv g Hg. destruct (Hv g Hg) as [F1 F2 F3 F4 F5 F6]. split; try done.
  - intros Hw. apply F3. rewrite elem_of_cons. tauto.
  - intros Hd Hw. apply F4; [done|]. intros [->|]%elem_of_cons; done.
Qed.

Lemma vst_fits H A L D W s f : vst H A L D W s -> ok_field vmx_supported f -> fits (width f) (A f).
Proof.
  intros Hv Hf. destruct (Hv f Hf) as [F1 F2 F3 F4 F5 F6].
  destruct (decide (f ∈ L)); [by rewrite <- F3 by (by left)|].
  destruct (decide (f ∈ W)); [by rewrite <- F3 by (by right)|]. rewrite F4; auto.
Qed.

Lemma wp_put_fld H A L D W s f lo w x Q : ok_field vmx_supported f -> f ∈ W \/ f ∈ L ->
  0 <= lo -> 0 <= w -> lo + w <= width f -> vst H A L D W s ->
  (forall v, vst H (upd A f (set_bits (A f) lo w x)) L D (f :: W) (with_vmcs v s) -> Q tt (with_vmcs v s)) ->
  wp (put_fld f lo w x) s Q.
Proof.
  intros Hf Hw Hlo Hwd Hle Hv HQ. unfold put_fld. apply wp_bind. eapply wp_getf; [done|done|done|].
  eapply wp_putf; [done| |done|done]. apply set_bits_fits; try done. by eapply vst_fits.
Qed.

(** Some code changes a part of a copy that was not loaded: the rest of the
    field is then what the copy held before. *)
Lemma wp_put_fld_stale H A L D W s f lo w x Q : ok_field vmx_supported f ->
  0 <= lo -> 0 <= w -> lo + w <= width f -> vst H A L D W s ->
  (forall old v, fits (width f) old ->
     vst H (upd A f (set_bits old lo w x)) L D (f :: W) (with_vmcs v s) -> Q tt (with_vmcs v s)) ->
  wp (put_fld f lo w x) s Q.
Proof.
  intros Hf Hlo Hwd Hle Hv HQ. unfold put_fld. apply wp_bind, wp_gets.
  destruct (Hv f Hf) as [F1 F2 F3 F4 F5 F6]. eapply wp_putf; [done| |exact Hv|].
  - by apply set_bits_fits.
  - intros v. by apply HQ.
Qed.

Lemma vst_weaken H A A' L L' D W s : vst H A L D W s -> (forall f, A f = A' f) ->
  (forall f, f ∈ L' <-> f ∈ L) -> vst H A' L' D W s.
Proof.
  intros Hv HA HL f Hf. destruct (Hv f Hf) as [F1 F2 F3 F4 F5 F6].
  split; rewrite <- ?HA, ?HL; try done. by rewrite (bool_decide_ext _ _ (HL f)).
Qed.

(** The cache at the end of a handler. *)
Lemma vst_cached H A L D s : vst H A L D [] s -> cached vmx_supported (m_vmcs s).
Proof.
  intros Hv f Hf. destruct (Hv f Hf) as [F1 _ _ _ _ _].
  eapply at_field_ok; [exact F1|eapply vst_loc; [done|done|apply not_elem_of_nil]].
Qed.
End access.

(** Side conditions on concrete fields, and the steps of a handler. *)
Lemma vmx_has {V : Vmx} f : bool_decide (f ∈ vmcs_fields) && bool_decide (f ∉ optional_fields) = true ->
  ok_field vmx_supported f.
Proof. intros [H1 H2]%andb_true_iff. apply vmx_implements; by eapply bool_decide_eq_true_1. Qed.

Ltac fld_ok := first [assumption | exact I | apply vmx_has; vm_compute; reflexivity].
Ltac elem := apply (bool_decide_eq_true_1 _); vm_compute; reflexivity.
Ltac loaded := first [left; elem | right; elem].

Ltac upd_simpl :=
  repeat first
    [ rewrite upd_eq
    | match goal with |- context [upd ?A ?f ?x ?g] => rewrite (upd_ne A f x g) by discriminate end ].

Ltac upd_simpl_in Hv :=
  repeat first
    [ rewrite upd_eq in Hv
    | match type of Hv with context [upd ?A ?f ?x ?g] => rewrite (upd_ne A f x g) in Hv by discriminate end ].

(** One access of the handler, from the assertion on its state. *)
Ltac hstep :=
  lazymatch goal with
  | |- wp (_ ≫= _) _ _ => apply wp_bind
  | Hv : vst ?H ?A ?L ?D ?W ?s |- wp (pre_access ?f) ?s _ =>
      apply (wp_pre_access H A L D W s f); [fld_ok|elem|exact Hv|]; clear Hv; intros ? Hv; cbn beta
  | Hv : vst ?H ?A ?L ?D ?W ?s |- wp (post_access ?f) ?s _ =>
      apply (wp_post_access H A L D W s f); [fld_ok|loaded|exact Hv|]; clear Hv; intros ? Hv;
      let W' := eval vm_compute in (filter (fun g => g <> f) W) in
      change (filter (fun g => g <> f) W) with W' in Hv; cbn beta
  | Hv : vst ?H ?A ?L ?D ?W ?s |- wp (getf ?f) ?s _ =>
      apply (wp_getf H A L D W s f); [fld_ok|loaded|exact Hv|]; upd_simpl; cbn beta
  | |- wp (get_gpr _) _ _ => apply wp_gets; cbn beta
  | |- wp (put_gpr _ _) _ _ => unfold put_gpr
  | |- wp (put_gpr_fld _ _ _ _) _ _ => unfold put_gpr_fld
  | |- wp (gets _) _ _ => apply wp_gets; cbn beta
  | Hv : vst ?H ?A ?L ?D ?W ?s |- wp (modify ?g) ?s _ =>
      apply wp_modify; change (vst H A L D W (g s)) in Hv; cbn beta in Hv |- *
  | |- wp (mret _) _ _ => apply wp_ret; cbn beta
  end.
(** ** Assertions for the handlers

    [cst H A R D W s]: the fields are worth [A], the copies of those in [R] at
    least are loaded, those in [D] at least are marked, those in [W] were
    changed since, and the loaded fields are ones the commit reaches. *)
Section handlers.
Context {V : Vmx}.

Definition loadable (f : field) : Prop := f ∈ vmcs_fields /\ (f ∈ cond_fields -> f = st_ia32_efer).
Definition cst (H A : field -> Z) (R D W : list field) (s : mach) : Prop := exists L D',
  vst H A L D' W s /\ R ⊆ L /\ D ⊆ D' /\ (forall f, f ∈ L -> loadable f) /\ (st_ia32_efer ∈ L -> entry_entry ∈ L).

Lemma cst_weaken H A R R' D D' W s : cst H A R D W s -> R' ⊆ R -> D' ⊆ D -> cst H A R' D' W s.
Proof.
  intros (L & D0 & Hv & HR & HD & HL & He) HR' HD'. exists L, D0. split_and!; [done| | |done|done]; by etrans.
Qed.

Lemma cst_fits H A R D W s f : cst H A R D W s -> ok_field vmx_supported f -> fits (width f) (A f).
Proof. intros (L & D' & Hv & _) Hf. by eapply vst_fits. Qed.

Lemma loaded_cons f L : loadable f -> (forall g, g ∈ L -> loadable g) -> forall g, g ∈ f :: L -> loadable g.
Proof. intros Hf HL g [->|Hg]%elem_of_cons; auto. Qed.
Lemma loaded_entry f L : (f = st_ia32_efer -> entry_entry ∈ L) ->
  (st_ia32_efer ∈ L -> entry_entry ∈ L) -> st_ia32_efer ∈ f :: L -> entry_entry ∈ f :: L.
Proof. intros Hf HL [Hg|Hg]%elem_of_cons; right; auto. Qed.
Lemma cons_sub {A} (x : A) l l' : l ⊆ l' -> x :: l ⊆ x :: l'.
Proof. intros Hl y. rewrite !elem_of_cons. intuition. Qed.

Lemma cst_pre H A R D W s f Q : ok_field vmx_supported f -> loadable f -> (f = st_ia32_efer -> entry_entry ∈ R) ->
  f ∉ W -> cst H A R D W s ->
  (forall v, cst H A (f :: R) D W (with_vmcs v s) -> Q tt (with_vmcs v s)) -> wp (pre_access f) s Q.
Proof.
  intros Hf Hl Hn Hw (L & D' & Hv & HR & HD & HL & He) HQ. apply (wp_pre_access H A L D' W s f); [done..|].
  intros v Hv'. apply HQ. exists (f :: L), D'. split_and!; [done|by apply cons_sub|done|by apply loaded_cons|].
  apply loaded_entry; auto.
Qed.
(** Efer is loaded before the entry controls in one place. *)
Lemma cst_pre_efer {B} (k : unit -> M mach B) H A R D W s Q : entry_entry ∉ W -> st_ia32_efer ∉ W -> ok_field vmx_supported entry_entry ->
  ok_field vmx_supported st_ia32_efer -> cst H A R D W s ->
  (forall v, cst H A (entry_entry :: st_ia32_efer :: R) D W (with_vmcs v s) -> wp (k tt) (with_vmcs v s) Q) ->
  wp (pre_access st_ia32_efer ≫= fun _ => pre_access entry_entry ≫= k) s Q.
Proof.
  intros HeW HfW Hoe Hof (L & D' & Hv & HR & HD & HL & He) HQ. apply wp_bind.
  apply (wp_pre_access H A L D' W s st_ia32_efer); [done..|]. intros v1 Hv1. apply wp_bind.
  eapply (wp_pre_access H A _ D' W _ entry_entry); [done|done|exact Hv1|]. intros v2 Hv2.
  change (with_vmcs v2 (with_vmcs v1 s)) with (with_vmcs v2 s) in *. apply HQ.
  exists (entry_entry :: st_ia32_efer :: L), D'. split_and!; [done|by do 2 apply cons_sub|done| |].
  - apply loaded_cons; [|apply loaded_cons; [|done]]; (split; [by apply (bool_decide_eq_true_1 _); vm_compute|]).
    + intros Hc. exfalso. revert Hc. by apply (bool_decide_eq_true_1 _); vm_compute.
    + done.
  - intros _. by left.
Qed.
Lemma cst_post H A R D W s f Q : ok_field vmx_supported f -> loadable f -> (f = st_ia32_efer -> entry_entry ∈ R) ->
  f ∈ W \/ f ∈ R -> cst H A R D W s ->
  (forall v, cst H A (f :: R) (f :: D) (filter (fun g => g <> f) W) (with_vmcs v s) -> Q tt (with_vmcs v s)) ->
  wp (post_access f) s Q.
Proof.
  intros Hf Hl Hn Hw (L & D' & Hv & HR & HD & HL & He) HQ.
  apply (wp_post_access H A L D' W s f); [done|intuition|done|].
  intros v Hv'. apply HQ. exists (f :: L), (f :: D'). split_and!; [done|by apply cons_sub|by apply cons_sub|by apply loaded_cons|].
  apply loaded_entry; auto.
Qed.
Lemma cst_getf H A R D W s f Q : ok_field vmx_supported f -> f ∈ W \/ f ∈ R -> cst H A R D W s ->
  Q (A f) s -> wp (getf f) s Q.
Proof. intros Hf Hw (L & D' & Hv & HR & _) HQ. apply (wp_getf H A L D' W s f); [done|intuition|done|done]. Qed.
Lemma cst_putf H A R D W s f x Q : ok_field vmx_supported f -> fits (width f) x -> cst H A R D W s ->
  (forall v, cst H (upd A f x) R D (f :: W) (with_vmcs v s) -> Q tt (with_vmcs v s)) -> wp (putf f x) s Q.
Proof.
  intros Hf Hx (L & D' & Hv & HR & HD & HL & He) HQ. apply (wp_putf H A L D' W s f x); [done..|].
  intros v Hv'. apply HQ. by exists L, D'.
Qed.
Lemma cst_put_fld H A R D W s f lo w x Q : ok_field vmx_supported f -> f ∈ W \/ f ∈ R ->
  0 <= lo -> 0 <= w -> lo + w <= width f -> cst H A R D W s ->
  (forall v, cst H (upd A f (set_bits (A f) lo w x)) R D (f :: W) (with_vmcs v s) -> Q tt (with_vmcs v s)) ->
  wp (put_fld f lo w x) s Q.
Proof.
  intros Hf Hw Hlo Hwd Hle (L & D' & Hv & HR & HD & HL & He) HQ.
  apply (wp_put_fld H A L D' W s f lo w x); [done|intuition|done..|].
  intros v Hv'. apply HQ. by exists L, D'.
Qed.
Lemma cst_put_fld_stale H A R D W s f lo w x Q : ok_field vmx_supported f ->
  0 <= lo -> 0 <= w -> lo + w <= width f -> cst H A R D W s ->
  (forall old v, fits (width f) old ->
     cst H (upd A f (set_bits old lo w x)) R D (f :: W) (with_vmcs v s) -> Q tt (with_vmcs v s)) ->
  wp (put_fld f lo w x) s Q.
Proof.
  intros Hf Hlo Hwd Hle (L & D' & Hv & HR & HD & HL & He) HQ.
  apply (wp_put_fld_stale H A L D' W s f lo w x); [done..|].
  intros old v Ho Hv'. apply (HQ old); [done|]. by exists L, D'.
Qed.

(** A change of a copy that was changed or marked already. *)
Lemma cst_dedup H A R D W f s : f ∈ W \/ f ∈ D -> cst H A R D (f :: W) s -> cst H A R D W s.
Proof.
  intros HW (L & D' & Hv & HR & HD & HL & He). exists L, D'. split_and!; [|done..].
  destruct HW as [HW|HW]; [|eapply vst_marked; [by apply HD|exact Hv]].
  intros g Hg. destruct (Hv g Hg) as [F1 F2 F3 F4 F5 F6]. split; try done.
  - intros Hw. apply F3. rewrite elem_of_cons. tauto.
  - intros Hd Hw. apply F4; [done|]. by intros [->|]%elem_of_cons.
Qed.

(** The rule of a whole exit.  What the processor holds at the resumption are
    the worths, with the bits it fixes. *)
Definition resumed (A H' : field -> Z) (W : list field) (rsp : Z) : Prop := H' st_rsp = rsp /\
  forall f, ok_field vmx_supported f -> f ∉ W -> f <> st_rsp ->
    H' f = A f \/ H' f = fix_val (fixof vmx_cfg f) (A f).

Definition exit_post (H : field -> Z) (Q : vm_code -> (field -> Z) -> mach -> Prop) (rc : vm_code) (s2 : mach) : Prop :=
  exists A R D W, cst H A R D W s2 /\ fits 64 (m_gpr s2 GPR64_RSP) /\
    (entry_entry ∉ W) /\ bit (A entry_entry) 15 = true /\
    forall H', resumed A H' W (m_gpr s2 GPR64_RSP) -> Q rc H' s2.

Lemma resumed_plain A H' W rsp f : resumed A H' W rsp -> ok_field vmx_supported f -> f ∉ W -> f <> st_rsp ->
  f ∉ fixed_fields -> H' f = A f.
Proof.
  intros [_ HA] Hf HW Hr Hfx. destruct (HA f Hf HW Hr) as [E|E]; rewrite E; [done|]. by rewrite fixof_plain.
Qed.
End handlers.

Section entry.
Context {V : Vmx}.

(** The state at the exit of a vm whose fields are worth [H]. *)
Definition at_exit (H : field -> Z) (s : mach) : Prop :=
  fresh vmx_supported (m_vmcs s) /\ forall f, ok_field vmx_supported f -> hw (m_vmcs s) f = H f.

Lemma at_exit_vst H s : at_exit H s -> vst H H [] [] [] s.
Proof.
  intros [Hfr HH] f Hf. pose proof (fresh_clean _ _ _ Hfr Hf) as Hd. destruct Hfr as [Hc Hr].
  destruct (Hc f Hf) as [Ha [_ _ L3 L4]]. rewrite (HH f Hf) in *. rewrite (Hr f Hf), Hd in Ha.
  assert (f ∉ []) as Hn by apply not_elem_of_nil.
  split; try done. by intros [?|?].
Qed.
Lemma vst_at_exit H A s : vst H A [] [] [] s -> at_exit H s.
Proof.
  intros Hv. split; [split; [by eapply vst_cached|]|]; intros f Hf; destruct (Hv f Hf) as [F1 _ _ _ _ _].
  - destruct (at_flags _ _ _ _ _ _ F1) as (-> & _). by apply bool_decide_false, not_elem_of_nil.
  - apply F1.
Qed.

Lemma wp_pre_list l : forall H A L s, Forall (ok_field vmx_supported) l -> vst H A L [] [] s ->
  wp (for_each l pre_access) s (fun _ s' => vst H A (rev l ++ L) [] [] s' /\ exists v, s' = with_vmcs v s).
Proof.
  induction l as [|f l IH]; intros H A L s Hl Hv; cbn [for_each].
  { apply wp_ret. split; [done|]. exists (m_vmcs s). by destruct s. }
  apply Forall_cons in Hl as [Hf Hl]. apply wp_bind.
  apply (wp_pre_access H A L [] [] s f); [done|apply not_elem_of_nil|done|]. intros v Hv'.
  eapply wp_mono; [by apply IH|]. intros [] s' [H1 [v' ->]]. cbn [rev]. rewrite <- app_assoc.
  split; [done|]. by exists v'.
Qed.

(** After the reads of the exit, the fields the handlers count on are loaded,
    and the saved stack pointer is the vm's. *)
Lemma wp_pre_hdl H s : at_exit H s ->
  wp vmx_vmexit_pre_hdl s (fun _ s' => vst H H pre_hdl_fields [] [] s' /\
    exists v, s' = with_gpr (fun r => if decide (GPR64_RSP = r) then H st_rsp else m_gpr s r) (with_vmcs v s)).
Proof.
  intros He%at_exit_vst. unfold vmx_vmexit_pre_hdl. apply wp_bind. eapply wp_mono; [apply (wp_pre_list _ H H [])|].
  - unfold pre_hdl_fields. repeat (apply Forall_cons_2; [fld_ok|]). apply Forall_nil_2.
  - done.
  - intros [] s' [Hv [v ->]]. hstep. hstep. hstep. hstep. split; [|by exists v].
    eapply vst_weaken; [exact Hv|done|]. intros f.
    by rewrite app_nil_r, !list_elem_of_In, <- in_rev.
Qed.

(** What the processor holds after the commit. *)
Definition committed (H A : field -> Z) (D : list field) (f : field) : Z :=
  if bool_decide (f ∈ D) then fix_val (fixof vmx_cfg f) (A f) else H f.

(** The commit reaches the fields [L]: the optional ones are not used, and the
    copy of efer only when the entry loads it. *)
Definition committable (H A : field -> Z) (L D W : list field) : Prop := forall f, f ∈ L ->
  f ∈ vmcs_fields /\ (f ∈ cond_fields ->
    f = st_ia32_efer /\ entry_entry ∈ L /\ (entry_entry ∉ D -> entry_entry ∉ W) /\
    bit (committed H A D entry_entry) 15 = true).

Lemma vmx_has_flushed e f : f ∈ vmcs_fields -> flushed vmx_cfg e f = true -> ok_field vmx_supported f.
Proof.
  intros Hin Hfl. destruct (decide (f ∈ optional_fields)).
  - by apply (vmx_optional f e).
  - by apply vmx_implements.
Qed.

Lemma flags_of H A L D W s f : vst H A L D W s -> ok_field vmx_supported f ->
  rd (m_vmcs s) f = bool_decide (f ∈ L) /\ dt (m_vmcs s) f = bool_decide (f ∈ D) /\ hw (m_vmcs s) f = H f.
Proof.
  intros Hv Hf. destruct (Hv f Hf) as [F1 _ _ _ _ _].
  by destruct (at_flags _ _ _ _ _ _ F1) as (-> & -> & _ & ->).
Qed.

Lemma committed_fits H A L D W s f : vst H A L D W s -> ok_field vmx_supported f ->
  fits (width f) (committed H A D f).
Proof.
  intros Hv Hf. unfold committed. destruct (Hv f Hf) as [_ _ _ _ _ F6]. case_bool_decide; [|done].
  apply fix_val_fits; [apply vmx_cfg_ok|by eapply vst_fits].
Qed.

Lemma copy_committed H A L D W s : vst H A L D W s -> entry_entry ∈ L -> ok_field vmx_supported entry_entry ->
  (entry_entry ∉ D -> entry_entry ∉ W) ->
  copy_after vmx_cfg (m_vmcs s) entry_entry = committed H A D entry_entry.
Proof.
  intros Hv HL Hf Hw. destruct (flags_of _ _ _ _ _ _ _ Hv Hf) as (_ & E2 & _). unfold copy_after, committed.
  rewrite E2. destruct (Hv entry_entry Hf) as [_ _ F3 F4 _ _]. rewrite F3 by (by left).
  case_bool_decide; auto.
Qed.

(** A field of the commit: the changes that are not marked are dropped. *)
Lemma committed_field H A L D W s v f : vst H A L D W s -> ok_field vmx_supported f ->
  committed_at vmx_cfg (m_vmcs s) v f -> rd v f = false /\ field_ok v f /\ hw v f = committed H A D f.
Proof.
  intros Hv Hf Hat. destruct (at_flags _ _ _ _ _ _ Hat) as (R1 & _ & _ & R4).
  assert (hw_after vmx_cfg (m_vmcs s) f = committed H A D f) as E.
  { destruct (flags_of _ _ _ _ _ _ _ Hv Hf) as (_ & E2 & E3). unfold hw_after.
    pose proof (committed_fits _ _ _ _ _ _ _ Hv Hf) as Hfi. unfold committed in *.
    rewrite E2, E3. case_bool_decide as HD; [|done]. destruct (Hv f Hf) as [_ F2 F3 _ _ _].
    rewrite F3 by auto. by apply hw_val_id. }
  split_and!; [done| |by rewrite R4].
  eapply at_field_ok; [exact Hat|]. split; try done.
  - unfold copy_after. destruct (Hv f Hf) as [_ _ _ _ F5 _]. case_match; [|done].
    apply fix_val_fits; [apply vmx_cfg_ok|done].
  - rewrite E. by eapply committed_fits.
Qed.

Lemma wp_commit H A L D W s : vst H A L D W s -> committable H A L D W ->
  wp (on_vmcs (vmx_vmcs_commit vmx_supported vmx_cfg)) s (fun _ s' =>
    at_exit (committed H A D) s' /\ exists v, s' = with_vmcs v s).
Proof.
  intros Hv Hc. apply wp_on_vmcs. eapply wp_mono; [apply commit_J; [intros f; by apply vmx_has_flushed|]|].
  { intros f Hf. destruct (flags_of _ _ _ _ _ _ _ Hv Hf) as (-> & -> & ->). apply (Hv f Hf). }
  intros [] v HJ. split; [|by exists v].
  assert (forall f, ok_field vmx_supported f -> rd v f = false /\ field_ok v f /\ hw v f = committed H A D f) as Hall.
  { intros f Hf. specialize (HJ f). cbn beta in HJ.
    destruct (bool_decide (f ∈ vmcs_fields) && _) eqn:Ef; [by eapply committed_field|].
    assert (f ∉ L) as HnL.
    { intros HL. destruct (Hc f HL) as [Hin Hcond]. rewrite (bool_decide_true _ Hin) in Ef. simpl in Ef.
      destruct (decide (f ∈ cond_fields)) as [Hcf|Hncf]; [|by rewrite flushed_uncond in Ef].
      destruct (Hcond Hcf) as (-> & HeL & HeW & Hbit). assert (ok_field vmx_supported entry_entry) as Hoe by fld_ok.
      assert (copy_after vmx_cfg (m_vmcs s) entry_entry = committed H A D entry_entry) as Ec by by eapply copy_committed.
      rewrite Ec in Ef. change (flushed vmx_cfg ?e st_ia32_efer) with (bit e 15) in Ef. congruence. }
    destruct (flags_of _ _ _ _ _ _ _ Hv Hf) as (E1 & E2 & E3), (same_flags _ _ _ HJ) as (S1 & S2 & _).
    assert (f ∉ D) as HnD by (destruct (Hv f Hf); auto).
    split_and!; [by rewrite S1, E1, bool_decide_false| |].
    - destruct (Hv f Hf) as [F1 _ _ _ F5 F6]. rewrite !bool_decide_false in F1 by done.
      destruct HJ as [J1 J2 J3]. eapply (at_field_ok _ _ false false (val (m_vmcs s) f) (H f)); [|by split].
      destruct F1. split; congruence.
    - rewrite (sa_hw _ _ _ HJ), E3. unfold committed. by rewrite bool_decide_false. }
  split; [split|]; intros f Hf; by destruct (Hall f Hf) as (? & ? & ?).
Qed.

Lemma wp_post_hdl H A L D W s : vst H A L D W s -> fits 64 (m_gpr s GPR64_RSP) ->
  committable H (upd A st_rsp (m_gpr s GPR64_RSP)) (st_rsp :: L) (st_rsp :: D) (filter (fun g => g <> st_rsp) (st_rsp :: W)) ->
  wp vmx_vmexit_post_hdl s (fun _ s' =>
    at_exit (committed H (upd A st_rsp (m_gpr s GPR64_RSP)) (st_rsp :: D)) s' /\
    exists v, s' = with_vmcs v (with_emu_done false s)).
Proof.
  intros Hv Hr Hc. unfold vmx_vmexit_post_hdl. apply wp_bind, wp_gets, wp_bind.
  eapply wp_putf; [fld_ok|exact Hr|exact Hv|]. intros v1 Hv1. apply wp_bind.
  eapply wp_post_access; [fld_ok|left; by left|exact Hv1|]. intros v2 Hv2. do 2 hstep.
  eapply wp_mono; [eapply wp_commit; [exact Hv2|exact Hc]|]. intros [] s' [H1 [v' ->]].
  split; [exact H1|]. by exists v'.
Qed.

(** ** A whole exit

    The handler [h] between the two ends of [vmx_vmexit_handler]. *)
Definition vm_exit (h : M mach vm_code) : M mach vm_code :=
  vmx_vmexit_pre_hdl ;; rc ← h; vmx_vmexit_post_hdl ;; mret rc.

Definition exit_start (H : field -> Z) (s s1 : mach) : Prop := exists v,
  s1 = with_gpr (fun r => if decide (GPR64_RSP = r) then H st_rsp else m_gpr s r) (with_vmcs v s).
Definition exit_end (s2 s3 : mach) : Prop := exists v, s3 = with_vmcs v (with_emu_done false s2).

Lemma wp_vm_exit H s h (Q : vm_code -> (field -> Z) -> list field -> mach -> Prop) : at_exit H s ->
  (forall s1, exit_start H s s1 -> vst H H pre_hdl_fields [] [] s1 ->
     wp h s1 (fun rc s2 => exists A L D W, vst H A L D W s2 /\ fits 64 (m_gpr s2 GPR64_RSP) /\
       committable H (upd A st_rsp (m_gpr s2 GPR64_RSP)) (st_rsp :: L) (st_rsp :: D)
         (filter (fun g => g <> st_rsp) (st_rsp :: W)) /\
       Q rc A D s2)) ->
  wp (vm_exit h) s (fun rc s3 => exists A D s2, Q rc A D s2 /\ exit_end s2 s3 /\
    at_exit (committed H (upd A st_rsp (m_gpr s2 GPR64_RSP)) (st_rsp :: D)) s3).
Proof.
  intros He Hh. unfold vm_exit. apply wp_bind. eapply wp_mono; [by apply wp_pre_hdl|].
  intros [] s1 [Hv Hs1]. apply wp_bind. eapply wp_mono; [by apply Hh|].
  intros rc s2 (A & L & D & W & Hv2 & Hr & Hc & HQ). apply wp_bind.
  eapply wp_mono; [by eapply wp_post_hdl|]. intros [] s3 [He3 Hs3]. apply wp_ret. by exists A, D, s2.
Qed.
(** The processor leaves the "load efer" bit of the entry controls free. *)
Definition loads_efer : Prop := bit (allow_1 (vmx_fx_entry vmx_cfg)) 15 = true.

(** A bit the processor leaves free. *)
Lemma fix_bit f fx v i : fixof vmx_cfg f = Some fx -> bit (allow_1 fx) i = true ->
  bit v i = true \/ bit (allow_0 fx) i = false -> bit (fix_val (fixof vmx_cfg f) v) i = bit v i.
Proof.
  intros -> H1 H0. unfold fix_val, vmx_set_fixed, bit in *. rewrite Z.lor_spec, Z.land_spec, H1, andb_true_r.
  destruct H0 as [E|E]; rewrite E; [done|apply orb_false_r].
Qed.

Lemma resumed_bit A H' W rsp f fx i : resumed A H' W rsp -> ok_field vmx_supported f -> f ∉ W -> f <> st_rsp ->
  fixof vmx_cfg f = Some fx -> bit (allow_1 fx) i = true -> bit (A f) i = true \/ bit (allow_0 fx) i = false ->
  bit (H' f) i = bit (A f) i.
Proof.
  intros [_ HA] Hf HW Hr Hfx H1 H0. destruct (HA f Hf HW Hr) as [E|E]; rewrite E; [done|]. by eapply fix_bit.
Qed.

Lemma cst_committable H A R D0 W s x : loads_efer -> cst H A R D0 W s -> entry_entry ∉ W -> bit (A entry_entry) 15 = true ->
  exists L D, vst H A L D W s /\
    committable H (upd A st_rsp x) (st_rsp :: L) (st_rsp :: D) (filter (fun g => g <> st_rsp) (st_rsp :: W)).
Proof.
  intros Hle (L & D & Hv & _ & _ & HL & He) HW Hb. exists L, D. split; [done|].
  intros f [->|Hf]%elem_of_cons.
  { split; [elem|]. intros Hc. exfalso. revert Hc. by apply (bool_decide_eq_true_1 _); vm_compute. }
  destruct (HL f Hf) as [H1 H2]. split; [done|]. intros Hc. specialize (H2 Hc). subst f. specialize (He Hf).
  split_and!; [done|by right| |].
  - intros _. rewrite list_elem_of_filter, elem_of_cons. intros [_ [?|?]]; done.
  - unfold committed. rewrite upd_ne by done. case_bool_decide as Hd.
    { by erewrite fix_bit; [exact Hb|reflexivity|exact Hle|left]. }
    destruct (Hv entry_entry) as [_ _ _ F4 _ _]; [fld_ok|]. rewrite <- F4; [done| |done].
    intros ?. apply Hd. by right.
Qed.

Lemma committed_resumed H A L D W s x : vst H A L D W s ->
  resumed A (committed H (upd A st_rsp x) (st_rsp :: D)) W x.
Proof.
  intros Hv. split.
  - unfold committed. rewrite bool_decide_true by (by left). rewrite upd_eq, fixof_plain; [done|].
    by apply (bool_decide_eq_true_1 _); vm_compute.
  - intros f Hf HW Hn. unfold committed. rewrite upd_ne by done.
    case_bool_decide as Hd; [by right|left]. destruct (Hv f Hf) as [_ _ _ F4 _ _]. symmetry. apply F4; [|done].
    intros ?. apply Hd. by right.
Qed.

Lemma cst_start H s : vst H H pre_hdl_fields [] [] s -> cst H H pre_hdl_fields [] [] s.
Proof.
  intros Hv. exists pre_hdl_fields, []. split_and!; [done|done|done| |].
  - intros f Hf. assert (Forall loadable pre_hdl_fields) as Hall; [|rewrite Forall_forall in Hall; by apply Hall].
    unfold pre_hdl_fields.
    repeat (apply Forall_cons_2; [split; [elem|intros Hc; exfalso; revert Hc; by apply (bool_decide_eq_true_1 _); vm_compute]|]).
    apply Forall_nil_2.
  - intros Hc. exfalso. revert Hc. by apply (bool_decide_eq_true_1 _); vm_compute.
Qed.

(** The start of an exit. *)
Lemma exit_started H s : at_exit H s ->
  exists s1, vmx_vmexit_pre_hdl s = Some (tt, s1) /\ exit_start H s s1 /\ cst H H pre_hdl_fields [] [] s1.
Proof.
  intros He. destruct (wp_exists _ _ _ (wp_pre_hdl H s He)) as ([] & s1 & E & Hv & Hs). exists s1.
  split_and!; [done|done|by apply cst_start].
Qed.

Lemma cst_vm_exit H s h (Q : vm_code -> (field -> Z) -> mach -> Prop) : loads_efer -> at_exit H s ->
  (forall s1, exit_start H s s1 -> cst H H pre_hdl_fields [] [] s1 -> wp h s1 (exit_post H Q)) ->
  wp (vm_exit h) s (fun rc s3 => exists H' s2, Q rc H' s2 /\ exit_end s2 s3 /\ at_exit H' s3).
Proof.
  intros Hle He Hh.
  eapply wp_mono; [apply (wp_vm_exit H s h (fun rc A D s2 => exists L W, vst H A L D W s2 /\
    forall H', resumed A H' W (m_gpr s2 GPR64_RSP) -> Q rc H' s2) He)|].
  - intros s1 Hs1 Hv1. eapply wp_mono.
    + apply Hh; [done|by apply cst_start].
    + intros rc s2 (A & R & D & W & Hc & Hr & HW & Hb & HQ).
      destruct (cst_committable H A R D W s2 (m_gpr s2 GPR64_RSP) Hle Hc HW Hb) as (L & D' & Hv & Hcm).
      exists A, L, D', W. split_and!; [done|done|done|]. by exists L, W.
  - intros rc s3 (A & D & s2 & (L & W & Hv & HQ) & Hs3 & He3). eexists _, s2.
    split_and!; [apply HQ; by eapply committed_resumed|exact Hs3|exact He3].
Qed.
End entry.

(** The steps of a handler, on [cst]. *)
Ltac mem := solve [repeat first [eassumption | apply list_elem_of_here | apply list_elem_of_further]].
Ltac nomem := first [assumption | apply not_elem_of_nil | elem |
  repeat (apply not_elem_of_cons; split; [discriminate|]); first [assumption | apply not_elem_of_nil]].
Ltac held := first [left; mem | right; mem].
Ltac load_ok := split; [elem |
  let Hc := fresh in intros Hc; first [reflexivity | exfalso; revert Hc; apply (bool_decide_eq_true_1 _); vm_compute; reflexivity]].
Ltac efer_ok := first [let Hc := fresh in intros Hc; discriminate Hc | intros _; mem].

Ltac closed_list W := lazymatch W with nil => idtac | _ :: ?l => closed_list l end.
Ltac fold_vmcs Hv := try match goal with
  | |- context [with_vmcs ?v (with_vmcs ?v' ?s)] =>
      change (with_vmcs v (with_vmcs v' s)) with (with_vmcs v s) in Hv |- *
  end.
Ltac cput Hv := first [apply cst_dedup in Hv; [|held] | idtac].
Ltac cstep :=
  lazymatch goal with
  | |- wp (_ ≫= _) _ _ => apply wp_bind
  | Hv : cst ?H ?A ?R ?D ?W ?s |- wp (pre_access ?f) ?s _ =>
      apply (cst_pre H A R D W s f); [fld_ok|load_ok|efer_ok|nomem|exact Hv|]; clear Hv; intros ? Hv; fold_vmcs Hv; cbn beta
  | Hv : cst ?H ?A ?R ?D ?W ?s |- wp (post_access ?f) ?s _ =>
      apply (cst_post H A R D W s f); [fld_ok|load_ok|efer_ok|held|exact Hv|]; clear Hv; intros ? Hv;
      try (closed_list W; let W' := eval vm_compute in (filter (fun g => g <> f) W) in
           change (filter (fun g => g <> f) W) with W' in Hv); fold_vmcs Hv; cbn beta
  | Hv : cst ?H ?A ?R ?D ?W ?s |- wp (getf ?f) ?s _ =>
      apply (cst_getf H A R D W s f); [fld_ok|held|exact Hv|]; upd_simpl; cbn beta
  | Hv : cst ?H ?A ?R ?D ?W ?s |- wp (put_fld ?f ?lo ?w ?x) ?s _ =>
      first [apply (cst_put_fld H A R D W s f lo w x); [fld_ok|held|done|done|vm_compute; done|exact Hv|];
             clear Hv; intros ? Hv
            |apply (cst_put_fld_stale H A R D W s f lo w x); [fld_ok|done|done|vm_compute; done|exact Hv|];
             clear Hv; intros ? ? ? Hv];
      cput Hv; upd_simpl_in Hv; fold_vmcs Hv; cbn beta
  | Hv : cst ?H ?A ?R ?D ?W ?s |- wp (putf ?f ?x) ?s _ =>
      apply (cst_putf H A R D W s f x); [fld_ok| |exact Hv|clear Hv; intros ? Hv; cput Hv; fold_vmcs Hv; cbn beta]
  | |- wp (get_gpr _) _ _ => apply wp_gets; cbn beta
  | |- wp (put_gpr _ _) _ _ => unfold put_gpr
  | |- wp (put_gpr_fld _ _ _ _) _ _ => unfold put_gpr_fld
  | |- wp (gets _) _ _ => apply wp_gets; cbn beta
  | Hv : cst ?H ?A ?R ?D ?W ?s |- wp (modify ?g) ?s _ =>
      apply wp_modify; change (cst H A R D W (g s)) in Hv; cbn beta in Hv |- *
  | |- wp (mret _) _ _ => apply wp_ret; cbn beta
  | |- wp (when _ _) _ _ => apply wp_when; cbv iota
  end.

(** All the paths of a handler. *)
Ltac by_cases := repeat first [progress repeat cstep | wp_if; cbv iota].

(** The fields and the loaded copies it leaves. *)
Ltac upd_other Hf := rewrite ?upd_ne by (intros ->; apply Hf; elem).
Ltac pre_ok := let f := fresh in let Hf := fresh in
  intros f Hf; repeat first [exact Hf | apply list_elem_of_further].

(** ** A machine *)

#[refine] Definition ex_vmx : Vmx := {|
  vmx_supported := ex_supported; vmx_cfg := ex_cfg; vmx_feat_exit_dt := true;
  vmx_msr_proxy := false; vmx_rdmsr _ := 0; vmx_cpuid _ _ := (0, 0, 0xffffffff, 0) |}.
Proof.
  - intros f Hf _. by apply ex_supported_fields.
  - intros f e Hf _ _. by apply ex_supported_fields.
  - exact ex_cfg_ok.
Defined.

(** At an exit, with the values [h] in the processor and [g] in the saved
    registers. *)
Definition ex_mach (h : field -> Z) (g : Z -> Z) (efer dflt : Z) (denied : bool) (m : gmap Z Z) : mach :=
  mk_mach (mk_vmcs (fun _ => 0) encode h) g efer dflt 0 0x3ff 0x3ff (fun _ => denied) 0 0 1 (fun _ => 0) 0 false m [].

Lemma ex_mach_at_exit h g efer dflt denied m : (forall f, fits (width f) (h f)) ->
  at_exit (V := ex_vmx) h (ex_mach h g efer dflt denied m).
Proof.
  intros Hh.
  assert (forall f, ok_field ex_supported f -> at_ (mk_vmcs (fun _ => 0) encode h) f false false 0 (h f)) as Hat.
  { intros f Hf. split; [symmetry; by apply (mk_enc_clean ex_supported)|done|done]. }
  split; [split|]; intros f Hf.
  - eapply at_field_ok; [by apply Hat|]. split; try done. split; [done|].
    apply Z.pow_pos_nonneg; [done|apply width_pos].
  - by destruct (at_flags _ _ _ _ _ _ (Hat f Hf)).
  - done.
Qed.
