(* ===== verification/NptTables.v ===== *)
(** * The tables of the nested page mapper

    The tables are described by a ghost map [G] that gives each table page its
    level and the block of addresses it covers; the tables being filled, not
    linked yet, are a set [F].  A level [l] entry covers the addresses of a
    block of [2 ^ (3 + 9 l)] bytes, [blk l].  This file has the
    invariant of the tables, the effect of each kind of write on it and on the
    set of mapped addresses, and the logic of runs the operations are proved
    with. *)

From S2P Require Import Prelude.
From S2P Require Import Monad.
From S2P Require Import Pagemem.
From S2P Require Import Alloc.
From S2P Require Import NpgOps.
From S2P Require Import NptMap.

Definition blk (l v : Z) : Z := v / 2 ^ (3 + 9 * l).

Lemma blk_up l v : 0 <= l -> blk (l + 1) v = blk l v / 512.
Proof.
  intros. unfold blk. rewrite Z.div_div by (try apply Z.pow_nonzero; lia).
  f_equal. change 512 with (2 ^ 9). rewrite <- Z.pow_add_r by lia. f_equal. lia.
Qed.

Lemma blk_split l v : 0 <= l -> blk (l + 1) v * 512 + blk l v mod 512 = blk l v.
Proof. intros. rewrite blk_up by done. pose proof (Z.div_mod (blk l v) 512). lia. Qed.

Lemma blk_index l v b i : 0 <= l -> 0 <= i < 512 -> blk l v = b * 512 + i ->
  blk (l + 1) v = b /\ blk l v mod 512 = i.
Proof.
  intros Hl Hi H. rewrite blk_up by done. rewrite H. split.
  - rewrite Z.div_add_l by lia. rewrite Z.div_small by lia. lia.
  - rewrite Z.add_comm, Z.mod_add by lia. by apply Z.mod_small.
Qed.

Lemma blk_above l l' v w : 0 <= l <= l' -> blk l v = blk l w -> blk l' v = blk l' w.
Proof.
  intros [Hl Hle] H. replace l' with (l + Z.of_nat (Z.to_nat (l' - l))) by lia.
  induction (Z.to_nat (l' - l)) as [|n IH]; [by rewrite Z.add_0_r|].
  replace (l + Z.of_nat (S n)) with ((l + Z.of_nat n) + 1) by lia. rewrite !blk_up by lia. by f_equal.
Qed.

Lemma blk_range l v B : 0 <= l -> blk l v = B <-> B * 2 ^ (3 + 9 * l) <= v < (B + 1) * 2 ^ (3 + 9 * l).
Proof.
  intros Hl. unfold blk. assert (0 < 2 ^ (3 + 9 * l)) by (apply Z.pow_pos_nonneg; lia).
  pose proof (Z.div_mod v (2 ^ (3 + 9 * l))). pose proof (Z.mod_pos_bound v (2 ^ (3 + 9 * l))).
  split; [intros <-; nia|]. intros. symmetry. apply (Z.div_unique_pos _ _ _ (v - B * 2 ^ (3 + 9 * l))); nia.
Qed.

(** Entries of page tables do not overlap. *)
Lemma entry64_inj p q i j : is_page p -> is_page q -> 0 <= i < 512 -> 0 <= j < 512 ->
  entry64 p i = entry64 q j -> p = q /\ i = j.
Proof. intros (n & -> & _) (n' & -> & _) Hi Hj. unfold entry64. lia. Qed.

Lemma page_of_nr c : is_page c -> page_addr (wrap 40 (page_nr c)) = c.
Proof.
  intros (n & -> & Hn). unfold page_nr, page_addr. rewrite pg_nr_div by (unfold PG_4K_SHIFT; lia).
  change (2 ^ PG_4K_SHIFT) with 4096. rewrite Z.div_mul, (wrap_id 40) by (try split; lia).
  rewrite pg_addr_mul; [done|unfold PG_4K_SHIFT; lia|]. unfold PG_4K_SHIFT. split; [lia|].
  change (64 - 12) with 52. assert (2 ^ 40 < 2 ^ 52) by (apply Z.pow_lt_mono_r; lia). lia.
Qed.

Lemma zero_page_fold c n m q :
  let m' := fold_left (fun m i => <[entry64 c i := 0]> m) (seqZ 0 (Z.of_nat n)) m in
  (forall i, 0 <= i < Z.of_nat n -> rd0 m' (entry64 c i) = 0) /\
  ((forall i, 0 <= i < Z.of_nat n -> q <> entry64 c i) -> rd0 m' q = rd0 m q).
Proof.
  induction n as [|n [IH1 IH2]]; [split; [lia|done]|]. cbn zeta in *.
  rewrite seqZ_S, Z.add_0_l, fold_left_app. cbn [fold_left].
  split; [intros i Hi|intros Hq]; rewrite rd0_insert; case_decide as Hd; try done.
  - apply IH1. destruct (Z.eq_dec i (Z.of_nat n)) as [->|]; [done|lia].
  - destruct (Hq (Z.of_nat n)); [lia|done].
  - apply IH2. intros i Hi. apply Hq. lia.
Qed.

Lemma rd0_zero_in c m i : 0 <= i < 512 -> rd0 (zero_page c m) (entry64 c i) = 0.
Proof. intros Hi. by apply (zero_page_fold c 512 m 0). Qed.
Lemma rd0_zero_out c m q : (forall i, 0 <= i < 512 -> q <> entry64 c i) -> rd0 (zero_page c m) q = rd0 m q.
Proof. intros Hq. by apply (zero_page_fold c 512 m q). Qed.

(** ** A logic of runs: what holds of the result unless the code panics. *)

Section runs.
Context {NO : NpgOps} {NL : NpgLaws NO} {S : Type}.

Definition runs {X} (m : M S X) (s : S) (Q : X -> S -> Prop) : Prop :=
  match m s with Some (x, s') => Q x s' | None => may_panic end.

Lemma runs_ret {X} (x : X) s Q : Q x s -> runs (mret x) s Q.
Proof. done. Qed.
Lemma runs_bind {X Y} (m : M S X) (k : X -> M S Y) s Q :
  runs m s (fun x s' => runs (k x) s' Q) -> runs (m ≫= k) s Q.
Proof. unfold runs, mbind, M_bind. by destruct (m s) as [[x s']|]. Qed.
Lemma runs_mono {X} (m : M S X) s (Q Q' : X -> S -> Prop) :
  runs m s Q -> (forall x s', Q x s' -> Q' x s') -> runs m s Q'.
Proof. unfold runs. destruct (m s) as [[x s']|]; auto. Qed.

Lemma runs_for n from f (I : Z -> S -> Prop) s : I from s ->
  (forall i s, from <= i < from + Z.of_nat n -> I i s -> runs (f i) s (fun _ => I (i + 1))) ->
  runs (for_from n from f) s (fun _ => I (from + Z.of_nat n)).
Proof.
  revert from s. induction n as [|n IH]; intros from s HI Hf.
  - apply runs_ret. by rewrite Z.add_0_r.
  - cbn [for_from]. apply runs_bind. eapply runs_mono; [apply Hf; [lia|exact HI]|]. intros [] s' HI'.
    replace (from + Z.of_nat (Datatypes.S n)) with ((from + 1) + Z.of_nat n) by lia.
    apply IH; [exact HI'|]. intros. apply Hf; [lia|done].
Qed.

Lemma runs_table f (I : Z -> S -> Prop) s : I 0 s ->
  (forall i s, 0 <= i < 512 -> I i s -> runs (f i) s (fun _ => I (i + 1))) ->
  runs (for_table f) s (fun _ => I 512).
Proof. intros H0 H1. apply (runs_for 512 0); [done|]. intros. apply H1; [lia|done]. Qed.
End runs.

(** ** The tables and the addresses they map *)

Section tables.
Context {NO : NpgOps} {NL : NpgLaws NO} (cfg : npg_cfg).
Implicit Types (G : gmap Z (Z * Z)) (F : gset Z) (m : memory).

(** The three kinds of entries: absent, a page, a table. *)
Definition leaf (l e : Z) : bool := npg_present e && ((l =? 1) || ((l <? 4) && npg_large e)).
Definition is_tbl (l e : Z) : bool := npg_present e && negb (leaf l e).
Definition frame (l e : Z) : Z :=
  if l =? 1 then e_addr e else if l =? 2 then pde_page_addr e else pdpe_page_addr e.

(** An entry of the block [B] at level [l]. *)
Record entry_ok G (l B e : Z) : Prop := {
  en_absent : npg_present e = false -> npg_large e = false /\ e_addr e = 0;
  en_table : is_tbl l e = true -> G !! page_addr (e_addr e) = Some (l - 1, B);
  en_leaf : leaf l e = true -> frame l e = B /\
    (l = 2 -> skillz_pg_2M cfg = true) /\ (l = 3 -> skillz_pg_1G cfg = true);
}.

Record tables G F (free : list Z) (used : gset Z) m : Prop := {
  t_root : G !! pml4 cfg = Some (4, 0);
  t_page p l b : G !! p = Some (l, b) -> 1 <= l <= 4 /\ is_page p /\ (p ∉ free) /\
    (l = 4 -> p = pml4 cfg) /\ (l < 4 -> p ∈ used);
  t_inj p q x : G !! p = Some x -> G !! q = Some x -> p = q;
  t_ent p l b i : G !! p = Some (l, b) -> 0 <= i < 512 ->
    entry_ok G l (b * 512 + i) (rd0 m (entry64 p i));
  t_link p l b : G !! p = Some (l, b) -> l < 4 -> p ∉ F ->
    exists q, G !! q = Some (l + 1, b / 512) /\ is_tbl (l + 1) (rd0 m (entry64 q (b mod 512))) = true;
}.

(** The addresses mapped by some table: a linked one or one being filled. *)
Definition mapped G m (v : Z) : Prop :=
  exists p l, G !! p = Some (l, blk (l + 1) v) /\ leaf l (rd0 m (entry64 p (blk l v mod 512))) = true.

(** The tables being filled are at level [l] at least. *)
Definition fills (l : Z) F G : Prop := forall c, c ∈ F -> exists k b, G !! c = Some (k, b) /\ l <= k.

(** What an operation on the entry [i] of [p] at level [l] may change: tables
    of a lower level, the entry itself and the addresses of its block. *)
Record upd (l p i B : Z) G m G' m' : Prop := {
  up_tables q k c : l <= k -> G' !! q = Some (k, c) <-> G !! q = Some (k, c);
  up_entries q k c j : l <= k -> G !! q = Some (k, c) -> 0 <= j < 512 ->
    entry64 q j <> entry64 p i -> rd0 m' (entry64 q j) = rd0 m (entry64 q j);
  up_mapped v : blk l v <> B -> mapped G' m' v <-> mapped G m v;
}.

Lemma upd_refl l p i B G m : upd l p i B G m G m.
Proof. by split. Qed.

Lemma upd_trans l p i B G1 m1 G2 m2 G3 m3 :
  upd l p i B G1 m1 G2 m2 -> upd l p i B G2 m2 G3 m3 -> upd l p i B G1 m1 G3 m3.
Proof.
  intros [A1 A2 A3] [B1 B2 B3]. split.
  - intros q k c Hk. by rewrite B1, A1.
  - intros q k c j Hk Hq Hj Hne. rewrite (B2 q k c), (A2 q k c); try done. by apply A1.
  - intros v Hv. by rewrite B3, A3.
Qed.

(** An operation on an entry of a table covering the block. *)
Lemma upd_inner l p i B G0 m0 G m G' m' c j F free used :
  1 <= l -> tables G F free used m -> G !! c = Some (l, B) -> 0 <= j < 512 ->
  upd (l + 1) p i B G0 m0 G m -> upd l c j (B * 512 + j) G m G' m' ->
  upd (l + 1) p i B G0 m0 G' m'.
Proof.
  intros Hl Ht Hc Hj H [A1 A2 A3]. eapply upd_trans; [exact H|]. split.
  - intros q k x Hk. apply A1. lia.
  - intros q k x j' Hk Hq Hj' _. apply (A2 q k x); [lia|done|done|].
    intros He. apply entry64_inj in He as [-> _]; [|by eapply t_page..|done|done].
    rewrite Hc in Hq. injection Hq. lia.
  - intros v Hv. apply A3. intros He. apply Hv. by apply (blk_index l v B j); [lia|..].
Qed.

Lemma upd_fills l l' p i B G m G' m' F : upd l p i B G m G' m' -> l <= l' -> fills l' F G -> fills l' F G'.
Proof.
  intros [A1 _ _] Hl Hf c Hc. destruct (Hf c Hc) as (k & b & Hg & Hk). exists k, b. by rewrite A1 by lia.
Qed.

Lemma fills_weaken l l' F G : l' <= l -> fills l F G -> fills l' F G.
Proof. intros Hl Hf c Hc. destruct (Hf c Hc) as (k & b & ? & ?). exists k, b. split; [done|lia]. Qed.

(** What is done to a table below level [l] does not touch the entries at [l]. *)
Lemma upd_below l p i B c j G m G' m' F free used lc d : tables G F free used m ->
  G !! c = Some (lc, d) -> lc < l -> 0 <= j < 512 -> upd l c j B G m G' m' ->
  upd l p i B G m G' m' /\ forall q k x n, l <= k -> G !! q = Some (k, x) -> 0 <= n < 512 ->
    rd0 m' (entry64 q n) = rd0 m (entry64 q n).
Proof.
  intros Ht Hc Hlc Hj [A1 A2 A3].
  assert (forall q k x n, l <= k -> G !! q = Some (k, x) -> 0 <= n < 512 ->
    rd0 m' (entry64 q n) = rd0 m (entry64 q n)) as He.
  { intros q k x n Hk Hq Hn. apply (A2 q k x n Hk Hq Hn). intros He.
    apply entry64_inj in He as [-> _]; [|by eapply t_page..|done|done].
    rewrite Hc in Hq. injection Hq. lia. }
  split; [|done]. split; [done| |done]. intros q k x n Hk Hq Hn _. by apply (He q k x).
Qed.

(** *** Writes *)

Section facts.
Context {G F free used m} (Ht : tables G F free used m).

Lemma ent_page p l b : G !! p = Some (l, b) -> is_page p.
Proof using Ht. intros H. by apply (t_page _ _ _ _ _ Ht) in H as (_ & ? & _). Qed.

Lemma ent_level p l b : G !! p = Some (l, b) -> 1 <= l <= 4.
Proof using Ht. intros H. by apply (t_page _ _ _ _ _ Ht) in H as (? & _). Qed.

Lemma rd_other p l b i q l' b' j x : G !! p = Some (l, b) -> G !! q = Some (l', b') ->
  0 <= i < 512 -> 0 <= j < 512 -> (q, j) <> (p, i) ->
  rd0 (<[entry64 p i := x]> m) (entry64 q j) = rd0 m (entry64 q j).
Proof using Ht.
  intros Hp Hq Hi Hj Hne. rewrite rd0_insert, decide_False; [done|].
  intros He. apply Hne. apply entry64_inj in He as [-> ->]; [done|by eapply ent_page..|done|done].
Qed.

(** A block that is not a table entry has no linked table below it. *)
Lemma no_table_below p l b i q : G !! p = Some (l + 1, b) -> 0 <= i < 512 -> fills (l + 1) F G ->
  is_tbl (l + 1) (rd0 m (entry64 p i)) = false -> G !! q <> Some (l, b * 512 + i).
Proof using Ht.
  intros Hp Hi Hf Ht' Hq.
  assert (q ∉ F) as HqF.
  { intros Hin. destruct (Hf q Hin) as (k & c & Hg & Hk). rewrite Hq in Hg. injection Hg. lia. }
  pose proof (ent_level _ _ _ Hp).
  destruct (t_link _ _ _ _ _ Ht _ _ _ Hq ltac:(lia) HqF) as (p' & Hp' & Htb).
  rewrite Z.div_add_l, (Z.div_small i), Z.add_0_r in Hp' by lia.
  rewrite (Z.add_comm (b * 512) i), Z.mod_add, (Z.mod_small i) in Htb by lia.
  assert (p' = p) as -> by (by eapply t_inj). congruence.
Qed.

(** The state depends on the entries only. *)
Lemma tables_ext m' : (forall p l b i, G !! p = Some (l, b) -> 0 <= i < 512 ->
    rd0 m' (entry64 p i) = rd0 m (entry64 p i)) ->
  tables G F free used m' /\ forall v, mapped G m' v <-> mapped G m v.
Proof using Ht.
  intros He. split.
  - split; try apply Ht.
    + intros p l b i Hp Hi. rewrite (He p l b i) by done. by apply (t_ent _ _ _ _ _ Ht).
    + intros p l b Hp Hl HF. destruct (t_link _ _ _ _ _ Ht _ _ _ Hp Hl HF) as (q & Hq & Htb).
      exists q. split; [done|]. by rewrite (He q _ _ _ Hq) by (apply Z.mod_pos_bound; lia).
  - intros v. split; intros (p & l & Hp & Hl); exists p, l; split; try done.
    + by rewrite <- (He p _ _ _ Hp) by (apply Z.mod_pos_bound; lia).
    + by rewrite (He p _ _ _ Hp) by (apply Z.mod_pos_bound; lia).
Qed.

Section write.
Context {p l b i : Z} (x : Z) (Hp : G !! p = Some (l, b)) (Hi : 0 <= i < 512).
Let e := rd0 m (entry64 p i).
Let m' := <[entry64 p i := x]> m.

Lemma rd_written : rd0 m' (entry64 p i) = x.
Proof using. unfold m'. by rewrite rd0_insert, decide_True. Qed.

Lemma mapped_outside v : blk l v <> b * 512 + i -> mapped G m' v <-> mapped G m v.
Proof using Ht Hp Hi.
  intros Hv. unfold mapped, m'.
  assert (forall q k, G !! q = Some (k, blk (k + 1) v) ->
    rd0 (<[entry64 p i := x]> m) (entry64 q (blk k v mod 512)) = rd0 m (entry64 q (blk k v mod 512))) as Hr.
  { intros q k Hq. pose proof (ent_level _ _ _ Hq).
    apply (rd_other p l b i q _ _ _ _ Hp Hq); [done|apply Z.mod_pos_bound; lia|].
    intros [= -> <-]. rewrite Hp in Hq. injection Hq as <- ->. apply Hv. symmetry. apply blk_split. lia. }
  split; intros (q & k & Hq & Hl); exists q, k; (split; [done|]); by rewrite ?Hr in * by done.
Qed.

Lemma mapped_keeps v : leaf l e = false \/ leaf l x = true -> mapped G m v -> mapped G m' v.
Proof using Ht Hp Hi.
  intros Hc (q & k & Hq & Hl). exists q, k. split; [done|]. unfold m'.
  destruct (decide ((q, blk k v mod 512) = (p, i))) as [[= -> Hidx]|Hne].
  - rewrite Hp in Hq. injection Hq as <- ->. rewrite Hidx in *. fold m'. rewrite rd_written.
    destruct Hc as [Hc|]; [|done]. unfold e in Hc. congruence.
  - by rewrite (rd_other p l b i q _ _ _ _ Hp Hq) by (done || apply Z.mod_pos_bound; lia).
Qed.

Lemma mapped_loses v : leaf l x = false -> mapped G m' v -> mapped G m v.
Proof using Ht Hp Hi.
  intros Hx (q & k & Hq & Hl). exists q, k. split; [done|]. unfold m' in Hl.
  destruct (decide ((q, blk k v mod 512) = (p, i))) as [[= -> Hidx]|Hne].
  - rewrite Hp in Hq. injection Hq as <- ->. rewrite Hidx in Hl. fold m' in Hl. rewrite rd_written in Hl. congruence.
  - by rewrite (rd_other p l b i q _ _ _ x Hp Hq) in Hl by (done || apply Z.mod_pos_bound; lia).
Qed.

Lemma mapped_here v : leaf l x = true -> blk l v = b * 512 + i -> mapped G m' v.
Proof using Ht Hp Hi.
  intros Hl Hv. pose proof (ent_level _ _ _ Hp).
  destruct (blk_index l v b i) as [Hb Hidx]; [lia|done|done|].
  exists p, l. rewrite Hb, Hidx, rd_written. done.
Qed.

Lemma upd_write : upd l p i (b * 512 + i) G m G m'.
Proof using Ht Hp Hi.
  split; [done| |exact mapped_outside].
  intros q k c j _ Hq Hj Hne. apply (rd_other p l b i q k c j x Hp Hq Hi Hj). congruence.
Qed.

(** Replacing a page or nothing by a page or nothing. *)
Lemma tables_write : is_tbl l e = false -> is_tbl l x = false -> entry_ok G l (b * 512 + i) x ->
  tables G F free used m'.
Proof using Ht Hp Hi.
  intros He Hx Hok. split; try apply Ht.
  - intros q k c j Hq Hj. destruct (decide ((q, j) = (p, i))) as [[= -> ->]|Hne].
    + rewrite Hp in Hq. injection Hq as <- <-. by rewrite rd_written.
    + unfold m'. rewrite (rd_other p l b i q k c j x) by done. by apply (t_ent _ _ _ _ _ Ht).
  - intros q k c Hq Hk HF. destruct (t_link _ _ _ _ _ Ht _ _ _ Hq Hk HF) as (q' & Hq' & Htb).
    exists q'. split; [done|]. destruct (decide ((q', c mod 512) = (p, i))) as [[= -> Hidx]|Hne].
    + rewrite Hp in Hq'. injection Hq' as E1 _. rewrite <- E1, Hidx in Htb. unfold e in He. congruence.
    + unfold m'. by rewrite (rd_other p l b i q' _ _ _ _ Hp Hq') by (done || apply Z.mod_pos_bound; lia).
Qed.
End write.
End facts.

Lemma absent_kinds l e : npg_present e = false -> leaf l e = false /\ is_tbl l e = false.
Proof. intros H. unfold leaf, is_tbl. by rewrite H. Qed.

Lemma absent_ok G l B e : npg_present e = false -> npg_large e = false -> e_addr e = 0 -> entry_ok G l B e.
Proof. intros H H1 H2. destruct (absent_kinds l e H). split; [done|congruence..]. Qed.

Lemma is_tbl_intro l e : l <> 1 -> npg_present e = true -> npg_large e = false -> is_tbl l e = true.
Proof.
  intros Hl Hp Hg. unfold is_tbl, leaf. rewrite Hp, Hg, (proj2 (Z.eqb_neq l 1)), andb_false_r by done. done.
Qed.

Lemma mapped_leaf G m p l b i v : G !! p = Some (l, b) -> 0 <= l -> 0 <= i < 512 ->
  leaf l (rd0 m (entry64 p i)) = true -> blk l v = b * 512 + i -> mapped G m v.
Proof.
  intros Hp Hl Hi Hlf Hv. destruct (blk_index l v b i) as [Hb Hidx]; [lia|done|done|].
  exists p, l. by rewrite Hb, Hidx.
Qed.

Lemma is_tbl_1 e : is_tbl 1 e = false.
Proof. unfold is_tbl, leaf. cbn. by destruct (npg_present e). Qed.

(** A page taken from the pool becomes an empty table. *)
Lemma tables_new G F c free used m l B : tables G F (c :: free) used m -> 1 <= l <= 3 ->
  is_page c -> c ∉ free -> (forall q, G !! q <> Some (l, B)) ->
  let G' := <[c := (l, B)]> G in let m' := zero_page c m in
  tables G' ({[c]} ∪ F) free ({[c]} ∪ used) m' /\ G !! c = None /\
  (forall p k b i, G !! p = Some (k, b) -> 0 <= i < 512 -> rd0 m' (entry64 p i) = rd0 m (entry64 p i)) /\
  forall v, mapped G' m' v <-> mapped G m v.
Proof.
  intros Ht Hl Hc Hcf Hpos G' m'.
  assert (G !! c = None) as HGc.
  { destruct (G !! c) as [[k b]|] eqn:He; [|done].
    apply (t_page _ _ _ _ _ Ht) in He as (_ & _ & Hn & _). list_elem. }
  assert (forall p x, G !! p = Some x -> p <> c) as Hne by congruence.
  assert (forall p k b i, G !! p = Some (k, b) -> 0 <= i < 512 ->
    rd0 m' (entry64 p i) = rd0 m (entry64 p i)) as Hrd.
  { intros p k b i Hp Hi. apply rd0_zero_out. intros j Hj He.
    apply entry64_inj in He as [-> _]; [congruence|by eapply ent_page|done..]. }
  assert (forall i, 0 <= i < 512 -> npg_present (rd0 m' (entry64 c i)) = false /\ rd0 m' (entry64 c i) = 0) as H0.
  { intros i Hi. unfold m'. rewrite rd0_zero_in by done. split; [apply npg_absent_0|done]. }
  split_and!; [|done|exact Hrd|].
  - split.
    + unfold G'. rewrite lookup_insert_ne; [apply Ht|]. intros ->. by rewrite (t_root _ _ _ _ _ Ht) in HGc.
    + intros p k b. unfold G'. rewrite lookup_insert. case_decide as Hd.
      * intros [= <- <-]. subst p. split_and!; [lia|lia|done|done|lia|intros _; apply elem_of_union_l, elem_of_singleton; done].
      * intros Hp. apply (t_page _ _ _ _ _ Ht) in Hp as (? & ? & ? & ? & ?).
        split_and!; [lia|lia|done|list_elem|done|intros; apply elem_of_union_r; auto].
    + intros p q x. unfold G'. rewrite !lookup_insert. do 2 case_decide; subst; try done.
      * intros [= <-] Hq. by destruct (Hpos q).
      * intros Hp [= <-]. by destruct (Hpos p).
      * apply (t_inj _ _ _ _ _ Ht).
    + intros p k b i. unfold G' at 1. rewrite lookup_insert. case_decide as Hd.
      * intros [= <- <-] Hi. subst p. destruct (H0 i Hi) as [Hp ->].
        apply absent_ok; [apply npg_absent_0..|done].
      * intros Hp Hi. rewrite (Hrd p k b i) by done. destruct (t_ent _ _ _ _ _ Ht _ _ _ _ Hp Hi) as [E1 E2 E3].
        split; [done| |done]. intros Htb. unfold G'. rewrite lookup_insert_ne; [by apply E2|].
        intros He. apply E2 in Htb. congruence.
    + intros p k b. unfold G' at 1. rewrite lookup_insert. case_decide as Hd; [intros _ _ HF; destruct HF; subst p; apply elem_of_union_l, elem_of_singleton; done|].
      intros Hp Hk HF. destruct (t_link _ _ _ _ _ Ht _ _ _ Hp Hk) as (q & Hq & Htb); [by intros ?; apply HF, elem_of_union_r|].
      exists q. unfold G'. rewrite lookup_insert_ne by (intros <-; congruence). split; [done|].
      by rewrite (Hrd q _ _ _ Hq) by (apply Z.mod_pos_bound; lia).
  - intros v. split; intros (p & k & Hp & Hlf).
    + unfold G' in Hp. rewrite lookup_insert in Hp. case_decide as Hd.
      * subst p. destruct (H0 (blk k v mod 512)) as [Ha _]; [apply Z.mod_pos_bound; lia|].
        apply (absent_kinds k) in Ha as [Ha _]. congruence.
      * exists p, k. split; [done|]. by rewrite <- (Hrd p _ _ _ Hp) by (apply Z.mod_pos_bound; lia).
    + exists p, k. unfold G'. rewrite lookup_insert_ne by (intros <-; congruence). split; [done|].
      by rewrite (Hrd p _ _ _ Hp) by (apply Z.mod_pos_bound; lia).
Qed.

(** A filled table becomes reachable. *)
Lemma tables_link G F free used m c p l b i x : tables G F free used m -> 1 <= l ->
  G !! p = Some (l + 1, b) -> 0 <= i < 512 -> G !! c = Some (l, b * 512 + i) ->
  is_tbl (l + 1) (rd0 m (entry64 p i)) = false ->
  npg_present x = true -> npg_large x = false -> page_addr (e_addr x) = c ->
  tables G (F ∖ {[c]}) free used (<[entry64 p i := x]> m).
Proof.
  intros Ht Hl Hp Hi Hc Hold Hx1 Hx2 Hx3.
  assert (is_tbl (l + 1) x = true) as Htb by (apply is_tbl_intro; [lia|done..]).
  split; try apply Ht.
  - intros q k d j Hq Hj. destruct (decide ((q, j) = (p, i))) as [[= -> ->]|Hne].
    + rewrite Hp in Hq. injection Hq as <- <-. rewrite rd_written. split; [congruence| |].
      * intros _. rewrite Hx3, Hc. by replace (l + 1 - 1) with l by lia.
      * unfold is_tbl in Htb. intros Hlf. by rewrite Hlf, andb_false_r in Htb.
    + rewrite (rd_other Ht p (l + 1) b i q k d j x) by done. by apply (t_ent _ _ _ _ _ Ht).
  - intros q k d Hq Hk HF. destruct (decide (q = c)) as [->|Hqc].
    + rewrite Hc in Hq. injection Hq as <- <-. exists p.
      rewrite Z.div_add_l, (Z.div_small i), Z.add_0_r by lia. split; [done|].
      rewrite (Z.add_comm (b * 512) i), Z.mod_add, (Z.mod_small i), rd_written by lia. done.
    + destruct (t_link _ _ _ _ _ Ht _ _ _ Hq Hk) as (q' & Hq' & Htb'); [intros ?; apply HF, elem_of_difference; rewrite elem_of_singleton; done|].
      exists q'. split; [done|]. destruct (decide ((q', d mod 512) = (p, i))) as [[= -> ->]|Hne].
      * rewrite Hp in Hq'. injection Hq' as E1 _. by rewrite rd_written, <- E1.
      * by rewrite (rd_other Ht p (l + 1) b i q' _ _ _ x Hp Hq') by (done || apply Z.mod_pos_bound; lia).
Qed.

(** An empty table is given back and its entry cleared. *)
Lemma tables_unlink G F free used m p l b i x c : tables G F free used m -> 1 <= l <= 3 ->
  fills (l + 1) F G -> G !! p = Some (l + 1, b) -> 0 <= i < 512 -> G !! c = Some (l, b * 512 + i) ->
  (forall j, 0 <= j < 512 -> npg_present (rd0 m (entry64 c j)) = false) ->
  npg_present x = false -> npg_large x = false -> e_addr x = 0 ->
  let G' := delete c G in let m' := <[entry64 p i := x]> m in
  tables G' F (c :: free) (used ∖ {[c]}) m' /\ upd (l + 1) p i (b * 512 + i) G m G' m'.
Proof.
  intros Ht Hl Hf Hp Hi Hc Habs Hx1 Hx2 Hx3 G' m'.
  assert (p <> c) as Hpc by (intros ->; rewrite Hc in Hp; injection Hp; lia).
  assert (forall q y, G' !! q = Some y -> q <> c /\ G !! q = Some y) as HG.
  { intros q y. unfold G'. rewrite lookup_delete. by case_decide. }
  assert (forall q k d j, G !! q = Some (k, d) -> 0 <= j < 512 -> (q, j) <> (p, i) ->
    rd0 m' (entry64 q j) = rd0 m (entry64 q j)) as Hrd.
  { intros q k d j Hq Hj Hne. by apply (rd_other Ht p (l + 1) b i q k d j x). }
  assert (forall q k d j, G !! q = Some (k, d) -> 0 <= j < 512 -> (q, j) <> (p, i) ->
    (k, d * 512 + j) <> (l + 1, b * 512 + i)) as Hblk.
  { intros q k d j Hq Hj Hne [= Hk Hd]. assert (d = b /\ j = i) as [-> ->] by lia. apply Hne.
    f_equal. apply (t_inj _ _ _ _ _ Ht _ _ _ Hq). by rewrite Hk. }
  split; [|split].
  - split.
    + unfold G'. rewrite lookup_delete_ne; [apply Ht|]. intros ->. rewrite (t_root _ _ _ _ _ Ht) in Hc.
      injection Hc. lia.
    + intros q k d [Hqc Hq]%HG. apply (t_page _ _ _ _ _ Ht) in Hq as (? & ? & ? & ? & ?).
      split_and!; [lia|lia|done|list_elem|done|intros; apply elem_of_difference; rewrite elem_of_singleton; auto].
    + intros q q' y [_ Hq]%HG [_ Hq']%HG. by eapply (t_inj _ _ _ _ _ Ht).
    + intros q k d j [Hqc Hq]%HG Hj. destruct (decide ((q, j) = (p, i))) as [[= -> ->]|Hne].
      * unfold m'. rewrite rd_written. by apply absent_ok.
      * rewrite (Hrd q k d j) by done. destruct (t_ent _ _ _ _ _ Ht _ _ _ _ Hq Hj) as [E1 E2 E3].
        split; [done| |done]. intros Htb. apply E2 in Htb. unfold G'. rewrite lookup_delete_ne; [done|].
        intros Hd. rewrite <- Hd, Hc in Htb. injection Htb as Hk Hbd. apply (Hblk q k d j Hq Hj Hne).
        f_equal; lia.
    + intros q k d [Hqc Hq]%HG Hk HF. destruct (t_link _ _ _ _ _ Ht _ _ _ Hq Hk HF) as (q' & Hq' & Htb).
      assert (0 <= d mod 512 < 512) as Hdm by (apply Z.mod_pos_bound; lia).
      assert (q' <> c) as Hqc'.
      { intros ->. destruct (absent_kinds (k + 1) _ (Habs _ Hdm)) as [_ Ha]. congruence. }
      exists q'. unfold G'. rewrite lookup_delete_ne by done. split; [done|].
      rewrite (Hrd q' _ _ _ Hq'); [done|done|]. intros [= -> Hdi]. apply Hqc.
      rewrite Hp in Hq'. injection Hq' as Hk' Hd'. apply (t_inj _ _ _ _ _ Ht _ _ _ Hq).
      rewrite Hc. do 2 f_equal; [lia|]. pose proof (Z.div_mod d 512). lia.
  - intros q k d Hk. unfold G'. rewrite lookup_delete. case_decide as Hd; [|done].
    subst q. rewrite Hc. split; [done|]. intros [= <- _]. lia.
  - intros q k d j _ Hq Hj Hne. apply (Hrd q k d j Hq Hj). congruence.
  - intros v Hv. rewrite <- (mapped_outside Ht x Hp Hi v Hv). fold m'. split; intros (q & k & Hq & Hlf).
    + apply HG in Hq as [_ Hq]. by exists q, k.
    + exists q, k. split; [|done]. unfold G'. rewrite lookup_delete_ne; [done|]. intros <-.
      assert (0 <= blk k v mod 512 < 512) as Hj by (apply Z.mod_pos_bound; lia).
      rewrite (Hrd c _ _ _ Hq Hj) in Hlf by congruence.
      destruct (absent_kinds k _ (Habs _ Hj)) as [Ha _]. congruence.
Qed.
(** *** Complete tables: nothing is being filled *)

Section complete.
Context {G free used m} (Ht : tables G ∅ free used m).

Lemma parent_table p c l b i : G !! p = Some (l + 1, b) -> G !! c = Some (l, b * 512 + i) ->
  0 <= i < 512 -> is_tbl (l + 1) (rd0 m (entry64 p i)) = true.
Proof using Ht.
  intros Hp Hc Hi. destruct (is_tbl _ _) eqn:Htb; [done|]. exfalso.
  by apply (no_table_below Ht p l b i c Hp Hi).
Qed.

(** Above a table the entries of its addresses are tables. *)
Lemma chain n q k v : G !! q = Some (k, blk (k + 1) v) -> k + Z.of_nat n < 4 ->
  exists q', G !! q' = Some (k + Z.of_nat n + 1, blk (k + Z.of_nat n + 2) v) /\
    is_tbl (k + Z.of_nat n + 1) (rd0 m (entry64 q' (blk (k + Z.of_nat n + 1) v mod 512))) = true.
Proof using Ht.
  assert (forall q k, G !! q = Some (k, blk (k + 1) v) -> k < 4 ->
    exists q', G !! q' = Some (k + 1, blk (k + 2) v) /\
      is_tbl (k + 1) (rd0 m (entry64 q' (blk (k + 1) v mod 512))) = true) as H1.
  { intros q' k' Hq Hk. pose proof (ent_level Ht _ _ _ Hq).
    destruct (t_link _ _ _ _ _ Ht _ _ _ Hq Hk) as (p & Hp & Htb); [by intros ?%elem_of_empty|].
    exists p. split; [|done]. rewrite Hp. replace (k' + 2) with ((k' + 1) + 1) by lia. rewrite (blk_up (k' + 1)) by lia. done. }
  intros Hq. induction n as [|n IH]; intros Hk.
  - rewrite Z.add_0_r. apply (H1 q); [done|lia].
  - destruct IH as (q' & Hq' & _); [lia|].
    replace (k + Z.of_nat (S n)) with (k + Z.of_nat n + 1) by lia.
    apply (H1 q'); [|lia]. rewrite Hq'. do 2 f_equal. f_equal. lia.
Qed.

Lemma chain_to q k v l : G !! q = Some (k, blk (k + 1) v) -> k < l <= 4 ->
  exists q', G !! q' = Some (l, blk (l + 1) v) /\ is_tbl l (rd0 m (entry64 q' (blk l v mod 512))) = true.
Proof using Ht.
  intros Hq Hl. destruct (chain (Z.to_nat (l - k - 1)) q k v Hq) as (q' & Hq' & Htb); [lia|].
  exists q'. replace (k + Z.of_nat (Z.to_nat (l - k - 1)) + 1) with l in * by lia.
  replace (k + Z.of_nat (Z.to_nat (l - k - 1)) + 2) with (l + 1) in * by lia. done.
Qed.

(** Nothing is mapped under an absent entry. *)
Lemma unmapped_absent p l b i v : G !! p = Some (l, b) -> 0 <= i < 512 ->
  npg_present (rd0 m (entry64 p i)) = false -> blk l v = b * 512 + i -> ~ mapped G m v.
Proof using Ht.
  intros Hp Hi Habs Hv (q & k & Hq & Hlf). pose proof (ent_level Ht _ _ _ Hp). pose proof (ent_level Ht _ _ _ Hq).
  destruct (blk_index l v b i) as [Hb Hidx]; [lia|done|done|].
  destruct (absent_kinds l _ Habs) as [Hlf0 Htb0].
  assert (forall q', G !! q' = Some (l, blk (l + 1) v) -> q' = p) as Hu.
  { intros q' Hq'. apply (t_inj _ _ _ _ _ Ht _ _ _ Hq'). by rewrite Hb. }
  destruct (Z.lt_trichotomy k l) as [Hlt|[->|Hgt]].
  - destruct (chain_to q k v l Hq) as (q' & Hq' & Htb); [lia|]. rewrite (Hu q' Hq'), Hidx in Htb. congruence.
  - rewrite (Hu q Hq), Hidx in Hlf. congruence.
  - destruct (chain_to p l v k) as (q' & Hq' & Htb); [by rewrite Hb|lia|].
    assert (q' = q) as -> by by eapply (t_inj _ _ _ _ _ Ht). unfold is_tbl in Htb.
    by rewrite Hlf, andb_false_r in Htb.
Qed.
End complete.
End tables.
