(* ===== verification/NptSem.v ===== *)
(** * What the operations of the nested page mapper do to its tables

    The mapper only makes identity mappings, so what it does to the
    translation is what it does to a set of addresses: mapping a page adds its
    addresses, unmapping one takes them away, cutting a large page into
    smaller ones changes nothing. *)

From S2P Require Import Prelude.
From S2P Require Import Monad.
From S2P Require Import Pagemem.
From S2P Require Import Alloc.
From S2P Require Import NpgOps.
From S2P Require Import NptMap.
From S2P Require Import NptTables.

(** ** The operations *)

Section ops.
Context {A : Type} {PA : PageAlloc A} {PL : PageAllocLaws A} {NO : NpgOps} {NL : NpgLaws NO} (cfg : npg_cfg).
Implicit Types (G : gmap Z (Z * Z)) (F : gset Z) (s : npst A).

(** The tables of [G], those of [F] being filled, and [k] pages to allocate. *)
Definition wf G F (k : Z) s : Prop := exists free used,
  alloc_rep (np_al s) free used /\ k <= Z.of_nat (length free) /\ tables cfg G F free used (np_mem s).

Abbreviation ent s p i := (rd0 (np_mem s) (entry64 p i)).

(** An operation on an entry that keeps the tables well formed. *)
Definition step (l p i B : Z) F (k : Z) G s G' s' : Prop :=
  wf G' F k s' /\ upd l p i B G (np_mem s) G' (np_mem s').

Lemma wf_less G F k k' s : k' <= k -> wf G F k s -> wf G F k' s.
Proof. intros Hk (free & used & ? & ? & ?). exists free, used. split_and!; [done|lia|done]. Qed.

Lemma wf_is_page G F k s p l b : wf G F k s -> G !! p = Some (l, b) -> is_page p.
Proof. intros (free & used & _ & _ & Ht). by eapply ent_page. Qed.

Lemma wf_ent G F k s p l b i : wf G F k s -> G !! p = Some (l, b) -> 0 <= i < 512 ->
  entry_ok cfg G l (b * 512 + i) (ent s p i).
Proof. intros (free & used & _ & _ & Ht). by apply (t_ent _ _ _ _ _ _ Ht). Qed.

Lemma runs_rd {X} p (k : Z -> M (npst A) X) s Q : runs (k (rd0 (np_mem s) p)) s Q -> runs (rd p ≫= k) s Q.
Proof. done. Qed.

Definition put (p x : Z) s : npst A := mk_npst (<[p := x]> (np_mem s)) (np_al s).

Lemma wf_put l p b i x G F k s : wf G F k s -> G !! p = Some (l, b) -> 0 <= i < 512 ->
  is_tbl l (ent s p i) = false -> is_tbl l x = false -> entry_ok cfg G l (b * 512 + i) x ->
  step l p i (b * 512 + i) F k G s G (put (entry64 p i) x s).
Proof.
  intros (free & used & Ha & Hk & Ht) Hp Hi Hold Hx Hok. split.
  - exists free, used. split_and!; [done..|]. by apply (tables_write cfg Ht x Hp Hi).
  - by apply (upd_write cfg Ht x Hp Hi).
Qed.

(** A step on an entry of a table that covers the block. *)
Lemma step_inner l p i B c j F k k' G0 s0 G s G' s' : 1 <= l -> wf G F k' s -> G !! c = Some (l, B) ->
  0 <= j < 512 -> upd (l + 1) p i B G0 (np_mem s0) G (np_mem s) ->
  step l c j (B * 512 + j) F k G s G' s' -> step (l + 1) p i B F k G0 s0 G' s'.
Proof.
  intros Hl (free & used & _ & _ & Ht) Hc Hj Hu [Hw Hu']. split; [done|]. by eapply upd_inner.
Qed.

Lemma runs_new l B G F k s : wf G F (k + 1) s -> 0 <= k -> 1 <= l <= 3 ->
  (forall q, G !! q <> Some (l, B)) ->
  runs npg_new_pg s (fun c s' => let G' := <[c := (l, B)]> G in
    is_page c /\ G !! c = None /\ wf G' ({[c]} ∪ F) k s' /\
    (forall p i B', upd (l + 1) p i B' G (np_mem s) G' (np_mem s')) /\
    (forall v, mapped G' (np_mem s') v <-> mapped G (np_mem s) v) /\
    forall i, 0 <= i < 512 -> ent s' c i = 0).
Proof.
  intros (free & used & Ha & Hk & Ht) Hk0 Hl Hpos. unfold runs, npg_new_pg.
  destruct free as [|c free]; [simpl in Hk; lia|].
  destruct (pop_page _ _ _ _ Ha) as [Hc Ha']. pose proof (alloc_pages _ _ _ Ha c ltac:(left; left)) as Hpg.
  destruct (alloc_disjoint _ _ _ Ha) as [[Hnd _]%NoDup_cons _].
  destruct (pa_pop (np_al s)) as [c' al]. cbn [fst snd] in *. subst c'.
  rewrite c_true_ne by (destruct Hpg as (n & -> & ?); lia). cbn [negb].
  destruct (tables_new cfg G F c free used _ l B Ht Hl Hpg Hnd Hpos) as (Ht' & HGc & Hrd & Hm).
  split_and!; [done|done| | |exact Hm|intros; by apply rd0_zero_in].
  - exists free, ({[c]} ∪ used). split_and!; [done| |done]. cbn in Hk. lia.
  - intros p i B'. split; [| |intros v _; apply Hm].
    + intros q m d Hq. rewrite lookup_insert. case_decide as Hd; [subst q|done]. rewrite HGc.
      split; [|done]. intros [= <- _]. lia.
    + intros q m d j _ Hq Hj _. by apply (Hrd q m d j).
Qed.

Lemma wf_link l p b i c x G F k s : wf G F k s -> 1 <= l -> G !! p = Some (l + 1, b) -> 0 <= i < 512 ->
  G !! c = Some (l, b * 512 + i) -> npg_present (ent s p i) = false ->
  npg_present x = true -> npg_large x = false -> page_addr (e_addr x) = c ->
  let s' := put (entry64 p i) x s in
  step (l + 1) p i (b * 512 + i) (F ∖ {[c]}) k G s G s' /\
  forall v, mapped G (np_mem s') v <-> mapped G (np_mem s) v.
Proof.
  intros (free & used & Ha & Hk & Ht) Hl Hp Hi Hc Habs Hx1 Hx2 Hx3.
  destruct (absent_kinds (l + 1) _ Habs) as [Hlf Htb].
  assert (leaf (l + 1) x = false) as Hlx.
  { pose proof (is_tbl_intro (l + 1) x ltac:(lia) Hx1 Hx2) as Hx. unfold is_tbl in Hx.
    destruct (leaf _ x); [|done]. by rewrite andb_false_r in Hx. }
  split; [split|].
  - exists free, used. split_and!; [done..|]. by apply (tables_link cfg G F free used _ c p l b i x).
  - by apply (upd_write cfg Ht x Hp Hi).
  - intros v. split.
    + by apply (mapped_loses cfg Ht x Hp Hi).
    + apply (mapped_keeps cfg Ht x Hp Hi). by left.
Qed.

Lemma union_fresh (c : Z) F : c ∉ F -> ({[c]} ∪ F) ∖ {[c]} = F.
Proof.
  intros HcF. apply set_eq. intros q. rewrite elem_of_difference, elem_of_union, elem_of_singleton.
  split; [by intros [[?|?] ?]|]. intros Hq. split; [by right|]. by intros ->.
Qed.

(** A new table linked to an absent entry. *)
Lemma runs_new_link {X} (f : Z -> X) l p b i attr G F k s : wf G F (k + 1) s -> 0 <= k -> 1 <= l <= 3 ->
  G !! p = Some (l + 1, b) -> 0 <= i < 512 -> fills (l + 1) F G -> attr_ok attr ->
  npg_present (ent s p i) = false ->
  runs (c ← npg_new_pg;
        wr (entry64 p i) (npg_set_entry (ent s p i) (Z.lor attr npg_dft_pvl) (page_nr c));;
        mret (f c)) s (fun x s' => exists c G', x = f c /\ G' !! c = Some (l, b * 512 + i) /\
    step (l + 1) p i (b * 512 + i) F k G s G' s' /\
    forall v, mapped G' (np_mem s') v <-> mapped G (np_mem s) v).
Proof.
  intros Hwf Hk Hl Hp Hi Hf Ha Habs. apply runs_bind. eapply runs_mono.
  { apply (runs_new l (b * 512 + i) G F k s Hwf Hk Hl). intros q. destruct Hwf as (free & used & _ & _ & Ht).
    apply (no_table_below cfg Ht p l b i q Hp Hi Hf). by apply absent_kinds. }
  intros c s1 (Hpg & HGc & Hw1 & Hu1 & Hm1 & _). set (G' := <[c := _]> G) in *.
  assert (G' !! p = Some (l + 1, b)) as Hp' by (apply (up_tables _ _ _ _ _ _ _ _ (Hu1 p i 0)); [lia|done]).
  assert (ent s1 p i = ent s p i) as He.
  { apply (up_entries _ _ _ _ _ _ _ _ (Hu1 c 0 0) p (l + 1) b i); [lia|done|done|].
    intros Heq. apply entry64_inj in Heq as [-> _]; [congruence|by eapply wf_is_page|done..|lia]. }
  destruct (npg_table (ent s p i) attr (page_nr c) Ha) as (Hx1 & Hx2 & Hx3).
  destruct (wf_link l p b i c (npg_set_entry (ent s p i) (Z.lor attr npg_dft_pvl) (page_nr c)) G'
    ({[c]} ∪ F) k s1) as [[Hw2 Hu2] Hm2]; [done|lia|done|done|apply lookup_insert_eq|by rewrite He|done|done| |].
  { by rewrite Hx3, page_of_nr. }
  exists c, G'. split_and!; [done|apply lookup_insert_eq| |].
  - split; [|by eapply upd_trans].
    rewrite <- (union_fresh c F); [done|]. intros Hin. destruct (Hf c Hin) as (? & ? & ? & _). congruence.
  - intros v. by rewrite Hm2, Hm1.
Qed.

(** *** Entry by entry over a table *)

Section loop.
Context {l p i B c : Z} {F : gset Z} (f : Z -> M (npst A) unit) (Hl : 1 <= l <= 3).

(** The state after the first [j] entries. *)
Definition loop_inv (P : Z -> gmap Z (Z * Z) -> npst A -> Prop) (k : Z -> Z) lf G0 s0 (j : Z) s : Prop :=
  exists G, step (l + 1) p i B F (k j) G0 s0 G s /\ G !! c = Some (l, B) /\ fills lf F G /\
    forall j', 0 <= j' < j -> P j' G s.

Lemma runs_loop (P : Z -> gmap Z (Z * Z) -> npst A -> Prop) k G0 s0 lf :
  wf G0 F (k 0) s0 -> fills lf F G0 -> l <= lf -> G0 !! c = Some (l, B) ->
  (forall j G s, 0 <= j < 512 -> wf G F (k j) s -> fills lf F G -> G !! c = Some (l, B) ->
    runs (f j) s (fun _ s' => exists G', step l c j (B * 512 + j) F (k (j + 1)) G s G' s' /\ P j G' s')) ->
  (forall j j' G s G' s', 0 <= j < 512 -> 0 <= j' < j -> wf G F (k j) s -> G !! c = Some (l, B) ->
    upd l c j (B * 512 + j) G (np_mem s) G' (np_mem s') -> P j' G s -> P j' G' s') ->
  runs (for_table f) s0 (fun _ s' => loop_inv P k lf G0 s0 512 s').
Proof.
  intros Hwf Hfl Hlf Hc Hbody Hkeep. apply (runs_table f (loop_inv P k lf G0 s0)).
  { exists G0. split_and!; [split; [done|apply upd_refl]|done|done|lia]. }
  intros j s Hj (G & [Hw Hu] & HGc & Hf & HP).
  eapply runs_mono; [by apply (Hbody j G s)|]. intros [] s' (G' & Hst & HPj). exists G'.
  pose proof Hst as [_ Hu']. split_and!.
  - by apply (step_inner l p i B c j F _ (k j) G0 s0 G s G' s'); [lia|..].
  - apply (up_tables _ _ _ _ _ _ _ _ Hu'); [lia|done].
  - by eapply upd_fills.
  - intros j' Hj'. destruct (Z.eq_dec j' j) as [->|]; [done|].
    apply (Hkeep j j' G s G' s'); [done|lia|done|done|done|]. apply HP. lia.
Qed.

(** Clearing every entry. *)
Lemma runs_empty k G s : wf G F k s -> fills (l + 1) F G -> G !! c = Some (l, B) ->
  (forall j G s, 0 <= j < 512 -> wf G F k s -> fills (l + 1) F G -> G !! c = Some (l, B) ->
    runs (f j) s (fun _ s' => exists G', step l c j (B * 512 + j) F k G s G' s' /\
      npg_present (ent s' c j) = false)) ->
  runs (for_table f) s (fun _ s' => exists G', step (l + 1) p i B F k G s G' s' /\
    G' !! c = Some (l, B) /\ fills (l + 1) F G' /\
    forall j, 0 <= j < 512 -> npg_present (ent s' c j) = false).
Proof.
  intros Hw Hf Hc Hbody.
  apply (runs_loop (fun j _ s => npg_present (ent s c j) = false) (fun _ => k)); [done|done|lia|done|done|].
  intros j j' G1 s1 G2 s2 Hj Hj' Hw1 Hc1 Hu Hab.
  rewrite (up_entries _ _ _ _ _ _ _ _ Hu c l B j'); [done|lia|done|lia|].
  intros He. apply entry64_inj in He as [_ ->]; [lia|by eapply wf_is_page..|lia|done].
Qed.

(** Mapping every entry, [n] pages each at most. *)
Lemma runs_fill k n lf G s : wf G F (k + n * 512) s -> fills lf F G -> l <= lf -> G !! c = Some (l, B) ->
  (forall j G s k', 0 <= j < 512 -> k <= k' -> wf G F (k' + n) s -> fills lf F G -> G !! c = Some (l, B) ->
    runs (f j) s (fun _ s' => exists G', step l c j (B * 512 + j) F k' G s G' s' /\
      forall v, blk l v = B * 512 + j -> mapped G' (np_mem s') v)) ->
  0 <= n ->
  runs (for_table f) s (fun _ s' => exists G', step (l + 1) p i B F k G s G' s' /\
    G' !! c = Some (l, B) /\ fills lf F G' /\
    forall v, blk (l + 1) v = B -> mapped G' (np_mem s') v).
Proof.
  intros Hw Hf Hlf Hc Hbody Hn.
  set (P := fun j G s => forall v, blk l v = B * 512 + j -> mapped G (np_mem s) v).
  eapply runs_mono; [apply (runs_loop P (fun j => k + n * (512 - j)) G s lf)|]; try done.
  - intros j G1 s1 Hj Hw1 Hf1 Hc1. apply Hbody; try done; [nia|].
    by replace (k + n * (512 - (j + 1)) + n) with (k + n * (512 - j)) by lia.
  - intros j j' G1 s1 G2 s2 Hj Hj' _ _ Hu HP v Hv. apply (up_mapped _ _ _ _ _ _ _ _ Hu); [lia|by apply HP].
  - intros [] s' (G' & Hst & Hc' & Hf' & HP). exists G'.
    replace (k + n * (512 - 512)) with k in Hst by lia. split_and!; [done..|].
    intros v Hv. apply (HP (blk l v mod 512)); [apply Z.mod_pos_bound; lia|].
    pose proof (blk_split l v ltac:(lia)). lia.
Qed.
End loop.

(** *** Unmapping an entry *)

Lemma runs_clear l p i b G F k s : wf G F k s -> G !! p = Some (l, b) -> 0 <= i < 512 ->
  is_tbl l (ent s p i) = false ->
  runs (npg_clear (entry64 p i)) s (fun _ s' =>
    step l p i (b * 512 + i) F k G s G s' /\ npg_present (ent s' p i) = false).
Proof.
  intros Hw Hp Hi Htb. apply runs_rd. destruct (npg_absent_zero (ent s p i)) as (H1 & H2 & H3).
  split; [|cbn [np_mem]; by rewrite rd_written]. apply (wf_put l p b i); [done..| |by apply absent_ok].
  by apply absent_kinds.
Qed.

(** Emptying the table of an entry, giving it back and clearing the entry. *)
Lemma runs_unmap_table l p i b c f G F k s : 1 <= l <= 3 -> wf G F k s -> fills (l + 1) F G ->
  G !! p = Some (l + 1, b) -> 0 <= i < 512 -> G !! c = Some (l, b * 512 + i) ->
  (forall j G s, 0 <= j < 512 -> wf G F k s -> fills (l + 1) F G -> G !! c = Some (l, b * 512 + i) ->
    runs (f j) s (fun _ s' => exists G', step l c j ((b * 512 + i) * 512 + j) F k G s G' s' /\
      npg_present (ent s' c j) = false)) ->
  runs ((for_table f;; free_page c);; npg_clear (entry64 p i)) s (fun _ s' => exists G',
    step (l + 1) p i (b * 512 + i) F k G s G' s' /\ npg_present (ent s' p i) = false).
Proof.
  intros Hl Hw Hf Hp Hi Hc Hbody. apply runs_bind, runs_bind. eapply runs_mono.
  { by apply (runs_empty (p:=p) (i:=i) (B:=b * 512 + i) (c:=c) (F:=F) f Hl k G s). }
  intros [] s1 (G1 & [Hw1 Hu1] & Hc1 & Hf1 & Habs). unfold runs, free_page, npg_clear, rd, wr, mbind, M_bind.
  cbn [np_mem np_al]. destruct Hw1 as (free & used & Ha & Hk & Ht).
  destruct (npg_absent_zero (ent s1 p i)) as (H1 & H2 & H3).
  assert (G1 !! p = Some (l + 1, b)) as Hp1 by (apply (up_tables _ _ _ _ _ _ _ _ Hu1); [lia|done]).
  destruct (tables_unlink cfg G1 F free used (np_mem s1) p l b i (npg_zero (ent s1 p i)) c) as [Ht' Hu']; [done..|].
  exists (delete c G1). split; [split|cbn [np_mem]; by rewrite rd_written].
  - exists (c :: free), (used ∖ {[c]}). split_and!; [|simpl; lia|done].
    apply push_used; [done|]. apply (t_page _ _ _ _ _ _ Ht) in Hc1 as (? & _ & _ & _ & Hin). apply Hin. lia.
  - by eapply upd_trans.
Qed.

(** An absent entry names the page 0, which is not a table. *)
Lemma runs_page0 G F k s : wf G F k s ->
  runs (for_table (fun i => pte ← rd (entry64 0 i);
          if npg_present pte then npg_clear (entry64 0 i) else mret tt);; free_page 0) s (fun _ s' =>
    wf G F k s' /\ (forall p l b i, G !! p = Some (l, b) -> 0 <= i < 512 -> ent s' p i = ent s p i) /\
    forall v, mapped G (np_mem s') v <-> mapped G (np_mem s) v).
Proof.
  intros (free & used & Ha & Hk & Ht). apply runs_bind.
  set (I := fun (_ : Z) s' => np_al s' = np_al s /\
    forall p l b i, G !! p = Some (l, b) -> 0 <= i < 512 -> ent s' p i = ent s p i).
  eapply runs_mono.
  { apply (runs_table _ I); [done|]. intros i s1 Hi [Hal Hrd]. apply runs_rd. destruct (npg_present _); [|done].
    split; [done|]. intros p l b j Hp Hj. cbn [np_mem]. rewrite rd0_insert, decide_False; [by eapply Hrd|].
    intros He. apply (ent_page cfg Ht) in Hp as (n & -> & ?). unfold entry64 in He. lia. }
  intros [] s1 [Hal Hrd]. unfold runs, free_page. cbn [np_mem].
  assert (pa_push 0 (np_al s1) = np_al s1) as ->.
  { rewrite Hal. eapply push_other; [done|by exists 0|]. intros Hin.
    destruct (alloc_pages _ _ _ Ha 0 (or_intror Hin)) as (n & ? & ?). lia. }
  destruct (tables_ext cfg Ht (np_mem s1) Hrd) as [Ht' Hm].
  split_and!; [|done|done]. exists free, used. rewrite Hal. done.
Qed.

Lemma unmap_2M_entry_spec p i b G F k s : wf G F k s -> fills 2 F G -> G !! p = Some (2, b) -> 0 <= i < 512 ->
  runs (npg_unmap_2M_entry (entry64 p i)) s (fun _ s' => exists G',
    step 2 p i (b * 512 + i) F k G s G' s' /\ npg_present (ent s' p i) = false).
Proof.
  intros Hw Hf Hp Hi. unfold npg_unmap_2M_entry. apply runs_rd.
  destruct (wf_ent _ _ _ _ _ _ _ _ Hw Hp Hi) as [E1 E2 E3].
  destruct (npg_large (ent s p i)) eqn:Hlg; cbn [negb].
  - apply runs_bind, runs_ret. eapply runs_mono; [apply (runs_clear 2 p i b G F k s); try done|].
    + unfold is_tbl, leaf. rewrite Hlg. by destruct (npg_present _).
    + intros [] s' [? ?]. by exists G.
  - destruct (npg_present (ent s p i)) eqn:Hpr.
    + assert (is_tbl 2 (ent s p i) = true) as Htb by by apply is_tbl_intro.
      apply (runs_unmap_table 1 p i b); [lia|done..|by apply E2|].
      intros j G1 s1 Hj Hw1 Hf1 Hc1. apply runs_rd. destruct (npg_present (ent s1 _ j)) eqn:Hpj.
      * eapply runs_mono; [apply (runs_clear 1 _ j (b * 512 + i) G1 F k s1); try done|].
        -- apply is_tbl_1.
        -- intros [] s' [? ?]. by exists G1.
      * exists G1. split; [split; [done|apply upd_refl]|done].
    + destruct (E1 eq_refl) as [_ ->]. apply runs_bind. eapply runs_mono; [by apply (runs_page0 G F k s)|].
      intros [] s1 (Hw1 & Hrd1 & Hm1).
      assert (is_tbl 2 (ent s1 p i) = false) as Htb by (rewrite (Hrd1 p 2 b i) by done; by apply absent_kinds).
      eapply runs_mono; [by apply (runs_clear 2 p i b G F k s1)|].
      intros [] s' [[Hw' Hu'] Hab]. exists G. split; [|done]. split; [done|]. eapply upd_trans; [|exact Hu'].
      split; [done| |intros; apply Hm1]. intros. by eapply Hrd1.
Qed.

Lemma unmap_1G_entry_spec p i b G F k s : wf G F k s -> fills 3 F G -> G !! p = Some (3, b) -> 0 <= i < 512 ->
  npg_present (ent s p i) = true ->
  runs (npg_unmap_1G_entry (entry64 p i)) s (fun _ s' => exists G',
    step 3 p i (b * 512 + i) F k G s G' s' /\ npg_present (ent s' p i) = false).
Proof.
  intros Hw Hf Hp Hi Hpr. unfold npg_unmap_1G_entry. apply runs_rd.
  destruct (wf_ent _ _ _ _ _ _ _ _ Hw Hp Hi) as [E1 E2 E3].
  destruct (npg_large (ent s p i)) eqn:Hlg; cbn [negb].
  - apply runs_bind, runs_ret. eapply runs_mono; [apply (runs_clear 3 p i b G F k s); try done|].
    + unfold is_tbl, leaf. by rewrite Hlg, Hpr.
    + intros [] s' [? ?]. by exists G.
  - assert (is_tbl 3 (ent s p i) = true) as Htb by by apply is_tbl_intro.
    apply (runs_unmap_table 2 p i b); [lia|done..|by apply E2|].
    intros j G1 s1 Hj Hw1 Hf1 Hc1. apply runs_rd. destruct (npg_present (ent s1 _ j)) eqn:Hpj.
    + apply unmap_2M_entry_spec; try done. by apply (fills_weaken (2 + 1)).
    + exists G1. split; [split; [done|apply upd_refl]|done].
Qed.

(** *** Mapping an entry *)

(** A page entry that names its own block. *)
Definition page_value (l B : Z) (o : option Z) : Prop :=
  match o with
  | Some x => leaf l x = true /\ frame l x = B /\
      (l = 2 -> skillz_pg_2M cfg = true) /\ (l = 3 -> skillz_pg_1G cfg = true)
  | None => may_panic
  end.

Lemma runs_leaf l p i b o G F k s : wf G F k s -> G !! p = Some (l, b) -> 0 <= i < 512 ->
  is_tbl l (ent s p i) = false -> page_value l (b * 512 + i) o ->
  runs (wr_opt (entry64 p i) o) s (fun _ s' => step l p i (b * 512 + i) F k G s G s' /\
    forall v, blk l v = b * 512 + i -> mapped G (np_mem s') v).
Proof.
  intros Hw Hp Hi Htb Ho. destruct o as [x|]; [|done]. destruct Ho as (Hlf & Hfr & Hs2 & Hs3).
  assert (npg_present x = true) as Hpr by (unfold leaf in Hlf; by apply andb_true_iff in Hlf as [? _]).
  split_and!.
  - apply (wf_put l p b i); [done..| |].
    + unfold is_tbl. by rewrite Hlf, andb_false_r.
    + split; [congruence| |done]. unfold is_tbl. by rewrite Hlf, andb_false_r.
  - intros v Hv. destruct Hw as (free & used & _ & _ & Ht). by apply (mapped_here cfg Ht x Hp Hi).
Qed.

(** A new table, filled, then linked to an absent entry. *)
Lemma runs_new_full l p i b f attr n G F k s : 1 <= l <= 3 -> wf G F (k + n * 512 + 1) s -> 0 <= k -> 0 <= n ->
  fills (l + 1) F G -> G !! p = Some (l + 1, b) -> 0 <= i < 512 -> npg_present (ent s p i) = false -> attr_ok attr ->
  (forall c j G s k', 0 <= j < 512 -> k <= k' -> wf G ({[c]} ∪ F) (k' + n) s -> fills l ({[c]} ∪ F) G ->
    G !! c = Some (l, b * 512 + i) ->
    runs (f c j) s (fun _ s' => exists G',
      step l c j ((b * 512 + i) * 512 + j) ({[c]} ∪ F) k' G s G' s' /\
      forall v, blk l v = (b * 512 + i) * 512 + j -> mapped G' (np_mem s') v)) ->
  runs (c ← npg_new_pg; for_table (f c);; e ← rd (entry64 p i);
        wr (entry64 p i) (npg_set_entry e (Z.lor attr npg_dft_pvl) (page_nr c))) s (fun _ s' => exists G',
    step (l + 1) p i (b * 512 + i) F k G s G' s' /\ is_tbl (l + 1) (ent s' p i) = true /\
    forall v, blk (l + 1) v = b * 512 + i -> mapped G' (np_mem s') v).
Proof.
  intros Hl Hw Hk Hn Hf Hp Hi Habs Hat Hbody. set (B := b * 512 + i) in *. apply runs_bind. eapply runs_mono.
  { apply (runs_new l B G F (k + n * 512) s Hw ltac:(nia) Hl). intros q. destruct Hw as (free & used & _ & _ & Ht).
    apply (no_table_below cfg Ht p l b i q Hp Hi Hf). by apply absent_kinds. }
  intros c s1 (Hpg & HGc & Hw1 & Hu1 & Hm1 & _). set (G1 := <[c := _]> G) in *.
  assert (c ∉ F) as HcF by (intros Hin; destruct (Hf c Hin) as (? & ? & ? & _); congruence).
  assert (G1 !! c = Some (l, B)) as Hc1 by apply lookup_insert_eq.
  assert (fills l ({[c]} ∪ F) G1) as Hf1.
  { intros d [->%elem_of_singleton|Hd]%elem_of_union; [exists l, B; split; [done|lia]|].
    apply (fills_weaken (l + 1) l F G1); [lia| |done]. eapply upd_fills; [apply (Hu1 p i 0)|lia|done]. }
  apply runs_bind. eapply runs_mono.
  { apply (runs_fill (p:=c) (i:=0) (B:=B) (c:=c) (F:={[c]} ∪ F) (f c) Hl k n l G1 s1); try done.
    intros. by apply Hbody. }
  intros [] s2 (G2 & [Hw2 Hu2] & Hc2 & _ & Hm2). pose proof Hw1 as (free1 & used1 & _ & _ & Ht1).
  destruct (upd_below cfg (l + 1) p i B c 0 G1 _ G2 (np_mem s2) _ _ _ l B Ht1 Hc1) as [Hu2' Hr2]; [lia|lia|done|].
  assert (G1 !! p = Some (l + 1, b)) as Hp1 by (apply (up_tables _ _ _ _ _ _ _ _ (Hu1 p i 0)); [lia|done]).
  assert (G2 !! p = Some (l + 1, b)) as Hp2 by (apply (up_tables _ _ _ _ _ _ _ _ Hu2'); [lia|done]).
  assert (npg_present (ent s2 p i) = false) as Habs2.
  { rewrite (Hr2 p (l + 1) b i) by (done || lia).
    rewrite (up_entries _ _ _ _ _ _ _ _ (Hu1 c 0 0) p (l + 1) b i); [done|lia|done|done|].
    intros Heq. apply entry64_inj in Heq as [-> _]; [congruence|by eapply wf_is_page|done..|lia]. }
  apply runs_rd. set (e := ent s2 p i) in *.
  destruct (npg_table e attr (page_nr c) Hat) as (Hx1 & Hx2 & Hx3).
  destruct (wf_link l p b i c (npg_set_entry e (Z.lor attr npg_dft_pvl) (page_nr c)) G2
    ({[c]} ∪ F) k s2) as [[Hw3 Hu3] Hm3]; [done|lia|done..| |].
  { by rewrite Hx3, page_of_nr. }
  rewrite union_fresh in Hw3 by done. exists G2. split_and!.
  - split; [exact Hw3|]. eapply upd_trans; [apply Hu1|]. by eapply upd_trans.
  - cbn [np_mem]. rewrite rd_written. apply is_tbl_intro; [lia|done..].
  - intros v Hv. apply Hm3. by apply Hm2.
Qed.

Lemma nr_of_block sh B : 0 <= sh -> pg_nr sh (B * 2 ^ sh) = B.
Proof. intros. rewrite pg_nr_div by done. apply Z.div_mul, Z.pow_nonzero; lia. Qed.

Lemma value_4K e attr B : attr_ok attr -> fits 40 B -> page_value 1 B (npg_set_page_entry e attr B).
Proof.
  intros Ha HB. pose proof (npg_page e attr B Ha) as H. unfold page_value.
  destruct (npg_set_page_entry e attr B) as [x|]; [|done]. destruct H as [Hp Hx]. unfold leaf, frame.
  rewrite Hp, Hx, wrap_id by done. done.
Qed.

Lemma value_2M e attr B : attr_ok attr -> fits 31 B -> skillz_pg_2M cfg = true ->
  page_value 2 B (npg_set_large_pde e attr B).
Proof.
  intros Ha HB Hs. pose proof (npg_page_2M e attr B Ha) as H. unfold page_value.
  destruct (npg_set_large_pde e attr B) as [x|]; [|done]. destruct H as (Hp & Hg & Hx). unfold leaf, frame.
  rewrite Hp, Hg. cbn. rewrite Hx, wrap_id by done. done.
Qed.

Lemma value_1G e attr B : attr_ok attr -> fits 22 B -> skillz_pg_1G cfg = true ->
  page_value 3 B (npg_set_large_pdpe e attr B).
Proof.
  intros Ha HB Hs. pose proof (npg_page_1G e attr B Ha) as H. unfold page_value.
  destruct (npg_set_large_pdpe e attr B) as [x|]; [|done]. destruct H as (Hp & Hg & Hx). unfold leaf, frame.
  rewrite Hp, Hg. cbn. rewrite Hx, wrap_id by done. done.
Qed.

(** The pages the mapper may allocate below an entry. *)
Definition cost_2M : Z := if skillz_pg_2M cfg then 0 else 1.
Definition cost_1G_fine : Z := 1 + 512 * cost_2M.
Definition cost_1G : Z := if skillz_pg_1G cfg then 0 else cost_1G_fine.

Lemma cost_bounds : 0 <= cost_2M <= 1 /\ 0 <= cost_1G <= cost_1G_fine.
Proof. unfold cost_1G, cost_1G_fine, cost_2M. repeat case_match; lia. Qed.

(** What mapping the entry [i] of [p], of the block [B], gives: a page, or a
    table of smaller pages. *)
Definition entry_mapped (l p i B : Z) F k G s s' : Prop := exists G',
  step l p i B F k G s G' s' /\ forall v, blk l v = B -> mapped G' (np_mem s') v.
Definition table_mapped (l p i B : Z) F k G s s' : Prop := exists G',
  step l p i B F k G s G' s' /\ is_tbl l (ent s' p i) = true /\
  forall v, blk l v = B -> mapped G' (np_mem s') v.

Lemma map_2M_nolarge_spec p i b attr G F k s : wf G F (k + 1) s -> 0 <= k -> fills 2 F G ->
  G !! p = Some (2, b) -> 0 <= i < 512 -> npg_present (ent s p i) = false -> attr_ok attr ->
  fits 27 (b * 512 + i) ->
  runs (npg_map_2M_nolarge (entry64 p i) ((b * 512 + i) * 2 ^ 21) attr) s (fun _ s' =>
    table_mapped 2 p i (b * 512 + i) F k G s s').
Proof.
  intros Hw Hk Hf Hp Hi Habs Ha HB.
  apply (runs_new_full 1 p i b _ attr 0); [lia|by rewrite Z.mul_0_l, Z.add_0_r|lia|done..|].
  intros c j G1 s1 k' Hj Hk' Hw1 Hf1 Hc1. apply runs_rd. rewrite Z.add_0_r in Hw1.
  assert (wrap64 (pg_nr PG_4K_SHIFT ((b * 512 + i) * 2 ^ 21) + j) = (b * 512 + i) * 512 + j) as ->.
  { replace ((b * 512 + i) * 2 ^ 21) with ((b * 512 + i) * 512 * 2 ^ PG_4K_SHIFT)
      by (change (2 ^ 21) with (512 * 2 ^ 12); unfold PG_4K_SHIFT; lia).
    rewrite nr_of_block by (unfold PG_4K_SHIFT; lia). apply wrap_id. unfold fits in *. lia. }
  eapply runs_mono; [apply (runs_leaf 1 c j (b * 512 + i)); try done|].
  - apply is_tbl_1.
  - apply value_4K; [done|]. unfold fits in *. lia.
  - intros [] s' (Hs & Hm). by exists G1.
Qed.

Lemma map_2M_entry_spec p i b attr G F k s : wf G F (k + cost_2M) s -> 0 <= k -> fills 2 F G ->
  G !! p = Some (2, b) -> 0 <= i < 512 -> attr_ok attr -> fits 27 (b * 512 + i) ->
  runs (npg_map_2M_entry cfg (entry64 p i) ((b * 512 + i) * 2 ^ 21) attr) s (fun _ s' =>
    entry_mapped 2 p i (b * 512 + i) F k G s s').
Proof.
  intros Hw Hk Hf Hp Hi Ha HB. unfold npg_map_2M_entry. apply runs_rd, runs_bind. eapply runs_mono with
    (Q := fun _ s' => exists G', step 2 p i (b * 512 + i) F (k + cost_2M) G s G' s' /\
      npg_present (ent s' p i) = false).
  { destruct (npg_present _) eqn:Hpr; [by apply unmap_2M_entry_spec|].
    exists G. split; [split; [done|apply upd_refl]|done]. }
  intros [] s1 (G1 & [Hw1 Hu1] & Habs).
  assert (G1 !! p = Some (2, b)) as Hp1 by (apply (up_tables _ _ _ _ _ _ _ _ Hu1); [lia|done]).
  assert (fills 2 F G1) as Hf1 by (eapply upd_fills; [exact Hu1|lia|done]).
  unfold cost_2M in Hw1. destruct (skillz_pg_2M cfg) eqn:Hs.
  - rewrite Z.add_0_r in Hw1. apply runs_rd. unfold PG_2M_SHIFT. rewrite nr_of_block by lia.
    eapply runs_mono; [apply (runs_leaf 2 p i b _ G1 F k s1); try done|].
    + by apply absent_kinds.
    + apply value_2M; [done| |done]. unfold fits in *. lia.
    + intros [] s' ([Hw' Hu'] & Hm). exists G1. split; [|done].
      split; [done|]. by eapply upd_trans.
  - eapply runs_mono; [by apply (map_2M_nolarge_spec p i b attr G1 F k s1)|].
    intros [] s' (G' & [Hw' Hu'] & _ & Hm). exists G'. split; [|done].
    split; [done|]. by eapply upd_trans.
Qed.

Lemma map_1G_nolarge_spec p i b attr G F k s : wf G F (k + cost_1G_fine) s -> 0 <= k -> fills 3 F G ->
  G !! p = Some (3, b) -> 0 <= i < 512 -> npg_present (ent s p i) = false -> attr_ok attr ->
  fits 18 (b * 512 + i) ->
  runs (npg_map_1G_nolarge cfg (entry64 p i) ((b * 512 + i) * 2 ^ 30) attr) s (fun _ s' =>
    table_mapped 3 p i (b * 512 + i) F k G s s').
Proof.
  intros Hw Hk Hf Hp Hi Habs Ha HB. pose proof cost_bounds as [Hc _].
  apply (runs_new_full 2 p i b _ attr cost_2M); [lia| |lia|lia|done..|].
  { eapply wf_less; [|exact Hw]. unfold cost_1G_fine. lia. }
  intros c j G1 s1 k' Hj Hk' Hw1 Hf1 Hc1.
  assert (wrap64 ((b * 512 + i) * 2 ^ 30 + j * PG_2M_SIZE) = ((b * 512 + i) * 512 + j) * 2 ^ 21) as ->.
  { change PG_2M_SIZE with (2 ^ 21). change (2 ^ 30) with (512 * 2 ^ 21). rewrite wrap_id; [lia|].
    unfold fits in *. lia. }
  eapply runs_mono; [apply (map_2M_entry_spec c j (b * 512 + i)); try done; [lia|unfold fits in *; lia]|].
  intros [] s' (G' & Hs & Hm). by exists G'.
Qed.

Lemma map_1G_entry_spec p i b attr G F k s : wf G F (k + cost_1G) s -> 0 <= k -> fills 3 F G ->
  G !! p = Some (3, b) -> 0 <= i < 512 -> attr_ok attr -> fits 18 (b * 512 + i) ->
  runs (npg_map_1G_entry cfg (entry64 p i) ((b * 512 + i) * 2 ^ 30) attr) s (fun _ s' =>
    entry_mapped 3 p i (b * 512 + i) F k G s s').
Proof.
  intros Hw Hk Hf Hp Hi Ha HB. unfold npg_map_1G_entry. apply runs_rd, runs_bind. eapply runs_mono with
    (Q := fun _ s' => exists G', step 3 p i (b * 512 + i) F (k + cost_1G) G s G' s' /\
      npg_present (ent s' p i) = false).
  { destruct (npg_present _) eqn:Hpr; [by apply unmap_1G_entry_spec|].
    exists G. split; [split; [done|apply upd_refl]|done]. }
  intros [] s1 (G1 & [Hw1 Hu1] & Habs).
  assert (G1 !! p = Some (3, b)) as Hp1 by (apply (up_tables _ _ _ _ _ _ _ _ Hu1); [lia|done]).
  assert (fills 3 F G1) as Hf1 by (eapply upd_fills; [exact Hu1|lia|done]).
  unfold cost_1G in Hw1. destruct (skillz_pg_1G cfg) eqn:Hs.
  - rewrite Z.add_0_r in Hw1. apply runs_rd. unfold PG_1G_SHIFT. rewrite nr_of_block by lia.
    eapply runs_mono; [apply (runs_leaf 3 p i b _ G1 F k s1); try done|].
    + by apply absent_kinds.
    + apply value_1G; [done| |done]. unfold fits in *. lia.
    + intros [] s' ([Hw' Hu'] & Hm). exists G1. split; [|done].
      split; [done|]. by eapply upd_trans.
  - eapply runs_mono; [by apply (map_1G_nolarge_spec p i b attr G1 F k s1)|].
    intros [] s' (G' & [Hw' Hu'] & _ & Hm). exists G'. split; [|done].
    split; [done|]. by eapply upd_trans.
Qed.

(** *** From the root to an entry *)

(** The same addresses are mapped. *)
Definition same (k : Z) G s G' s' : Prop :=
  wf G' ∅ k s' /\ forall v, mapped G' (np_mem s') v <-> mapped G (np_mem s) v.

Lemma fills_none l G : fills l ∅ G.
Proof. by intros c ?%elem_of_empty. Qed.

Lemma idx_blk addr : pml4_idx addr = blk 4 addr mod 512 /\ pdp_idx addr = blk 3 addr mod 512 /\
  pd64_idx addr = blk 2 addr mod 512 /\ pt64_idx addr = blk 1 addr mod 512.
Proof.
  unfold pml4_idx, pdp_idx, pd64_idx, pt64_idx. rewrite !idx9
    by (unfold PG_512G_SHIFT, PG_1G_SHIFT, PG_2M_SHIFT, PG_4K_SHIFT; lia). done.
Qed.

(** The entry of the table [p] of level [l] that [addr] goes through. *)
Abbreviation at_ l addr p := (entry64 p (blk l addr mod 512)).

Lemma mod512 x : 0 <= x mod 512 < 512.
Proof. apply Z.mod_pos_bound. lia. Qed.

(** An address goes through the tables of its blocks. *)
Lemma wf_at G k s p l addr : wf G ∅ k s -> G !! p = Some (l, blk (l + 1) addr) ->
  1 <= l <= 4 /\ entry_ok cfg G l (blk l addr) (rd0 (np_mem s) (at_ l addr p)).
Proof.
  intros Hw Hp. pose proof Hw as (free & used & _ & _ & Ht). pose proof (ent_level cfg Ht _ _ _ Hp).
  split; [done|]. pose proof (wf_ent _ _ _ _ _ _ _ (blk l addr mod 512) Hw Hp (mod512 _)) as He.
  by rewrite blk_split in He by lia.
Qed.

Lemma wf_root G k s addr : wf G ∅ k s -> fits 48 addr -> G !! pml4 cfg = Some (4, blk (4 + 1) addr).
Proof.
  intros (free & used & _ & _ & Ht) Ha. rewrite (t_root _ _ _ _ _ _ Ht). do 2 f_equal.
  unfold blk. symmetry. apply Z.div_small. exact Ha.
Qed.

(** Below an entry: its table, made if it is absent. *)
Lemma runs_below {X} (f : Z -> X) l p addr attr G k s : wf G ∅ (k + 1) s -> 0 <= k -> 1 <= l <= 3 ->
  G !! p = Some (l + 1, blk (l + 1 + 1) addr) -> attr_ok attr ->
  npg_present (rd0 (np_mem s) (at_ (l + 1) addr p)) = false ->
  runs (c ← npg_new_pg;
        wr (at_ (l + 1) addr p) (npg_set_entry (rd0 (np_mem s) (at_ (l + 1) addr p)) (Z.lor attr npg_dft_pvl) (page_nr c));;
        mret (f c)) s (fun x s' => exists c G', x = f c /\
    G' !! p = Some (l + 1, blk (l + 1 + 1) addr) /\ G' !! c = Some (l, blk (l + 1) addr) /\ same k G s G' s').
Proof.
  intros Hw Hk Hl Hp Ha Habs. eapply runs_mono.
  { apply (runs_new_link f l p _ (blk (l + 1) addr mod 512) attr G ∅ k s Hw Hk Hl Hp (mod512 _)); [apply fills_none|done..]. }
  intros x s' (c & G' & -> & Hc & [Hw' Hu] & Hm). rewrite blk_split in Hc by lia.
  exists c, G'. split_and!; [done| |done|by split]. apply (up_tables _ _ _ _ _ _ _ _ Hu); [lia|done].
Qed.

Lemma resolve_pdpe_spec addr attr G k s : wf G ∅ (k + 1) s -> 0 <= k -> fits 48 addr -> attr_ok attr ->
  runs (npg_resolve_pdpe cfg addr attr) s (fun r s' => exists G' p, r = at_ 3 addr p /\
    G' !! p = Some (3, blk (3 + 1) addr) /\ same k G s G' s').
Proof.
  intros Hw Hk Had Ha. unfold npg_resolve_pdpe. destruct (idx_blk addr) as (-> & -> & _).
  pose proof (wf_root _ _ _ _ Hw Had) as Hp. apply runs_rd.
  destruct (wf_at _ _ _ _ _ _ Hw Hp) as [_ [_ E2 _]]. set (e := rd0 _ _) in *.
  destruct (npg_present e) eqn:Hpr; cbn [negb].
  - apply runs_bind, runs_ret, runs_ret. exists G, (page_addr (e_addr e)). split_and!; [done| |].
    + apply E2. unfold is_tbl, leaf. rewrite Hpr. done.
    + split; [|done]. eapply wf_less; [|exact Hw]. lia.
  - apply runs_bind. eapply runs_mono; [by apply (runs_below (fun c => c) 3 (pml4 cfg) addr attr G k s)|].
    intros x s' (c & G' & -> & _ & Hc & Hs). apply runs_ret. by exists G', c.
Qed.

(** The two lower levels of tables: nothing under a large page. *)
Definition resolved (l : Z) p addr k G s (r : Z) s' : Prop :=
  (r = 0 /\ s' = s /\ npg_present (rd0 (np_mem s) (at_ (l + 1) addr p)) = true /\
     npg_large (rd0 (np_mem s) (at_ (l + 1) addr p)) = true) \/
  exists G' c, r = at_ l addr c /\ G' !! p = Some (l + 1, blk (l + 1 + 1) addr) /\
    G' !! c = Some (l, blk (l + 1) addr) /\ same k G s G' s'.

Lemma runs_resolve l p addr attr G k s : wf G ∅ (k + 1) s -> 0 <= k -> 1 <= l <= 2 -> attr_ok attr ->
  G !! p = Some (l + 1, blk (l + 1 + 1) addr) ->
  runs (e ← rd (at_ (l + 1) addr p);
        if negb (npg_present e) then
          c ← npg_new_pg;
          wr (at_ (l + 1) addr p) (npg_set_entry e (Z.lor attr npg_dft_pvl) (page_nr c));;
          mret (at_ l addr c)
        else if npg_large e then mret 0
        else mret (at_ l addr (page_addr (e_addr e)))) s (resolved l p addr k G s).
Proof.
  intros Hw Hk Hl Ha Hp. apply runs_rd.
  destruct (wf_at _ _ _ _ _ _ Hw Hp) as [_ [_ E2 _]]. set (e := rd0 _ _) in *.
  destruct (npg_present e) eqn:Hpr; cbn [negb]; [destruct (npg_large e) eqn:Hlg|].
  - apply runs_ret. by left.
  - apply runs_ret. right. exists G, (page_addr (e_addr e)). split_and!; [done..| |].
    + rewrite E2; [by replace (l + 1 - 1) with l by lia|]. apply is_tbl_intro; [lia|done..].
    + split; [|done]. eapply wf_less; [|exact Hw]. lia.
  - eapply runs_mono; [apply (runs_below (fun c => at_ l addr c) l p addr attr G k s); [done|done|lia|done..]|].
    intros x s' (c & G' & -> & Hp' & Hc & Hs). right. by exists G', c.
Qed.

Lemma resolve_pde_spec p addr attr G k s : wf G ∅ (k + 1) s -> 0 <= k -> attr_ok attr ->
  G !! p = Some (3, blk (3 + 1) addr) ->
  runs (npg_resolve_pde (at_ 3 addr p) addr attr) s (resolved 2 p addr k G s).
Proof.
  intros Hw Hk Ha Hp. unfold npg_resolve_pde. destruct (idx_blk addr) as (_ & _ & -> & _).
  by apply (runs_resolve 2).
Qed.

Lemma resolve_pte_spec p addr attr G k s : wf G ∅ (k + 1) s -> 0 <= k -> attr_ok attr ->
  G !! p = Some (2, blk (2 + 1) addr) ->
  runs (npg_resolve_pte (at_ 2 addr p) addr attr) s (resolved 1 p addr k G s).
Proof.
  intros Hw Hk Ha Hp. unfold npg_resolve_pte. destruct (idx_blk addr) as (_ & _ & _ & ->).
  by apply (runs_resolve 1).
Qed.

(** *** Mapping a page *)

(** The block of [addr] at level [l] is mapped, the rest as before. *)
Definition adds (l addr k : Z) G s s' : Prop := exists G', wf G' ∅ k s' /\
  forall v, mapped G' (np_mem s') v <-> mapped G (np_mem s) v \/ blk l v = blk l addr.

Lemma adds_entry l p i addr k k0 G s G1 s1 s' : same k0 G s G1 s1 ->
  entry_mapped l p i (blk l addr) ∅ k G1 s1 s' -> adds l addr k G s s'.
Proof.
  intros [_ Hm1] (G' & [Hw Hu] & Hm). exists G'. split; [done|]. intros v. rewrite <- Hm1.
  destruct (Z.eq_dec (blk l v) (blk l addr)) as [He|Hne]; [by split; auto|].
  rewrite (up_mapped _ _ _ _ _ _ _ _ Hu) by done. split; [by left|]. by intros [|].
Qed.

(** Under a large page everything is mapped already. *)
Lemma adds_large l l' p addr k k0 k1 G s G1 s1 : same k0 G s G1 s1 -> wf G1 ∅ k1 s1 -> k <= k1 -> 1 <= l <= l' -> 2 <= l' <= 3 ->
  G1 !! p = Some (l', blk (l' + 1) addr) -> npg_large (rd0 (np_mem s1) (at_ l' addr p)) = true ->
  adds l addr k G s s1.
Proof.
  intros [_ Hm1] Hw Hk Hl Hl' Hp Hlg. exists G1. split; [by eapply wf_less|]. intros v. rewrite <- Hm1.
  split; [by left|]. intros [|Hv]; [done|]. destruct (wf_at _ _ _ _ _ _ Hw Hp) as [_ [E1 _ _]].
  apply (mapped_leaf G1 _ p l' (blk (l' + 1) addr) (blk l' addr mod 512)); [done|lia|apply mod512| |].
  - unfold leaf. rewrite Hlg, (proj2 (Z.ltb_lt l' 4)), orb_true_r, andb_true_r by lia.
    destruct (npg_present _); [done|]. destruct E1 as [E1 _]; [done|congruence].
  - rewrite blk_split by lia. apply (blk_above l); [lia|done].
Qed.

Lemma aligned_blk l addr : 0 <= l -> (2 ^ (3 + 9 * l) | addr) -> addr = blk l addr * 2 ^ (3 + 9 * l).
Proof. intros Hl [q ->]. unfold blk. by rewrite Z.div_mul by (apply Z.pow_nonzero; lia). Qed.

Lemma blk_fits l addr : 0 <= l <= 5 -> fits 48 addr -> fits (45 - 9 * l) (blk l addr).
Proof.
  intros Hl [H0 H1]. assert (0 < 2 ^ (3 + 9 * l)) by (apply Z.pow_pos_nonneg; lia). split.
  - apply Z.div_pos; lia.
  - apply Z.div_lt_upper_bound; [lia|]. rewrite <- Z.pow_add_r by lia.
    by replace (3 + 9 * l + (45 - 9 * l)) with 48 by lia.
Qed.

Lemma same_trans k1 k2 G1 s1 G2 s2 G3 s3 : same k1 G1 s1 G2 s2 -> same k2 G2 s2 G3 s3 -> same k2 G1 s1 G3 s3.
Proof. intros [_ H1] [Hw H2]. split; [done|]. intros v. by rewrite H2, H1. Qed.

Lemma map_1G_spec addr attr G k s : wf G ∅ (k + cost_1G + 1) s -> 0 <= k -> fits 48 addr ->
  (2 ^ 30 | addr) -> attr_ok attr -> runs (npg_map_1G cfg addr attr) s (fun _ => adds 3 addr k G s).
Proof.
  intros Hw Hk Had Hal Ha. pose proof cost_bounds as [_ Hc]. apply runs_bind.
  eapply runs_mono; [apply (resolve_pdpe_spec addr attr G (k + cost_1G) s); [done|lia|done..]|].
  intros r s1 (G1 & p & -> & Hp & Hs). rewrite (aligned_blk 3 addr ltac:(lia) Hal) at 2.
  pose proof (blk_split 3 addr ltac:(lia)) as Hb. pose proof (blk_fits 3 addr ltac:(lia) Had) as HB.
  rewrite <- Hb in HB. rewrite <- Hb at 2.
  eapply runs_mono; [apply (map_1G_entry_spec p _ _ attr G1 ∅ k s1); try done;
    [apply Hs|apply mod512]|].
  intros [] s'. rewrite Hb. intros H. eapply adds_entry; [exact Hs|exact H].
Qed.

Lemma map_2M_spec addr attr G k s : wf G ∅ (k + cost_2M + 2) s -> 0 <= k -> fits 48 addr ->
  (2 ^ 21 | addr) -> attr_ok attr -> runs (npg_map_2M cfg addr attr) s (fun _ => adds 2 addr k G s).
Proof.
  intros Hw Hk Had Hal Ha. pose proof cost_bounds as [Hc _]. apply runs_bind.
  eapply runs_mono; [apply (resolve_pdpe_spec addr attr G (k + cost_2M + 1) s); [|lia|done..]|].
  { by replace (k + cost_2M + 1 + 1) with (k + cost_2M + 2) by lia. }
  intros r s1 (G1 & p & -> & Hp & Hs). apply runs_rd. destruct (npg_large _) eqn:Hlg.
  { apply (adds_large 2 3 p addr k _ _ G s G1 s1 Hs (proj1 Hs)); try done; lia. }
  apply runs_bind. eapply runs_mono; [apply (resolve_pde_spec p addr attr G1 (k + cost_2M) s1); [apply Hs|lia|done..]|].
  intros r s2 [(_ & _ & _ & Hlg')|(G2 & c & -> & Hp2 & Hc2 & Hs2)]; [change (2 + 1) with 3 in Hlg'; congruence|].
  rewrite (aligned_blk 2 addr ltac:(lia) Hal) at 2.
  pose proof (blk_split 2 addr ltac:(lia)) as Hb. pose proof (blk_fits 2 addr ltac:(lia) Had) as HB.
  rewrite <- Hb in HB. rewrite <- Hb at 2.
  eapply runs_mono; [apply (map_2M_entry_spec c _ _ attr G2 ∅ k s2); try done;
    [apply Hs2|apply mod512]|].
  intros [] s'. rewrite Hb. intros H. eapply adds_entry; [by eapply same_trans|exact H].
Qed.

Lemma map_4K_spec addr attr G k s : wf G ∅ (k + 3) s -> 0 <= k -> fits 48 addr ->
  attr_ok attr -> runs (npg_map_4K cfg addr attr) s (fun _ => adds 1 addr k G s).
Proof.
  intros Hw Hk Had Ha. apply runs_bind.
  eapply runs_mono; [apply (resolve_pdpe_spec addr attr G (k + 2) s); [|lia|done..]|].
  { by replace (k + 2 + 1) with (k + 3) by lia. }
  intros r s1 (G1 & p & -> & Hp & Hs). apply runs_bind.
  eapply runs_mono; [apply (resolve_pde_spec p addr attr G1 (k + 1) s1); [|lia|done..]|].
  { replace (k + 1 + 1) with (k + 2) by lia. apply Hs. }
  intros r s2 [(-> & -> & _ & Hlg)|(G2 & c & -> & Hp2 & Hc2 & Hs2)]; apply runs_rd.
  { change (2 + 1) with 3 in Hlg. rewrite Hlg.
    apply (adds_large 1 3 p addr k _ _ G s G1 s1 Hs (proj1 Hs)); try done; lia. }
  destruct (npg_large _) eqn:Hlg.
  { eapply (adds_large 1 3 p addr k _ _ G s G2 s2); [by eapply same_trans|apply Hs2|lia|lia|lia|done|done]. }
  apply runs_rd. destruct (npg_large (rd0 (np_mem s2) (at_ 2 addr c))) eqn:Hlg2.
  { eapply (adds_large 1 2 c addr k _ _ G s G2 s2); [by eapply same_trans|apply Hs2|lia|lia|lia|done|done]. }
  apply runs_bind. eapply runs_mono; [apply (resolve_pte_spec c addr attr G2 k s2); [apply Hs2|lia|done..]|].
  intros r s3 [(_ & _ & _ & Hlg')|(G3 & t & -> & _ & Ht3 & Hs3)]; [change (1 + 1) with 2 in Hlg'; congruence|].
  apply runs_rd. unfold PG_4K_SHIFT. rewrite pg_nr_div by lia. change (addr / 2 ^ 12) with (blk 1 addr).
  pose proof (blk_split 1 addr ltac:(lia)) as Hb. pose proof (blk_fits 1 addr ltac:(lia) Had) as HB.
  eapply runs_mono; [apply (runs_leaf 1 t (blk 1 addr mod 512) (blk (1 + 1) addr) _ G3 ∅ k s3);
    [apply Hs3|done|apply mod512|apply is_tbl_1|]|].
  { rewrite Hb. apply value_4K; [done|]. unfold fits in *. lia. }
  intros [] s'. rewrite Hb. intros (Hst & Hm). eapply adds_entry; [eapply same_trans; [exact Hs|by eapply same_trans]|].
  by exists G3.
Qed.

Lemma entry64_0 p : entry64 p 0 = p.
Proof. unfold entry64. lia. Qed.

Lemma aligned_512G addr : (2 ^ 39 | addr) -> blk 3 addr mod 512 = 0.
Proof.
  intros [q ->]. unfold blk. change (2 ^ 39) with (512 * 2 ^ (3 + 9 * 3)).
  rewrite Z.mul_assoc, Z.div_mul by (apply Z.pow_nonzero; lia). by apply Z.mod_mul.
Qed.

Lemma map_512G_spec addr attr G k s : wf G ∅ (k + 512 * cost_1G + 1) s -> 0 <= k -> fits 48 addr ->
  (2 ^ 39 | addr) -> attr_ok attr -> runs (npg_map_512G cfg addr attr) s (fun _ => adds 4 addr k G s).
Proof.
  intros Hw Hk Had Hal Ha. pose proof cost_bounds as [_ Hc]. unfold npg_map_512G.
  assert (align addr PG_512G_SIZE = addr) as ->.
  { change PG_512G_SIZE with (2 ^ 39). rewrite align_pow2; [|lia|unfold fits in *; lia].
    destruct Hal as [q ->]. rewrite Z.div_mul by done. lia. }
  apply runs_bind.
  eapply runs_mono; [apply (resolve_pdpe_spec addr attr G (k + 512 * cost_1G) s); [done|lia|done..]|].
  intros r s1 (G1 & p & -> & Hp & Hs). rewrite aligned_512G, entry64_0 by done.
  pose proof (aligned_blk 4 addr ltac:(lia) Hal) as Hb. pose proof (blk_fits 4 addr ltac:(lia) Had) as HB.
  change (3 + 1) with 4 in Hp.
  eapply runs_mono; [apply (runs_fill (l:=3) (p:=p) (i:=0) (B:=blk 4 addr) (c:=p) (F:=∅) _ ltac:(lia) k cost_1G 3 G1 s1)|].
  - replace (k + cost_1G * 512) with (k + 512 * cost_1G) by lia. apply Hs.
  - apply fills_none.
  - lia.
  - done.
  - intros j G2 s2 k' Hj Hk' Hw2 _ Hc2.
    replace (wrap64 (addr + j * PG_1G_SIZE)) with ((blk 4 addr * 512 + j) * 2 ^ 30).
    + apply map_1G_entry_spec; try done; [lia|]. unfold fits in *. lia.
    + rewrite wrap_id; change PG_1G_SIZE with (2 ^ 30); unfold fits in *; lia.
  - lia.
  - intros [] s' (G' & Hst & _ & _ & Hm). apply (adds_entry 4 p 0 addr k _ G s G1 s1 s' Hs). by exists G'.
Qed.

(** *** Unmapping a page *)

Definition removes (l addr k : Z) G s s' : Prop := exists G', wf G' ∅ k s' /\
  forall v, mapped G' (np_mem s') v <-> mapped G (np_mem s) v /\ blk l v <> blk l addr.

Lemma removes_entry l p addr k k0 G s G1 s1 G' s' : same k0 G s G1 s1 ->
  G1 !! p = Some (l, blk (l + 1) addr) ->
  step l p (blk l addr mod 512) (blk l addr) ∅ k G1 s1 G' s' ->
  npg_present (rd0 (np_mem s') (at_ l addr p)) = false -> removes l addr k G s s'.
Proof.
  intros [Hw1 Hm1] Hp [Hw Hu] Habs. destruct (wf_at _ _ _ _ _ _ Hw1 Hp) as [Hl _].
  exists G'. split; [done|]. intros v. rewrite <- Hm1.
  destruct (Z.eq_dec (blk l v) (blk l addr)) as [He|Hne].
  - split; [|by intros [_ []]]. intros Hv. exfalso. destruct Hw as (free & used & _ & _ & Ht).
    apply (unmapped_absent cfg Ht p l (blk (l + 1) addr) (blk l addr mod 512) v); try done; [|apply mod512|].
    + apply (up_tables _ _ _ _ _ _ _ _ Hu); [lia|done].
    + rewrite blk_split by lia. done.
  - rewrite (up_mapped _ _ _ _ _ _ _ _ Hu) by done. tauto.
Qed.

Lemma removes_absent l l' p addr k k0 G s : wf G ∅ k0 s -> k <= k0 -> 0 <= l <= l' ->
  G !! p = Some (l', blk (l' + 1) addr) -> npg_present (rd0 (np_mem s) (at_ l' addr p)) = false ->
  removes l addr k G s s.
Proof.
  intros Hw Hk Hl Hp Habs. exists G. split; [by eapply wf_less|]. intros v.
  split; [|by intros [? _]]. intros Hv. split; [done|]. intros He. destruct Hw as (free & used & _ & _ & Ht).
  eapply (unmapped_absent cfg Ht p l' _ (blk l' addr mod 512) v Hp); [apply mod512|done| |done].
  rewrite blk_split by lia. by apply (blk_above l).
Qed.

Lemma removes_same l addr k k0 G s G1 s1 s' : same k0 G s G1 s1 -> removes l addr k G1 s1 s' -> removes l addr k G s s'.
Proof. intros [_ Hm] (G' & Hw & Hm'). exists G'. split; [done|]. intros v. by rewrite Hm', Hm. Qed.

(** The entries of [addr], without making tables. *)
Lemma at_nonzero G k s p l b i : wf G ∅ k s -> G !! p = Some (l, b) -> 0 <= i -> c_true (entry64 p i) = true.
Proof.
  intros Hw Hp Hi. apply c_true_ne. destruct (wf_is_page _ _ _ _ _ _ _ Hw Hp) as (n & -> & ?). unfold entry64. lia.
Qed.

Lemma get_pdpe_spec addr G k s : wf G ∅ k s -> fits 48 addr ->
  runs (npg_get_pdpe cfg addr) s (fun r s' => s' = s /\
    (r = 0 /\ npg_present (rd0 (np_mem s) (at_ 4 addr (pml4 cfg))) = false \/
     exists p, r = at_ 3 addr p /\ G !! p = Some (3, blk (3 + 1) addr))).
Proof.
  intros Hw Had. unfold npg_get_pdpe, npg_get_pdpe_nocheck. destruct (idx_blk addr) as (-> & -> & _).
  pose proof (wf_root _ _ _ _ Hw Had) as Hp. apply runs_rd.
  destruct (wf_at _ _ _ _ _ _ Hw Hp) as [_ [_ E2 _]].
  destruct (npg_present _) eqn:Hpr; cbn [negb].
  - apply runs_rd, runs_ret. split; [done|]. right. eexists. split; [done|].
    apply E2. unfold is_tbl, leaf. by rewrite Hpr.
  - apply runs_ret. split; [done|]. by left.
Qed.

Lemma runs_get l p addr G k s : wf G ∅ k s -> 1 <= l <= 2 -> G !! p = Some (l + 1, blk (l + 1 + 1) addr) ->
  runs (e ← rd (at_ (l + 1) addr p);
        if negb (npg_present e) || npg_large e then mret 0
        else e ← rd (at_ (l + 1) addr p); mret (at_ l addr (page_addr (e_addr e)))) s (fun r s' => s' = s /\
    let e := rd0 (np_mem s) (at_ (l + 1) addr p) in
    if npg_present e && negb (npg_large e)
    then exists c, r = at_ l addr c /\ G !! c = Some (l, blk (l + 1) addr) else r = 0).
Proof.
  intros Hw Hl Hp. apply runs_rd. destruct (wf_at _ _ _ _ _ _ Hw Hp) as [_ [_ E2 _]]. cbv zeta.
  destruct (npg_present _) eqn:Hpr, (npg_large _) eqn:Hlg; cbn [negb orb andb]; try done.
  apply runs_rd, runs_ret. split; [done|]. eexists. split; [done|].
  rewrite E2 by (apply is_tbl_intro; [lia|done..]). by replace (l + 1 - 1) with l by lia.
Qed.

Lemma get_pde_spec p addr G k s : wf G ∅ k s -> G !! p = Some (3, blk (3 + 1) addr) ->
  runs (npg_get_pde (at_ 3 addr p) addr) s (fun r s' => s' = s /\
    let e := rd0 (np_mem s) (at_ 3 addr p) in
    if npg_present e && negb (npg_large e)
    then exists c, r = at_ 2 addr c /\ G !! c = Some (2, blk (2 + 1) addr) else r = 0).
Proof.
  intros Hw Hp. unfold npg_get_pde, npg_get_pde_nocheck. destruct (idx_blk addr) as (_ & _ & -> & _).
  by apply (runs_get 2 p addr G k).
Qed.

Lemma get_pte_spec p addr G k s : wf G ∅ k s -> G !! p = Some (2, blk (2 + 1) addr) ->
  runs (npg_get_pte_from (at_ 2 addr p) addr) s (fun r s' => s' = s /\
    let e := rd0 (np_mem s) (at_ 2 addr p) in
    if npg_present e && negb (npg_large e)
    then exists c, r = at_ 1 addr c /\ G !! c = Some (1, blk (1 + 1) addr) else r = 0).
Proof.
  intros Hw Hp. unfold npg_get_pte_from, npg_get_pte_nocheck. destruct (idx_blk addr) as (_ & _ & _ & ->).
  by apply (runs_get 1 p addr G k).
Qed.

(** *** Cutting a large page into smaller ones *)

Lemma is_tbl_elim l e : l < 4 -> is_tbl l e = true -> npg_present e = true /\ npg_large e = false.
Proof.
  intros Hl. unfold is_tbl, leaf. rewrite (proj2 (Z.ltb_lt l 4)) by done.
  destruct (npg_present e), (npg_large e); rewrite ?orb_true_r; auto.
Qed.

Lemma realign sh addr : 0 <= sh <= 64 -> fits 64 addr ->
  (if negb (aligned addr (2 ^ sh)) then align addr (2 ^ sh) else addr) = addr / 2 ^ sh * 2 ^ sh.
Proof.
  intros Hs Ha. rewrite align_pow2, aligned_pow2 by (done || lia).
  assert (2 ^ sh <> 0) by (apply Z.pow_nonzero; lia).
  destruct (Z.eqb_spec (addr mod 2 ^ sh) 0) as [He|]; cbn [negb]; [|lia].
  pose proof (Z.div_mod addr (2 ^ sh)). lia.
Qed.

Lemma runs_remap l p addr (um mp : M (npst A) unit) k k0 k1 G s : wf G ∅ k0 s -> G !! p = Some (l, blk (l + 1) addr) -> l < 4 ->
  leaf l (rd0 (np_mem s) (at_ l addr p)) = true ->
  (runs um s (fun _ s' => exists G', step l p (blk l addr mod 512) (blk l addr) ∅ k1 G s G' s' /\
    npg_present (rd0 (np_mem s') (at_ l addr p)) = false)) ->
  (forall G1 s1, wf G1 ∅ k1 s1 -> G1 !! p = Some (l, blk (l + 1) addr) ->
    npg_present (rd0 (np_mem s1) (at_ l addr p)) = false ->
    runs mp s1 (fun _ s' => table_mapped l p (blk l addr mod 512) (blk l addr) ∅ k G1 s1 s')) ->
  runs (um;; mp) s (fun _ s' => exists G', G' !! p = Some (l, blk (l + 1) addr) /\ same k G s G' s' /\
    let e := rd0 (np_mem s') (at_ l addr p) in npg_present e = true /\ npg_large e = false).
Proof.
  intros Hw Hp Hl Hlf Hum Hmp. destruct (wf_at _ _ _ _ _ _ Hw Hp) as [Hl1 _]. apply runs_bind.
  eapply runs_mono; [exact Hum|]. intros _ s1 (G1 & [Hw1 Hu1] & Habs).
  assert (G1 !! p = Some (l, blk (l + 1) addr)) as Hp1 by (apply (up_tables _ _ _ _ _ _ _ _ Hu1); [lia|done]).
  eapply runs_mono; [by apply (Hmp G1 s1)|]. intros _ s2 (G2 & [Hw2 Hu2] & Htb & Hm2). exists G2. split_and!.
  - apply (up_tables _ _ _ _ _ _ _ _ Hu2); [lia|done].
  - split; [done|]. intros v. destruct (Z.eq_dec (blk l v) (blk l addr)) as [He|Hne].
    + split; [intros _|by intros; apply Hm2].
      apply (mapped_leaf G _ p l (blk (l + 1) addr) (blk l addr mod 512)); [done|lia|apply mod512|done|].
      by rewrite blk_split by lia.
    + by rewrite (up_mapped _ _ _ _ _ _ _ _ Hu2), (up_mapped _ _ _ _ _ _ _ _ Hu1) by done.
  - by apply (is_tbl_elim l).
Qed.

Lemma leaf_large l e : 1 <= l < 4 -> npg_present e = true -> npg_large e = true -> leaf l e = true.
Proof.
  intros Hl Hp Hg. unfold leaf. by rewrite Hp, Hg, (proj2 (Z.ltb_lt l 4)), orb_true_r by lia.
Qed.

Lemma remap_1G_spec p addr G k s : wf G ∅ (k + cost_1G_fine) s -> 0 <= k -> fits 48 addr ->
  G !! p = Some (3, blk (3 + 1) addr) -> npg_present (rd0 (np_mem s) (at_ 3 addr p)) = true ->
  npg_large (rd0 (np_mem s) (at_ 3 addr p)) = true ->
  runs (npg_remap_1G_finest cfg (at_ 3 addr p) addr) s (fun _ s' => exists G',
    G' !! p = Some (3, blk (3 + 1) addr) /\ same k G s G' s' /\
    let e := rd0 (np_mem s') (at_ 3 addr p) in npg_present e = true /\ npg_large e = false).
Proof.
  intros Hw Hk Had Hp Hpr Hlg. apply runs_rd. cbv zeta.
  change PG_1G_SIZE with (2 ^ 30). rewrite realign by (unfold fits in *; lia). change (addr / 2 ^ 30) with (blk 3 addr).
  pose proof (blk_split 3 addr ltac:(lia)) as Hb. pose proof (blk_fits 3 addr ltac:(lia) Had) as HB.
  apply (runs_remap 3 p addr _ _ k _ (k + cost_1G_fine) G s Hw Hp); [lia|by apply leaf_large| |].
  - rewrite <- Hb in HB. pose proof (unmap_1G_entry_spec _ _ _ _ ∅ _ _ Hw (fills_none _ _) Hp (mod512 _) Hpr) as H.
    by rewrite Hb in H.
  - intros G1 s1 Hw1 Hp1 Habs. rewrite <- Hb in HB.
    pose proof (map_1G_nolarge_spec _ _ _ _ _ ∅ _ _ Hw1 Hk (fills_none _ _) Hp1 (mod512 _) Habs
      (npg_attr_get _ Hpr) HB) as H. by rewrite Hb in H.
Qed.

Lemma remap_2M_spec p addr G k s : wf G ∅ (k + 1) s -> 0 <= k -> fits 48 addr ->
  G !! p = Some (2, blk (2 + 1) addr) -> npg_present (rd0 (np_mem s) (at_ 2 addr p)) = true ->
  npg_large (rd0 (np_mem s) (at_ 2 addr p)) = true ->
  runs (npg_remap_2M_finest (at_ 2 addr p) addr) s (fun _ s' => exists G',
    G' !! p = Some (2, blk (2 + 1) addr) /\ same k G s G' s' /\
    let e := rd0 (np_mem s') (at_ 2 addr p) in npg_present e = true /\ npg_large e = false).
Proof.
  intros Hw Hk Had Hp Hpr Hlg. apply runs_rd. cbv zeta.
  change PG_2M_SIZE with (2 ^ 21). rewrite realign by (unfold fits in *; lia). change (addr / 2 ^ 21) with (blk 2 addr).
  pose proof (blk_split 2 addr ltac:(lia)) as Hb. pose proof (blk_fits 2 addr ltac:(lia) Had) as HB.
  apply (runs_remap 2 p addr _ _ k _ (k + 1) G s Hw Hp); [lia|by apply leaf_large| |].
  - rewrite <- Hb in HB. pose proof (unmap_2M_entry_spec _ _ _ _ ∅ _ _ Hw (fills_none _ _) Hp (mod512 (blk 2 addr))) as H.
    by rewrite Hb in H.
  - intros G1 s1 Hw1 Hp1 Habs. rewrite <- Hb in HB.
    pose proof (map_2M_nolarge_spec _ _ _ _ _ ∅ _ _ Hw1 Hk (fills_none _ _) Hp1 (mod512 _) Habs
      (npg_attr_get _ Hpr) HB) as H. by rewrite Hb in H.
Qed.

(** The table under an entry that is not a page, for what follows it. *)
Lemma unmap_512G_spec addr G k s : wf G ∅ k s -> fits 48 addr -> (2 ^ 39 | addr) ->
  runs (npg_unmap_512G cfg addr) s (fun _ => removes 4 addr k G s).
Proof.
  intros Hw Had Hal. apply runs_bind. eapply runs_mono; [by apply (get_pdpe_spec addr G k)|].
  intros r s1 [-> [[-> Habs]|(p & -> & Hp)]].
  { rewrite c_true_0. by apply (removes_absent 4 4 (pml4 cfg) addr k k); [| |lia|apply (wf_root _ _ _ _ Hw)|]. }
  rewrite (at_nonzero G k s p _ _ _ Hw Hp) by apply mod512. cbn [negb].
  rewrite aligned_512G, entry64_0 by done. change (3 + 1) with 4 in Hp.
  eapply runs_mono; [apply (runs_empty (l:=3) (p:=p) (i:=0) (B:=blk 4 addr) (c:=p) (F:=∅) _ ltac:(lia) k G s)|].
  - done.
  - apply fills_none.
  - done.
  - intros j G1 s1 Hj Hw1 _ Hp1. apply runs_rd. destruct (npg_present _) eqn:Hpr.
    + apply unmap_1G_entry_spec; [done|apply fills_none|done..].
    + exists G1. split; [split; [done|apply upd_refl]|done].
  - intros [] s' (G' & [Hw' Hu'] & Hp' & _ & Habs). exists G'. split; [done|]. intros v.
    destruct (Z.eq_dec (blk 4 v) (blk 4 addr)) as [He|Hne].
    + split; [|by intros [_ []]]. intros Hv. exfalso. destruct Hw' as (free & used & _ & _ & Ht).
      apply (unmapped_absent cfg Ht p 3 (blk 4 addr) (blk 3 v mod 512) v); [done|apply mod512|apply Habs, mod512| |done].
      rewrite <- He. symmetry. by apply (blk_split 3).
    + rewrite (up_mapped _ _ _ _ _ _ _ _ Hu') by done. tauto.
Qed.

Lemma unmap_1G_spec addr G k s : wf G ∅ k s -> fits 48 addr ->
  runs (npg_unmap_1G cfg addr) s (fun _ => removes 3 addr k G s).
Proof.
  intros Hw Had. apply runs_bind. eapply runs_mono; [by apply (get_pdpe_spec addr G k)|].
  intros r s1 [-> [[-> Habs]|(p & -> & Hp)]].
  { rewrite c_true_0. by apply (removes_absent 3 4 (pml4 cfg) addr k k); [| |lia|apply (wf_root _ _ _ _ Hw)|]. }
  rewrite (at_nonzero G k s p _ _ _ Hw Hp) by apply mod512. cbn [negb]. apply runs_rd.
  destruct (npg_present _) eqn:Hpr; [|by apply (removes_absent 3 3 p addr k k)].
  pose proof (unmap_1G_entry_spec _ _ _ _ ∅ _ _ Hw (fills_none _ _) Hp (mod512 _) Hpr) as H.
  rewrite blk_split in H by lia. eapply runs_mono; [exact H|]. intros [] s' (G' & Hst & Habs).
  by apply (removes_entry 3 p addr k k G s G s G' s'); [split| | |].
Qed.

Lemma unmap_2M_spec addr G k s : wf G ∅ (k + cost_1G_fine) s -> 0 <= k -> fits 48 addr ->
  runs (npg_unmap_2M cfg addr) s (fun _ => removes 2 addr k G s).
Proof.
  intros Hw Hk Had. pose proof cost_bounds as [? Hc]. apply runs_bind.
  eapply runs_mono; [by apply (get_pdpe_spec addr G _ s Hw)|].
  intros r s1 [-> [[-> Habs]|(p & -> & Hp)]].
  { rewrite c_true_0. by apply (removes_absent 2 4 (pml4 cfg) addr k _ G s Hw); [lia|lia|apply (wf_root _ _ _ _ Hw)|]. }
  rewrite (at_nonzero G _ s p _ _ _ Hw Hp) by apply mod512. cbn [negb]. apply runs_rd.
  destruct (npg_present _) eqn:Hpr; cbn [negb]; [|by apply (removes_absent 2 3 p addr k _ G s Hw); [lia|lia|..]].
  apply runs_bind. eapply runs_mono with (Q := fun _ s' => exists G', G' !! p = Some (3, blk (3 + 1) addr) /\ same k G s G' s' /\
    let e := rd0 (np_mem s') (at_ 3 addr p) in npg_present e = true /\ npg_large e = false).
  { destruct (npg_large _) eqn:Hlg; [by apply remap_1G_spec|]. exists G. split_and!; [done| |done].
    split; [|done]. eapply wf_less; [|exact Hw]. lia. }
  intros [] s1 (G1 & Hp1 & Hs & Hpr1 & Hlg1). pose proof Hs as [Hw1 _]. apply runs_bind.
  eapply runs_mono; [by apply (get_pde_spec p addr G1 k)|]. cbv zeta. intros r s2 [-> Hr].
  rewrite Hpr1, Hlg1 in Hr. destruct Hr as (c & -> & Hc1).
  pose proof (unmap_2M_entry_spec _ _ _ _ ∅ _ _ Hw1 (fills_none _ _) Hc1 (mod512 (blk 2 addr))) as H1.
  rewrite blk_split in H1 by lia. eapply runs_mono; [exact H1|]. intros [] s' (G' & Hst & Habs).
  by apply (removes_entry 2 c addr k k G s G1 s1 G' s').
Qed.

Lemma unmap_4K_spec addr G k s : wf G ∅ (k + cost_1G_fine + 1) s -> 0 <= k -> fits 48 addr ->
  runs (npg_unmap_4K cfg addr) s (fun _ => removes 1 addr k G s).
Proof.
  intros Hw Hk Had. pose proof cost_bounds as [? Hc]. unfold npg_unmap_4K, npg_remap_finest_4K.
  apply runs_bind, runs_bind. eapply runs_mono; [by apply (get_pdpe_spec addr G _ s Hw)|].
  intros r s1 [-> [[-> Habs]|(p & -> & Hp)]].
  { rewrite c_true_0. apply runs_ret. rewrite c_true_0.
    by apply (removes_absent 1 4 (pml4 cfg) addr k _ G s Hw); [lia|lia|apply (wf_root _ _ _ _ Hw)|]. }
  rewrite (at_nonzero G _ s p _ _ _ Hw Hp) by apply mod512. cbn [negb]. apply runs_rd.
  destruct (npg_present _) eqn:Hpr; cbn [negb];
    [|apply runs_ret; rewrite c_true_0; by apply (removes_absent 1 3 p addr k _ G s Hw); [lia|lia|..]].
  apply runs_bind. eapply runs_mono with (Q := fun _ s' => exists G', G' !! p = Some (3, blk (3 + 1) addr) /\
    same (k + 1) G s G' s' /\
    let e := rd0 (np_mem s') (at_ 3 addr p) in npg_present e = true /\ npg_large e = false).
  { destruct (npg_large _) eqn:Hlg.
    - apply remap_1G_spec; [|lia|done..]. by replace (k + 1 + cost_1G_fine) with (k + cost_1G_fine + 1) by lia.
    - exists G. split_and!; [done| |done]. split; [|done]. eapply wf_less; [|exact Hw]. lia. }
  intros [] s1 (G1 & Hp1 & Hs1 & Hpr1 & Hlg1). pose proof Hs1 as [Hw1 _]. apply runs_bind.
  eapply runs_mono; [by apply (get_pde_spec p addr G1 (k + 1))|]. cbv zeta. intros r s2 [-> Hr].
  rewrite Hpr1, Hlg1 in Hr. destruct Hr as (c & -> & Hc1).
  rewrite (at_nonzero G1 _ s1 c _ _ _ Hw1 Hc1) by apply mod512. cbn [negb]. apply runs_rd.
  destruct (npg_present (rd0 (np_mem s1) (at_ 2 addr c))) eqn:Hpr2; cbn [negb];
    [|apply runs_ret; rewrite c_true_0; apply (removes_same 1 addr k _ G s G1 s1 s1 Hs1);
      by apply (removes_absent 1 2 c addr k _ G1 s1 Hw1); [lia|lia|..]].
  apply runs_bind. eapply runs_mono with (Q := fun _ s' => exists G', G' !! c = Some (2, blk (2 + 1) addr) /\
    same k G1 s1 G' s' /\
    let e := rd0 (np_mem s') (at_ 2 addr c) in npg_present e = true /\ npg_large e = false).
  { destruct (npg_large (rd0 (np_mem s1) (at_ 2 addr c))) eqn:Hlg; [by apply remap_2M_spec|]. exists G1. split_and!; [done| |done].
    split; [|done]. eapply wf_less; [|exact Hw1]. lia. }
  intros [] s2 (G2 & Hc2 & Hs2 & Hpr3 & Hlg3). pose proof Hs2 as [Hw2 _].
  eapply runs_mono; [by apply (get_pte_spec c addr G2 k)|]. cbv zeta. intros r s3 [-> Hr].
  rewrite Hpr3, Hlg3 in Hr. destruct Hr as (t & -> & Ht2).
  rewrite (at_nonzero G2 _ s2 t _ _ _ Hw2 Ht2) by apply mod512.
  pose proof (runs_clear 1 t _ _ G2 ∅ k s2 Hw2 Ht2 (mod512 (blk 1 addr)) (is_tbl_1 _)) as H1.
  rewrite blk_split in H1 by lia. eapply runs_mono; [exact H1|]. intros [] s' (Hst & Habs).
  by apply (removes_entry 1 t addr k k G s G2 s2 G2 s'); [eapply same_trans| | |].
Qed.
End ops.
