(* ===== verification/NptXlate.v ===== *)
(** * The nested translation as a set of addresses

    The composition of the mapper ([NptMap], [NptRange], [NptSem]), the walk
    ([Walk]) and the page allocator: after [npg_map] the nested walk translates
    every address of the range to itself, after [npg_unmap] it faults on every
    address of the range, and in both cases it does what it did before on all
    others. *)

From S2P Require Import Prelude.
From S2P Require Import Monad.
From S2P Require Import Cdll.
From S2P Require Import Pagemem.
From S2P Require Import Alloc.
From S2P Require Import Pool.
From S2P Require Import NpgOps.
From S2P Require Import NptMap.
From S2P Require Import NptRange.
From S2P Require Import Walk.
From S2P Require Import NptTables.
From S2P Require Import NptSem.

Section xlate.
Context {A : Type} {PA : PageAlloc A} {PL : PageAllocLaws A} {NO : NpgOps} {NL : NpgLaws NO} (cfg : npg_cfg).

(** The translation the nested walk computes; what the walk structure holds
    before does not matter. *)
Definition npg_translate (s : npst A) (v : Z) : option Z :=
  let '(rc, w) := npg_walk (skillz_pg_2M cfg) (skillz_pg_1G cfg) (rd0 (np_mem s)) (pml4 cfg) v
                    (mk_wlk 0 0 0 false false false false PG_WALK_TYPE_PML4E) in
  if decide (rc = VM_DONE) then Some (w_addr w) else None.

(** The tables are well formed and [k] pages can be allocated. *)
Definition npt_ok (k : Z) (s : npst A) : Prop := exists G, wf cfg G ∅ k s.

Lemma join_block l v : 1 <= l <= 3 -> fits 48 v ->
  wrap64 (pg_addr (3 + 9 * l) (blk l v) + pg_offset (3 + 9 * l) v) = v.
Proof.
  intros Hl Hv. unfold blk. rewrite <- pg_nr_div by lia. unfold fits in *.
  rewrite pg_addr_nr_offset by (unfold fits; lia). apply wrap_id. unfold fits. lia.
Qed.

(** The walk follows the tables. *)
Lemma translate_mapped G k s v : wf cfg G ∅ k s -> fits 48 v ->
  (mapped G (np_mem s) v /\ npg_translate s v = Some v) \/
  (~ mapped G (np_mem s) v /\ npg_translate s v = None).
Proof.
  intros Hw Hv. pose proof Hw as (free & used & _ & _ & Ht). unfold npg_translate, npg_walk.
  destruct (idx_blk v) as (-> & -> & -> & ->).
  pose proof (fun l p b i => unmapped_absent cfg Ht p l b i v) as Hun.
  pose proof (fun l p b i => mapped_leaf G (np_mem s) p l b i v) as Hlf.
  pose proof (wf_root cfg _ _ _ _ Hw Hv) as H4.
  destruct (wf_at cfg _ _ _ _ _ _ Hw H4) as [_ [_ T4 _]]. set (e4 := rd0 (np_mem s) (entry64 (pml4 cfg) (blk 4 v mod 512))) in *.
  destruct (npg_present e4) eqn:Hp4; cbn [negb]; cycle 1.
  { right. split; [|done]. apply (Hun 4 _ _ _ H4 (mod512 _) Hp4). symmetry; by apply (blk_split 4). }
  specialize (T4 ltac:(unfold is_tbl, leaf; by rewrite Hp4)). change (4 - 1) with 3 in T4.
  destruct (wf_at cfg _ _ _ _ _ _ Hw T4) as [_ [_ T3 L3]]. set (e3 := rd0 (np_mem s) (entry64 (page_addr (e_addr e4)) (blk 3 v mod 512))) in *.
  destruct (npg_present e3) eqn:Hp3; cbn [negb]; cycle 1.
  { right. split; [|done]. apply (Hun 3 _ _ _ T4 (mod512 _) Hp3). symmetry; by apply (blk_split 3). }
  destruct (npg_large e3) eqn:Hg3.
  { assert (leaf 3 e3 = true) as Hl by by apply leaf_large. destruct (L3 Hl) as (Hf & _ & ->); [|done].
    left. split; [apply (Hlf 3 _ _ _ T4 ltac:(lia) (mod512 _) Hl); symmetry; by apply (blk_split 3)|].
    cbn. change (pdpe_page_addr e3) with (frame 3 e3). rewrite Hf. f_equal. by apply (join_block 3). }
  rewrite andb_false_r. specialize (T3 ltac:(by apply is_tbl_intro)). change (3 - 1) with 2 in T3.
  destruct (wf_at cfg _ _ _ _ _ _ Hw T3) as [_ [_ T2 L2]]. set (e2 := rd0 (np_mem s) (entry64 (page_addr (e_addr e3)) (blk 2 v mod 512))) in *.
  destruct (npg_present e2) eqn:Hp2; cbn [negb]; cycle 1.
  { right. split; [|done]. apply (Hun 2 _ _ _ T3 (mod512 _) Hp2). symmetry; by apply (blk_split 2). }
  destruct (npg_large e2) eqn:Hg2.
  { assert (leaf 2 e2 = true) as Hl by by apply leaf_large. destruct (L2 Hl) as (Hf & -> & _); [|done].
    left. split; [apply (Hlf 2 _ _ _ T3 ltac:(lia) (mod512 _) Hl); symmetry; by apply (blk_split 2)|].
    cbn. change (pde_page_addr e2) with (frame 2 e2). rewrite Hf. f_equal. by apply (join_block 2). }
  rewrite andb_false_r. specialize (T2 ltac:(by apply is_tbl_intro)). change (2 - 1) with 1 in T2.
  destruct (wf_at cfg _ _ _ _ _ _ Hw T2) as [_ [_ _ L1]]. set (e1 := rd0 (np_mem s) (entry64 (page_addr (e_addr e2)) (blk 1 v mod 512))) in *.
  destruct (npg_present e1) eqn:Hp1; cbn [negb]; cycle 1.
  { right. split; [|done]. apply (Hun 1 _ _ _ T2 (mod512 _) Hp1). symmetry; by apply (blk_split 1). }
  assert (leaf 1 e1 = true) as Hl by (unfold leaf; by rewrite Hp1). destruct (L1 Hl) as (Hf & _ & _).
  left. split; [apply (Hlf 1 _ _ _ T2 ltac:(lia) (mod512 _) Hl); symmetry; by apply (blk_split 1)|].
  cbn. change (e_addr e1) with (frame 1 e1). rewrite Hf. f_equal. by apply (join_block 1).
Qed.

(** ** Ranges *)

Implicit Types op : npg_op (npst A).

(** The pages an operation may allocate. *)
Definition map_cost op : Z :=
  if op_shf op =? PG_4K_SHIFT then 3 else if op_shf op =? PG_2M_SHIFT then cost_2M cfg + 2
  else if op_shf op =? PG_1G_SHIFT then cost_1G cfg + 1 else 512 * cost_1G cfg + 1.
Definition unmap_cost op : Z :=
  if op_shf op =? PG_4K_SHIFT then cost_1G_fine cfg + 1 else if op_shf op =? PG_2M_SHIFT then cost_1G_fine cfg else 0.

Definition calls_cost (cost : npg_op (npst A) -> Z) (l : list (npg_op (npst A) * Z)) : Z :=
  foldr (fun c n => cost c.1 + n) 0 l.

Lemma cost_nonneg op : 0 <= map_cost op /\ 0 <= unmap_cost op.
Proof.
  pose proof (cost_bounds cfg) as [? ?]. unfold map_cost, unmap_cost. repeat case_match; lia.
Qed.

Lemma calls_cost_nonneg cost l : (forall op, 0 <= cost op) -> 0 <= calls_cost cost l.
Proof. intros Hc. induction l as [|[op a] l IH]; simpl; [lia|]. specialize (Hc op). lia. Qed.

(** The effect of a call on the set of mapped addresses. *)
Definition call_effect (act : npg_op_type) (lo hi : Z) (P Q : Z -> Prop) : Prop := forall v,
  match act with
  | NPG_OP_MAP => Q v <-> P v \/ lo <= v < hi
  | _ => Q v <-> P v /\ ~ (lo <= v < hi)
  end.

Definition act_cost (act : npg_op_type) : npg_op (npst A) -> Z :=
  match act with NPG_OP_MAP => map_cost | _ => unmap_cost end.

Lemma adds_effect l addr k G s s' : 0 <= l -> (2 ^ (3 + 9 * l) | addr) -> adds cfg l addr k G s s' ->
  exists G', wf cfg G' ∅ k s' /\
    call_effect NPG_OP_MAP addr (addr + 2 ^ (3 + 9 * l)) (mapped G (np_mem s)) (mapped G' (np_mem s')).
Proof.
  intros Hl Hal (G' & Hw & Hm). exists G'. split; [done|]. intros v. rewrite Hm, blk_range by done.
  by rewrite Z.mul_add_distr_r, Z.mul_1_l, <- aligned_blk.
Qed.

Lemma removes_effect l addr k G s s' : 0 <= l -> (2 ^ (3 + 9 * l) | addr) -> removes cfg l addr k G s s' ->
  exists G', wf cfg G' ∅ k s' /\
    call_effect NPG_OP_UNMAP addr (addr + 2 ^ (3 + 9 * l)) (mapped G (np_mem s)) (mapped G' (np_mem s')).
Proof.
  intros Hl Hal (G' & Hw & Hm). exists G'. split; [done|]. intros v. rewrite Hm, blk_range by done.
  by rewrite Z.mul_add_distr_r, Z.mul_1_l, <- aligned_blk.
Qed.

(** One call. *)
Lemma call_spec act op addr attr G k s : op ∈ npg_ops cfg -> act = NPG_OP_MAP \/ act = NPG_OP_UNMAP ->
  wf cfg G ∅ (k + act_cost act op) s -> 0 <= k -> fits 48 addr -> (op_sz op | addr) ->
  (act = NPG_OP_MAP -> attr_ok attr) ->
  runs (op_fnc op act addr attr) s (fun _ s' => exists G', wf cfg G' ∅ k s' /\
    call_effect act addr (addr + op_sz op) (mapped G (np_mem s)) (mapped G' (np_mem s'))).
Proof.
  intros Hop Hact Hw Hk Had Hal Hat.
  assert (op = npg_512G_op cfg \/ op = npg_1G_op cfg \/ op = npg_2M_op cfg \/ op = npg_4K_op cfg) as Ho.
  { unfold npg_ops in Hop. rewrite !elem_of_cons in Hop. destruct Hop as [|[|[|[|[]%elem_of_nil]]]]; auto. }
  destruct Hact as [->| ->]; destruct Ho as [->|[->|[->| ->]]]; cbn [op_fnc npg_512G_op npg_1G_op npg_2M_op npg_4K_op npg_fnc].
  - eapply runs_mono; [apply map_512G_spec; try done; [|by apply Hat]|intros [] s'; by apply (adds_effect 4)].
    replace (k + 512 * cost_1G cfg + 1) with (k + act_cost NPG_OP_MAP (npg_512G_op cfg)) by (cbn; lia). done.
  - eapply runs_mono; [apply map_1G_spec; try done; [|by apply Hat]|intros [] s'; by apply (adds_effect 3)].
    replace (k + cost_1G cfg + 1) with (k + act_cost NPG_OP_MAP (npg_1G_op cfg)) by (cbn; lia). done.
  - eapply runs_mono; [apply map_2M_spec; try done; [|by apply Hat]|intros [] s'; by apply (adds_effect 2)].
    replace (k + cost_2M cfg + 2) with (k + act_cost NPG_OP_MAP (npg_2M_op cfg)) by (cbn; lia). done.
  - eapply runs_mono; [apply map_4K_spec; try done; by apply Hat|intros [] s'; by apply (adds_effect 1)].
  - eapply runs_mono; [apply (unmap_512G_spec cfg addr G k s); try done; eapply wf_less; [|exact Hw]; cbn; lia|].
    intros [] s'; by apply (removes_effect 4).
  - eapply runs_mono; [apply (unmap_1G_spec cfg addr G k s); try done; eapply wf_less; [|exact Hw]; cbn; lia|].
    intros [] s'; by apply (removes_effect 3).
  - eapply runs_mono; [apply (unmap_2M_spec cfg addr G k s); try done|intros [] s'; by apply (removes_effect 2)].
  - eapply runs_mono; [apply (unmap_4K_spec cfg addr G k s); try done|intros [] s'; by apply (removes_effect 1)].
    replace (k + cost_1G_fine cfg + 1) with (k + act_cost NPG_OP_UNMAP (npg_4K_op cfg)) by (cbn; lia). done.
Qed.

Lemma op_sz_pos op : op ∈ npg_ops cfg -> 0 < op_sz op.
Proof.
  unfold npg_ops. rewrite !elem_of_cons. by intros [->|[->|[->|[->|[]%elem_of_nil]]]].
Qed.

Lemma tiles_le a b l : tiles (npg_ops cfg) a b l -> a <= b.
Proof.
  intros Ht. induction Ht as [|op a b l Hop _ _ IH]; [done|]. pose proof (op_sz_pos op Hop). lia.
Qed.

Lemma effect_seq act a c b P Q R : act = NPG_OP_MAP \/ act = NPG_OP_UNMAP -> a <= c <= b ->
  call_effect act a c P Q -> call_effect act c b Q R -> call_effect act a b P R.
Proof.
  intros Hact Hc H1 H2 v. specialize (H1 v). specialize (H2 v).
  assert (a <= v < b <-> a <= v < c \/ c <= v < b) as Hr by lia.
  destruct Hact as [->| ->]; rewrite H2, H1, Hr; tauto.
Qed.

Lemma calls_spec act attr a b l : tiles (npg_ops cfg) a b l -> act = NPG_OP_MAP \/ act = NPG_OP_UNMAP ->
  0 <= a -> b <= 2 ^ 48 -> (act = NPG_OP_MAP -> attr_ok attr) -> forall G k s, 0 <= k ->
  wf cfg G ∅ (k + calls_cost (act_cost act) l) s ->
  runs (run_calls act attr l) s (fun _ s' => exists G', wf cfg G' ∅ k s' /\
    call_effect act a b (mapped G (np_mem s)) (mapped G' (np_mem s'))).
Proof.
  intros Ht Hact Ha Hb Hat. induction Ht as [a|op a b l Hop Hd Ht IH]; intros G k s Hk Hw.
  - apply runs_ret. exists G. cbn in Hw. rewrite Z.add_0_r in Hw. split; [done|].
    intros v. destruct Hact as [->| ->]; split; try tauto; [intros [?|?]; [done|lia]|intros; split; [done|lia]].
  - pose proof (op_sz_pos op Hop). pose proof (tiles_le _ _ _ Ht).
    assert (0 <= calls_cost (act_cost act) l) as Hcl.
    { apply calls_cost_nonneg. intros op'. destruct (cost_nonneg op') as [? ?]. by destruct act. }
    apply runs_bind. eapply runs_mono.
    + apply (call_spec act op a attr G (k + calls_cost (act_cost act) l) s Hop Hact); [|lia|unfold fits; lia|done|done].
      eapply wf_less; [|exact Hw]. cbn [calls_cost foldr fst]. unfold calls_cost. lia.
    + intros [] s1 (G1 & Hw1 & He1). eapply runs_mono; [apply (IH ltac:(lia) Hb G1 k s1 Hk Hw1)|].
      intros [] s2 (G2 & Hw2 & He2). exists G2. split; [done|]. eapply effect_seq; [done| |done|done]. lia.
Qed.

(** The result of a range operation, unless it panics. *)
Lemma range_spec act attr start end_ : (4096 | start) -> (4096 | end_) -> 0 <= start <= end_ -> end_ <= 2 ^ 48 ->
  start < max_paddr cfg -> act = NPG_OP_MAP \/ act = NPG_OP_UNMAP -> (act = NPG_OP_MAP -> attr_ok attr) ->
  exists l, tiles (npg_ops cfg) start end_ l /\ forall k s, 0 <= k -> npt_ok (k + calls_cost (act_cost act) l) s ->
    runs (npg_range (max_paddr cfg) start end_ attr (npg_ops cfg) act) s (fun _ s' => npt_ok k s' /\
      forall v, fits 48 v -> npg_translate s' v =
        if (start <=? v) && (v <? end_) then (match act with NPG_OP_MAP => Some v | _ => None end)
        else npg_translate s v).
Proof.
  intros Hs He H0 H1 Hm Hact Hat.
  destruct (range_calls (npg_ops cfg) act attr start end_ (max_paddr cfg) (npg_ops_chain cfg) Hs He)
    as (l & Ht & Hrun); [lia|lia|done|].
  exists l. split; [done|]. intros k s Hk [G Hw]. unfold runs. rewrite Hrun.
  pose proof (calls_spec act attr _ _ l Ht Hact ltac:(lia) H1 Hat G k s Hk Hw) as Hc.
  unfold runs in Hc. destruct (run_calls act attr l s) as [[[] s']|]; [|done].
  destruct Hc as (G' & Hw' & Hef). split; [by exists G'|]. intros v Hv. specialize (Hef v).
  assert ((start <=? v) && (v <? end_) = true <-> start <= v < end_) as Hr by (rewrite andb_true_iff; lia).
  destruct (translate_mapped _ _ _ v Hw Hv) as [[Hm1 ->]|[Hm1 ->]],
    (translate_mapped _ _ _ v Hw' Hv) as [[Hm2 ->]|[Hm2 ->]];
    destruct (_ && _); destruct Hact as [->| ->]; try done; exfalso; rewrite <- Hr in Hef; clear Hr; intuition congruence.
Qed.
End xlate.

(** A table root that maps nothing. *)
Lemma npt_ok_init {A} {PA : PageAlloc A} {PL : PageAllocLaws A} {NO : NpgOps} {NL : NpgLaws NO} cfg k
    (s : npst A) free used : alloc_rep (np_al s) free used -> k <= Z.of_nat (length free) ->
  is_page (pml4 cfg) -> pml4 cfg ∉ free -> (forall i, rd0 (np_mem s) (entry64 (pml4 cfg) i) = 0) ->
  npt_ok cfg k s.
Proof.
  intros Ha Hk Hpg Hf H0. exists {[pml4 cfg := (4, 0)]}, free, used. split_and!; [done..|].
  assert (forall p x, ({[pml4 cfg := (4, 0)]} : gmap Z (Z * Z)) !! p = Some x -> p = pml4 cfg /\ x = (4, 0)) as HG.
  { intros p x Hp. apply lookup_singleton_Some in Hp as [<- <-]. done. }
  split.
  - apply lookup_singleton_eq.
  - intros p l b [-> [= -> ->]]%HG. split_and!; [lia|lia|done|done|done|lia].
  - intros p q x [-> _]%HG [-> _]%HG. done.
  - intros p l b i [-> [= -> ->]]%HG _. rewrite H0. apply absent_ok; [apply npg_absent_0..|done].
  - intros p l b [_ [= -> ->]]%HG. lia.
Qed.

Lemma calls_cost_le {A} {PA : PageAlloc A} {NO : NpgOps} cfg (cost : npg_op (npst A) -> Z) n a b l :
  tiles (npg_ops cfg) a b l -> (forall op, op ∈ npg_ops cfg -> cost op * 4096 <= n * op_sz op) ->
  calls_cost cost l * 4096 <= n * (b - a).
Proof.
  intros Ht Hc. induction Ht as [|op a b l Hop _ _ IH]; cbn [calls_cost foldr fst]; [lia|].
  specialize (Hc op Hop). unfold calls_cost in IH. lia.
Qed.

(** ** Properties *)

Section properties.
Context {A : Type} {PA : PageAlloc A} {PL : PageAllocLaws A} {NO : NpgOps} {NL : NpgLaws NO} (cfg : npg_cfg).

(** C1: Mapping a range into well-formed nested tables, with the pages its tiling
    may need: the tables are well formed again, every address of the range
    translates to itself and every other address translates as before.  The
    mapper cannot fail on AMD; on Intel it panics on an MTRR overlap it does
    not resolve. *)
Theorem npg_map_translates start end_ attr :
  (4096 | start) -> (4096 | end_) -> 0 <= start <= end_ -> end_ <= 2 ^ 48 -> start < max_paddr cfg -> attr_ok attr ->
  exists l, tiles (npg_ops cfg) start end_ l /\ forall k (s : npst A), 0 <= k ->
    npt_ok cfg (k + calls_cost (map_cost cfg) l) s ->
    match npg_map cfg start end_ attr s with
    | Some (_, s') => npt_ok cfg k s' /\ forall v, fits 48 v ->
        npg_translate cfg s' v = if (start <=? v) && (v <? end_) then Some v else npg_translate cfg s v
    | None => may_panic
    end.
Proof.
  intros. apply (range_spec cfg NPG_OP_MAP attr start end_); auto.
Qed.

(** C2: Unmapping a range from well-formed nested tables: the tables are well
    formed again, the walk faults on every address of the range, large pages
    that straddle its ends included, and translates every other address as
    before. *)
Theorem npg_unmap_translates start end_ :
  (4096 | start) -> (4096 | end_) -> 0 <= start <= end_ -> end_ <= 2 ^ 48 -> start < max_paddr cfg ->
  exists l, tiles (npg_ops cfg) start end_ l /\ forall k (s : npst A), 0 <= k ->
    npt_ok cfg (k + calls_cost (unmap_cost cfg) l) s ->
    match npg_unmap cfg start end_ s with
    | Some (_, s') => npt_ok cfg k s' /\ forall v, fits 48 v ->
        npg_translate cfg s' v = if (start <=? v) && (v <? end_) then None else npg_translate cfg s v
    | None => may_panic
    end.
Proof.
  intros. apply (range_spec cfg NPG_OP_UNMAP 0 start end_); auto. intros [=].
Qed.
End properties.

(** ** Witnesses: an AMD machine with an empty table and a pool of 16 pages. *)

Definition xl_pool : vmm_pool := mk_pool 0x100000 0x10000 0x80000 0 0 ∅ ∅.
Definition xl_cfg : npg_cfg := mk_npg_cfg 0x50000 true true (2 ^ 36 - 1).
Definition xl_state : npst vmm_pool := mk_npst ∅ (pool_init xl_pool).

Lemma xl_ok : npt_ok (NO:=svm_npg true) xl_cfg 16 xl_state.
Proof.
  assert (layout_ok xl_pool) as Hlo.
  { split; unfold nr_pages; simpl; [exists 0x100|done|]; change (0x10000 / 4096) with 16; lia. }
  apply (npt_ok_init xl_cfg 16 xl_state (page xl_pool <$> reverse (seqZ 0 (nr_pages xl_pool))) ∅).
  - exists (reverse (seqZ 0 (nr_pages xl_pool))), []. split; [by apply (init_wf xl_pool)|].
    split; [|done]. change (np_al xl_state) with (pool_init xl_pool). by rewrite page_init.
  - by vm_compute.
  - exists 0x50. by vm_compute.
  - rewrite list_elem_of_fmap. intros (i & Hi & Hin). rewrite elem_of_reverse, elem_of_seqZ in Hin.
    unfold page in Hi. cbn in Hi. change (nr_pages xl_pool) with 16 in Hin. lia.
  - intros i. unfold rd0. cbn [np_mem xl_state]. by rewrite lookup_empty.
Qed.

Lemma xl_map_cost l : tiles (npg_ops (PA:=pool_alloc) (NO:=svm_npg true) xl_cfg) 0x1ff000 0x201000 l -> calls_cost (map_cost xl_cfg) l <= 6.
Proof.
  intros Ht. pose proof (calls_cost_le xl_cfg (map_cost xl_cfg) 3 _ _ l Ht) as H. enough (calls_cost (map_cost xl_cfg) l * 4096 <= 3 * 8192) by lia.
  apply H. unfold npg_ops. intros op. rewrite !elem_of_cons. by intros [->|[->|[->|[->|[]%elem_of_nil]]]].
Qed.

Lemma xl_unmap_cost l : tiles (npg_ops (PA:=pool_alloc) (NO:=svm_npg true) xl_cfg) 0x200000 0x201000 l -> calls_cost (unmap_cost xl_cfg) l <= 2.
Proof.
  intros Ht. pose proof (calls_cost_le xl_cfg (unmap_cost xl_cfg) 2 _ _ l Ht) as H. enough (calls_cost (unmap_cost xl_cfg) l * 4096 <= 2 * 4096) by lia.
  apply H. unfold npg_ops. intros op. rewrite !elem_of_cons. by intros [->|[->|[->|[->|[]%elem_of_nil]]]].
Qed.

(** Two pages, on both sides of a 2MB boundary. *)
Lemma npg_map_translates_witness : exists s', npg_map (NO:=svm_npg true) xl_cfg 0x1ff000 0x201000 0 xl_state = Some (tt, s') /\
  npg_translate (NO:=svm_npg true) xl_cfg s' 0x200abc = Some 0x200abc /\
  npg_translate (NO:=svm_npg true) xl_cfg s' 0x201000 = npg_translate (NO:=svm_npg true) xl_cfg xl_state 0x201000.
Proof.
  destruct (npg_map_translates (NO:=svm_npg true) (A:=vmm_pool) xl_cfg 0x1ff000 0x201000 0) as (l & Ht & Hl);
    [by exists 0x1ff|by exists 0x201|lia|lia|by vm_compute|done|].
  pose proof (xl_map_cost l Ht) as Hc. specialize (Hl (16 - calls_cost (map_cost xl_cfg) l) xl_state ltac:(lia)).
  replace (16 - calls_cost (map_cost xl_cfg) l + calls_cost (map_cost xl_cfg) l) with 16 in Hl by lia.
  specialize (Hl xl_ok). destruct (npg_map xl_cfg 0x1ff000 0x201000 0 xl_state) as [[[] s']|]; [|done].
  exists s'. destruct Hl as [_ Hl]. split; [done|]. split; rewrite (Hl _) by (unfold fits; lia); done.
Defined.

(** One of them unmapped again. *)
Lemma npg_unmap_translates_witness : exists s1 s2,
  npg_map (NO:=svm_npg true) xl_cfg 0x1ff000 0x201000 0 xl_state = Some (tt, s1) /\
  npg_unmap (NO:=svm_npg true) xl_cfg 0x200000 0x201000 s1 = Some (tt, s2) /\
  npg_translate (NO:=svm_npg true) xl_cfg s2 0x200abc = None /\
  npg_translate (NO:=svm_npg true) xl_cfg s2 0x1ff123 = npg_translate (NO:=svm_npg true) xl_cfg s1 0x1ff123.
Proof.
  destruct (range_spec (NO:=svm_npg true) (A:=vmm_pool) xl_cfg NPG_OP_MAP 0 0x1ff000 0x201000) as (l & Ht & Hl);
    [by exists 0x1ff|by exists 0x201|lia|lia|by vm_compute|by left|done|].
  pose proof (xl_map_cost l Ht) as Hc.
  assert (npt_ok (NO:=svm_npg true) xl_cfg (2 + calls_cost (map_cost xl_cfg) l) xl_state) as Hok.
  { destruct xl_ok as [G HG]. exists G. eapply wf_less; [|exact HG]. lia. }
  specialize (Hl 2 xl_state ltac:(lia) Hok). unfold runs in Hl.
  change (npg_range _ _ _ _ _ _ xl_state) with (npg_map (NO:=svm_npg true) xl_cfg 0x1ff000 0x201000 0 xl_state) in Hl.
  destruct (npg_map xl_cfg 0x1ff000 0x201000 0 xl_state) as [[[] s1]|]; [|done].
  exists s1. destruct Hl as [Hok1 _].
  destruct (npg_unmap_translates (NO:=svm_npg true) (A:=vmm_pool) xl_cfg 0x200000 0x201000) as (l2 & Ht2 & Hl2);
    [by exists 0x200|by exists 0x201|lia|lia|by vm_compute|].
  pose proof (xl_unmap_cost l2 Ht2) as Hc2. specialize (Hl2 (2 - calls_cost (unmap_cost xl_cfg) l2) s1 ltac:(lia)).
  replace (2 - calls_cost (unmap_cost xl_cfg) l2 + calls_cost (unmap_cost xl_cfg) l2) with 2 in Hl2 by lia.
  specialize (Hl2 Hok1). destruct (npg_unmap xl_cfg 0x200000 0x201000 s1) as [[[] s2]|]; [|done].
  exists s2. destruct Hl2 as [_ Hl2]. split; [done|]. split; [done|]. split; rewrite (Hl2 _) by (unfold fits; lia); done.
Defined.
