(* ===== verification/Str.v ===== *)
(** * Strings, numbers and checksums
    (common/libc/string.c, include/string.h, common/libc/print.c,
    common/libc/base64.c, common/net/checksum.c)

    Characters are bytes, integers in [0, 256); a C string is the list of its
    characters before the final zero.  An output buffer is the list of the
    characters written so far: its length is the [sz] field of [buffer_t]. *)

From S2P Require Import Prelude.

Abbreviation bytes := (list Z).

(** ** Hexadecimal and decimal conversion (string.c) *)

Definition hextable : bytes :=
  [48; 49; 50; 51; 52; 53; 54; 55; 56; 57; 97; 98; 99; 100; 101; 102].
Definition hexchar (n : Z) : Z := nth (Z.to_nat n) hextable 0.

(** [__buf_add]: characters beyond [len] are dropped. *)
Definition buf_add (len : Z) (buf : bytes) (c : Z) : bytes :=
  if Z.of_nat (length buf) <? len then buf ++ [c] else buf.

Definition uint8_to_hex (value : Z) : Z * Z :=
  (hexchar (Z.land (Z.shiftr value 4) 0xf), hexchar (Z.land value 0xf)).

(** The digit loop of [uint64_to_hex]: digits in [rep], least significant
    first; the 64-bit [precision] counts down. *)
Fixpoint hex_digits (fuel : nat) (value precision : Z) (rep : bytes) : option bytes :=
  if c_true precision &&
     negb ((16 <? precision) && negb (c_true value) && negb (length rep =? 0)%nat) then
    match fuel with
    | O => None
    | S fuel =>
        hex_digits fuel (Z.shiftr value 4) (precision - 1)
          (rep ++ [hexchar (Z.land value 0xf)])
    end
  else Some rep.

(** Sixteen iterations are enough for any 64-bit value and precision. *)
Definition HEX_FUEL : nat := 16.

Definition uint64_to_hex (buf : bytes) (len value precision : Z) : option (bytes * Z) :=
  let precision := if negb (c_true precision) || (16 <? precision) then 2 ^ 64 - 1 else precision in
  rep ← hex_digits HEX_FUEL value precision [];
  Some (fold_left (buf_add len) (reverse rep) buf, Z.of_nat (length rep)).

Definition BAD_NIBBLE : Z := 255.

Definition to_nibble (nibble : Z) : Z :=
  if (97 <=? nibble) && (nibble <=? 102) then wrap8 (nibble - 97 + 10)
  else if (65 <=? nibble) && (nibble <=? 70) then wrap8 (nibble - 65 + 10)
  else if (48 <=? nibble) && (nibble <=? 57) then nibble - 48
  else BAD_NIBBLE.

Definition hex_to_uint8 (d0 d1 : Z) : option Z :=
  let n1 := to_nibble d1 in
  let n2 := to_nibble d0 in
  if (n1 =? BAD_NIBBLE) || (n2 =? BAD_NIBBLE) then None
  else Some (wrap8 (Z.lor (Z.shiftl n2 4) n1)).

(** The loop of [hex_to_uint64], over the characters from the last one. *)
Fixpoint hex_value (rdata : bytes) (v shift : Z) : option Z :=
  match rdata with
  | [] => Some v
  | c :: rdata =>
      let nibble := to_nibble c in
      if nibble =? BAD_NIBBLE then None
      else hex_value rdata (Z.lor v (wrap64 (Z.shiftl nibble shift))) (shift + 4)
  end.

Definition hex_to_uint64 (data : bytes) : option Z :=
  match data with
  | [] => None
  | _ => hex_value (reverse (take 16 data)) 0 0
  end.

Fixpoint dec_value (rdata : bytes) (v f : Z) : option Z :=
  match rdata with
  | [] => Some v
  | x :: rdata =>
      if (x <? 48) || (57 <? x) then None
      else dec_value rdata (wrap64 (v + (x - 48) * f)) (wrap64 (f * 10))
  end.

Definition dec_to_uint64 (data : bytes) : option Z :=
  match data with
  | [] => None
  | _ => dec_value (reverse (take 20 data)) 0 1
  end.

(** ** Formatted output (print.c) *)

Definition format_add_str (buf : bytes) (len : Z) (s : bytes) : bytes :=
  fold_left (buf_add len) s buf.
Definition format_add_chr (buf : bytes) (len c : Z) : bytes := buf_add len buf (wrap8 c).
Definition format_add_bin (buf : bytes) (len value n : Z) : bytes :=
  fold_left (fun buf i =>
    let b := Z.land (Z.shiftr value (n - i - 1)) 1 in
    buf_add len buf (if c_true b then 49 else 48)) (seqZ 0 n) buf.

(** The digits of a positive number, least significant first. *)
Fixpoint dec_digits (fuel : nat) (value : Z) (dec : bytes) : option bytes :=
  if c_true value then
    match fuel with
    | O => None
    | S fuel => dec_digits fuel (Z.quot value 10) (dec ++ [wrap8 (Z.rem value 10 + 48)])
    end
  else Some dec.

(** Twenty digits are enough for 64 bits. *)
Definition DEC_FUEL : nat := 20.

(** A 64-bit value read as signed. *)
Definition sint64 (v : Z) : Z := if v <? 2 ^ 63 then v else v - 2 ^ 64.
Definition sint32 (v : Z) : Z := if v <? 2 ^ 31 then v else v - 2 ^ 32.

Definition format_add_dec (buf : bytes) (len value : Z) : option bytes :=
  if negb (c_true value) then Some (buf_add len buf 48)
  else
    let '(buf, value) :=
      if value <? 0 then (buf_add len buf 45, sint64 (wrap64 (- value))) else (buf, value) in
    dec ← dec_digits DEC_FUEL value [];
    Some (fold_left (buf_add len) (reverse dec) buf).

Definition format_add_hex (buf : bytes) (len value precision : Z) : option bytes :=
  fst <$> uint64_to_hex buf len value precision.

(** An argument of the variable list. *)
Inductive varg := VStr (s : bytes) | VInt (v : Z).

(** [__format_add] of the directive [c] with an integer argument. *)
Definition format_int (c v : Z) : option (Z -> bytes -> option bytes) :=
  if c =? 99 then Some (fun len buf => Some (format_add_chr buf len v))
  else if c =? 98 then Some (fun len buf => Some (format_add_bin buf len (wrap32 v) 32))
  else if c =? 66 then Some (fun len buf => Some (format_add_bin buf len (wrap64 v) 64))
  else if c =? 100 then Some (fun len buf => format_add_dec buf len (sint32 (wrap32 v)))
  else if c =? 68 then Some (fun len buf => format_add_dec buf len (sint64 (wrap64 v)))
  else if c =? 120 then Some (fun len buf => format_add_hex buf len (wrap32 v) 0)
  else if c =? 88 then Some (fun len buf => format_add_hex buf len (wrap64 v) 0)
  else None.

(** The scan of the format: [interp] follows a percent sign.  [None] when an
    argument is missing or of the wrong kind, where C is undefined. *)
Fixpoint vsnprintf_scan (format : bytes) (params : list varg) (interp : bool)
    (len : Z) (buf : bytes) : option bytes :=
  match format with
  | [] => Some buf
  | c :: format =>
      if interp then
        if c =? 115 then
          match params with
          | VStr s :: params => vsnprintf_scan format params false len (format_add_str buf len s)
          | _ => None
          end
        else if format_int c 0 is Some _ then
          match params with
          | VInt v :: params =>
              f ← format_int c v; buf ← f len buf; vsnprintf_scan format params false len buf
          | _ => None
          end
        else vsnprintf_scan format params false len (buf_add len buf c)
      else if c =? 37 then vsnprintf_scan format params true len buf
      else vsnprintf_scan format params false len (buf_add len buf c)
  end.

(** [__vsnprintf]: the bytes written, the final zero included; their number is
    the value returned. *)
Definition vsnprintf (len : Z) (format : bytes) (params : list varg) : option bytes :=
  let len := if c_true len then len - 1 else len in
  buf ← vsnprintf_scan format params false len [];
  Some (buf ++ [0]).

(** ** Base64 (base64.c) *)

Definition base64_table : bytes :=
  map Z.of_nat (seq 65 26 ++ seq 97 26 ++ seq 48 10) ++ [43; 47].

(** [swap64(val)>>16]: the first six bytes in memory, big endian. *)
Definition be48 (b : bytes) : Z := fold_left (fun v x => v * 256 + x) (take 6 b) 0.

(** [__base64_encode]: eight characters from the memory at [b]. *)
Definition base64_group (b : bytes) : bytes :=
  map (fun i => nth (Z.to_nat (Z.land (Z.shiftr (be48 b) (6 * (7 - i))) 0x3f)) base64_table 0)
    (seqZ 0 8).

(** [base64_encode] of [len] bytes of the memory [mem], which goes on after
    them: the last group is read past the end. *)
Fixpoint base64_full (n : nat) (mem : bytes) : bytes * bytes :=
  match n with
  | O => ([], mem)
  | S n => let (out, rest) := base64_full n (drop 6 mem) in (base64_group mem ++ out, rest)
  end.

Definition base64_encode (mem : bytes) (len : Z) : bytes :=
  let rm := len mod 6 in
  let (out, rest) := base64_full (Z.to_nat (len / 6)) mem in
  if c_true rm then
    let rm := if 3 <? rm then rm + 2 else rm + 1 in
    out ++ take (Z.to_nat rm) (base64_group rest) ++ [61]
  else out.

(** ** Internet checksum (checksum.c) *)

Definition swap16 (v : Z) : Z := Z.lor (Z.shiftl (Z.land v 0xff) 8) (Z.shiftr v 8).

(** [adc16] of math.h: add, then add the carry. *)
Definition adc16 (a b : Z) : Z :=
  let s := a + b in wrap16 (wrap16 s + Z.shiftr s 16).

Definition rfc1071_checksum (data : list Z) (len : Z) : Z :=
  let chk := fold_left (fun chk w => wrap32 (chk + swap16 w)) (take (Z.to_nat (len / 2)) data) 0 in
  wnot 16 (adc16 (bits chk 16 16) (bits chk 0 16)).

(** ** Buffers *)

Lemma buf_add_length len buf c :
  Z.of_nat (length (buf_add len buf c)) <= Z.max len (Z.of_nat (length buf)).
Proof.
  unfold buf_add. destruct (Z.ltb_spec (Z.of_nat (length buf)) len); [|lia].
  rewrite length_app. simpl. lia.
Qed.

Lemma buf_adds_length len cs buf :
  Z.of_nat (length (fold_left (buf_add len) cs buf)) <= Z.max len (Z.of_nat (length buf)).
Proof.
  revert buf. induction cs as [|c cs IH]; intros buf; simpl; [lia|].
  etrans; [apply IH|]. pose proof (buf_add_length len buf c). lia.
Qed.

Lemma buf_adds_fit len cs buf : Z.of_nat (length buf + length cs) <= len ->
  fold_left (buf_add len) cs buf = buf ++ cs.
Proof.
  revert buf. induction cs as [|c cs IH]; intros buf Hl; simpl in *; [by rewrite app_nil_r|].
  unfold buf_add at 2. rewrite (proj2 (Z.ltb_lt _ _)) by lia.
  rewrite IH by (rewrite length_app; simpl; lia). by rewrite <- app_assoc.
Qed.

(** ** Hexadecimal digits *)

(** The number written by nibbles, least significant first. *)
Fixpoint le16 (ns : list Z) : Z :=
  match ns with [] => 0 | n :: ns => n + 16 * le16 ns end.

Definition nibble (n : Z) : Prop := 0 <= n < 16.

Lemma hexchar_nibble n : nibble n -> to_nibble (hexchar n) = n.
Proof.
  intros Hn. unfold nibble in Hn.
  assert (Forall (fun n => to_nibble (hexchar n) = n) (seqZ 0 16)) as Hall by by repeat constructor.
  rewrite Forall_forall in Hall. apply Hall, elem_of_seqZ. lia.
Qed.

Lemma land_nibble v : 0 <= v -> nibble (Z.land v 0xf) /\ v = Z.land v 0xf + 16 * Z.shiftr v 4.
Proof.
  intros Hv. change 0xf with (Z.ones 4). rewrite Z.land_ones, Z.shiftr_div_pow2 by lia.
  change (2 ^ 4) with 16. pose proof (Z.mod_pos_bound v 16). pose proof (Z.div_mod v 16).
  unfold nibble. lia.
Qed.

(** The digit loop writes the nibbles of the value and never more than the
    fuel: the digits fit the 16-character array of the code. *)
Lemma hex_digits_spec fuel v p rep : 0 <= v < 16 ^ Z.of_nat fuel -> 16 + Z.of_nat fuel < p ->
  (rep = [] -> (0 < fuel)%nat) ->
  exists ns, hex_digits fuel v p rep = Some (rep ++ map hexchar ns) /\
    Forall nibble ns /\ le16 ns = v /\ (length ns <= fuel)%nat /\ (rep = [] -> ns <> []).
Proof.
  revert v p rep. induction fuel as [|fuel IH]; intros v p rep Hv Hp Hr.
  - assert (v = 0) as -> by lia. simpl. destruct rep as [|c rep]; [specialize (Hr eq_refl); lia|].
    exists []. rewrite (proj2 (Z.ltb_lt 16 p)) by lia. simpl.
    rewrite andb_false_r, app_nil_r. by split_and!.
  - cbn [hex_digits]. unfold c_true at 1. rewrite (proj2 (Z.eqb_neq p 0)) by lia.
    rewrite (proj2 (Z.ltb_lt 16 p)) by lia. cbn [negb andb].
    destruct (negb (negb (c_true v) && negb (length rep =? 0)%nat)) eqn:Hstop.
    + destruct (land_nibble v) as [Hn Hv']; [lia|].
      destruct (IH (Z.shiftr v 4) (p - 1) (rep ++ [hexchar (Z.land v 0xf)])) as (ns & He & Hf & Hl & Hlen & _).
      * rewrite Z.shiftr_div_pow2 by lia. change (2 ^ 4) with 16.
        rewrite Nat2Z.inj_succ, Z.pow_succ_r in Hv by lia.
        split; [apply Z.div_pos; lia|apply Z.div_lt_upper_bound; lia].
      * lia.
      * by destruct rep.
      * exists (Z.land v 0xf :: ns). rewrite He, <- app_assoc. split_and!; [done|by constructor| |simpl; lia|done].
        simpl. by rewrite Hl.
    + exists []. apply negb_false_iff, andb_true_iff in Hstop as [H1 H2].
      unfold c_true in H1. rewrite negb_involutive in H1. apply Z.eqb_eq in H1 as ->.
      rewrite app_nil_r. split_and!; [done..|simpl; lia|]. intros ->. done.
Qed.

(** With a precision of at most the fuel, exactly that many digits. *)
Lemma hex_digits_short fuel v p rep : 0 <= p <= Z.of_nat fuel -> p <= 16 ->
  exists ns, hex_digits fuel v p rep = Some (rep ++ map hexchar ns) /\ Z.of_nat (length ns) = p.
Proof.
  revert v p rep. induction fuel as [|fuel IH]; intros v p rep Hp H16; cbn [hex_digits].
  - assert (p = 0) as -> by lia. exists []. by rewrite app_nil_r.
  - unfold c_true at 1. destruct (Z.eqb_spec p 0) as [->|]; cbn [negb andb].
    { exists []. by rewrite app_nil_r. }
    rewrite (proj2 (Z.ltb_ge 16 p)) by lia. cbn [negb andb].
    destruct (IH (Z.shiftr v 4) (p - 1) (rep ++ [hexchar (Z.land v 0xf)])) as (ns & -> & Hl); [lia..|].
    exists (Z.land v 0xf :: ns). rewrite <- app_assoc. simpl. split; [done|lia].
Qed.

Lemma hex_value_spec ns v sh : Forall nibble ns -> 0 <= sh -> 0 <= v < 2 ^ sh ->
  sh + 4 * Z.of_nat (length ns) <= 64 ->
  hex_value (map hexchar ns) v sh = Some (v + 2 ^ sh * le16 ns).
Proof.
  intros Hf. revert v sh. induction Hf as [|n ns Hn Hf IH]; intros v sh Hs Hv Hb; simpl in *.
  { f_equal. lia. }
  rewrite hexchar_nibble by done. unfold nibble in Hn.
  rewrite (proj2 (Z.eqb_neq n BAD_NIBBLE)) by (unfold BAD_NIBBLE; lia).
  assert (2 ^ (sh + 4) = 2 ^ sh * 16) as Hp by (by rewrite Z.pow_add_r by lia).
  assert (2 ^ (sh + 4) <= 2 ^ 64) by (apply Z.pow_le_mono_r; lia).
  rewrite wrap_id.
  2: { rewrite Z.shiftl_mul_pow2 by done. split; nia. }
  rewrite lor_shiftl_add by done. rewrite IH by (lia || nia). f_equal. rewrite Hp. lia.
Qed.

(** ** Decimal digits *)

Fixpoint le10 (ds : list Z) : Z :=
  match ds with [] => 0 | d :: ds => d + 10 * le10 ds end.

Definition digit (d : Z) : Prop := 0 <= d < 10.
Definition deccar (d : Z) : Z := d + 48.

Lemma dec_digits_spec fuel v dec : 0 <= v < 10 ^ Z.of_nat fuel ->
  exists ds, dec_digits fuel v dec = Some (dec ++ map deccar ds) /\ Forall digit ds /\
    le10 ds = v /\ (length ds <= fuel)%nat /\ (0 < v -> ds <> []).
Proof.
  revert v dec. induction fuel as [|fuel IH]; intros v dec Hv; cbn [dec_digits].
  { assert (v = 0) as -> by lia. exists []. rewrite app_nil_r. by split_and!. }
  destruct (c_true v) eqn:Hc.
  - rewrite Nat2Z.inj_succ, Z.pow_succ_r in Hv by lia.
    rewrite Z.quot_div_nonneg, Z.rem_mod_nonneg by lia.
    pose proof (Z.mod_pos_bound v 10). pose proof (Z.div_mod v 10).
    destruct (IH (v / 10) (dec ++ [wrap8 (v mod 10 + 48)])) as (ds & He & Hf & Hl & Hlen & _).
    { split; [apply Z.div_pos; lia|apply Z.div_lt_upper_bound; lia]. }
    exists (v mod 10 :: ds). rewrite He, <- app_assoc.
    rewrite wrap_id by (split; lia). split_and!; [done|constructor; [unfold digit; lia|done]| |simpl; lia|done].
    simpl. rewrite Hl. lia.
  - unfold c_true in Hc. apply negb_false_iff, Z.eqb_eq in Hc as ->.
    exists []. rewrite app_nil_r. split_and!; [done..|simpl; lia|lia].
Qed.

Lemma dec_value_spec ds v f : Forall digit ds -> 0 < f -> 0 <= v -> v + f * le10 ds < 2 ^ 64 ->
  (ds <> [] -> f * 10 ^ (Z.of_nat (length ds) - 1) < 2 ^ 64) ->
  dec_value (map deccar ds) v f = Some (v + f * le10 ds).
Proof.
  intros Hf. revert v f. induction Hf as [|d ds Hd Hf IH]; intros v f Hf0 Hv Hb Hfb; simpl in *.
  { f_equal. lia. }
  unfold digit, deccar in *. destruct (Z.ltb_spec (d + 48) 48), (Z.ltb_spec 57 (d + 48)); try lia. simpl.
  assert (0 <= le10 ds) as Hds.
  { clear -Hf. induction Hf as [|? ? ? ? IHf]; simpl; unfold digit in *; lia. }
  replace (d + 48 - 48) with d by lia.
  assert (Hvd : wrap64 (v + d * f) = v + d * f) by (apply wrap_id; split; nia).
  rewrite Hvd. destruct ds as [|d' ds].
  { simpl. f_equal. lia. }
  assert (wrap64 (f * 10) = f * 10) as ->.
  { apply wrap_id. specialize (Hfb ltac:(done)). simpl length in Hfb.
    assert (10 ^ 1 <= 10 ^ (Z.of_nat (S (S (length ds))) - 1)) by (apply Z.pow_le_mono_r; lia).
    split; nia. }
  rewrite IH; [f_equal; simpl; lia|lia|nia|simpl in *; nia|].
  intros _. specialize (Hfb ltac:(done)). simpl length in *.
  replace (Z.of_nat (S (S (length ds))) - 1) with (1 + (Z.of_nat (S (length ds)) - 1)) in Hfb by lia.
  rewrite Z.pow_add_r in Hfb by lia. lia.
Qed.

Lemma uint64_to_hex_total v p : fits 64 v -> 0 <= p ->
  exists ns, (forall buf len, uint64_to_hex buf len v p =
      Some (fold_left (buf_add len) (reverse (map hexchar ns)) buf, Z.of_nat (length ns))) /\
    (length ns <= 16)%nat /\ (p = 0 -> Forall nibble ns /\ le16 ns = v /\ ns <> []).
Proof.
  intros Hv Hp. unfold uint64_to_hex. destruct (negb (c_true p) || (16 <? p)) eqn:Hprec.
  - destruct (hex_digits_spec HEX_FUEL v (2 ^ 64 - 1) []) as (ns & -> & ? & ? & ? & ?);
      [done|unfold HEX_FUEL; lia|unfold HEX_FUEL; lia|].
    exists ns. simpl. rewrite length_map. by split_and!; auto.
  - apply orb_false_iff in Hprec as [Hc Hp']. apply Z.ltb_ge in Hp'.
    destruct (hex_digits_short HEX_FUEL v p []) as (ns & -> & Hl); [unfold HEX_FUEL; lia|lia|].
    exists ns. simpl. rewrite length_map. split_and!; [done|unfold HEX_FUEL in *; lia|].
    intros ->. by apply negb_false_iff in Hc.
Qed.

(** The digit loop ends on every value of magnitude below [10^fuel]. *)
Lemma dec_digits_total fuel v dec : Z.abs v < 10 ^ Z.of_nat fuel ->
  is_Some (dec_digits fuel v dec).
Proof.
  revert v dec. induction fuel as [|fuel IH]; intros v dec Hv; cbn [dec_digits].
  { assert (v = 0) as -> by lia. by eexists. }
  destruct (c_true v); [|by eexists]. apply IH.
  rewrite Nat2Z.inj_succ, Z.pow_succ_r in Hv by lia.
  rewrite <- (Z.quot_abs v 10) by lia. apply Z.quot_lt_upper_bound; lia.
Qed.

Lemma sint64_bound v : fits 64 v -> - 2 ^ 63 <= sint64 v < 2 ^ 63.
Proof. unfold fits, sint64. destruct (Z.ltb_spec v (2 ^ 63)); lia. Qed.

Lemma sint32_bound v : fits 32 v -> - 2 ^ 31 <= sint32 v < 2 ^ 31.
Proof. unfold fits, sint32. destruct (Z.ltb_spec v (2 ^ 31)); lia. Qed.

(** A formatter appends, through [buf_add], characters that depend neither on
    the room left nor on what the buffer holds. *)
Definition appends (f : Z -> bytes -> option bytes) : Prop :=
  exists cs, forall len buf, f len buf = Some (fold_left (buf_add len) cs buf).

Lemma format_add_dec_appends v : - 2 ^ 63 <= v < 2 ^ 63 ->
  appends (fun len buf => format_add_dec buf len v).
Proof.
  intros Hv. unfold appends, format_add_dec. destruct (negb (c_true v)); [by exists [48]|].
  pose proof (sint64_bound _ (wrap_fits 64 (- v) ltac:(lia))) as Hs.
  destruct (v <? 0).
  - destruct (dec_digits_total DEC_FUEL (sint64 (wrap64 (- v))) []) as [d ->];
      [unfold DEC_FUEL; lia|]. by exists (45 :: reverse d).
  - destruct (dec_digits_total DEC_FUEL v []) as [d ->]; [unfold DEC_FUEL; lia|].
    by exists (reverse d).
Qed.

Lemma format_add_hex_appends v p : fits 64 v -> 0 <= p ->
  appends (fun len buf => format_add_hex buf len v p).
Proof.
  intros Hv Hp. destruct (uint64_to_hex_total v p Hv Hp) as (ns & Hns & _).
  exists (reverse (map hexchar ns)). intros len buf. unfold format_add_hex. by rewrite Hns.
Qed.

Lemma format_add_bin_appends v n : appends (fun len buf => Some (format_add_bin buf len v n)).
Proof.
  exists (map (fun i => if c_true (Z.land (Z.shiftr v (n - i - 1)) 1) then 49 else 48) (seqZ 0 n)).
  intros len buf. unfold format_add_bin. f_equal. revert buf.
  induction (seqZ 0 n) as [|i l IH]; intros buf; [done|]. apply IH.
Qed.

Lemma appends_chr c : appends (fun len buf => Some (buf_add len buf c)).
Proof. by exists [c]. Qed.

Lemma appends_str s : appends (fun len buf => Some (format_add_str buf len s)).
Proof. by exists s. Qed.

(** One step of the scan, when its directive appends. *)
Lemma appends_cons f g h : appends f -> appends h ->
  (forall len buf, g len buf = (buf ← f len buf; h len buf)) -> appends g.
Proof.
  intros [cs Hf] [ds Hh] Hg. exists (cs ++ ds). intros len buf.
  rewrite Hg, Hf. cbn [mbind option_bind]. by rewrite Hh, fold_left_app.
Qed.

Create HintDb appends.
#[export] Hint Resolve appends_chr appends_str format_add_bin_appends
  format_add_dec_appends format_add_hex_appends sint64_bound sint32_bound : appends.

(** The arguments are those the directives of the format ask for. *)
Fixpoint params_match (format : bytes) (params : list varg) (interp : bool) : bool :=
  match format with
  | [] => true
  | c :: format =>
      if interp then
        if c =? 115 then
          match params with VStr _ :: params => params_match format params false | _ => false end
        else if existsb (Z.eqb c) [99; 98; 66; 100; 68; 120; 88] then
          match params with VInt _ :: params => params_match format params false | _ => false end
        else params_match format params false
      else params_match format params (c =? 37)
  end.

Lemma format_int_appends c v :
  if existsb (Z.eqb c) [99; 98; 66; 100; 68; 120; 88]
  then is_Some (format_int c 0) /\ exists f, format_int c v = Some f /\ appends f
  else format_int c 0 = None.
Proof.
  assert (fits 64 (wrap32 v)).
  { pose proof (wrap_fits 32 v ltac:(lia)). unfold fits in *. lia. }
  assert (fits 64 (wrap64 v)) by (apply wrap_fits; lia).
  assert (- 2 ^ 63 <= sint32 (wrap32 v) < 2 ^ 63).
  { pose proof (sint32_bound _ (wrap_fits 32 v ltac:(lia))). lia. }
  pose proof (sint64_bound _ (wrap_fits 64 v ltac:(lia))).
  unfold format_int. cbn [existsb].
  repeat (destruct (c =? _); cbn [orb];
    [split; [by eexists|]; eexists; split; [done|]; first [apply (appends_chr (wrap8 v))|auto with appends zarith]|]).
  done.
Qed.

Lemma scan_appends format : forall params interp, params_match format params interp = true ->
  appends (fun len buf => vsnprintf_scan format params interp len buf).
Proof.
  induction format as [|c format IH]; intros params interp Hm; [by exists []|].
  cbn [params_match] in Hm. cbn [vsnprintf_scan]. destruct interp.
  2: { destruct (c =? 37); [by apply IH|].
       eapply appends_cons; [apply (appends_chr c)|apply IH, Hm|done]. }
  destruct (c =? 115).
  { destruct params as [|[s|v] params]; try done.
    eapply appends_cons; [apply (appends_str s)|apply IH, Hm|done]. }
  pose proof (fun v => format_int_appends c v) as Hc.
  destruct (existsb _ _).
  - destruct params as [|[s|v] params]; try done.
    destruct (Hc v) as [[f0 ->] (f & -> & Hf)]. cbn [mbind option_bind].
    eapply appends_cons; [exact Hf|apply IH, Hm|done].
  - rewrite (Hc 0). eapply appends_cons; [apply (appends_chr c)|apply IH, Hm|done].
Qed.

Lemma buf_adds_take len cs buf : Z.of_nat (length buf) <= len ->
  fold_left (buf_add len) cs buf = take (Z.to_nat len) (buf ++ cs).
Proof.
  revert buf. induction cs as [|c cs IH]; intros buf Hl; simpl.
  { by rewrite app_nil_r, take_ge by lia. }
  unfold buf_add at 2. destruct (Z.ltb_spec (Z.of_nat (length buf)) len).
  - rewrite IH by (rewrite length_app; simpl; lia). by rewrite <- app_assoc.
  - rewrite IH by lia. rewrite !take_app_le by lia. done.
Qed.

(** *** Ones' complement sums *)

Definition words_sum (ws : list Z) : Z := foldr (fun w s => swap16 w + s) 0 ws.

Lemma words_sum_app l1 l2 : words_sum (l1 ++ l2) = words_sum l1 + words_sum l2.
Proof. induction l1 as [|w l1 IH]; simpl; [done|]. fold (words_sum (l1 ++ l2)) (words_sum l1). lia. Qed.

Lemma swap16_arith w : fits 16 w -> swap16 w = w / 256 + 256 * (w mod 256).
Proof.
  unfold fits. intros Hw. unfold swap16. change 255 with (Z.ones 8).
  rewrite Z.lor_comm, Z.land_ones, Z.shiftr_div_pow2 by lia. change (2 ^ 8) with 256.
  rewrite lor_shiftl_add; [change (2 ^ 8) with 256; lia|lia|].
  change (2 ^ 8) with 256. split; [apply Z.div_pos|apply Z.div_lt_upper_bound]; lia.
Qed.

Lemma swap16_fits w : fits 16 w -> fits 16 (swap16 w).
Proof.
  intros Hw. rewrite swap16_arith by done. unfold fits in *.
  pose proof (Z.div_mod w 256). pose proof (Z.mod_pos_bound w 256). lia.
Qed.

Lemma swap16_swap16 w : fits 16 w -> swap16 (swap16 w) = w.
Proof.
  intros Hw. rewrite (swap16_arith (swap16 w)) by (by apply swap16_fits).
  rewrite !swap16_arith by done. unfold fits in *.
  pose proof (Z.div_mod w 256). pose proof (Z.mod_pos_bound w 256).
  assert (0 <= w / 256 < 256) by (split; [apply Z.div_pos|apply Z.div_lt_upper_bound]; lia).
  rewrite (Z.mul_comm 256 (w mod 256)), Z.div_add, Z.mod_add by lia.
  rewrite (Z.div_small (w / 256)), (Z.mod_small (w / 256)) by lia. lia.
Qed.

Lemma words_sum_bound ws : Forall (fits 16) ws ->
  0 <= words_sum ws <= 65535 * Z.of_nat (length ws).
Proof.
  induction 1 as [|w ws Hw _ IH]; simpl; [lia|]. fold (words_sum ws).
  pose proof (swap16_fits w Hw). unfold fits in *. lia.
Qed.

Lemma checksum_sum ws a : Forall (fits 16) ws -> 0 <= a -> a + words_sum ws < 2 ^ 32 ->
  fold_left (fun chk w => wrap32 (chk + swap16 w)) ws a = a + words_sum ws.
Proof.
  intros Hf. revert a. induction Hf as [|w ws Hw Hf IH]; intros a Ha Hb; simpl in *; [lia|].
  fold (words_sum ws) in *. pose proof (swap16_fits w Hw). pose proof (words_sum_bound ws Hf).
  unfold fits in *. rewrite wrap_id by (split; lia). rewrite IH by lia. lia.
Qed.

(** The fold of a 32-bit sum is the sum modulo 65535, and it is 0 for the
    sum 0 only. *)
Lemma adc16_fold s : fits 32 s ->
  let r := adc16 (bits s 16 16) (bits s 0 16) in
  0 <= r < 65536 /\ r mod 65535 = s mod 65535 /\ (r = 0 <-> s = 0).
Proof.
  intros Hs. unfold fits in Hs. cbv zeta. rewrite !bits_div_mod by lia.
  change (2 ^ 0) with 1. rewrite Z.div_1_r. change (2 ^ 16) with 65536.
  unfold adc16, wrap16. change (2 ^ 16) with 65536. rewrite Z.shiftr_div_pow2 by lia.
  change (2 ^ 16) with 65536.
  rewrite (Z.mod_small (s / 65536)) by (split; [apply Z.div_pos|apply Z.div_lt_upper_bound]; lia).
  assert (0 <= s mod 65536 < 65536) by (apply Z.mod_pos_bound; lia).
  assert (0 <= s / 65536 < 65536) by (split; [apply Z.div_pos|apply Z.div_lt_upper_bound]; lia).
  pose proof (Z.div_mod s 65536 ltac:(lia)) as Hs'.
  generalize dependent (s / 65536). generalize dependent (s mod 65536).
  intros l Hl h Hh Hs'. clear Hs. subst s.
  destruct (Z.lt_ge_cases (h + l) 65536).
  - rewrite (Z.mod_small (h + l)), (Z.div_small (h + l)), Z.add_0_r, (Z.mod_small (h + l)) by lia.
    split_and!; [lia..| |lia]. replace (65536 * h + l) with (h + l + h * 65535) by lia.
    by rewrite Z.mod_add by lia.
  - assert ((h + l) mod 65536 = h + l - 65536) as ->.
    { symmetry. apply Z.mod_unique with 1; lia. }
    assert ((h + l) / 65536 = 1) as -> by (symmetry; apply Z.div_unique with (h + l - 65536); lia).
    rewrite Z.mod_small by lia. split_and!; [lia..| |lia].
    replace (65536 * h + l) with (h + l - 65536 + 1 + (h + 1) * 65535) by lia.
    by rewrite Z.mod_add by lia.
Qed.

Lemma rfc1071_checksum_spec ws : Forall (fits 16) ws -> Z.of_nat (length ws) <= 65536 ->
  exists r, rfc1071_checksum ws (2 * Z.of_nat (length ws)) = 65535 - r /\
    0 <= r < 65536 /\ r mod 65535 = words_sum ws mod 65535 /\ (r = 0 <-> words_sum ws = 0).
Proof.
  intros Hf Hl. pose proof (words_sum_bound ws Hf) as Hb.
  unfold rfc1071_checksum.
  replace (Z.to_nat (2 * Z.of_nat (length ws) / 2)) with (length ws)
    by (rewrite (Z.mul_comm 2), Z.div_mul; lia).
  rewrite take_ge, checksum_sum by (done || lia). rewrite Z.add_0_l.
  destruct (adc16_fold (words_sum ws)) as (H1 & H2 & H3); [unfold fits; lia|].
  eexists. split; [|done]. by rewrite wnot_sub.
Qed.

(** What a sender computes and a receiver tests, as sums modulo 65535. *)
Lemma rfc1071_zero ws : Forall (fits 16) ws -> Z.of_nat (length ws) <= 65536 ->
  words_sum ws <> 0 -> words_sum ws mod 65535 = 0 -> rfc1071_checksum ws (2 * Z.of_nat (length ws)) = 0.
Proof.
  intros Hf Hl Hn Hm. destruct (rfc1071_checksum_spec ws Hf Hl) as (r & -> & Hb & Hr & Hz).
  rewrite Hm in Hr. apply Z.mod_divide in Hr as [q Hq]; [|lia]. assert (r <> 0) by lia. lia.
Qed.
Lemma rfc1071_residue ws : Forall (fits 16) ws -> Z.of_nat (length ws) <= 65536 ->
  let chk := rfc1071_checksum ws (2 * Z.of_nat (length ws)) in
  fits 16 chk /\ (words_sum ws + chk) mod 65535 = 0 /\ words_sum ws + chk <> 0.
Proof.
  intros Hf Hl. destruct (rfc1071_checksum_spec ws Hf Hl) as (r & -> & Hb & Hr & Hz). cbv zeta.
  pose proof (words_sum_bound ws Hf). unfold fits. split; [lia|]. split; [|lia].
  rewrite <- Z.add_mod_idemp_l, <- Hr, Z.add_mod_idemp_l by lia. by replace (r + (65535 - r)) with (1 * 65535) by lia.
Qed.

(** ** Properties *)

(** Printing a 64-bit value in hexadecimal writes between 1 and 16 digits,
    the size of the [rep] array of the code, and [hex_to_uint64] reads back
    the value printed. *)
Theorem uint64_hex_roundtrip len v : fits 64 v -> 16 <= len ->
  exists cs, uint64_to_hex [] len v 0 = Some (cs, Z.of_nat (length cs)) /\
    1 <= Z.of_nat (length cs) <= 16 /\ hex_to_uint64 cs = Some v.
Proof.
  intros Hv Hlen. destruct (uint64_to_hex_total v 0) as (ns & He & Hl & Hns); [done..|].
  destruct (Hns eq_refl) as (Hf & Hle & Hne). rewrite He.
  rewrite buf_adds_fit by (rewrite length_reverse, length_map; simpl; lia).
  exists (reverse (map hexchar ns)). rewrite length_reverse, length_map. split_and!; [done| |lia|].
  { destruct ns; [done|simpl; lia]. }
  unfold hex_to_uint64. destruct (reverse (map hexchar ns)) as [|c cs] eqn:Hr.
  { apply (f_equal length) in Hr. rewrite length_reverse, length_map in Hr. by destruct ns. }
  rewrite <- Hr, take_ge, reverse_involutive by (rewrite length_reverse, length_map; lia).
  rewrite hex_value_spec by (done || lia). f_equal. lia.
Qed.

Example uint64_hex_roundtrip_witness :
  exists cs, uint64_to_hex [] 20 0xdeadbeef 0 = Some (cs, Z.of_nat (length cs)) /\
    1 <= Z.of_nat (length cs) <= 16 /\ hex_to_uint64 cs = Some 0xdeadbeef.
Proof. apply uint64_hex_roundtrip; [unfold fits|]; lia. Defined.

(** Printing a non-negative 64-bit integer in decimal and reading the digits
    back gives the integer. *)
Theorem dec_roundtrip len v : 0 <= v < 2 ^ 63 -> 20 <= len ->
  exists cs, format_add_dec [] len v = Some cs /\ dec_to_uint64 cs = Some v.
Proof.
  intros Hv Hlen. unfold format_add_dec. destruct (negb (c_true v)) eqn:Hc.
  { unfold c_true in Hc. rewrite negb_involutive in Hc. apply Z.eqb_eq in Hc as ->.
    exists [48]. split; [|done]. unfold buf_add. by rewrite (proj2 (Z.ltb_lt _ _)) by (simpl; lia). }
  apply negb_false_iff, negb_true_iff, Z.eqb_neq in Hc.
  rewrite (proj2 (Z.ltb_ge v 0)) by lia.
  destruct (dec_digits_spec DEC_FUEL v []) as (ds & -> & Hf & Hle & Hl & Hne); [unfold DEC_FUEL; lia|].
  unfold DEC_FUEL in Hl. cbn [mbind option_bind].
  rewrite buf_adds_fit by (rewrite length_reverse; simpl; rewrite length_map; lia).
  rewrite !app_nil_l. exists (reverse (map deccar ds)). split; [done|].
  unfold dec_to_uint64. destruct (reverse (map deccar ds)) as [|c cs] eqn:Hr.
  { apply (f_equal length) in Hr. rewrite length_reverse, length_map in Hr.
    destruct ds; [|done]. by destruct Hne; [lia|]. }
  rewrite <- Hr, take_ge, reverse_involutive by (rewrite length_reverse, length_map; lia).
  rewrite dec_value_spec; [f_equal; lia|done|lia|lia|lia|].
  intros _. rewrite Z.mul_1_l.
  assert (10 ^ (Z.of_nat (length ds) - 1) <= 10 ^ 19) by (apply Z.pow_le_mono_r; lia). lia.
Qed.

Example dec_roundtrip_witness :
  exists cs, format_add_dec [] 64 1984 = Some cs /\ dec_to_uint64 cs = Some 1984.
Proof. apply dec_roundtrip; lia. Defined.

(** The checksum of the internet headers: a message whose checksum field
    holds the checksum computed while the field was zero, in network order,
    has the checksum 0, as its receiver expects. *)
Theorem rfc1071_receiver pre post : Forall (fits 16) pre -> Forall (fits 16) post ->
  Z.of_nat (length pre + length post) < 65536 ->
  let len := 2 * Z.of_nat (length pre + S (length post)) in
  let chk := rfc1071_checksum (pre ++ 0 :: post) len in
  rfc1071_checksum (pre ++ swap16 chk :: post) len = 0.
Proof.
  intros Hpre Hpost Hl len chk.
  assert (Hlen : forall w, len = 2 * Z.of_nat (length (pre ++ w :: post))).
  { intros w. by rewrite length_app. }
  assert (Hf : forall w, fits 16 w -> Forall (fits 16) (pre ++ w :: post)).
  { intros w Hw. apply Forall_app. auto. }
  destruct (rfc1071_residue (pre ++ 0 :: post)) as (Hc & Hm & Hn); [apply Hf; done|rewrite length_app; simpl; lia|].
  rewrite <- Hlen in Hc, Hm, Hn. fold chk in Hc, Hm, Hn.
  assert (words_sum (pre ++ swap16 chk :: post) = words_sum (pre ++ 0 :: post) + chk) as E.
  { rewrite !words_sum_app. simpl. rewrite swap16_swap16 by done. change (swap16 0) with 0. lia. }
  rewrite (Hlen (swap16 chk)). apply rfc1071_zero.
  - by apply Hf, swap16_fits.
  - rewrite length_app. simpl. lia.
  - by rewrite E.
  - by rewrite E.
Qed.

Example rfc1071_receiver_witness :
  rfc1071_checksum ([0x0045; 0x7300] ++ swap16 (rfc1071_checksum ([0x0045; 0x7300] ++ [0; 0x11]) 8) :: [0x11]) 8 = 0.
Proof.
  apply (rfc1071_receiver [0x0045; 0x7300] [0x11]); [repeat constructor; unfold fits; lia..|simpl; lia].
Defined.

(** [vsnprintf] writes the characters of the formatted text that fit, then a
    zero: for one text [cs], whatever the length [len] of the buffer, the
    first [len - 1] of them and the zero (which is written even when [len] is
    0). *)
Theorem vsnprintf_truncates format params : params_match format params false = true ->
  exists cs, forall len, 0 <= len ->
    vsnprintf len format params = Some (take (Z.to_nat (len - 1)) cs ++ [0]).
Proof.
  intros Hm. destruct (scan_appends format params false Hm) as [cs Hcs].
  exists cs. intros len Hl. unfold vsnprintf. rewrite Hcs. cbn [mbind option_bind].
  unfold c_true. destruct (Z.eqb_spec len 0) as [->|]; cbn [negb];
    by rewrite buf_adds_take by (simpl; lia).
Qed.

Example vsnprintf_truncates_witness :
  exists cs, forall len, 0 <= len ->
    vsnprintf len [37; 115; 61; 37; 88] [VStr [114; 97; 120]; VInt (-1)] =
      Some (take (Z.to_nat (len - 1)) cs ++ [0]).
Proof. apply vsnprintf_truncates. reflexivity. Defined.
