(* ===== verification/Vm.v ===== *)
(** * Guest memory access (vmm/src/core/vm.c, include/vm.h)

    The vmm reads and writes the memory of its vm on its own account or on the
    vm's request.  Guest physical addresses are system physical addresses, so
    the last check before a copy is that the range is not the vmm's own area;
    virtual accesses are cut at the boundaries of the guest's pages.

    Physical memory is a map from addresses to bytes; the buffer of the vmm an
    access copies from or to is the list of its bytes. *)

From S2P Require Import Prelude.
From S2P Require Import Pagemem.
From S2P Require Import Walk.

Abbreviation bytes := (list Z).

(** ** Physical memory *)

Definition mem_read (m : gmap Z Z) (a n : Z) : bytes :=
  (fun i => rd0 m (a + i)) <$> seqZ 0 n.

Fixpoint mem_write (m : gmap Z Z) (a : Z) (bs : bytes) : gmap Z Z :=
  match bs with
  | [] => m
  | b :: bs => mem_write (<[a := b]> m) (a + 1) bs
  end.

(** The 64-bit little-endian word the page walks read. *)
Definition le_word (bs : bytes) : Z := foldr (fun b v => b + 256 * v) 0 bs.
Definition rd64 (m : gmap Z Z) (a : Z) : Z := le_word (mem_read m a 8).

(** Memory holds bytes. *)
Definition mem_ok (m : gmap Z Z) : Prop := forall a, fits 8 (rd0 m a).

Lemma le_word_fits bs : Forall (fits 8) bs -> fits (8 * Z.of_nat (length bs)) (le_word bs).
Proof.
  unfold fits, le_word. induction 1 as [|b bs Hb _ IH]; simpl foldr; [simpl; lia|]. simpl length.
  rewrite Nat2Z.inj_succ. replace (8 * Z.succ _) with (8 + 8 * Z.of_nat (length bs)) by lia.
  rewrite Z.pow_add_r by lia. change (2 ^ 8) with 256 in *. lia.
Qed.
Lemma rd64_fits m a : mem_ok m -> fits 64 (rd64 m a).
Proof.
  intros Hm. apply (le_word_fits (mem_read m a 8)). apply Forall_fmap, Forall_forall. intros i _. apply Hm.
Qed.

(** ** State *)

Inductive access_rq := VM_ACC_REQ_VMM | VM_ACC_REQ_VM.

(** [vm_access_t]; [va_rm] selects the remote operator. *)
Record vm_access := mk_access {
  va_cr3 : Z;
  va_addr : Z;
  va_data : bytes;
  va_len : Z;
  va_done : Z;
  va_wr : bool;
  va_rq : access_rq;
  va_rm : bool;
}.

Definition set_range (addr len : Z) (ac : vm_access) : vm_access :=
  mk_access (va_cr3 ac) addr (va_data ac) len (va_done ac) (va_wr ac) (va_rq ac) (va_rm ac).
Definition add_done (data : bytes) (n : Z) (ac : vm_access) : vm_access :=
  mk_access (va_cr3 ac) (va_addr ac) data (va_len ac) (va_done ac + n) (va_wr ac) (va_rq ac) (va_rm ac).

(** What an access reads of the vm's cpu: the paging registers, CR0.PG, CR3
    and the current privilege level. *)
Record vm_cpu := mk_cpu {
  mmu : mmu_cfg;
  cr0_pg : bool;
  vcr3 : Z;
  cpl : Z;
}.

(** Physical memory, the bytes sent to the remote client, the chunks its
    reads will return, and the exceptions injected (vector, error code and
    address), last first. *)
Record vmst := mk_vmst {
  phys : gmap Z Z;
  tx : bytes;
  rx : list bytes;
  excps : list (Z * Z * Z);
}.

Definition with_phys (m : gmap Z Z) (s : vmst) : vmst := mk_vmst m (tx s) (rx s) (excps s).
Definition PF_EXCP : Z := 14.
Definition inject_exception (vector err cr2 : Z) (s : vmst) : vmst :=
  mk_vmst (phys s) (tx s) (rx s) ((vector, err, cr2) :: excps s).

(** [ctrl_io_read]: at most [len] bytes of what the client has sent. *)
Definition ctrl_io_read (len : Z) (s : vmst) : bytes * vmst :=
  match rx s with
  | [] => ([], s)
  | c :: rx =>
      let got := take (Z.to_nat len) c in
      let rest := drop (Z.to_nat len) c in
      (got, mk_vmst (phys s) (tx s) (if bool_decide (rest = []) then rx else rest :: rx) (excps s))
  end.

(** ** Operators *)

Section vm.
Variable c : vm_cpu.

Definition vm_access_local_operator (ac : vm_access) (s : vmst) : vm_code * vm_access * vmst :=
  let off := Z.to_nat (va_done ac) in
  let len := Z.to_nat (va_len ac) in
  if va_wr ac then
    (VM_DONE, add_done (va_data ac) (va_len ac) ac,
     with_phys (mem_write (phys s) (va_addr ac) (take len (drop off (va_data ac)))) s)
  else
    let got := mem_read (phys s) (va_addr ac) (va_len ac) in
    (VM_DONE, add_done (take off (va_data ac) ++ got ++ drop (off + len) (va_data ac)) (va_len ac) ac, s).

(** The loop of the remote operator, one read of the client per step; [None]
    when the client never sends the bytes. *)
Fixpoint recv_loop (fuel : nat) (addr len : Z) (s : vmst) : option vmst :=
  if negb (c_true len) then Some s
  else match fuel with
  | O => None
  | S fuel =>
      let (got, s) := ctrl_io_read len s in
      let n := Z.of_nat (length got) in
      recv_loop fuel (addr + n) (len - n) (with_phys (mem_write (phys s) addr got) s)
  end.

Definition vm_access_remote_operator (ac : vm_access) (s : vmst) : option (vm_code * vm_access * vmst) :=
  if negb (va_wr ac) then
    Some (VM_DONE, add_done (va_data ac) (va_len ac) ac,
          mk_vmst (phys s) (tx s ++ mem_read (phys s) (va_addr ac) (va_len ac)) (rx s) (excps s))
  else
    s ← recv_loop (length (rx s) + Z.to_nat (va_len ac)) (va_addr ac) (va_len ac) s;
    Some (VM_DONE, add_done (va_data ac) (va_len ac) ac, s).

Definition operator (ac : vm_access) (s : vmst) : option (vm_code * vm_access * vmst) :=
  if va_rm ac then vm_access_remote_operator ac s else Some (vm_access_local_operator ac s).

Definition vm_access_system_identity (ac : vm_access) (s : vmst) : option (vm_code * vm_access * vmst) :=
  if vmm_area_range (area (mmu c)) (va_addr ac) (va_len ac) then Some (VM_FAIL, ac, s)
  else operator ac s.

(** The vmm handler of system memory events ([vmm_evt_sysmem]) ignores them. *)
Definition ctrl_evt_sysmem (ac : vm_access) : vm_code := VM_IGNORE.

Definition vm_access_system (ac : vm_access) (s : vmst) : option (vm_code * vm_access * vmst) :=
  let rc := ctrl_evt_sysmem ac in
  if decide (rc = VM_IGNORE) then vm_access_system_identity ac s else Some (rc, ac, s).

Definition vm_access_physical (ac : vm_access) (s : vmst) : option (vm_code * vm_access * vmst) :=
  if negb (c_true (va_len ac)) then Some (VM_DONE, ac, s) else vm_access_system ac s.

(** The [__pf] exit of [__vm_access_validate]: the [wr] and [us] bits. *)
Definition access_pf (ac : vm_access) (vaddr : Z) (s : vmst) : vmst :=
  let err := Z.lor (Z.shiftl (Z.b2z (va_wr ac)) 1) (Z.shiftl (Z.b2z (cpl c =? 3)) 2) in
  inject_exception PF_EXCP err vaddr s.

Definition vm_access_validate (ac : vm_access) (vaddr : Z) (wlk : pg_wlk) (s : vmst)
    : vm_code * pg_wlk * vmst :=
  let '(rc, wlk) := pg_walk (mmu c) (rd64 (phys s)) (va_cr3 ac) vaddr wlk in
  match rc with
  | VM_FAIL => (rc, wlk, s)
  | _ =>
      match rc, va_rq ac with
      | VM_FAULT, VM_ACC_REQ_VMM => (VM_PARTIAL, wlk, s)
      | VM_FAULT, VM_ACC_REQ_VM => (VM_FAULT, wlk, access_pf ac vaddr s)
      | _, VM_ACC_REQ_VMM => (rc, wlk, s)
      | _, VM_ACC_REQ_VM =>
          if va_wr ac && negb (w_w wlk) then (VM_FAULT, wlk, access_pf ac vaddr s)
          else if (cpl c =? 3) && negb (w_u wlk) then (VM_FAULT, wlk, access_pf ac vaddr s)
          else (VM_DONE, wlk, s)
      end
  end.

(** The loop of [__vm_access_virtual], [len] bytes left from [vaddr]. *)
Fixpoint vm_access_loop (fuel : nat) (ac : vm_access) (vaddr len : Z) (wlk : pg_wlk) (s : vmst)
    : option (vm_code * vm_access * vmst) :=
  if negb (c_true len) then Some (VM_DONE, ac, s)
  else match fuel with
  | O => None
  | S fuel =>
      let '(rc, wlk, s) := vm_access_validate ac vaddr wlk s in
      if decide (rc = VM_DONE) then
        let nxt := align_next vaddr (w_size wlk) in
        let ac := set_range (w_addr wlk) (Z.min len (wrap64 (nxt - vaddr))) ac in
        '(rc, ac, s) ← vm_access_physical ac s;
        if decide (rc = VM_DONE) then vm_access_loop fuel ac nxt (len - va_len ac) wlk s
        else Some (rc, ac, s)
      else Some (rc, ac, s)
  end.

(** The value of the walk structure before its first use does not matter. *)
Definition wlk_undef : pg_wlk := mk_wlk 0 0 0 false false false false PG_WALK_TYPE_PML4E.

Definition vm_access_virtual (ac : vm_access) (s : vmst) : option (vm_code * vm_access * vmst) :=
  if negb (cr0_pg c) then vm_access_physical ac s
  else vm_access_loop (Z.to_nat (va_len ac)) ac (va_addr ac) (va_len ac) wlk_undef s.

Definition vm_access_linear := vm_access_virtual.

(** ** Entry points *)

Definition vm_access_setup (cr3 addr : Z) (data : bytes) (len : Z) (wr : bool) (rq : access_rq)
    (rm : bool) : vm_access := mk_access cr3 addr data len 0 wr rq rm.

Definition vm_send_pmem (paddr len : Z) := vm_access_physical (vm_access_setup 0 paddr [] len false VM_ACC_REQ_VMM true).
Definition vm_recv_pmem (paddr len : Z) := vm_access_physical (vm_access_setup 0 paddr [] len true VM_ACC_REQ_VMM true).
Definition vm_read_pmem (paddr : Z) (data : bytes) (len : Z) :=
  vm_access_physical (vm_access_setup 0 paddr data len false VM_ACC_REQ_VMM false).
Definition vm_write_pmem (paddr : Z) (data : bytes) (len : Z) :=
  vm_access_physical (vm_access_setup 0 paddr data len true VM_ACC_REQ_VMM false).

Definition vm_send_vmem (cr3 vaddr len : Z) := vm_access_virtual (vm_access_setup cr3 vaddr [] len false VM_ACC_REQ_VMM true).
Definition vm_recv_vmem (cr3 vaddr len : Z) := vm_access_virtual (vm_access_setup cr3 vaddr [] len true VM_ACC_REQ_VMM true).
Definition vm_read_vmem (cr3 vaddr : Z) (data : bytes) (len : Z) :=
  vm_access_virtual (vm_access_setup cr3 vaddr data len false VM_ACC_REQ_VMM false).
Definition vm_write_vmem (cr3 vaddr : Z) (data : bytes) (len : Z) :=
  vm_access_virtual (vm_access_setup cr3 vaddr data len true VM_ACC_REQ_VMM false).

(** [vm_read_mem_sz] and [vm_write_mem_sz]: the field [va_done] of the access
    returned is [*done]. *)
Definition vm_read_mem_sz (vaddr : Z) (data : bytes) (len : Z) :=
  vm_access_linear (vm_access_setup (vcr3 c) vaddr data len false VM_ACC_REQ_VM false).
Definition vm_write_mem_sz (vaddr : Z) (data : bytes) (len : Z) :=
  vm_access_linear (vm_access_setup (vcr3 c) vaddr data len true VM_ACC_REQ_VM false).
End vm.

(** ** Code and stack addresses, instruction pointer *)

(** [__vm_resolve_seg_offset] for the address size [mode]. *)
Definition vm_resolve_seg_offset (mode base offset addend : Z) : Z :=
  if mode =? 64 then wrap64 (offset + addend)
  else
    let vaddr := Z.land base 0xffffffff in
    if mode =? 32 then wrap64 (vaddr + (Z.land offset 0xffffffff + Z.land addend 0xffffffff))
    else wrap64 (vaddr + (Z.land offset 0xffff + Z.land addend 0xffff)).

Definition vm_update_rip (mode rip offset : Z) : Z :=
  if mode =? 64 then wrap64 (rip + offset)
  else if mode =? 32 then set_bits rip 0 32 (bits rip 0 32 + wrap32 offset)
  else set_bits rip 0 16 (bits rip 0 16 + wrap16 offset).

Definition vm_rewind_rip (mode rip offset : Z) : Z :=
  if mode =? 64 then wrap64 (rip - offset)
  else if mode =? 32 then set_bits rip 0 32 (bits rip 0 32 - wrap32 offset)
  else set_bits rip 0 16 (bits rip 0 16 - wrap16 offset).

(** ** Byte memory *)

Lemma length_mem_read m a n : Z.of_nat (length (mem_read m a n)) = Z.max 0 n.
Proof. unfold mem_read. rewrite length_fmap, length_seqZ. lia. Qed.

Lemma rd0_mem_write m a bs p :
  rd0 (mem_write m a bs) p =
    if decide (a <= p < a + Z.of_nat (length bs)) then nth (Z.to_nat (p - a)) bs 0 else rd0 m p.
Proof.
  revert m a. induction bs as [|b bs IH]; intros m a; simpl; [by rewrite decide_False by lia|].
  rewrite IH, rd0_insert.
  destruct (decide (a + 1 <= p < a + 1 + Z.of_nat (length bs))).
  - rewrite decide_True by lia. replace (Z.to_nat (p - a)) with (S (Z.to_nat (p - (a + 1)))) by lia.
    done.
  - destruct (decide (a = p)) as [->|].
    + rewrite decide_True by lia. by rewrite Z.sub_diag.
    + by rewrite decide_False by lia.
Qed.

Lemma mem_read_written m a l : mem_read (mem_write m a l) a (Z.of_nat (length l)) = l.
Proof using.
  apply list_eq. intros i. unfold mem_read. rewrite list_lookup_fmap.
  destruct (decide (i < length l)%nat) as [Hi|Hi].
  - rewrite lookup_seqZ_lt by lia. cbn [fmap option_fmap option_map]. rewrite rd0_mem_write, decide_True by lia.
    replace (Z.to_nat (a + (0 + Z.of_nat i) - a)) with i by lia.
    destruct (lookup_lt_is_Some_2 l i Hi) as [x Hx]. rewrite Hx. f_equal. by apply nth_lookup_Some.
  - rewrite lookup_seqZ_ge, (lookup_ge_None_2 l) by lia. done.
Qed.
Lemma mem_read_agree m m' a n : (forall p, a <= p < a + n -> rd0 m p = rd0 m' p) -> mem_read m a n = mem_read m' a n.
Proof.
  intros H. apply list_fmap_ext. intros k i Hk. apply lookup_seqZ in Hk as [-> ?]. apply H. lia.
Qed.

Lemma rd64_agree m m' a : (forall i, 0 <= i < 8 -> rd0 m (a + i) = rd0 m' (a + i)) ->
  rd64 m a = rd64 m' a.
Proof.
  intros H. unfold rd64, mem_read. f_equal. apply list_fmap_ext. intros k i Hk.
  apply lookup_seqZ in Hk as [-> ?]. apply H. lia.
Qed.

Lemma mem_read_app m a n k : 0 <= n -> 0 <= k ->
  mem_read m a (n + k) = mem_read m a n ++ mem_read m (a + n) k.
Proof.
  intros Hn Hk. unfold mem_read. rewrite seqZ_app, fmap_app by done. f_equal.
  replace (seqZ (0 + n) k) with (Z.add n <$> seqZ 0 k) by (rewrite fmap_add_seqZ; f_equal; lia).
  rewrite <- list_fmap_compose. apply list_fmap_ext. intros j i _. simpl. f_equal. lia.
Qed.

(** ** Confinement of one copy *)

(** Inside one 4KB page a range that passes the check holds no byte of the
    area. *)
Lemma range_outside ar a n p : area_ok ar -> 0 <= a -> a mod 4096 + n <= 4096 -> a + n <= 2 ^ 64 ->
  vmm_area_range ar a n = false -> a <= p < a + n -> vmm_area ar p = false.
Proof.
  intros [[x Hx] [y Hy]] Ha Hn H64 Hr Hp. unfold vmm_area_range in Hr.
  destruct (Z.ltb_spec n 2).
  { by replace p with a by lia. }
  rewrite wrap_id in Hr by (split; lia). rewrite (proj2 (Z.ltb_lt _ _)) in Hr by lia.
  unfold vmm_area, mem_range in *. rewrite Hx, Hy in *.
  pose proof (Z.div_mod a 4096 ltac:(lia)) as Hd. pose proof (Z.mod_pos_bound a 4096 ltac:(lia)).
  destruct (Z.leb_spec (x * 4096) a), (Z.ltb_spec a (y * 4096)),
    (Z.leb_spec (x * 4096) (a + n - 1)), (Z.ltb_spec (a + n - 1) (y * 4096)),
    (Z.leb_spec (x * 4096) p), (Z.ltb_spec p (y * 4096)); try done; lia.
Qed.

(** The vmm's own memory is the same. *)
Definition area_kept (ar : area_t) (m m' : gmap Z Z) : Prop :=
  forall p, vmm_area ar p = true -> rd0 m' p = rd0 m p.

Lemma area_kept_refl ar m : area_kept ar m m.
Proof. by intros p _. Qed.
Lemma area_kept_trans ar m1 m2 m3 : area_kept ar m1 m2 -> area_kept ar m2 m3 -> area_kept ar m1 m3.
Proof. intros H1 H2 p Hp. by rewrite H2, H1. Qed.

Lemma write_kept ar m a bs : (forall p, a <= p < a + Z.of_nat (length bs) -> vmm_area ar p = false) ->
  area_kept ar m (mem_write m a bs).
Proof.
  intros Ho p Hp. rewrite rd0_mem_write. case_decide as Hc; [|done].
  specialize (Ho p Hc). congruence.
Qed.

Lemma recv_kept ar fuel : forall a n s s', 0 <= n -> (forall p, a <= p < a + n -> vmm_area ar p = false) ->
  recv_loop fuel a n s = Some s' -> area_kept ar (phys s) (phys s').
Proof.
  induction fuel as [|fuel IH]; intros a n s s' Hn Ho Hs; simpl in Hs.
  { destruct (negb (c_true n)); [|done]. simplify_eq. apply area_kept_refl. }
  destruct (negb (c_true n)); [simplify_eq; apply area_kept_refl|].
  destruct (ctrl_io_read n s) as [got s1] eqn:Hg.
  assert (phys s1 = phys s /\ Z.of_nat (length got) <= n) as [Hp Hl].
  { unfold ctrl_io_read in Hg. destruct (rx s) as [|ch r]; simplify_eq; simpl; (split; [done|]); [lia|].
    rewrite length_take. lia. }
  eapply area_kept_trans; [|eapply (IH _ _ _ _); [| |exact Hs]].
  - simpl. rewrite <- Hp. apply write_kept. intros p Hq. apply Ho. lia.
  - lia.
  - intros p Hq. apply Ho. lia.
Qed.

Lemma operator_kept ar ac s rc ac' s' : 0 <= va_len ac ->
  (forall p, va_addr ac <= p < va_addr ac + va_len ac -> vmm_area ar p = false) ->
  operator ac s = Some (rc, ac', s') -> area_kept ar (phys s) (phys s').
Proof.
  intros Hn Ho. unfold operator, vm_access_remote_operator, vm_access_local_operator.
  destruct (va_rm ac), (va_wr ac); simpl; intros Hs.
  - destruct (recv_loop _ _ _ s) as [s1|] eqn:Hr; [|done]. simpl in Hs. simplify_eq.
    by eapply recv_kept.
  - simplify_eq. apply area_kept_refl.
  - simplify_eq. simpl. apply write_kept. intros p Hp. apply Ho.
    rewrite length_take in Hp. lia.
  - simplify_eq. apply area_kept_refl.
Qed.

Lemma physical_kept c ac s rc ac' s' : area_ok (area (mmu c)) -> 0 <= va_len ac -> 0 <= va_addr ac ->
  va_addr ac mod 4096 + va_len ac <= 4096 -> va_addr ac + va_len ac <= 2 ^ 64 ->
  vm_access_physical c ac s = Some (rc, ac', s') -> area_kept (area (mmu c)) (phys s) (phys s').
Proof.
  intros Har Hn Ha Hm H64. unfold vm_access_physical, vm_access_system, vm_access_system_identity.
  destruct (negb (c_true (va_len ac))); [intros; simplify_eq; apply area_kept_refl|].
  rewrite decide_True by done.
  destruct (vmm_area_range _ _ _) eqn:Hr; intros Hs; [simplify_eq; apply area_kept_refl|].
  eapply operator_kept; [done| |done]. intros p Hp. by eapply range_outside.
Qed.

(** ** The virtual loop *)

(** The bytes from an address to the end of its page, with the wrap-around of
    the last page of the address space. *)
Lemma wrap_chunk v k : fits 64 v -> 0 <= k < 64 ->
  wrap64 (align_next v (2 ^ k) - v) = 2 ^ k - v mod 2 ^ k.
Proof.
  intros [Hv0 Hv1] Hk. assert (0 < 2 ^ k) by (apply Z.pow_pos_nonneg; lia).
  assert (2 ^ 64 = 2 ^ k * 2 ^ (64 - k)) as H64 by (rewrite <- Z.pow_add_r by lia; f_equal; lia).
  assert (0 < 2 ^ (64 - k)) by (apply Z.pow_pos_nonneg; lia).
  pose proof (Z.div_mod v (2 ^ k) ltac:(lia)) as Hd. pose proof (Z.mod_pos_bound v (2 ^ k) ltac:(lia)).
  assert (v / 2 ^ k < 2 ^ (64 - k)) as Hq by (apply Z.div_lt_upper_bound; lia).
  unfold align_next. rewrite align_pow2 by (apply wrap_fits || lia; lia).
  destruct (Z.lt_ge_cases (v + 2 ^ k) (2 ^ 64)) as [Hlt|Hge].
  - rewrite (wrap_id _ (v + 2 ^ k)) by (split; lia).
    replace (v + 2 ^ k) with (v + 1 * 2 ^ k) by lia. rewrite Z.div_add by lia.
    rewrite wrap_id; [lia|split; lia].
  - assert (v / 2 ^ k = 2 ^ (64 - k) - 1) as Hq' by nia.
    assert (wrap64 (v + 2 ^ k) = v mod 2 ^ k) as ->.
    { unfold wrap64, wrap. symmetry. apply Z.mod_unique with 1; [lia|]. nia. }
    rewrite Z.div_small, Z.mul_0_r by lia.
    assert (v = 2 ^ 64 - 2 ^ k + v mod 2 ^ k) by nia.
    assert (2 ^ k <= 2 ^ 63) by (apply Z.pow_le_mono_r; lia).
    unfold wrap64, wrap. symmetry. apply Z.mod_unique with (-1); lia.
Qed.

Lemma align_next_end v k : fits 64 v -> 0 <= k < 64 -> v + (2 ^ k - v mod 2 ^ k) < 2 ^ 64 ->
  align_next v (2 ^ k) = v + (2 ^ k - v mod 2 ^ k).
Proof.
  intros Hv Hk Hb. pose proof Hv as [Hv0 Hv1]. assert (0 < 2 ^ k) by (apply Z.pow_pos_nonneg; lia).
  pose proof (Z.div_mod v (2 ^ k) ltac:(lia)) as Hd. pose proof (Z.mod_pos_bound v (2 ^ k) ltac:(lia)).
  unfold align_next. destruct (Z.lt_ge_cases (v + 2 ^ k) (2 ^ 64)).
  - rewrite wrap_id by (split; lia). rewrite align_pow2 by (try split; lia).
    replace (v + 2 ^ k) with (v + 1 * 2 ^ k) by lia. rewrite Z.div_add by lia. lia.
  - assert (2 ^ 64 = 2 ^ k * 2 ^ (64 - k)) as H64 by (rewrite <- Z.pow_add_r by lia; f_equal; lia).
    assert (v / 2 ^ k < 2 ^ (64 - k)) as Hq by (apply Z.div_lt_upper_bound; lia). nia.
Qed.

Lemma align_next_fits v k : fits 64 v -> 0 <= k < 64 -> fits 64 (align_next v (2 ^ k)).
Proof.
  intros Hv Hk. unfold align_next. pose proof (wrap_fits 64 (v + 2 ^ k) ltac:(lia)) as Hw.
  rewrite align_pow2 by (done || lia). assert (0 < 2 ^ k) by (apply Z.pow_pos_nonneg; lia).
  pose proof (Z.div_mod (wrap64 (v + 2 ^ k)) (2 ^ k) ltac:(lia)).
  pose proof (Z.mod_pos_bound (wrap64 (v + 2 ^ k)) (2 ^ k) ltac:(lia)).
  assert (0 <= wrap64 (v + 2 ^ k) / 2 ^ k) by (apply Z.div_pos; unfold fits in *; lia).
  unfold fits in *. nia.
Qed.

Lemma validate_spec c ac v w0 s rc w s' : vm_access_validate c ac v w0 s = (rc, w, s') ->
  phys s' = phys s /\
  (rc = VM_DONE -> pg_walk (mmu c) (rd64 (phys s)) (va_cr3 ac) v w0 = (VM_DONE, w) /\ s' = s).
Proof.
  unfold vm_access_validate. pose proof (pg_walk_code (mmu c) (rd64 (phys s)) (va_cr3 ac) v w0) as Hc.
  destruct (pg_walk _ _ _ v w0) as [rc0 w1]. simpl in Hc. intros H.
  destruct Hc as [->|[->| ->]].
  - simplify_eq. done.
  - destruct (va_rq ac); simplify_eq; done.
  - destruct (va_rq ac); [simplify_eq; done|].
    destruct (va_wr ac && _); [simplify_eq; done|].
    destruct ((cpl c =? 3) && _); simplify_eq; done.
Qed.

Lemma operator_len ac s rc ac' s' : operator ac s = Some (rc, ac', s') ->
  va_len ac' = va_len ac /\ va_cr3 ac' = va_cr3 ac.
Proof.
  unfold operator, vm_access_remote_operator, vm_access_local_operator.
  destruct (va_rm ac), (va_wr ac); simpl; intros H; try (simplify_eq; done).
  destruct (recv_loop _ _ _ s) as [s1|]; simpl in H; simplify_eq. done.
Qed.

Lemma physical_len c ac s rc ac' s' : vm_access_physical c ac s = Some (rc, ac', s') ->
  va_len ac' = va_len ac /\ va_cr3 ac' = va_cr3 ac.
Proof.
  unfold vm_access_physical, vm_access_system, vm_access_system_identity.
  destruct (negb _); [intros; simplify_eq; done|]. rewrite decide_True by done.
  destruct (vmm_area_range _ _ _); [intros; simplify_eq; done|]. apply operator_len.
Qed.

(** The first chunk of a loop: the walk gave a page of [2 ^ k] bytes. *)
Lemma chunk_bounds k v w len : done_in_page k v w -> fits 64 v -> 12 <= k < 64 -> 0 < len ->
  let n := Z.min len (wrap64 (align_next v (w_size w) - v)) in
  0 < n /\ n <= len /\ v mod 2 ^ k + n <= 2 ^ k /\ w_addr w + n <= 2 ^ 52.
Proof.
  intros (-> & Hm & Ha & He) Hv Hk Hl n. subst n. rewrite wrap_chunk by (done || lia).
  assert (0 < 2 ^ k) by (apply Z.pow_pos_nonneg; lia).
  pose proof (Z.mod_pos_bound v (2 ^ k)). lia.
Qed.

Definition small_pages (c : mmu_cfg) : Prop :=
  efer_lma c = false /\ cr4_pae c = false /\ cr4_pse c = false.

Lemma loop_kept c fuel : area_ok (area (mmu c)) -> small_pages (mmu c) ->
  forall ac v len w0 s rc ac' s', fits 64 v -> 0 <= len ->
  vm_access_loop c fuel ac v len w0 s = Some (rc, ac', s') ->
  area_kept (area (mmu c)) (phys s) (phys s').
Proof.
  intros Har (Hl & Hp & Hs). induction fuel as [|fuel IH]; intros ac v len w0 s rc ac' s' Hv Hlen H;
    cbn [vm_access_loop] in H; unfold c_true in H; destruct (Z.eqb_spec len 0); cbn [negb] in H;
    simplify_eq; try apply area_kept_refl.
  destruct (vm_access_validate c ac v w0 s) as [[rc1 w1] s1] eqn:Hval.
  apply validate_spec in Hval as [Hph Hdone].
  case_decide as Hrc; [|simplify_eq; rewrite <- Hph; apply area_kept_refl].
  destruct (Hdone Hrc) as [Hw ->]. apply pg_walk_done in Hw as (k & _ & Hk & H12).
  rewrite (H12 Hl Hp Hs) in Hk. clear H12.
  pose proof (chunk_bounds _ _ _ len Hk Hv ltac:(lia) ltac:(lia)) as (Hn & Hn' & Hm & Hb).
  destruct Hk as (Hsz & Hmod & Ha & _).
  set (acr := set_range _ _ ac) in H.
  destruct (vm_access_physical c acr s) as [[[rc2 ac2] s2]|] eqn:Hphy; [|done]. simpl in H.
  assert (area_kept (area (mmu c)) (phys s) (phys s2)) as Hk2.
  { change (2 ^ 12) with 4096 in *.
    eapply (physical_kept c acr); [done| | | | |exact Hphy]; simpl; lia. }
  case_decide; [|by simplify_eq].
  eapply area_kept_trans; [exact Hk2|]. eapply IH; [| |exact H].
  - rewrite Hsz. apply align_next_fits; [done|lia].
  - apply physical_len in Hphy as [-> _]. simpl. lia.
Qed.

Lemma range_first ar a n : vmm_area ar a = false -> 0 < n -> 0 <= a -> a + n <= 2 ^ 64 ->
  vmm_area_range ar a n = false.
Proof.
  intros Ha Hn H0 Hb. unfold vmm_area_range. destruct (Z.ltb_spec n 2); [done|].
  rewrite wrap_id by (split; lia). rewrite (proj2 (Z.ltb_lt _ _)) by lia. by rewrite Ha.
Qed.

(** ** Scattered bytes *)

(** The bytes of [l] at the addresses [pa i], [pa (i + 1)], ... *)
Fixpoint scatter (m : gmap Z Z) (pa : Z -> Z) (i : Z) (l : bytes) : gmap Z Z :=
  match l with [] => m | b :: l => scatter (<[pa i := b]> m) pa (i + 1) l end.
Definition gather (m : gmap Z Z) (pa : Z -> Z) (n : Z) : bytes := (fun i => rd0 m (pa i)) <$> seqZ 0 n.

Lemma scatter_app pa l1 : forall m i l2,
  scatter m pa i (l1 ++ l2) = scatter (scatter m pa i l1) pa (i + Z.of_nat (length l1)) l2.
Proof.
  induction l1 as [|b l1 IH]; intros m i l2; cbn [app scatter length]; [by rewrite Z.add_0_r|].
  rewrite IH. f_equal. lia.
Qed.

Lemma scatter_off pa l : forall m i p, (forall j, i <= j < i + Z.of_nat (length l) -> pa j <> p) ->
  rd0 (scatter m pa i l) p = rd0 m p.
Proof.
  induction l as [|b l IH]; intros m i p Hp; cbn [scatter]; [done|]. cbn [length] in Hp.
  rewrite IH by (intros j Hj; apply Hp; lia). rewrite rd0_insert, decide_False; [done|]. apply Hp. lia.
Qed.

Lemma scatter_contig l : forall m pa i a, (forall j, 0 <= j < Z.of_nat (length l) -> pa (i + j) = a + j) ->
  scatter m pa i l = mem_write m a l.
Proof.
  induction l as [|b l IH]; intros m pa i a Hp; cbn [scatter mem_write]; [done|]. cbn [length] in Hp.
  pose proof (Hp 0 ltac:(lia)) as H0. rewrite !Z.add_0_r in H0. rewrite H0. apply IH. intros j Hj.
  replace (i + 1 + j) with (i + (j + 1)) by lia. rewrite Hp by lia. lia.
Qed.

Lemma scatter_ext l : forall m pa pa' i i', (forall j, 0 <= j < Z.of_nat (length l) -> pa (i + j) = pa' (i' + j)) ->
  scatter m pa i l = scatter m pa' i' l.
Proof.
  induction l as [|b l IH]; intros m pa pa' i i' H; cbn [scatter]; [done|]. cbn [length] in H.
  pose proof (H 0 ltac:(lia)) as H0. rewrite !Z.add_0_r in H0. rewrite H0. apply IH. intros j Hj.
  replace (i + 1 + j) with (i + (j + 1)) by lia. replace (i' + 1 + j) with (i' + (j + 1)) by lia. apply H. lia.
Qed.

Lemma scatter_at pa l : forall m i j, (forall x y, i <= x < i + Z.of_nat (length l) -> i <= y < i + Z.of_nat (length l) -> pa x = pa y -> x = y) ->
  0 <= j < Z.of_nat (length l) -> rd0 (scatter m pa i l) (pa (i + j)) = nth (Z.to_nat j) l 0.
Proof.
  induction l as [|b l IH]; intros m i j Hinj Hj; cbn [length] in *; [lia|]. cbn [scatter].
  destruct (Z.eq_dec j 0) as [->|Hne].
  - rewrite Z.add_0_r, scatter_off.
    + by rewrite rd0_insert, decide_True.
    + intros k Hk He. apply Hinj in He; lia.
  - replace (i + j) with (i + 1 + (j - 1)) by lia. rewrite IH by (try lia; intros x y Hx Hy; apply Hinj; lia).
    by replace (Z.to_nat j) with (S (Z.to_nat (j - 1))) by lia.
Qed.

(** What is scattered on different addresses is gathered again. *)
Lemma gather_scatter pa l m :
  (forall x y, 0 <= x < Z.of_nat (length l) -> 0 <= y < Z.of_nat (length l) -> pa x = pa y -> x = y) ->
  gather (scatter m pa 0 l) pa (Z.of_nat (length l)) = l.
Proof.
  intros Hinj. apply list_eq. intros i. unfold gather. rewrite list_lookup_fmap.
  destruct (decide (i < length l)%nat) as [Hi|Hi].
  - rewrite lookup_seqZ_lt by lia. cbn [fmap option_fmap option_map].
    pose proof (scatter_at pa l m 0 (Z.of_nat i)) as Hs. rewrite Hs by (done || lia).
    destruct (lookup_lt_is_Some_2 l i Hi) as [x Hx]. rewrite Hx. f_equal. rewrite Nat2Z.id. by apply nth_lookup_Some.
  - rewrite lookup_seqZ_ge, (lookup_ge_None_2 l) by lia. done.
Qed.

Lemma length_gather m pa n : length (gather m pa n) = Z.to_nat n.
Proof. unfold gather. by rewrite length_fmap, length_seqZ. Qed.

Lemma gather_app m pa n k : 0 <= n -> 0 <= k -> gather m pa (n + k) = gather m pa n ++ gather m (fun i => pa (n + i)) k.
Proof.
  intros Hn Hk. unfold gather. rewrite seqZ_app, fmap_app by done. f_equal.
  replace (seqZ (0 + n) k) with (Z.add n <$> seqZ 0 k) by (rewrite fmap_add_seqZ; f_equal; lia).
  by rewrite <- list_fmap_compose.
Qed.

Lemma gather_contig m pa n a : (forall j, 0 <= j < n -> pa j = a + j) -> gather m pa n = mem_read m a n.
Proof. intros H. apply list_fmap_ext. intros k i Hk. apply lookup_seqZ in Hk as [-> ?]. by rewrite H by lia. Qed.

Lemma gather_agree m m' pa n : (forall i, 0 <= i < n -> rd0 m (pa i) = rd0 m' (pa i)) -> gather m pa n = gather m' pa n.
Proof. intros H. apply list_fmap_ext. intros k i Hk. apply lookup_seqZ in Hk as [-> ?]. apply H. lia. Qed.

(** ** The address a byte reaches *)

Section reach.
Context (c : vm_cpu) (cr3 : Z) (rq : access_rq) (wr : bool).

(** The vm may not do this access; the vmm may do them all. *)
Definition denied (w : pg_wlk) : bool :=
  match rq with
  | VM_ACC_REQ_VMM => false
  | VM_ACC_REQ_VM => (wr && negb (w_w w)) || ((cpl c =? 3) && negb (w_u w))
  end.

(** The physical address of a byte of the vm, outside the area of the vmm. *)
Definition reach (m : gmap Z Z) (v : Z) : option Z :=
  if cr0_pg c then
    match pg_walk (mmu c) (rd64 m) cr3 v wlk_undef with
    | (VM_DONE, w) => if denied w || vmm_area (area (mmu c)) (w_addr w) then None else Some (w_addr w)
    | _ => None
    end
  else if vmm_area (area (mmu c)) v then None else Some v.

Definition reaches (m : gmap Z Z) (v len : Z) (pa : Z -> Z) : Prop :=
  forall i, 0 <= i < len -> reach m (v + i) = Some (pa i).

(** A memory that differs from [m] at the bytes reached only. *)
Definition only_at (pa : Z -> Z) (len : Z) (m m' : gmap Z Z) : Prop :=
  forall p, (forall i, 0 <= i < len -> pa i <> p) -> rd0 m' p = rd0 m p.

(** The bytes reached are not those of the tables they are reached by. *)
Definition steady (m : gmap Z Z) (v len : Z) (pa : Z -> Z) : Prop :=
  forall m', only_at pa len m m' -> reaches m' v len pa.

Lemma only_at_refl pa len m : only_at pa len m m.
Proof. by intros p _. Qed.
Lemma only_at_scatter pa len m m' i l : 0 <= i -> i + Z.of_nat (length l) <= len -> only_at pa len m m' ->
  only_at pa len m (scatter m' pa i l).
Proof. intros Hi Hl H p Hp. rewrite scatter_off by (intros j Hj; apply Hp; lia). by apply H. Qed.

Lemma steady_reaches m v len pa : steady m v len pa -> reaches m v len pa.
Proof. intros H. apply H, only_at_refl. Qed.

Lemma reach_paged m v a : cr0_pg c = true -> reach m v = Some a ->
  exists w, pg_walk (mmu c) (rd64 m) cr3 v wlk_undef = (VM_DONE, w) /\ w_addr w = a /\
    denied w = false /\ vmm_area (area (mmu c)) a = false.
Proof.
  intros Hpg. unfold reach. rewrite Hpg. destruct (pg_walk _ _ _ v _) as [rc w]. intros H.
  destruct rc; try done. destruct (_ || _) eqn:Hb; [done|]. simplify_eq. apply orb_false_iff in Hb as [? ?]. eauto.
Qed.
Lemma reach_unpaged m v a : cr0_pg c = false -> reach m v = Some a -> a = v /\ vmm_area (area (mmu c)) v = false.
Proof. intros Hpg. unfold reach. rewrite Hpg. destruct (vmm_area _ v); [done|]. by intros [= <-]. Qed.

(** ** The loop *)

Section loop.
Context (s : vmst) (v len : Z) (data : bytes) (pa : Z -> Z).
Context (Hv : 0 <= v) (Hlen : 0 <= len) (Hend : v + len <= 2 ^ 64) (Hdata : len <= Z.of_nat (length data)).

(** The memory after [d] bytes. *)
Definition mem_after (d : Z) : gmap Z Z :=
  if wr then scatter (phys s) pa 0 (take (Z.to_nat d) data) else phys s.
Context (Hpa : forall d, 0 <= d <= len -> reaches (mem_after d) v len pa).

(** The access after [d] bytes. *)
Definition acc_after (d : Z) (ac : vm_access) : Prop :=
  va_cr3 ac = cr3 /\ va_wr ac = wr /\ va_rq ac = rq /\ va_rm ac = false /\ va_done ac = d /\
  va_data ac = if wr then data else gather (phys s) pa d ++ drop (Z.to_nat d) data.

(** A chunk of [n] bytes that lie at [a] on. *)
Lemma chunk_after d ac a n : 0 <= d -> 0 < n -> d + n <= len -> acc_after d ac ->
  (forall j, 0 <= j < n -> pa (d + j) = a + j) -> vmm_area (area (mmu c)) a = false -> 0 <= a -> a + n <= 2 ^ 64 ->
  exists ac', vm_access_physical c (set_range a n ac) (with_phys (mem_after d) s) =
      Some (VM_DONE, ac', with_phys (mem_after (d + n)) s) /\ acc_after (d + n) ac' /\ va_len ac' = n.
Proof using Hdata.
  intros Hd Hn Hdn (Hc & Hwr & Hrq & Hrm & Hdo & Hda) Hj Har Ha0 Ha1.
  unfold vm_access_physical, vm_access_system, vm_access_system_identity, operator, vm_access_local_operator.
  cbn [set_range va_len va_addr va_rm va_wr va_done va_data va_cr3 va_rq].
  rewrite c_true_ne by lia. cbn [negb]. rewrite decide_True by done. rewrite range_first by (done || lia).
  rewrite Hrm, Hwr, Hdo, Hda. unfold acc_after. cbn [phys with_phys tx rx excps].
  destruct wr eqn:E.
  - exists (add_done data n (set_range a n ac)). split; [|split; [|done]].
    + do 2 f_equal. unfold mem_after, with_phys. rewrite E. cbn [tx rx excps]. f_equal.
      replace (Z.to_nat (d + n)) with (Z.to_nat d + Z.to_nat n)%nat by lia.
      rewrite <- take_take_drop, scatter_app. rewrite length_take_le, Z2Nat.id, Z.add_0_l by lia.
      symmetry. apply scatter_contig. rewrite length_take, length_drop. intros j Hjj. apply Hj. lia.
    + unfold add_done. cbn [set_range va_len va_addr va_rm va_wr va_done va_data va_cr3 va_rq].
      split_and!; try done. lia.
  - set (got := gather _ _ _ ++ _).
    exists (add_done (take (Z.to_nat d) got ++ mem_read (mem_after d) a n ++ drop (Z.to_nat d + Z.to_nat n) got) n (set_range a n ac)).
    split; [|split; [|done]].
    + unfold mem_after. by rewrite E.
    + unfold add_done. cbn [set_range va_len va_addr va_rm va_wr va_done va_data va_cr3 va_rq].
      split_and!; try done; [lia|].
      unfold got. pose proof (length_gather (phys s) pa d) as Hl. rewrite take_app_length' by done.
      rewrite drop_app_ge by (rewrite Hl; lia). rewrite Hl, drop_drop.
      rewrite gather_app, <- app_assoc by lia. f_equal. f_equal; [|f_equal; lia].
      symmetry. unfold mem_after. rewrite E. by apply gather_contig.
Qed.

(** The page of [v + d] serves the bytes up to its end. *)
Lemma chunk_contig m d w n : cr0_pg c = true -> reaches m v len pa -> 0 <= d -> d + n <= len ->
  pg_walk (mmu c) (rd64 m) cr3 (v + d) wlk_undef = (VM_DONE, w) -> (v + d) mod w_size w + n <= w_size w ->
  forall j, 0 <= j < n -> pa (d + j) = w_addr w + j.
Proof using Hv.
  clear Hpa Hdata. intros Hpg Hr Hd Hn Hw Hm j Hj. destruct (reach_paged _ _ _ Hpg (Hr (d + j) ltac:(lia))) as (w' & Hw' & <- & _).
  rewrite Z.add_assoc, (pg_walk_shift _ _ _ _ _ _ j Hw) in Hw' by lia. by simplify_eq.
Qed.

Lemma loop_after fuel : cr0_pg c = true -> forall d ac w0, 0 <= d <= len -> (Z.to_nat (len - d) <= fuel)%nat -> acc_after d ac ->
  exists ac', vm_access_loop c fuel ac (v + d) (len - d) w0 (with_phys (mem_after d) s) =
    Some (VM_DONE, ac', with_phys (mem_after len) s) /\ acc_after len ac'.
Proof using Hv Hlen Hend Hdata Hpa.
  intros Hpg. induction fuel as [|fuel IH]; intros d ac w0 Hd Hf Hp; cbn [vm_access_loop]; unfold c_true;
    destruct (Z.eqb_spec (len - d) 0) as [He|Hne]; cbn [negb];
    try (replace len with d by lia; eauto); [lia|].
  destruct (reach_paged _ _ _ Hpg (Hpa d ltac:(lia) d ltac:(lia))) as (w & Hw & Hwa & Hden & Har).
  pose proof Hp as (Hc & Hwr & Hrq & Hrm & Hdn & Hdat).
  assert (vm_access_validate c ac (v + d) w0 (with_phys (mem_after d) s) = (VM_DONE, w, with_phys (mem_after d) s)) as ->.
  { unfold vm_access_validate. cbn [phys with_phys]. rewrite Hc, (pg_walk_undef _ _ _ _ _ w0 _ Hw), Hrq, Hwr.
    unfold denied in Hden. destruct rq; [done|]. apply orb_false_iff in Hden as [-> ->]. done. }
  rewrite decide_True by done.
  pose proof (pg_walk_done _ _ _ _ _ _ Hw) as (k & Hk & Hin & _).
  assert (fits 64 (v + d)) as Hvd by (split; lia).
  destruct (chunk_bounds k (v + d) w (len - d) Hin Hvd) as (Hn & Hn' & Hm & Hb); [lia..|].
  assert (Hsz : w_size w = 2 ^ k) by apply Hin. assert (0 <= w_addr w) as Ha0 by apply Hin.
  set (n := Z.min _ _) in *. rewrite <- Hwa in Har.
  destruct (chunk_after d ac (w_addr w) n) as (ac' & -> & Hp' & Hl'); [lia|done|lia|done| |done|done|lia|].
  { apply (chunk_contig (mem_after d)); [done|apply Hpa; lia|lia|lia|done|by rewrite Hsz]. }
  cbn [mbind option_bind]. rewrite decide_True by done. rewrite Hl'.
  destruct (Z.eq_dec (d + n) len) as [Hd'|Hd'].
  { exists ac'. rewrite <- Hd'. split; [|done].
    replace (d + n - d - n) with 0 by lia. by destruct fuel. }
  assert (align_next (v + d) (w_size w) = v + (d + n)) as ->.
  { assert (n = 2 ^ k - (v + d) mod 2 ^ k) as Hn2.
    { unfold n in *. rewrite Hsz, wrap_chunk in * by (done || lia). lia. }
    rewrite Hsz, align_next_end by (done || lia). lia. }
  replace (len - d - n) with (len - (d + n)) by lia. apply IH; [lia|lia|done].
Qed.

Lemma access_after : 0 < len ->
  exists ac', vm_access_virtual c (vm_access_setup cr3 v data len wr rq false) s =
    Some (VM_DONE, ac', with_phys (mem_after len) s) /\ acc_after len ac'.
Proof using Hv Hlen Hend Hdata Hpa.
  intros Hpos. set (ac := vm_access_setup _ _ _ _ _ _ _).
  assert (acc_after 0 ac) as H0. { unfold acc_after. split_and!; try done. cbn. by destruct wr. }
  assert (with_phys (mem_after 0) s = s) as Hs. { unfold mem_after. cbn. by destruct s, wr. }
  unfold vm_access_virtual. destruct (cr0_pg c) eqn:Hpg; cbn [negb].
  - destruct (loop_after (Z.to_nat len) Hpg 0 ac wlk_undef) as (ac' & H & Hac'); [lia|lia|done|].
    rewrite Z.add_0_r, Z.sub_0_r, Hs in H. by exists ac'.
  - assert (forall j, 0 <= j < len -> pa (0 + j) = v + j) as Hj.
    { intros j Hj. by destruct (reach_unpaged _ _ _ Hpg (Hpa 0 ltac:(lia) j Hj)). }
    destruct (reach_unpaged _ _ _ Hpg (Hpa 0 ltac:(lia) 0 ltac:(lia))) as [_ Har]. rewrite Z.add_0_r in Har.
    destruct (chunk_after 0 ac v len) as (ac' & H & Hac' & _); [lia..|done|done|done|done|done|].
    rewrite Hs in H. exists ac'. by split.
Qed.
End loop.
End reach.

(** ** Reads of the vm *)

(** The physical address a read of the vm at [v] reaches, if its page walk
    succeeds, its privilege level may read it and it is not in the vmm area. *)
Definition gva_read (c : vm_cpu) (m : gmap Z Z) (v : Z) : option Z :=
  match pg_walk (mmu c) (rd64 m) (vcr3 c) v wlk_undef with
  | (VM_DONE, w) =>
      if ((cpl c =? 3) && negb (w_u w)) || vmm_area (area (mmu c)) (w_addr w) then None
      else Some (w_addr w)
  | _ => None
  end.

Lemma gva_reach c m v : cr0_pg c = true -> reach c (vcr3 c) VM_ACC_REQ_VM false m v = gva_read c m v.
Proof. intros Hpg. unfold reach. by rewrite Hpg. Qed.

(** ** Properties *)

(** C30: A read of the vm at a virtual address range whose every byte translates,
    is readable at its privilege level and lies outside the vmm area succeeds:
    all the bytes are read, each from the physical address its own page walk
    gives, whatever the mix of page sizes, and no state changes. *)
Theorem vm_read_mem_bytes c s v len data pa : cr0_pg c = true ->
  0 <= v -> 0 <= len -> v + len <= 2 ^ 64 -> Z.of_nat (length data) = len ->
  (forall i, 0 <= i < len -> gva_read c (phys s) (v + i) = Some (pa i)) ->
  exists ac, vm_read_mem_sz c v data len s = Some (VM_DONE, ac, s) /\ va_done ac = len /\
    va_data ac = (fun i => rd0 (phys s) (pa i)) <$> seqZ 0 len.
Proof.
  intros Hpg Hv Hl He Hd Hpa. unfold vm_read_mem_sz, vm_access_linear.
  destruct (Z.eq_dec len 0) as [->|Hne].
  { eexists. unfold vm_access_virtual. rewrite Hpg. cbn. split_and!; [done|done|]. destruct data; [done|simpl in Hd; lia]. }
  destruct (access_after c (vcr3 c) VM_ACC_REQ_VM false s v len data pa) as (ac & H & Hac); [lia..| |lia|].
  { intros d _ i Hi. rewrite gva_reach by done. by apply Hpa. }
  exists ac. rewrite H. destruct Hac as (_ & _ & _ & _ & Hdone & Hdat). split_and!; [by destruct s|done|].
  rewrite Hdat, drop_ge, app_nil_r by lia. done.
Qed.

(** C31: A guest in 32-bit mode with 4KB pages cannot change the vmm's memory
    through an access at a virtual address, local or remote, whatever its page
    tables, the length and the outcome. *)
Theorem vm_access_confined c ac s rc ac' s' : area_ok (area (mmu c)) ->
  cr0_pg c = true -> small_pages (mmu c) -> fits 64 (va_addr ac) -> 0 <= va_len ac ->
  vm_access_virtual c ac s = Some (rc, ac', s') ->
  forall p, vmm_area (area (mmu c)) p = true -> rd0 (phys s') p = rd0 (phys s) p.
Proof.
  intros Har Hpg Hsm Hv Hl. unfold vm_access_virtual. rewrite Hpg. cbn [negb].
  intros H. by eapply loop_kept.
Qed.

(** Without paging the check does not hold: a copy that starts before the vmm
    area and ends after its first byte is allowed and overwrites the vmm. *)
Theorem physical_write_straddles_vmm : exists c s ac' s', area_ok (area (mmu c)) /\
  cr0_pg c = false /\
  vm_write_mem_sz c 0xffffff [1; 2] 2 s = Some (VM_DONE, ac', s') /\
  vmm_area (area (mmu c)) 0x1000000 = true /\
  rd0 (phys s) 0x1000000 = 0 /\ rd0 (phys s') 0x1000000 = 2.
Proof.
  exists (mk_cpu (mk_mmu_cfg false false false false false (mk_area 0x1000000 0x1002000)) false 0 0).
  exists (mk_vmst ∅ [] [] []). do 2 eexists. split; [split; [by exists 0x1000|by exists 0x1002]|].
  split; [done|]. split; [vm_compute; reflexivity|]. by vm_compute.
Qed.

(** Rewinding the instruction pointer undoes an update by the same offset, in
    the three address sizes, with the wrap-around of each and the upper part
    of the register untouched. *)
Theorem vm_rip_update_rewind mode rip offset : fits 64 rip ->
  vm_rewind_rip mode (vm_update_rip mode rip offset) offset = rip.
Proof.
  intros Hr. unfold vm_rewind_rip, vm_update_rip.
  destruct (mode =? 64); [rewrite wrap_sub_add; by apply wrap_id|].
  destruct (mode =? 32); rewrite set_bits_twice, bits_set_same by lia.
  - rewrite <- set_bits_wrap, wrap_sub_add, set_bits_wrap by lia. by apply set_bits_bits.
  - rewrite <- set_bits_wrap, wrap_sub_add, set_bits_wrap by lia. by apply set_bits_bits.
Qed.

(** ** Ranges *)

(** No byte of the range belongs to the vmm. *)
Definition vm_range (ar : area_t) (addr size : Z) : Prop := forall i, 0 <= i < size -> vmm_area ar (addr + i) = false.

(** ** Witnesses *)

(** A 32-bit guest whose pages 1 and 2 are the frames 7 and 9, with the vmm at
    16MB. *)
Definition ex_cpu : vm_cpu :=
  mk_cpu (mk_mmu_cfg false false false false false (mk_area 0x1000000 0x1002000)) true 0x5000 3.
Definition ex_vmst : vmst :=
  mk_vmst (mem_write (mem_write (mem_write (mem_write ∅ 0x5000 [0x07; 0x60])
    0x6004 [0x07; 0x70; 0; 0; 0x07; 0x90]) 0x7ffe [1; 2]) 0x9000 [3; 4]) [] [] [].

Lemma ex_cpu_area : area_ok (area (mmu ex_cpu)).
Proof. split; [by exists 0x1000|by exists 0x1002]. Qed.

Example vm_read_mem_bytes_witness :
  exists ac, vm_read_mem_sz ex_cpu 0x1ffe [0; 0; 0; 0] 4 ex_vmst = Some (VM_DONE, ac, ex_vmst) /\
    va_done ac = 4 /\
    va_data ac = (fun i => rd0 (phys ex_vmst) (if i <? 2 then 0x7ffe + i else 0x8ffe + i)) <$> seqZ 0 4.
Proof.
  apply (vm_read_mem_bytes ex_cpu ex_vmst 0x1ffe 4); [done|lia|lia|lia|done|].
  intros i Hi. assert (i = 0 \/ i = 1 \/ i = 2 \/ i = 3) as [->|[->|[->| ->]]] by lia; vm_compute; reflexivity.
Defined.

Example vm_access_confined_witness :
  match vm_write_mem_sz ex_cpu 0x1ffe [5; 6; 7; 8] 4 ex_vmst with
  | Some (_, _, s') => rd0 (phys s') 0x1000000 = rd0 (phys ex_vmst) 0x1000000
  | None => False
  end.
Proof.
  destruct (vm_write_mem_sz _ _ _ _ _) as [[[rc ac'] s']|] eqn:H; [|vm_compute in H; discriminate].
  unfold vm_write_mem_sz, vm_access_linear in H.
  eapply (vm_access_confined ex_cpu); [exact ex_cpu_area|reflexivity|by split_and!| | |exact H|reflexivity].
  - simpl. split; lia.
  - simpl. lia.
Defined.

Example vm_rip_update_rewind_witness : vm_rewind_rip 16 (vm_update_rip 16 0x1234fffe 4) 4 = 0x1234fffe.
Proof. apply vm_rip_update_rewind. split; lia. Defined.
