(* ===== verification/VmMem.v ===== *)
(** * Accesses of the vmm to the memory of the vm, byte by byte

    What [__vm_access_virtual] (vmm/src/core/vm.c) reads and writes when every
    byte of the range reaches a byte of the memory of the vm, with or without
    paging, on behalf of the vm or of the vmm: by the loop of [Vm] byte [i] is
    copied from or to the address its own walk gives.  With a vm whose tables
    are written out, for the examples of the clients. *)

From S2P Require Import Prelude.
From S2P Require Import Pagemem.
From S2P Require Import Walk.
From S2P Require Import Vm.

(** ** Whole accesses *)

(** A read whose bytes all reach the memory of the vm. *)
Lemma read_reached c cr3 rq v len data pa s : 0 <= v -> 0 < len -> v + len <= 2 ^ 64 -> len <= Z.of_nat (length data) ->
  reaches c cr3 rq false (phys s) v len pa ->
  exists ac, vm_access_virtual c (vm_access_setup cr3 v data len false rq false) s = Some (VM_DONE, ac, s) /\
    va_done ac = len /\ va_data ac = gather (phys s) pa len ++ drop (Z.to_nat len) data.
Proof.
  intros Hv Hl He Hd Hr. destruct (access_after c cr3 rq false s v len data pa) as (ac & H & Hac); [lia..| |lia|].
  { intros d _. exact Hr. }
  exists ac. split; [rewrite H; by destruct s|]. by destruct Hac as (_ & _ & _ & _ & ? & ?).
Qed.

(** A write whose bytes all reach the memory of the vm, out of its tables. *)
Lemma write_reached c cr3 rq v len data pa s : 0 <= v -> 0 < len -> v + len <= 2 ^ 64 -> len <= Z.of_nat (length data) ->
  steady c cr3 rq true (phys s) v len pa ->
  exists ac, vm_access_virtual c (vm_access_setup cr3 v data len true rq false) s =
      Some (VM_DONE, ac, with_phys (scatter (phys s) pa 0 (take (Z.to_nat len) data)) s) /\ va_done ac = len.
Proof.
  intros Hv Hl He Hd Hr. destruct (access_after c cr3 rq true s v len data pa) as (ac & H & Hac); [lia..| |lia|].
  { intros d Hdl. apply Hr. unfold mem_after. apply only_at_scatter; [lia| |apply only_at_refl].
    rewrite length_take. lia. }
  exists ac. split; [exact H|]. by destruct Hac as (_ & _ & _ & _ & ? & _).
Qed.

(** ** Parts of a range *)

Lemma only_at_trans pa len m1 m2 m3 : only_at pa len m1 m2 -> only_at pa len m2 m3 -> only_at pa len m1 m3.
Proof. intros H1 H2 p Hp. by rewrite H2, H1. Qed.

Lemma only_at_sub pa len k n m m' : 0 <= k -> k + n <= len -> only_at (fun i => pa (k + i)) n m m' -> only_at pa len m m'.
Proof. intros Hk Hn H p Hp. apply H. intros i Hi. apply Hp. lia. Qed.

Section parts.
Context (c : vm_cpu) (cr3 : Z) (rq : access_rq) (wr : bool).

Lemma reaches_sub m v len pa k n : 0 <= k -> k + n <= len -> reaches c cr3 rq wr m v len pa ->
  reaches c cr3 rq wr m (v + k) n (fun i => pa (k + i)).
Proof. intros Hk Hn H i Hi. rewrite <- Z.add_assoc. apply H. lia. Qed.

Lemma steady_only m m' v len pa : only_at pa len m m' -> steady c cr3 rq wr m v len pa -> steady c cr3 rq wr m' v len pa.
Proof. intros Ho H m2 H2. apply H. by eapply only_at_trans. Qed.

Lemma steady_sub m v len pa k n : 0 <= k -> k + n <= len -> steady c cr3 rq wr m v len pa ->
  steady c cr3 rq wr m (v + k) n (fun i => pa (k + i)).
Proof. intros Hk Hn H m' Hm'. apply (reaches_sub _ _ len); [lia..|]. apply H. by eapply only_at_sub. Qed.

(** Without paging a byte reaches itself. *)
Lemma steady_unpaged m v len : cr0_pg c = false -> vm_range (area (mmu c)) v len ->
  steady c cr3 rq wr m v len (fun i => v + i).
Proof. intros Hpg Hr m' _ i Hi. unfold reach. by rewrite Hpg, Hr. Qed.
End parts.

(** ** A vm with 32-bit paging

    Its walks read a word of the directory and one of a table. *)

Lemma rd32_agree (f g : Z -> Z) p : f (p - p mod 8) = g (p - p mod 8) -> rd32 f p = rd32 g p.
Proof. intros H. unfold rd32. by rewrite H. Qed.

Lemma walk_agree c (f g : Z -> Z) cr3 v w : efer_lma c = false -> cr4_pae c = false ->
  let v' := Z.land v 0xffffffff in
  let pd := entry32 (page_addr (cr3_addr32 cr3)) (pd32_idx v') in
  let pt := entry32 (page_addr (e32_addr (rd32 g pd))) (pt32_idx v') in
  f (pd - pd mod 8) = g (pd - pd mod 8) -> f (pt - pt mod 8) = g (pt - pt mod 8) ->
  pg_walk c f cr3 v w = pg_walk c g cr3 v w.
Proof.
  intros Hl Hp v' pd pt H1 H2. unfold pg_walk. rewrite Hl, Hp. unfold pg_walk_pmode. fold v' pd.
  rewrite (rd32_agree f g pd H1). fold pt. by rewrite (rd32_agree f g pt H2).
Qed.

(** The directory is at 0x1000 and its table at 0x2000; the page 0 is at 0x8000
    and the next one at 0x5000. *)
Definition ex_paged : vm_cpu :=
  mk_cpu (mk_mmu_cfg false false false false false (mk_area 0x1000000 0x1002000)) true 0x1000 0.
Definition ex_tables : gmap Z Z :=
  mem_write (mem_write ∅ 0x1000 [0x07; 0x20; 0; 0]) 0x2000 [0x07; 0x80; 0; 0; 0x07; 0x50; 0; 0].
(** Six bytes from 0xffe on, in the two pages. *)
Definition ex_pa (i : Z) : Z := if i <? 2 then 0x8ffe + i else 0x4ffe + i.

Lemma ex_steady rq wr m : (forall p, 0x1000 <= p < 0x3000 -> rd0 m p = rd0 ex_tables p) ->
  steady ex_paged 0x1000 rq wr m 0xffe 6 ex_pa.
Proof.
  intros Hm m' Ho i Hi. unfold reach. change (cr0_pg ex_paged) with true. cbv iota.
  assert (forall a, 0x1000 <= a < 0x2ff8 -> rd64 m' a = rd64 ex_tables a) as Hr.
  { intros a Ha. apply rd64_agree. intros k Hk. rewrite Ho; [apply Hm; lia|].
    intros j Hj. unfold ex_pa. destruct (Z.ltb_spec j 2); lia. }
  assert (i = 0 \/ i = 1 \/ i = 2 \/ i = 3 \/ i = 4 \/ i = 5) as Hc by lia.
  rewrite (walk_agree _ (rd64 m') (rd64 ex_tables)) by (first [reflexivity|apply Hr;
    split; [apply Z.leb_le|apply Z.ltb_lt]; destruct Hc as [->|[->|[->|[->|[->| ->]]]]]; vm_compute; reflexivity]).
  destruct Hc as [->|[->|[->|[->|[->| ->]]]]], rq, wr; vm_compute; reflexivity.
Qed.
