(* ===== verification/Words.v ===== *)
(** * Words as bytes

    The little-endian words of the memory of the vm, and of the packets: how a
    word is stored, read back, and what a store leaves alone. *)

From S2P Require Import Prelude.
From S2P Require Import Pagemem.
From S2P Require Import Vm.

(** ** Memory words *)

Definition rd16 (m : gmap Z Z) (a : Z) : Z := le_word (mem_read m a 2).
Definition rd32 (m : gmap Z Z) (a : Z) : Z := le_word (mem_read m a 4).
Definition le_bytes (n v : Z) : bytes := (fun i => bits v (8 * i) 8) <$> seqZ 0 n.
Definition wr16 (m : gmap Z Z) (a v : Z) : gmap Z Z := mem_write m a (le_bytes 2 v).

(** ** The bios memory map (include/smap.h): packed entries of 20 bytes *)

(** The buffer the accesses to the ports go through (include/vmm.h). *)
Definition VMM_IO_POOL_SZ : Z := 4 * PAGE_SIZE.

Definition SMAP_TYPE_AVL : Z := 1.
Definition sizeof_smap_e : Z := 20.
Record smap_e := mk_smap_e { sm_base : Z; sm_len : Z; sm_type : Z }.
Definition smap_at (m : gmap Z Z) (p : Z) : smap_e := mk_smap_e (rd64 m p) (rd64 m (p + 8)) (rd32 m (p + 16)).
Definition smap_entry (m : gmap Z Z) (raw n : Z) : smap_e := smap_at m (raw + n * sizeof_smap_e).

(** ** Memory of bytes *)

Lemma mem_read_fits m a n : mem_ok m -> Forall (fits 8) (mem_read m a n).
Proof. intros Hm. apply Forall_fmap, Forall_forall. intros i _. apply Hm. Qed.
Lemma rd16_fits m a : mem_ok m -> fits 16 (rd16 m a).
Proof. intros Hm. by apply (le_word_fits (mem_read m a 2)), mem_read_fits. Qed.
Lemma mem_write_ok m a bs : mem_ok m -> Forall (fits 8) bs -> mem_ok (mem_write m a bs).
Proof.
  revert m a. induction bs as [|b bs IH]; intros m a Hm Hbs; [done|]. apply Forall_cons in Hbs as [Hb Hbs].
  simpl. apply IH; [|done]. intros p. rewrite rd0_insert. by case_decide.
Qed.
Lemma le_bytes_fits n v : Forall (fits 8) (le_bytes n v).
Proof. apply Forall_fmap, Forall_forall. intros i Hi. apply bits_fits; [|done].
  apply list_elem_of_lookup in Hi as [k Hk]. apply lookup_seqZ in Hk. lia.
Qed.
Lemma wr16_ok m a v : mem_ok m -> mem_ok (wr16 m a v).
Proof. intros Hm. by apply mem_write_ok, le_bytes_fits. Qed.

Lemma rd0_wr16 m a v p : rd0 (wr16 m a v) p =
  if decide (p = a) then bits v 0 8 else if decide (p = a + 1) then bits v 8 8 else rd0 m p.
Proof.
  unfold wr16. rewrite rd0_mem_write. change (le_bytes 2 v) with [bits v 0 8; bits v 8 8]. simpl length.
  repeat case_decide; try lia; subst; try done.
  - by rewrite Z.sub_diag.
  - by replace (a + 1 - a) with 1 by lia.
Qed.
Lemma rd16_bytes m a : rd16 m a = rd0 m a + 256 * rd0 m (a + 1).
Proof. unfold rd16. change (mem_read m a 2) with [rd0 m (a + 0); rd0 m (a + 1)]. simpl. rewrite Z.add_0_r. lia. Qed.
Lemma rd16_wr16 m a v : fits 16 v -> rd16 (wr16 m a v) a = v.
Proof.
  intros Hv. rewrite rd16_bytes, !rd0_wr16. rewrite decide_True by done.
  rewrite decide_False, decide_True by lia. unfold bits. rewrite !Z.land_ones, !Z.shiftr_div_pow2 by done.
  unfold fits in Hv. change (2 ^ 0) with 1. change (2 ^ 8) with 256. change (2 ^ 16) with 65536 in Hv.
  rewrite Z.div_1_r, (Z.mod_small (v / 256)) by (split; [apply Z.div_pos; lia|apply Z.div_lt_upper_bound; lia]).
  pose proof (Z.div_mod v 256 ltac:(lia)). lia.
Qed.
Lemma rd16_agree m m' a : rd0 m a = rd0 m' a -> rd0 m (a + 1) = rd0 m' (a + 1) -> rd16 m a = rd16 m' a.
Proof. intros E1 E2. by rewrite !rd16_bytes, E1, E2. Qed.
Lemma rd16_wr16_ne m a b v : b <> a -> b <> a + 1 -> b + 1 <> a -> rd16 (wr16 m a v) b = rd16 m b.
Proof. intros. apply rd16_agree; rewrite rd0_wr16, !decide_False by lia; done. Qed.


(** ** Words of any size *)

Lemma bits_div256 v i : 0 <= i -> bits v (8 * (1 + i)) 8 = bits (v / 256) (8 * i) 8.
Proof.
  intros Hi. rewrite !bits_div_mod by lia. f_equal. replace (8 * (1 + i)) with (8 + 8 * i) by lia.
  rewrite Z.pow_add_r by lia. symmetry. apply Z.div_div; [done|]. apply Z.pow_pos_nonneg; lia.
Qed.
Lemma le_word_bytes n v : fits (8 * Z.of_nat n) v -> le_word (le_bytes (Z.of_nat n) v) = v.
Proof.
  revert v. induction n as [|n IH]; intros v [H1 H2].
  { change (2 ^ (8 * Z.of_nat 0)) with 1 in H2. by assert (v = 0) as -> by lia. }
  unfold le_bytes. rewrite seqZ_cons by lia. replace (Z.pred (Z.of_nat (S n))) with (Z.of_nat n) by lia.
  change (Z.succ 0) with (1 + 0). rewrite <- fmap_add_seqZ. cbn [fmap list_fmap]. rewrite <- list_fmap_compose.
  assert (((fun i => bits v (8 * i) 8) ∘ Z.add 1) <$> seqZ 0 (Z.of_nat n) = le_bytes (Z.of_nat n) (v / 256)) as ->.
  { unfold le_bytes. apply list_fmap_ext. intros k i Hk. apply lookup_seqZ in Hk as [-> ?]. cbn. apply bits_div256. lia. }
  cbn [le_word foldr]. fold (le_word (le_bytes (Z.of_nat n) (v / 256))). rewrite IH.
  - rewrite bits_div_mod by done. change (2 ^ (8 * 0)) with 1. rewrite Z.div_1_r. change (2 ^ 8) with 256.
    pose proof (Z.div_mod v 256). lia.
  - split; [apply Z.div_pos; lia|]. apply Z.div_lt_upper_bound; [done|]. 
    replace (8 * Z.of_nat (S n)) with (8 + 8 * Z.of_nat n) in H2 by lia. rewrite Z.pow_add_r in H2 by lia. done.
Qed.
Lemma length_le_bytes n v : length (le_bytes n v) = Z.to_nat n.
Proof. unfold le_bytes. by rewrite length_fmap, length_seqZ. Qed.
Definition wr64 (m : gmap Z Z) (a v : Z) : gmap Z Z := mem_write m a (le_bytes 8 v).
Lemma rd64_wr64 m a v : fits 64 v -> rd64 (wr64 m a v) a = v.
Proof.
  intros Hv. unfold rd64, wr64. pose proof (mem_read_written m a (le_bytes 8 v)) as E. rewrite length_le_bytes in E.
  change (Z.of_nat (Z.to_nat 8)) with 8 in E. rewrite E. by apply (le_word_bytes 8).
Qed.
Lemma rd0_wr64_ne m a v p : ~ a <= p < a + 8 -> rd0 (wr64 m a v) p = rd0 m p.
Proof. intros Hp. unfold wr64. rewrite rd0_mem_write, length_le_bytes, decide_False by lia. done. Qed.
Lemma rd64_wr64_ne m a b v : a + 8 <= b \/ b + 8 <= a -> rd64 (wr64 m a v) b = rd64 m b.
Proof. intros Hb. apply rd64_agree. intros i Hi. apply rd0_wr64_ne. lia. Qed.

(** A copy, and a run of zeros. *)
Lemma rd0_copy m a m' src n p : 0 <= n -> rd0 (mem_write m a (mem_read m' src n)) p =
  if decide (a <= p < a + n) then rd0 m' (src + (p - a)) else rd0 m p.
Proof.
  intros Hn. rewrite rd0_mem_write, length_mem_read, Z.max_r by done. case_decide; [|done].
  apply nth_lookup_Some. unfold mem_read. rewrite list_lookup_fmap, lookup_seqZ_lt by lia. cbn. f_equal. f_equal. lia.
Qed.
Lemma rd0_zeros m a k p : 0 <= k -> rd0 (mem_write m a (replicate (Z.to_nat k) 0)) p =
  if decide (a <= p < a + k) then 0 else rd0 m p.
Proof.
  intros Hk. rewrite rd0_mem_write, length_replicate, Z2Nat.id by done. case_decide; [|done].
  apply nth_lookup_Some. apply lookup_replicate_2. lia.
Qed.
