(* ===== verification/Mbi.v ===== *)
(** * The command line of the loader (common/libc/mbi.c)

    A module is given a command line of options separated by spaces, a name or
    a name and its value.  [mbi_get_opt] looks for an option by name and gives
    its value to a handler; it cuts the line in place, with zeros, and puts
    back what it cut.

    The line is the buffer of its bytes, its final zero included, and what
    follows it in memory; a read outside of the buffer has no result. *)

From S2P Require Import Prelude.
From S2P Require Import Monad.
From S2P Require Import Vm.

(** ** Definitions *)

Definition MBI_FLAG_VER : Z := Z.shiftl 1 31.
Definition MBI_FLAG_BLDR : Z := 0x200.
Definition GRUB_STR : Z := 0x42555247.

Definition SPACE : Z := 32.
Definition EQUAL : Z := 61.

(** From [i], the first byte that [stop]s the loop; it cannot run further than
    the buffer. *)
Fixpoint scan_loop (fuel : nat) (stop : Z -> bool) (b : bytes) (i : nat) : option nat :=
  match fuel with
  | O => None
  | S fuel => c ← b !! i; if stop c then Some i else scan_loop fuel stop b (S i)
  end.
Definition scan (stop : Z -> bool) (b : bytes) (i : nat) : option nat := scan_loop (S (length b)) stop b i.

Definition name_end (c : Z) : bool := (c =? 0) || (c =? EQUAL) || (c =? SPACE).
Definition value_end (c : Z) : bool := (c =? 0) || (c =? SPACE).
Definition blank_end (c : Z) : bool := (c =? 0) || negb (c =? SPACE).

(** The string that starts at [i]. *)
Definition cstr (b : bytes) (i : nat) : option bytes :=
  j ← scan (fun c => c =? 0) b i; Some (take (j - i) (drop i b)).

Fixpoint name_match (wopt : bytes) (b : bytes) (i : nat) : option bool :=
  c ← b !! i;
  match wopt with
  | [] => Some (c =? 0)
  | w :: wopt => if (c =? 0) || negb (w =? c) then Some false else name_match wopt b (S i)
  end.

(** [if(e && *e != c) *e = c] *)
Definition put_back (e : option (nat * Z)) (b : bytes) : option bytes :=
  match e with
  | Some (i, c) => x ← b !! i; Some (if x =? c then b else <[i := c]> b)
  | None => Some b
  end.

(** What the cut of one option leaves: where the name and the value end, with
    the bytes replaced there, where the value starts, and the rest of the line. *)
Record cut := mk_cut { c_oe : option (nat * Z); c_ve : option (nat * Z); c_val : option nat; c_str : nat; c_buf : bytes }.
Definition cut_opt (b : bytes) (str : nat) : option cut :=
  p ← scan name_end b (S str);
  c ← b !! p;
  if c =? EQUAL then
    let b := <[p := 0]> b in
    q ← scan value_end b (S p);
    d ← b !! q;
    if c_true d then Some (mk_cut (Some (p, c)) (Some (q, d)) (Some (S p)) (S q) (<[q := 0]> b))
    else Some (mk_cut (Some (p, c)) None (Some (S p)) q b)
  else if c =? SPACE then Some (mk_cut (Some (p, c)) None None (S p) (<[p := 0]> b))
  else Some (mk_cut None None None p b).

Section get_opt.
Context {R : Type} (hdl : bytes -> R -> bool * R).

(** The result, the rest of the line, the buffer and what the handler keeps. *)
Definition mbi_parse_opt (b : bytes) (str : nat) (wopt : bytes) (res : R) : option (bool * nat * bytes * R) :=
  k ← cut_opt b str;
  m ← name_match wopt (c_buf k) str;
  r ← (if m : bool then
         match c_val k with
         | Some v => s ← cstr (c_buf k) v; Some (hdl s res)
         | None => Some (true, res)
         end
       else Some (false, res));
  b ← put_back (c_oe k) (c_buf k);
  b ← put_back (c_ve k) b;
  Some (r.1, c_str k, b, r.2).

(** Every turn reads at least one byte of the line. *)
Fixpoint get_opt_loop (fuel : nat) (b : bytes) (str : nat) (wopt : bytes) (res : R) : option (bool * bytes * R) :=
  match fuel with
  | O => None
  | S fuel =>
      str ← scan blank_end b str;
      '(rc, str, b, res) ← mbi_parse_opt b str wopt res;
      if rc : bool then Some (true, b, res) else
      c ← b !! str;
      if c_true c then get_opt_loop fuel b str wopt res else Some (false, b, res)
  end.

Definition mbi_get_opt (flags : Z) (b : bytes) (wopt : bytes) (res : R) : option (bool * bytes * R) :=
  str ← (if c_true (Z.land flags MBI_FLAG_VER) then scan value_end b 0 else Some 0%nat);
  get_opt_loop (S (length b)) b str wopt res.
End get_opt.

(** [mbi_check_boot_loader] on the name of the loader: grub 0.9x is noted in the flags. *)
Fixpoint find_legacy (fuel : nat) (name : bytes) (i : nat) : option bool :=
  match fuel with
  | O => None
  | S fuel =>
      c ← name !! i;
      if c =? 0 then Some false
      else if negb (c =? 71) then find_legacy fuel name (S i)
      else
        if (length name <? i + 4)%nat then None
        else if negb (le_word (take 4 (drop i name)) =? GRUB_STR) then find_legacy fuel name (S i)
        else v ← name !! (i + 5)%nat; if v =? 48 then Some true else find_legacy fuel name (S i)
  end.
Definition mbi_check_boot_loader (flags : Z) (name : bytes) : option Z :=
  if negb (c_true (Z.land flags MBI_FLAG_BLDR)) then Some flags
  else found ← find_legacy (S (length name)) name 0; Some (if found : bool then Z.lor flags MBI_FLAG_VER else flags).

(** ** Lines of options *)

Lemma mid_lookup {A} (p : list A) x t n : n = length p -> (p ++ x :: t) !! n = Some x.
Proof. intros ->. by apply list_lookup_middle. Qed.
Lemma mid_insert {A} (p : list A) x y t n : n = length p -> <[n := y]> (p ++ x :: t) = p ++ y :: t.
Proof. intros ->. by rewrite insert_app_r_alt, Nat.sub_diag by lia. Qed.

Lemma scan_to stop p s c t n : n = length p -> Forall (fun x => stop x = false) s -> stop c = true ->
  scan stop (p ++ s ++ c :: t) n = Some (n + length s)%nat.
Proof.
  intros -> Hs Hc. unfold scan.
  assert (length s < S (length (p ++ s ++ c :: t)))%nat as Hf by (rewrite !length_app; lia). revert Hf.
  generalize (S (length (p ++ s ++ c :: t))) as fuel. intros fuel. revert fuel p.
  induction Hs as [|x s Hx _ IH]; intros fuel p Hf; destruct fuel as [|fuel]; [lia| |lia|]; cbn [scan_loop app].
  - rewrite mid_lookup by done. cbn. by rewrite Hc, Nat.add_0_r.
  - rewrite mid_lookup by done. cbn. rewrite Hx. specialize (IH fuel (p ++ [x]) ltac:(cbn in Hf; lia)).
    rewrite <- app_assoc, length_app in IH. cbn in IH. replace (S (length p)) with (length p + 1)%nat by lia.
    rewrite IH. f_equal. lia.
Qed.
Lemma cstr_at p s t n : n = length p -> Forall (fun x => (x =? 0) = false) s -> cstr (p ++ s ++ 0 :: t) n = Some s.
Proof.
  intros -> Hs. unfold cstr. rewrite scan_to by done. cbn.
  replace (length p + length s - length p)%nat with (length s) by lia. by rewrite drop_app_length, take_app_length.
Qed.

Lemma name_match_at wopt p s t : Forall (fun x => (x =? 0) = false) s -> Forall (fun x => (x =? 0) = false) wopt ->
  name_match wopt (p ++ s ++ 0 :: t) (length p) = Some (bool_decide (wopt = s)).
Proof.
  intros Hs Hw. revert p s Hs. induction Hw as [|w wopt Hw _ IH]; intros p s Hs; destruct Hs as [|x s Hx Hs]; cbn [name_match app];
    rewrite mid_lookup by done; cbn [mbind option_bind].
  - done.
  - by rewrite Hx.
  - done.
  - rewrite Hx. cbn [orb]. destruct (Z.eqb_spec w x) as [->|Hne]; cbn [negb].
    + specialize (IH (p ++ [x]) s Hs). rewrite <- app_assoc, length_app in IH. cbn in IH.
      replace (S (length p)) with (length p + 1)%nat by lia. rewrite IH. f_equal. apply bool_decide_ext. split; congruence.
    + symmetry. rewrite bool_decide_eq_false_2; [done|congruence].
Qed.

Lemma put_back_at p x c t n : n = length p -> put_back (Some (n, c)) (p ++ x :: t) = Some (p ++ c :: t).
Proof.
  intros ->. unfold put_back. rewrite mid_lookup by done. cbn. destruct (Z.eqb_spec x c) as [->|]; [done|].
  by rewrite mid_insert.
Qed.

(** An option: the spaces before it, its name and its value. *)
Record copt := mk_copt { o_gap : nat; o_name : bytes; o_val : option bytes }.
Definition plain (c : Z) : Prop := value_end c = false.
Record opt_ok (o : copt) : Prop := mk_opt_ok {
  ok_name : o_name o <> [];
  ok_plain : Forall plain (o_name o);
  ok_equal : Forall (fun c => c <> EQUAL) (tail (o_name o));
  ok_val : match o_val o with Some v => Forall plain v | None => True end;
}.
Definition opt_text (o : copt) : bytes := o_name o ++ match o_val o with Some v => EQUAL :: v | None => [] end.
Fixpoint line (o : copt) (l : list copt) : bytes :=
  replicate (o_gap o) SPACE ++ opt_text o ++ match l with [] => [0] | o' :: l => SPACE :: line o' l end.

Lemma plain_nz c : plain c -> (c =? 0) = false.
Proof. unfold plain, value_end. by destruct (c =? 0). Qed.
Lemma plain_name_end c : plain c -> c <> EQUAL -> name_end c = false.
Proof. unfold plain, value_end, name_end. intros Hp Hc. rewrite (proj2 (Z.eqb_neq c EQUAL)) by done. by destruct (c =? 0), (c =? SPACE). Qed.
Lemma plains_nz s : Forall plain s -> Forall (fun x => (x =? 0) = false) s.
Proof. intros Hs. eapply Forall_impl; [exact Hs|]. apply plain_nz. Qed.

(** ** One option *)

Lemma scan_name p o e t : opt_ok o -> name_end e = true ->
  scan name_end (p ++ o_name o ++ e :: t) (S (length p)) = Some (length p + length (o_name o))%nat.
Proof.
  intros [Hn Hp He _] Hend. destruct (o_name o) as [|n0 n]; [done|]. apply Forall_cons in Hp as [_ Hp]. cbn [tail] in He.
  pose proof (scan_to name_end (p ++ [n0]) n e t (S (length p))) as Hs. rewrite <- app_assoc in Hs. cbn in Hs |- *.
  rewrite Hs; [f_equal; lia|rewrite length_app; cbn; lia| |done].
  rewrite Forall_forall in Hp, He |- *. intros x Hx. apply plain_name_end; auto.
Qed.

Lemma cut_at p o e t : opt_ok o -> e = 0 \/ e = SPACE ->
  let q := (length p + length (opt_text o))%nat in
  let n := (length p + length (o_name o))%nat in
  cut_opt (p ++ opt_text o ++ e :: t) (length p) = Some (
    let str := if e =? SPACE then S q else q in
    match o_val o with
    | Some v => mk_cut (Some (n, EQUAL)) (if e =? SPACE then Some (q, e) else None) (Some (S n)) str (p ++ o_name o ++ 0 :: v ++ 0 :: t)
    | None => mk_cut (if e =? SPACE then Some (n, e) else None) None None str (p ++ o_name o ++ 0 :: t)
    end).
Proof.
  intros Ho He q n. unfold cut_opt. assert (length (p ++ o_name o) = n) as Hn by by rewrite length_app.
  unfold opt_text in *. destruct (o_val o) as [v|] eqn:Ev.
  - rewrite <- (app_assoc (o_name o)). cbn [app]. rewrite scan_name by done. cbn [mbind option_bind].
    rewrite app_assoc, mid_lookup, mid_insert by done. cbn [mbind option_bind]. rewrite Z.eqb_refl.
    pose proof (ok_val o Ho) as Hv. rewrite Ev in Hv.
    assert (S n = length ((p ++ o_name o) ++ [0])) as Hsn by (rewrite length_app, Hn; cbn; lia).
    assert (length (((p ++ o_name o) ++ [0]) ++ v) = q) as Hq by (unfold q; rewrite !length_app; cbn; lia).
    replace ((p ++ o_name o) ++ 0 :: v ++ e :: t) with (((p ++ o_name o) ++ [0]) ++ v ++ e :: t) by by rewrite <- !app_assoc.
    fold n. assert (value_end e = true) as Hend by by destruct He as [-> | ->].
    rewrite (scan_to value_end _ v e t _ Hsn Hv Hend). cbn [mbind option_bind].
    replace (S n + length v)%nat with q by (unfold q, n; rewrite !length_app; cbn; lia).
    rewrite app_assoc, mid_lookup, mid_insert by done. cbn [mbind option_bind].
    destruct He as [-> | ->]; cbn [c_true Z.eqb negb]; unfold c_true; cbn [Z.eqb negb]; f_equal; f_equal; by rewrite <- !app_assoc.
  - assert (q = n) as Eq by (unfold q, n; by rewrite app_nil_r). rewrite app_nil_r, Eq. rewrite scan_name by (done || by destruct He as [-> | ->]). cbn [mbind option_bind].
    fold n. rewrite app_assoc, mid_lookup, mid_insert by done. cbn [mbind option_bind].
    destruct He as [-> | ->]; unfold c_true; cbn; rewrite <- ?app_assoc; done.
Qed.

Section parse.
Context {R : Type} (hdl : bytes -> R -> bool * R) (wopt : bytes) (Hw : Forall (fun x => (x =? 0) = false) wopt).

(** What an option answers, and what a line of options does: the first one of
    that name whose value the handler accepts. *)
Definition opt_answer (o : copt) (res : R) : bool * R :=
  if bool_decide (wopt = o_name o) then
    match o_val o with Some v => hdl v res | None => (true, res) end
  else (false, res).
Fixpoint line_answer (o : copt) (l : list copt) (res : R) : bool * R :=
  let a := opt_answer o res in
  if a.1 then a else match l with [] => a | o' :: l => line_answer o' l a.2 end.

Lemma parse_at p o e t res : opt_ok o -> e = 0 \/ e = SPACE ->
  let b := p ++ opt_text o ++ e :: t in
  let q := (length p + length (opt_text o))%nat in
  mbi_parse_opt hdl b (length p) wopt res =
    Some ((opt_answer o res).1, if e =? SPACE then S q else q, b, (opt_answer o res).2).
Proof.
  intros Ho He b q. unfold mbi_parse_opt, b. rewrite (cut_at p o e t Ho He). cbn [mbind option_bind]. cbv zeta. fold q.
  pose proof (plains_nz _ (ok_plain o Ho)) as Hname. unfold opt_answer, opt_text in *.
  assert (length (p ++ o_name o) = (length p + length (o_name o))%nat) as Hn by by rewrite length_app.
  pose proof (ok_val o Ho) as Hv. destruct (o_val o) as [v|] eqn:Ev; cbn [c_buf c_oe c_ve c_val c_str].
  - rewrite name_match_at by done. cbn [mbind option_bind].
    assert (cstr (p ++ o_name o ++ 0 :: v ++ 0 :: t) (S (length p + length (o_name o))) = Some v) as Hc.
    { replace (p ++ o_name o ++ 0 :: v ++ 0 :: t) with (((p ++ o_name o) ++ [0]) ++ v ++ 0 :: t) by by rewrite <- !app_assoc.
      apply cstr_at; [rewrite !length_app; cbn; lia|by apply plains_nz]. }
    assert (forall r : bool * R,
      (x ← put_back (Some ((length p + length (o_name o))%nat, EQUAL)) (p ++ o_name o ++ 0 :: v ++ 0 :: t);
       x ← put_back (if e =? SPACE then Some (q, e) else None) x; Some (r.1, if e =? SPACE then S q else q, x, r.2)) =
      Some (r.1, if e =? SPACE then S q else q, p ++ (o_name o ++ EQUAL :: v) ++ e :: t, r.2)) as Hb.
    { intros r. rewrite app_assoc, put_back_at by done. cbn [mbind option_bind].
      destruct He as [-> | ->]; cbn [Z.eqb]; [by rewrite <- !app_assoc|].
      replace ((p ++ o_name o) ++ EQUAL :: v ++ 0 :: t) with ((p ++ o_name o ++ EQUAL :: v) ++ 0 :: t) by by rewrite <- !app_assoc.
      rewrite Z.eqb_refl, put_back_at; [cbn [mbind option_bind]; by rewrite <- !app_assoc|unfold q; by rewrite !length_app]. }
    case_bool_decide; rewrite ?Hc; cbn [mbind option_bind]; apply Hb.
  - rewrite app_nil_r in *. rewrite name_match_at by done. cbn [mbind option_bind].
    assert (q = (length p + length (o_name o))%nat) as Eq by (unfold q; by rewrite app_nil_r).
    destruct He as [-> | ->]; cbn [Z.eqb]; [case_bool_decide; cbn [mbind option_bind put_back]; done|].
    rewrite Z.eqb_refl. assert (forall y, p ++ o_name o ++ y :: t = (p ++ o_name o) ++ y :: t) as Hy by (intros; by rewrite app_assoc).
    rewrite !Hy. case_bool_decide; cbn [mbind option_bind]; rewrite put_back_at by done; done.
Qed.

Lemma line_first o l : opt_ok o -> exists x t, line o l = x :: t /\ x <> 0.
Proof.
  intros Ho. destruct l; cbn [line]; (destruct (o_gap o) as [|k]; [|by eexists _, _]);
    cbn [replicate app]; unfold opt_text; pose proof (ok_name o Ho); pose proof (ok_plain o Ho) as Hp;
    (destruct (o_name o) as [|x n]; [done|]); apply Forall_cons in Hp as [Hx _]; eexists x, _; (split; [done|]);
    apply plain_nz in Hx; lia.
Qed.

Lemma skip_blanks p o t : opt_ok o ->
  scan blank_end (p ++ replicate (o_gap o) SPACE ++ opt_text o ++ t) (length p) = Some (length (p ++ replicate (o_gap o) SPACE)).
Proof.
  intros Ho. unfold opt_text. pose proof (ok_name o Ho). pose proof (ok_plain o Ho) as Hp.
  destruct (o_name o) as [|x n]; [done|]. apply Forall_cons in Hp as [Hx _]. cbn [app].
  rewrite scan_to; [by rewrite length_app|done| |].
  - apply Forall_replicate. done.
  - unfold plain, value_end in Hx. unfold blank_end. by destruct (x =? 0), (x =? SPACE).
Qed.

Lemma loop_at l : forall o p fuel rest res, Forall opt_ok (o :: l) -> (length l < fuel)%nat ->
  get_opt_loop hdl fuel (p ++ line o l ++ rest) (length p) wopt res =
    Some ((line_answer o l res).1, p ++ line o l ++ rest, (line_answer o l res).2).
Proof.
  induction l as [|o' l IH]; intros o p fuel rest res Hl Hf; (destruct fuel as [|fuel]; [lia|]); apply Forall_cons in Hl as [Ho Hl];
    cbn [get_opt_loop line line_answer]; rewrite <- !app_assoc, skip_blanks by done; cbn [mbind option_bind];
    set (g := replicate (o_gap o) SPACE); rewrite (app_assoc p g); cbn [app].
  - rewrite parse_at by (done || by left). cbn [mbind option_bind Z.eqb]. destruct (opt_answer o res) as [[] r]; [done|]. cbn [fst snd].
    rewrite app_assoc, mid_lookup by by rewrite (length_app (p ++ g)). done.
  - rewrite parse_at by (done || by right). cbn [mbind option_bind]. rewrite Z.eqb_refl. destruct (opt_answer o res) as [[] r]; [done|]. cbn [fst snd].
    set (p' := (p ++ g) ++ opt_text o ++ [SPACE]).
    assert (S (length (p ++ g) + length (opt_text o)) = length p') as -> by (unfold p'; rewrite !length_app; cbn; lia).
    assert (forall x, (p ++ g) ++ opt_text o ++ SPACE :: x = p' ++ x) as Hp by (intros; unfold p'; by rewrite <- !app_assoc).
    rewrite Hp. destruct (line_first o' l) as (x & t & Ex & Hx); [by apply Forall_cons in Hl as [? _]|]. rewrite Ex at 1. cbn [app].
    rewrite mid_lookup by done. cbn [mbind option_bind]. rewrite c_true_ne by done.
    apply IH; [done|cbn in Hf; lia].
Qed.
End parse.

(** ** The property *)

(** What comes before the options: with a legacy grub, the name of the module. *)
Definition cmdline (legacy : bool) (path : bytes) (o : copt) (l : list copt) : bytes :=
  if legacy then path ++ SPACE :: line o l else line o l.

(** One more space before the first option. *)
Definition spaced (o : copt) : copt := mk_copt (S (o_gap o)) (o_name o) (o_val o).
Lemma spaced_ok o l : Forall opt_ok (o :: l) -> Forall opt_ok (spaced o :: l).
Proof. intros [[H1 H2 H3 H4] Hl]%Forall_cons. by apply Forall_cons. Qed.
Lemma spaced_answer {R} (hdl : bytes -> R -> bool * R) wopt o l res :
  line_answer hdl wopt (spaced o) l res = line_answer hdl wopt o l res.
Proof. by destruct l. Qed.
Lemma spaced_line o l : line (spaced o) l = SPACE :: line o l.
Proof. by destruct l. Qed.

(** C39: on a line of options [mbi_get_opt] returns, leaves the line as it was,
    and answers as the first option of that name that has no value, for which
    it is true and the handler is not called, or whose value the handler
    accepts, whatever follows the line in memory. *)
Theorem mbi_get_opt_refines {R} (hdl : bytes -> R -> bool * R) flags path o l rest wopt res :
  Forall opt_ok (o :: l) -> Forall plain path -> Forall (fun x => (x =? 0) = false) wopt ->
  let b := cmdline (c_true (Z.land flags MBI_FLAG_VER)) path o l ++ rest in
  mbi_get_opt hdl flags b wopt res = Some ((line_answer hdl wopt o l res).1, b, (line_answer hdl wopt o l res).2).
Proof.
  intros Hl Hp Hw b. unfold mbi_get_opt, b, cmdline.
  assert (forall k, (length l < length (line k l))%nat) as Hlen.
  { clear. induction l as [|o' l IH]; intros k; cbn [line]; rewrite !length_app; cbn [length]; [lia|]. specialize (IH o'). lia. }
  specialize (Hlen o). destruct (c_true _); cbn [mbind option_bind].
  - rewrite <- spaced_line, <- app_assoc. rewrite (spaced_line o l) at 1. cbn [app].
    pose proof (scan_to value_end [] path SPACE (line o l ++ rest) 0 eq_refl Hp eq_refl) as Es. cbn [app plus] in Es.
    rewrite Es. cbn [mbind option_bind].
    rewrite <- (spaced_answer hdl wopt o l). apply loop_at; [done|by apply spaced_ok|].
    rewrite spaced_line, !length_app. cbn. lia.
  - apply (loop_at hdl wopt Hw l o []); [done|rewrite length_app; lia].
Qed.

(** The size of the pool, given twice, the first time out of the reach of the
    handler; "boot  pool=x pool=2". *)
Definition ex_pool : bytes := [112; 111; 111; 108].
Definition ex_opts : list copt := [mk_copt 0 ex_pool (Some [120]); mk_copt 0 ex_pool (Some [50])].
Definition ex_dec (s : bytes) (r : Z) : bool * Z :=
  match s with [d] => if (48 <=? d) && (d <=? 57) then (true, d - 48) else (false, r) | _ => (false, r) end.
Lemma mbi_get_opt_refines_witness :
  mbi_get_opt ex_dec 0 (line (mk_copt 2 [98] None) ex_opts ++ [7]) ex_pool 0 =
    Some (true, line (mk_copt 2 [98] None) ex_opts ++ [7], 2).
Proof.
  refine (mbi_get_opt_refines ex_dec 0 [] (mk_copt 2 [98] None) ex_opts [7] ex_pool 0 _ _ _).
  - repeat apply Forall_cons_2; [..|apply Forall_nil_2]; (split; [done|by repeat constructor| |by repeat constructor]);
      cbn; repeat constructor; done.
  - constructor.
  - repeat constructor.
Defined.

(** The first byte of an option is not tested: an empty line, or one that ends
    with two spaces, is read past its end. *)
Lemma mbi_empty_overread : mbi_get_opt ex_dec 0 [0] ex_pool 0 = None /\
  mbi_get_opt ex_dec 0 ([98; SPACE; SPACE; 0] ++ [SPACE] ++ ex_pool ++ [EQUAL; 51; 0]) ex_pool 0 =
    Some (true, [98; SPACE; SPACE; 0] ++ [SPACE] ++ ex_pool ++ [EQUAL; 51; 0], 3).
Proof. split; vm_compute; reflexivity. Qed.
(** An option that has no value succeeds without a call of the handler. *)
Lemma mbi_no_value : mbi_get_opt ex_dec 0 (ex_pool ++ [0]) ex_pool 77 = Some (true, ex_pool ++ [0], 77).
Proof. vm_compute. reflexivity. Qed.
