(* ===== verification/Elf.v ===== *)
(** * Loading of a module (common/libc/elf.c)

    The loader copies the load segments of an elf module to the address it is
    to run at, fills what they have more in memory than in the file, and
    applies the relocations.  The module and its copy are in the same memory,
    of bytes; [None] is a panic or a division by zero. *)

From S2P Require Import Prelude.
From S2P Require Import Monad.
From S2P Require Import Vm.
From S2P Require Import Words.

(** ** Headers (include/elf.h), at their offsets *)

Definition EM_X86_64 : Z := 62.
Definition PT_LOAD : Z := 1.
Definition SHT_RELA : Z := 4.
Definition R_X86_64_RELATIVE : Z := 8.

Record elf_ehdr := mk_ehdr {
  e_machine : Z; e_entry : Z; e_phoff : Z; e_shoff : Z;
  e_phentsize : Z; e_phnum : Z; e_shentsize : Z; e_shnum : Z;
}.
Definition ehdr_at (m : gmap Z Z) (a : Z) : elf_ehdr :=
  mk_ehdr (rd16 m (a + 18)) (rd64 m (a + 24)) (rd64 m (a + 32)) (rd64 m (a + 40))
    (rd16 m (a + 54)) (rd16 m (a + 56)) (rd16 m (a + 58)) (rd16 m (a + 60)).
Record elf_phdr := mk_phdr {
  p_type : Z; p_offset : Z; p_vaddr : Z; p_filesz : Z; p_memsz : Z; p_align : Z;
}.
Definition phdr_at (m : gmap Z Z) (a : Z) : elf_phdr :=
  mk_phdr (rd32 m a) (rd64 m (a + 8)) (rd64 m (a + 16)) (rd64 m (a + 32)) (rd64 m (a + 40)) (rd64 m (a + 48)).
Record elf_shdr := mk_shdr { sh_type : Z; sh_offset : Z; sh_size : Z; sh_entsize : Z }.
Definition shdr_at (m : gmap Z Z) (a : Z) : elf_shdr :=
  mk_shdr (rd32 m (a + 4)) (rd64 m (a + 24)) (rd64 m (a + 32)) (rd64 m (a + 56)).
Record elf_rela := mk_rela { r_offset : Z; r_info : Z; r_addend : Z }.
Definition rela_at (m : gmap Z Z) (a : Z) : elf_rela := mk_rela (rd64 m a) (rd64 m (a + 8)) (rd64 m (a + 16)).
Definition ELF64_R_TYPE (i : Z) : Z := Z.land i 0xffffffff.

(** A 64-bit word read as a signed one. *)
Definition sint64 (v : Z) : Z := if v <? 2 ^ 63 then v else v - 2 ^ 64.

(** ** Operations *)

Fixpoint elf_section_from (n : nat) (m : gmap Z Z) (mod_start type sloc : Z) : option Z :=
  match n with
  | O => None
  | S n =>
      if sh_type (shdr_at m sloc) =? type then Some sloc
      else elf_section_from n m mod_start type (wrap64 (sloc + e_shentsize (ehdr_at m mod_start)))
  end.
(** [__elf_section]: the address of the first section of a type. *)
Definition elf_section (m : gmap Z Z) (mod_start type : Z) : option Z :=
  let h := ehdr_at m mod_start in
  elf_section_from (Z.to_nat (e_shnum h)) m mod_start type (wrap64 (mod_start + e_shoff h)).

(** One turn of the loop of [__elf_module_load]. *)
Definition elf_load_segment (mod_start base not_before p_hdr : Z) (m : gmap Z Z) : option (gmap Z Z) :=
  let h := phdr_at m p_hdr in
  if negb (p_type h =? PT_LOAD) then Some m else
  let mem := wrap64 (base + p_vaddr h) in
  if mem <? not_before then None else
  let m := if c_true (p_filesz h) then mem_write m mem (mem_read m (wrap64 (mod_start + p_offset h)) (p_filesz h)) else m in
  let h := phdr_at m p_hdr in
  let pad := sint64 (wrap64 (p_memsz h - p_filesz h)) in
  Some (if 0 <? pad then mem_write m (wrap64 (mem + p_filesz h)) (replicate (Z.to_nat pad) 0) else m).
(** The loop from its turn [i]; the number of headers is a 16-bit field. *)
Fixpoint elf_load_loop (fuel : nat) (i : Z) (mod_start base not_before p_hdr : Z) (m : gmap Z Z) : option (gmap Z Z) :=
  match fuel with
  | O => None
  | S fuel =>
      if negb (i <? e_phnum (ehdr_at m mod_start)) then Some m else
      m ← elf_load_segment mod_start base not_before p_hdr m;
      elf_load_loop fuel (i + 1) mod_start base not_before (wrap64 (p_hdr + e_phentsize (ehdr_at m mod_start))) m
  end.
Definition elf_load (mod_start base not_before : Z) (m : gmap Z Z) : option (gmap Z Z) :=
  let h := ehdr_at m mod_start in
  if negb (e_machine h =? EM_X86_64) || negb (c_true (e_phnum h)) then None
  else elf_load_loop (Z.to_nat 65536) 0 mod_start base not_before (wrap64 (mod_start + e_phoff h)) m.
Definition elf_module_load (mod_start not_before : Z) := elf_load mod_start 0 not_before.
Definition elf_module_load_pic_static (mod_start base : Z) := elf_load mod_start base 0.

(** The fuel is one more than the entries the section has before the loop. *)
Fixpoint elf_reloc_loop (fuel : nat) (n : Z) (base r_hdr rloc : Z) (m : gmap Z Z) : option (gmap Z Z) :=
  match fuel with
  | O => None
  | S fuel =>
      let s := shdr_at m r_hdr in
      if sh_entsize s =? 0 then None
      else if negb (n <? sh_size s / sh_entsize s) then Some m else
      let r := rela_at m rloc in
      if negb (ELF64_R_TYPE (r_info r) =? R_X86_64_RELATIVE) then None
      else if sint64 (r_addend r) <? 0 then None
      else
        let m := wr64 m (wrap64 (base + r_offset r)) (wrap64 (base + r_addend r)) in
        elf_reloc_loop fuel (n + 1) base r_hdr (wrap64 (rloc + sh_entsize (shdr_at m r_hdr))) m
  end.
Definition elf_module_load_relocatable (mod_start base : Z) (m : gmap Z Z) : option (gmap Z Z) :=
  m ← elf_load mod_start base 0 m;
  r_hdr ← elf_section m mod_start SHT_RELA;
  let s := shdr_at m r_hdr in
  elf_reloc_loop (S (Z.to_nat (sh_size s / sh_entsize s))) 0 base r_hdr (wrap64 (mod_start + sh_offset s)) m.

Definition elf_module_entry (mod_start : Z) (m : gmap Z Z) : Z := e_entry (ehdr_at m mod_start).
(** [elf_module_phdr]: the first program header, that has to be a load segment. *)
Definition elf_module_phdr (mod_start : Z) (m : gmap Z Z) : option elf_phdr :=
  let h := ehdr_at m mod_start in
  let p := phdr_at m (wrap64 (mod_start + e_phoff h)) in
  if c_true (e_phnum h) && (p_type p =? PT_LOAD) then Some p else None.
Definition elf_module_load_algn (mod_start : Z) (m : gmap Z Z) : option Z := p_align <$> elf_module_phdr mod_start m.
Definition elf_module_load_size (mod_start : Z) (m : gmap Z Z) : option Z := p_memsz <$> elf_module_phdr mod_start m.

(** ** Modules that can be loaded

    [elf_ok] is what the build of the vmm gives: a module of [len] bytes, its
    tables and the files of its segments inside, loaded away from itself at
    [base]; its load segments are disjoint and lie in the [size] bytes of the
    first one; its relocations are relative ones, of different words of the copy. *)

Section load.
Variables (m0 : gmap Z Z) (mod_start len base size : Z).

Definition hdr : elf_ehdr := ehdr_at m0 mod_start.
Definition phdr_addr (i : Z) : Z := mod_start + e_phoff hdr + i * e_phentsize hdr.
Definition phdr (i : Z) : elf_phdr := phdr_at m0 (phdr_addr i).
Definition loads (i : Z) : Prop := 0 <= i < e_phnum hdr /\ p_type (phdr i) = PT_LOAD.
Definition rela_addr (s : elf_shdr) (k : Z) : Z := mod_start + sh_offset s + k * sh_entsize s.
Definition rela (s : elf_shdr) (k : Z) : elf_rela := rela_at m0 (rela_addr s k).
Definition relas (s : elf_shdr) : Z := sh_size s / sh_entsize s.

Record seg_ok (h : elf_phdr) : Prop := mk_seg_ok {
  so_file : 0 <= p_filesz h <= p_memsz h;
  so_mem : 0 <= p_vaddr h /\ p_vaddr h + p_memsz h <= size;
  so_off : 0 <= p_offset h /\ p_offset h + p_filesz h <= len;
}.
Record rela_ok (r : elf_rela) : Prop := mk_rela_ok {
  ro_type : ELF64_R_TYPE (r_info r) = R_X86_64_RELATIVE;
  ro_addend : 0 <= r_addend r /\ base + r_addend r < 2 ^ 63;
  ro_offset : 0 <= r_offset r /\ r_offset r + 8 <= size;
}.
Record elf_ok (r_hdr : Z) : Prop := mk_elf_ok {
  eo_mod : 0 <= mod_start /\ 64 <= len /\ mod_start + len <= 2 ^ 63;
  eo_base : 0 <= base /\ 0 <= size /\ base + size < 2 ^ 63;
  eo_away : mod_start + len <= base \/ base + size <= mod_start;
  eo_machine : e_machine hdr = EM_X86_64;
  eo_phnum : 0 < e_phnum hdr < 65536;
  eo_phoff : 0 <= e_phoff hdr /\ 56 <= e_phentsize hdr /\ e_phoff hdr + e_phnum hdr * e_phentsize hdr <= len;
  eo_segs i : loads i -> seg_ok (phdr i);
  eo_disj i j : loads i -> loads j -> i <> j ->
    p_vaddr (phdr i) + p_memsz (phdr i) <= p_vaddr (phdr j) \/ p_vaddr (phdr j) + p_memsz (phdr j) <= p_vaddr (phdr i);
  eo_shoff : 0 <= e_shoff hdr /\ 64 <= e_shentsize hdr /\ 0 <= e_shnum hdr /\ e_shoff hdr + e_shnum hdr * e_shentsize hdr <= len;
  eo_rela : elf_section m0 mod_start SHT_RELA = Some r_hdr;
  eo_shdr : let s := shdr_at m0 r_hdr in 0 <= sh_offset s /\ 24 <= sh_entsize s /\ 0 <= sh_size s /\ sh_offset s + sh_size s <= len;
  eo_relas k : let s := shdr_at m0 r_hdr in 0 <= k < relas s -> rela_ok (rela s k);
  eo_words k l : let s := shdr_at m0 r_hdr in 0 <= k < relas s -> 0 <= l < relas s -> k <> l ->
    r_offset (rela s k) + 8 <= r_offset (rela s l) \/ r_offset (rela s l) + 8 <= r_offset (rela s k);
}.

(** The byte [d] of a segment. *)
Definition seg_byte (h : elf_phdr) (d : Z) : Z :=
  if d <? p_filesz h then rd0 m0 (mod_start + p_offset h + d) else 0.
Definition relocated (s : elf_shdr) (p : Z) : Prop :=
  exists k, 0 <= k < relas s /\ base + r_offset (rela s k) <= p < base + r_offset (rela s k) + 8.

Definition same_module (m : gmap Z Z) : Prop := forall p, mod_start <= p < mod_start + len -> rd0 m p = rd0 m0 p.
Definition same_outside (m : gmap Z Z) : Prop := forall p, ~ base <= p < base + size -> rd0 m p = rd0 m0 p.

Context (r_hdr : Z) (Hok : elf_ok r_hdr).

Lemma same_outside_module m : same_outside m -> same_module m.
Proof. intros Hm p Hp. apply Hm. destruct (eo_away _ Hok), (eo_base _ Hok); lia. Qed.

Lemma rd_same m a n : same_module m -> mod_start <= a -> a + n <= mod_start + len -> mem_read m a n = mem_read m0 a n.
Proof. intros Hm Ha Hn. apply mem_read_agree. intros p Hp. apply Hm. lia. Qed.

Ltac same m := unfold rd16, rd32, rd64; rewrite !(rd_same m) by (done || lia).
Lemma ehdr_same m : same_module m -> ehdr_at m mod_start = hdr.
Proof. intros Hm. destruct (eo_mod _ Hok). unfold hdr, ehdr_at. same m. done. Qed.
Lemma phdr_same m i : same_module m -> 0 <= i < e_phnum hdr -> phdr_at m (phdr_addr i) = phdr i.
Proof.
  intros Hm Hi. destruct (eo_phoff _ Hok) as (H1 & H2 & H3).
  assert (i * e_phentsize hdr + 56 <= e_phnum hdr * e_phentsize hdr) by nia. assert (0 <= i * e_phentsize hdr) by nia.
  unfold phdr, phdr_addr in *. set (a := mod_start + _ + _) in *. assert (mod_start <= a) by lia.
  assert (a + 56 <= mod_start + len) by lia. clearbody a. unfold phdr_at. same m. done.
Qed.

(** ** Segments *)

Definition seg_range (h : elf_phdr) (p : Z) : Prop := base + p_vaddr h <= p < base + p_vaddr h + p_memsz h.
Definition in_seg (i p : Z) : Prop := loads i /\ seg_range (phdr i) p.

Lemma load_segment i m : same_outside m -> 0 <= i < e_phnum hdr -> exists m',
  elf_load_segment mod_start base 0 (phdr_addr i) m = Some m' /\
  (forall p, in_seg i p -> rd0 m' p = seg_byte (phdr i) (p - (base + p_vaddr (phdr i)))) /\
  (forall p, ~ in_seg i p -> rd0 m' p = rd0 m p).
Proof.
  intros Hm Hi. pose proof (same_outside_module _ Hm) as Hs. unfold elf_load_segment. rewrite phdr_same by done.
  destruct (Z.eqb_spec (p_type (phdr i)) PT_LOAD) as [Ht|Ht]; cbn [negb].
  2: { exists m. split; [done|]. split; [|done]. intros p [[_ ?] _]. done. }
  destruct (eo_segs _ Hok i (conj Hi Ht)) as [Hf Hv Ho]. set (h := phdr i) in *.
  destruct (eo_base _ Hok) as (B0 & B1 & B2). destruct (eo_mod _ Hok) as (M0 & M1 & M2).
  rewrite (wrap_id 64 (base + p_vaddr h)) by (unfold fits; lia). rewrite (proj2 (Z.ltb_ge _ 0)) by lia.
  set (m1 := if c_true (p_filesz h) then _ else m).
  assert (forall p, rd0 m1 p = if decide (base + p_vaddr h <= p < base + p_vaddr h + p_filesz h)
    then rd0 m0 (mod_start + p_offset h + (p - (base + p_vaddr h))) else rd0 m p) as H1.
  { intros p. unfold m1. destruct (Z.eq_dec (p_filesz h) 0) as [E|E].
    - rewrite E. cbn. by rewrite decide_False by lia.
    - rewrite c_true_ne, rd0_copy by (done || lia). case_decide; [|done].
      rewrite wrap_id by (unfold fits; lia). apply Hs. lia. }
  assert (same_outside m1) as Hm1.
  { intros p Hp. rewrite H1, decide_False by lia. by apply Hm. }
  rewrite phdr_same by (done || by apply same_outside_module). fold h.
  rewrite (wrap_id 64 (p_memsz h - p_filesz h)) by (unfold fits; lia). unfold sint64. rewrite (proj2 (Z.ltb_lt _ (2 ^ 63))) by lia.
  rewrite (wrap_id 64 (base + p_vaddr h + p_filesz h)) by (unfold fits; lia).
  eexists. split; [reflexivity|]. unfold in_seg, seg_range, seg_byte. fold h.
  assert (forall p, rd0 (if 0 <? p_memsz h - p_filesz h then mem_write m1 (base + p_vaddr h + p_filesz h)
      (replicate (Z.to_nat (p_memsz h - p_filesz h)) 0) else m1) p =
    if decide (base + p_vaddr h + p_filesz h <= p < base + p_vaddr h + p_memsz h) then 0 else rd0 m1 p) as H2.
  { intros p. destruct (Z.ltb_spec 0 (p_memsz h - p_filesz h)); [|by rewrite decide_False by lia].
    rewrite rd0_zeros by lia. apply decide_ext. lia. }
  split; intros p Hp; rewrite H2, H1; [destruct Hp as [_ Hp]|].
  - case_decide; [by rewrite (proj2 (Z.ltb_ge _ _)) by lia|]. by rewrite decide_True, (proj2 (Z.ltb_lt _ _)) by lia.
  - rewrite !decide_False; [done|..]; intros ?; apply Hp; (split; [done|]); lia.
Qed.

(** After the turns before [i]: what the loop leaves to do does not touch it. *)
Definition loaded (i : Z) (m : gmap Z Z) : Prop :=
  same_outside m /\ forall j p, j < i -> in_seg j p -> rd0 m p = seg_byte (phdr j) (p - (base + p_vaddr (phdr j))).

Lemma loaded_step i m m' : loaded i m -> 0 <= i < e_phnum hdr ->
  (forall p, in_seg i p -> rd0 m' p = seg_byte (phdr i) (p - (base + p_vaddr (phdr i)))) ->
  (forall p, ~ in_seg i p -> rd0 m' p = rd0 m p) -> loaded (i + 1) m'.
Proof.
  intros [Ho Hl] Hi Hin Hout. split.
  - intros p Hp. rewrite Hout; [by apply Ho|]. intros [Hli Hr]. destruct (eo_segs _ Hok i Hli) as [_ Hv _].
    unfold seg_range in Hr. lia.
  - intros j p Hj Hp. destruct (decide (j = i)) as [->|Hne]; [by apply Hin|]. rewrite Hout; [apply Hl; [lia|done]|].
    intros [Hli Hr]. destruct Hp as [Hlj Hr']. unfold seg_range in *. destruct (eo_disj _ Hok i j Hli Hlj); [done|lia..].
Qed.

Lemma load_loop n : forall i fuel m, i + Z.of_nat n = e_phnum hdr -> 0 <= i -> (n < fuel)%nat -> loaded i m ->
  exists m', elf_load_loop fuel i mod_start base 0 (phdr_addr i) m = Some m' /\ loaded (e_phnum hdr) m'.
Proof.
  induction n as [|n IH]; intros i fuel m Hi H0 Hf Hl; (destruct fuel as [|fuel]; [lia|]); cbn [elf_load_loop];
    rewrite ehdr_same by (apply same_outside_module, Hl).
  - rewrite (proj2 (Z.ltb_ge _ _)) by lia. exists m. split; [done|]. by replace (e_phnum hdr) with i by lia.
  - rewrite (proj2 (Z.ltb_lt _ _)) by lia. cbn [negb].
    destruct (load_segment i m) as (m' & E & Hin & Hout); [apply Hl|lia|]. rewrite E. cbn [mbind option_bind].
    assert (loaded (i + 1) m') as Hl' by (eapply loaded_step; eauto; lia).
    rewrite ehdr_same by (apply same_outside_module, Hl').
    destruct (eo_phoff _ Hok) as (P1 & P2 & P3). destruct (eo_mod _ Hok) as (M0 & M1 & M2).
    assert (phdr_addr i + e_phentsize hdr = phdr_addr (i + 1)) as -> by (unfold phdr_addr; lia).
    rewrite wrap_id by (unfold fits, phdr_addr in *; nia). apply IH; [lia..|done].
Qed.

(** ** Relocations *)

Lemma shdr_same m a : same_module m -> mod_start <= a -> a + 64 <= mod_start + len -> shdr_at m a = shdr_at m0 a.
Proof. intros Hm Ha Hl. unfold shdr_at. same m. done. Qed.
Lemma section_same m n : forall sloc type, same_module m -> mod_start <= sloc ->
  sloc + Z.of_nat n * e_shentsize hdr <= mod_start + len ->
  elf_section_from n m mod_start type sloc = elf_section_from n m0 mod_start type sloc /\
  (forall r, elf_section_from n m0 mod_start type sloc = Some r -> mod_start <= r /\ r + 64 <= mod_start + len).
Proof.
  destruct (eo_shoff _ Hok) as (_ & S2 & _ & _). destruct (eo_mod _ Hok) as (M0 & M1 & M2).
  induction n as [|n IH]; intros sloc type Hm Hs Hl; cbn [elf_section_from]; [done|].
  rewrite (shdr_same m) by (done || nia). destruct (_ =? type); [split; [done|]; intros r [= <-]; nia|].
  rewrite ehdr_same by done. change (ehdr_at m0 mod_start) with hdr.
  rewrite wrap_id by (unfold fits; nia). apply IH; [done|lia|nia].
Qed.
Lemma section_found m : same_module m -> elf_section m mod_start SHT_RELA = Some r_hdr /\
  mod_start <= r_hdr /\ r_hdr + 64 <= mod_start + len.
Proof.
  intros Hm. pose proof (eo_rela _ Hok) as Hr. unfold elf_section in *. rewrite ehdr_same by done.
  change (ehdr_at m0 mod_start) with hdr in Hr.
  destruct (eo_shoff _ Hok) as (S1 & S2 & S3 & S4). destruct (eo_mod _ Hok) as (M0 & M1 & M2).
  assert (0 <= e_shnum hdr * e_shentsize hdr) by nia. rewrite wrap_id in * by (unfold fits; lia).
  destruct (section_same m (Z.to_nat (e_shnum hdr)) (mod_start + e_shoff hdr) SHT_RELA) as [E Hin];
    [done|lia|rewrite Z2Nat.id by done; lia|]. rewrite E. split; [done|]. by apply Hin.
Qed.

Let sec : elf_shdr := shdr_at m0 r_hdr.

Lemma rela_bounds k : 0 <= k < relas sec -> mod_start <= rela_addr sec k /\ rela_addr sec k + sh_entsize sec <= mod_start + len.
Proof.
  intros Hk. destruct (eo_shdr _ Hok) as (S1 & S2 & S3 & S4). fold sec in S1, S2, S3, S4. unfold relas, rela_addr in *.
  assert (sh_entsize sec * (sh_size sec / sh_entsize sec) <= sh_size sec) by (apply Z.mul_div_le; lia). nia.
Qed.

(** After the entries before [n] of the memory [m1]. *)
Definition patched (m1 : gmap Z Z) (n : Z) (m : gmap Z Z) : Prop :=
  same_outside m /\
  (forall k, 0 <= k < n -> rd64 m (base + r_offset (rela sec k)) = base + r_addend (rela sec k)) /\
  (forall p, ~ relocated sec p -> rd0 m p = rd0 m1 p).

Lemma patched_step m1 n m : patched m1 n m -> 0 <= n < relas sec ->
  patched m1 (n + 1) (wr64 m (base + r_offset (rela sec n)) (base + r_addend (rela sec n))).
Proof.
  intros (Ho & Hk & Hp) Hn. destruct (eo_relas _ Hok n Hn) as [_ Ha Hoff]. fold sec in Ha, Hoff.
  destruct (eo_base _ Hok) as (B0 & B1 & B2). split_and!.
  - intros p Hpp. rewrite rd0_wr64_ne by lia. by apply Ho.
  - intros k Hkn. destruct (decide (k = n)) as [->|Hne].
    + apply rd64_wr64. unfold fits. lia.
    + rewrite rd64_wr64_ne; [apply Hk; lia|].
      destruct (eo_words _ Hok n k Hn) as [H|H]; [fold sec; lia|done|fold sec in H; lia..].
  - intros p Hpp. rewrite rd0_wr64_ne; [by apply Hp|]. intros H. apply Hpp. by exists n.
Qed.

Lemma reloc_loop m1 k : forall n fuel m, n + Z.of_nat k = relas sec -> 0 <= n -> (k < fuel)%nat -> patched m1 n m ->
  exists m', elf_reloc_loop fuel n base r_hdr (rela_addr sec n) m = Some m' /\ patched m1 (relas sec) m'.
Proof.
  destruct (section_found m0) as (_ & R1 & R2); [done|]. destruct (eo_shdr _ Hok) as (_ & S2 & _ & _). fold sec in S2.
  destruct (eo_base _ Hok) as (B0 & B1 & B2). destruct (eo_mod _ Hok) as (M0 & M1 & M2).
  induction k as [|k IH]; intros n fuel m Hn H0 Hf Hp; (destruct fuel as [|fuel]; [lia|]); cbn [elf_reloc_loop];
    pose proof (same_outside_module _ (proj1 Hp)) as Hs; rewrite shdr_same by done; fold sec;
    rewrite (proj2 (Z.eqb_neq (sh_entsize sec) 0)) by lia; fold (relas sec).
  - rewrite (proj2 (Z.ltb_ge _ _)) by lia. exists m. split; [done|]. by replace (relas sec) with n by lia.
  - assert (0 <= n < relas sec) as Hlt by lia. destruct (rela_bounds n Hlt) as [L1 L2].
    rewrite (proj2 (Z.ltb_lt _ _)) by lia. cbn [negb].
    assert (rela_at m (rela_addr sec n) = rela sec n) as -> by (unfold rela, rela_at; same m; done).
    destruct (eo_relas _ Hok n Hlt) as [Ht Ha Hoff]. fold sec in Ht, Ha, Hoff. rewrite Ht. cbn [negb Z.eqb].
    unfold sint64. rewrite (proj2 (Z.ltb_lt (r_addend _) (2 ^ 63))), (proj2 (Z.ltb_ge _ 0)) by lia.
    rewrite !(wrap_id 64 (base + _)) by (unfold fits; lia). change (R_X86_64_RELATIVE =? R_X86_64_RELATIVE) with true. cbn [negb].
    pose proof (patched_step m1 n m Hp Hlt) as Hp'. set (m' := wr64 _ _ _) in *. clearbody m'.
    rewrite shdr_same by (done || by apply same_outside_module, Hp'). fold sec.
    assert (rela_addr sec n + sh_entsize sec = rela_addr sec (n + 1)) as -> by (unfold rela_addr; lia).
    rewrite wrap_id by (unfold fits, rela_addr in *; lia). apply IH; [lia..|done].
Qed.
End load.

(** Only the bytes of the module count. *)
Lemma elf_ok_same m m' mod_start len base size r_hdr : elf_ok m mod_start len base size r_hdr ->
  same_module m mod_start len m' -> elf_ok m' mod_start len base size r_hdr.
Proof.
  intros Hok Hs. pose proof (ehdr_same _ _ _ _ _ _ Hok m' Hs) as Eh. fold (hdr m' mod_start) in Eh.
  assert (forall i, 0 <= i < e_phnum (hdr m mod_start) -> phdr m' mod_start i = phdr m mod_start i) as Ep.
  { intros i Hi. unfold phdr at 1, phdr_addr. rewrite Eh. by apply (phdr_same _ _ _ _ _ _ Hok). }
  destruct (section_found _ _ _ _ _ _ Hok m' Hs) as (Er & R1 & R2).
  pose proof (shdr_same _ _ _ m' r_hdr Hs R1 R2) as Esh.
  assert (forall k, let s := shdr_at m r_hdr in 0 <= k < relas s -> rela m' mod_start s k = rela m mod_start s k) as Era.
  { intros k s Hk. destruct (rela_bounds _ _ _ _ _ _ Hok k Hk) as [B1 B2]. destruct (eo_shdr _ _ _ _ _ _ Hok) as (_ & S2 & _ & _).
    unfold rela, rela_at, rd64. fold s in B1, B2, S2. by rewrite !(rd_same m mod_start len m') by (done || lia). }
  assert (forall i, loads m' mod_start i -> loads m mod_start i) as Hl.
  { intros i [Hi Ht]. rewrite Eh in Hi. rewrite Ep in Ht by done. done. }
  destruct Hok. split; rewrite ?Eh, ?Esh; try done.
  - intros i Hi. pose proof (Hl i Hi) as Hi'. rewrite Ep by apply Hi'. auto.
  - intros i j Hi Hj Hne. pose proof (Hl i Hi) as Hi'. pose proof (Hl j Hj) as Hj'. rewrite !Ep by (apply Hi' || apply Hj'). auto.
  - intros k s Hk. unfold s in *. rewrite Era by done. auto.
  - intros k l s Hk Hkl Hne. unfold s in *. rewrite !Era by done. auto.
Qed.

(** ** The property *)

Lemma load_relocatable m mod_start len base size r_hdr : elf_ok m mod_start len base size r_hdr ->
  exists m' m1, elf_module_load_relocatable mod_start base m = Some m' /\
    loaded m mod_start base size (e_phnum (hdr m mod_start)) m1 /\
    patched m mod_start base size r_hdr m1 (relas (shdr_at m r_hdr)) m'.
Proof.
  intros Hok. unfold elf_module_load_relocatable, elf_load. change (ehdr_at m mod_start) with (hdr m mod_start).
  rewrite (eo_machine _ _ _ _ _ _ Hok), Z.eqb_refl. destruct (eo_phnum _ _ _ _ _ _ Hok) as [N0 N1].
  rewrite c_true_ne by lia. cbn [negb orb].
  destruct (eo_phoff _ _ _ _ _ _ Hok) as (P1 & P2 & P3). destruct (eo_mod _ _ _ _ _ _ Hok) as (M0 & M1 & M2).
  assert (0 <= e_phnum (hdr m mod_start) * e_phentsize (hdr m mod_start)) by nia.
  rewrite wrap_id by (unfold fits; lia). replace (mod_start + e_phoff _) with (phdr_addr m mod_start 0) by (unfold phdr_addr; lia).
  destruct (load_loop m mod_start len base size r_hdr Hok (Z.to_nat (e_phnum (hdr m mod_start))) 0 (Z.to_nat 65536) m)
    as (m1 & E1 & L1); [lia..|by split; [|intros j p Hj [[Hl _] _]; lia]|].
  rewrite E1. cbn [mbind option_bind].
  assert (same_module m mod_start len m1) as Hs by (eapply same_outside_module; [exact Hok|apply L1]).
  destruct (section_found m mod_start len base size r_hdr Hok m1 Hs) as (Er & R1 & R2). rewrite Er. cbn [mbind option_bind].
  rewrite (shdr_same m mod_start len) by done. set (s := shdr_at m r_hdr).
  destruct (eo_shdr _ _ _ _ _ _ Hok) as (S1 & S2 & S3 & S4). fold s in S1, S2, S3, S4.
  rewrite wrap_id by (unfold fits; lia). replace (mod_start + sh_offset s) with (rela_addr mod_start s 0) by (unfold rela_addr; lia).
  assert (0 <= sh_size s / sh_entsize s) as Hn by (apply Z.div_pos; lia).
  destruct (reloc_loop m mod_start len base size r_hdr Hok m1 (Z.to_nat (relas s)) 0 (S (Z.to_nat (relas s))) m1) as (m' & E2 & Hp).
  { fold s. unfold relas. lia. }
  { done. }
  { lia. }
  { split_and!; [apply L1|intros; lia|done]. }
  fold s in E2, Hp. unfold relas in E2 at 1. exists m', m1. done.
Qed.

(** C24: a module that [elf_ok] describes is loaded: nothing outside of the
    memory it asks for is written, a relocated word is its addend from the
    base, and every other byte of a segment is the one of the file, or zero. *)
Theorem elf_load_relocated m mod_start len base size r_hdr : elf_ok m mod_start len base size r_hdr ->
  exists m', elf_module_load_relocatable mod_start base m = Some m' /\
    (forall p, ~ base <= p < base + size -> rd0 m' p = rd0 m p) /\
    let s := shdr_at m r_hdr in
    (forall k, 0 <= k < relas s -> let r := rela m mod_start s k in rd64 m' (base + r_offset r) = base + r_addend r) /\
    (forall i d, loads m mod_start i -> let h := phdr m mod_start i in 0 <= d < p_memsz h ->
      ~ relocated m mod_start base s (base + p_vaddr h + d) ->
      rd0 m' (base + p_vaddr h + d) = seg_byte m mod_start h d).
Proof.
  intros Hok. destruct (load_relocatable _ _ _ _ _ _ Hok) as (m' & m1 & E & [_ L1] & Ho & Hk & Hp).
  exists m'. cbv zeta. split_and!; [done|exact Ho|exact Hk|]. intros i d Hl Hd Hnr.
  rewrite Hp by done. rewrite (L1 i); [|apply Hl|split; [done|unfold seg_range; lia]]. f_equal. lia.
Qed.

(** A module of one segment of 16 bytes, 24 in memory, and one relocation. *)
Definition ex_image : bytes :=
  replicate 18 0 ++ le_bytes 2 62 ++ replicate 4 0 ++ le_bytes 8 0 ++ le_bytes 8 64 ++ le_bytes 8 120 ++
    replicate 6 0 ++ le_bytes 2 56 ++ le_bytes 2 1 ++ le_bytes 2 64 ++ le_bytes 2 1 ++ le_bytes 2 0 ++
  le_bytes 4 1 ++ le_bytes 4 0 ++ le_bytes 8 208 ++ le_bytes 8 0 ++ le_bytes 8 0 ++ le_bytes 8 16 ++ le_bytes 8 24 ++ le_bytes 8 8 ++
  le_bytes 4 0 ++ le_bytes 4 4 ++ le_bytes 8 0 ++ le_bytes 8 0 ++ le_bytes 8 184 ++ le_bytes 8 24 ++ le_bytes 8 0 ++ le_bytes 8 0 ++ le_bytes 8 24 ++
  le_bytes 8 8 ++ le_bytes 8 8 ++ le_bytes 8 4 ++
  seqZ 1 16.
Definition ex_mod : gmap Z Z := mem_write ∅ 0x1000 ex_image.
Lemma ex_hdr : hdr ex_mod 0x1000 = mk_ehdr 62 0 64 120 56 1 64 1.
Proof. vm_compute. reflexivity. Qed.
Lemma ex_phdr : phdr ex_mod 0x1000 0 = mk_phdr 1 208 0 16 24 8.
Proof. vm_compute. reflexivity. Qed.
Lemma ex_shdr : shdr_at ex_mod (0x1000 + 120) = mk_shdr 4 184 24 24.
Proof. vm_compute. reflexivity. Qed.
Lemma ex_rela : rela ex_mod 0x1000 (mk_shdr 4 184 24 24) 0 = mk_rela 8 8 4.
Proof. vm_compute. reflexivity. Qed.
Lemma ex_relas : relas (mk_shdr 4 184 24 24) = 1.
Proof. reflexivity. Qed.
Lemma ex_loads i : loads ex_mod 0x1000 i -> i = 0.
Proof. intros [Hi _]. rewrite ex_hdr in Hi. simpl in Hi. lia. Qed.
Lemma ex_elf_ok base : 0x2000 <= base < 2 ^ 60 -> elf_ok ex_mod 0x1000 224 base 24 (0x1000 + 120).
Proof.
  intros Hb. split.
  - lia.
  - lia.
  - lia.
  - by rewrite ex_hdr.
  - rewrite ex_hdr. cbn. lia.
  - rewrite ex_hdr. cbn. lia.
  - intros i ->%ex_loads. rewrite ex_phdr. split; cbn; lia.
  - intros i j ->%ex_loads ->%ex_loads H. by destruct H.
  - rewrite ex_hdr. cbn. lia.
  - vm_compute. reflexivity.
  - rewrite ex_shdr. cbn. lia.
  - rewrite ex_shdr. intros k s Hk. unfold s in Hk. rewrite ex_relas in Hk. assert (k = 0) as -> by lia. unfold s. rewrite ex_rela. split; [reflexivity|cbn; lia..].
  - rewrite ex_shdr. intros k l s Hk Hl. unfold s in Hk, Hl. rewrite ex_relas in Hk, Hl. lia.
Qed.
Lemma elf_load_relocated_witness : exists m',
  elf_module_load_relocatable 0x1000 0x8000 ex_mod = Some m' /\ rd64 m' 0x8008 = 0x8004 /\ rd0 m' 0x8003 = 4 /\ rd0 m' 0x8014 = 0.
Proof.
  destruct (elf_load_relocated ex_mod 0x1000 224 0x8000 24 (0x1000 + 120) (ex_elf_ok 0x8000 ltac:(lia))) as (m' & E & _ & Hr & Hb).
  rewrite ex_shdr in Hr, Hb. cbv zeta in Hr, Hb. exists m'. split; [exact E|].
  rewrite ex_relas in Hr. specialize (Hr 0 ltac:(lia)). rewrite ex_rela in Hr. split; [exact Hr|].
  assert (loads ex_mod 0x1000 0) as Hl by (split; [rewrite ex_hdr; cbn; lia|by rewrite ex_phdr]).
  assert (forall d, 0 <= d < 24 -> d < 8 \/ 16 <= d -> ~ relocated ex_mod 0x1000 0x8000 (mk_shdr 4 184 24 24) (0x8000 + 0 + d)) as Hn.
  { intros d Hd Hd' (k & Hk & Hp). rewrite ex_relas in Hk. assert (k = 0) as -> by lia.
    rewrite ex_rela in Hp. cbn [r_offset] in Hp. lia. }
  pose proof (Hb 0 3 Hl) as H3. pose proof (Hb 0 20 Hl) as H20. rewrite ex_phdr in H3, H20.
  specialize (H3 ltac:(cbn; lia) (Hn 3 ltac:(lia) ltac:(lia))). specialize (H20 ltac:(cbn; lia) (Hn 20 ltac:(lia) ltac:(lia))).
  split; [exact H3|exact H20].
Defined.
