(* ===== verification/Boot.v ===== *)
(** * The memory of the vmm at boot (setup/src/core/smap.c, pmem.c, vmem.c)

    The loader gives a map of the memory of the machine, and two modules.  The
    set-up takes an area for the vmm at the end of the memory that starts at
    1MB, lays out the structures of the vmm in it, hides it from the map the
    vm will be shown, loads the vmm there, and builds the page tables the vmm
    runs with. *)

From S2P Require Import Prelude.
From S2P Require Import Monad.
From S2P Require Import Pagemem.
From S2P Require Import Pool.
From S2P Require Import Walk.
From S2P Require Import Str.
From S2P Require Import Vm.
From S2P Require Import Words.
From S2P Require Import Mbi.
From S2P Require Import Elf.

(** ** The memory map (smap.c) *)

Definition VMM_MIN_RAM_SZ : Z := Z.shiftl 128 20.
Definition TOP_4GB : Z := Z.shiftl 1 32.
Definition MB : Z := 0x100000.
Definition MBI_FLAG_MMAP : Z := 0x40.

Record mbi := mk_mbi { mb_flags : Z; mb_mods_count : Z; mb_mmap_addr : Z; mb_mmap_length : Z }.
(** The end of the entries: the addition of two 32-bit fields. *)
Definition mmap_end (b : mbi) : Z := wrap32 (mb_mmap_addr b + mb_mmap_length b).
(** An entry is preceded by its size, which does not count itself. *)
Definition mme_size (m : gmap Z Z) (mmap : Z) : Z := rd32 m mmap.
Definition mme_next (m : gmap Z Z) (mmap : Z) : Z := wrap64 (mmap + wrap64 (mme_size m mmap + 4)).
Definition sme (m : gmap Z Z) (mmap : Z) : smap_e := smap_at m (mmap + 4).
Definition is_main (e : smap_e) : bool := (sm_type e =? SMAP_TYPE_AVL) && (sm_base e =? MB).
(** Every entry takes 4 bytes at least. *)
Definition mmap_fuel (b : mbi) : nat := S (Z.to_nat (mb_mmap_length b)).

Record smap_st := mk_smap_st { ss_top : Z; ss_area : Z; ss_nr : Z }.
Definition smap_entry_step (e : smap_e) (s : smap_st) : smap_st :=
  let last := wrap64 (sm_base e + sm_len e) in
  let top := if ss_top s <? last then last else ss_top s in
  mk_smap_st top (if is_main e then top else ss_area s) (ss_nr s + 1).
Fixpoint smap_parse_loop (fuel : nat) (m : gmap Z Z) (b : mbi) (mmap : Z) (s : smap_st) : option smap_st :=
  match fuel with
  | O => None
  | S fuel =>
      if negb (mmap <? mmap_end b) then Some s
      else if sizeof_smap_e <? mme_size m mmap then None
      else smap_parse_loop fuel m b (mme_next m mmap) (smap_entry_step (sme m mmap) s)
  end.
(** The end of the area of the vmm, the top of the memory and the number of
    entries; [nr] is their number before. *)
Definition smap_parse (m : gmap Z Z) (b : mbi) (nr : Z) : option smap_st :=
  s ← smap_parse_loop (mmap_fuel b) m b (mb_mmap_addr b) (mk_smap_st 0 0 nr);
  if ss_area s <? VMM_MIN_RAM_SZ then None
  else Some (mk_smap_st (if TOP_4GB <? ss_top s then ss_top s else TOP_4GB) (ss_area s) (ss_nr s)).

Fixpoint smap_init_loop (fuel : nat) (b : mbi) (top mmap sme_o : Z) (m : gmap Z Z) : option (gmap Z Z) :=
  match fuel with
  | O => None
  | S fuel =>
      if negb (mmap <? mmap_end b) then Some m
      else
        let m := mem_write m sme_o (mem_read m (mmap + 4) sizeof_smap_e) in
        let o := smap_at m sme_o in
        let m := if is_main o then wr64 m (sme_o + 8) (wrap64 (top - sm_base o)) else m in
        smap_init_loop fuel b top (mme_next m mmap) (wrap64 (sme_o + sizeof_smap_e)) m
  end.
Definition smap_init (b : mbi) (raw top : Z) (m : gmap Z Z) : option (gmap Z Z) :=
  smap_init_loop (mmap_fuel b) b top (mb_mmap_addr b) raw m.

(** ** Sizes (pmem.c) *)

Definition VMM_MIN_STACK_SIZE : Z := 2 * PAGE_SIZE.
Definition TABLE_SZ : Z := 512 * 8.   (* [PML4_SZ], [PDP_SZ], [PD64_SZ], [sizeof(npg_*_t)] *)
Definition sizeof_ppg_dsc : Z := 24.
(** The rings of 16 descriptors of 16 bytes, and their buffers of 2KB. *)
Definition e1k_mem_size : Z := 16 * 16 + 16 * 2048 + 16 * 16 + 16 * 2048.
Definition sizeof_gpr64_ctx : Z := 16 * 8.

(** The abilities of the processor, and the sizes of the structures that depend
    on the configuration: the control structure of the processor, the segments
    of the vmm, the information data, the network card if there is one. *)
Record conf := mk_conf {
  vmm_pg_1G : bool; vm_pg_1G : bool; vm_pg_2M : bool;
  sz_vmc : Z; sz_sgmem : Z; sz_info : Z; has_net : bool;
}.

Record pg_cnt := mk_pg_cnt { pc_pdp : Z; pc_pd : Z; pc_pt : Z }.
Definition pdp_nr (addr : Z) : Z := Z.shiftr addr PG_512G_SHIFT.
Definition pd64_nr (addr : Z) : Z := Z.shiftr addr PG_1G_SHIFT.
Definition pt64_nr (addr : Z) : Z := Z.shiftr addr PG_2M_SHIFT.

(** The tables of the vmm, and those of the vm. *)
Definition pmem_pg_predict (c : conf) (top : Z) : pg_cnt * pg_cnt :=
  let max_pdp := pdp_nr (top - 1) + 1 in
  let max_pd := pd64_nr (top - 1) + 1 in
  let max_pt := pt64_nr (top - 1) + 1 in
  (mk_pg_cnt max_pdp (if vmm_pg_1G c then 0 else max_pd) 0,
   mk_pg_cnt max_pdp (if vm_pg_1G c then 2 else max_pd) (if vm_pg_2M c then 2 else max_pt)).

Definition pmem_vmm_pg_size (pg : pg_cnt) : Z := TABLE_SZ + pc_pdp pg * TABLE_SZ + pc_pd pg * TABLE_SZ.
Definition pmem_vm_pg_size : Z := TABLE_SZ.
Definition pmem_vm_pg_pool_size (pg : pg_cnt) : Z := pc_pdp pg * TABLE_SZ + pc_pd pg * TABLE_SZ + pc_pt pg * TABLE_SZ.

(** The handler of the option "pool". *)
Definition pmem_pool_opt_hdl (str : bytes) (data : Z) : bool * Z :=
  match dec_to_uint64 str with Some v => (true, v) | None => (false, data) end.

(** ** Layout (pmem.c) *)

Record layout := mk_layout {
  l_area : area_t;
  l_stack_bottom : Z; l_gpr : Z;
  l_pool : Z; l_pool_sz : Z; l_io_pool : Z;
  l_pml4 : Z; l_pdp : Z; l_pd : Z; l_vm_pml4 : Z;
  l_vmc : Z; l_net : Z; l_sg : Z;
  l_base : Z; l_elf_sz : Z; l_smap : Z; l_pool_all : Z; l_ppg : Z; l_info : Z;
  l_last : Z;   (* the end of the last structure *)
}.

(** From the map, the size of the vmm in memory and the pages added to the pool. *)
Definition pmem_layout (c : conf) (s : smap_st) (elf_sz : Z) (pool_opt : option Z) : option layout :=
  let '(vmm_pg, vm_pg) := pmem_pg_predict c (ss_top s) in
  let smap_sz := wrap64 (ss_nr s * sizeof_smap_e) in
  let ppg_sz := wrap64 (page_nr (ss_top s) * sizeof_ppg_dsc) in
  let end_ := if page_aligned (ss_area s) then ss_area s else page_align (ss_area s) in
  let pool_sz := wrap64 (pmem_vm_pg_pool_size vm_pg + match pool_opt with Some n => n * PAGE_SIZE | None => 0 end) in
  let desc_sz := wrap64 (sizeof_pool_pg_desc * (pool_sz / PAGE_SIZE)) in
  let net_sz := if has_net c then e1k_mem_size else 0 in
  let fixed := wrap64 (VMM_MIN_STACK_SIZE + pool_sz + VMM_IO_POOL_SZ + pmem_vmm_pg_size vmm_pg + pmem_vm_pg_size + sz_vmc c
    + net_sz + sz_sgmem c + elf_sz + sizeof_long + smap_sz + desc_sz + ppg_sz + sz_info c) in
  let start := page_align (wrap64 (end_ - fixed)) in
  if end_ <=? start then None else
  let stack_bottom := wrap64 (start + VMM_MIN_STACK_SIZE) in
  let io_pool := wrap64 (stack_bottom + pool_sz) in
  let pml4 := wrap64 (io_pool + VMM_IO_POOL_SZ) in
  let pdp := wrap64 (pml4 + TABLE_SZ) in
  let pd := wrap64 (pdp + pc_pdp vmm_pg * TABLE_SZ) in
  let vm_pml4 := wrap64 (pd + pc_pd vmm_pg * TABLE_SZ) in
  let vmc := wrap64 (vm_pml4 + TABLE_SZ) in
  let net := wrap64 (vmc + sz_vmc c) in
  let sg := wrap64 (net + net_sz) in
  let base := long_align_next (wrap64 (sg + sz_sgmem c)) in
  let smap := wrap64 (base + elf_sz) in
  let all := wrap64 (smap + smap_sz) in
  let ppg := wrap64 (all + desc_sz) in
  let info := wrap64 (ppg + ppg_sz) in
  Some (mk_layout (mk_area start end_) stack_bottom (wrap64 (stack_bottom - sizeof_gpr64_ctx)) stack_bottom pool_sz io_pool
    pml4 pdp pd vm_pml4 vmc net sg base elf_sz smap all ppg info (wrap64 (info + sz_info c))).

(** [pmem_vmm_pg_alloc] leaves the pointer to the page directories null when
    there are none. *)
Definition vmm_pd (c : conf) (l : layout) : Z := if vmm_pg_1G c then 0 else l_pd l.

(** [ppg_desc_init] (libc/ppg.c): the numbers of the pages that are marked as
    pages of the vmm. *)
Fixpoint ppg_desc_loop (fuel : nat) (ar : area_t) (end_ addr dsc : Z) (marked : gset Z) : gset Z :=
  match fuel with
  | O => marked
  | S fuel =>
      if addr <? end_ then
        ppg_desc_loop fuel ar end_ (wrap64 (addr + PAGE_SIZE)) (dsc + 1) (if vmm_area ar addr then {[dsc]} ∪ marked else marked)
      else marked
  end.
Definition ppg_desc_init (ar : area_t) (top : Z) : gset Z := ppg_desc_loop (Z.to_nat (top / PAGE_SIZE + 1)) ar top 0 0 ∅.

Definition the_pool (l : layout) : vmm_pool := pool_init (mk_pool (l_pool l) (l_pool_sz l) (l_pool_all l) 0 0 ∅ ∅).

(** The state [pmem_init] leaves: the layout, the entry point, the memory, the
    pool and the marked pages.  The copy of the information data, that
    ends it, is not in the memory. *)
Record booted := mk_booted { bt_layout : layout; bt_entry : Z; bt_mem : gmap Z Z; bt_pool : vmm_pool; bt_ppg : gset Z }.

(** The module of the vmm is the second one; [cmdline] is its command line. *)
Definition pmem_init (c : conf) (b : mbi) (mod_start mod_end : Z) (cmdline : bytes) (pool_opt : Z) (m : gmap Z Z) : option booted :=
  if negb (c_true (Z.land (mb_flags b) MBI_FLAG_MMAP)) then None
  else if negb (mb_mods_count b =? 2) then None else
  s ← smap_parse m b 0;
  elf_sz ← elf_module_load_size mod_start m;
  r ← mbi_get_opt pmem_pool_opt_hdl (mb_flags b) cmdline [112; 111; 111; 108] pool_opt;
  l ← pmem_layout c s elf_sz (if r.1.1 : bool then Some r.2 else None);
  let start := area_start (l_area l) in
  let m := mem_write m start (replicate (Z.to_nat (area_end (l_area l) - start)) 0) in
  let entry := wrap64 (l_base l + elf_module_entry mod_start m) in
  m ← elf_module_load_relocatable mod_start (l_base l) m;
  let m := mem_write m mod_start (replicate (Z.to_nat (mod_end - mod_start)) 0) in
  let m := wr64 m (l_base l) (l_info l) in
  m ← smap_init b (l_smap l) start m;
  Some (mk_booted l entry m (the_pool l) (ppg_desc_init (l_area l) (ss_top s))).

(** ** The page tables of the vmm (vmem.c)

    The tables are a memory of 64-bit words, as those of the vm. *)

Definition VMM_PG_ATTR : Z := PG_RW.

Record pg_st := mk_pg_st { ps_tbl : gmap Z Z; ps_pfn : Z; ps_pd_nr : Z; ps_pt_nr : Z }.
Definition set_tbl (a e : Z) (s : pg_st) : pg_st := mk_pg_st (<[a := e]> (ps_tbl s)) (ps_pfn s) (ps_pd_nr s) (ps_pt_nr s).
Definition next_pfn (s : pg_st) : pg_st := mk_pg_st (ps_tbl s) (wrap64 (ps_pfn s + 1)) (ps_pd_nr s) (ps_pt_nr s).

Definition map_pde (pd : Z) (s : pg_st) (k : Z) : pg_st :=
  next_pfn (set_tbl (entry64 pd k) (pg_set_large_pde VMM_PG_ATTR (ps_pfn s)) s).
Definition map_pdpe (pg_1G : bool) (pdp pds : Z) (s : pg_st) (j : Z) : pg_st :=
  if pg_1G then next_pfn (set_tbl (entry64 pdp j) (pg_set_large_pdpe VMM_PG_ATTR (ps_pfn s)) s)
  else
    let pd := pds + j * TABLE_SZ in
    let s := set_tbl (entry64 pdp j) (pg_set_entry VMM_PG_ATTR (page_nr pd)) s in
    let pde_max := Z.min (ps_pt_nr s) 512 in
    let s := mk_pg_st (ps_tbl s) (ps_pfn s) (ps_pd_nr s) (ps_pt_nr s - pde_max) in
    fold_left (map_pde pd) (seqZ 0 pde_max) s.
Definition map_pml4e (pg_1G : bool) (pml4 pdps pds : Z) (s : pg_st) (i : Z) : pg_st :=
  let pdp := pdps + i * TABLE_SZ in
  let s := set_tbl (entry64 pml4 i) (pg_set_entry VMM_PG_ATTR (page_nr pdp)) s in
  let pdpe_max := Z.min (ps_pd_nr s) 512 in
  let s := mk_pg_st (ps_tbl s) (ps_pfn s) (ps_pd_nr s - pdpe_max) (ps_pt_nr s) in
  fold_left (map_pdpe pg_1G pdp pds) (seqZ 0 pdpe_max) s.
(** The tables and the value of cr3. *)
Definition vmm_pagemem_init (pg_1G : bool) (top pml4 pdps pds : Z) (tbl : gmap Z Z) : gmap Z Z * Z :=
  let limit := top - 1 in
  let s := fold_left (map_pml4e pg_1G pml4 pdps pds) (seqZ 0 (pdp_nr limit + 1))
    (mk_pg_st tbl 0 (pd64_nr limit + 1) (pt64_nr limit + 1)) in
  (ps_tbl s, set_bits 0 12 40 (page_nr pml4)).
