(* ===== verification/BootMap.v ===== *)
(** * The area of the vmm and the map of the vm

    [Boot] lays the structures of the vmm out one after the other in the area
    it takes, and hides the area from the map of memory the vm is shown. *)

From S2P Require Import Prelude.
From S2P Require Import Monad.
From S2P Require Import Pagemem.
From S2P Require Import Alloc.
From S2P Require Import Pool.
From S2P Require Import Walk.
From S2P Require Import Vm.
From S2P Require Import Words.
From S2P Require Import Mbi.
From S2P Require Import Elf.
From S2P Require Import Boot.

(** ** The layout *)

Definition vmm_pages (c : conf) (top : Z) : pg_cnt := (pmem_pg_predict c top).1.
Definition pool_size (c : conf) (top : Z) (opt : option Z) : Z :=
  pmem_vm_pg_pool_size (pmem_pg_predict c top).2 + match opt with Some n => n * PAGE_SIZE | None => 0 end.
Definition net_size (c : conf) : Z := if has_net c then e1k_mem_size else 0.
Definition area_end_of (s : smap_st) : Z := page_align (ss_area s).

(** The structures of the vmm, in the order of the area. *)
Definition pieces (c : conf) (s : smap_st) (l : layout) : list (Z * Z) :=
  let pg := vmm_pages c (ss_top s) in
  [(area_start (l_area l), VMM_MIN_STACK_SIZE); (l_pool l, l_pool_sz l); (l_io_pool l, VMM_IO_POOL_SZ);
   (l_pml4 l, TABLE_SZ); (l_pdp l, pc_pdp pg * TABLE_SZ); (l_pd l, pc_pd pg * TABLE_SZ); (l_vm_pml4 l, TABLE_SZ);
   (l_vmc l, sz_vmc c); (l_net l, net_size c); (l_sg l, sz_sgmem c); (l_base l, l_elf_sz l);
   (l_smap l, ss_nr s * sizeof_smap_e); (l_pool_all l, sizeof_pool_pg_desc * (l_pool_sz l / PAGE_SIZE));
   (l_ppg l, page_nr (ss_top s) * sizeof_ppg_dsc); (l_info l, sz_info c)].
Definition piece_sizes (c : conf) (s : smap_st) (elf_sz : Z) (opt : option Z) : list Z :=
  let pg := vmm_pages c (ss_top s) in
  let pool := pool_size c (ss_top s) opt in
  [VMM_MIN_STACK_SIZE; pool; VMM_IO_POOL_SZ; TABLE_SZ; pc_pdp pg * TABLE_SZ; pc_pd pg * TABLE_SZ; TABLE_SZ;
   sz_vmc c; net_size c; sz_sgmem c; elf_sz; ss_nr s * sizeof_smap_e; sizeof_pool_pg_desc * (pool / PAGE_SIZE);
   page_nr (ss_top s) * sizeof_ppg_dsc; sz_info c].
Definition needs (c : conf) (s : smap_st) (elf_sz : Z) (opt : option Z) : Z :=
  foldr Z.add sizeof_long (piece_sizes c s elf_sz opt).

(** Pieces one after the other, from [lo] to [hi] at most. *)
Fixpoint ascending (lo : Z) (ps : list (Z * Z)) (hi : Z) : Prop :=
  match ps with
  | [] => lo <= hi
  | (a, n) :: ps => lo <= a /\ 0 <= n /\ ascending (a + n) ps hi
  end.

Record sizes_ok (c : conf) (s : smap_st) (elf_sz : Z) (opt : option Z) : Prop := mk_sizes_ok {
  zo_vmc : 0 <= sz_vmc c /\ (4096 | sz_vmc c);
  zo_sg : 0 <= sz_sgmem c;
  zo_info : 0 <= sz_info c;
  zo_elf : 0 <= elf_sz;
  zo_opt : match opt with Some n => 0 <= n | None => True end;
  zo_nr : 0 <= ss_nr s;
  zo_top : 0 < ss_top s;
  zo_area : 0 <= ss_area s < 2 ^ 52;
  zo_room : MB + needs c s elf_sz opt <= area_end_of s;
}.

Record layout_fits (c : conf) (s : smap_st) (elf_sz : Z) (opt : option Z) (l : layout) : Prop := mk_layout_fits {
  lf_pieces : ascending (area_start (l_area l)) (pieces c s l) (area_end (l_area l));
  lf_area : area_ok (l_area l);
  lf_start : MB <= area_start (l_area l);
  lf_end : area_end (l_area l) = area_end_of s;
  lf_pages : Forall (fun a => (4096 | a)) [l_pool l; l_pool_sz l; l_io_pool l; l_pml4 l; l_pdp l; l_pd l; l_vm_pml4 l; l_vmc l];
  lf_sg : (8 | l_base l) /\ (16 | l_net l) /\ (16 | l_sg l);
  lf_sizes : l_elf_sz l = elf_sz /\ l_pool_sz l = pool_size c (ss_top s) opt;
}.

Lemma page_align_spec a : fits 64 a -> page_align a = 4096 * (a / 4096).
Proof. intros Ha. unfold page_align. change PAGE_SIZE with (2 ^ 12). by rewrite align_pow2. Qed.
Lemma page_align_bounds a : fits 64 a -> page_align a <= a < page_align a + 4096 /\ (4096 | page_align a).
Proof.
  intros Ha. rewrite page_align_spec by done. pose proof (Z.div_mod a 4096). pose proof (Z.mod_pos_bound a 4096).
  split; [lia|]. by apply Z.divide_factor_l.
Qed.
Lemma page_aligned_align a : fits 64 a -> (if page_aligned a then a else page_align a) = page_align a.
Proof.
  intros Ha. unfold page_aligned. change PAGE_SIZE with (2 ^ 12). rewrite aligned_pow2 by done.
  destruct (Z.eqb_spec (a mod 2 ^ 12) 0) as [E|]; [|done].
  rewrite page_align_spec by done. change (2 ^ 12) with 4096 in E. pose proof (Z.div_mod a 4096 ltac:(lia)). lia.
Qed.
Lemma long_align_next_spec a : fits 64 (a + 8) -> a < long_align_next a <= a + 8 /\ (8 | long_align_next a).
Proof.
  intros Ha. unfold long_align_next, align_next. change sizeof_long with 8. rewrite wrap_id by done.
  change (align (a + 8) 8) with (align (a + 8) (2 ^ 3)). rewrite align_pow2 by done. change (2 ^ 3) with 8.
  pose proof (Z.div_mod (a + 8) 8). pose proof (Z.mod_pos_bound (a + 8) 8). split; [lia|]. by apply Z.divide_factor_l.
Qed.

Lemma shiftr_pos a k : 0 <= a -> 0 <= Z.shiftr a k.
Proof. intros Ha. by apply Z.shiftr_nonneg. Qed.

Ltac unwrap :=
  repeat match goal with |- context [wrap64 (?a + ?b)] =>
    lazymatch a with context [wrap _ _] => fail | _ => rewrite (wrap_id 64 (a + b)) by (unfold fits; lia) end end.

Lemma pmem_layout_fits c s elf_sz opt : sizes_ok c s elf_sz opt ->
  exists l, pmem_layout c s elf_sz opt = Some l /\ layout_fits c s elf_sz opt l.
Proof.
  intros [[V1 V2] V3 V4 V5 V6 V7 V8 V9 V10].
  assert (0 <= pc_pdp (vmm_pages c (ss_top s)) /\ 0 <= pc_pd (vmm_pages c (ss_top s)) /\ 0 <= pool_size c (ss_top s) opt /\
    (4096 | pool_size c (ss_top s) opt)) as (N1 & N2 & N3 & N4).
  { pose proof (shiftr_pos (ss_top s - 1) PG_512G_SHIFT). pose proof (shiftr_pos (ss_top s - 1) PG_1G_SHIFT).
    pose proof (shiftr_pos (ss_top s - 1) PG_2M_SHIFT).
    unfold vmm_pages, pool_size, pmem_pg_predict, pmem_vm_pg_pool_size, pdp_nr, pd64_nr, pt64_nr. cbn [fst snd pc_pdp pc_pd pc_pt].
    change PAGE_SIZE with 4096. change TABLE_SZ with 4096.
    split_and!; [lia|destruct (vmm_pg_1G c); lia| |].
    - destruct (vm_pg_1G c), (vm_pg_2M c), opt; lia.
    - repeat apply Z.divide_add_r; try apply Z.divide_factor_r. destruct opt; [apply Z.divide_factor_r|apply Z.divide_0_r]. }
  assert (0 <= page_nr (ss_top s)) as N5 by (apply shiftr_pos; lia).
  assert (0 <= net_size c /\ (16 | net_size c)) as [N6 N7].
  { unfold net_size. destruct (has_net c); [|split; [done|by exists 0]]. split; [done|]. by exists 4128. }
  assert (fits 64 (ss_area s)) as Fa by (unfold fits; lia).
  destruct (page_align_bounds (ss_area s) Fa) as [B1 B2]. fold (area_end_of s) in B1, B2.
  unfold needs, piece_sizes in V10. unfold pmem_layout.
  rewrite (surjective_pairing (pmem_pg_predict c (ss_top s))), page_aligned_align by done.
  fold (area_end_of s) (vmm_pages c (ss_top s)) (net_size c) (pool_size c (ss_top s) opt).
  unfold pmem_vmm_pg_size, pmem_vm_pg_size. change PAGE_SIZE with 4096 in *. change sizeof_pool_pg_desc with 24 in *.
  change sizeof_long with 8 in *. change TABLE_SZ with 4096 in *. change VMM_MIN_STACK_SIZE with 8192 in *.
  change VMM_IO_POOL_SZ with 16384 in *. change sizeof_gpr64_ctx with 128. change sizeof_smap_e with 20 in *. change sizeof_ppg_dsc with 24 in *.
  cbn [foldr] in V10. change MB with 1048576 in V10.
  set (pool := pool_size c (ss_top s) opt) in *.
  assert (pool = pool_size c (ss_top s) opt) as E3 by done. clearbody pool.
  set (npdp := pc_pdp (vmm_pages c (ss_top s)) * 4096) in *. set (npd := pc_pd (vmm_pages c (ss_top s)) * 4096) in *.
  assert (0 <= npdp /\ 0 <= npd /\ (4096 | npdp) /\ (4096 | npd)) as (Z1 & Z2 & Z3 & Z4).
  { unfold npdp, npd. split_and!; [lia|lia|apply Z.divide_factor_r..]. }
  assert (npdp = pc_pdp (vmm_pages c (ss_top s)) * 4096 /\ npd = pc_pd (vmm_pages c (ss_top s)) * 4096) as [E1 E2] by done.
  clearbody npdp npd. set (nsm := ss_nr s * 20) in *. assert (0 <= nsm) as Z5 by lia.
  set (nppg := page_nr (ss_top s) * 24) in *. assert (0 <= nppg) as Z6 by lia. 
  assert (0 <= pool / 4096) as Z7 by (apply Z.div_pos; lia). set (ndesc := 24 * (pool / 4096)) in *.
  assert (0 <= ndesc) as Z8 by lia. 
  set (nnet := net_size c) in *. set (e := area_end_of s) in *.
  rewrite !(wrap_id 64 pool), !(wrap_id 64 nsm), !(wrap_id 64 nppg) by (unfold fits; lia). fold ndesc.
  rewrite (wrap_id 64 ndesc) by (unfold fits; lia).
  clear V6 Fa.
  match goal with |- context [wrap64 (e - wrap64 ?x)] => set (fixed := x) end.
  assert (0 <= fixed) as X1 by (unfold fixed; lia). assert (MB + fixed <= e) as X2 by (change MB with 1048576; unfold fixed; lia).
  assert (e < 2 ^ 52) as X3 by lia. rewrite (wrap_id 64 fixed), (wrap_id 64 (e - fixed)) by (unfold fits; lia).
  destruct (page_align_bounds (e - fixed)) as [S1 S2]; [unfold fits; lia|]. set (start := page_align (e - fixed)) in *.
  assert (MB <= start) as S3.
  { destruct S2 as [q Hq]. change MB with (256 * 4096) in *. nia. }
  assert (start + fixed <= e) as S4 by lia. clearbody start. unfold fixed in S4. clear S1 X1 X2 V10. clear fixed.
  change MB with 1048576 in S3. rewrite (proj2 (Z.leb_gt e start)) by lia.
  rewrite (wrap_id 64 (start + 8192)) by (unfold fits; lia). rewrite (wrap_id 64 (start + 8192 - 128)) by (unfold fits; lia).
  unwrap. match goal with |- context [long_align_next ?x] => set (sgend := x) end.
  destruct (long_align_next_spec sgend) as [L1 L2]; [unfold fits, sgend; lia|]. set (base := long_align_next sgend) in *.
  clearbody base. unfold sgend in L1. clear sgend. unwrap. eexists. split; [reflexivity|].
  assert ((4096 | 8192) /\ (4096 | 16384) /\ (4096 | 4096)) as (D1 & D2 & D3) by (split_and!; [by exists 2|by exists 4|by exists 1]).
  split.
  - unfold pieces. cbn [l_area l_pool l_pool_sz l_io_pool l_pml4 l_pdp l_pd l_vm_pml4 l_vmc l_net l_sg l_base l_elf_sz l_smap
      l_pool_all l_ppg l_info area_start area_end]. change PAGE_SIZE with 4096. change sizeof_pool_pg_desc with 24.
    change TABLE_SZ with 4096. change VMM_MIN_STACK_SIZE with 8192. change VMM_IO_POOL_SZ with 16384. change sizeof_smap_e with 20.
    change sizeof_ppg_dsc with 24. fold nsm nppg ndesc nnet.
    rewrite <- E1, <- E2. cbn [ascending]. lia.
  - done.
  - cbn. change MB with 1048576. lia.
  - done.
  - cbn. repeat apply Forall_cons_2; [..|apply Forall_nil_2]; auto 12 using Z.divide_add_r.
  - cbn. assert (forall a, (4096 | a) -> (16 | a)) as D by (intros a [q ->]; exists (q * 256); lia).
    split_and!; [done| |]; repeat apply Z.divide_add_r; auto.
  - by rewrite <- E3.
Qed.

(** ** The pool and the descriptors of pages *)

Lemma ascending_le lo ps hi : ascending lo ps hi -> lo <= hi.
Proof. revert lo. induction ps as [|[a n] ps IH]; intros lo; cbn; [done|]. intros (? & ? & H%IH). lia. Qed.
Lemma ascending_in lo ps hi a n : ascending lo ps hi -> (a, n) ∈ ps -> lo <= a /\ 0 <= n /\ a + n <= hi.
Proof.
  revert lo. induction ps as [|[a' n'] ps IH]; intros lo; cbn; [by intros _ ?%elem_of_nil|].
  intros (H1 & H2 & H3) [[= -> ->]|Hin]%elem_of_cons; [apply ascending_le in H3; lia|].
  apply (IH (a' + n')) in Hin; [lia|done].
Qed.

Lemma the_pool_wf c s elf_sz opt l : sizes_ok c s elf_sz opt -> layout_fits c s elf_sz opt l ->
  pool_wf (the_pool l) (reverse (seqZ 0 (l_pool_sz l / 4096))) [].
Proof.
  intros Hz [Hp _ Hs He Ha _ _]. change MB with 1048576 in Hs.
  assert (l_pool l + l_pool_sz l <= area_end (l_area l) /\ area_start (l_area l) <= l_pool l /\ 0 <= l_pool_sz l) as (K1 & K2 & K3).
  { destruct (ascending_in _ _ _ (l_pool l) (l_pool_sz l) Hp) as (? & ? & ?); [apply list_elem_of_In; cbn; tauto|done]. }
  assert (area_start (l_area l) <= l_pool_all l) as K4.
  { destruct (ascending_in _ _ _ (l_pool_all l) (sizeof_pool_pg_desc * (l_pool_sz l / PAGE_SIZE)) Hp) as (? & ? & ?); [apply list_elem_of_In; cbn; tauto|done]. }
  apply Forall_cons in Ha as [[a Ea] Ha]. apply Forall_cons in Ha as [[n En] _].
  assert (area_end (l_area l) < 2 ^ 52) as K5.
  { rewrite He. pose proof (zo_area _ _ _ _ Hz). destruct (page_align_bounds (ss_area s)); [unfold fits; lia|]. unfold area_end_of. lia. }
  apply (init_wf (mk_pool (l_pool l) (l_pool_sz l) (l_pool_all l) 0 0 ∅ ∅)); [|done..].
  assert (l_pool_sz l / 4096 = n) as Edv by (rewrite En; by apply Z.div_mul).
  split; unfold nr_pages; cbn [p_addr p_sz p_all]; rewrite ?Edv; [exists a| |]; lia.
Qed.

Lemma ppg_loop_spec ar end_ : 0 <= end_ -> end_ + 4096 < 2 ^ 64 -> forall fuel k marked, 0 <= k -> end_ <= (k + Z.of_nat fuel) * 4096 ->
  (k - 1) * 4096 < end_ ->
  forall n, n ∈ ppg_desc_loop fuel ar end_ (k * 4096) k marked <->
    n ∈ marked \/ (k <= n /\ n * 4096 < end_ /\ vmm_area ar (n * 4096) = true).
Proof.
  intros He0 He. induction fuel as [|fuel IH]; intros k marked Hk Hf Hl n; cbn [ppg_desc_loop]; [split; [by left|intros [|]; [done|lia]]|].
  destruct (Z.ltb_spec (k * 4096) end_) as [Hlt|]; [|split; [by left|intros [|]; [done|lia]]].
  change PAGE_SIZE with 4096. rewrite wrap_id by (unfold fits; lia). replace (k * 4096 + 4096) with ((k + 1) * 4096) by lia.
  rewrite IH by lia. destruct (vmm_area ar (k * 4096)) eqn:Ev.
  - rewrite elem_of_union, elem_of_singleton. split.
    + intros [[->|]|(? & ? & ?)]; [right; split_and!; [lia|done..]|by left|right; split_and!; [lia|done..]].
    + intros [|(? & ? & ?)]; [by left; right|]. destruct (decide (n = k)); [by left; left|right; split_and!; [lia|done..]].
  - split; (intros [|(? & ? & ?)]; [by left|]); right; (split_and!; [|done..]); [lia|].
    destruct (decide (n = k)) as [->|]; [congruence|lia].
Qed.
Lemma ppg_desc_init_spec ar top n : 0 <= top -> top + 4096 < 2 ^ 64 ->
  n ∈ ppg_desc_init ar top <-> 0 <= n /\ n * 4096 < top /\ vmm_area ar (n * 4096) = true.
Proof.
  intros H0 Ht. unfold ppg_desc_init. change PAGE_SIZE with 4096.
  assert (0 <= top / 4096) by (apply Z.div_pos; lia). pose proof (Z.div_mod top 4096). pose proof (Z.mod_pos_bound top 4096).
  pose proof (ppg_loop_spec ar top H0 Ht (Z.to_nat (top / 4096 + 1)) 0 ∅) as E. change (0 * 4096) with 0 in E.
  rewrite E by lia. split; [intros [?%elem_of_empty|]; [done|tauto]|intros; right; tauto].
Qed.

(** ** The map of the machine *)

Definition sm_end (e : smap_e) : Z := sm_base e + sm_len e.
Definition ends (es : list smap_e) : Z := foldr Z.max 0 (sm_end <$> es).
Definition entry_ok (e : smap_e) : Prop := 0 <= sm_base e /\ 0 <= sm_len e /\ sm_end e < 2 ^ 52.
Definition apart (e e' : smap_e) : Prop := sm_end e <= sm_base e' \/ sm_end e' <= sm_base e.

(** A map with one available entry at 1MB: the others are apart from it, and
    those before it in the map are below its end. *)
Record map_ok (pre : list smap_e) (main : smap_e) (post : list smap_e) : Prop := mk_map_ok {
  mo_main : is_main main = true;
  mo_size : VMM_MIN_RAM_SZ <= sm_end main;
  mo_ok : Forall entry_ok (pre ++ main :: post);
  mo_other : Forall (fun e => is_main e = false /\ apart e main) (pre ++ post);
  mo_below : Forall (fun e => sm_end e <= sm_end main) pre;
}.

(** The entries as a loader writes them: each with its size before it. *)
Record mmap_at (m : gmap Z Z) (b : mbi) (es : list smap_e) : Prop := mk_mmap_at {
  ma_addr : 0 <= mb_mmap_addr b /\ mb_mmap_addr b + 24 * Z.of_nat (length es) < 2 ^ 32;
  ma_len : mb_mmap_length b = 24 * Z.of_nat (length es);
  ma_at i e : es !! i = Some e -> let p := mb_mmap_addr b + 24 * Z.of_nat i in mme_size m p = 20 /\ sme m p = e;
}.

Section mmap.
Context (m : gmap Z Z) (b : mbi) (es : list smap_e) (Hm : mmap_at m b es).

Definition mmap_pos (k : nat) : Z := mb_mmap_addr b + 24 * Z.of_nat k.

Lemma mmap_end_at k : (k <= length es)%nat -> (mmap_pos k <? mmap_end b) = (k <? length es)%nat.
Proof.
  intros Hk. destruct (ma_addr _ _ _ Hm) as [A1 A2]. unfold mmap_end, mmap_pos. rewrite (ma_len _ _ _ Hm).
  rewrite wrap_id by (unfold fits; lia). apply eq_true_iff_eq. rewrite Z.ltb_lt, Nat.ltb_lt. lia.
Qed.
Lemma mme_next_at (m' : gmap Z Z) k : mme_size m' (mmap_pos k) = 20 -> (k < length es)%nat -> mme_next m' (mmap_pos k) = mmap_pos (S k).
Proof.
  intros Hs Hk. destruct (ma_addr _ _ _ Hm) as [A1 A2]. unfold mme_next. rewrite Hs. change (wrap64 (20 + 4)) with 24.
  unfold mmap_pos. rewrite wrap_id by (unfold fits; lia). lia.
Qed.

Lemma parse_loop n : forall k fuel s, (k + n = length es)%nat -> (n < fuel)%nat ->
  smap_parse_loop fuel m b (mmap_pos k) s = Some (fold_left (fun s e => smap_entry_step e s) (drop k es) s).
Proof.
  induction n as [|n IH]; intros k fuel s Hk Hf; (destruct fuel as [|fuel]; [lia|]); cbn [smap_parse_loop]; rewrite mmap_end_at by lia.
  - rewrite (proj2 (Nat.ltb_ge _ _)) by lia. by rewrite drop_ge by lia.
  - rewrite (proj2 (Nat.ltb_lt _ _)) by lia. cbn [negb].
    destruct (lookup_lt_is_Some_2 es k) as [e He]; [lia|]. destruct (ma_at _ _ _ Hm k e He) as [Hs Hsm].
    fold (mmap_pos k) in Hs, Hsm. rewrite mme_next_at, Hs, Hsm by (done || lia). cbn [Z.ltb Z.compare sizeof_smap_e Pos.compare Pos.compare_cont].
    rewrite (drop_S _ _ _ He). cbn [fold_left]. apply IH; lia.
Qed.
End mmap.

Lemma ends_app l1 l2 : ends (l1 ++ l2) = Z.max (ends l1) (ends l2).
Proof. unfold ends. induction l1 as [|e l1 IH]; cbn; [|lia]. induction l2 as [|e l2 IH]; cbn; lia. Qed.
Lemma ends_ge es e : e ∈ es -> sm_end e <= ends es.
Proof. induction 1 as [|e e' es _ IH]; unfold ends in *; cbn; lia. Qed.
Lemma ends_nonneg es : 0 <= ends es.
Proof. unfold ends. induction es as [|e es IH]; cbn; lia. Qed.

Lemma fold_others es s : Forall entry_ok es -> Forall (fun e => is_main e = false) es -> 0 <= ss_top s ->
  fold_left (fun s e => smap_entry_step e s) es s =
    mk_smap_st (Z.max (ss_top s) (ends es)) (ss_area s) (ss_nr s + Z.of_nat (length es)).
Proof.
  intros Ho Hn. revert s. induction Ho as [|e es (E1 & E2 & E3) Ho IH]; intros s Hs; [destruct s; cbn in *; f_equal; lia|].
  apply Forall_cons in Hn as [Hn Hns]. cbn [fold_left]. unfold smap_entry_step at 2. rewrite Hn.
  unfold sm_end in E3. rewrite wrap_id by (unfold fits; lia). set (t := if ss_top s <? _ then _ else _).
  assert (t = Z.max (ss_top s) (sm_end e)) as -> by (unfold t, sm_end; destruct (Z.ltb_spec (ss_top s) (sm_base e + sm_len e)); lia).
  rewrite IH by (done || cbn; lia). cbn [ss_top ss_area ss_nr length]. unfold ends. cbn. f_equal; lia.
Qed.

Lemma smap_parse_spec m b pre main post : mmap_at m b (pre ++ main :: post) -> map_ok pre main post ->
  smap_parse m b 0 = Some (mk_smap_st (Z.max TOP_4GB (ends (pre ++ main :: post))) (sm_end main)
    (Z.of_nat (length (pre ++ main :: post)))).
Proof.
  intros Hm [Hmain Hsz Hok Hother Hbelow]. unfold smap_parse. set (es := pre ++ main :: post) in *.
  pose proof (parse_loop m b es Hm (length es) 0 (mmap_fuel b) (mk_smap_st 0 0 0) eq_refl) as E.
  unfold mmap_pos in E. rewrite Z.mul_0_r, Z.add_0_r in E. rewrite E by (unfold mmap_fuel; rewrite (ma_len _ _ _ Hm); lia).
  cbn [mbind option_bind]. rewrite drop_0. unfold es. rewrite fold_left_app. cbn [fold_left].
  apply Forall_app in Hok as [O1 [O2 O3]%Forall_cons]. apply Forall_app in Hother as [H1 H2].
  assert (forall l, Forall (fun e => is_main e = false /\ apart e main) l -> Forall (fun e => is_main e = false) l) as Himp
    by (intros l Hl; eapply Forall_impl; [exact Hl|]; by intros ? []).
  rewrite (fold_others pre) by (auto; cbn; lia). pose proof (ends_nonneg pre) as P0.
  assert (ends pre <= sm_end main) as P1.
  { unfold ends. clear -Hbelow O2. destruct O2 as (B1 & B2 & _). unfold sm_end in *. induction Hbelow as [|e l He _ IH]; cbn; [|unfold sm_end in *]; lia. }
  unfold smap_entry_step. rewrite Hmain. destruct O2 as (M1 & M2 & M3). unfold sm_end in M3.
  rewrite wrap_id by (unfold fits; lia). fold (sm_end main). set (t := if _ <? sm_end main then _ else _).
  assert (t = sm_end main) as -> by (unfold t; cbn [ss_top]; destruct (Z.ltb_spec (Z.max 0 (ends pre)) (sm_end main)); lia).
  unfold sm_end in P1. rewrite fold_others by (auto; cbn; unfold sm_end; lia). cbn [ss_top ss_area ss_nr].
  rewrite (proj2 (Z.ltb_ge _ _)) by done. rewrite ends_app. change (ends (main :: post)) with (Z.max (sm_end main) (ends post)).
  rewrite length_app. cbn [length]. f_equal. f_equal; [|lia].
  destruct (Z.ltb_spec TOP_4GB (Z.max (sm_end main) (ends post))); unfold TOP_4GB, sm_end in *; lia.
Qed.

(** ** The map of the vm *)

(** The entry at 1MB ends where the area of the vmm starts. *)
Definition hide (top : Z) (e : smap_e) : smap_e :=
  if is_main e then mk_smap_e (sm_base e) (wrap64 (top - sm_base e)) (sm_type e) else e.

Lemma smap_at_agree m m' p : (forall q, p <= q < p + 20 -> rd0 m q = rd0 m' q) -> smap_at m p = smap_at m' p.
Proof.
  intros H. unfold smap_at, rd64, rd32.
  rewrite !(mem_read_agree m m' p), !(mem_read_agree m m' (p + 8)), (mem_read_agree m m' (p + 16)) by (intros; apply H; lia). done.
Qed.
Lemma smap_at_copy m m' o p : smap_at (mem_write m o (mem_read m' p sizeof_smap_e)) o = smap_at m' p.
Proof.
  assert (forall d n, 0 <= d -> d + n <= 20 ->
    mem_read (mem_write m o (mem_read m' p sizeof_smap_e)) (o + d) n = mem_read m' (p + d) n) as H.
  { intros d n Hd Hn. unfold mem_read at 1 3. apply list_fmap_ext. intros k i Hk. apply lookup_seqZ in Hk as [-> Hk].
    rewrite rd0_copy by done. unfold sizeof_smap_e. rewrite decide_True by lia. f_equal. lia. }
  unfold smap_at, rd64, rd32. rewrite <- (Z.add_0_r o) at 2. rewrite !H by lia. by rewrite Z.add_0_r.
Qed.
Lemma smap_at_len m o v : fits 64 v ->
  smap_at (wr64 m (o + 8) v) o = mk_smap_e (sm_base (smap_at m o)) v (sm_type (smap_at m o)).
Proof.
  intros Hv. unfold smap_at. cbn [sm_base sm_type]. f_equal; [by rewrite rd64_wr64_ne by lia|by rewrite rd64_wr64|].
  unfold rd32. f_equal. apply mem_read_agree. intros q Hq. rewrite rd0_wr64_ne by lia. done.
Qed.

Section init.
Context (m0 : gmap Z Z) (b : mbi) (es : list smap_e) (raw top : Z).
Context (Hm : mmap_at m0 b es) (Hraw : 0 <= raw /\ raw + 20 * Z.of_nat (length es) < 2 ^ 64).
Context (Happart : raw + 20 * Z.of_nat (length es) <= mb_mmap_addr b \/
  mb_mmap_addr b + 24 * Z.of_nat (length es) <= raw).

Definition inited (k : nat) (m : gmap Z Z) : Prop :=
  (forall p, ~ raw <= p < raw + 20 * Z.of_nat k -> rd0 m p = rd0 m0 p) /\
  (forall i e, (i < k)%nat -> es !! i = Some e -> smap_at m (raw + 20 * Z.of_nat i) = hide top e).

Lemma mmap_kept k m : (k <= length es)%nat -> inited k m -> mmap_at m b es.
Proof.
  intros Hk [Hout _]. destruct Hm as [A1 A2 A3]. split; [done..|]. intros i e He p. destruct (A3 i e He) as [B1 B2]. cbv zeta in *. fold p in B1, B2.
  assert (i < length es)%nat as Hi by by eapply lookup_lt_Some.
  assert (forall q, p <= q < p + 24 -> rd0 m q = rd0 m0 q) as Hq by (intros q Hq; apply Hout; unfold p in *; lia).
  rewrite <- B1, <- B2. unfold mme_size, sme, rd32. split.
  - f_equal. apply mem_read_agree. intros; apply Hq; lia.
  - apply smap_at_agree. intros; apply Hq; lia.
Qed.

Lemma init_entry k e m : es !! k = Some e -> inited k m ->
  let o := raw + 20 * Z.of_nat k in
  let m1 := mem_write m o (mem_read m (mmap_pos b k + 4) sizeof_smap_e) in
  smap_at m1 o = e /\ inited (S k) (if is_main e then wr64 m1 (o + 8) (wrap64 (top - sm_base e)) else m1).
Proof.
  intros He Hi o m1. assert (k < length es)%nat as Hk by by eapply lookup_lt_Some.
  destruct (ma_at _ _ _ (mmap_kept k m ltac:(lia) Hi) k e He) as [_ Hs]. unfold sme in Hs.
  assert (smap_at m1 o = e) as E by (unfold m1; by rewrite smap_at_copy). split; [done|].
  assert (forall q, ~ o <= q < o + 20 -> rd0 m1 q = rd0 m q) as H1.
  { intros q Hq. unfold m1. rewrite rd0_copy by done. unfold sizeof_smap_e. by rewrite decide_False by lia. }
  set (m2 := if is_main e then _ else m1). destruct Hi as [Hout Hin].
  assert (forall q, ~ o <= q < o + 20 -> rd0 m2 q = rd0 m q) as H2.
  { intros q Hq. unfold m2. destruct (is_main e); [rewrite rd0_wr64_ne by lia|]; by apply H1. }
  split.
  - intros p Hp. rewrite H2 by (unfold o; lia). apply Hout. lia.
  - intros i e' Hi He'. destruct (decide (i = k)) as [->|Hne].
    + assert (e' = e) as -> by congruence. fold o. unfold m2, hide. destruct (is_main e) eqn:Em; [|done].
      rewrite smap_at_len by by apply wrap_fits. by rewrite E.
    + rewrite (smap_at_agree m2 m) by (intros q Hq; apply H2; unfold o; lia). apply Hin; [lia|done].
Qed.

Lemma init_loop n : forall k fuel m, (k + n = length es)%nat -> (n < fuel)%nat -> inited k m ->
  exists m', smap_init_loop fuel b top (mmap_pos b k) (raw + 20 * Z.of_nat k) m = Some m' /\ inited (length es) m'.
Proof.
  induction n as [|n IH]; intros k fuel m Hk Hf Hi; (destruct fuel as [|fuel]; [lia|]); cbn [smap_init_loop];
    rewrite (mmap_end_at m0 b es Hm k) by lia.
  - rewrite (proj2 (Nat.ltb_ge _ _)) by lia. exists m. split; [done|]. by replace (length es) with k by lia.
  - rewrite (proj2 (Nat.ltb_lt _ _)) by lia. cbn [negb]. destruct (lookup_lt_is_Some_2 es k) as [e He]; [lia|].
    destruct (init_entry k e m He Hi) as [Es Hi']. rewrite Es. set (m2 := if is_main e then _ else _) in *.
    pose proof (mmap_kept (S k) m2 ltac:(lia) Hi') as Hm2. destruct (ma_at _ _ _ Hm2 k e He) as [Hs _]. fold (mmap_pos b k) in Hs.
    rewrite (mme_next_at m0 b es Hm m2 k Hs) by lia. unfold sizeof_smap_e. rewrite wrap_id by (unfold fits; lia).
    replace (raw + 20 * Z.of_nat k + 20) with (raw + 20 * Z.of_nat (S k)) by lia. apply IH; [lia..|done].
Qed.

Lemma smap_init_spec : exists m', smap_init b raw top m0 = Some m' /\ inited (length es) m'.
Proof.
  unfold smap_init. pose proof (init_loop (length es) 0 (mmap_fuel b) m0) as E. unfold mmap_pos in E.
  change (24 * Z.of_nat 0) with 0 in E. change (20 * Z.of_nat 0) with 0 in E. rewrite !Z.add_0_r in E. apply E; [done| |].
  - unfold mmap_fuel. rewrite (ma_len _ _ _ Hm). lia.
  - split; [done|]. intros; lia.
Qed.
End init.

(** ** The properties *)

(** C22: when the memory that starts at 1MB has room for them, the structures of
    the vmm are laid out one after the other inside its area, which is made
    of whole pages above 1MB; the tables and the pool are aligned, the pool is
    well formed, and exactly the pages of the area are marked. *)
Theorem pmem_layout_bounds c s elf_sz opt : sizes_ok c s elf_sz opt -> ss_top s < 2 ^ 63 ->
  exists l, pmem_layout c s elf_sz opt = Some l /\ layout_fits c s elf_sz opt l /\
    pool_wf (the_pool l) (reverse (seqZ 0 (l_pool_sz l / 4096))) [] /\
    forall n, n ∈ ppg_desc_init (l_area l) (ss_top s) <-> 0 <= n /\ n * 4096 < ss_top s /\ vmm_area (l_area l) (n * 4096) = true.
Proof.
  intros Hz Ht. destruct (pmem_layout_fits c s elf_sz opt Hz) as (l & E & Hl). exists l. split_and!; [done|done|by eapply the_pool_wf|].
  intros n. pose proof (zo_top _ _ _ _ Hz). apply ppg_desc_init_spec; lia.
Qed.

(** What the set-up is given: a map of the machine, the module of the vmm, that
    can be loaded, and its command line; the loader's data is below the area. *)
Record boot_ok (c : conf) (b : mbi) (mod_start mod_end : Z) (cmdline : bytes) (pool_opt : Z) (m : gmap Z Z)
    (pre : list smap_e) (main : smap_e) (post : list smap_e) (elf_sz : Z) (opt : option Z) (l : layout) (r_hdr : Z) : Prop := mk_boot_ok {
  bo_flags : Z.land (mb_flags b) MBI_FLAG_MMAP = MBI_FLAG_MMAP;
  bo_mods : mb_mods_count b = 2;
  bo_mmap : mmap_at m b (pre ++ main :: post);
  bo_map : map_ok pre main post;
  bo_elf_sz : elf_module_load_size mod_start m = Some elf_sz /\ 8 <= elf_sz;
  bo_cmdline : exists r, mbi_get_opt pmem_pool_opt_hdl (mb_flags b) cmdline [112; 111; 111; 108] pool_opt = Some r /\
    opt = if r.1.1 : bool then Some r.2 else None;
  bo_layout : let s := mk_smap_st (Z.max TOP_4GB (ends (pre ++ main :: post))) (sm_end main) (Z.of_nat (length (pre ++ main :: post))) in
    sizes_ok c s elf_sz opt /\ pmem_layout c s elf_sz opt = Some l;
  bo_elf : elf_ok m mod_start (mod_end - mod_start) (l_base l) elf_sz r_hdr;
  bo_low : mod_end <= area_start (l_area l) /\ mb_mmap_addr b + 24 * Z.of_nat (length (pre ++ main :: post)) <= area_start (l_area l);
  bo_apart : mod_end <= mb_mmap_addr b \/ mb_mmap_addr b + 24 * Z.of_nat (length (pre ++ main :: post)) <= mod_start;
}.

Lemma mmap_at_agree m m' b es : mmap_at m b es ->
  (forall p, mb_mmap_addr b <= p < mb_mmap_addr b + 24 * Z.of_nat (length es) -> rd0 m' p = rd0 m p) -> mmap_at m' b es.
Proof.
  intros [A1 A2 A3] Hp. split; [done..|]. intros i e He p. destruct (A3 i e He) as [B1 B2]. fold p in B1, B2.
  assert (i < length es)%nat as Hi by by eapply lookup_lt_Some. rewrite <- B1, <- B2. unfold mme_size, sme, rd32. split.
  - f_equal. apply mem_read_agree. intros; apply Hp; unfold p in *; lia.
  - apply smap_at_agree. intros; apply Hp; unfold p in *; lia.
Qed.

Lemma hidden_apart start end_ main e : is_main main = true -> MB <= start < 2 ^ 52 -> end_ <= sm_end main -> entry_ok e ->
  e = main \/ is_main e = false /\ apart e main ->
  let e' := hide start e in
  sm_base e' = sm_base e /\ sm_type e' = sm_type e /\ (sm_end e' <= start \/ end_ <= sm_base e').
Proof.
  intros Hm [Hs Hs'] He (E1 & E2 & E3) H. unfold hide. destruct (is_main e) eqn:Em.
  - split_and!; [done..|]. left. unfold is_main in Em. apply andb_true_iff in Em as [_ Eb]. apply Z.eqb_eq in Eb.
    unfold sm_end. cbn [sm_base sm_len]. rewrite wrap_id by (unfold fits; change MB with 1048576 in *; lia). lia.
  - split_and!; [done..|]. destruct H as [->|[_ Ha]]; [congruence|].
    unfold is_main in Hm. apply andb_true_iff in Hm as [_ Eb]. apply Z.eqb_eq in Eb. unfold apart in Ha. lia.
Qed.

(** C21: the set-up ends; the vmm is loaded at its base, with the address of its
    information data in its first word; of the memory below the area only the
    module changes, erased; and the map for the vm has the entries of the map
    of the machine, none of which meets the area of the vmm.  The machine is
    one that [boot_ok] describes: one available entry at 1MB, big enough, the
    others apart from it and those before it in the map below its end; room
    for the area above 1MB; a module well formed, whose tables and segments are
    within it, that ends below the area; a command line that parses, whatever
    the stack holds in the variable of the option. *)
Theorem vm_map_hides_vmm c b mod_start mod_end cmdline pool_opt m pre main post elf_sz opt l r_hdr :
  boot_ok c b mod_start mod_end cmdline pool_opt m pre main post elf_sz opt l r_hdr ->
  exists t m1, pmem_init c b mod_start mod_end cmdline pool_opt m = Some t /\ bt_layout t = l /\
    let ar := l_area l in
    elf_module_load_relocatable mod_start (l_base l)
      (mem_write m (area_start ar) (replicate (Z.to_nat (area_end ar - area_start ar)) 0)) = Some m1 /\
    (forall p, l_base l + 8 <= p < l_base l + elf_sz -> rd0 (bt_mem t) p = rd0 m1 p) /\
    rd64 (bt_mem t) (l_base l) = l_info l /\
    (forall p, p < area_start ar -> rd0 (bt_mem t) p = if decide (mod_start <= p < mod_end) then 0 else rd0 m p) /\
    forall i e, (pre ++ main :: post) !! i = Some e ->
      let e' := smap_at (bt_mem t) (l_smap l + 20 * Z.of_nat i) in
      sm_base e' = sm_base e /\ sm_type e' = sm_type e /\ (sm_end e' <= area_start ar \/ area_end ar <= sm_base e').
Proof.
  intros [Hf Hmods Hmm Hmap [Hsz Hsz8] (r & Er & Eopt) [Hz El] Helf [Hlow1 Hlow2] Hap].
  unfold pmem_init. rewrite Hf. change (c_true MBI_FLAG_MMAP) with true. rewrite Hmods. cbn [negb Z.eqb Pos.eqb].
  rewrite (smap_parse_spec m b pre main post Hmm Hmap). cbn [mbind option_bind]. rewrite Hsz. cbn [mbind option_bind].
  rewrite Er. cbn [mbind option_bind]. rewrite <- Eopt. cbv zeta in Hz, El. rewrite El. cbn [mbind option_bind].
  set (es := pre ++ main :: post) in *. set (s := mk_smap_st _ _ _) in *.
  destruct (pmem_layout_fits c s elf_sz opt Hz) as (l' & El' & [Hp Har Hst Hen _ _ [Hsize _]]).
  assert (l' = l) as -> by congruence. set (ar := l_area l) in *. unfold pieces in Hp. cbn [ascending] in Hp. change MB with 1048576 in Hst.
  assert (area_start ar <= l_base l /\ l_base l + elf_sz <= l_smap l /\ l_smap l + 20 * Z.of_nat (length es) <= area_end ar /\
      0 <= l_info l <= area_end ar) as (P1 & P2 & P3 & P6)
    by (rewrite Hsize in Hp; unfold s, sizeof_smap_e in Hp; cbn [ss_nr] in Hp; lia).
  assert (area_end ar < 2 ^ 52 /\ area_end ar <= sm_end main) as [P4 P5].
  { destruct (zo_area _ _ _ _ Hz) as [Z1 Z2]. destruct (page_align_bounds (ss_area s)); [unfold fits; lia|]. rewrite Hen.
    unfold area_end_of. split; [lia|]. change (sm_end main) with (ss_area s). lia. }
  clear Hp. set (z := mem_write m _ (replicate _ 0)).
  assert (forall p, rd0 z p = if decide (area_start ar <= p < area_end ar) then 0 else rd0 m p) as Hzr.
  { intros p. unfold z. rewrite rd0_zeros by lia. apply decide_ext. lia. }
  assert (same_module m mod_start (mod_end - mod_start) z) as Hsm by (intros p Hp; rewrite Hzr, decide_False by lia; done).
  pose proof (elf_ok_same _ z _ _ _ _ _ Helf Hsm) as Hok.
  destruct (load_relocatable _ _ _ _ _ _ Hok) as (m1 & _ & E1 & _ & Ho & _). rewrite E1. cbn [mbind option_bind].
  set (m2 := mem_write m1 mod_start _). set (m3 := wr64 m2 (l_base l) (l_info l)).
  destruct (ma_addr _ _ _ Hmm) as [A1 A2]. destruct (eo_mod _ _ _ _ _ _ Helf) as (M0 & M1 & _).
  assert (forall p, rd0 m2 p = if decide (mod_start <= p < mod_end) then 0 else rd0 m1 p) as H2.
  { intros p. unfold m2. rewrite rd0_zeros by lia. apply decide_ext. lia. }
  assert (forall p, p < area_start ar -> rd0 m3 p = if decide (mod_start <= p < mod_end) then 0 else rd0 m p) as H3.
  { intros p Hp. unfold m3. rewrite rd0_wr64_ne, H2 by lia. case_decide; [done|]. rewrite Ho by lia. rewrite Hzr, decide_False by lia. done. }
  assert (mmap_at m3 b es) as Hm3 by (eapply mmap_at_agree; [exact Hmm|]; intros p Hpp; rewrite H3, decide_False by lia; done).
  destruct (smap_init_spec m3 b es (l_smap l) (area_start ar) Hm3) as (m4 & E4 & Hout & Hin); [lia|right; lia|].
  rewrite E4. cbn [mbind option_bind]. eexists _, m1. split; [reflexivity|]. cbn [bt_layout bt_mem]. split_and!; [done|done|..].
  - intros p Hpp. rewrite Hout by lia. unfold m3. rewrite rd0_wr64_ne, H2, decide_False by lia. done.
  - rewrite (rd64_agree m4 m3) by (intros i Hi; apply Hout; lia). apply rd64_wr64. unfold fits. lia.
  - intros p Hpp. rewrite Hout by lia. by apply H3.
  - intros i e He. rewrite (Hin i e) by (done || by eapply lookup_lt_Some).
    destruct Hmap as [Hmain _ Hall Hother _]. rewrite Forall_forall in Hall. 
    apply (hidden_apart _ _ main); [done|change MB with 1048576; lia|done|by eapply Hall, list_elem_of_lookup_2|].
    apply list_elem_of_lookup_2 in He. unfold es in He. rewrite Forall_forall in Hother.
    apply elem_of_app in He as [He|[->|He]%elem_of_cons]; [right|by left|right]; apply Hother, elem_of_app; auto.
Qed.

(** A machine of 1GB, and the module of [Elf]. *)
Definition ex_conf : conf := mk_conf true true true 4096 4208 9000 true.
Definition ex_pre : list smap_e := [mk_smap_e 0 0x9fc00 1; mk_smap_e 0x9fc00 0x400 2].
Definition ex_main : smap_e := mk_smap_e 0x100000 0x3ff00000 1.
Definition ex_post : list smap_e := [mk_smap_e 0xfffc0000 0x40000 2].
Definition ex_map : list smap_e := ex_pre ++ ex_main :: ex_post.
Definition ex_mbi : mbi := mk_mbi 0x40 2 0x9000 96.
Definition mme_bytes (e : smap_e) : bytes := le_bytes 4 20 ++ le_bytes 8 (sm_base e) ++ le_bytes 8 (sm_len e) ++ le_bytes 4 (sm_type e).
Definition ex_boot : gmap Z Z := mem_write ex_mod 0x9000 (concat (mme_bytes <$> ex_map)).
Definition ex_st : smap_st := mk_smap_st (Z.max TOP_4GB (ends ex_map)) (sm_end ex_main) (Z.of_nat (length ex_map)).
Definition ex_l : layout := Eval vm_compute in
  default (mk_layout (mk_area 0 0) 0 0 0 0 0 0 0 0 0 0 0 0 0 0 0 0 0 0 0) (pmem_layout ex_conf ex_st 24 None).

Lemma ex_sizes : sizes_ok ex_conf ex_st 24 None.
Proof.
  split; try done.
Qed.
Lemma pmem_layout_bounds_witness : exists l, pmem_layout ex_conf ex_st 24 None = Some l /\ layout_fits ex_conf ex_st 24 None l.
Proof.
  destruct (pmem_layout_bounds ex_conf ex_st 24 None ex_sizes ltac:(reflexivity)) as (l & E & Hl & _). exists l. split; [exact E|exact Hl].
Defined.

Lemma ex_boot_same : same_module ex_mod 0x1000 224 ex_boot.
Proof. intros p Hp. unfold ex_boot. rewrite rd0_mem_write, decide_False by lia. done. Qed.
Lemma ex_mmap_at : mmap_at ex_boot ex_mbi ex_map.
Proof.
  split; [done|done|]. intros i e He. do 4 (destruct i as [|i]; [injection He as <-; vm_compute; split; reflexivity|]). done.
Qed.
Lemma ex_map_ok : map_ok ex_pre ex_main ex_post.
Proof.
  split; [done|by vm_compute|..]; cbn [app ex_pre ex_post]; repeat apply Forall_cons_2; try apply Forall_nil_2.
  all: try (unfold entry_ok, sm_end; cbn; lia).
  all: split; [reflexivity|unfold apart, sm_end; cbn; lia].
Qed.
Lemma ex_boot_ok : boot_ok ex_conf ex_mbi 0x1000 (0x1000 + 224) [112; 105; 110; 103; 0] 0xdeadbeef ex_boot ex_pre ex_main ex_post 24 None ex_l (0x1000 + 120).
Proof.
  split.
  - reflexivity.
  - reflexivity.
  - apply ex_mmap_at.
  - apply ex_map_ok.
  - split; [vm_compute; reflexivity|done].
  - eexists. split; [vm_compute; reflexivity|reflexivity].
  - split; [apply ex_sizes|vm_compute; reflexivity].
  - eapply elf_ok_same; [apply ex_elf_ok; vm_compute; split; [discriminate|reflexivity]|apply ex_boot_same].
  - vm_compute. split; discriminate.
  - left. vm_compute. discriminate.
Qed.
Lemma vm_map_hides_vmm_witness : exists t, pmem_init ex_conf ex_mbi 0x1000 (0x1000 + 224) [112; 105; 110; 103; 0] 0xdeadbeef ex_boot = Some t /\
  sm_end (smap_at (bt_mem t) (l_smap ex_l + 40)) <= area_start (l_area ex_l).
Proof.
  destruct (vm_map_hides_vmm _ _ _ _ _ _ _ _ _ _ _ _ _ _ ex_boot_ok) as (t & m1 & E & _ & _ & _ & _ & _ & H).
  exists t. split; [exact E|]. destruct (H 2%nat ex_main eq_refl) as (Hb & _ & [Hd|Hd]); [exact Hd|].
  exfalso. change (20 * Z.of_nat 2) with 40 in *. rewrite Hb in Hd. exact (Hd eq_refl).
Defined.
