(* ===== verification/BootPg.v ===== *)
(** * The page tables of the vmm

    The vmm runs in long mode with tables that map every address of the memory
    to itself, in pages of 1GB if the processor has them, of 2MB otherwise.
    The walk that says so is the one of [Walk], over these tables. *)

From S2P Require Import Prelude.
From S2P Require Import Pagemem.
From S2P Require Import Alloc.
From S2P Require Import Walk.
From S2P Require Import NptTables.
From S2P Require Import Vm.
From S2P Require Import Boot.
From S2P Require Import BootMap.

(** ** Entries *)

Lemma entry_fields pfn : let e := pg_set_entry VMM_PG_ATTR pfn in
  e_p e = true /\ e_rw e = true /\ e_lvl e = false /\ e_ps e = false /\ e_nx e = false /\ e_addr e = wrap 40 pfn.
Proof.
  unfold pg_set_entry, set_e_addr, e_p, e_rw, e_lvl, e_ps, e_nx, e_addr, bit.
  rewrite !testbit_set_bits by lia. split_and!; try reflexivity. by apply bits_set_same.
Qed.
Lemma large_pde_fields pfn : let e := pg_set_large_pde VMM_PG_ATTR pfn in
  e_p e = true /\ e_rw e = true /\ e_lvl e = false /\ e_ps e = true /\ pde_page_addr e = wrap 31 pfn.
Proof.
  unfold pg_set_large_pde, set_pde_page_addr, e_p, e_rw, e_lvl, e_ps, pde_page_addr, bit.
  rewrite !testbit_set_bits by lia. split_and!; try reflexivity. by apply bits_set_same.
Qed.
Lemma large_pdpe_fields pfn : let e := pg_set_large_pdpe VMM_PG_ATTR pfn in
  e_p e = true /\ e_rw e = true /\ e_lvl e = false /\ e_ps e = true /\ pdpe_page_addr e = wrap 22 pfn.
Proof.
  unfold pg_set_large_pdpe, set_pdpe_page_addr, e_p, e_rw, e_lvl, e_ps, pdpe_page_addr, bit.
  rewrite !testbit_set_bits by lia. split_and!; try reflexivity. by apply bits_set_same.
Qed.

(** ** Loops *)

Lemma fold_seqZ_ind {A} (f : A -> Z -> A) (P : Z -> A -> Prop) n s : 0 <= n -> P 0 s ->
  (forall i s, 0 <= i < n -> P i s -> P (i + 1) (f s i)) -> P n (fold_left f (seqZ 0 n) s).
Proof.
  intros Hn. rewrite <- (Z2Nat.id n Hn). generalize (Z.to_nat n) as k. clear n Hn. intros k H0 Hs.
  assert (forall j, (j <= k)%nat -> P (Z.of_nat j) (fold_left f (seqZ 0 (Z.of_nat j)) s)) as H; [|by apply H].
  induction j as [|j IH]; intros Hj; [done|]. rewrite Nat2Z.inj_succ, <- Z.add_1_r, seqZ_app, fold_left_app by lia.
  apply Hs; [lia|]. apply IH. lia.
Qed.

Section tables.
Variables (pg_1G : bool) (top pml4 pdps pds : Z) (tbl : gmap Z Z).

(** The numbers of 512GB, 1GB and 2MB pages that cover the memory. *)
Definition n512 : Z := pdp_nr (top - 1) + 1.
Definition n1G : Z := pd64_nr (top - 1) + 1.
Definition n2M : Z := pt64_nr (top - 1) + 1.

(** Where [Boot.pmem_layout] puts the tables. *)
Record tables_at : Prop := mk_tables_at {
  ta_top : 0 < top <= 2 ^ 48;
  ta_1G : pg_1G = true \/ top <= 2 ^ 39;
  ta_pml4 : is_page pml4 /\ pml4 + 4096 <= pdps;
  ta_pdps : is_page pdps /\ pdps + n512 * 4096 < 2 ^ 52;
  ta_pds : pg_1G = false -> is_page pds /\ pdps + n512 * 4096 <= pds /\ pds + n1G * 4096 < 2 ^ 52;
}.

Context (Hat : tables_at).

Lemma counts : 1 <= n512 <= 512 /\ (n512 - 1) * 512 < n1G <= n512 * 512 /\ (n1G - 1) * 512 < n2M <= n1G * 512.
Proof.
  destruct (ta_top Hat). unfold n512, n1G, n2M, pdp_nr, pd64_nr, pt64_nr. rewrite !Z.shiftr_div_pow2 by done.
  change (2 ^ PG_512G_SHIFT) with 549755813888. change (2 ^ PG_1G_SHIFT) with 1073741824. change (2 ^ PG_2M_SHIFT) with 2097152.
  change (2 ^ 48) with 281474976710656 in *. Z.to_euclidean_division_equations; lia.
Qed.

(** What the tables hold: the entries are one array per level. *)
Definition pml4_done (i : Z) (t : gmap Z Z) : Prop :=
  forall k, 0 <= k < i -> rd0 t (pml4 + 8 * k) = pg_set_entry VMM_PG_ATTR (page_nr (pdps + k * 4096)).
Definition pdp_done (j : Z) (t : gmap Z Z) : Prop :=
  forall k, 0 <= k < j -> rd0 t (pdps + 8 * k) =
    if pg_1G then pg_set_large_pdpe VMM_PG_ATTR k else pg_set_entry VMM_PG_ATTR (page_nr (pds + k * 4096)).
Definition pd_done (j : Z) (t : gmap Z Z) : Prop :=
  pg_1G = false -> forall k, 0 <= k < j -> rd0 t (pds + 8 * k) = pg_set_large_pde VMM_PG_ATTR k.

(** The turns over page directories, from the entry [b] of a table. *)
Definition in_pdp (i b : Z) (s : pg_st) : Prop :=
  pml4_done i (ps_tbl s) /\ pdp_done b (ps_tbl s) /\ pd_done (Z.min (512 * b) n2M) (ps_tbl s) /\
  ps_pfn s = (if pg_1G then b else Z.min (512 * b) n2M) /\ (pg_1G = false -> ps_pt_nr s = n2M - Z.min (512 * b) n2M).

Lemma pde_step i b s k : pg_1G = false -> 0 <= b < n1G -> i <= 512 -> 0 <= k -> 512 * b + k < n2M -> k < 512 ->
  let P k s := pml4_done i (ps_tbl s) /\ pdp_done (b + 1) (ps_tbl s) /\ pd_done (512 * b + k) (ps_tbl s) /\ ps_pfn s = 512 * b + k in
  P k s -> P (k + 1) (map_pde (pds + b * TABLE_SZ) s k).
Proof.
  intros H1 Hb Hi Hk0 Hk Hk' P (A1 & A2 & A3 & A4). destruct counts as (C1 & C2 & C3).
  destruct (ta_pml4 Hat) as [_ T1], (ta_pds Hat H1) as (_ & T2 & T3).
  assert (fits 64 (ps_pfn s + 1)) as Hf by (unfold fits; lia).
  unfold map_pde, next_pfn, set_tbl, entry64. change TABLE_SZ with 4096. unfold P. cbn [ps_tbl ps_pfn].
  replace (pds + b * 4096 + 8 * k) with (pds + 8 * (512 * b + k)) by lia. split_and!.
  - intros q Hq. rewrite rd0_insert, decide_False by lia. by apply A1.
  - intros q Hq. assert (b < 512 * n512) by lia. rewrite rd0_insert, decide_False by lia. by apply A2.
  - intros _ q Hq. rewrite rd0_insert. case_decide as Hd; [f_equal; lia|]. apply A3; [done|lia].
  - rewrite wrap_id by done. lia.
Qed.

Lemma pdpe_step i b s : (pg_1G = true \/ i = 1) -> 0 <= b < n1G -> 512 * (i - 1) <= b < 512 * i -> i <= n512 ->
  in_pdp i b s -> in_pdp i (b + 1) (map_pdpe pg_1G (pdps + (i - 1) * TABLE_SZ) pds s (b - 512 * (i - 1))).
Proof.
  intros H1 Hb Hbi Hi (A1 & A2 & A3 & A4 & A5). destruct counts as (C1 & C2 & C3).
  destruct (ta_pml4 Hat) as [_ T1].
  unfold map_pdpe. change TABLE_SZ with 4096.
  replace (entry64 (pdps + (i - 1) * 4096) (b - 512 * (i - 1))) with (pdps + 8 * b) by (unfold entry64; lia).
  assert (forall e, pml4_done i (<[pdps + 8 * b := e]> (ps_tbl s))) as Hpml4.
  { intros e q Hq. rewrite rd0_insert, decide_False by lia. by apply A1. }
  unfold in_pdp, pd_done, pdp_done in *. destruct pg_1G eqn:E1.
  - unfold next_pfn, set_tbl. cbn [ps_tbl ps_pfn ps_pt_nr]. rewrite wrap_id by (unfold fits; lia).
    split_and!; [apply Hpml4| |done|lia|done]. intros q Hq. rewrite rd0_insert. case_decide; [f_equal; lia|apply A2; lia].
  - destruct H1 as [|Hi1]; [done|]. subst i. destruct (ta_pds Hat E1) as (_ & T2 & T3). unfold set_tbl. cbn [ps_tbl ps_pfn ps_pd_nr ps_pt_nr]. rewrite A5 by done.
    change (1 - 1) with 0. rewrite Z.mul_0_r, Z.sub_0_r.
    change (b * 4096) with (b * TABLE_SZ). set (max := Z.min (n2M - Z.min (512 * b) n2M) 512).
    assert (0 <= max /\ 512 * b + max = Z.min (512 * (b + 1)) n2M) as [M0 M1] by lia.
    set (s0 := mk_pg_st _ _ _ _).
    pose proof (fold_seqZ_ind (map_pde (pds + b * TABLE_SZ)) (fun k s => (pml4_done 1 (ps_tbl s) /\ pdp_done (b + 1) (ps_tbl s) /\
      pd_done (512 * b + k) (ps_tbl s) /\ ps_pfn s = 512 * b + k) /\ ps_pt_nr s = n2M - Z.min (512 * (b + 1)) n2M) max s0 M0) as Hfold.
    destruct Hfold as [(F1 & F2 & F3 & F4) F5].
    + unfold s0. cbn [ps_tbl ps_pfn ps_pt_nr]. split_and!; [apply Hpml4| | |lia|lia].
      * intros q Hq. rewrite E1, rd0_insert. case_decide; [do 2 f_equal; change TABLE_SZ with 4096; lia|]. apply A2. lia.
      * intros _ q Hq. rewrite rd0_insert, decide_False by lia. apply A3; [done|lia].
    + intros k s1 Hk [HP Hnr]. split; [|exact Hnr]. apply (pde_step 1 b s1 k); lia || done.
    + rewrite M1 in F3, F4. unfold pdp_done in F2. rewrite E1 in F2. split_and!; [exact F1|exact F2|intros _; by apply F3|exact F4|intros _; exact F5].
Qed.

Lemma pdpe_pd_nr b1G pdp pd s j : ps_pd_nr (map_pdpe b1G pdp pd s j) = ps_pd_nr s.
Proof.
  unfold map_pdpe. destruct b1G; [done|]. cbn [ps_pt_nr set_tbl]. generalize (seqZ 0 (Z.min (ps_pt_nr s) 512)) as l. intros l.
  match goal with |- ps_pd_nr (fold_left _ _ ?x) = _ => change (ps_pd_nr s) with (ps_pd_nr x); generalize x end.
  induction l as [|k l IH]; intros x; [done|]. cbn [fold_left]. by rewrite IH.
Qed.

Definition in_pml4 (i : Z) (s : pg_st) : Prop :=
  in_pdp i (Z.min (512 * i) n1G) s /\ ps_pd_nr s = n1G - Z.min (512 * i) n1G.

Lemma pml4e_step i s : 0 <= i < n512 -> in_pml4 i s -> in_pml4 (i + 1) (map_pml4e pg_1G pml4 pdps pds s i).
Proof.
  intros Hi [(A1 & A2 & A3 & A4 & A5) Hn]. destruct counts as (C1 & C2 & C3).
  destruct (ta_pml4 Hat) as [_ T1].
  unfold map_pml4e, set_tbl. cbn [ps_tbl ps_pfn ps_pd_nr ps_pt_nr]. rewrite Hn.
  set (max := Z.min (n1G - Z.min (512 * i) n1G) 512). rewrite (Z.min_l (512 * i)) in * by lia.
  assert (0 <= max /\ 512 * i + max = Z.min (512 * (i + 1)) n1G) as [M0 M1] by lia. set (s0 := mk_pg_st _ _ _ _).
  assert (pg_1G = true \/ i + 1 = 1) as H1.
  { destruct (ta_1G Hat) as [|Ht]; [by left|right]. destruct (ta_top Hat). unfold n512, pdp_nr in Hi.
    rewrite Z.shiftr_div_pow2 in Hi by done. change (2 ^ PG_512G_SHIFT) with (2 ^ 39) in Hi.
    rewrite Z.div_small in Hi by lia. lia. }
  pose proof (fold_seqZ_ind (map_pdpe pg_1G (pdps + i * TABLE_SZ) pds)
    (fun j s => in_pdp (i + 1) (512 * i + j) s /\ ps_pd_nr s = n1G - Z.min (512 * (i + 1)) n1G) max s0 M0) as Hfold.
  cbv beta in Hfold. rewrite M1 in Hfold. unfold in_pml4. apply Hfold.
  - rewrite Z.add_0_r. split; [|unfold s0; cbn [ps_pd_nr]; lia]. unfold s0. split_and!; cbn [ps_tbl ps_pfn ps_pt_nr]; [| | |done|done].
    + intros k Hk. unfold entry64. rewrite rd0_insert. case_decide; [do 2 f_equal; change TABLE_SZ with 4096; lia|]. apply A1. lia.
    + intros k Hk. unfold entry64. rewrite rd0_insert, decide_False by lia. by apply A2.
    + intros E k Hk. destruct (ta_pds Hat E) as (_ & T2 & T3). unfold entry64. rewrite rd0_insert, decide_False by lia. by apply A3.
  - intros j s1 Hj [HP Hnr]. rewrite pdpe_pd_nr. split; [|exact Hnr].
    pose proof (pdpe_step (i + 1) (512 * i + j) s1 H1) as Hstep.
    replace (i + 1 - 1) with i in Hstep by lia. replace (512 * i + j - 512 * i) with j in Hstep by lia.
    rewrite Z.add_assoc. apply Hstep; lia || done.
Qed.

Lemma tables_done : let t := (vmm_pagemem_init pg_1G top pml4 pdps pds tbl).1 in
  pml4_done n512 t /\ pdp_done n1G t /\ pd_done n2M t.
Proof.
  destruct counts as (C1 & C2 & C3). unfold vmm_pagemem_init. cbn [fst]. fold n1G n2M n512.
  pose proof (fold_seqZ_ind (map_pml4e pg_1G pml4 pdps pds) in_pml4 n512 (mk_pg_st tbl 0 n1G n2M)) as Hfold.
  destruct Hfold as [(A1 & A2 & A3 & _) _]; [lia| |intros; by apply pml4e_step|].
  - split; [|cbn; lia]. split_and!; cbn [ps_tbl ps_pfn ps_pt_nr].
    + intros k Hk. lia.
    + intros k Hk. lia.
    + intros _ k Hk. lia.
    + destruct pg_1G; lia.
    + lia.
  - rewrite (Z.min_r _ n1G) in A2, A3 by lia. rewrite (Z.min_r _ n2M) in A3 by lia. done.
Qed.
End tables.

(** ** The walk *)

Lemma is_page_add p k : is_page p -> 0 <= k -> p + k * 4096 < 2 ^ 52 -> is_page (p + k * 4096).
Proof. intros (n & -> & Hn) Hk Hl. exists (n + k). change (2 ^ 52) with (2 ^ 40 * 4096) in Hl. lia. Qed.
(** No area: the walks check nothing. *)
Lemma no_area p : is_page p -> vmm_area_range (mk_area 0 0) p PG_4K_SIZE = false.
Proof.
  intros (n & -> & Hn). unfold vmm_area_range. change PG_4K_SIZE with 4096. cbn [Z.ltb Z.compare Pos.compare Pos.compare_cont].
  assert (2 ^ 40 * 4096 < 2 ^ 64) by done. rewrite wrap_id by (unfold fits; lia). rewrite (proj2 (Z.ltb_lt _ _)) by lia.
  unfold vmm_area, mem_range. cbn [area_start area_end]. rewrite (proj2 (Z.ltb_ge (n * 4096) 0)) by lia. by rewrite andb_false_r.
Qed.

Section walk.
Context (pg_1G : bool) (top pml4 pdps pds : Z) (Hat : tables_at pg_1G top pml4 pdps pds) (v : Z) (Hv : 0 <= v < top).

Lemma indexes : let i := pml4_idx v in let g := v / 2 ^ 30 in let p := v / 2 ^ 21 in
  0 <= i < n512 top /\ pdp_idx v + 512 * i = g /\ 0 <= g < n1G top /\ pd64_idx v + 512 * g = p /\ 0 <= p < n2M top /\ g < 2 ^ 18.
Proof.
  destruct (ta_top _ _ _ _ _ Hat) as [H0 H1]. unfold n512, n1G, n2M, pdp_nr, pd64_nr, pt64_nr, pml4_idx, pdp_idx, pd64_idx.
  rewrite !idx9, !Z.shiftr_div_pow2 by done. change (2 ^ PG_512G_SHIFT) with 549755813888. change (2 ^ PG_1G_SHIFT) with 1073741824.
  change (2 ^ PG_2M_SHIFT) with 2097152. change (2 ^ 30) with 1073741824. change (2 ^ 21) with 2097152. change (2 ^ 18) with 262144.
  change (2 ^ 48) with 281474976710656 in *. Z.to_euclidean_division_equations; lia.
Qed.

Lemma table_page t k : is_page t -> 0 <= k -> t + k * 4096 < 2 ^ 52 ->
  page_addr (e_addr (pg_set_entry VMM_PG_ATTR (page_nr (t + k * 4096)))) = t + k * 4096.
Proof.
  intros Ht Hk Hl. destruct (entry_fields (page_nr (t + k * 4096))) as (_ & _ & _ & _ & _ & ->).
  by apply page_of_nr, is_page_add.
Qed.
Lemma frame_address n k w : 0 <= w -> 0 <= k < 64 -> k + w <= 64 -> fits w n -> v / 2 ^ k = n ->
  wrap64 (pg_addr k (wrap w n) + pg_offset k v) = v.
Proof.
  intros Hw Hk Hkw Hn <-. rewrite (wrap_id w) by done. rewrite (join_offset k w) by (done || lia).
  pose proof (Z.div_mod v (2 ^ k)). assert (0 < 2 ^ k) by (apply Z.pow_pos_nonneg; lia). lia.
Qed.

Lemma walk_identity c tbl w : cpu_pg_1G c = pg_1G -> efer_nxe c = false -> area c = mk_area 0 0 ->
  let '(t, cr3) := vmm_pagemem_init pg_1G top pml4 pdps pds tbl in
  exists w', pg_walk_lmode c (rd0 t) cr3 v w = (VM_DONE, w') /\ w_addr w' = v /\ w_w w' = true /\ w_u w' = false.
Proof.
  intros Hc Hx Ha. pose proof (tables_done pg_1G top pml4 pdps pds tbl Hat) as Ht.
  unfold vmm_pagemem_init in *. set (t := ps_tbl _) in *. cbn [fst] in Ht. cbv beta iota. destruct Ht as (T1 & T2 & T3). clearbody t.
  destruct indexes as (I1 & I2 & I3 & I4 & I5 & I6). destruct (counts _ _ _ _ _ Hat) as (C1 & C2 & C3).
  destruct (ta_pml4 _ _ _ _ _ Hat) as [P1 Q1], (ta_pdps _ _ _ _ _ Hat) as [P2 Q2].
  unfold pg_walk_lmode. cbv zeta. rewrite Ha. unfold cr3_addr. rewrite bits_set_same by lia. rewrite page_of_nr by exact P1.
  rewrite no_area by done. cbn [negb]. assert (rd0 t (entry64 pml4 (pml4_idx v)) = pg_set_entry VMM_PG_ATTR (page_nr (pdps + pml4_idx v * 4096))) as -> by by apply T1.
  assert (is_page (pdps + pml4_idx v * 4096)) as P4 by (apply is_page_add; [done|lia|lia]).
  destruct (entry_fields (page_nr (pdps + pml4_idx v * 4096))) as (F1 & F2 & F3 & F4 & F5 & F6).
  unfold pg_present, pg_large, pg64_executable. rewrite F1, F2, F3, Hx, table_page by (done || lia). rewrite no_area by done. cbn [negb].
  assert (entry64 (pdps + pml4_idx v * 4096) (pdp_idx v) = pdps + 8 * (v / 2 ^ 30)) as -> by (unfold entry64; lia).
  rewrite T2 by done. rewrite Hc. destruct pg_1G eqn:E1.
  - destruct (large_pdpe_fields (v / 2 ^ 30)) as (G1 & G2 & G3 & G4 & G5). rewrite G1, G2, G3, G4, G5. cbn [negb andb].
    eexists. split; [reflexivity|]. cbn. split; [|done]. apply (frame_address _ 30 22); [lia..| |done]. unfold fits. lia.
  - destruct (ta_pds _ _ _ _ _ Hat eq_refl) as (P3 & Q3 & Q4). assert (is_page (pds + v / 2 ^ 30 * 4096)) as P5 by (apply is_page_add; [done|lia|lia]).
    destruct (entry_fields (page_nr (pds + v / 2 ^ 30 * 4096))) as (G1 & G2 & G3 & G4 & G5 & G6).
    rewrite G1, G2, G3, table_page by (done || lia). rewrite no_area by done. cbn [negb andb].
    assert (entry64 (pds + v / 2 ^ 30 * 4096) (pd64_idx v) = pds + 8 * (v / 2 ^ 21)) as -> by (unfold entry64; lia). rewrite T3 by done.
    destruct (large_pde_fields (v / 2 ^ 21)) as (K1 & K2 & K3 & K4 & K5). rewrite K1, K2, K3, K4, K5. cbn [negb andb].
    eexists. split; [reflexivity|]. cbn. split; [|done]. apply (frame_address _ 21 31); [lia..| |done]. unfold fits. lia.
Qed.
End walk.

(** ** The property *)

Lemma layout_tables c s elf_sz opt l : sizes_ok c s elf_sz opt -> layout_fits c s elf_sz opt l -> ss_top s <= 2 ^ 48 ->
  vmm_pg_1G c = true \/ ss_top s <= 2 ^ 39 -> tables_at (vmm_pg_1G c) (ss_top s) (l_pml4 l) (l_pdp l) (vmm_pd c l).
Proof.
  intros Hz [Hp _ Hst Hen Ha _ _] Ht H1. unfold pieces in Hp. cbn [ascending] in Hp. change MB with 1048576 in Hst.
  assert (area_end (l_area l) < 2 ^ 52) as He.
  { rewrite Hen. pose proof (zo_area _ _ _ _ Hz). destruct (page_align_bounds (ss_area s)); [unfold fits; lia|]. unfold area_end_of. lia. }
  assert (forall p, (4096 | p) -> 0 < p -> p < 2 ^ 52 -> is_page p) as Hpage.
  { intros p [n ->] H0 H52. exists n. change (2 ^ 52) with (2 ^ 40 * 4096) in H52. lia. }
  change TABLE_SZ with 4096 in Hp. change (pc_pdp (vmm_pages c (ss_top s))) with (n512 (ss_top s)) in Hp.
  repeat (apply Forall_cons in Ha as [? Ha]). pose proof (zo_top _ _ _ _ Hz). split; [lia|done|..].
  - split; [apply Hpage; [done|lia..]|lia].
  - split; [apply Hpage; [done|lia..]|lia].
  - intros E. unfold vmm_pd. rewrite E. assert (pc_pd (vmm_pages c (ss_top s)) = n1G (ss_top s)) as En.
    { unfold vmm_pages, pmem_pg_predict. cbn [fst pc_pd]. by rewrite E. }
    rewrite En in Hp. split_and!; [apply Hpage; [done|lia..]|lia..].
Qed.

(** C23: in the layout of [pmem_init], the tables the vmm builds translate every
    address of the memory to itself, for the vmm only and writable, if pages
    of 1GB are used or the memory is of 512GB at most. *)
Theorem vmm_tables_identity c s elf_sz opt l cfg tbl v w : sizes_ok c s elf_sz opt -> pmem_layout c s elf_sz opt = Some l ->
  ss_top s <= 2 ^ 48 -> vmm_pg_1G c = true \/ ss_top s <= 2 ^ 39 ->
  cpu_pg_1G cfg = vmm_pg_1G c -> efer_nxe cfg = false -> area cfg = mk_area 0 0 -> 0 <= v < ss_top s ->
  let '(t, cr3) := vmm_pagemem_init (vmm_pg_1G c) (ss_top s) (l_pml4 l) (l_pdp l) (vmm_pd c l) tbl in
  exists w', pg_walk_lmode cfg (rd0 t) cr3 v w = (VM_DONE, w') /\ w_addr w' = v /\ w_w w' = true /\ w_u w' = false.
Proof.
  intros Hz El Ht H1 Hc Hx Ha Hv. destruct (pmem_layout_fits _ _ _ _ Hz) as (l' & E & Hl).
  rewrite El in E. injection E as <-. apply walk_identity; [by eapply layout_tables|done..].
Qed.

Definition ex_cfg64 (b1G : bool) : mmu_cfg := mk_mmu_cfg true false true false b1G (mk_area 0 0).
Definition ex_conf2 : conf := mk_conf false false true 4096 4208 9000 false.
Definition ex_l2 : layout := Eval vm_compute in default ex_l (pmem_layout ex_conf2 ex_st 24 (Some 5)).
Definition ex_w0 : pg_wlk := mk_wlk 0 0 0 false false false false PG_WALK_TYPE_PML4E.
Lemma ex_sizes2 : sizes_ok ex_conf2 ex_st 24 (Some 5).
Proof. split; try done. Qed.
Lemma vmm_tables_identity_witness :
  let '(t, cr3) := vmm_pagemem_init false 0x100000000 (l_pml4 ex_l2) (l_pdp ex_l2) (vmm_pd ex_conf2 ex_l2) ∅ in
  exists w', pg_walk_lmode (ex_cfg64 false) (rd0 t) cr3 0xb8000 ex_w0 = (VM_DONE, w') /\ w_addr w' = 0xb8000 /\ w_w w' = true /\ w_u w' = false.
Proof.
  refine (vmm_tables_identity ex_conf2 ex_st 24 (Some 5) ex_l2 (ex_cfg64 false) ∅ 0xb8000 ex_w0 ex_sizes2 _ _ _ _ _ _ _).
  - vm_compute. reflexivity.
  - vm_compute. discriminate.
  - right. vm_compute. discriminate.
  - reflexivity.
  - reflexivity.
  - reflexivity.
  - vm_compute. split; [discriminate|reflexivity].
Defined.

(** The directories are chosen by the index in their table only: each turn over
    the tables of 512GB fills the same first directory, from the page it has
    come to, so that beyond 512GB the last turn wins. *)
Lemma first_directory_refilled pml4 pdps pds s i : 0 <= i -> pml4 + 8 * i < pds -> pdps + i * 4096 + 4096 <= pds ->
  0 < ps_pd_nr s -> 0 < ps_pt_nr s ->
  rd0 (ps_tbl (map_pml4e false pml4 pdps pds s i)) pds = pg_set_large_pde VMM_PG_ATTR (ps_pfn s).
Proof.
  intros Hi H1 H2 Hn Ht. unfold map_pml4e. set (s0 := mk_pg_st _ _ _ _). change TABLE_SZ with 4096.
  assert (0 < ps_pt_nr s0) as H0 by done. change (ps_pd_nr (set_tbl _ _ s)) with (ps_pd_nr s). change (ps_pfn s) with (ps_pfn s0). clearbody s0.
  assert (forall s j, 0 <= j < 512 -> rd0 (ps_tbl (map_pdpe false (pdps + i * 4096) pds s j)) pds =
    if decide (j = 0 /\ 0 < ps_pt_nr s) then pg_set_large_pde VMM_PG_ATTR (ps_pfn s) else rd0 (ps_tbl s) pds) as Hstep.
  { clear s s0 Hn Ht H0. intros s j Hj. unfold map_pdpe, set_tbl. cbn [ps_tbl ps_pt_nr]. change TABLE_SZ with 4096.
    set (max := Z.min (ps_pt_nr s) 512). set (s1 := mk_pg_st _ _ _ _).
    assert (rd0 (ps_tbl s1) pds = rd0 (ps_tbl s) pds) as E1 by (unfold s1, entry64; cbn; rewrite rd0_insert, decide_False by lia; done).
    change (ps_pfn s) with (ps_pfn s1). clearbody s1. destruct (Z.le_gt_cases max 0).
    { rewrite decide_False by lia. by rewrite seqZ_nil by lia. }
    pose proof (fold_seqZ_ind (map_pde (pds + j * 4096)) (fun k x =>
      rd0 (ps_tbl x) pds = (if decide (j = 0 /\ 0 < k) then pg_set_large_pde VMM_PG_ATTR (ps_pfn s1) else rd0 (ps_tbl s1) pds) /\
      (k = 0 -> ps_pfn x = ps_pfn s1)) max s1) as Hf.
    destruct Hf as [Hf _]; [lia|by rewrite decide_False by lia| |].
    - intros k x Hk [IH1 IH2]. split; [|lia]. unfold map_pde, next_pfn, set_tbl, entry64. cbn [ps_tbl]. rewrite rd0_insert, IH1.
      repeat case_decide; try lia; try done. by rewrite IH2 by lia.
    - rewrite Hf, E1. apply decide_ext. lia. }
  pose proof (fold_seqZ_ind (map_pdpe false (pdps + i * 4096) pds) (fun j x =>
    if decide (j = 0) then x = s0 else rd0 (ps_tbl x) pds = pg_set_large_pde VMM_PG_ATTR (ps_pfn s0)) (Z.min (ps_pd_nr s) 512) s0) as Hf.
  cbv beta in Hf. rewrite (decide_False (P := Z.min (ps_pd_nr s) 512 = 0)) in Hf by lia. apply Hf; [lia|done|].
  intros j x Hj IH. rewrite decide_False by lia. rewrite Hstep by lia. destruct (decide (j = 0)) as [->|Hne].
  - subst x. by rewrite decide_True.
  - rewrite decide_False by lia. exact IH.
Qed.
