(* ===== verification/Net.v ===== *)
(** * The network stack (common/net/ether.c, arp.c, ip.c, icmp.c, udp.c, net.c)

    The remote control of the vmm talks udp over an ethernet card of its own.
    A packet is built in a buffer of the card, from the data outwards, and
    taken apart in place in the buffer it was received in.

    A buffer is the list of its bytes; an access outside of it has no result.
    The card is what the stack sees of it: a ring of transmit buffers, the
    packets sent, and the packets received and not read yet. *)

From S2P Require Import Prelude.
From S2P Require Import Monad.
From S2P Require Import Vm.
From S2P Require Import Words.
From S2P Require Import Str.

(** ** Packet buffers *)

Abbreviation PK := (M bytes).

Definition splice (off : nat) (bs buf : bytes) : bytes :=
  take off buf ++ bs ++ drop (off + length bs) buf.
Definition in_buf (buf : bytes) (off n : Z) : bool :=
  (0 <=? off) && (0 <=? n) && (off + n <=? Z.of_nat (length buf)).
Definition pk_wr (off : Z) (bs : bytes) : PK unit := fun buf =>
  if in_buf buf off (Z.of_nat (length bs)) then Some (tt, splice (Z.to_nat off) bs buf) else None.
Definition pk_rd (off n : Z) : PK bytes := fun buf =>
  if in_buf buf off n then Some (take (Z.to_nat n) (drop (Z.to_nat off) buf), buf) else None.

Definition pk_wr8 (off v : Z) : PK unit := pk_wr off (le_bytes 1 v).
Definition pk_wr16 (off v : Z) : PK unit := pk_wr off (le_bytes 2 v).
Definition pk_wr32 (off v : Z) : PK unit := pk_wr off (le_bytes 4 v).
Definition pk_get (off n : Z) : PK Z := bs ← pk_rd off n; mret (le_word bs).
Definition pk_fld (off lo w v : Z) : PK unit := b ← pk_get off 1; pk_wr8 off (set_bits b lo w v).

Definition swap32 (v : Z) : Z := le_word (reverse (le_bytes 4 v)).
(** A field turned from network order in place. *)
Definition pk_swap16 (off : Z) : PK unit := v ← pk_get off 2; pk_wr16 off (swap16 v).
Definition pk_swap32 (off : Z) : PK unit := v ← pk_get off 4; pk_wr32 off (swap32 v).

(** The 16-bit words the checksum reads. *)
Fixpoint words (bs : bytes) : list Z :=
  match bs with a :: b :: bs => le_word [a; b] :: words bs | _ => [] end.
Definition pk_checksum (off len : Z) : PK Z := bs ← pk_rd off len; mret (rfc1071_checksum (words bs) len).

(** ** Headers: sizes and offsets *)

Definition sizeof_mac : Z := 6.
Definition sizeof_eth_hdr : Z := 14.
Definition sizeof_arp_hdr : Z := 28.
Definition sizeof_ip_hdr : Z := 20.
Definition sizeof_icmp_hdr : Z := 8.
Definition sizeof_udp_hdr : Z := 8.
Definition sizeof_udp_phdr : Z := 12.
Definition HDR_FRAME_SZ : Z := sizeof_eth_hdr + sizeof_ip_hdr + sizeof_udp_hdr.
Definition ETHER_FRAME_SZ : Z := 1500.
Definition DATA_FRAME_SZ : Z := ETHER_FRAME_SZ - HDR_FRAME_SZ.
Definition RX_BUFF_SZ : Z := 2048.
Definition ETHER_TYPE_IP : Z := 0x0800.
Definition ETHER_TYPE_ARP : Z := 0x0806.
Definition ARP_TYPE_ETH : Z := 1.
Definition ARP_OP_REQUEST : Z := 1.
Definition ARP_OP_REPLY : Z := 2.
Definition ARP_CACHE_SZ : Z := 256.
Definition IP_PROTO_ICMP : Z := 1.
Definition IP_PROTO_UDP : Z := 17.
Definition ICMP_TYPE_ECHO_REPLY : Z := 0.
Definition ICMP_TYPE_ECHO_REQUEST : Z := 8.

(** ** Generation: each function writes one header and returns its size plus
    that of what follows it *)

Definition mac_rst (b : Z) : bytes := replicate 6 b.

Definition eth_gen (hdr : Z) (src dst : bytes) : PK Z :=
  pk_wr (hdr + 6) src ;; pk_wr hdr dst ;; mret sizeof_eth_hdr.
Definition eth_ip_pkt (hdr : Z) (src dst : bytes) : PK Z :=
  pk_wr16 (hdr + 12) (swap16 ETHER_TYPE_IP) ;; eth_gen hdr src dst.
Definition eth_arp_pkt (hdr : Z) (src dst : bytes) : PK Z :=
  pk_wr16 (hdr + 12) (swap16 ETHER_TYPE_ARP) ;; eth_gen hdr src dst.

Definition arp_op (hdr op : Z) (hwsrc hwdst : bytes) (src dst : Z) : PK Z :=
  pk_wr16 hdr (swap16 ARP_TYPE_ETH) ;; pk_wr16 (hdr + 2) (swap16 ETHER_TYPE_IP) ;;
  pk_wr8 (hdr + 4) sizeof_mac ;; pk_wr8 (hdr + 5) 4 ;; pk_wr16 (hdr + 6) (swap16 op) ;;
  pk_wr (hdr + 8) hwsrc ;; pk_wr (hdr + 18) hwdst ;;
  pk_wr32 (hdr + 14) (swap32 src) ;; pk_wr32 (hdr + 24) (swap32 dst) ;; mret sizeof_arp_hdr.
Definition arp_who_has_pkt (hdr : Z) := arp_op hdr ARP_OP_REQUEST.
Definition arp_is_at_pkt (hdr : Z) := arp_op hdr ARP_OP_REPLY.

Definition ip_checksum (hdr : Z) : PK unit :=
  pk_wr16 (hdr + 10) 0 ;; chk ← pk_checksum hdr sizeof_ip_hdr; pk_wr16 (hdr + 10) (swap16 chk).
Definition ip_gen (hdr src dst proto dlen : Z) : PK Z :=
  let len := wrap64 (sizeof_ip_hdr + dlen) in
  pk_fld hdr 4 4 4 ;; pk_fld hdr 0 4 (sizeof_ip_hdr / 4) ;;
  pk_fld (hdr + 1) 2 6 0 ;; pk_fld (hdr + 1) 0 2 0 ;;
  pk_wr8 (hdr + 8) 0xff ;; pk_wr8 (hdr + 9) proto ;;
  pk_wr16 (hdr + 6) 0 ;; pk_wr16 (hdr + 4) (swap16 1) ;; pk_wr16 (hdr + 2) (swap16 (wrap16 len)) ;;
  pk_wr32 (hdr + 12) (swap32 src) ;; pk_wr32 (hdr + 16) (swap32 dst) ;;
  ip_checksum hdr ;; mret len.

(** The pseudo-header of the checksum lies over the end of the ip header. *)
Definition ip_udp_pkt (hdr src dst dlen : Z) : PK Z :=
  let udp := hdr + sizeof_ip_hdr in
  let psd := udp - sizeof_udp_phdr in
  pk_wr32 psd (swap32 src) ;; pk_wr32 (psd + 4) (swap32 dst) ;; pk_wr8 (psd + 8) 0 ;;
  pk_wr8 (psd + 9) IP_PROTO_UDP ;; pk_wr16 (psd + 10) (swap16 (wrap16 dlen)) ;;
  let len := wrap64 (sizeof_udp_phdr + dlen) in
  len ← (if c_true (len mod 2) then pk_wr8 (psd + len) 0 ;; mret (wrap64 (len + 1)) else mret len);
  chk ← pk_checksum psd len;
  let chk := swap16 chk in
  pk_wr16 (udp + 6) chk ;;
  when (negb (c_true chk)) (pk_wr16 (udp + 6) (wnot 16 chk)) ;;
  ip_gen hdr src dst IP_PROTO_UDP dlen.
Definition ip_icmp_pkt (hdr src dst dlen : Z) : PK Z := ip_gen hdr src dst IP_PROTO_ICMP dlen.

Definition udp_pkt (hdr sport dport dlen : Z) : PK Z :=
  let len := wrap64 (sizeof_udp_hdr + dlen) in
  pk_wr16 hdr (swap16 sport) ;; pk_wr16 (hdr + 2) (swap16 dport) ;;
  pk_wr16 (hdr + 4) (swap16 (wrap16 len)) ;; pk_wr16 (hdr + 6) 0 ;; mret len.

Definition icmp_gen (hdr type code dlen : Z) : PK Z :=
  pk_wr8 hdr type ;; pk_wr8 (hdr + 1) code ;;
  let len := wrap64 (sizeof_icmp_hdr + dlen) in
  pk_wr16 (hdr + 2) 0 ;; chk ← pk_checksum hdr len; pk_wr16 (hdr + 2) (swap16 chk) ;; mret len.
Definition icmp_echo (hdr type id seq : Z) (data : bytes) : PK Z :=
  pk_wr16 (hdr + 4) (swap16 id) ;; pk_wr16 (hdr + 6) (swap16 seq) ;;
  pk_wr (hdr + sizeof_icmp_hdr) data ;; icmp_gen hdr type 0 (Z.of_nat (length data)).
Definition icmp_echo_request (hdr : Z) := icmp_echo hdr ICMP_TYPE_ECHO_REQUEST.
Definition icmp_echo_reply (hdr : Z) := icmp_echo hdr ICMP_TYPE_ECHO_REPLY.

(** ** State *)

(** The transmit side of the card: its ring of descriptors from the tail of the
    driver on, each with its buffer and its length; how many of them, the last
    ones, the card has yet to send; and what is on the wire.  The card works on
    its own: [t_pace] says how many packets it has sent each time the driver
    takes a buffer, none when there is nothing left in the list. *)
Record card := mk_card {
  t_ring : list (bytes * Z);
  t_pend : nat;
  t_pace : list nat;
  t_sent : list bytes;
}.
Definition TX_DESC_NR : Z := 16.

(** The card sends the packet of its oldest descriptor. *)
Definition card_one (c : card) : card :=
  match t_pend c with
  | O => c
  | S k =>
      match t_ring c !! (length (t_ring c) - S k)%nat with
      | Some (b, len) => mk_card (t_ring c) k (t_pace c) (t_sent c ++ [take (Z.to_nat len) b])
      | None => c
      end
  end.
Definition card_works (c : card) : card :=
  let c' := Nat.iter (hd 0%nat (t_pace c)) card_one c in
  mk_card (t_ring c') (t_pend c') (tail (t_pace c)) (t_sent c').

Record arp_ent := mk_arp { a_mac : bytes; a_ip : Z }.
Record net := mk_net {
  n_cache : list arp_ent;   (* [arp.cache], of [ARP_CACHE_SZ] entries *)
  n_tail : Z;
  n_mac : bytes;
  n_ip : Z;
  n_port : Z;
  n_peer_ip : Z;
  n_peer_port : Z;
  n_frame : bytes;          (* [frame] of [__net_read] *)
  n_card : card;
  n_rx : list (option bytes);   (* receive descriptors after the tail, in the
                               order of the ring, with what the card put there *)
}.

Definition with_cache c t s := mk_net c t (n_mac s) (n_ip s) (n_port s) (n_peer_ip s) (n_peer_port s) (n_frame s) (n_card s) (n_rx s).
Definition with_peer_port p s := mk_net (n_cache s) (n_tail s) (n_mac s) (n_ip s) (n_port s) (n_peer_ip s) p (n_frame s) (n_card s) (n_rx s).
Definition with_frame f s := mk_net (n_cache s) (n_tail s) (n_mac s) (n_ip s) (n_port s) (n_peer_ip s) (n_peer_port s) f (n_card s) (n_rx s).
Definition with_card c s := mk_net (n_cache s) (n_tail s) (n_mac s) (n_ip s) (n_port s) (n_peer_ip s) (n_peer_port s) (n_frame s) c (n_rx s).
Definition with_ring r s := let c := n_card s in with_card (mk_card r (t_pend c) (t_pace c) (t_sent c)) s.
Definition with_rx x s := mk_net (n_cache s) (n_tail s) (n_mac s) (n_ip s) (n_port s) (n_peer_ip s) (n_peer_port s) (n_frame s) (n_card s) x.

(** The packet under construction is the buffer of the descriptor of the tail;
    the one under dissection is the frame. *)
Definition on_pkt {A} (m : PK A) : M net A := fun s =>
  match t_ring (n_card s) with
  | (b, l) :: r => match m b with Some (x, b') => Some (x, with_ring ((b', l) :: r) s) | None => None end
  | [] => None
  end.
Definition on_frame {A} (m : PK A) : M net A := zoom n_frame with_frame m.

(** [net_tx_get_pktbuf]: whether there is a buffer, the card having worked in
    the meantime.  [net_send_pkt]: the length goes to the descriptor of the tail
    and the tail moves to the next one, without a look at the head of the card:
    when the tail comes back to it the card takes its ring for empty. *)
Definition net_tx_get_pktbuf : M net bool :=
  modify (fun s => with_card (card_works (n_card s)) s) ;;
  gets (fun s => match t_ring (n_card s) with [] => false | _ => true end).
Definition net_send_pkt (len : Z) : M net unit := modify (fun s =>
  let c := n_card s in
  match t_ring c with
  | (b, _) :: r =>
      with_card (mk_card (r ++ [(b, wrap16 len)]) (S (t_pend c) mod length (t_ring c)) (t_pace c) (t_sent c)) s
  | [] => s
  end).
(** [net_recv_pkt]: the length of the packet of the next descriptor, and the
    part of it that fits in the frame; 0 if there is none. The tail moves to
    that descriptor in both cases. *)
Definition net_recv_pkt (size : Z) : M net Z := fun s =>
  match n_rx s with
  | [] => None
  | None :: ds => Some (0, with_rx (ds ++ [None]) s)
  | Some p :: ds =>
      match pk_wr 0 (take (Z.to_nat size) p) (n_frame s) with
      | Some (_, f) => Some (Z.of_nat (length p), with_frame f (with_rx (ds ++ [None]) s))
      | None => None
      end
  end.

(** ** The cache of addresses (arp.c) *)

Definition arp_at (s : net) (i : Z) : arp_ent := nth (Z.to_nat i) (n_cache s) (mk_arp [] 0).
Definition arp_init : M net unit :=
  modify (with_cache (replicate (Z.to_nat ARP_CACHE_SZ) (mk_arp (mac_rst 0) 0)) 0).
Definition arp_end (s : net) : Z := if a_ip (arp_at s (n_tail s)) =? 0 then n_tail s else ARP_CACHE_SZ.
Definition arp_find (s : net) (ip : Z) : option Z :=
  snd <$> list_find (fun i => a_ip (arp_at s i) = ip) (seqZ 0 (arp_end s)).
Definition arp_set (i : Z) (e : arp_ent) : M net unit :=
  modify (fun s => with_cache (<[Z.to_nat i := e]> (n_cache s)) (n_tail s) s).
Definition arp_cache_update (ip : Z) (mac : bytes) : M net unit :=
  f ← gets (fun s => arp_find s ip);
  match f with
  | Some i =>
      e ← gets (fun s => arp_at s i);
      when (negb (bool_decide (a_mac e = mac))) (arp_set i (mk_arp mac (a_ip e)))
  | None =>
      t ← gets n_tail; arp_set t (mk_arp mac ip) ;;
      modify (fun s => with_cache (n_cache s) ((t + 1) mod ARP_CACHE_SZ) s)
  end.
Definition arp_cache_lookup (ip : Z) : M net (option bytes) :=
  gets (fun s => i ← arp_find s ip; Some (a_mac (arp_at s i))).

(** ** Packets (net.c) *)

Definition net_gen_eth_ip_pkt (mac : bytes) (pkt : Z) : M net Z := src ← gets n_mac; on_pkt (eth_ip_pkt pkt src mac).
Definition net_gen_eth_arp_pkt (mac : bytes) (pkt : Z) : M net Z := src ← gets n_mac; on_pkt (eth_arp_pkt pkt src mac).
Definition net_gen_arp_pkt (builder : Z -> bytes -> bytes -> Z -> Z -> PK Z) (mac : bytes) (pkt : Z) (hs hd : bytes) (s d : Z) : M net Z :=
  n ← net_gen_eth_arp_pkt mac pkt; k ← on_pkt (builder (pkt + sizeof_eth_hdr) hs hd s d); mret (n + k).
Definition net_gen_arp_who_has_pkt (ip pkt : Z) : M net Z :=
  src ← gets n_mac; sip ← gets n_ip; net_gen_arp_pkt arp_who_has_pkt (mac_rst 0xff) pkt src (mac_rst 0) sip ip.
Definition net_gen_arp_is_at_pkt (mac : bytes) (ip pkt : Z) : M net Z :=
  src ← gets n_mac; sip ← gets n_ip; net_gen_arp_pkt arp_is_at_pkt mac pkt src mac sip ip.

Definition net_gen_ip_pkt (builder : Z -> Z -> Z -> Z -> PK Z) (src dst pkt dlen : Z) : M net Z :=
  mac ← arp_cache_lookup dst;
  match mac with
  | None => mret 0
  | Some mac => n ← net_gen_eth_ip_pkt mac pkt; k ← on_pkt (builder (pkt + sizeof_eth_hdr) src dst dlen); mret (n + k)
  end.
Definition net_gen_icmp_pkt (builder : Z -> Z -> Z -> bytes -> PK Z) (ip pkt id seq : Z) (data : bytes) : M net Z :=
  dlen ← on_pkt (builder (pkt + sizeof_eth_hdr + sizeof_ip_hdr) id seq data);
  src ← gets n_ip; net_gen_ip_pkt ip_icmp_pkt src ip pkt dlen.
Definition net_gen_pong_pkt (ip pkt id seq : Z) (data : bytes) : M net Z :=
  net_gen_icmp_pkt icmp_echo_reply ip pkt id seq data.
Definition net_gen_ping_pkt (ip pkt seq : Z) : M net Z :=
  net_gen_icmp_pkt icmp_echo_request ip pkt 0x1337 seq [114; 97; 109; 48; 48; 102; 108; 97; 120; 33].
Definition net_gen_udp_pkt (ip port pkt dlen : Z) : M net Z :=
  sport ← gets n_port;
  k ← on_pkt (udp_pkt (pkt + sizeof_eth_hdr + sizeof_ip_hdr) sport port dlen);
  src ← gets n_ip; net_gen_ip_pkt ip_udp_pkt src ip pkt k.

(** ** Dissection *)

Inductive net_dissect := NET_DISSECT_FAIL | NET_DISSECT_OK | NET_DISSECT_IGN | NET_DISSECT_UDP.
(** With the data of a udp packet: where it is and its size. *)
Definition dissected : Type := net_dissect * option (Z * Z).

Definition arp_dissect_who_has (hdr : Z) : M net dissected :=
  psrc ← on_frame (pk_get (hdr + 14) 4); hwsrc ← on_frame (pk_rd (hdr + 8) 6);
  arp_cache_update psrc hwsrc ;;
  pdst ← on_frame (pk_get (hdr + 24) 4); ip ← gets n_ip;
  if negb (pdst =? ip) then mret (NET_DISSECT_IGN, None) else
  pkt ← net_tx_get_pktbuf;
  if negb pkt then mret (NET_DISSECT_FAIL, None) else
  len ← net_gen_arp_is_at_pkt hwsrc psrc 0;
  net_send_pkt len ;; mret (NET_DISSECT_OK, None).
Definition arp_dissect_is_at (hdr : Z) : M net dissected :=
  psrc ← on_frame (pk_get (hdr + 14) 4); hwsrc ← on_frame (pk_rd (hdr + 8) 6);
  arp_cache_update psrc hwsrc ;; mret (NET_DISSECT_OK, None).
Definition arp_dissect (hdr len : Z) : M net dissected :=
  on_frame (pk_swap16 (hdr + 6)) ;; on_frame (pk_swap16 hdr) ;; on_frame (pk_swap16 (hdr + 2)) ;;
  hwtype ← on_frame (pk_get hdr 2); proto ← on_frame (pk_get (hdr + 2) 2);
  if negb (hwtype =? ARP_TYPE_ETH) || negb (proto =? ETHER_TYPE_IP) then mret (NET_DISSECT_FAIL, None) else
  on_frame (pk_swap32 (hdr + 14)) ;; on_frame (pk_swap32 (hdr + 24)) ;;
  op ← on_frame (pk_get (hdr + 6) 2);
  if op =? ARP_OP_REQUEST then arp_dissect_who_has hdr
  else if op =? ARP_OP_REPLY then arp_dissect_is_at hdr
  else mret (NET_DISSECT_IGN, None).

Definition icmp_dissect (ip hdr len : Z) : M net dissected :=
  type ← on_frame (pk_get hdr 1);
  if type =? ICMP_TYPE_ECHO_REQUEST then
    pkt ← net_tx_get_pktbuf;
    if negb pkt then mret (NET_DISSECT_FAIL, None) else
    on_frame (pk_swap16 (hdr + 4)) ;; on_frame (pk_swap16 (hdr + 6)) ;;
    id ← on_frame (pk_get (hdr + 4) 2); seq ← on_frame (pk_get (hdr + 6) 2);
    data ← on_frame (pk_rd (hdr + sizeof_icmp_hdr) (wrap64 (len - sizeof_icmp_hdr)));
    rlen ← net_gen_pong_pkt ip 0 id seq data;
    if rlen =? 0 then mret (NET_DISSECT_FAIL, None) else
    net_send_pkt rlen ;; mret (NET_DISSECT_OK, None)
  else mret (NET_DISSECT_IGN, None).

Definition udp_dissect (hdr len : Z) : M net dissected :=
  on_frame (pk_swap16 hdr) ;; on_frame (pk_swap16 (hdr + 2)) ;; on_frame (pk_swap16 (hdr + 4)) ;;
  hlen ← on_frame (pk_get (hdr + 4) 2);
  let rcv := (hdr + sizeof_udp_hdr, wrap64 (Z.min len hlen - sizeof_udp_hdr)) in
  dst ← on_frame (pk_get (hdr + 2) 2); port ← gets n_port;
  if negb (dst =? port) then mret (NET_DISSECT_IGN, Some rcv) else
  src ← on_frame (pk_get hdr 2); peer ← gets n_peer_port;
  when (negb (peer =? src)) (modify (with_peer_port src)) ;;
  mret (NET_DISSECT_UDP, Some rcv).

Definition ip_dissect (hdr len : Z) : M net dissected :=
  b ← on_frame (pk_get hdr 1);
  if negb (bits b 4 4 =? 4) then mret (NET_DISSECT_FAIL, None) else
  on_frame (pk_swap16 (hdr + 6)) ;; on_frame (pk_swap16 (hdr + 4)) ;; on_frame (pk_swap16 (hdr + 2)) ;;
  on_frame (pk_swap32 (hdr + 12)) ;; on_frame (pk_swap32 (hdr + 16)) ;;
  proto ← on_frame (pk_get (hdr + 9) 1); src ← on_frame (pk_get (hdr + 12) 4);
  let len := wrap64 (len - sizeof_ip_hdr) in
  if proto =? IP_PROTO_ICMP then icmp_dissect src (hdr + sizeof_ip_hdr) len
  else if proto =? IP_PROTO_UDP then udp_dissect (hdr + sizeof_ip_hdr) len
  else mret (NET_DISSECT_IGN, None).

Definition eth_dissect (pkt len : Z) : M net dissected :=
  on_frame (pk_swap16 (pkt + 12)) ;;
  type ← on_frame (pk_get (pkt + 12) 2);
  let len := wrap64 (len - sizeof_eth_hdr) in
  if type =? ETHER_TYPE_ARP then arp_dissect (pkt + sizeof_eth_hdr) len
  else if type =? ETHER_TYPE_IP then ip_dissect (pkt + sizeof_eth_hdr) len
  else mret (NET_DISSECT_IGN, None).

(** ** Reading and writing (net.c) *)

Definition net_write_one (data : bytes) : M net Z :=
  pkt ← net_tx_get_pktbuf;
  if negb pkt then mret 0 else
  on_pkt (pk_wr HDR_FRAME_SZ data) ;;
  ip ← gets n_peer_ip; port ← gets n_peer_port;
  len ← net_gen_udp_pkt ip port 0 (Z.of_nat (length data));
  if len =? 0 then mret 0 else
  net_send_pkt len ;; mret (Z.of_nat (length data)).

(** The loop over the full frames: what is left of the data, and the count. *)
Fixpoint net_write_loop (times : nat) (data : bytes) (cnt : Z) : M net (bytes * Z) :=
  match times with
  | O => mret (data, cnt)
  | S times =>
      sz ← net_write_one (take (Z.to_nat DATA_FRAME_SZ) data);
      net_write_loop times (drop (Z.to_nat sz) data) (cnt + sz)
  end.
Definition net_write (data : bytes) : M net Z :=
  let len := Z.of_nat (length data) in
  let last := len mod DATA_FRAME_SZ in
  r ← net_write_loop (Z.to_nat (len / DATA_FRAME_SZ)) data 0;
  if c_true last then sz ← net_write_one (take (Z.to_nat last) r.1); mret (r.2 + sz)
  else mret r.2.

Definition net_read_one (size : Z) : M net bytes :=
  len ← net_recv_pkt RX_BUFF_SZ;
  if len =? 0 then mret [] else
  d ← eth_dissect 0 len;
  match d with
  | (NET_DISSECT_UDP, Some (data, sz)) =>
      let len := Z.min size sz in
      if c_true len then on_frame (pk_rd data len) else mret []
  | _ => mret []
  end.
(** The count comes last: the bytes it counts are the front of the buffer, that
    [buf] is written to at [cnt]. *)
Fixpoint net_read_loop (times : nat) (buf : bytes) : M net (bytes * bool) :=
  match times with
  | O => mret (buf, true)
  | S times =>
      d ← net_read_one DATA_FRAME_SZ;
      if Z.of_nat (length d) <? DATA_FRAME_SZ then mret (buf, false)
      else net_read_loop times (buf ++ d)
  end.
Definition net_read (len : Z) : M net bytes :=
  let last := len mod DATA_FRAME_SZ in
  r ← net_read_loop (Z.to_nat (len / DATA_FRAME_SZ)) [];
  if negb r.2 then mret r.1
  else if c_true last then d ← net_read_one last; mret (r.1 ++ d)
  else mret r.1.

(** ** Addresses as text (ip.c) *)

Definition IP_STR_SZ : Z := 16.
Definition ip_bytes (ip : Z) : list Z := (fun i => bits ip (24 - 8 * i) 8) <$> seqZ 0 4.
(** "%d.%d.%d.%d" *)
Definition ip_str (ip : Z) : option bytes :=
  vsnprintf IP_STR_SZ [37; 100; 46; 37; 100; 46; 37; 100; 46; 37; 100] (VInt <$> ip_bytes ip).

Definition DOT : Z := 46.
(** The digits before the next dot, and whether there is one. *)
Fixpoint to_dot (str : bytes) : bytes * option bytes :=
  match str with
  | [] => ([], None)
  | c :: str => if c =? DOT then ([], Some str) else let r := to_dot str in (c :: r.1, r.2)
  end.
Definition ip_part (digits : bytes) : option Z :=
  x ← dec_to_uint64 digits; if 255 <? x then None else Some x.
(** [m] numbers that end with a dot, then the last one. *)
Fixpoint ip_from_loop (m : nat) (str : bytes) (ip : Z) : option Z :=
  match m with
  | O => x ← ip_part str; Some (Z.lor ip x)
  | S m' =>
      match to_dot str with
      | (digits, Some str) =>
          x ← ip_part digits; ip_from_loop m' str (wrap32 (Z.lor ip (Z.shiftl x (8 * Z.of_nat m))))
      | (_, None) => None
      end
  end.
(** [str] without its final zero. *)
Definition ip_from_str (str : bytes) : option Z := ip_from_loop 3 (take 15 str) 0.
