(* ===== verification/NetSem.v ===== *)
(** * What goes over the network

    A write becomes packets whose checksums a receiver accepts and that the
    same stack, at the other end, takes apart into the data written; the cache
    of addresses is a bounded queue of the last addresses learnt. *)

From S2P Require Import Prelude.
From S2P Require Import Monad.
From S2P Require Import Vm.
From S2P Require Import Words.
From S2P Require Import Str.
From S2P Require Import Net.

(** ** Words of bytes *)

Definition be16 (v : Z) : bytes := [bits v 8 8; bits v 0 8].
Definition be32 (v : Z) : bytes := [bits v 24 8; bits v 16 8; bits v 8 8; bits v 0 8].

Lemma byte_eq a : fits 8 a -> bits a 0 8 = a.
Proof. intros Ha. rewrite bits_div_mod by done. rewrite Z.div_1_r. by apply Z.mod_small. Qed.

Lemma le_word2 a b : le_word [a; b] = a + 256 * b.
Proof. simpl. lia. Qed.
Lemma le_word2_fits a b : fits 8 a -> fits 8 b -> fits 16 (le_word [a; b]).
Proof. unfold fits. rewrite le_word2. change (2 ^ 8) with 256. change (2 ^ 16) with 65536. lia. Qed.
Lemma bits_le_word2 a b : fits 8 a -> fits 8 b -> bits (le_word [a; b]) 0 8 = a /\ bits (le_word [a; b]) 8 8 = b.
Proof.
  intros Ha Hb. rewrite le_word2, !bits_div_mod by done. unfold fits in *. change (2 ^ 0) with 1. change (2 ^ 8) with 256 in *.
  rewrite Z.div_1_r, (Z.mul_comm 256 b), Z.mod_add, Z.div_add, (Z.div_small a) by lia. rewrite !Z.mod_small by lia. lia.
Qed.
Lemma swap16_le a b : fits 8 a -> fits 8 b -> swap16 (le_word [a; b]) = le_word [b; a].
Proof.
  intros Ha Hb. rewrite swap16_arith by (by apply le_word2_fits). rewrite !le_word2. unfold fits in *. change (2 ^ 8) with 256 in *.
  rewrite (Z.mul_comm 256 b), Z.div_add, Z.mod_add, (Z.div_small a), (Z.mod_small a) by lia. lia.
Qed.
Lemma le_bytes2 v : le_bytes 2 v = [bits v 0 8; bits v 8 8].
Proof. done. Qed.
Lemma bits_word v : fits 16 v -> le_word [bits v 0 8; bits v 8 8] = v.
Proof.
  intros Hv. rewrite le_word2, !bits_div_mod by done. unfold fits in Hv. change (2 ^ 0) with 1. change (2 ^ 8) with 256.
  change (2 ^ 16) with 65536 in Hv. rewrite Z.div_1_r, (Z.mod_small (v / 256)) by (split; [apply Z.div_pos|apply Z.div_lt_upper_bound]; lia).
  pose proof (Z.div_mod v 256). lia.
Qed.
Lemma byte_fits v i : 0 <= i -> fits 8 (bits v i 8).
Proof. intros. by apply bits_fits. Qed.
Lemma le_word_be16 v : fits 16 v -> le_word (be16 v) = swap16 v.
Proof.
  intros Hv. unfold be16. rewrite <- (bits_word v Hv) at 3. rewrite swap16_le by (by apply byte_fits). done.
Qed.
Lemma le_bytes_swap v : fits 16 v -> le_bytes 2 (swap16 v) = be16 v.
Proof.
  intros Hv. rewrite <- le_word_be16 by done. unfold be16. rewrite le_bytes2.
  destruct (bits_le_word2 (bits v 8 8) (bits v 0 8)) as [-> ->]; [by apply byte_fits..|done].
Qed.
Lemma swap_back v : fits 16 v -> swap16 (le_word (be16 v)) = v.
Proof. intros Hv. rewrite le_word_be16 by done. by apply swap16_swap16. Qed.

Lemma le_word4 a b c d : le_word [a; b; c; d] = a + 256 * b + 65536 * c + 16777216 * d.
Proof. simpl. lia. Qed.
Lemma digit_at x p q a r : x = (q * 256 + a) * p + r -> 0 <= r < p -> 0 <= a < 256 -> (x / p) mod 256 = a.
Proof.
  intros -> Hr Ha. rewrite Z.div_add_l, (Z.div_small r), Z.add_0_r, Z.add_comm, Z.mod_add by lia. by apply Z.mod_small.
Qed.
Lemma bits_le_word4 a b c d : fits 8 a -> fits 8 b -> fits 8 c -> fits 8 d ->
  le_bytes 4 (le_word [a; b; c; d]) = [a; b; c; d].
Proof.
  intros Ha Hb Hc Hd. change (le_bytes 4 (le_word [a; b; c; d])) with
    [bits (le_word [a; b; c; d]) 0 8; bits (le_word [a; b; c; d]) 8 8; bits (le_word [a; b; c; d]) 16 8; bits (le_word [a; b; c; d]) 24 8].
  rewrite !bits_div_mod by done. rewrite le_word4. unfold fits in *. change (2 ^ 8) with 256 in *. change (2 ^ 0) with 1.
  change (2 ^ 16) with 65536. change (2 ^ 24) with 16777216.
  rewrite (digit_at _ 1 (b + 256 * c + 65536 * d) a 0), (digit_at _ 256 (c + 256 * d) b a),
    (digit_at _ 65536 d c (a + 256 * b)), (digit_at _ 16777216 0 d (a + 256 * b + 65536 * c)) by lia. done.
Qed.
Lemma le_bytes_swap32 v : le_bytes 4 (swap32 v) = be32 v.
Proof.
  unfold swap32. change (reverse (le_bytes 4 v)) with [bits v 24 8; bits v 16 8; bits v 8 8; bits v 0 8].
  by apply bits_le_word4; apply byte_fits.
Qed.

(** The words of a buffer of bytes. *)
Lemma words_app k pre post : length pre = (2 * k)%nat -> words (pre ++ post) = words pre ++ words post.
Proof.
  revert pre. induction k as [|k IH]; intros [|a [|b pre]] Hl; try (simpl in Hl; lia); [done|].
  cbn [words app]. f_equal. apply IH. simpl in Hl. lia.
Qed.
Lemma words_le_word n bs : (length bs <= n)%nat -> Forall (fits 8) bs ->
  Forall (fits 16) (words bs) /\ length (words bs) = (length bs / 2)%nat.
Proof.
  revert bs. induction n as [|n IH]; intros [|a [|b bs]] Hl Hf; try (simpl in Hl; lia); try (by split).
  apply Forall_cons in Hf as [Ha [Hb Hf]%Forall_cons]. simpl in Hl. destruct (IH bs) as [H1 H2]; [lia|done|].
  cbn [words length]. split.
  - constructor; [by apply le_word2_fits|done].
  - rewrite H2. replace (S (S (length bs))) with (length bs + 1 * 2)%nat by lia. rewrite Nat.div_add by lia. lia.
Qed.

(** A checksum that is right, or the other zero in its place. *)
Lemma sum_ok pre post w len : Forall (fits 16) pre -> Forall (fits 16) post -> fits 16 w ->
  len = 2 * Z.of_nat (length (pre ++ 0 :: post)) -> len <= 131072 ->
  let c := rfc1071_checksum (pre ++ 0 :: post) len in
  (swap16 w = c \/ c = 0 /\ swap16 w = 65535) -> rfc1071_checksum (pre ++ w :: post) len = 0.
Proof.
  intros Hpre Hpost Hw -> Hl c Hc.
  assert (forall x, fits 16 x -> Forall (fits 16) (pre ++ x :: post)) as Hf by (intros x Hx; apply Forall_app; auto).
  destruct (rfc1071_residue (pre ++ 0 :: post)) as (_ & Hm & Hn); [by apply Hf|lia|]. fold c in Hm, Hn.
  assert (words_sum (pre ++ w :: post) = words_sum (pre ++ 0 :: post) + swap16 w) as E.
  { rewrite !words_sum_app. simpl. change (swap16 0) with 0. lia. }
  assert (length (pre ++ 0 :: post) = length (pre ++ w :: post)) as El by (rewrite !length_app; done).
  rewrite El in *. apply rfc1071_zero; [by apply Hf|lia|rewrite E|rewrite E].
  - pose proof (words_sum_bound _ (Hf 0 ltac:(done))). pose proof (swap16_fits w Hw). unfold fits in *. lia.
  - destruct Hc as [->|[Ec ->]]; [done|]. rewrite Ec, Z.add_0_r in Hm.
    replace (words_sum (pre ++ 0 :: post) + 65535) with (words_sum (pre ++ 0 :: post) + 1 * 65535) by lia.
    by rewrite Z.mod_add by lia.
Qed.

(** ** Headers *)

Definition ip_head (src dst proto len c : Z) : bytes :=
  [69; 0] ++ be16 len ++ be16 1 ++ [0; 0] ++ [255; proto] ++ be16 c ++ be32 src ++ be32 dst.
Definition ip_sum (src dst proto len : Z) : Z := rfc1071_checksum (words (ip_head src dst proto len 0)) 20.
Lemma ip_sum_eq src dst proto len : ip_sum src dst proto len = rfc1071_checksum (words (ip_head src dst proto len 0)) 20.
Proof. by unfold ip_sum. Qed.

Lemma be16_fits v : Forall (fits 8) (be16 v).
Proof. repeat constructor; by apply byte_fits. Qed.
Lemma be32_fits v : Forall (fits 8) (be32 v).
Proof. repeat constructor; by apply byte_fits. Qed.

Lemma words_be16 c bs : fits 16 c -> words (be16 c ++ bs) = swap16 c :: words bs.
Proof. intros Hc. rewrite <- le_word_be16 by done. done. Qed.

Lemma ip_head_words src dst proto len c : fits 16 c -> words (ip_head src dst proto len c) =
  words ([69; 0] ++ be16 len ++ be16 1 ++ [0; 0; 255; proto]) ++ swap16 c :: words (be32 src ++ be32 dst).
Proof.
  intros Hc. rewrite <- words_be16 by done. by rewrite <- (words_app 5) by done.
Qed.
Lemma words_fits bs : Forall (fits 8) bs -> Forall (fits 16) (words bs).
Proof. intros Hf. by apply (words_le_word (length bs)). Qed.

Lemma ip_sum_ok src dst proto len : fits 8 proto ->
  fits 16 (ip_sum src dst proto len) /\
  rfc1071_checksum (words (ip_head src dst proto len (ip_sum src dst proto len))) 20 = 0.
Proof.
  intros Hp. assert (Forall (fits 8) ([69; 0] ++ be16 len ++ be16 1 ++ [0; 0; 255; proto])) as F1.
  { repeat (apply Forall_app; split); try apply be16_fits; repeat constructor; done || apply Hp. }
  assert (Forall (fits 8) (be32 src ++ be32 dst)) as F2 by (apply Forall_app; split; apply be32_fits).
  set (P := words ([69; 0] ++ be16 len ++ be16 1 ++ [0; 0; 255; proto])). set (Q := words (be32 src ++ be32 dst)).
  assert (Forall (fits 16) P) as FP by by apply words_fits. assert (Forall (fits 16) Q) as FQ by by apply words_fits.
  assert (20 = 2 * Z.of_nat (length (P ++ 0 :: Q))) as El.
  { subst P Q. by vm_compute. }
  assert (ip_sum src dst proto len = rfc1071_checksum (P ++ 0 :: Q) 20) as E.
  { unfold ip_sum. by rewrite ip_head_words. }
  assert (forall c, fits 16 c -> words (ip_head src dst proto len c) = P ++ swap16 c :: Q) as Ew by apply ip_head_words.
  clearbody P Q. destruct (rfc1071_residue (P ++ 0 :: Q)) as (Hs & _ & _); [apply Forall_app; by split; [|constructor]|lia|].
  rewrite <- El, <- E in Hs. split; [done|]. rewrite (Ew _ Hs). apply sum_ok; try done.
  - by apply swap16_fits.
  - left. by rewrite swap16_swap16, E.
Qed.

Definition udp_head (sport dport len c : Z) : bytes := be16 sport ++ be16 dport ++ be16 len ++ be16 c.
Definition udp_phead (src dst len : Z) : bytes := be32 src ++ be32 dst ++ [0; IP_PROTO_UDP] ++ be16 len.
(** The data, padded to whole words. *)
Definition padded (data : bytes) : bytes := if Nat.even (length data) then data else data ++ [0].
Definition udp_words (src dst sport dport c : Z) (data : bytes) : list Z :=
  let len := sizeof_udp_hdr + Z.of_nat (length data) in
  words (udp_phead src dst len ++ udp_head sport dport len c ++ padded data).
Definition udp_size (data : bytes) : Z := 20 + Z.of_nat (length (padded data)).
Definition udp_sum (src dst sport dport : Z) (data : bytes) : Z :=
  let c := rfc1071_checksum (udp_words src dst sport dport 0 data) (udp_size data) in
  if c =? 0 then 0xffff else c.

Lemma udp_words_split src dst sport dport c data : fits 16 c ->
  let len := sizeof_udp_hdr + Z.of_nat (length data) in
  udp_words src dst sport dport c data =
  words (udp_phead src dst len ++ be16 sport ++ be16 dport ++ be16 len) ++ swap16 c :: words (padded data).
Proof.
  intros Hc len. rewrite <- words_be16 by done. rewrite <- (words_app 9) by done. unfold udp_words, udp_head.
  by rewrite <- !app_assoc.
Qed.

Lemma padded_even data : exists k, length (padded data) = (2 * k)%nat.
Proof.
  unfold padded. destruct (Nat.even (length data)) eqn:E.
  - by apply Nat.even_spec in E.
  - rewrite length_app. cbn [length]. apply Nat.even_spec. by rewrite Nat.add_1_r, Nat.even_succ, <- Nat.negb_even, E.
Qed.
Lemma padded_fits data : Forall (fits 8) data -> Forall (fits 8) (padded data).
Proof. intros Hf. unfold padded. case_match; [done|]. apply Forall_app. split; [done|by repeat constructor]. Qed.
Lemma padded_length data : (length data <= length (padded data) <= S (length data))%nat.
Proof. unfold padded. case_match; [lia|]. rewrite length_app. simpl. lia. Qed.

Lemma udp_sum_ok src dst sport dport data : Forall (fits 8) data -> Z.of_nat (length data) <= 65535 ->
  fits 16 (udp_sum src dst sport dport data) /\
  rfc1071_checksum (udp_words src dst sport dport (udp_sum src dst sport dport data) data) (udp_size data) = 0.
Proof.
  intros Hf Hl. set (len := sizeof_udp_hdr + Z.of_nat (length data)).
  assert (Forall (fits 8) (udp_phead src dst len ++ be16 sport ++ be16 dport ++ be16 len)) as F1.
  { unfold udp_phead. repeat (apply Forall_app; split); try apply be16_fits; try apply be32_fits; repeat constructor; done. }
  pose proof (words_fits _ (padded_fits data Hf)) as F2. destruct (padded_even data) as [k Hk]. pose proof (padded_length data) as Hp.
  assert (udp_size data = 2 * Z.of_nat (length (words (udp_phead src dst len ++ be16 sport ++ be16 dport ++ be16 len) ++ 0 :: words (padded data)))) as Es.
  { rewrite length_app. cbn [length]. destruct (words_le_word _ (padded data) (le_n _) (padded_fits data Hf)) as [_ ->].
    unfold udp_size. rewrite Hk, (Nat.mul_comm 2 k), Nat.div_mul by done. change (length (words _)) with 9%nat. lia. }
  assert (fits 16 (udp_sum src dst sport dport data)) as Hs.
  { unfold udp_sum. case_match; [done|]. rewrite udp_words_split by done. change (swap16 0) with 0. fold len. rewrite Es.
    rewrite Es in *. match type of Es with _ = 2 * Z.of_nat (length ?ws) => destruct (rfc1071_residue ws) as (Hs & _ & _) end; [| |exact Hs].
    - apply Forall_app. split; [by apply words_fits|]. by constructor.
    - unfold udp_size in Es. lia. }
  split; [done|]. rewrite udp_words_split by done. fold len. apply sum_ok; try done.
  - by apply words_fits.
  - by apply swap16_fits.
  - unfold udp_size. lia.
  - rewrite swap16_swap16 by done. unfold udp_sum. rewrite udp_words_split by done. fold len. change (swap16 0) with 0.
    destruct (_ =? 0) eqn:E; [right; split; [by apply Z.eqb_eq|done]|by left].
Qed.

(** ** Writing the headers

    A packet is a header of 42 bytes and the rest; [h] is always a list of
    constant length, on which the accesses compute. *)

Definition inside (h : bytes) (off n : Z) : Prop := 0 <= off /\ 0 <= n /\ off + n <= Z.of_nat (length h).
Lemma inside_app h t off n : inside h off n -> in_buf (h ++ t) off n = true.
Proof. unfold inside, in_buf. rewrite length_app. intros. rewrite !andb_true_iff, !Z.leb_le. lia. Qed.

Lemma wp_wr h t off bs Q : inside h off (Z.of_nat (length bs)) -> Q tt (splice (Z.to_nat off) bs h ++ t) ->
  wp (pk_wr off bs) (h ++ t) Q.
Proof.
  intros Hi HQ. unfold wp, pk_wr. rewrite inside_app by done. destruct Hi as (H1 & H2 & H3).
  assert (splice (Z.to_nat off) bs (h ++ t) = splice (Z.to_nat off) bs h ++ t) as ->; [|done].
  unfold splice. rewrite take_app_le, drop_app_le by lia. by rewrite <- !app_assoc.
Qed.
Lemma wp_rd h t off n Q : inside h off n -> Q (take (Z.to_nat n) (drop (Z.to_nat off) h)) (h ++ t) ->
  wp (pk_rd off n) (h ++ t) Q.
Proof.
  intros Hi HQ. unfold wp, pk_rd. rewrite inside_app by done. destruct Hi as (H1 & H2 & H3).
  rewrite drop_app_le by lia. rewrite take_app_le by (rewrite length_drop; lia). done.
Qed.

(** [splice] and reads at constant offsets of a list of constant length. *)
Ltac pk_eval :=
  repeat match goal with
  | |- context [Z.to_nat ?o] => let n := eval vm_compute in (Z.to_nat o) in progress change (Z.to_nat o) with n
  end;
  repeat match goal with
  | |- context [splice ?n ?bs ?h] =>
      let x := eval cbv [splice firstn skipn app length Nat.add be16 be32] in (splice n bs h) in change (splice n bs h) with x
  | |- context [firstn ?n (skipn ?k ?h)] =>
      let x := eval cbv [firstn skipn] in (firstn n (skipn k h)) in change (firstn n (skipn k h)) with x
  end.
Ltac pk_wr := apply wp_wr; [by split_and!|]; pk_eval.
Ltac pk_rd := apply wp_rd; [by split_and!|]; pk_eval.
Ltac pk_done H := cbv [firstn skipn app udp_head ip_head be16 be32] in H |- *; exact H.
Ltac bytes_of h Hh := repeat (destruct h as [|?b h]; [discriminate Hh|]); destruct h; [clear Hh|discriminate Hh].

Lemma wp_udp_pkt h t sport dport dlen Q : length h = 42%nat -> fits 16 sport -> fits 16 dport -> 0 <= dlen <= 65000 ->
  Q (8 + dlen) ((take 34 h ++ udp_head sport dport (8 + dlen) 0) ++ t) -> wp (udp_pkt 34 sport dport dlen) (h ++ t) Q.
Proof.
  intros Hh Hs Hd Hn HQ. unfold udp_pkt. bytes_of h Hh.
  assert (wrap64 (sizeof_udp_hdr + dlen) = 8 + dlen) as -> by (apply wrap_id; unfold fits, sizeof_udp_hdr; lia).
  assert (fits 16 (8 + dlen)) as Hl by (unfold fits; lia). cbv zeta.
  unfold pk_wr16. rewrite (wrap_id 16) by done. rewrite !le_bytes_swap by done.
  change (le_bytes 2 0) with (be16 0). do 4 (apply wp_bind; pk_wr). apply wp_ret. pk_done HQ.
Qed.

Lemma le_byte v : fits 8 v -> le_bytes 1 v = [v].
Proof. intros Hv. change (le_bytes 1 v) with [bits v 0 8]. by rewrite byte_eq. Qed.

Lemma wp_eth_ip h t src dst Q : length h = 42%nat -> length src = 6%nat -> length dst = 6%nat ->
  Q 14 ((dst ++ src ++ be16 ETHER_TYPE_IP ++ drop 14 h) ++ t) -> wp (eth_ip_pkt 0 src dst) (h ++ t) Q.
Proof.
  intros Hh Hs Hd HQ. unfold eth_ip_pkt, eth_gen, pk_wr16. bytes_of h Hh. bytes_of src Hs. bytes_of dst Hd.
  rewrite le_bytes_swap by done. do 3 (apply wp_bind; pk_wr). apply wp_ret. pk_done HQ.
Qed.

(** Two fields that cover a byte. *)
Lemma fields_of_byte x lo v v' : 0 < lo -> lo < 8 -> fits (8 - lo) v -> fits lo v' ->
  bits (set_bits (le_word [bits (set_bits (le_word [x]) lo (8 - lo) v) 0 8]) 0 lo v') 0 8 = v * 2 ^ lo + v'.
Proof.
  intros H1 H2 Hv Hv'. cbn [le_word foldr]. rewrite !Z.add_0_r.
  assert (forall a, bits (set_bits a 0 lo v') 0 8 = bits a lo (8 - lo) * 2 ^ lo + v') as E.
  { intros a. rewrite <- (wrap_id lo v') at 2 by done. rewrite <- (bits_set_same a 0 lo v') by lia.
    rewrite <- (bits_set_other a 0 lo v' lo (8 - lo)) by lia. set (b := set_bits a 0 lo v').
    rewrite !bits_div_mod by lia. change (2 ^ 0) with 1. rewrite !Z.div_1_r.
    assert (2 ^ 8 = 2 ^ lo * 2 ^ (8 - lo)) as E8 by (rewrite <- Z.pow_add_r by lia; f_equal; lia).
    rewrite E8, Z.rem_mul_r by (apply Z.pow_nonzero || apply Z.pow_pos_nonneg; lia). lia. }
  rewrite E. f_equal. f_equal. set (b := set_bits x lo (8 - lo) v).
  assert (bits (bits b 0 8) lo (8 - lo) = bits b lo (8 - lo)) as ->.
  { rewrite !bits_div_mod by lia. change (2 ^ 0) with 1. rewrite Z.div_1_r.
    assert (2 ^ 8 = 2 ^ lo * 2 ^ (8 - lo)) as -> by (rewrite <- Z.pow_add_r by lia; f_equal; lia).
    assert (0 < 2 ^ lo) by (apply Z.pow_pos_nonneg; lia). assert (0 < 2 ^ (8 - lo)) by (apply Z.pow_pos_nonneg; lia).
    rewrite Z.rem_mul_r by lia. rewrite Z.add_comm, (Z.mul_comm (2 ^ lo)), Z.div_add_l by lia.
    rewrite (Z.div_small (b mod 2 ^ lo)) by (apply Z.mod_pos_bound; lia). by rewrite Z.add_0_r, Zmod_mod. }
  subst b. rewrite bits_set_same by lia. by apply wrap_id.
Qed.

Lemma wp_ip_gen h t src dst proto dlen Q : length h = 42%nat -> fits 8 proto -> 0 <= dlen <= 65000 ->
  Q (20 + dlen) ((take 14 h ++ ip_head src dst proto (20 + dlen) (ip_sum src dst proto (20 + dlen)) ++ drop 34 h) ++ t) ->
  wp (ip_gen 14 src dst proto dlen) (h ++ t) Q.
Proof.
  intros Hh Hp Hn HQ. unfold ip_gen. bytes_of h Hh.
  assert (wrap64 (sizeof_ip_hdr + dlen) = 20 + dlen) as -> by (apply wrap_id; unfold fits, sizeof_ip_hdr; lia).
  assert (fits 16 (20 + dlen)) as Hl by (unfold fits; lia). cbv zeta.
  unfold pk_fld, pk_get, pk_wr8, pk_wr16, pk_wr32. rewrite (wrap_id 16) by done.
  rewrite !le_bytes_swap, !le_bytes_swap32, (le_byte proto) by done. change (le_bytes 1 255) with [255]. change (le_bytes 2 0) with (be16 0).
  do 4 (apply wp_bind, wp_bind, wp_bind; pk_rd; apply wp_ret; change (le_bytes 1 ?x) with [bits x 0 8]; pk_wr).
  rewrite (fields_of_byte _ 4 4 (sizeof_ip_hdr / 4)), (fields_of_byte _ 2 0 0) by done.
  change (4 * 2 ^ 4 + sizeof_ip_hdr / 4) with 69. change (0 * 2 ^ 2 + 0) with 0.
  do 7 (apply wp_bind; pk_wr). apply wp_bind. unfold ip_checksum, pk_checksum, pk_wr16.
  change (le_bytes 2 0) with (be16 0). apply wp_bind. pk_wr. apply wp_bind, wp_bind. pk_rd. apply wp_ret.
  match goal with |- context [words ?w] => change (words w) with (words (ip_head src dst proto (20 + dlen) 0)) end.
  change sizeof_ip_hdr with 20. rewrite <- ip_sum_eq.
  destruct (ip_sum_ok src dst proto (20 + dlen) Hp) as [Hc _].
  rewrite le_bytes_swap by done. pk_wr. apply wp_ret. pk_done HQ.
Qed.

(** The padding byte, past the data, and the read of the whole. *)
Lemma wp_wr_past h data x rest v Q : Q tt (h ++ data ++ v :: rest) ->
  wp (pk_wr (Z.of_nat (length h) + Z.of_nat (length data)) [v]) (h ++ data ++ x :: rest) Q.
Proof.
  intros HQ. replace (h ++ data ++ x :: rest) with ((h ++ data ++ [x]) ++ rest) by (rewrite <- !app_assoc; done).
  apply wp_wr.
  { unfold inside. rewrite !length_app. simpl. lia. }
  unfold splice. rewrite <- Nat2Z.inj_add, Nat2Z.id. rewrite (app_assoc h data [x]), take_app_le by (rewrite length_app; lia).
  rewrite take_ge by (rewrite length_app; lia). rewrite drop_ge by (rewrite !length_app; simpl; lia).
  rewrite app_nil_r, <- !app_assoc. exact HQ.
Qed.
Lemma wp_checksum_over h data rest k n Q : (k <= length h)%nat -> n = Z.of_nat (length h) - Z.of_nat k + Z.of_nat (length data) ->
  Q (rfc1071_checksum (words (drop k h ++ data)) n) (h ++ data ++ rest) -> wp (pk_checksum (Z.of_nat k) n) (h ++ data ++ rest) Q.
Proof.
  intros Hk -> HQ. unfold pk_checksum. apply wp_bind. rewrite app_assoc. apply wp_rd.
  { unfold inside. rewrite length_app. lia. }
  apply wp_ret. rewrite <- app_assoc. rewrite Nat2Z.id, drop_app_le, take_ge by (rewrite ?length_app, ?length_drop; lia). done.
Qed.

Lemma odd_of_nat k : Z.odd (Z.of_nat k) = Nat.odd k.
Proof.
  induction k as [|k IH]; [done|]. rewrite Nat2Z.inj_succ, Z.odd_succ, <- Z.negb_odd, IH, Nat.odd_succ. apply Nat.negb_odd.
Qed.
Lemma pad_odd {A} (data : list A) : c_true ((12 + (8 + Z.of_nat (length data))) mod 2) = negb (Nat.even (length data)).
Proof. rewrite Zmod_odd, Z.add_assoc, Z.odd_add, odd_of_nat, Nat.negb_even. by destruct (Nat.odd _). Qed.
Lemma wp_pad h data rest n Q : length h = 42%nat -> n = 8 + Z.of_nat (length data) -> n <= 65000 -> rest <> [] ->
  (forall r tl, length r = length rest -> data ++ r = padded data ++ tl -> Q (udp_size data) (h ++ data ++ r)) ->
  wp (if c_true ((12 + n) mod 2) then pk_wr (22 + (12 + n)) [0] ;; mret (wrap64 (12 + n + 1)) else mret (12 + n))
    (h ++ data ++ rest) Q.
Proof.
  intros Hh -> Hn Hr HQ. destruct rest as [|x rest]; [done|]. 
  rewrite pad_odd.
  unfold udp_size, padded in *. destruct (Nat.even (length data)); cbn [negb].
  - apply wp_ret. replace (12 + _) with (20 + Z.of_nat (length data)) by lia. by apply (HQ _ (x :: rest)).
  - apply wp_bind. replace (22 + _) with (Z.of_nat (length h) + Z.of_nat (length data)) by lia. apply wp_wr_past, wp_ret.
    rewrite length_app in HQ. simpl in HQ. rewrite wrap_id by (unfold fits; lia).
    replace (12 + _ + 1) with (20 + Z.of_nat (length data + 1)) by lia. apply (HQ (0 :: rest) rest); [done|].
    by rewrite <- app_assoc.
Qed.

Lemma udp_raw_fits src dst sport dport data : fits 16 (udp_sum src dst sport dport data) ->
  fits 16 (rfc1071_checksum (udp_words src dst sport dport 0 data) (udp_size data)).
Proof. unfold udp_sum. destruct (Z.eqb_spec (rfc1071_checksum (udp_words src dst sport dport 0 data) (udp_size data)) 0) as [->|]; done. Qed.

(** A checksum of 0 is stored as its complement. *)
Lemma swap16_true c : fits 16 c -> c_true (swap16 c) = negb (c =? 0).
Proof.
  intros Hc. unfold c_true. f_equal. apply eq_true_iff_eq. rewrite !Z.eqb_eq. split; [|by intros ->].
  intros E. by rewrite <- (swap16_swap16 c), E by done.
Qed.

Lemma wp_store_sum h t c (k : PK Z) Q : length h = 42%nat -> fits 16 c ->
  wp k (splice (Z.to_nat 40) (be16 (if c =? 0 then 0xffff else c)) h ++ t) Q ->
  wp (pk_wr (34 + 6) (le_bytes 2 (swap16 c)) ;;
      when (negb (c_true (swap16 c))) (pk_wr (34 + 6) (le_bytes 2 (wnot 16 (swap16 c)))) ;; k) (h ++ t) Q.
Proof.
  intros Hh Hc. rewrite swap16_true, le_bytes_swap by done. bytes_of h Hh. destruct (Z.eqb_spec c 0) as [->|]; pk_eval; intros HQ.
  - change (le_bytes 2 (wnot 16 (swap16 0))) with (be16 0xffff). do 2 (apply wp_bind; pk_wr). exact HQ.
  - apply wp_bind. pk_wr. exact HQ.
Qed.

Lemma wp_ip_udp g rest src dst sport dport data Q : length g = 34%nat -> Forall (fits 8) data ->
  Z.of_nat (length data) <= DATA_FRAME_SZ -> rest <> [] -> 
  let n := 8 + Z.of_nat (length data) in
  let hd := ip_head src dst IP_PROTO_UDP (20 + n) (ip_sum src dst IP_PROTO_UDP (20 + n)) in
  (forall rest', length rest' = length rest ->
    Q (20 + n) ((take 14 g ++ hd ++ udp_head sport dport n (udp_sum src dst sport dport data)) ++ data ++ rest')) ->
  wp (ip_udp_pkt 14 src dst n) ((g ++ udp_head sport dport n 0) ++ data ++ rest) Q.
Proof.
  intros Hg Hf Hlen Hr n hd HQ. change DATA_FRAME_SZ with 1458 in Hlen.
  assert (n = 8 + Z.of_nat (length data)) as En by done. clearbody n.
  assert (0 <= n <= 65000) as Hn by lia. unfold ip_udp_pkt. cbv zeta.
  change (14 + sizeof_ip_hdr) with 34. change (34 - sizeof_udp_phdr) with 22.
  assert (fits 16 n) as Fn by (unfold fits; lia). rewrite (wrap_id 16 n) by done.
  assert (wrap64 (sizeof_udp_phdr + n) = 12 + n) as -> by (apply wrap_id; unfold fits, sizeof_udp_phdr; lia).
  unfold pk_wr8, pk_wr16, pk_wr32. rewrite !le_bytes_swap32, le_bytes_swap by done.
  change (le_bytes 1 0) with [0]. change (le_bytes 1 IP_PROTO_UDP) with [IP_PROTO_UDP].
  bytes_of g Hg. unfold udp_head at 1.
  do 5 (apply wp_bind; pk_wr). apply wp_bind, wp_pad; [done|done|lia|done|]. intros r tl Hl Et. rewrite Et. apply wp_bind.
  apply (wp_checksum_over _ (padded data) tl 22); [simpl; lia|unfold udp_size; simpl; lia|]. rewrite <- Et.
  subst n.  match goal with |- context [words ?w] => change (words w) with (udp_words src dst sport dport 0 data) end.
  destruct (udp_sum_ok src dst sport dport data Hf ltac:(lia)) as [Fs _].
  apply wp_store_sum; [done|by apply udp_raw_fits|]. fold (udp_sum src dst sport dport data). pk_eval.
  eapply wp_ip_gen; [done|done|lia|]. apply HQ in Hl. pk_done Hl.
Qed.

(** ** Sending *)

(** The packets the card has yet to send, and all those it was given. *)
Definition queued (c : card) : list bytes :=
  (fun d => take (Z.to_nat d.2) d.1) <$> drop (length (t_ring c) - t_pend c) (t_ring c).
Definition handed (c : card) : list bytes := t_sent c ++ queued c.

Lemma card_one_ok c : (t_pend c <= length (t_ring c))%nat -> handed (card_one c) = handed c /\
  t_ring (card_one c) = t_ring c /\ t_pend (card_one c) = (t_pend c - 1)%nat /\ t_pace (card_one c) = t_pace c.
Proof.
  intros Hp. unfold card_one, handed, queued. destruct (t_pend c) as [|k] eqn:Ek; [by rewrite Ek|].
  destruct (lookup_lt_is_Some_2 (t_ring c) (length (t_ring c) - S k)) as [[b l] Hd]; [lia|].
  rewrite Hd. cbn [t_ring t_pend t_pace t_sent]. split_and!; [|done|lia|done].
  rewrite (drop_S _ _ _ Hd). replace (S (length (t_ring c) - S k)) with (length (t_ring c) - k)%nat by lia.
  cbn [fmap list_fmap snd fst]. by rewrite <- app_assoc.
Qed.
Lemma card_iter_ok n c : (t_pend c <= length (t_ring c))%nat -> let c' := Nat.iter n card_one c in
  handed c' = handed c /\ t_ring c' = t_ring c /\ t_pend c' = (t_pend c - n)%nat /\ t_pace c' = t_pace c.
Proof.
  intros Hp. cbv zeta. induction n as [|n (I1 & I2 & I3 & I4)]; [by rewrite Nat.sub_0_r|]. rewrite !Nat.iter_succ.
  destruct (card_one_ok (Nat.iter n card_one c)) as (-> & -> & -> & ->); [rewrite I2, I3; lia|].
  split_and!; [done|done|lia|done].
Qed.
Lemma card_works_ok c : (t_pend c <= length (t_ring c))%nat -> handed (card_works c) = handed c /\
  t_ring (card_works c) = t_ring c /\ t_pend (card_works c) = (t_pend c - hd 0 (t_pace c))%nat /\ t_pace (card_works c) = tail (t_pace c).
Proof. intros Hp. by destruct (card_iter_ok (hd 0%nat (t_pace c)) c Hp) as (H1 & H2 & H3 & _). Qed.
(** Left to itself the card sends all it was given. *)
Lemma card_drains c : (t_pend c <= length (t_ring c))%nat -> t_sent (Nat.iter (t_pend c) card_one c) = handed c.
Proof.
  intros Hp. destruct (card_iter_ok (t_pend c) c Hp) as (<- & H2 & H3 & _). unfold handed, queued.
  by rewrite H3, Nat.sub_diag, Nat.sub_0_r, drop_all, app_nil_r.
Qed.

(** The card keeps up with [k] more packets: there is always a free descriptor
    after the one the driver fills. *)
Fixpoint keeps_up (pend : nat) (pace : list nat) (k : nat) : Prop :=
  match k with
  | O => True
  | S k => let p := (pend - hd 0 pace)%nat in Z.of_nat p + 1 < TX_DESC_NR /\ keeps_up (S p) (tail pace) k
  end.
(** It does, however slow, when the ring has the room. *)
Lemma keeps_up_room k : forall pend pace, Z.of_nat (pend + k) < TX_DESC_NR -> keeps_up pend pace k.
Proof. induction k as [|k IH]; intros pend pace Hk; cbn [keeps_up]; [done|]. split; [lia|]. apply IH. lia. Qed.

Lemma wp_on_pkt {A} (m : PK A) s b l r Q : t_ring (n_card s) = (b, l) :: r ->
  wp m b (fun x b' => Q x (with_ring ((b', l) :: r) s)) -> wp (on_pkt m) s Q.
Proof. intros Hr HQ. unfold wp, on_pkt in *. rewrite Hr. by destruct (m b) as [[x b']|]. Qed.
Lemma wp_on_pkt' {A} (m : PK A) s b l r Q : wp m b (fun x b' => Q x (with_ring ((b', l) :: r) s)) ->
  wp (on_pkt m) (with_ring ((b, l) :: r) s) Q.
Proof. intros HQ. by apply (wp_on_pkt m (with_ring ((b, l) :: r) s) b l r). Qed.

Record card_ok (c : card) : Prop := mk_card_ok {
  co_nr : Z.of_nat (length (t_ring c)) = TX_DESC_NR;
  co_buf : Forall (fun d => length d.1 = 2048%nat) (t_ring c);
  co_pend : Z.of_nat (t_pend c) < TX_DESC_NR;
}.
(** A stack that knows the address of its peer. *)
Record sender (s : net) (mac : bytes) : Prop := mk_sender {
  sd_arp : (i ← arp_find s (n_peer_ip s); Some (a_mac (arp_at s i))) = Some mac;
  sd_mac : length mac = 6%nat;
  sd_own : length (n_mac s) = 6%nat;
  sd_port : fits 16 (n_port s);
  sd_peer : fits 16 (n_peer_port s);
  sd_card : card_ok (n_card s);
}.

Definition udp_frame (s : net) (mac data : bytes) : bytes :=
  let n := 8 + Z.of_nat (length data) in
  (mac ++ n_mac s ++ be16 ETHER_TYPE_IP ++
   ip_head (n_ip s) (n_peer_ip s) IP_PROTO_UDP (20 + n) (ip_sum (n_ip s) (n_peer_ip s) IP_PROTO_UDP (20 + n)) ++
   udp_head (n_port s) (n_peer_port s) n (udp_sum (n_ip s) (n_peer_ip s) (n_port s) (n_peer_port s) data)) ++ data.

Lemma sender_card s mac c : sender s mac -> card_ok c -> sender (with_card c s) mac.
Proof. by intros [H1 H2 H3 H4 H5 H6] Hr. Qed.

Lemma split_buf (b data : bytes) : length b = 2048%nat -> Z.of_nat (length data) <= DATA_FRAME_SZ ->
  exists g rest, length g = 42%nat /\ rest <> [] /\ length (g ++ data ++ rest) = 2048%nat /\
    splice 42 data b = g ++ data ++ rest.
Proof.
  intros Hb Hl. change DATA_FRAME_SZ with 1458 in Hl. exists (take 42 b), (drop (42 + length data) b).
  assert (length (drop (42 + length data) b) = (2006 - length data)%nat) as Hr by (rewrite length_drop; lia).
  split_and!; [rewrite length_take; lia|intros E; rewrite E in Hr; simpl in Hr; lia| |done].
  rewrite !length_app, length_take, Hr. lia.
Qed.

Lemma wp_write_one s mac data : sender s mac -> Forall (fits 8) data -> Z.of_nat (length data) <= DATA_FRAME_SZ ->
  let p := (t_pend (n_card s) - hd 0 (t_pace (n_card s)))%nat in Z.of_nat p + 1 < TX_DESC_NR ->
  wp (net_write_one data) s (fun n s' => n = Z.of_nat (length data) /\ exists c, card_ok c /\ s' = with_card c s /\
    handed c = handed (n_card s) ++ [udp_frame s mac data] /\ t_pend c = S p /\ t_pace c = tail (t_pace (n_card s))).
Proof.
  intros [Ha Hm Ho Hp Hq [Hnr Hring Hpend]] Hf Hl p Hroom. unfold net_write_one. apply wp_bind. unfold net_tx_get_pktbuf.
  apply wp_bind, wp_modify, wp_gets. cbn [n_card with_card].
  destruct (card_works_ok (n_card s)) as (W1 & W2 & W3 & W4); [lia|]. fold p in W3. rewrite <- W1, <- W4.
  set (c := card_works (n_card s)) in *. rewrite <- W2 in Hnr, Hring. clearbody c. change (Z.of_nat (length (t_ring c)) = 16) in Hnr.
  destruct (t_ring c) as [|[b l] r] eqn:Er; [done|]. apply Forall_cons in Hring as [Hb Hring]. cbn [fst] in Hb. cbn [negb]. cbv iota.
  destruct (split_buf b data Hb Hl) as (g & rest & Hg & Hrest & Hlen & Esp). change DATA_FRAME_SZ with 1458 in Hl.
  apply wp_bind, (wp_on_pkt _ _ b l r); [done|]. rewrite <- (app_nil_r b). apply wp_wr.
  { unfold inside. rewrite Hb. change HDR_FRAME_SZ with 42. lia. }
  change (Z.to_nat HDR_FRAME_SZ) with 42%nat. rewrite app_nil_r, Esp.
  do 2 apply wp_bind, wp_gets. apply wp_bind. unfold net_gen_udp_pkt. apply wp_bind, wp_gets, wp_bind, wp_on_pkt'.
  change (0 + sizeof_eth_hdr + sizeof_ip_hdr) with 34. apply wp_udp_pkt; [done|done|done|lia|].
  apply wp_bind, wp_gets. unfold net_gen_ip_pkt, arp_cache_lookup. apply wp_bind, wp_gets.
  match goal with |- context [arp_find ?x _] => change (arp_find x) with (arp_find s); change (arp_at x) with (arp_at s) end.
  cbn [n_peer_ip n_peer_port n_ip n_port n_mac with_ring with_card]. rewrite Ha.
  unfold net_gen_eth_ip_pkt. apply wp_bind, wp_bind, wp_gets, wp_on_pkt'. apply wp_eth_ip; [by rewrite length_app, length_take, Hg|done|done|].
  apply wp_bind, wp_on_pkt'. change (0 + sizeof_eth_hdr) with 14.
  cbn [n_mac with_ring with_card]. set (uh := udp_head _ _ _ 0).
  assert (mac ++ n_mac s ++ be16 ETHER_TYPE_IP ++ drop 14 (take 34 g ++ uh) =
    (mac ++ n_mac s ++ be16 ETHER_TYPE_IP ++ drop 14 (take 34 g)) ++ uh) as ->.
  { rewrite drop_app_le by (rewrite length_take; lia). by rewrite <- !app_assoc. }
  apply wp_ip_udp; [by rewrite !length_app, length_drop, length_take, Hm, Ho, Hg|done|done|done|]. intros rest' Hrest'.
  assert (take 14 (mac ++ n_mac s ++ be16 ETHER_TYPE_IP ++ drop 14 (take 34 g)) = mac ++ n_mac s ++ be16 ETHER_TYPE_IP) as ->.
  { rewrite (app_assoc (n_mac s)), (app_assoc mac). apply take_app_length'. by rewrite !length_app, Hm, Ho. }
  match goal with |- context [?x ++ data ++ rest'] => set (hd := x) end.
  assert (length hd = 42%nat) as Hhd by (unfold hd; by rewrite !length_app, Hm, Ho).
  apply wp_ret. rewrite (proj2 (Z.eqb_neq _ 0)) by lia. apply wp_bind, wp_modify, wp_ret. split; [done|].
  eexists. split; [|split; [reflexivity|]]; cbn [n_card with_ring with_card t_ring t_pend t_pace t_sent length] in *.
  - split; cbn [t_ring t_pend].
    + rewrite length_app. cbn [length]. change TX_DESC_NR with 16. lia.
    + apply Forall_app. split; [done|]. apply Forall_singleton. cbn [fst]. rewrite !length_app in *. lia.
    + rewrite W3, Nat.mod_small by (change TX_DESC_NR with 16 in *; lia). lia.
  - change TX_DESC_NR with 16 in *. rewrite W3, Nat.mod_small by lia. split; [|done].
    unfold handed, queued. cbn [t_ring t_pend t_sent]. rewrite Er, W3, length_app. cbn [length]. rewrite <- app_assoc. f_equal.
    replace (length r + 1 - S p)%nat with (length r - p)%nat by lia. replace (S (length r) - p)%nat with (S (length r - p)) by lia.
    rewrite drop_app_le by lia. cbn [drop]. rewrite fmap_app. f_equal. cbn [fmap list_fmap fst snd]. f_equal.
    rewrite wrap_id by (unfold fits; lia).
    rewrite app_assoc, take_app_length' by (rewrite length_app; lia). unfold udp_frame, hd. by rewrite <- !app_assoc.
Qed.

(** ** Receiving *)

Lemma wp_on_frame {A} (m : PK A) f s Q : wp m f (fun x f' => Q x (with_frame f' s)) ->
  wp (on_frame m) (with_frame f s) Q.
Proof. unfold on_frame. intros HQ. by apply wp_zoom. Qed.

Lemma le_bytes_swap_le a b : fits 8 a -> fits 8 b -> le_bytes 2 (swap16 (le_word [a; b])) = [b; a].
Proof. intros Ha Hb. rewrite swap16_le, le_bytes2 by done. by destruct (bits_le_word2 b a) as [-> ->]. Qed.
Lemma le_bytes_swap32_le a b c d : fits 8 a -> fits 8 b -> fits 8 c -> fits 8 d ->
  le_bytes 4 (swap32 (le_word [a; b; c; d])) = [d; c; b; a].
Proof. intros Ha Hb Hc Hd. unfold swap32. rewrite bits_le_word4 by done. by apply bits_le_word4. Qed.

Lemma wp_swap16 h t off a b Q : inside h off 2 -> take 2 (drop (Z.to_nat off) h) = [a; b] -> fits 8 a -> fits 8 b ->
  Q tt (splice (Z.to_nat off) [b; a] h ++ t) -> wp (pk_swap16 off) (h ++ t) Q.
Proof.
  intros Hi Hr Ha Hb HQ. unfold pk_swap16, pk_get. apply wp_bind, wp_bind, wp_rd; [done|].
  change (Z.to_nat 2) with 2%nat. rewrite Hr. apply wp_ret. unfold pk_wr16. rewrite le_bytes_swap_le by done. by apply wp_wr.
Qed.
Lemma wp_swap32 h t off a b c d Q : inside h off 4 -> take 4 (drop (Z.to_nat off) h) = [a; b; c; d] ->
  fits 8 a -> fits 8 b -> fits 8 c -> fits 8 d ->
  Q tt (splice (Z.to_nat off) [d; c; b; a] h ++ t) -> wp (pk_swap32 off) (h ++ t) Q.
Proof.
  intros Hi Hr Ha Hb Hc Hd HQ. unfold pk_swap32, pk_get. apply wp_bind, wp_bind, wp_rd; [done|].
  change (Z.to_nat 4) with 4%nat. rewrite Hr. apply wp_ret. unfold pk_wr32. rewrite le_bytes_swap32_le by done. by apply wp_wr.
Qed.
Lemma wp_get h t off n Q : inside h off n -> Q (le_word (take (Z.to_nat n) (drop (Z.to_nat off) h))) (h ++ t) ->
  wp (pk_get off n) (h ++ t) Q.
Proof. intros Hi HQ. unfold pk_get. by apply wp_bind, wp_rd, wp_ret. Qed.

Ltac pk_bytes := first [done | by apply byte_fits].
Ltac pk_swap16 := apply wp_bind, wp_on_frame; eapply wp_swap16; [by split_and!|pk_eval; reflexivity|pk_bytes..|]; pk_eval.
Ltac pk_swap32 := apply wp_bind, wp_on_frame; eapply wp_swap32; [by split_and!|pk_eval; reflexivity|pk_bytes..|]; pk_eval.
Ltac pk_get := apply wp_bind, wp_on_frame, wp_get; [by split_and!|]; pk_eval.

(** A packet of the header [h] at the start of the frame. *)
Lemma wp_dissect s mac data junk r (Q : dissected -> net -> Prop) : length mac = 6%nat -> length (n_mac s) = 6%nat ->
  fits 16 (n_port s) -> fits 16 (n_peer_port s) -> Z.of_nat (length data) <= DATA_FRAME_SZ -> n_port r = n_peer_port s ->
  (forall h, length h = 42%nat -> let r' := with_frame (h ++ data ++ junk) r in
    Q (NET_DISSECT_UDP, Some (42, Z.of_nat (length data))) (if n_peer_port r =? n_port s then r' else with_peer_port (n_port s) r')) ->
  wp (eth_dissect 0 (42 + Z.of_nat (length data))) (with_frame (udp_frame s mac data ++ junk) r) Q.
Proof.
  intros Hm Ho Hp Hq Hl Hport HQ. change DATA_FRAME_SZ with 1458 in Hl. unfold udp_frame. cbv zeta. rewrite <- app_assoc.
  assert (0 <= Z.of_nat (length data)) as H0 by lia. revert Hl H0 HQ.
  set (own := n_mac s) in *. clearbody own. bytes_of mac Hm. bytes_of own Ho.
  set (c1 := ip_sum _ _ _ _). set (c2 := udp_sum _ _ _ _ _). generalize (Z.of_nat (length data)). intros n Hl H0 HQ.
  assert (fits 16 (8 + n)) as Fn by (unfold fits; lia).
  match goal with |- context [with_frame (?h ++ data ++ junk)] => let x := eval cbv [app ip_head udp_head be16 be32] in h in change h with x end.
  unfold eth_dissect. pk_swap16. pk_get.
  change (le_word [bits ETHER_TYPE_IP 0 8; bits ETHER_TYPE_IP 8 8]) with ETHER_TYPE_IP.
  change (ETHER_TYPE_IP =? ETHER_TYPE_ARP) with false. change (ETHER_TYPE_IP =? ETHER_TYPE_IP) with true. cbv iota.
  change (0 + sizeof_eth_hdr) with 14. unfold ip_dissect. pk_get. change (negb (bits (le_word [69]) 4 4 =? 4)) with false. cbv iota.
  pk_swap16. pk_swap16. pk_swap16. pk_swap32. pk_swap32. pk_get. pk_get.
  change (le_word [IP_PROTO_UDP]) with IP_PROTO_UDP. change (IP_PROTO_UDP =? IP_PROTO_ICMP) with false. 
  change (IP_PROTO_UDP =? IP_PROTO_UDP) with true. cbv iota zeta. change (14 + sizeof_ip_hdr) with 34.
  unfold udp_dissect. pk_swap16. pk_swap16. pk_swap16. pk_get. rewrite (bits_word (8 + n)) by done. pk_get.
  rewrite (bits_word (n_peer_port s)) by done. apply wp_bind, wp_gets. cbn [n_port with_frame]. rewrite Hport, Z.eqb_refl. cbn [negb]. cbv iota.
  pk_get. rewrite (bits_word (n_port s)) by done. apply wp_bind, wp_gets, wp_bind. cbn [n_peer_port with_frame].
  assert (wrap64 (Z.min (wrap64 (wrap64 (42 + n - sizeof_eth_hdr) - sizeof_ip_hdr)) (8 + n) - sizeof_udp_hdr) = n) as ->.
  { unfold sizeof_eth_hdr, sizeof_ip_hdr, sizeof_udp_hdr. rewrite (wrap_id 64 (42 + n - 14)), (wrap_id 64 (42 + n - 14 - 20)) by (unfold fits; lia).
    rewrite Z.min_l by lia. rewrite wrap_id by (unfold fits; lia). lia. }
  change (34 + sizeof_udp_hdr) with 42.
  match goal with |- context [with_frame (?h ++ data ++ junk)] => specialize (HQ h eq_refl) end. cbv zeta in HQ.
  destruct (n_peer_port r =? n_port s); cbn [negb].
  - apply wp_ret, wp_ret. exact HQ.
  - apply wp_modify, wp_ret. exact HQ.
Qed.

(** The other end: it listens on the port the packets are sent to. *)
Record receiver (s r : net) : Prop := mk_receiver {
  rc_port : n_port r = n_peer_port s;
  rc_frame : length (n_frame r) = 2048%nat;
}.

Lemma length_udp_frame s mac data : length mac = 6%nat -> length (n_mac s) = 6%nat ->
  length (udp_frame s mac data) = (42 + length data)%nat.
Proof. intros Hm Ho. unfold udp_frame. cbv zeta. rewrite !length_app, Hm, Ho. simpl. lia. Qed.

Lemma wp_recv p ds r size Q : n_rx r = Some p :: ds -> Z.of_nat (length p) <= size -> (length p <= length (n_frame r))%nat ->
  Q (Z.of_nat (length p)) (with_frame (p ++ drop (length p) (n_frame r)) (with_rx (ds ++ [None]) r)) -> wp (net_recv_pkt size) r Q.
Proof.
  intros Hr Hs Hf HQ. unfold wp, net_recv_pkt. rewrite Hr, take_ge by lia. unfold pk_wr, in_buf.
  rewrite (proj2 (Z.leb_le 0 (Z.of_nat (length p)))), (proj2 (Z.leb_le (0 + _) _)) by lia. unfold splice. simpl. exact HQ.
Qed.

Lemma wp_read_one s mac data more r size : sender s mac -> receiver s r -> Z.of_nat (length data) <= DATA_FRAME_SZ ->
  n_rx r = Some (udp_frame s mac data) :: more -> 0 <= size ->
  wp (net_read_one size) r (fun d r' => d = take (Z.to_nat size) data /\ receiver s r' /\ n_rx r' = more ++ [None] /\
    n_peer_port r' = n_port s).
Proof.
  intros [_ Hm Ho Hp Hq _] [Hport Hf] Hl Hrx Hsz. pose proof (length_udp_frame s mac data Hm Ho) as Hlen.
  assert (Z.of_nat (length data) <= 1458) as Hl' by done. unfold net_read_one. apply wp_bind.
  eapply wp_recv; [exact Hrx|unfold RX_BUFF_SZ; lia|lia|]. rewrite (proj2 (Z.eqb_neq _ 0)) by lia. apply wp_bind.
  set (junk := drop _ _). assert (length junk = (2006 - length data)%nat) as Hj by (unfold junk; rewrite length_drop; lia).
  replace (Z.of_nat (length (udp_frame s mac data))) with (42 + Z.of_nat (length data)) by lia.
  apply wp_dissect; [done..|]. intros h Hh r'.
  assert (exists g, receiver s g /\ n_rx g = more ++ [None] /\ n_peer_port g = n_port s /\
    (if n_peer_port (with_rx (more ++ [None]) r) =? n_port s then r' else with_peer_port (n_port s) r') = with_frame (h ++ data ++ junk) g) as (g & G1 & G2 & G3 & ->).
  { case_match; [exists (with_rx (more ++ [None]) r)|exists (with_peer_port (n_port s) (with_rx (more ++ [None]) r))]; split_and!; try done. by apply Z.eqb_eq. }
  destruct G1 as [G1 _].
  assert (receiver s (with_frame (h ++ data ++ junk) g)) as Hr'.
  { split; [done|]. cbn [n_frame with_frame]. rewrite !length_app, Hh, Hj. lia. }
  cbv zeta. unfold c_true. destruct (Z.eqb_spec (Z.min size (Z.of_nat (length data))) 0) as [E|E]; cbn [negb].
  - apply wp_ret. split; [|done]. destruct (Z.min_spec size (Z.of_nat (length data))) as [[_ E']|[_ E']].
    + by replace size with 0 by lia.
    + destruct data; [by rewrite take_nil|simpl in *; lia].
  - apply wp_on_frame. rewrite app_assoc. apply wp_rd.
    { unfold inside. rewrite length_app, Hh. lia. }
    rewrite <- app_assoc. split; [|done]. change (Z.to_nat 42) with 42%nat. rewrite <- Hh, drop_app_length, Z2Nat.inj_min, Nat2Z.id.
    destruct (Nat.le_ge_cases (Z.to_nat size) (length data)); [by rewrite Nat.min_l by lia|]. by rewrite Nat.min_r, !take_ge by lia.
Qed.

(** ** A write and the reads of it *)

(** What a sender has become after it gave the packets [fs] to its card. *)
Definition gave (s s' : net) (fs : list bytes) (k : nat) : Prop := exists c, card_ok c /\ s' = with_card c s /\
  handed c = handed (n_card s) ++ fs /\ keeps_up (t_pend c) (t_pace c) k.

Lemma wp_write_loop s mac times data cnt k : sender s mac -> Forall (fits 8) data ->
  Z.of_nat times * DATA_FRAME_SZ <= Z.of_nat (length data) ->
  keeps_up (t_pend (n_card s)) (t_pace (n_card s)) (times + k) ->
  wp (net_write_loop times data cnt) s (fun x s' => exists ps, gave s s' (udp_frame s mac <$> ps) k /\
    data = concat ps ++ x.1 /\ x.2 = cnt + Z.of_nat times * DATA_FRAME_SZ /\ length ps = times /\
    Forall (fun p => Z.of_nat (length p) = DATA_FRAME_SZ) ps).
Proof.
  change DATA_FRAME_SZ with 1458. revert s data cnt. induction times as [|times IH]; intros s data cnt Hs Hf Hl Hk; cbn [net_write_loop].
  - apply wp_ret. exists []. split_and!; [|done|simpl; lia|done|done].
    exists (n_card s). split_and!; [apply Hs|by destruct s|by rewrite app_nil_r|exact Hk].
  - set (c := take (Z.to_nat DATA_FRAME_SZ) data). assert (length c = 1458%nat) as Hc by (unfold c; rewrite length_take; change DATA_FRAME_SZ with 1458; lia).
    cbn [Nat.add keeps_up] in Hk. destruct Hk as [Hroom Hk].
    apply wp_bind. eapply wp_mono; [apply (wp_write_one s mac c Hs); [by apply Forall_take|change DATA_FRAME_SZ with 1458; lia|exact Hroom]|].
    intros n s1 (-> & cd & Hcd & -> & Hh & Hpe & Hpa). rewrite <- Hpe, <- Hpa in Hk. eapply wp_mono; [apply IH|].
    + by apply sender_card.
    + by apply Forall_drop.
    + rewrite length_drop. lia.
    + exact Hk.
    + intros x s' (ps & (c' & Hc' & -> & Hh' & Hk') & Hd & Hx & Hlen & Hps). exists (c :: ps). split_and!; [| | | |].
      * exists c'. split_and!; [done|done| |done]. cbn [n_card with_card] in Hh'. rewrite Hh', Hh, <- app_assoc. done.
      * cbn [concat]. rewrite <- app_assoc, <- Hd, Nat2Z.id. unfold c. rewrite length_take_le by (change DATA_FRAME_SZ with 1458; lia). by rewrite take_drop.
      * rewrite Hx, Hc. lia.
      * by cbn [length]; rewrite Hlen.
      * constructor; [by rewrite Hc|done].
Qed.

(** What a receiver tests: the checksum of the ip header, and the one of the
    datagram with the pseudo-header, padded to whole words. *)
Definition udp_pseudo (p : bytes) : bytes := take 8 (drop 26 p) ++ [0; IP_PROTO_UDP] ++ take 2 (drop 38 p) ++ padded (drop 34 p).
Definition frame_valid (p : bytes) : Prop :=
  rfc1071_checksum (words (take 20 (drop 14 p))) 20 = 0 /\
  rfc1071_checksum (words (udp_pseudo p)) (Z.of_nat (length (udp_pseudo p))) = 0.

Lemma padded_app h data : Nat.even (length h) = true -> padded (h ++ data) = h ++ padded data.
Proof.
  intros Hh. unfold padded. rewrite length_app, Nat.even_add, Hh. destruct (Nat.even (length data)); [done|]. cbn [Bool.eqb]. by rewrite <- app_assoc.
Qed.

Lemma udp_frame_valid s mac data : length mac = 6%nat -> length (n_mac s) = 6%nat -> Forall (fits 8) data ->
  Z.of_nat (length data) <= DATA_FRAME_SZ -> frame_valid (udp_frame s mac data).
Proof.
  intros Hm Ho Hf Hl. assert (Z.of_nat (length data) <= 1458) as Hl' by done.
  destruct (ip_sum_ok (n_ip s) (n_peer_ip s) IP_PROTO_UDP (20 + (8 + Z.of_nat (length data))) ltac:(done)) as [_ Hi].
  destruct (udp_sum_ok (n_ip s) (n_peer_ip s) (n_port s) (n_peer_port s) data Hf ltac:(lia)) as [_ Hu].
  unfold udp_frame, frame_valid. cbv zeta. set (own := n_mac s) in *. clearbody own. bytes_of mac Hm. bytes_of own Ho.
  set (c2 := udp_sum _ _ _ _ _) in *. clearbody c2.
  split; [exact Hi|].
  match goal with |- context [udp_pseudo ?p] => assert (udp_pseudo p = udp_phead (n_ip s) (n_peer_ip s) (8 + Z.of_nat (length data)) ++
    udp_head (n_port s) (n_peer_port s) (8 + Z.of_nat (length data)) c2 ++ padded data) as -> end.
  { unfold udp_pseudo. cbn [drop app].
    match goal with |- context [padded ?x] => change x with (udp_head (n_port s) (n_peer_port s) (8 + Z.of_nat (length data)) c2 ++ data) end.
    by rewrite padded_app by done. }
  assert (Z.of_nat (length (udp_phead (n_ip s) (n_peer_ip s) (8 + Z.of_nat (length data)) ++
    udp_head (n_port s) (n_peer_port s) (8 + Z.of_nat (length data)) c2 ++ padded data)) = udp_size data) as ->; [|exact Hu].
  unfold udp_size. rewrite !length_app. change (length (udp_phead _ _ _)) with 12%nat. change (length (udp_head _ _ _ _)) with 8%nat. lia.
Qed.

(** The packets a write of [n] bytes takes. *)
Definition frames (n : Z) : nat := Z.to_nat (n / DATA_FRAME_SZ) + (if c_true (n mod DATA_FRAME_SZ) then 1 else 0).

Lemma wp_write s mac data : sender s mac -> Forall (fits 8) data ->
  keeps_up (t_pend (n_card s)) (t_pace (n_card s)) (frames (Z.of_nat (length data))) ->
  wp (net_write data) s (fun n s' => n = Z.of_nat (length data) /\ exists ps last,
    gave s s' ((udp_frame s mac <$> ps) ++ (if c_true (n mod DATA_FRAME_SZ) then [udp_frame s mac last] else [])) 0 /\
    data = concat ps ++ last /\ Z.of_nat (length last) = n mod DATA_FRAME_SZ /\
    length ps = Z.to_nat (n / DATA_FRAME_SZ) /\ Forall (fun p => Z.of_nat (length p) = DATA_FRAME_SZ) ps).
Proof.
  intros Hs Hf Hup. unfold net_write. cbv zeta. set (n := Z.of_nat (length data)) in *. unfold frames in Hup. assert (0 < DATA_FRAME_SZ) as HD by done.
  assert (0 <= n) as Hn by lia. pose proof (Z.div_mod n DATA_FRAME_SZ ltac:(lia)) as Ediv. pose proof (Z.mod_pos_bound n DATA_FRAME_SZ HD) as Hmod.
  assert (0 <= n / DATA_FRAME_SZ) as Hq by (apply Z.div_pos; lia).
  apply wp_bind. eapply wp_mono; [apply (wp_write_loop s mac); [done|done|fold n; nia|exact Hup]|].
  intros [rest cnt] s1 (ps & (cd & Hcd & -> & Hh & Hk) & Hd & Hc & Hlen & Hps). cbn [fst snd] in *. 
  assert (Z.of_nat (length rest) = n mod DATA_FRAME_SZ) as Hrest.
  { assert (n = Z.of_nat (length (concat ps)) + Z.of_nat (length rest)) as E by (unfold n; rewrite Hd, length_app; lia).
    assert (Z.of_nat (length (concat ps)) = Z.of_nat (length ps) * DATA_FRAME_SZ) as E2.
    { clear -Hps. induction Hps as [|p ps Hp Hps IH]; [done|]. cbn [concat length]. rewrite length_app. lia. }
    rewrite E2, Hlen in E. rewrite Z2Nat.id in E by done. lia. }
  destruct (c_true (n mod DATA_FRAME_SZ)) eqn:El.
  - rewrite take_ge by lia. apply wp_bind. eapply wp_mono; [apply (wp_write_one _ mac)|].
    + by apply sender_card.
    + rewrite Hd, Forall_app in Hf. apply Hf.
    + lia.
    + exact (proj1 Hk).
    + intros k s2 (-> & c' & Hc' & -> & Hh' & _ & _). apply wp_ret. split; [rewrite Hc, Z2Nat.id by done; lia|]. 
      assert (cnt + Z.of_nat (length rest) = n) as -> by (rewrite Hc, Z2Nat.id by done; lia). rewrite El.
      exists ps, rest. split_and!; [|done..]. exists c'. split_and!; [done|done| |done]. cbn [n_card with_card] in Hh'.
      rewrite Hh', Hh, <- app_assoc. done.
  - assert (n mod DATA_FRAME_SZ = 0) as Hz by (unfold c_true in El; lia).
    apply wp_ret. assert (cnt = n) as -> by (rewrite Hc, Z2Nat.id by done; lia). split; [done|]. rewrite El.
    exists ps, rest. split_and!; [|done..]. exists cd. split_and!; [done|done|by rewrite app_nil_r|done].
Qed.

Lemma wp_read_loop s mac ps more r buf : sender s mac -> receiver s r -> n_rx r = (Some ∘ udp_frame s mac <$> ps) ++ more ->
  Forall (fun p => Z.of_nat (length p) = DATA_FRAME_SZ) ps ->
  wp (net_read_loop (length ps) buf) r (fun x r' => x = (buf ++ concat ps, true) /\ receiver s r' /\ n_rx r' = more ++ replicate (length ps) None).
Proof.
  intros Hs. revert r buf more. induction ps as [|p ps IH]; intros r buf more Hr Hrx Hps; cbn [length net_read_loop].
  - apply wp_ret. cbn [concat replicate]. by rewrite !app_nil_r.
  - apply Forall_cons in Hps as [Hp Hps]. apply wp_bind.
    eapply wp_mono; [apply (wp_read_one s mac p ((Some ∘ udp_frame s mac <$> ps) ++ more)); [done|done|lia|done|done]|].
    intros d r1 (-> & Hr1 & Hrx1 & _). rewrite take_ge by lia. rewrite Hp, Z.ltb_irrefl.
    rewrite <- app_assoc in Hrx1. eapply wp_mono; [by eapply IH|]. intros x r2 (-> & Hr2 & Hrx2). cbn [concat replicate].
    rewrite Hrx2, <- !app_assoc. done.
Qed.

(** C19: data written by a stack that knows the address of its peer is given
    entirely to its card, in packets whose checksums are right, and is all on
    the wire, after what the card had before, once the card has worked through
    its ring; this as long as the card keeps up with the driver, that never
    tests whether a descriptor is free.  The stack of the peer, from whatever
    else it holds, reads back the same data, when it asks for exactly that
    size once its card has received all these packets. *)
Theorem net_write_read s mac data : sender s mac -> Forall (fits 8) data ->
  keeps_up (t_pend (n_card s)) (t_pace (n_card s)) (frames (Z.of_nat (length data))) ->
  wp (net_write data) s (fun n s' => n = Z.of_nat (length data) /\ exists pkts,
    t_sent (Nat.iter (t_pend (n_card s')) card_one (n_card s')) = handed (n_card s) ++ pkts /\ Forall frame_valid pkts /\
    forall r more, receiver s r -> n_rx r = (Some <$> pkts) ++ more ->
    wp (net_read n) r (fun got r' => got = data /\ n_rx r' = more ++ (const None <$> pkts))).
Proof.
  intros Hs Hf Hup. eapply wp_mono; [by apply wp_write|].
  intros n s' (En & ps & last & (c & Hc & -> & Esent & _) & Ed & Elast & Eps & Hps). split; [done|]. eexists. split.
  { cbn [n_card with_card]. rewrite card_drains; [exact Esent|]. destruct Hc. lia. }
  pose proof (sd_mac _ _ Hs) as Lm. pose proof (sd_own _ _ Hs) as Lo.
  assert (0 <= n mod DATA_FRAME_SZ < DATA_FRAME_SZ) as Hm by by apply Z.mod_pos_bound. split.
  - rewrite Ed, Forall_app in Hf. destruct Hf as [F1 F2]. apply Forall_app. split.
    + apply Forall_fmap, Forall_forall. intros p Hp. rewrite Forall_forall in Hps. pose proof (Hps p Hp). 
      apply udp_frame_valid; [done|done| |lia]. rewrite Forall_concat, Forall_forall in F1. by apply F1.
    + case_match; [|done]. apply Forall_singleton. apply udp_frame_valid; [done..|lia].
  - intros r more Hr Hrx. rewrite fmap_app, <- app_assoc, <- list_fmap_compose in Hrx. unfold net_read. rewrite <- Eps. apply wp_bind.
    eapply wp_mono; [by apply (wp_read_loop s mac)|]. intros x r1 (-> & Hr1 & Hrx1). cbn [fst snd negb app]. cbv iota zeta.
    assert ((const None : bytes -> option bytes) <$> (udp_frame s mac <$> ps) = replicate (length ps) None) as Enone.
    { clear. induction ps as [|q ps IH]; [done|]. cbn. by rewrite IH. }
    destruct (c_true (n mod DATA_FRAME_SZ)) eqn:El.
    + apply wp_bind. eapply wp_mono; [eapply (wp_read_one s mac last); [done|done|lia| |lia]|].
      { rewrite Hrx1. reflexivity. }
      intros d r2 (-> & _ & Hrx2 & _). apply wp_ret. split; [by rewrite take_ge by lia|].
      by rewrite Hrx2, fmap_app, Enone, <- !app_assoc.
    + apply wp_ret. split; [destruct last; [by rewrite app_nil_r in Ed|]; unfold c_true in El; simpl in Elast; lia|].
      by rewrite Hrx1, app_nil_r, Enone.
Qed.

(** Two stacks that know each other; the frames and buffers hold what earlier
    packets left. *)
Definition ex_buf : bytes := replicate 2048 0xaa.
Definition ex_cache (mac : bytes) (ip : Z) : list arp_ent := mk_arp mac ip :: replicate 255 (mk_arp (mac_rst 0) 0).
Definition ex_mac_a : bytes := [2; 0; 0; 0; 0; 1].
Definition ex_mac_b : bytes := [2; 0; 0; 0; 0; 2].
Definition ex_card (pace : list nat) : card := mk_card (replicate 16 (ex_buf, 0)) 0 pace [].
Definition ex_vmm : net :=
  mk_net (ex_cache ex_mac_b 0x0a000002) 1 ex_mac_a 0x0a000001 1337 0x0a000002 4000 ex_buf (ex_card []) [].
Definition ex_client (rx : list (option bytes)) : net :=
  mk_net (ex_cache ex_mac_a 0x0a000001) 1 ex_mac_b 0x0a000002 4000 0x0a000001 0 ex_buf (ex_card []) rx.

Lemma ex_sender : sender ex_vmm ex_mac_b.
Proof. split; try done. split; [done|by repeat constructor|done]. Qed.
Lemma net_write_read_witness : exists s' pkts r',
  net_write [36; 99; 43] ex_vmm = Some (3, s') /\ t_sent (Nat.iter (t_pend (n_card s')) card_one (n_card s')) = pkts /\
  Forall frame_valid pkts /\ net_read 3 (ex_client (Some <$> pkts)) = Some ([36; 99; 43], r').
Proof.
  assert (Forall (fits 8) [36; 99; 43]) as Hf by by repeat constructor.
  assert (keeps_up (t_pend (n_card ex_vmm)) (t_pace (n_card ex_vmm)) (frames (Z.of_nat (length [36; 99; 43])))) as Hk
    by (apply keeps_up_room; reflexivity).
  destruct (wp_exists _ _ _ (net_write_read ex_vmm ex_mac_b [36; 99; 43] ex_sender Hf Hk)) as (n & s' & E & -> & pkts & Es & Hv & Hr).
  assert (n_rx (ex_client (Some <$> pkts)) = (Some <$> pkts) ++ []) as Hrx by by rewrite app_nil_r.
  assert (receiver ex_vmm (ex_client (Some <$> pkts))) as Hc by (split; reflexivity).
  destruct (wp_exists _ _ _ (Hr (ex_client (Some <$> pkts)) [] Hc Hrx)) as (got & r' & Er & -> & _).
  exists s', pkts, r'. split; [exact E|]. split; [exact Es|]. split; [exact Hv|exact Er].
Defined.

(** With a card that has sent nothing yet, the sixteenth packet brings the tail
    of the driver back to the head: the card has nothing to send any more. *)
Fixpoint writes (n : nat) (data : bytes) : M net unit :=
  match n with O => mret tt | S n => _ ← net_write data; writes n data end.
Lemma tx_ring_laps : exists s', writes 16 [36; 99; 43] ex_vmm = Some (tt, s') /\
  t_pend (n_card s') = 0%nat /\ handed (n_card s') = [].
Proof. eexists. split; [vm_compute; reflexivity|]. split; reflexivity. Qed.

(** A read of at least a full packet that finds a smaller one drops it. *)
Lemma net_read_loses : exists r', net_read 2000 (ex_client [Some (udp_frame ex_vmm ex_mac_b [36; 99; 43])]) = Some ([], r') /\ n_rx r' = [None].
Proof. eexists. vm_compute. split; reflexivity. Qed.

(** The size of a datagram whose length field is less than its header. *)
Lemma udp_length_underflows : exists r', let p := udp_frame ex_vmm ex_mac_b [36; 99; 43] in
  eth_dissect 0 45 (with_frame (splice 38 [0; 0] p ++ ex_buf) (ex_client [])) = Some ((NET_DISSECT_UDP, Some (42, 2 ^ 64 - 8)), r').
Proof. eexists. vm_compute. reflexivity. Qed.

(** The checksum of an echo message of odd size leaves its last byte out. *)
Lemma icmp_odd_checksum :
  match icmp_echo_reply 0 1 1 [7] (replicate 16 0) with
  | Some (n, b) => n = 9 /\ rfc1071_checksum (words (padded (take 9 b))) 10 = 0xf8ff
  | None => False
  end.
Proof. vm_compute. split; reflexivity. Qed.

(** An echo request of 40 bytes has a negative amount of data, which the copy
    takes for a huge one. *)
Definition ex_ping : bytes :=
  ex_mac_b ++ ex_mac_a ++ be16 ETHER_TYPE_IP ++ ip_head 0x0a000001 0x0a000002 IP_PROTO_ICMP 26 0 ++ [8; 0; 0; 0; 0; 1].
Lemma icmp_short_overflow : net_read 100 (ex_client [Some ex_ping]) = None.
Proof. vm_compute. reflexivity. Qed.

(** Asking for a packet before it is there moves the tail past the descriptor
    it is put in: the next read does not see it. *)
Lemma recv_poll_skips : exists r', net_read 3 (ex_client (replicate 16 None)) = Some ([], r') /\
  n_rx r' = replicate 16 None /\
  (forall p, net_read 3 (with_rx (replicate 15 None ++ [Some p]) r') = Some ([], with_rx (replicate 14 None ++ [Some p; None]) r')).
Proof. eexists. split; [vm_compute; reflexivity|]. split; [reflexivity|]. intros p. reflexivity. Qed.
