(* ===== verification/NetArp.v ===== *)
(** * The cache of addresses

    The circular cache of [Net] is a queue of at most [ARP_CACHE_SZ] bindings:
    a known address has its binding replaced in place, a new one is added at
    the end, and pushes the oldest one out when the queue is full. *)

From S2P Require Import Prelude.
From S2P Require Import Monad.
From S2P Require Import Vm.
From S2P Require Import Net.

Definition CAP : nat := 256.

(** ** Queues of bindings *)

Definition q_find (q : list arp_ent) (ip : Z) : option (nat * arp_ent) := list_find (fun e => a_ip e = ip) q.
Definition q_lookup (q : list arp_ent) (ip : Z) : option bytes := (fun x => a_mac x.2) <$> q_find q ip.
Definition q_learn (q : list arp_ent) (ip : Z) (mac : bytes) : list arp_ent :=
  match q_find q ip with
  | Some (i, _) => <[i := mk_arp mac ip]> q
  | None => drop (S (length q) - CAP) (q ++ [mk_arp mac ip])
  end.

Definition ips (q : list arp_ent) : list Z := a_ip <$> q.

Lemma q_find_at q ip i e : NoDup (ips q) -> q !! i = Some e -> a_ip e = ip -> q_find q ip = Some (i, e).
Proof.
  intros Hn Hi He. destruct (q_find q ip) as [[j e']|] eqn:E.
  - apply list_find_Some in E as (Hj & He' & _). f_equal.
    assert (i = j) as ->.
    { eapply NoDup_lookup; [exact Hn| |]; unfold ips; rewrite list_lookup_fmap; [by rewrite Hi|rewrite Hj; cbn; congruence]. }
    congruence.
  - apply list_find_None in E. rewrite Forall_forall in E. destruct (E e); [by eapply list_elem_of_lookup_2|done].
Qed.
Lemma q_find_none q ip : ip ∉ ips q -> q_find q ip = None.
Proof.
  intros Hi. apply list_find_None, Forall_forall. intros e He Hip. apply Hi. unfold ips. rewrite <- Hip. by apply list_elem_of_fmap_2.
Qed.

(** ** The queue a state holds *)

Definition tl (s : net) : nat := Z.to_nat (n_tail s).
Definition full (s : net) : bool := negb (a_ip (arp_at s (n_tail s)) =? 0).
Definition view (s : net) : list arp_ent :=
  if full s then drop (tl s) (n_cache s) ++ take (tl s) (n_cache s) else take (tl s) (n_cache s).
Record cache_ok (s : net) : Prop := mk_cache_ok {
  ck_len : length (n_cache s) = CAP;
  ck_tail : 0 <= n_tail s < 256;
  ck_dup : NoDup (ips (view s));
  ck_nz : 0 ∉ ips (view s);
  ck_free : full s = false -> Forall (fun e => a_ip e = 0) (drop (tl s) (n_cache s));
}.

Lemma arp_at_lookup s i e : n_cache s !! Z.to_nat i = Some e -> arp_at s i = e.
Proof. intros Hi. unfold arp_at. by apply nth_lookup_Some. Qed.
Lemma arp_end_tl s : cache_ok s -> arp_end s = if full s then 256 else n_tail s.
Proof. intros _. unfold arp_end, full. by destruct (a_ip _ =? 0). Qed.

(** The position in the queue of an entry of the cache. *)
Definition pos (s : net) (i : nat) : nat :=
  if full s then (if decide (i < tl s)%nat then CAP - tl s + i else i - tl s)%nat else i.
Lemma view_lookup s i e : cache_ok s -> 0 <= i < arp_end s -> n_cache s !! Z.to_nat i = Some e ->
  view s !! pos s (Z.to_nat i) = Some e.
Proof.
  intros Hs Hi He. rewrite arp_end_tl in Hi by done. destruct Hs as [Hl Ht _ _ _]. unfold view, pos, tl, CAP in *.
  destruct (full s).
  - case_decide.
    + rewrite lookup_app_r, length_drop by (rewrite length_drop; lia). rewrite lookup_take_lt by lia.
      by replace (256 - Z.to_nat (n_tail s) + Z.to_nat i - (length (n_cache s) - Z.to_nat (n_tail s)))%nat with (Z.to_nat i) by lia.
    + rewrite lookup_app_l by (rewrite length_drop; lia). rewrite lookup_drop.
      by replace (Z.to_nat (n_tail s) + (Z.to_nat i - Z.to_nat (n_tail s)))%nat with (Z.to_nat i) by lia.
  - by rewrite lookup_take_lt by lia.
Qed.

Lemma find_some s ip i : cache_ok s -> arp_find s ip = Some i ->
  exists e, 0 <= i < arp_end s /\ n_cache s !! Z.to_nat i = Some e /\ a_ip e = ip /\ q_find (view s) ip = Some (pos s (Z.to_nat i), e).
Proof.
  intros Hs Hf. unfold arp_find in Hf. destruct (list_find _ _) as [[k j]|] eqn:E; [|done]. injection Hf as ->.
  apply list_find_Some in E as (Hk & Hip & _). apply lookup_seqZ in Hk as [-> Hk].
  assert (0 <= 0 + Z.of_nat k < arp_end s) as Hi by lia.
  assert (arp_end s <= 256) as He by (rewrite arp_end_tl by done; destruct (full s); [lia|apply Z.lt_le_incl, Hs]).
  destruct (lookup_lt_is_Some_2 (n_cache s) (Z.to_nat (0 + Z.of_nat k))) as [e He']; [rewrite (ck_len s Hs); unfold CAP; lia|].
  exists e. rewrite (arp_at_lookup s _ e He') in Hip. split_and!; [lia|lia|done|done|].
  apply q_find_at; [apply Hs|by apply view_lookup|done].
Qed.
Lemma find_none s ip : cache_ok s -> arp_find s ip = None -> ip ∉ ips (view s).
Proof.
  intros Hs Hf Hin. unfold arp_find in Hf. destruct (list_find _ _) as [[k j]|] eqn:E; [done|]. clear Hf.
  apply list_find_None in E. rewrite Forall_forall in E. apply list_elem_of_fmap in Hin as (e & -> & He).
  assert (exists i, 0 <= i < arp_end s /\ n_cache s !! Z.to_nat i = Some e) as (i & Hi & Hie).
  { rewrite arp_end_tl by done. destruct Hs as [Hl Ht _ _ _]. unfold view, tl, CAP in *. destruct (full s).
    - rewrite elem_of_app, (or_comm (_ ∈ _)) in He.
      assert (e ∈ n_cache s) as [k Hk]%list_elem_of_lookup.
      { rewrite <- (take_drop (Z.to_nat (n_tail s)) (n_cache s)), elem_of_app. exact He. }
      exists (Z.of_nat k). rewrite Nat2Z.id. split; [|done]. apply lookup_lt_Some in Hk. lia.
    - apply list_elem_of_lookup in He as [k Hk]. apply lookup_take_Some in Hk as [Hk Hlt]. exists (Z.of_nat k). rewrite Nat2Z.id. split; [lia|done]. }
  apply (E i); [apply elem_of_seqZ; lia|]. by rewrite (arp_at_lookup s i e).
Qed.

Lemma wp_lookup s ip : cache_ok s -> wp (arp_cache_lookup ip) s (fun r s' => r = q_lookup (view s) ip /\ s' = s).
Proof.
  intros Hs. apply wp_gets. split; [|done]. unfold q_lookup. destruct (arp_find s ip) as [i|] eqn:E.
  - destruct (find_some s ip i Hs E) as (e & _ & He & _ & ->). cbn. by rewrite (arp_at_lookup s i e).
  - by rewrite q_find_none by (by apply find_none).
Qed.

(** ** Learning a binding *)

Lemma ips_insert q i ip mac e : q !! i = Some e -> a_ip e = ip -> ips (<[i := mk_arp mac ip]> q) = ips q.
Proof.
  intros Hi He. unfold ips. rewrite list_fmap_insert. cbn. apply list_insert_id. rewrite list_lookup_fmap, Hi. cbn. by rewrite He.
Qed.

(** Replacing the entry [i] of the cache in place. *)
Definition put_entry (s : net) (i : Z) (mac : bytes) (ip : Z) : net := with_cache (<[Z.to_nat i := mk_arp mac ip]> (n_cache s)) (n_tail s) s.

Lemma put_at s i mac ip j e : n_cache s !! Z.to_nat i = Some e -> a_ip e = ip ->
  a_ip (arp_at (put_entry s i mac ip) j) = a_ip (arp_at s j).
Proof.
  intros Hi He. unfold arp_at, put_entry. cbn [n_cache with_cache]. rewrite !nth_lookup.
  destruct (decide (Z.to_nat i = Z.to_nat j)) as [<-|Hne].
  - rewrite list_lookup_insert_eq by (by eapply lookup_lt_Some). by rewrite Hi.
  - by rewrite list_lookup_insert_ne.
Qed.

Lemma view_put s i mac ip e : cache_ok s -> 0 <= i < arp_end s -> n_cache s !! Z.to_nat i = Some e -> a_ip e = ip ->
  view (put_entry s i mac ip) = <[pos s (Z.to_nat i) := mk_arp mac ip]> (view s).
Proof.
  intros Hs Hi He Hip. rewrite arp_end_tl in Hi by done. unfold view, pos.
  assert (full (put_entry s i mac ip) = full s) as -> by (unfold full; by rewrite (put_at s i mac ip _ e)).
  change (tl (put_entry s i mac ip)) with (tl s). cbn [n_cache put_entry with_cache]. destruct Hs as [Hl Ht _ _ _]. unfold tl, CAP in *.
  destruct (full s).
  - case_decide.
    + rewrite drop_insert_lt, take_insert_lt by lia. rewrite insert_app_r_alt by (rewrite length_drop; lia). f_equal. f_equal.
      rewrite length_drop. lia.
    + rewrite drop_insert_ge, take_insert_ge by lia. by rewrite insert_app_l by (rewrite length_drop; lia).
  - by rewrite take_insert_lt by lia.
Qed.

Lemma put_ok s i mac ip e : cache_ok s -> 0 <= i < arp_end s -> n_cache s !! Z.to_nat i = Some e -> a_ip e = ip ->
  cache_ok (put_entry s i mac ip).
Proof.
  intros Hs Hi He Hip. pose proof (view_lookup s i e Hs Hi He) as Hv.
  pose proof (view_put s i mac ip e Hs Hi He Hip) as Ev. destruct Hs as [Hl Ht Hd Hz Hf] eqn:Es. clear Es. split.
  - cbn. by rewrite length_insert.
  - done.
  - by rewrite Ev, (ips_insert _ _ _ _ e).
  - by rewrite Ev, (ips_insert _ _ _ _ e).
  - assert (full (put_entry s i mac ip) = full s) as -> by (unfold full; by rewrite (put_at s i mac ip _ e)).
    intros Hfull. specialize (Hf Hfull). change (tl (put_entry s i mac ip)) with (tl s). cbn [n_cache put_entry with_cache].
    rewrite arp_end_tl, Hfull in Hi by by split. unfold tl in *. by rewrite drop_insert_lt by lia.
Qed.

(** Adding an entry at the end. *)
Definition push_entry (s : net) (mac : bytes) (ip : Z) : net :=
  with_cache (<[tl s := mk_arp mac ip]> (n_cache s)) ((n_tail s + 1) mod ARP_CACHE_SZ) s.

Lemma length_view s : cache_ok s -> length (view s) = if full s then CAP else tl s.
Proof.
  intros [Hl Ht _ _ _]. unfold view, tl, CAP in *. destruct (full s); rewrite ?length_app, ?length_drop, length_take; lia.
Qed.

Lemma entry_nz s k e : cache_ok s -> (full s = true \/ (k < tl s)%nat) -> n_cache s !! k = Some e -> a_ip e <> 0.
Proof.
  intros Hs Hk He Hz. apply (ck_nz s Hs). apply list_elem_of_fmap. exists e. split; [done|].
  apply lookup_lt_Some in He as Hlt. rewrite (ck_len s Hs) in Hlt.
  eapply list_elem_of_lookup_2. apply (view_lookup s (Z.of_nat k)); [done| |by rewrite Nat2Z.id].
  rewrite arp_end_tl by done. pose proof (ck_tail s Hs). unfold tl, CAP in *. destruct (full s); [lia|]. destruct Hk; [done|lia].
Qed.

Lemma push_view s mac ip : cache_ok s -> ip <> 0 ->
  view (push_entry s mac ip) = drop (S (length (view s)) - CAP) (view s ++ [mk_arp mac ip]) /\
  (full (push_entry s mac ip) = false -> Forall (fun e => a_ip e = 0) (drop (tl (push_entry s mac ip)) (n_cache (push_entry s mac ip)))).
Proof.
  intros Hs Hip. pose proof (ck_len s Hs : length (n_cache s) = 256%nat) as Hl. pose proof (ck_tail s Hs) as Ht. rewrite length_view by done.
  set (t := tl s) in *. assert (n_tail s = Z.of_nat t) as Et by (unfold t, tl; lia). assert (t < 256)%nat as Ht' by lia.
  set (c := <[t := mk_arp mac ip]> (n_cache s)).
  assert (length c = 256%nat) as Hlc by (unfold c; by rewrite length_insert).
  assert (take (S t) c = take t (n_cache s) ++ [mk_arp mac ip]) as Etake.
  { rewrite (take_S_r _ _ (mk_arp mac ip)) by (apply list_lookup_insert_eq; lia). unfold c. by rewrite take_insert_ge by lia. }
  assert (drop (S t) c = drop (S t) (n_cache s)) as Edrop by (unfold c; by rewrite drop_insert_lt by lia).
  destruct (decide (S t = 256)%nat) as [E|E].
  - assert ((n_tail s + 1) mod ARP_CACHE_SZ = 0) as E0.
    { rewrite Et. change ARP_CACHE_SZ with 256. by replace (Z.of_nat t + 1) with 256 by lia. }
    assert (c = take t (n_cache s) ++ [mk_arp mac ip]) as Ec by (rewrite <- Etake; symmetry; apply take_ge; lia).
    destruct (lookup_lt_is_Some_2 (n_cache s) 0%nat) as [e0 He0]; [lia|].
    assert (full (push_entry s mac ip) = true) as Hf.
    { unfold full, push_entry. cbn [n_tail with_cache]. rewrite E0. unfold arp_at. cbn [n_cache with_cache].
      rewrite nth_lookup. rewrite list_lookup_insert_ne by (fold t; lia). change (Z.to_nat 0) with 0%nat. rewrite He0. cbn.
      rewrite (proj2 (Z.eqb_neq _ _)); [done|]. apply (entry_nz s 0 e0 Hs); [right; fold t; lia|done]. }
    rewrite Hf. split; [|done]. unfold view. rewrite Hf. unfold tl. cbn [n_tail push_entry with_cache n_cache]. rewrite E0. change (Z.to_nat (n_tail s)) with t. fold c.
    change (Z.to_nat 0) with 0%nat. rewrite drop_0, take_0, app_nil_r. unfold CAP. destruct (full s).
    + change (257 - 256)%nat with 1%nat.
      destruct (drop t (n_cache s)) as [|x l] eqn:Ed; [apply (f_equal length) in Ed; rewrite length_drop in Ed; simpl in Ed; lia|].
      destruct l; [done|]. apply (f_equal length) in Ed. rewrite length_drop in Ed. simpl in Ed. lia.
    + by replace (S t - 256)%nat with 0%nat by lia.
  - assert ((n_tail s + 1) mod ARP_CACHE_SZ = Z.of_nat (S t)) as E0.
    { rewrite Et. change ARP_CACHE_SZ with 256. rewrite Z.mod_small by lia. lia. }
    destruct (lookup_lt_is_Some_2 (n_cache s) (S t)) as [e1 He1]; [lia|].
    assert (full (push_entry s mac ip) = full s) as Hf.
    { unfold full at 1, push_entry. cbn [n_tail with_cache]. rewrite E0. unfold arp_at. cbn [n_cache with_cache].
      rewrite nth_lookup, Nat2Z.id, list_lookup_insert_ne by (fold t; lia). rewrite He1. cbn.
      destruct (full s) eqn:Hf.
      - rewrite (proj2 (Z.eqb_neq _ _)); [done|]. apply (entry_nz s (S t) e1 Hs); [by left|done].
      - pose proof (ck_free s Hs Hf) as Hz. rewrite Forall_forall in Hz. rewrite (Hz e1); [done|]. fold t.
        apply list_elem_of_lookup. exists 1%nat. rewrite lookup_drop. by rewrite Nat.add_1_r. }
    assert (tl (push_entry s mac ip) = S t) as Et' by (unfold tl; cbn [n_tail push_entry with_cache]; rewrite E0; lia).
    rewrite Hf, Et'. cbn [n_cache push_entry with_cache]. fold t c. split.
    + unfold view. rewrite Hf, Et'. cbn [n_cache push_entry with_cache]. fold t c. rewrite Etake, Edrop. unfold CAP. destruct (full s).
      * change (257 - 256)%nat with 1%nat. destruct (lookup_lt_is_Some_2 (n_cache s) t) as [et Het]; [lia|].
        rewrite (drop_S _ et t) by done. by rewrite <- !app_assoc.
      * by replace (S t - 256)%nat with 0%nat by lia.
    + intros Hff. rewrite Edrop. pose proof (ck_free s Hs Hff) as Hz. fold t in Hz. 
      rewrite <- (Nat.add_1_r t), <- drop_drop. by apply Forall_drop.
Qed.

Lemma push_ok s mac ip : cache_ok s -> ip <> 0 -> ip ∉ ips (view s) -> cache_ok (push_entry s mac ip).
Proof.
  intros Hs Hip Hn. destruct (push_view s mac ip Hs Hip) as [Ev Hf].
  assert (ips (view s ++ [mk_arp mac ip]) = ips (view s) ++ [ip]) as Ei by (unfold ips; by rewrite fmap_app).
  assert (NoDup (ips (view s) ++ [ip])) as Hd.
  { apply NoDup_app. split_and!; [apply Hs| |apply NoDup_singleton]. intros x Hx ->%list_elem_of_singleton. done. }
  assert (forall x n, x ∈ ips (drop n (view s ++ [mk_arp mac ip])) -> x ∈ ips (view s) ++ [ip]) as Hin.
  { intros x n. rewrite <- Ei. unfold ips. rewrite fmap_drop. intros Hx. 
    rewrite <- (take_drop n (a_ip <$> (view s ++ [mk_arp mac ip]))). apply elem_of_app. by right. }
  split.
  - cbn. rewrite length_insert. apply Hs.
  - cbn. by apply Z.mod_pos_bound.
  - rewrite Ev. unfold ips. rewrite fmap_drop. fold (ips (view s ++ [mk_arp mac ip])). rewrite Ei.
    rewrite <- (take_drop (S (length (view s)) - CAP) (ips (view s) ++ [ip])) in Hd. by apply NoDup_app in Hd as (_ & _ & Hd).
  - rewrite Ev. intros [Hz|Hz]%Hin%elem_of_app; [by apply (ck_nz s Hs)|]. apply list_elem_of_singleton in Hz. done.
  - exact Hf.
Qed.

Lemma wp_update s ip mac : cache_ok s -> ip <> 0 ->
  wp (arp_cache_update ip mac) s (fun _ s' => cache_ok s' /\ view s' = q_learn (view s) ip mac).
Proof.
  intros Hs Hip. unfold arp_cache_update, q_learn. apply wp_bind, wp_gets. destruct (arp_find s ip) as [i|] eqn:E.
  - destruct (find_some s ip i Hs E) as (e & Hi & He & Hipe & ->). apply wp_bind, wp_gets, wp_when. rewrite (arp_at_lookup s i e) by done.
    rewrite Hipe. case_bool_decide as Hm; cbn [negb].
    + split; [done|]. symmetry. apply list_insert_id. rewrite (view_lookup s i e) by done. f_equal. destruct e. cbn in *. by subst.
    + apply wp_modify. split; [by eapply put_ok|]. by apply (view_put s i mac ip e).
  - pose proof (find_none s ip Hs E) as Hn. rewrite q_find_none by done. apply wp_bind, wp_gets, wp_bind, wp_modify, wp_modify.
    split; [by apply (push_ok s mac ip)|]. by destruct (push_view s mac ip Hs Hip).
Qed.

(** The queue after a sequence of packets that announce addresses. *)
Definition learnt (l : list (Z * bytes)) : list arp_ent := fold_left (fun q b => q_learn q b.1 b.2) l [].
Definition learn (l : list (Z * bytes)) : M net unit := arp_init ;; for_each l (fun b => arp_cache_update b.1 b.2).

Lemma init_ok s : exists s', arp_init s = Some (tt, s') /\ cache_ok s' /\ view s' = [].
Proof.
  eexists. split; [reflexivity|]. split; [|done]. split; [done|done| | |].
  - apply NoDup_nil_2.
  - apply not_elem_of_nil.
  - intros _. unfold tl. cbn [n_tail with_cache n_cache]. apply Forall_replicate. done.
Qed.

(** C20: from its initialisation on, whatever addresses other than 0.0.0.0 are
    announced in whatever order, the cache answers as a queue of the last 256
    addresses does, each with the last card announced for it.  (The address
    0.0.0.0, that a probe announces, marks the end of the cache and hides what
    follows: [arp_zero_hides].) *)
Theorem arp_cache_refines s l ip : Forall (fun b => b.1 <> 0) l ->
  wp (learn l ;; arp_cache_lookup ip) s (fun r _ => r = q_lookup (learnt l) ip).
Proof.
  intros Hl. unfold learn. apply wp_bind, wp_bind. destruct (init_ok s) as (s0 & E0 & H0 & V0). unfold wp at 1. rewrite E0.
  eapply wp_mono; [apply (wp_for_each (fun dn s' => cache_ok s' /\ view s' = learnt dn))|].
  - by split.
  - intros dn [i m] s1 Hx [H1 V1]. rewrite Forall_forall in Hl. eapply wp_mono; [apply wp_update; [done|by apply (Hl _ Hx)]|].
    intros _ s2 [H2 V2]. split; [done|]. unfold learnt. rewrite fold_left_app. cbn. by rewrite V2, V1.
  - intros _ s1 [H1 V1]. cbn beta. eapply wp_mono; [by apply wp_lookup|]. intros r s2 [-> _]. by rewrite V1.
Qed.

(** Two cards, the second of which takes the address of the first over. *)
Lemma arp_cache_refines_witness : exists s',
  (learn [(10, [1; 1; 1; 1; 1; 1]); (20, [2; 2; 2; 2; 2; 2]); (10, [3; 3; 3; 3; 3; 3])] ;; arp_cache_lookup 10) (mk_net [] 0 [] 0 0 0 0 [] (mk_card [] 0 [] []) []) =
    Some (Some [3; 3; 3; 3; 3; 3], s').
Proof.
  assert (Forall (fun b : Z * bytes => b.1 <> 0) [(10, [1; 1; 1; 1; 1; 1]); (20, [2; 2; 2; 2; 2; 2]); (10, [3; 3; 3; 3; 3; 3])]) as Hl.
  { repeat constructor; done. }
  destruct (wp_exists _ _ _ (arp_cache_refines (mk_net [] 0 [] 0 0 0 0 [] (mk_card [] 0 [] []) []) _ 10 Hl)) as (r & s' & E & ->).
  exists s'. exact E.
Defined.

(** The address 0, which a probe announces, is not supported: once it is where
    the next entry goes, the entries after it are no longer found. *)
Definition ex_flood : list (Z * bytes) := (0, mac_rst 0) :: ((fun i => (i, mac_rst 1)) <$> seqZ 1 255).
Lemma arp_zero_hides : exists s', (learn ex_flood ;; arp_cache_lookup 7) (mk_net [] 0 [] 0 0 0 0 [] (mk_card [] 0 [] []) []) = Some (None, s').
Proof. eexists. vm_compute. reflexivity. Qed.
