(* ===== verification/Cpu.v ===== *)
(** * Emulation of the processor (vmm/src/core/cr.c, emulate_insn.c, excp.c, intr.c, vmm/src/vmx/vmx_exit_*.c)

    The exit handlers of the privileged instructions and events: control
    register accesses, the EFER msr, sysenter and sysexit, exceptions and
    interrupts, cpuid.  They are the Intel ones, the vmm's current target. *)

From S2P Require Import Prelude.
From S2P Require Import Monad.
From S2P Require Import Pagemem.
From S2P Require Import Walk.
From S2P Require Import Vm.
From S2P Require Import Vmcs.
From S2P Require Import Machine.

(** ** Bits *)

Definition CR0_PE_BIT : Z := 0.
Definition CR0_TS_BIT : Z := 3.
Definition CR0_NW_BIT : Z := 29.
Definition CR0_CD_BIT : Z := 30.
Definition CR0_PG_BIT : Z := 31.
Definition CR4_PSE_BIT : Z := 4.
Definition CR4_PAE_BIT : Z := 5.
Definition CR4_PGE_BIT : Z := 7.
Definition EFER_LME_BIT : Z := 8.
Definition EFER_LMA_BIT : Z := 10.
Definition RFLAGS_TF_BIT : Z := 8.
Definition RFLAGS_IF_BIT : Z := 9.
Definition RFLAGS_OF_BIT : Z := 11.
Definition RFLAGS_RF_BIT : Z := 16.
Definition RFLAGS_VM_BIT : Z := 17.
Definition RFLAGS_AC_BIT : Z := 18.

(** Fields of a segment's attributes, of the entry controls and of the
    interruption information (include/vmx_types.h). *)
Definition ATTR_L_BIT : Z := 13.
Definition ATTR_D_BIT : Z := 14.
Definition ENTRY_IA32E_BIT : Z := 9.
Definition PROC_IWE_BIT : Z := 2.
Definition PROC2_DT_BIT : Z := 2.
Definition INT_DEC_BIT : Z := 11.
Definition INT_V_BIT : Z := 31.
Definition STI_BIT : Z := 0.
Definition MSS_BIT : Z := 1.

Definition VMCS_EVT_INFO_TYPE_HW_INT : Z := 0.
Definition VMCS_EVT_INFO_TYPE_HW_EXCP : Z := 3.
Definition VMCS_EVT_INFO_TYPE_SW_INT : Z := 4.

(** Exceptions (include/excp.h). *)
Definition DF_EXCP : Z := 8.
Definition TS_EXCP : Z := 10.
Definition NP_EXCP : Z := 11.
Definition SS_EXCP : Z := 12.
Definition GP_EXCP : Z := 13.
Definition AC_EXCP : Z := 17.
Definition MC_EXCP : Z := 18.
Definition VM_RMODE_EXCP_BITMAP : Z := Z.lor (Z.shiftl 1 GP_EXCP) (Z.shiftl 1 MC_EXCP).
Definition VM_PMODE_EXCP_BITMAP : Z := Z.shiftl 1 MC_EXCP.

(** ** Modes (include/cpu_modes.h)

    Functions of the shadow of cr0 the vm reads, the efer it believes in, its
    flags and the attributes of cs. *)

Definition xx_lmode (efer : Z) : bool := bit efer EFER_LMA_BIT.
Definition xx_pmode (cr0 : Z) : bool := bit cr0 CR0_PE_BIT.
Definition xx_pmode32 (cr0 rflags cs_attr : Z) : bool :=
  xx_pmode cr0 && negb (bit rflags RFLAGS_VM_BIT) && bit cs_attr ATTR_D_BIT.
Definition rmode (efer cr0 : Z) : bool := negb (xx_lmode efer) && negb (xx_pmode cr0).
Definition lmode64 (efer cs_attr : Z) : bool := xx_lmode efer && bit cs_attr ATTR_L_BIT.

Definition cpu_addr_sz (efer cr0 rflags cs_attr : Z) : Z :=
  if xx_lmode efer then
    if bit cs_attr ATTR_L_BIT then 64 else if bit cs_attr ATTR_D_BIT then 32 else 16
  else if xx_pmode32 cr0 rflags cs_attr then 32 else 16.

(** The requested privilege level of cs. *)
Definition cpl_of (cs_selector : Z) : Z := bits cs_selector 0 2.

Section cpu.
Context {V : Vmx} (ar : area_t) (max_paddr : Z).

Definition is_rmode : M mach bool :=
  efer ← gets m_efer; cr0 ← getf exec_cr0_read_shadow; mret (rmode efer cr0).
Definition cpl : M mach Z := sel ← getf st_cs_selector; mret (cpl_of sel).

(** ** Event injection *)

(** [__vmx_prepare_event_injection] *)
Definition int_info (type vector : Z) : Z :=
  set_bits (set_bits (set_bits 0 0 8 vector) 8 3 type) INT_V_BIT 1 1.
Definition vmx_prepare_event_injection (type vector : Z) : M mach unit :=
  putf entry_int_info (int_info type vector) ;; post_access entry_int_info.

Definition has_error_code (vector : Z) : bool :=
  bool_decide (vector ∈ [PF_EXCP; DF_EXCP; TS_EXCP; NP_EXCP; SS_EXCP; GP_EXCP; AC_EXCP]).

Definition inject_exception (vector error cr2 : Z) : M mach unit :=
  vmx_prepare_event_injection VMCS_EVT_INFO_TYPE_HW_EXCP vector ;;
  when (vector =? PF_EXCP) (putf st_cr2 cr2 ;; post_access st_cr2) ;;
  when (has_error_code vector)
    (put_fld entry_int_info INT_DEC_BIT 1 1 ;;
     putf entry_err_code error ;; post_access entry_err_code).

Definition inject_gp : M mach vm_code := inject_exception GP_EXCP 0 0 ;; mret VM_FAULT.

(** ** Mode transitions (vmm/src/core/vm.c, include/vmx_vm.h) *)

Definition update_exception_mask : M mach unit :=
  d ← gets m_dflt_excp; u ← gets m_usr_excp;
  putf exec_excp_bitmap (Z.lor d u) ;; post_access exec_excp_bitmap.

Definition set_dt_access (dt : Z) : M mach unit :=
  when vmx_feat_exit_dt
    (pre_access exec_proc2 ;; put_fld exec_proc2 PROC2_DT_BIT 1 dt ;; post_access exec_proc2).

Definition allow_soft_int : M mach unit :=
  set_dt_access 0 ;;
  l ← gets m_idt_saved;
  put_fld st_idtr_limit 0 16 l ;; post_access st_idtr_limit.
Definition deny_soft_int : M mach unit :=
  set_dt_access 1 ;;
  pre_access st_idtr_limit ;;
  l ← getf st_idtr_limit;
  modify (with_idt_saved (bits l 0 16)) ;;
  l ← gets m_idt_rmode;
  put_fld st_idtr_limit 0 16 l ;; post_access st_idtr_limit.

Definition vm_enter_pmode : M mach unit :=
  modify (with_dflt_excp VM_PMODE_EXCP_BITMAP) ;;
  update_exception_mask ;; allow_soft_int ;; modify (allow_io_range KBD_START_PORT KBD_END_PORT).
Definition vm_enter_rmode : M mach unit :=
  modify (with_dflt_excp VM_RMODE_EXCP_BITMAP) ;;
  update_exception_mask ;; deny_soft_int ;; modify (deny_io_range KBD_START_PORT KBD_END_PORT).

(** ** Control registers (vmm/src/core/cr.c)

    Only the low halves of cr0 and cr4 are worked on.  The debug events the
    accesses raise only concern the controller; flushes of the tlb have no
    effect on this state. *)

Definition invalid_cr0_setup (cr0 : Z) : bool :=
  (bit cr0 CR0_PG_BIT && negb (bit cr0 CR0_PE_BIT)) || (bit cr0 CR0_NW_BIT && negb (bit cr0 CR0_CD_BIT)).
Definition invalid_cr0_lmode_check (cr0 update efer cr4 cs_attr : Z) : bool :=
  bit update CR0_PG_BIT && bit cr0 CR0_PG_BIT && bit efer EFER_LME_BIT &&
  (negb (bit cr4 CR4_PAE_BIT) || bit cs_attr ATTR_L_BIT).

Definition vmx_update_efer_lma : M mach unit :=
  pre_access st_ia32_efer ;; pre_access entry_entry ;;
  efer ← gets m_efer;
  let lma := Z.b2z (bit efer EFER_LMA_BIT) in
  put_fld st_ia32_efer EFER_LMA_BIT 1 lma ;;
  put_fld st_ia32_efer EFER_LME_BIT 1 lma ;;
  put_fld entry_entry ENTRY_IA32E_BIT 1 lma ;;
  post_access entry_entry ;; post_access st_ia32_efer.

Definition efer_update (pg : bool) : M mach unit :=
  cr4 ← getf exec_cr4_read_shadow; efer ← gets m_efer;
  if pg && bit cr4 CR4_PAE_BIT && bit efer EFER_LME_BIT then
    modify (with_efer (set_bits efer EFER_LMA_BIT 1 1)) ;; vmx_update_efer_lma
  else if negb pg && bit efer EFER_LMA_BIT then
    modify (with_efer (set_bits efer EFER_LMA_BIT 1 0)) ;; vmx_update_efer_lma
  else mret tt.

Definition cr0_update (guest : Z) : M mach unit :=
  put_fld st_cr0 0 32 guest ;; put_fld exec_cr0_read_shadow 0 32 guest ;;
  post_access exec_cr0_read_shadow ;; post_access st_cr0.
Definition cr4_update (guest : Z) : M mach unit :=
  put_fld st_cr4 0 32 guest ;; put_fld exec_cr4_read_shadow 0 32 guest ;;
  post_access exec_cr4_read_shadow ;; post_access st_cr4.

(** [vmx_ept_update_pdpe]: the four entries of the vm's PAE table. *)
Definition vmx_ept_pdpe_to_pae_pdpe (f : field) (p : Z) : M mach bool :=
  m ← gets m_mem;
  putf f (rd64 m p) ;; mret (valid_pae_pdpe max_paddr (rd64 m p)).
Definition vmx_ept_update_pdpe : M mach bool :=
  cr3 ← getf st_cr3;
  let pdp := Z.shiftl (bits cr3 5 27) 5 in
  if vmm_area ar pdp then mret false
  else
    ok ← vmx_ept_pdpe_to_pae_pdpe st_pdpe_0 pdp;
    if negb ok then mret false else
    ok ← vmx_ept_pdpe_to_pae_pdpe st_pdpe_1 (pdp + 8);
    if negb ok then mret false else
    ok ← vmx_ept_pdpe_to_pae_pdpe st_pdpe_2 (pdp + 16);
    if negb ok then mret false else
    ok ← vmx_ept_pdpe_to_pae_pdpe st_pdpe_3 (pdp + 24);
    if negb ok then mret false else
    post_access st_pdpe_0 ;; post_access st_pdpe_1 ;; post_access st_pdpe_2 ;; post_access st_pdpe_3 ;;
    mret true.

(** The end the three writes share: reload the PAE entries when they are in
    use. *)
Definition pae_reload (updated : bool) : M mach bool :=
  efer ← gets m_efer; cr0 ← getf exec_cr0_read_shadow; cr4 ← getf exec_cr4_read_shadow;
  if negb (bit efer EFER_LMA_BIT) && updated && bit cr0 CR0_PG_BIT && bit cr4 CR4_PAE_BIT
  then vmx_ept_update_pdpe else mret true.

Definition resolve_cr0_wr (guest : Z) : M mach vm_code :=
  pre_access exec_cr4_read_shadow ;;
  cr0 ← getf exec_cr0_read_shadow; cr4 ← getf exec_cr4_read_shadow;
  efer ← gets m_efer; attr ← getf st_cs_attributes;
  let cr0_update_bits := Z.lxor (bits cr0 0 32) (bits guest 0 32) in
  if invalid_cr0_setup guest || invalid_cr0_lmode_check guest cr0_update_bits efer cr4 attr then inject_gp
  else
    let updated := bit cr0_update_bits CR0_NW_BIT || bit cr0_update_bits CR0_CD_BIT ||
      bit cr0_update_bits CR0_PG_BIT in
    when (bit cr0_update_bits CR0_PG_BIT) (efer_update (bit guest CR0_PG_BIT)) ;;
    when (bit cr0_update_bits CR0_PE_BIT)
      (if negb (bit guest CR0_PE_BIT) then vm_enter_rmode else vm_enter_pmode) ;;
    cr0_update guest ;;
    ok ← pae_reload updated;
    if negb ok then inject_gp else mret VM_DONE.

Definition resolve_cr3_wr (guest : Z) : M mach vm_code :=
  pre_access exec_cr4_read_shadow ;;
  efer ← gets m_efer; attr ← getf st_cs_attributes;
  (if lmode64 efer attr then putf st_cr3 guest else put_fld st_cr3 0 32 guest) ;;
  ok ← pae_reload true;
  if negb ok then inject_gp else post_access st_cr3 ;; mret VM_DONE.

Definition resolve_cr4_wr (guest : Z) : M mach vm_code :=
  pre_access exec_cr4_read_shadow ;;
  cr4 ← getf exec_cr4_read_shadow; efer ← gets m_efer;
  let cr4_update_bits := Z.lxor (bits cr4 0 32) (bits guest 0 32) in
  let updated := bit cr4_update_bits CR4_PAE_BIT || bit cr4_update_bits CR4_PSE_BIT ||
    bit cr4_update_bits CR4_PGE_BIT in
  if bit efer EFER_LMA_BIT && bit cr4_update_bits CR4_PAE_BIT && negb (bit guest CR4_PAE_BIT) then inject_gp
  else
    cr4_update guest ;;
    ok ← pae_reload updated;
    if negb ok then inject_gp else mret VM_DONE.

Definition resolve_cr_wr_any (cr v : Z) : M mach vm_code :=
  if cr =? 0 then resolve_cr0_wr v
  else if cr =? 3 then resolve_cr3_wr v
  else resolve_cr4_wr v.
Definition resolve_cr_wr_with (cr v : Z) : M mach vm_code :=
  if (cr =? 0) || (cr =? 3) || (cr =? 4) then rc ← resolve_cr_wr_any cr v; call (CTRL_EVT_CR_WR cr) ;; mret rc
  else mret VM_FAIL.
Definition resolve_cr_wr (cr gpr : Z) : M mach vm_code := v ← get_gpr gpr; resolve_cr_wr_with cr v.

Definition cr_field (cr : Z) : option field :=
  if cr =? 0 then Some exec_cr0_read_shadow
  else if cr =? 3 then Some st_cr3
  else if cr =? 4 then Some exec_cr4_read_shadow
  else None.
Definition resolve_cr_rd (cr gpr : Z) : M mach vm_code :=
  match cr_field cr with
  | None => mret VM_FAIL
  | Some f =>
      when (cr =? 4) (pre_access f) ;;
      v ← getf f;
      efer ← gets m_efer; attr ← getf st_cs_attributes;
      (if lmode64 efer attr then put_gpr gpr v else put_gpr_fld gpr 0 32 v) ;;
      call (CTRL_EVT_CR_RD cr) ;; mret VM_DONE
  end.

Definition valid_cr_access : M mach bool := rm ← is_rmode; c ← cpl; mret (rm || (c =? 0)).
Definition valid_cr_regs (gpr cr : Z) : bool := (gpr <=? GPR64_RAX) && (cr <=? 4) && negb (cr =? 1).

Definition resolve_cr (wr : bool) (cr gpr : Z) : M mach vm_code :=
  ok ← valid_cr_access;
  if negb ok then inject_gp
  else if negb (valid_cr_regs gpr cr) then mret VM_FAIL
  else if wr then resolve_cr_wr cr gpr
  else resolve_cr_rd cr gpr.

(** ** Instructions (vmm/src/core/emulate_insn.c, vmm/src/vmx/vmx_exit_cr.c) *)

Definition emulate_clts : M mach vm_code :=
  c ← cpl;
  if negb (c =? 0) then inject_gp
  else
    cr0 ← getf exec_cr0_read_shadow;
    cr0_update (Z.ldiff (bits cr0 0 32) (Z.shiftl 1 CR0_TS_BIT)) ;; mret VM_DONE.

Definition vmx_vmexit_resolve_lmsw (v : Z) : M mach vm_code :=
  cr0 ← getf exec_cr0_read_shadow;
  resolve_cr_wr_with 0 (Z.lor (Z.ldiff cr0 0xf) (Z.land v 0xf)).

(** [vm_update_rip] and [emulate_done]. *)
Definition update_rip (sz : Z) : M mach unit :=
  efer ← gets m_efer; cr0 ← getf exec_cr0_read_shadow; fl ← getf st_rflags; attr ← getf st_cs_attributes;
  rip ← getf st_rip;
  putf st_rip (vm_update_rip (cpu_addr_sz efer cr0 fl attr) rip sz) ;; post_access st_rip.
Definition clear_interrupt_shadow : M mach unit :=
  pre_access st_interrupt ;;
  put_fld st_interrupt STI_BIT 1 0 ;; put_fld st_interrupt MSS_BIT 1 0 ;; post_access st_interrupt.
Definition emulate_done (rc : vm_code) (sz : Z) : M mach vm_code :=
  when (bool_decide (rc = VM_DONE)) (update_rip sz) ;;
  when (bool_decide (rc = VM_DONE \/ rc = VM_DONE_LET_RIP))
    (modify (with_emu_done true) ;; clear_interrupt_shadow) ;;
  mret rc.

(** [__insn_sz], and the end of the handlers that emulate the instruction of
    the exit, which is [least] bytes long at least. *)
Definition insn_sz : M mach Z := pre_access info_insn_len ;; getf info_insn_len.
Definition finish (least : Z) (rc : vm_code) : M mach vm_code :=
  sz ← insn_sz; emulate_done rc (Z.max sz least).

(** The exit on a control register access, from its qualification. *)
Definition vmx_vmexit_resolve_cr_access : M mach vm_code :=
  pre_access info_qualification ;;
  q ← getf info_qualification;
  let nr := bits q 0 4 in
  let type := bits q 4 2 in
  let gpr := GPR64_RAX - Z.land (bits q 8 4) GPR64_RAX in
  if type =? 0 then rc ← resolve_cr true nr gpr; finish 0 rc
  else if type =? 1 then rc ← resolve_cr false nr gpr; finish 0 rc
  else if type =? 3 then
    if bit q 6 then mret VM_FAIL
    else v ← get_gpr gpr; rc ← vmx_vmexit_resolve_lmsw (bits v 0 16); finish 0 rc
  else rc ← emulate_clts; finish 0 rc.

(** [emulate_sysenter] and [emulate_sysexit]: the segments of the target. *)
Definition SEG_DESC_DATA_RWA : Z := 3.
Definition SEG_DESC_CODE_XRA : Z := 11.

(** The assignments to [attributes]: g, s, type, d, dpl and p. *)
Definition put_flat (f : field) (type dpl : Z) : M mach unit :=
  put_fld f 15 1 1 ;; put_fld f 4 1 1 ;; put_fld f 0 4 type ;;
  put_fld f ATTR_D_BIT 1 1 ;; put_fld f 5 2 dpl ;; put_fld f 7 1 1.

(** The flat segment [sel] of privilege [dpl] in cs or ss. *)
Definition put_segment (f_sel f_base f_limit f_attr : field) (sel type dpl : Z) : M mach unit :=
  putf f_sel (wrap16 sel) ;; put_fld f_sel 0 2 dpl ;;
  putf f_base 0 ;; putf f_limit 0xffffffff ;; put_flat f_attr type dpl.

Definition post_segments : M mach unit :=
  for_each [st_cs_selector; st_cs_base; st_cs_limit; st_cs_attributes;
            st_ss_selector; st_ss_base; st_ss_limit; st_ss_attributes] post_access.

Definition sel_index (sel : Z) : Z := bits sel 3 13.

Definition emulate_sysenter : M mach vm_code :=
  pre_access st_ia32_sysenter_cs ;; pre_access st_ia32_sysenter_esp ;; pre_access st_ia32_sysenter_eip ;;
  cs ← getf st_ia32_sysenter_cs; cr0 ← getf exec_cr0_read_shadow;
  let cs := bits cs 0 16 in
  if negb (bit cr0 CR0_PE_BIT) || (sel_index cs =? 0) then inject_gp
  else
    put_fld st_rflags RFLAGS_VM_BIT 1 0 ;; put_fld st_rflags RFLAGS_IF_BIT 1 0 ;;
    put_fld st_rflags RFLAGS_RF_BIT 1 0 ;;
    put_segment st_cs_selector st_cs_base st_cs_limit st_cs_attributes cs SEG_DESC_CODE_XRA 0 ;;
    put_fld st_cs_selector 0 2 0 ;;
    put_segment st_ss_selector st_ss_base st_ss_limit st_ss_attributes (cs + 8) SEG_DESC_DATA_RWA 0 ;;
    eip ← getf st_ia32_sysenter_eip; put_fld st_rip 0 32 (bits eip 0 32) ;;
    esp ← getf st_ia32_sysenter_esp; put_gpr_fld GPR64_RSP 0 32 (bits esp 0 32) ;;
    post_access st_rflags ;; post_access st_rip ;; post_segments ;; mret VM_DONE_LET_RIP.

Definition emulate_sysexit : M mach vm_code :=
  pre_access st_ia32_sysenter_cs ;;
  cs ← getf st_ia32_sysenter_cs; cr0 ← getf exec_cr0_read_shadow; c ← cpl;
  let cs := bits cs 0 16 in
  if negb (c =? 0) || negb (bit cr0 CR0_PE_BIT) || (sel_index cs =? 0) then inject_gp
  else
    put_segment st_cs_selector st_cs_base st_cs_limit st_cs_attributes (cs + 16) SEG_DESC_CODE_XRA 3 ;;
    put_fld st_cs_selector 0 2 3 ;;
    put_segment st_ss_selector st_ss_base st_ss_limit st_ss_attributes (cs + 24) SEG_DESC_DATA_RWA 3 ;;
    ecx ← get_gpr GPR64_RCX; put_gpr_fld GPR64_RSP 0 32 (bits ecx 0 32) ;;
    edx ← get_gpr GPR64_RDX; put_fld st_rip 0 32 (bits edx 0 32) ;;
    post_access st_rip ;; post_segments ;; mret VM_DONE_LET_RIP.

(** ** EFER (vmm/src/vmx/vmx_exit_msr.c) *)

Definition gpr_low (r : Z) : M mach Z := v ← get_gpr r; mret (bits v 0 32).

Definition resolve_msr_efer (wr : bool) : M mach vm_code :=
  efer ← gets m_efer;
  if wr then
    eax ← gpr_low GPR64_RAX; edx ← gpr_low GPR64_RDX;
    let update := Z.lxor (bits efer 0 32) eax in
    let efer := Z.land (eax + edx * 2 ^ 32) 0xd01 in
    modify (with_efer efer) ;;
    put_fld st_ia32_efer 0 32 (bits efer 0 32) ;; put_fld st_ia32_efer 32 32 (bits efer 32 32) ;;
    pre_access entry_entry ;;
    e ← getf entry_entry;
    let ia32e := Z.b2z (bit e ENTRY_IA32E_BIT) in
    put_fld st_ia32_efer EFER_LMA_BIT 1 ia32e ;; put_fld st_ia32_efer EFER_LME_BIT 1 ia32e ;;
    post_access st_ia32_efer ;;
    when (bit efer EFER_LMA_BIT && negb (bit efer EFER_LME_BIT))
      (modify (with_efer (set_bits efer EFER_LMA_BIT 1 0))) ;;
    cr0 ← getf exec_cr0_read_shadow;
    if bit update EFER_LME_BIT && bit cr0 CR0_PG_BIT then inject_gp else mret VM_DONE
  else
    put_gpr_fld GPR64_RAX 0 32 (bits efer 0 32) ;; put_gpr_fld GPR64_RDX 0 32 (bits efer 32 32) ;;
    mret VM_DONE.

(** ** Interrupts (vmm/src/core/intr.c, vmm/src/vmx/vmx_exit_int.c) *)

Definition setup_interrupt_window_exiting (enable : bool) (vector : Z) : M mach unit :=
  pre_access exec_proc ;;
  p ← getf exec_proc;
  when (xorb enable (bit p PROC_IWE_BIT))
    (put_fld exec_proc PROC_IWE_BIT 1 (Z.b2z enable) ;; post_access exec_proc ;;
     modify (with_irq_pending vector)).

Definition inject_interrupt (vector : Z) : M mach unit :=
  vmx_prepare_event_injection VMCS_EVT_INFO_TYPE_HW_INT vector ;;
  fl ← getf st_rflags;
  when (negb (bit fl RFLAGS_IF_BIT)) (put_fld st_rflags RFLAGS_IF_BIT 1 1 ;; post_access st_rflags) ;;
  pre_access st_interrupt ;;
  i ← getf st_interrupt;
  when (bit i STI_BIT || bit i MSS_BIT)
    (put_fld st_interrupt STI_BIT 1 0 ;; put_fld st_interrupt MSS_BIT 1 0 ;; post_access st_interrupt).

Definition vmx_vmexit_resolve_iwe : M mach vm_code :=
  v ← gets m_irq_pending;
  inject_interrupt v ;; setup_interrupt_window_exiting false 0xff ;; mret VM_DONE.

(** [__safe_interrupts_on] *)
Definition safe_interrupts_on : M mach bool :=
  fl ← getf st_rflags;
  if bit fl RFLAGS_IF_BIT then
    pre_access st_interrupt ;; i ← getf st_interrupt; mret (negb (bit i STI_BIT || bit i MSS_BIT))
  else mret false.

Definition resolve_intr : M mach vm_code :=
  v ← gets m_irq_vector;
  if v =? 0xc0 then fail
  else
    on ← safe_interrupts_on;
    (if negb on then setup_interrupt_window_exiting true v else inject_interrupt v) ;; mret VM_DONE.

Definition vmx_vmexit_resolve_intr : M mach vm_code :=
  pre_access info_int_info ;;
  i ← getf info_int_info;
  modify (with_irq_vector (bits i 0 8)) ;; resolve_intr.

(** [__injecting_event], [__clear_event_injection] *)
Definition injecting_event : M mach bool := i ← getf entry_int_info; mret (bit i INT_V_BIT).
Definition clear_event_injection : M mach unit :=
  i ← getf entry_int_info;
  when (bit i INT_V_BIT)
    (when ((bits i 8 3 =? VMCS_EVT_INFO_TYPE_HW_EXCP) && (bits i 0 8 =? PF_EXCP)) (on_vmcs (vmcs_clear st_cr2)) ;;
     put_fld entry_int_info INT_V_BIT 1 0 ;; post_access entry_int_info).

(** [vmx_vmexit_idt_deliver]: an event the exit interrupted is delivered
    again, unless another one is to be injected. *)
Definition idt_deliver_rmode (idt : Z) : M mach vm_code :=
  let type := bits idt 8 3 in
  if (type =? VMCS_EVT_INFO_TYPE_SW_INT) || (type =? VMCS_EVT_INFO_TYPE_HW_INT) then mret VM_DONE
  else mret VM_FAIL.
Definition idt_deliver_pmode (idt : Z) : M mach vm_code :=
  pre_access entry_int_info ;;
  i ← getf entry_int_info;
  if negb (bit i INT_V_BIT) then
    when (bits idt 8 3 =? VMCS_EVT_INFO_TYPE_SW_INT)
      (putf entry_insn_len 2 ;; post_access entry_insn_len) ;;
    when (bit idt INT_DEC_BIT)
      (pre_access info_idt_err_code ;;
       e ← getf info_idt_err_code; putf entry_err_code e ;; post_access entry_err_code) ;;
    putf entry_int_info idt ;; put_fld entry_int_info 12 19 0 ;; post_access entry_int_info ;;
    mret VM_DONE
  else mret VM_FAIL.
Definition idt_deliver : M mach vm_code :=
  pre_access info_idt_info ;;
  idt ← getf info_idt_info;
  if negb (bit idt INT_V_BIT) then
    pre_access info_int_info ;;
    i ← getf info_int_info;
    when (bit i 12 && negb (bits i 0 8 =? DF_EXCP))
      (pre_access st_interrupt ;; put_fld st_interrupt 3 1 1 ;; post_access st_interrupt) ;;
    mret VM_DONE
  else
    rm ← is_rmode;
    if (rm : bool) then idt_deliver_rmode idt else idt_deliver_pmode idt.
End cpu.
