(* ===== verification/CpuRegs.v ===== *)
(** * Other registers of the vm's processor (vmm/src/core/dr.c, msr.c, cpuid.c, insn.c, vmm/src/vmx/vmx_exit_dr.c, vmx_exit_msr.c, vmx_exit_cpuid.c)

    The debug registers the vm sees are a shadow of the vmm; the model
    specific registers and the processor identification go to the processor,
    apart from those that would show the vmm or reach it. *)

From S2P Require Import Prelude.
From S2P Require Import Monad.
From S2P Require Import Walk.
From S2P Require Import Vmcs.
From S2P Require Import Machine.
From S2P Require Import Cpu.

Definition UD_EXCP : Z := 6.
Definition DB_EXCP : Z := 1.
Definition CR4_DE_BIT : Z := 3.
Definition DR6_BD_BIT : Z := 13.
Definition DR7_GD_BIT : Z := 13.

Section regs.
Context {V : Vmx}.

Definition emulate_native : M mach unit := modify (with_emu_done false).

(** Two halves of a register: the low halves of rax and rdx. *)
Definition low_of (v : Z) : Z := bits v 0 32.
Definition high_of (v : Z) : Z := bits v 32 32.
Definition put_edx_eax (v : Z) : M mach unit :=
  put_gpr_fld GPR64_RAX 0 32 (low_of v) ;; put_gpr_fld GPR64_RDX 0 32 (high_of v).
Definition edx_eax : M mach Z :=
  eax ← gpr_low GPR64_RAX; edx ← gpr_low GPR64_RDX; mret (eax + edx * 2 ^ 32).

(** ** Debug registers

    [dr_shadow] has six entries: dr4 and dr5 are dr6 and dr7. *)

Definition get_drs (n : Z) : M mach Z := gets (fun s => m_dr s n).
Definition put_drs (n v : Z) : M mach unit :=
  modify (fun s => with_dr (fun k => if decide (n = k) then v else m_dr s k) s).

Definition resolve_dr_rd (dr gpr : Z) : M mach vm_code :=
  v ← get_drs dr; put_gpr_fld gpr 0 32 (low_of v) ;; mret VM_DONE.

(** The reserved bits of the low halves of dr6 and dr7. *)
Definition dr_reserved (dr v : Z) : Z :=
  if dr =? 4 then Z.lor (Z.land v 0xfffffeff) 0xffff0ff0
  else if dr =? 5 then Z.lor (Z.land v 0xffff23ff) 0x400
  else v.
Definition resolve_dr_wr (dr gpr : Z) : M mach vm_code :=
  v ← gpr_low gpr; old ← get_drs dr;
  put_drs dr (set_bits old 0 32 (dr_reserved dr v)) ;; mret VM_DONE.

Definition valid_dr_regs (gpr dr : Z) : bool := (gpr <=? GPR64_RAX) && (dr <=? 7).

Definition resolve_dr (wr : bool) (dr gpr : Z) : M mach vm_code :=
  ok ← valid_cr_access;
  if negb ok then inject_gp
  else if negb (valid_dr_regs gpr dr) then mret VM_FAIL
  else
    cr4 ← getf exec_cr4_read_shadow;
    if bit cr4 CR4_DE_BIT && ((dr =? 4) || (dr =? 5)) then
      inject_exception UD_EXCP 0 0 ;; mret VM_FAULT
    else
      let dr := if 5 <? dr then dr - 2 else dr in
      dr7 ← get_drs 5;
      if (dr =? 5) && bit dr7 DR7_GD_BIT then
        dr6 ← get_drs 4;
        put_drs 4 (set_bits dr6 DR6_BD_BIT 1 1) ;;
        put_drs 5 (set_bits dr7 DR7_GD_BIT 1 0) ;;
        inject_exception DB_EXCP 0 0 ;; mret VM_FAULT
      else if wr then resolve_dr_wr dr gpr
      else resolve_dr_rd dr gpr.

(** The exit on a debug register access, from its qualification. *)
Definition vmx_vmexit_resolve_dr_access : M mach vm_code :=
  pre_access info_qualification ;;
  q ← getf info_qualification;
  let gpr := GPR64_RAX - Z.land (bits q 8 4) GPR64_RAX in
  rc ← resolve_dr (negb (bit q 4)) (bits q 0 3) gpr; finish 0 rc.

(** ** Model specific registers *)

Definition IA32_MTRR_DEF_TYPE : Z := 0x2ff.
Definition IA32_EFER_MSR : Z := 0xc0000080.
Definition IA32_SYSENTER_CS_MSR : Z := 0x174.
Definition IA32_SYSENTER_ESP_MSR : Z := 0x175.
Definition IA32_SYSENTER_EIP_MSR : Z := 0x176.
Definition IA32_PAT_MSR : Z := 0x277.
Definition IA32_DBG_CTL_MSR : Z := 0x1d9.
Definition IA32_PERF_GLB_CTL_MSR : Z := 0x38d.
Definition MSR_INSN_SZ : Z := 2.

(** The default memory type the vm sees; enabling or disabling it also remaps
    the memory of the vm with the types it asks for. *)
Definition MTRR_DEF_E_BIT : Z := 11.
Definition resolve_msr_mtrr_def (wr : bool) : M mach vm_code :=
  if wr then
    v ← edx_eax; old ← gets m_mtrr_def;
    modify (with_mtrr_def v) ;;
    when (bit (Z.lxor old v) MTRR_DEF_E_BIT) (call VMX_EPT_REMAP) ;; mret VM_DONE
  else v ← gets m_mtrr_def; put_edx_eax v ;; mret VM_DONE.

(** A register of the control structure: 64 bits, or the 32 of sysenter_cs. *)
Definition resolve_msr_field (f : field) (wr : bool) : M mach vm_code :=
  if wr then
    eax ← gpr_low GPR64_RAX; put_fld f 0 32 eax ;;
    edx ← gpr_low GPR64_RDX; put_fld f 32 32 edx ;;
    post_access f ;; mret VM_DONE
  else pre_access f ;; v ← getf f; put_edx_eax v ;; mret VM_DONE.
Definition resolve_msr_sysenter_cs (wr : bool) : M mach vm_code :=
  if wr then eax ← gpr_low GPR64_RAX; putf st_ia32_sysenter_cs eax ;; post_access st_ia32_sysenter_cs ;; mret VM_DONE
  else
    pre_access st_ia32_sysenter_cs ;;
    v ← getf st_ia32_sysenter_cs; put_gpr_fld GPR64_RAX 0 32 v ;; mret VM_DONE.

(** [__vmx_vmexit_resolve_msr] *)
Definition msr_field (msr : Z) : option field :=
  if msr =? IA32_SYSENTER_ESP_MSR then Some st_ia32_sysenter_esp
  else if msr =? IA32_SYSENTER_EIP_MSR then Some st_ia32_sysenter_eip
  else if msr =? IA32_PAT_MSR then Some st_ia32_pat
  else if msr =? IA32_DBG_CTL_MSR then Some st_ia32_dbgctl
  else if msr =? IA32_PERF_GLB_CTL_MSR then Some st_ia32_perf
  else None.
Definition resolve_msr_arch (wr : bool) : M mach vm_code :=
  msr ← gpr_low GPR64_RCX;
  if msr =? IA32_MTRR_DEF_TYPE then resolve_msr_mtrr_def wr
  else if msr =? IA32_EFER_MSR then resolve_msr_efer wr
  else if negb vmx_msr_proxy then mret VM_NATIVE
  else if msr =? IA32_SYSENTER_CS_MSR then resolve_msr_sysenter_cs wr
  else match msr_field msr with
  | Some f => resolve_msr_field f wr
  | None => mret VM_NATIVE
  end.

(** The instruction itself: the write goes to the processor, outside of this
    state. *)
Definition native_msr (wr : bool) : M mach unit :=
  emulate_native ;;
  if wr then mret tt else msr ← gpr_low GPR64_RCX; put_edx_eax (vmx_rdmsr msr).

Definition resolve_msr (wr : bool) : M mach vm_code :=
  rc ← resolve_msr_arch wr;
  rc ← (if bool_decide (rc = VM_NATIVE) then native_msr wr ;; mret VM_DONE else mret rc);
  finish MSR_INSN_SZ rc.

(** ** Processor identification *)

Definition CPUID_INSN_SZ : Z := 2.
Definition CPUID_BASIC_INFO : Z := 0.
Definition CPUID_FEATURE_INFO : Z := 1.
Definition CPUID_PROC_SERIAL : Z := 3.
Definition CPUID_MAX_EXT : Z := 0x80000000.
Definition CPUID_BRAND_STR1 : Z := 0x80000002.
Definition CPUID_BRAND_STR2 : Z := 0x80000003.
Definition CPUID_BRAND_STR3 : Z := 0x80000004.
Definition CPUID_MSHYPERV_RANGE : Z := 0x40000000.
Definition CPUID_MSHYPERV_ID : Z := 0x40000001.
Definition CPUID_MSHYPERV_FEAT : Z := 0x40000003.
Definition CPUID_ECX_FEAT_VMX_BIT : Z := 5.

Definition put_regs (eax ebx ecx edx : Z) : M mach unit :=
  put_gpr_fld GPR64_RAX 0 32 eax ;; put_gpr_fld GPR64_RBX 0 32 ebx ;;
  put_gpr_fld GPR64_RCX 0 32 ecx ;; put_gpr_fld GPR64_RDX 0 32 edx.

(** [CONFIG_CPUID_QEMU] *)
Inductive cpuid_qemu := CPUID_QEMU_NONE | CPUID_QEMU_USER | CPUID_QEMU_ALL.

(** The answers of the emulated processor. *)
Definition qemu_answer (idx : Z) : option (Z * Z * Z * Z) :=
  if idx =? CPUID_MAX_EXT then Some (0x8000000a, 0x68747541, 0x444d4163, 0x69746e65)
  else if idx =? CPUID_BASIC_INFO then Some (0x00000004, 0x68747541, 0x444d4163, 0x69746e65)
  else if idx =? CPUID_FEATURE_INFO then Some (0x00000663, 0x00000800, 0x80802001, 0x078bfbf9)
  else if idx =? CPUID_PROC_SERIAL then Some (0, 0, 0, 0)
  else if idx =? CPUID_BRAND_STR1 then Some (0x554d4551, 0x72695620, 0x6c617574, 0x55504320)
  else if idx =? CPUID_BRAND_STR2 then Some (0x72657620, 0x6e6f6973, 0x302e3220, 0x0000302e)
  else if idx =? CPUID_BRAND_STR3 then Some (0, 0, 0, 0)
  else None.
Definition resolve_cpuid_qemu (q : cpuid_qemu) (idx : Z) : M mach vm_code :=
  c ← cpl;
  let on := match q with CPUID_QEMU_NONE => false | CPUID_QEMU_USER => c =? 3 | CPUID_QEMU_ALL => true end in
  match (if on then qemu_answer idx else None) with
  | Some (a, b, c, d) => put_regs a b c d ;; mret VM_DONE
  | None => mret VM_IGNORE
  end.

Definition resolve_cpuid_mshyperv (idx : Z) : M mach vm_code :=
  if (idx =? CPUID_MSHYPERV_RANGE) || (idx =? CPUID_MSHYPERV_ID) || (idx =? CPUID_MSHYPERV_FEAT)
  then put_regs 0 0 0 0 ;; mret VM_DONE else mret VM_IGNORE.

Definition resolve_cpuid_native : M mach unit :=
  emulate_native ;;
  eax ← gpr_low GPR64_RAX; ecx ← gpr_low GPR64_RCX;
  let '(a, b, c, d) := vmx_cpuid eax ecx in put_regs a b c d.
Definition vmx_vmexit_resolve_cpuid (idx : Z) : M mach unit :=
  when (idx =? CPUID_FEATURE_INFO)
    (ecx ← gpr_low GPR64_RCX; put_gpr_fld GPR64_RCX 0 32 (set_bits ecx CPUID_ECX_FEAT_VMX_BIT 1 0)).

Definition resolve_cpuid_any (q : cpuid_qemu) (idx : Z) : M mach unit :=
  rc ← resolve_cpuid_qemu q idx;
  if bool_decide (rc = VM_DONE) then mret tt else
  rc ← resolve_cpuid_mshyperv idx;
  if bool_decide (rc = VM_DONE) then mret tt else
  resolve_cpuid_native ;; vmx_vmexit_resolve_cpuid idx.
Definition resolve_cpuid_of (q : cpuid_qemu) : M mach vm_code :=
  idx ← gpr_low GPR64_RAX;
  resolve_cpuid_any q idx ;; call (CTRL_EVT_CPUID idx) ;; mret VM_DONE.
Definition resolve_cpuid (q : cpuid_qemu) : M mach vm_code :=
  rc ← resolve_cpuid_of q; finish CPUID_INSN_SZ rc.

(** ** Other instructions (vmm/src/core/insn.c)

    Those that only have an effect on the processor. *)

Definition INVD_INSN_SZ : Z := 2.
Definition WBINVD_INSN_SZ : Z := 2.
Definition XSETBV_INSN_SZ : Z := 3.
Definition resolve_invd : M mach vm_code := emulate_native ;; finish INVD_INSN_SZ VM_DONE.
Definition resolve_wbinvd : M mach vm_code := emulate_native ;; finish WBINVD_INSN_SZ VM_DONE.
Definition resolve_hlt : M mach vm_code := emulate_native ;; mret VM_FAIL.

(** x87, sse and avx in xcr0. *)
Definition valid_xcr0 (xcr0 : Z) : bool := bit xcr0 0 && negb (bit xcr0 2 && negb (bit xcr0 1)).
Definition resolve_xsetbv : M mach vm_code :=
  emulate_native ;;
  xcr0 ← edx_eax; ecx ← gpr_low GPR64_RCX;
  if negb (ecx =? 0) || negb (valid_xcr0 xcr0) then inject_gp else finish XSETBV_INSN_SZ VM_DONE.
End regs.
