(* ===== verification/Rmode.v ===== *)
(** * Emulation of instructions (vmm/src/core/emulate_insn.c, emulate_int.c, emulate_int15.c, emulate_rmode.c, vmm/src/vmx/vmx_exit_gp.c)

    The instructions the vmm emulates for the vm, as the disassembler decodes
    them: moves of the control and debug registers, fast system calls, and the
    interrupts of real mode, the memory map service of the bios among them.
    The real mode stack and the interrupt table are in the memory of the vm,
    which the emulation reaches by its physical addresses. *)

From S2P Require Import Prelude.
From S2P Require Import Monad.
From S2P Require Import Walk.
From S2P Require Import Vm.
From S2P Require Import Words.
From S2P Require Import Vmcs.
From S2P Require Import Machine.
From S2P Require Import Cpu.
From S2P Require Import CpuRegs.

Definition RFLAGS_CF_BIT : Z := 0.
Definition BIOS_MISC_INTERRUPT : Z := 0x15.
Definition BIOS_GET_SMAP : Z := 0xe820.
Definition BIOS_SMAP_ID : Z := 0x534d4150.
Definition BIOS_SMAP_ERROR : Z := 0x86.
Definition BIOS_GET_EXT_MEM_32 : Z := 0xe881.
Definition BIOS_GET_EXT_MEM : Z := 0xe801.
Definition BIOS_DISABLE_A20 : Z := 0x2400.
Definition BIOS_ENABLE_A20 : Z := 0x2401.
Definition BIOS_STATUS_A20 : Z := 0x2402.
Definition BIOS_SUPPORT_A20 : Z := 0x2403.
Definition BIOS_GET_BIG_MEM : Z := 0x8a.
Definition BIOS_OLD_GET_EXT_MEM : Z := 0x88.

(** ** Decoded instructions

    What the emulation uses of the disassembler's answer; registers are
    numbered as in its enumeration (vmm/src/disasm/types.h). *)

Inductive ud_mnemonic :=
  | UD_Iint | UD_Imov | UD_Isysenter | UD_Isysexit | UD_Iiretw | UD_Iiretd | UD_Iiretq | UD_Iclts
  | UD_Iint1 | UD_Iint3 | UD_Iinto | UD_Ibound | UD_Iother.
Inductive ud_type := UD_OP_REG | UD_OP_IMM | UD_OP_OTHER.
Record ud_operand := mk_operand { op_type : ud_type; op_base : Z; op_ubyte : Z }.
Record ud_t := mk_ud { ud_mn : ud_mnemonic; ud_op1 : ud_operand; ud_op2 : ud_operand; ud_pfx : bool; ud_len : Z }.

Definition UD_R_EAX : Z := 37.
Definition UD_R_RAX : Z := 53.
Definition UD_R_CR0 : Z := 75.
Definition UD_R_CR4 : Z := 79.
Definition UD_R_DR0 : Z := 91.
Definition UD_R_DR7 : Z := 98.

Section rmode.
(** The map of the vm, what the debugger does with the trap and resume flags,
    and the word an uninitialised variable holds. *)
Context {V : Vmx} (ar : area_t) (max_paddr : Z) (smap_raw smap_nr : Z) (stp brk_insn : bool) (x0 : Z).

(** ** Real mode (emulate_rmode.c) *)

Definition get_wlow (r : Z) : M mach Z := v ← get_gpr r; mret (bits v 0 16).
Definition put_wlow (r v : Z) : M mach unit := put_gpr_fld r 0 16 v.
Definition base_low (f : field) : M mach Z := v ← getf f; mret (bits v 0 32).

Definition emulate_rmode_push (value : Z) : M mach unit :=
  pre_access st_ss_base ;;
  sp ← get_wlow GPR64_RSP; put_wlow GPR64_RSP (wrap16 (sp - 2)) ;;
  sp ← get_wlow GPR64_RSP; base ← base_low st_ss_base;
  modify (fun s => with_mem (wr16 (m_mem s) (wrap32 (base + sp)) value) s).

Definition emulate_rmode_pop : M mach Z :=
  pre_access st_ss_base ;;
  sp ← get_wlow GPR64_RSP; base ← base_low st_ss_base;
  put_wlow GPR64_RSP (wrap16 (sp + 2)) ;;
  gets (fun s => rd16 (m_mem s) (wrap32 (base + sp))).

(** [segment] is a 16-bit number, [offset] has 16 bits and a zero high half. *)
Definition emulate_rmode_far_jump (segment offset : Z) : M mach unit :=
  putf st_cs_selector segment ;;
  put_fld st_cs_base 0 32 (Z.shiftl segment 4) ;;
  put_fld st_rip 0 32 offset ;;
  post_access st_cs_selector ;; post_access st_cs_base ;; post_access st_rip.

Definition emulate_rmode_far_call (segment offset insn_sz : Z) : M mach unit :=
  cs ← getf st_cs_selector; emulate_rmode_push cs ;;
  rip ← getf st_rip; emulate_rmode_push (wrap16 (bits rip 0 16 + insn_sz)) ;;
  emulate_rmode_far_jump segment offset.

Definition emulate_rmode_far_ret (add_sp : Z) : M mach unit :=
  ip ← emulate_rmode_pop; put_fld st_rip 0 16 ip ;;
  cs ← emulate_rmode_pop; putf st_cs_selector cs ;;
  put_fld st_cs_base 0 32 (Z.shiftl cs 4) ;;
  when (negb (add_sp =? 0)) (sp ← get_wlow GPR64_RSP; put_wlow GPR64_RSP (wrap16 (sp + add_sp))) ;;
  post_access st_rip ;; post_access st_cs_base ;; post_access st_cs_selector.

Definition emulate_rmode_iret : M mach vm_code :=
  emulate_rmode_far_ret 0 ;;
  fl ← emulate_rmode_pop; put_fld st_rflags 0 16 fl ;;
  post_access st_rflags ;; mret VM_DONE_LET_RIP.

(** ** Bios services (emulate_int15.c, vmm/src/core/device.c) *)

Definition set_cf (b : bool) : M mach unit := put_fld st_rflags RFLAGS_CF_BIT 1 (Z.b2z b).
Definition succeed : M mach vm_code := set_cf false ;; post_access st_rflags ;; mret VM_DONE.

Definition put_blow (r v : Z) : M mach unit := put_gpr_fld r 0 8 v.
Definition put_bhigh (r v : Z) : M mach unit := put_gpr_fld r 8 8 v.

(** The wrap-around of the addresses is not implemented: only the flag is. *)
Definition dev_a20_set (on : Z) : M mach unit :=
  a20 ← gets m_a20; when (negb (on =? a20)) (modify (with_a20 on)).

Definition emulate_int15_a20 (on : Z) : M mach vm_code :=
  put_bhigh GPR64_RAX 0 ;; set_cf false ;; post_access st_rflags ;; dev_a20_set on ;; mret VM_DONE.
Definition emulate_int15_a20_status : M mach vm_code :=
  a20 ← gets m_a20;
  put_blow GPR64_RAX a20 ;; put_bhigh GPR64_RAX 0 ;; put_wlow GPR64_RCX 0 ;; succeed.
Definition emulate_int15_a20_support : M mach vm_code :=
  put_bhigh GPR64_RAX 0 ;; put_wlow GPR64_RBX 2 ;; succeed.

(** The loop over the entries: the first available one at 1MB. *)
Definition ext_mem_entry (m : gmap Z Z) (n : Z) : option Z :=
  let e := smap_entry m smap_raw n in
  if (sm_type e =? SMAP_TYPE_AVL) && (sm_base e =? 0x100000)
  then Some (Z.shiftr (wrap64 (sm_base e + sm_len e - 16 * 2 ^ 20)) 16) else None.
Fixpoint ext_mem_find (m : gmap Z Z) (ns : list Z) : Z :=
  match ns with
  | [] => x0
  | n :: ns => match ext_mem_entry m n with Some x => x | None => ext_mem_find m ns end
  end.
Definition emulate_int15_get_ext_mem : M mach vm_code :=
  m ← gets m_mem;
  let x := ext_mem_find m (seqZ 0 smap_nr) in
  if x =? 0 then mret VM_FAIL
  else
    put_wlow GPR64_RAX (Z.shiftl 15 10) ;; put_wlow GPR64_RBX x ;;
    v ← get_wlow GPR64_RAX; put_wlow GPR64_RCX v ;;
    v ← get_wlow GPR64_RBX; put_wlow GPR64_RDX v ;; succeed.
Definition emulate_int15_old_get_ext_mem : M mach vm_code :=
  put_wlow GPR64_RAX (Z.shiftl 15 10) ;; succeed.

Definition put_low (r v : Z) : M mach unit := put_gpr_fld r 0 32 v.

(** [memcpy] of an entry, or of its end, to es:di. *)
Definition smap_copy (src : Z) : M mach vm_code :=
  pre_access st_es_base ;;
  base ← base_low st_es_base; di ← get_wlow GPR64_RDI; n ← gpr_low GPR64_RCX;
  let dst := wrap32 (base + di) in
  if vmm_area_range ar dst n then mret VM_FAIL
  else modify (fun s => with_mem (mem_write (m_mem s) dst (mem_read (m_mem s) src n)) s) ;; mret VM_DONE.
Definition emulate_int15_smap : M mach vm_code :=
  edx ← gpr_low GPR64_RDX; ecx ← gpr_low GPR64_RCX;
  if negb (edx =? BIOS_SMAP_ID) then mret VM_FAULT
  else if ecx <? sizeof_smap_e then mret VM_FAULT
  else
    when (sizeof_smap_e <? ecx) (put_low GPR64_RCX sizeof_smap_e) ;;
    crt_offset ← gpr_low GPR64_RBX;
    let top_offset := smap_nr * sizeof_smap_e in
    if top_offset <=? crt_offset then put_low GPR64_RBX 0 ;; put_low GPR64_RCX 0 ;; mret VM_DONE
    else
      let remaining := top_offset - crt_offset in
      (if remaining <=? sizeof_smap_e then put_low GPR64_RBX 0 ;; put_low GPR64_RCX remaining
       else ecx ← gpr_low GPR64_RCX; put_low GPR64_RBX (crt_offset + ecx)) ;;
      smap_copy (smap_raw + crt_offset).

Definition emulate_int15_get_smap : M mach vm_code :=
  rc ← emulate_int15_smap;
  match rc with
  | VM_DONE => set_cf false ;; put_low GPR64_RAX BIOS_SMAP_ID ;; post_access st_rflags ;; mret VM_DONE
  | VM_FAULT => set_cf true ;; put_bhigh GPR64_RAX BIOS_SMAP_ERROR ;; post_access st_rflags ;; mret VM_DONE
  | _ => mret VM_FAIL
  end.

Definition emulate_int15 : M mach vm_code :=
  ax ← get_wlow GPR64_RAX;
  if ax =? BIOS_GET_SMAP then emulate_int15_get_smap
  else if (ax =? BIOS_GET_EXT_MEM_32) || (ax =? BIOS_GET_EXT_MEM) then emulate_int15_get_ext_mem
  else if ax =? BIOS_DISABLE_A20 then emulate_int15_a20 0
  else if ax =? BIOS_ENABLE_A20 then emulate_int15_a20 1
  else if ax =? BIOS_STATUS_A20 then emulate_int15_a20_status
  else if ax =? BIOS_SUPPORT_A20 then emulate_int15_a20_support
  else
    let ah := bits ax 8 8 in
    if ah =? BIOS_OLD_GET_EXT_MEM then emulate_int15_old_get_ext_mem
    else if ah =? BIOS_GET_BIG_MEM then mret VM_FAIL
    else mret VM_DONE_LET_RIP.

(** ** Interrupts *)

Definition rmode_deliver (vector insn_sz : Z) : M mach vm_code :=
  m ← gets m_mem;
  let segment := rd16 m (4 * vector + 2) in
  let offset := rd16 m (4 * vector) in
  fl ← getf st_rflags; emulate_rmode_push (bits fl 0 16) ;;
  put_fld st_rflags RFLAGS_IF_BIT 1 0 ;; put_fld st_rflags RFLAGS_AC_BIT 1 0 ;;
  when (negb stp) (put_fld st_rflags RFLAGS_TF_BIT 1 0) ;;
  when (negb brk_insn) (put_fld st_rflags RFLAGS_RF_BIT 1 0) ;;
  emulate_rmode_far_call segment offset insn_sz ;;
  post_access st_rflags ;; mret VM_DONE_LET_RIP.
Definition emulate_rmode_interrupt (vector insn_sz : Z) : M mach vm_code :=
  rc ← (if vector =? BIOS_MISC_INTERRUPT then emulate_int15 else mret VM_DONE_LET_RIP);
  if negb (bool_decide (rc = VM_DONE_LET_RIP)) then mret rc else rmode_deliver vector insn_sz.

(** emulate_int.c *)
Definition emulate_interrupt (vector insn_sz : Z) : M mach vm_code :=
  rm ← is_rmode; if (rm : bool) then emulate_rmode_interrupt vector insn_sz else mret VM_FAIL.
Definition emulate_hard_interrupt (vector : Z) : M mach vm_code := emulate_interrupt vector 0.
Definition emulate_into : M mach vm_code :=
  fl ← getf st_rflags; mret (if negb (bit fl RFLAGS_OF_BIT) then VM_DONE else VM_FAIL).
Definition emulate_intn (d : ud_t) : M mach vm_code :=
  match op_type (ud_op1 d) with
  | UD_OP_IMM => emulate_interrupt (op_ubyte (ud_op1 d)) (ud_len d)
  | _ => mret VM_FAIL
  end.

(** ** Instructions (emulate_insn.c) *)

Definition in_range (v a b : Z) : bool := (a <=? v) && (v <=? b).
(** [__emulate_get_gpr]: the index of a register in the saved ones. *)
Definition emulate_get_gpr (op : ud_operand) : Z :=
  let gpr := wrap8 (if op_base op <? UD_R_RAX then op_base op - UD_R_EAX else op_base op - UD_R_RAX) in
  wrap8 (GPR64_RAX - gpr).

Definition emulate_iret : M mach vm_code :=
  rm ← is_rmode; if (rm : bool) then emulate_rmode_iret else mret VM_FAIL.
Definition emulate_mov (d : ud_t) : M mach vm_code :=
  let op1 := ud_op1 d in let op2 := ud_op2 d in
  match op_type op1, op_type op2 with
  | UD_OP_REG, UD_OP_REG =>
      if in_range (op_base op2) UD_R_CR0 UD_R_CR4 then
        if ud_pfx d then mret VM_FAIL
        else resolve_cr ar max_paddr false (op_base op2 - UD_R_CR0) (emulate_get_gpr op1)
      else if in_range (op_base op1) UD_R_CR0 UD_R_CR4 then
        if ud_pfx d then mret VM_FAIL
        else resolve_cr ar max_paddr true (op_base op1 - UD_R_CR0) (emulate_get_gpr op2)
      else if in_range (op_base op2) UD_R_DR0 UD_R_DR7 then
        resolve_dr false (op_base op2 - UD_R_DR0) (emulate_get_gpr op1)
      else if in_range (op_base op1) UD_R_DR0 UD_R_DR7 then
        resolve_dr true (op_base op1 - UD_R_DR0) (emulate_get_gpr op2)
      else mret VM_FAIL
  | _, _ => mret VM_FAIL
  end.

Definition emulate_insn (d : ud_t) : M mach vm_code :=
  match ud_mn d with
  | UD_Iint => emulate_intn d
  | UD_Imov => emulate_mov d
  | UD_Isysenter => emulate_sysenter
  | UD_Isysexit => emulate_sysexit
  | UD_Iiretw | UD_Iiretd | UD_Iiretq => emulate_iret
  | UD_Iclts => emulate_clts
  | UD_Iint1 | UD_Iint3 | UD_Ibound => mret VM_FAIL
  | UD_Iinto => emulate_into
  | UD_Iother => mret VM_IGNORE
  end.

(** [emulate], from the answer of the disassembler: a failure, or the
    instruction at the vm's instruction pointer. *)
Definition emulate (dis : vm_code + ud_t) : M mach vm_code :=
  match dis with
  | inl rc => mret rc
  | inr d => rc ← emulate_insn d; emulate_done rc (ud_len d)
  end.

(** [vmx_vmexit_resolve_rmode_gp]: a fault in the delivery of an event. *)
Definition vmx_vmexit_resolve_rmode_gp (dis : vm_code + ud_t) : M mach vm_code :=
  pre_access info_idt_info ;;
  idt ← getf info_idt_info;
  if negb (bit idt INT_V_BIT) then mret VM_FAIL
  else if bits idt 8 3 =? VMCS_EVT_INFO_TYPE_SW_INT then emulate dis
  else if bits idt 8 3 =? VMCS_EVT_INFO_TYPE_HW_INT then emulate_hard_interrupt (bits idt 0 8)
  else mret VM_FAIL.
End rmode.
