(* ===== verification/CpuMode.v ===== *)
(** * The mode of the vm's processor over its exits

    The handlers of [Cpu] that change the mode keep the control registers, the
    efer the vm believes in, the entry controls and the interception state in
    agreement: an invariant of the states the vm reaches. *)

From S2P Require Import Prelude.
From S2P Require Import Monad.
From S2P Require Import Pagemem.
From S2P Require Import Walk.
From S2P Require Import Vm.
From S2P Require Import Vmcs.
From S2P Require Import Machine.
From S2P Require Import Cpu.

Section mode.
Context {V : Vmx} (ar : area_t) (max_paddr : Z).

(** ** The invariant *)

(** Long mode is active for the vm, the entry and the processor's efer at
    once, and the entry loads the efer. *)
Record efer_ok (A : field -> Z) (efer : Z) : Prop := mk_efer_ok {
  eo_ia32e : bit (A entry_entry) ENTRY_IA32E_BIT = bit efer EFER_LMA_BIT;
  eo_load : bit (A entry_entry) 15 = true;
  eo_lma : bit (A st_ia32_efer) EFER_LMA_BIT = bit efer EFER_LMA_BIT;
  eo_lme : bit (A st_ia32_efer) EFER_LME_BIT = bit efer EFER_LMA_BIT;
}.

(** Paging is only enabled in protected mode, long mode is active when it is
    enabled under paging, with physical address extension; in real mode, and
    only there, the keyboard ports and the exceptions are intercepted. *)
Record mode_ok (A : field -> Z) (s : mach) : Prop := mk_mode_ok {
  mo_pg : bit (A exec_cr0_read_shadow) CR0_PG_BIT = true -> bit (A exec_cr0_read_shadow) CR0_PE_BIT = true;
  mo_lma : bit (m_efer s) EFER_LMA_BIT = bit (m_efer s) EFER_LME_BIT && bit (A exec_cr0_read_shadow) CR0_PG_BIT;
  mo_pae : bit (m_efer s) EFER_LMA_BIT = true -> bit (A exec_cr4_read_shadow) CR4_PAE_BIT = true;
  mo_efer : efer_ok A (m_efer s);
  mo_kbd : kbd_denied s (negb (bit (A exec_cr0_read_shadow) CR0_PE_BIT));
  mo_excp : m_dflt_excp s =
    if bit (A exec_cr0_read_shadow) CR0_PE_BIT then VM_PMODE_EXCP_BITMAP else VM_RMODE_EXCP_BITMAP;
}.

(** The fields it speaks of. *)
Definition mode_fields : list field := [exec_cr0_read_shadow; exec_cr4_read_shadow; entry_entry; st_ia32_efer].

(** The rest of the state is made of machine integers. *)
Record regs_ok (s : mach) : Prop := mk_regs_ok {
  ro_gpr : forall r, fits 64 (m_gpr s r);
  ro_usr : fits 32 (m_usr_excp s);
  ro_mem : mem_ok (m_mem s);
}.

Lemma kbd_denied_range (b : bool) s :
  kbd_denied (with_io_denied (vmx_access_io_range b KBD_START_PORT KBD_END_PORT (m_io_denied s)) s) b.
Proof. intros p Hp. cbn [m_io_denied with_io_denied]. by rewrite access_io_range, decide_True. Qed.

Definition same_mode (s s' : mach) : Prop :=
  m_efer s' = m_efer s /\ m_io_denied s' = m_io_denied s /\ m_dflt_excp s' = m_dflt_excp s.

Lemma mode_ok_agree A A' s s' : mode_ok A s -> (forall f, f ∈ mode_fields -> A' f = A f) -> same_mode s s' ->
  mode_ok A' s'.
Proof.
  intros [] HA (E1 & E2 & E3).
  assert (A' exec_cr0_read_shadow = A exec_cr0_read_shadow) as F1 by (apply HA; elem).
  assert (A' exec_cr4_read_shadow = A exec_cr4_read_shadow) as F2 by (apply HA; elem).
  assert (A' entry_entry = A entry_entry) as F3 by (apply HA; elem).
  assert (A' st_ia32_efer = A st_ia32_efer) as F4 by (apply HA; elem).
  destruct mo_efer0. split; [..|split| |]; unfold kbd_denied in *; rewrite ?F1, ?F2, ?F3, ?F4, ?E1, ?E2, ?E3; assumption.
Qed.

(** ** Events *)

Lemma int_info_fits t v : fits 32 (int_info t v).
Proof. unfold int_info, INT_V_BIT. repeat (apply set_bits_fits; [lia|lia|lia|]). unfold fits. lia. Qed.

Definition event_fields : list field := [entry_int_info; entry_err_code; st_cr2].

Lemma sub_nil {A} (l : list A) : l ⊆ [] -> l = [].
Proof. destruct l as [|x l]; [done|]. intros Hl. by specialize (Hl x (list_elem_of_here x l)) as ?%elem_of_nil. Qed.
Lemma filter_sub (f : field) W : filter (fun g => g <> f) (f :: W) ⊆ W.
Proof. intros g. rewrite list_elem_of_filter, elem_of_cons. tauto. Qed.

Lemma wp_inject_gp H A R D W s Q : cst H A R D W s ->
  (forall A' W' v, cst H A' R D W' (with_vmcs v s) -> W' ⊆ W -> (forall f, f ∉ event_fields -> A' f = A f) ->
    Q VM_FAULT (with_vmcs v s)) ->
  wp inject_gp s Q.
Proof.
  intros Hc HQ. unfold inject_gp, inject_exception, vmx_prepare_event_injection.
  cbv beta delta [GP_EXCP VMCS_EVT_INFO_TYPE_HW_EXCP].
  change (13 =? PF_EXCP) with false. change (has_error_code 13) with true.
  repeat cstep; [apply int_info_fits|done|].
  match type of Hc with cst _ ?A' ?R' ?D' ?W' (with_vmcs ?v _) => apply (HQ A' W' v) end.
  - eapply cst_weaken; [exact Hc| |]; intros g Hg; by repeat apply list_elem_of_further.
  - repeat (etrans; [apply filter_sub|]). done.
  - intros f Hf. by upd_other Hf.
Qed.

(** ** The writes to the control registers *)

Definition efer_fields : list field := [st_ia32_efer; entry_entry].
Definition long_after (pg : bool) (cr4 efer : Z) : bool :=
  pg && (bit efer EFER_LMA_BIT || (bit cr4 CR4_PAE_BIT && bit efer EFER_LME_BIT)).

Lemma mach_eta s : s = with_vmcs (m_vmcs s) (with_efer (m_efer s) s).
Proof. by destruct s. Qed.

Lemma bit_set_same x i b : 0 <= i -> bit (set_bits x i 1 (Z.b2z b)) i = b.
Proof.
  intros Hi. unfold bit. rewrite testbit_set_bits by lia.
  rewrite (proj2 (Z.leb_le i i)), (proj2 (Z.ltb_lt i (i + 1))) by lia. simpl.
  by rewrite Z.sub_diag, Z.b2z_bit0.
Qed.
Lemma bit_set_other x i v j : 0 <= i -> 0 <= j -> i <> j -> bit (set_bits x i 1 v) j = bit x j.
Proof.
  intros Hi Hj Hn. unfold bit. rewrite testbit_set_bits by lia.
  destruct (Z.leb_spec i j), (Z.ltb_spec j (i + 1)); simpl; done || lia.
Qed.
Lemma bit_set_low x v j : 0 <= j < 32 -> bit (set_bits x 0 32 v) j = bit v j.
Proof.
  intros Hj. unfold bit. rewrite testbit_set_bits by lia.
  rewrite (proj2 (Z.leb_le 0 j)), (proj2 (Z.ltb_lt j (0 + 32))) by lia. simpl. by rewrite Z.sub_0_r.
Qed.

(** The vm's long mode is copied to the processor's efer and to the entry. *)
Lemma wp_update_efer_lma H A R D s Q : cst H A R D [] s -> bit (A entry_entry) 15 = true ->
  (forall A' v, cst H A' R D [] (with_vmcs v s) -> efer_ok A' (m_efer s) -> (forall f, f ∉ efer_fields -> A' f = A f) ->
    Q tt (with_vmcs v s)) ->
  wp vmx_update_efer_lma s Q.
Proof.
  intros Hc Hb HQ. unfold vmx_update_efer_lma.
  apply (cst_pre_efer _ H A R D [] s); [nomem|nomem|fld_ok|fld_ok|exact Hc|]. clear Hc. intros v Hc.
  repeat cstep.
  match type of Hc with cst _ ?A' _ _ _ (with_vmcs ?v _) => apply (HQ A' v) end.
  - eapply cst_weaken; [exact Hc| |]; intros g Hg; by repeat apply list_elem_of_further.
  - split; upd_simpl; by repeat first [rewrite bit_set_same by done | rewrite bit_set_other by done].
  - intros f Hf. by upd_other Hf.
Qed.

Lemma wp_efer_update H A R D s pg Q : cst H A R D [] s -> exec_cr4_read_shadow ∈ R -> efer_ok A (m_efer s) ->
  (forall A' v e, let s' := with_vmcs v (with_efer e s) in cst H A' R D [] s' -> efer_ok A' e ->
    (forall f, f ∉ efer_fields -> A' f = A f) -> bit e EFER_LME_BIT = bit (m_efer s) EFER_LME_BIT ->
    bit e EFER_LMA_BIT = long_after pg (A exec_cr4_read_shadow) (m_efer s) -> Q tt s') ->
  wp (efer_update pg) s Q.
Proof.
  intros Hc Hr He HQ. unfold efer_update. repeat cstep.
  assert (forall b, wp (modify (with_efer (set_bits (m_efer s) EFER_LMA_BIT 1 (Z.b2z b))) ;; vmx_update_efer_lma) s
    (fun _ s' => b = long_after pg (A exec_cr4_read_shadow) (m_efer s) -> Q tt s')) as Hset.
  { intros b. repeat cstep. eapply wp_update_efer_lma; [exact Hc|apply He|].
    intros A' v Hc' He' HA' Hb. apply (HQ A' v _ Hc' He' HA').
    - by apply bit_set_other.
    - by rewrite bit_set_same. }
  assert (bit (m_efer s) EFER_LMA_BIT = long_after pg (A exec_cr4_read_shadow) (m_efer s) -> Q tt s) as Hsame.
  { intros Hb. rewrite (mach_eta s). apply (HQ A); rewrite <- ?mach_eta; done. }
  revert Hset Hsame. clear HQ. unfold long_after.
  destruct (bit (A exec_cr4_read_shadow) CR4_PAE_BIT), (bit (m_efer s) EFER_LME_BIT),
    (bit (m_efer s) EFER_LMA_BIT), pg; cbn [andb orb negb]; intros Hset Hsame;
    first [by apply Hsame
          |eapply wp_mono; [apply (Hset true)|intros [] s'; cbn beta; auto]; fail
          |eapply wp_mono; [apply (Hset false)|intros [] s'; cbn beta; auto]].
Qed.

(** Protected and real mode. *)
Definition trap_fields : list field := [exec_excp_bitmap; exec_proc2; st_idtr_limit].

Definition enter_mode (pe : bool) : M mach unit := if negb pe then vm_enter_rmode else vm_enter_pmode.

Lemma wp_enter_mode H A R D s pe Q : cst H A R D [] s -> regs_ok s ->
  (forall A' s', cst H A' R D [] s' -> (forall f, f ∉ trap_fields -> A' f = A f) -> regs_ok s' ->
    m_efer s' = m_efer s -> m_gpr s' = m_gpr s -> m_mem s' = m_mem s ->
    kbd_denied s' (negb pe) ->
    m_dflt_excp s' = (if pe then VM_PMODE_EXCP_BITMAP else VM_RMODE_EXCP_BITMAP) -> Q tt s') ->
  wp (enter_mode pe) s Q.
Proof.
  intros Hc [Hg Hu Hm] HQ. destruct pe; unfold enter_mode, vm_enter_pmode, vm_enter_rmode, update_exception_mask,
    allow_soft_int, deny_soft_int, set_dt_access; simpl negb; cbv iota.
  - repeat cstep; [cbn; apply fits_lor; done|]. repeat cstep. destruct vmx_feat_exit_dt; cbv iota; repeat cstep.
    all: match type of Hc with cst _ ?A' _ _ _ ?s' => apply (HQ A' s') end; try done; try exact (kbd_denied_range _ _).
    all: try (intros f Hf; by upd_other Hf).
    all: eapply cst_weaken; [exact Hc| |]; intros g Hg'; by repeat apply list_elem_of_further.
  - repeat cstep; [cbn; apply fits_lor; done|]. repeat cstep. destruct vmx_feat_exit_dt; cbv iota; repeat cstep.
    all: match type of Hc with cst _ ?A' _ _ _ ?s' => apply (HQ A' s') end; try done; try exact (kbd_denied_range _ _).
    all: try (intros f Hf; by upd_other Hf).
    all: eapply cst_weaken; [exact Hc| |]; intros g Hg'; by repeat apply list_elem_of_further.
Qed.

(** The PAE entries. *)
Definition pdpe_fields : list field := [st_pdpe_0; st_pdpe_1; st_pdpe_2; st_pdpe_3].

Lemma wp_pdpe H A R D W s f p Q : ok_field vmx_supported f -> width f = 64 -> cst H A R D W s -> mem_ok (m_mem s) ->
  (forall v, cst H (upd A f (rd64 (m_mem s) p)) R D (f :: W) (with_vmcs v s) ->
    Q (valid_pae_pdpe max_paddr (rd64 (m_mem s) p)) (with_vmcs v s)) ->
  wp (vmx_ept_pdpe_to_pae_pdpe max_paddr f p) s Q.
Proof.
  intros Hf Hw Hc Hm HQ. unfold vmx_ept_pdpe_to_pae_pdpe. cstep. cstep. cstep.
  apply (cst_putf H A R D W s f); [done| |done|].
  - rewrite Hw. by apply rd64_fits.
  - intros v Hc'. apply wp_ret. by apply HQ.
Qed.

Definition reload_post H A R D W s Q : Prop := forall (ok : bool) A' W' v, cst H A' R D W' (with_vmcs v s) ->
  W' ⊆ (if ok then [] else pdpe_fields) ++ W -> (forall f, f ∉ pdpe_fields -> A' f = A f) ->
  Q ok (with_vmcs v s) : Prop.

Lemma with_vmcs_id s : with_vmcs (m_vmcs s) s = s.
Proof. by destruct s. Qed.
Lemma reload_id H A R D W s Q (ok : bool) : cst H A R D W s -> reload_post H A R D W s Q -> Q ok s.
Proof.
  intros Hc HQ. rewrite <- (with_vmcs_id s). apply (HQ ok A W); rewrite ?with_vmcs_id; [done| |done].
  intros f. rewrite elem_of_app. by right.
Qed.

(** The reload of one more entry. *)
Lemma wp_update_pdpe H A R D W s Q : cst H A R D W s -> st_cr3 ∈ R -> mem_ok (m_mem s) ->
  reload_post H A R D W s Q -> wp (vmx_ept_update_pdpe ar max_paddr) s Q.
Proof.
  intros Hc Hr Hm HQ. unfold vmx_ept_update_pdpe. cstep. cstep.
  destruct (vmm_area ar _); [cstep; by eapply reload_id|].
  set (p := Z.shiftl _ _). clearbody p.
  do 4 (apply wp_bind; eapply wp_pdpe; [fld_ok|done|exact Hc|done|]; clear Hc; intros ? Hc;
    match goal with |- context [valid_pae_pdpe max_paddr ?e] => destruct (valid_pae_pdpe max_paddr e) end;
    cbn [negb]; cbv iota;
    [|cstep;
      match type of Hc with cst _ ?A' _ _ ?W' (with_vmcs ?v _) => apply (HQ false A' W' v Hc) end;
      [intros f; unfold pdpe_fields; rewrite elem_of_app, !elem_of_cons; tauto
      |intros f Hf; by upd_other Hf]]).
  repeat cstep.
  match type of Hc with cst _ ?A' _ _ ?W' (with_vmcs ?v _) => apply (HQ true A' W' v) end.
  - eapply cst_weaken; [exact Hc| |]; intros g Hg; by repeat apply list_elem_of_further.
  - intros f. rewrite elem_of_app, !list_elem_of_filter, !elem_of_cons. tauto.
  - intros f Hf; by upd_other Hf.
Qed.

Lemma wp_pae_reload H A R D W s updated Q : cst H A R D W s -> st_cr3 ∈ R -> exec_cr0_read_shadow ∈ R ->
  exec_cr4_read_shadow ∈ R -> mem_ok (m_mem s) -> reload_post H A R D W s Q ->
  wp (pae_reload ar max_paddr updated) s Q.
Proof.
  intros Hc H3 H0 H4 Hm HQ. unfold pae_reload. repeat cstep. destruct (_ && _ && _ && _).
  - by eapply wp_update_pdpe.
  - cstep. by eapply reload_id.
Qed.

Lemma wp_cr0_update H A R D s g Q : cst H A R D [] s -> exec_cr0_read_shadow ∈ R -> st_cr0 ∈ R ->
  (forall A' v, cst H A' R D [] (with_vmcs v s) ->
    A' exec_cr0_read_shadow = set_bits (A exec_cr0_read_shadow) 0 32 g ->
    A' st_cr0 = set_bits (A st_cr0) 0 32 g ->
    (forall f, f ∉ [st_cr0; exec_cr0_read_shadow] -> A' f = A f) -> Q tt (with_vmcs v s)) ->
  wp (cr0_update g) s Q.
Proof.
  intros Hc Hr0 Hr1 HQ. unfold cr0_update. repeat cstep.
  match type of Hc with cst _ ?A' _ _ ?W' (with_vmcs ?v _) => apply (HQ A' v) end.
  - eapply cst_weaken; [exact Hc| |]; intros f Hf; by repeat apply list_elem_of_further.
  - by upd_simpl.
  - by upd_simpl.
  - intros f Hf. by upd_other Hf.
Qed.
Lemma wp_cr4_update H A R D s g Q : cst H A R D [] s -> exec_cr4_read_shadow ∈ R ->
  (forall A' v, cst H A' R D [] (with_vmcs v s) ->
    A' exec_cr4_read_shadow = set_bits (A exec_cr4_read_shadow) 0 32 g ->
    (forall f, f ∉ [st_cr4; exec_cr4_read_shadow] -> A' f = A f) -> Q tt (with_vmcs v s)) ->
  wp (cr4_update g) s Q.
Proof.
  intros Hc Hr0 HQ. unfold cr4_update. repeat cstep.
  match type of Hc with cst _ ?A' _ _ ?W' (with_vmcs ?v _) => apply (HQ A' v) end.
  - eapply cst_weaken; [exact Hc| |]; intros f Hf; by repeat apply list_elem_of_further.
  - by upd_simpl.
  - intros f Hf. by upd_other Hf.
Qed.

(** What a write that ends with the code [rc] leaves: the fields [fs] may have
    changed, and the mode is still consistent. *)
Record written (fs : list field) (A : field -> Z) (s : mach) (A' : field -> Z) (s' : mach) : Prop := mk_written {
  wr_other : forall f, f ∉ fs -> A' f = A f;
  wr_mode : mode_ok A' s';
  wr_regs : regs_ok s';
  wr_gpr : m_gpr s' = m_gpr s;
}.

Definition faulted H R D A s (Q : vm_code -> mach -> Prop) : Prop := forall A' s', cst H A' R D [] s' ->
  written event_fields A s A' s' -> Q VM_FAULT s'.
Definition cr_post H R D fs A s (P : (field -> Z) -> Prop) (Q : vm_code -> mach -> Prop) : Prop :=
  forall (ok : bool) A' W' s', cst H A' R D W' s' -> W' ⊆ (if ok then [] else st_cr3 :: pdpe_fields) ->
  written (fs ++ pdpe_fields ++ event_fields) A s A' s' -> P A' -> Q (if ok then VM_DONE else VM_FAULT) s'.

Lemma xor_bit a b i : 0 <= i < 32 -> bit (Z.lxor (bits a 0 32) (bits b 0 32)) i = xorb (bit a i) (bit b i).
Proof.
  intros Hi. unfold bit. rewrite Z.lxor_spec, !testbit_bits by lia.
  by rewrite (proj2 (Z.ltb_lt i 32)), Z.add_0_r by lia.
Qed.

(** Long mode after a write of cr0 that is accepted. *)
Definition lma_after (cr0 cr4 efer g : Z) : bool :=
  if xorb (bit cr0 CR0_PG_BIT) (bit g CR0_PG_BIT) then long_after (bit g CR0_PG_BIT) cr4 efer
  else bit efer EFER_LMA_BIT.

Lemma lma_after_ok A s g attr : mode_ok A s ->
  invalid_cr0_lmode_check g (Z.lxor (bits (A exec_cr0_read_shadow) 0 32) (bits g 0 32)) (m_efer s)
    (A exec_cr4_read_shadow) attr = false ->
  let l := lma_after (A exec_cr0_read_shadow) (A exec_cr4_read_shadow) (m_efer s) g in
  l = bit (m_efer s) EFER_LME_BIT && bit g CR0_PG_BIT /\ (l = true -> bit (A exec_cr4_read_shadow) CR4_PAE_BIT = true).
Proof.
  intros [_ Hl Hp _ _ _]. unfold invalid_cr0_lmode_check, lma_after, long_after. rewrite xor_bit by done.
  revert Hl Hp. destruct (bit (m_efer s) EFER_LMA_BIT), (bit (m_efer s) EFER_LME_BIT),
    (bit (A exec_cr0_read_shadow) CR0_PG_BIT), (bit g CR0_PG_BIT), (bit (A exec_cr4_read_shadow) CR4_PAE_BIT);
    cbn [andb orb xorb negb]; intuition congruence.
Qed.

(** Changes to other fields. *)
Lemma notin_by (l l' : list field) f : bool_decide (Forall (fun f => f ∉ l') l) = true -> f ∈ l -> f ∉ l'.
Proof. intros Hb%bool_decide_eq_true_1. rewrite Forall_forall in Hb. apply Hb. Qed.
Definition off_mode (fs : list field) : Prop := forall f, f ∈ mode_fields -> f ∉ fs.
Lemma off_mode_check fs : bool_decide (Forall (fun f => f ∉ fs) mode_fields) = true -> off_mode fs.
Proof. intros Hb f. by apply notin_by. Qed.

Lemma mode_ok_off fs A A' s s' : off_mode fs -> mode_ok A s -> (forall f, f ∉ fs -> A' f = A f) -> same_mode s s' ->
  mode_ok A' s'.
Proof. intros Hd Hm HA Hs. eapply mode_ok_agree; [done| |done]. intros f Hf. by apply HA, Hd. Qed.

Lemma wp_fault H A R D s Q : cst H A R D [] s -> mode_ok A s -> regs_ok s -> faulted H R D A s Q ->
  wp inject_gp s Q.
Proof.
  intros Hc Hm Hr HQ. eapply wp_inject_gp; [exact Hc|]. intros A' W' v Hc' HW HA.
  apply sub_nil in HW as ->.
  apply (HQ A'); [done|]. split; [done| |by destruct Hr|done].
  eapply (mode_ok_off event_fields); [by apply off_mode_check; vm_compute|done..].
Qed.

(** The end of the three writes: reload the entries, fault if it fails. *)
Lemma wp_reload_end H A0 A R D W s0 s updated fs P Q (fin : M mach vm_code) :
  cst H A R D W s -> pre_hdl_fields ⊆ R -> exec_cr4_read_shadow ∈ R ->
  (W = [] /\ fin = mret VM_DONE) \/ (W = [st_cr3] /\ fin = (post_access st_cr3 ;; mret VM_DONE)) ->
  written fs A0 s0 A s -> P A -> (forall A', (forall f, f ∉ pdpe_fields ++ event_fields -> A' f = A f) -> P A') ->
  cr_post H R D fs A0 s0 P Q ->
  wp (ok ← pae_reload ar max_paddr updated; if negb ok then inject_gp else fin) s Q.
Proof.
  intros Hc HR Hr4 Hfin [Wo Wm Wr Wg] HP HPA HQ. assert (forall f, f ∈ pre_hdl_fields -> f ∈ R) as HR' by done.
  apply wp_bind. eapply wp_pae_reload; [exact Hc|apply HR'; elem|apply HR'; elem|done|apply Wr|].
  intros ok A1 W1 v Hc1 HW1 HA1.
  assert (mode_ok A1 (with_vmcs v s)) as Hm1.
  { eapply (mode_ok_off pdpe_fields); [by apply off_mode_check; vm_compute|exact Wm|done|done]. }
  assert (forall A2 s2, m_gpr s2 = m_gpr s -> mode_ok A2 s2 -> regs_ok s2 ->
    (forall f, f ∉ pdpe_fields ++ event_fields -> A2 f = A f) ->
    written (fs ++ pdpe_fields ++ event_fields) A0 s0 A2 s2) as Hw.
  { intros A2 s2 Hg2 Hm2 Hr2 HA2. split; [|done|done|by rewrite Hg2].
    intros f. rewrite !elem_of_app. intros Hf. rewrite HA2 by (rewrite elem_of_app; tauto). apply Wo. tauto. }
  destruct ok; cbn [negb]; cbv iota.
  - assert (forall f, f ∉ pdpe_fields ++ event_fields -> A1 f = A f) as HA1'.
    { intros f. rewrite elem_of_app. intros Hf. apply HA1. tauto. }
    assert (forall W2 v2, cst H A1 R D W2 (with_vmcs v2 s) -> W2 = [] -> Q VM_DONE (with_vmcs v2 s)) as Hdone.
    { intros W2 v2 Hc2 ->. apply (HQ true A1 []); [done|done|apply Hw; [done| |by destruct Wr|done]|by apply HPA].
      eapply mode_ok_agree; [exact Hm1|done|done]. }
    destruct Hfin as [[-> ->]|[-> ->]].
    + cstep. apply (Hdone W1 v); [done|]. by apply sub_nil.
    + assert (st_cr3 ∈ R) as H3 by (apply HR'; elem). do 3 cstep.
      match goal with |- Q _ (with_vmcs ?v2 _) => apply (Hdone (filter (fun g => g <> st_cr3) W1) v2) end.
      * eapply cst_weaken; [exact Hc1| |]; intros g Hg; by repeat apply list_elem_of_further.
      * apply sub_nil. intros f. rewrite list_elem_of_filter. intros [Hf Hin%HW1]. by apply elem_of_cons in Hin as [?|?].
  - eapply wp_inject_gp; [exact Hc1|]. intros A2 W2 v2 Hc2 HW2 HA2.
    assert (forall f, f ∉ pdpe_fields ++ event_fields -> A2 f = A f) as HA2'.
    { intros f. rewrite elem_of_app. intros Hf. rewrite HA2, HA1 by tauto. done. }
    apply (HQ false A2 W2); [done| |apply Hw; [done| |by destruct Wr|done]|by apply HPA].
    + intros f Hf%HW2%HW1. apply elem_of_app in Hf as [Hf|Hf]; [by right|].
      destruct Hfin as [[-> _]|[-> _]]; [by apply elem_of_nil in Hf|]. apply list_elem_of_singleton in Hf as ->. by left.
    + eapply (mode_ok_off event_fields); [by apply off_mode_check; vm_compute|exact Hm1|done|done].
Qed.

Definition cr0_fields : list field := [st_cr0; exec_cr0_read_shadow] ++ efer_fields ++ trap_fields.
Definition cr0_refused (A : field -> Z) (s : mach) (g : Z) : bool := invalid_cr0_setup g ||
  invalid_cr0_lmode_check g (Z.lxor (bits (A exec_cr0_read_shadow) 0 32) (bits g 0 32)) (m_efer s)
    (A exec_cr4_read_shadow) (A st_cs_attributes).
Definition set_low (f : field) (g : Z) (A A' : field -> Z) : Prop := A' f = set_bits (A f) 0 32 g.

(** Paging first. *)
Lemma wp_cr0_paging H A R D s g Q : cst H A R D [] s -> exec_cr4_read_shadow ∈ R -> mode_ok A s ->
  (forall A' v e, let s' := with_vmcs v (with_efer e s) in cst H A' R D [] s' -> efer_ok A' e ->
    (forall f, f ∉ efer_fields -> A' f = A f) -> bit e EFER_LME_BIT = bit (m_efer s) EFER_LME_BIT ->
    bit e EFER_LMA_BIT = lma_after (A exec_cr0_read_shadow) (A exec_cr4_read_shadow) (m_efer s) g -> Q tt s') ->
  wp (when (bit (Z.lxor (bits (A exec_cr0_read_shadow) 0 32) (bits g 0 32)) CR0_PG_BIT)
    (efer_update (bit g CR0_PG_BIT))) s Q.
Proof.
  intros Hc Hr Hm HQ. unfold lma_after in HQ. rewrite xor_bit by done. apply wp_when. destruct (xorb _ _).
  - eapply wp_efer_update; [exact Hc|done|apply Hm|]. intros A' v e s' Hc' He HA Hl Hx. by apply (HQ A' v e).
  - rewrite (mach_eta s). apply (HQ A); rewrite <- ?mach_eta; try done. apply Hm.
Qed.

(** Then protection. *)
Lemma wp_cr0_protection H A R D s cr0 g Q : cst H A R D [] s -> regs_ok s ->
  kbd_denied s (negb (bit cr0 CR0_PE_BIT)) ->
  m_dflt_excp s = (if bit cr0 CR0_PE_BIT then VM_PMODE_EXCP_BITMAP else VM_RMODE_EXCP_BITMAP) ->
  (forall A' s', cst H A' R D [] s' -> (forall f, f ∉ trap_fields -> A' f = A f) -> regs_ok s' ->
    m_efer s' = m_efer s -> m_gpr s' = m_gpr s ->
    kbd_denied s' (negb (bit g CR0_PE_BIT)) ->
    m_dflt_excp s' = (if bit g CR0_PE_BIT then VM_PMODE_EXCP_BITMAP else VM_RMODE_EXCP_BITMAP) -> Q tt s') ->
  wp (when (bit (Z.lxor (bits cr0 0 32) (bits g 0 32)) CR0_PE_BIT)
    (if negb (bit g CR0_PE_BIT) then vm_enter_rmode else vm_enter_pmode)) s Q.
Proof.
  intros Hc Hr Hk Hx HQ. rewrite xor_bit by done. apply wp_when. destruct (xorb _ _) eqn:Ex.
  - eapply (wp_enter_mode H A R D s (bit g CR0_PE_BIT)); [done|done|]. intros A' s' ? ? ? ? ? ? ? ?.
    by apply (HQ A' s').
  - apply xorb_eq in Ex. rewrite Ex in Hk, Hx. by apply (HQ A s).
Qed.

Lemma wp_resolve_cr0_wr H A R D s g Q : cst H A R D [] s -> pre_hdl_fields ⊆ R -> mode_ok A s -> regs_ok s ->
  (cr0_refused A s g = true -> faulted H R D A s Q) ->
  (cr0_refused A s g = false -> cr_post H R D cr0_fields A s (set_low exec_cr0_read_shadow g A) Q) ->
  wp (resolve_cr0_wr ar max_paddr g) s Q.
Proof.
  intros Hc HR Hm Hr Hbad Hok. unfold resolve_cr0_wr.
  assert (forall f, f ∈ pre_hdl_fields -> f ∈ exec_cr4_read_shadow :: R) as HR'.
  { intros f Hf. right. by apply HR. }
  assert (exec_cr0_read_shadow ∈ R /\ st_cs_attributes ∈ R /\ st_cr0 ∈ R) as (H0 & H1 & H2).
  { split_and!; apply HR; elem. }
  do 10 cstep. change (m_efer (with_vmcs v s)) with (m_efer s). unfold cr0_refused in *. destruct (_ || invalid_cr0_lmode_check _ _ _ _ _) eqn:Einv.
  { eapply wp_fault; [exact Hc|by destruct Hm|by destruct Hr|]. intros A' s' Hc' [].
    apply (Hbad eq_refl A'); [|by split]. eapply cst_weaken; [exact Hc'| |done]. intros f Hf. by right. }
  apply orb_false_iff in Einv as [Eset Elm]. specialize (Hok eq_refl).
  destruct (lma_after_ok _ _ _ _ Hm Elm) as [El Ep]. cbv zeta in El, Ep.
  cstep. eapply wp_cr0_paging; [exact Hc|mem|by destruct Hm|].
  intros A1 v1 e s1 Hc1 He1 HA1 Hlme Hlma. cbn beta.
  cstep. eapply wp_cr0_protection; [exact Hc1|by destruct Hr|apply Hm|apply Hm|].
  intros A2 s2 Hc2 HA2 Hr2 Ee2 Eg2 Ek2 Ex2. cbn in Ee2, Eg2. cbn beta.
  cstep. eapply wp_cr0_update; [exact Hc2|mem|mem|]. intros A3 v3 Hc3 Esh Ecr0 HA3. cbn beta.
  assert (forall f, f ∉ cr0_fields -> A3 f = A f) as HA.
  { intros f. unfold cr0_fields. rewrite !elem_of_app. intros Hf. rewrite HA3, HA2, HA1 by tauto. done. }
  assert (A2 exec_cr0_read_shadow = A exec_cr0_read_shadow) as E02 by (rewrite HA2, HA1; [done|nomem..]).
  rewrite E02 in Esh.
  eapply (wp_reload_end _ A A3 _ _ [] s _ _ cr0_fields (set_low exec_cr0_read_shadow g A) Q (mret VM_DONE));
    [exact Hc3| |mem|by left| |exact Esh| |].
  - intros f Hf. right. by apply HR.
  - split; [done| |by destruct Hr2|by rewrite <- Eg2].
    assert (forall f, f ∈ efer_fields -> A3 f = A1 f) as HAe.
    { intros f Hf. rewrite HA3, HA2; [done| |]; revert Hf; by apply notin_by; vm_compute. }
    destruct He1 as [I1 I2 I3 I4].
    change (m_efer (with_vmcs v s)) with (m_efer s) in *. rewrite El in Hlma.
    split; rewrite ?Esh, ?bit_set_low by done; change (m_efer (with_vmcs v3 s2)) with (m_efer s2);
      rewrite ?Ee2; try done.
    + revert Eset. unfold invalid_cr0_setup. destruct (bit g CR0_PG_BIT), (bit g CR0_PE_BIT); done.
    + by rewrite Hlma, Hlme.
    + rewrite Hlma, HA by nomem. rewrite <- El. done.
    + split; by rewrite HAe by elem.
  - intros A' HA'. unfold set_low. by rewrite HA' by nomem.
  - intros ok A' W' s' Hc' HW' Hw' HP'. apply (Hok ok A' W'); [|done|done|done].
    eapply cst_weaken; [exact Hc'| |done]. intros f Hf. by right.
Qed.

(** The other two. *)
Definition cr4_refused (A : field -> Z) (s : mach) (g : Z) : bool :=
  bit (m_efer s) EFER_LMA_BIT && xorb (bit (A exec_cr4_read_shadow) CR4_PAE_BIT) (bit g CR4_PAE_BIT) &&
  negb (bit g CR4_PAE_BIT).

Lemma wp_resolve_cr4_wr H A R D s g Q : cst H A R D [] s -> pre_hdl_fields ⊆ R -> mode_ok A s -> regs_ok s ->
  (cr4_refused A s g = true -> faulted H R D A s Q) ->
  (cr4_refused A s g = false ->
    cr_post H R D [st_cr4; exec_cr4_read_shadow] A s (set_low exec_cr4_read_shadow g A) Q) ->
  wp (resolve_cr4_wr ar max_paddr g) s Q.
Proof.
  intros Hc HR Hm Hr Hbad Hok. unfold resolve_cr4_wr.
  assert (exec_cr0_read_shadow ∈ R) as H0 by (apply HR; elem).
  do 6 cstep. change (m_efer (with_vmcs v s)) with (m_efer s). unfold cr4_refused in *.
  rewrite !xor_bit by done. destruct (_ && negb _) eqn:Einv.
  { eapply wp_fault; [exact Hc|by destruct Hm|by destruct Hr|]. intros A' s' Hc' [].
    apply (Hbad eq_refl A'); [|by split]. eapply cst_weaken; [exact Hc'| |done]. intros f Hf. by right. }
  specialize (Hok eq_refl). cstep. eapply wp_cr4_update; [exact Hc|mem|]. intros A1 v1 Hc1 Esh HA1. cbn beta.
  eapply (wp_reload_end _ A A1 _ _ [] s _ _ [st_cr4; exec_cr4_read_shadow]
    (set_low exec_cr4_read_shadow g A) Q (mret VM_DONE)); [exact Hc1| |mem|by left| |exact Esh| |].
  - intros f Hf. right. by apply HR.
  - split; [done| |by destruct Hr|done]. destruct Hm as [M1 M2 M3 [I1 I2 I3 I4] M5 M6].
    assert (A1 exec_cr0_read_shadow = A exec_cr0_read_shadow) as E0 by (apply HA1; nomem).
    change (m_efer (with_vmcs v1 (with_vmcs v s))) with (m_efer s) in *.
    split; rewrite ?E0; try done.
    + change (m_efer (with_vmcs v1 (with_vmcs v s))) with (m_efer s). intros Hl. rewrite Esh, bit_set_low by done.
      revert Einv. rewrite Hl, (M3 Hl). by destruct (bit g CR4_PAE_BIT).
    + split; by rewrite HA1 by nomem.
  - intros A' HA'. unfold set_low. by rewrite HA' by nomem.
  - intros ok A' W' s' Hc' HW' Hw' HP'. apply (Hok ok A' W'); [|done|done|done].
    eapply cst_weaken; [exact Hc'| |done]. intros f Hf. by right.
Qed.

Definition set_cr3 (A : field -> Z) (s : mach) (g : Z) (A' : field -> Z) : Prop :=
  A' st_cr3 = if lmode64 (m_efer s) (A st_cs_attributes) then g else set_bits (A st_cr3) 0 32 g.

Lemma wp_resolve_cr3_wr H A R D s g Q : cst H A R D [] s -> pre_hdl_fields ⊆ R -> mode_ok A s -> regs_ok s ->
  fits 64 g -> cr_post H R D [st_cr3] A s (set_cr3 A s g) Q ->
  wp (resolve_cr3_wr ar max_paddr g) s Q.
Proof.
  intros Hc HR Hm Hr Hg Hok. unfold resolve_cr3_wr.
  assert (exec_cr0_read_shadow ∈ R /\ st_cs_attributes ∈ R /\ st_cr3 ∈ R) as (H0 & H1 & H2).
  { split_and!; apply HR; elem. }
  do 6 cstep. change (m_efer (with_vmcs v s)) with (m_efer s).
  assert (forall x, (x = if lmode64 (m_efer s) (A st_cs_attributes) then g else set_bits (A st_cr3) 0 32 g) ->
    forall v1, cst H (upd A st_cr3 x) (exec_cr4_read_shadow :: R) D [st_cr3] (with_vmcs v1 s) ->
    wp (ok ← pae_reload ar max_paddr true; if negb ok then inject_gp else post_access st_cr3 ;; mret VM_DONE)
      (with_vmcs v1 s) Q) as Hend.
  { intros x Hx v1 Hc1.
    eapply (wp_reload_end _ A _ _ _ [st_cr3] s _ _ [st_cr3] (set_cr3 A s g) Q); [exact Hc1| |mem|by right| | | |].
    - intros f Hf. right. by apply HR.
    - split; [intros f Hf; by upd_other Hf| |by destruct Hr|done].
      eapply (mode_ok_off [st_cr3]); [by apply off_mode_check; vm_compute|exact Hm|intros f Hf; by upd_other Hf|done].
    - unfold set_cr3. by rewrite upd_eq.
    - intros A' HA'. unfold set_cr3. rewrite HA', upd_eq by nomem. done.
    - intros ok A' W' s' Hc' HW' Hw' HP'. apply (Hok ok A' W'); [|done|done|done].
      eapply cst_weaken; [exact Hc'| |done]. intros f Hf. by right. }
  cstep. destruct (lmode64 _ _); cstep; [exact Hg|by apply (Hend g)|by apply (Hend (set_bits (A st_cr3) 0 32 g))].
Qed.

(** ** Whole exits

    The processor leaves the "ia32e" bit of the entry controls free, and the
    bit that loads the efer. *)
Definition entry_free : Prop := bit (allow_1 (vmx_fx_entry vmx_cfg)) 15 = true /\
  bit (allow_1 (vmx_fx_entry vmx_cfg)) ENTRY_IA32E_BIT = true /\
  bit (allow_0 (vmx_fx_entry vmx_cfg)) ENTRY_IA32E_BIT = false.
Hypothesis Hfree : entry_free.

(** The end of a handler; the fields left with an unmarked change are not of
    the mode. *)
Definition loose_fields : list field := st_dr6 :: st_cr3 :: pdpe_fields.
Definition handled (H : field -> Z) (rc : vm_code) (s : mach) : Prop := exists A R D W,
  cst H A R D W s /\ pre_hdl_fields ⊆ R /\ W ⊆ loose_fields /\ mode_ok A s /\ regs_ok s.

Lemma resumed_mode A H' W rsp s : resumed A H' W rsp -> off_mode W -> mode_ok A s -> mode_ok H' s.
Proof.
  intros Hres HW [M1 M2 M3 [I1 I2 I3 I4] M5 M6]. destruct Hfree as (F1 & F2 & F3).
  assert (H' exec_cr0_read_shadow = A exec_cr0_read_shadow) as E0.
  { eapply resumed_plain; [exact Hres|fld_ok|apply HW; elem|discriminate|elem]. }
  assert (H' exec_cr4_read_shadow = A exec_cr4_read_shadow) as E4.
  { eapply resumed_plain; [exact Hres|fld_ok|apply HW; elem|discriminate|elem]. }
  assert (H' st_ia32_efer = A st_ia32_efer) as Ee.
  { eapply resumed_plain; [exact Hres|fld_ok|apply HW; elem|discriminate|elem]. }
  assert (forall i, i = 15 \/ i = ENTRY_IA32E_BIT -> bit (H' entry_entry) i = bit (A entry_entry) i) as Ex.
  { intros i Hi. eapply (resumed_bit A H' W rsp entry_entry);
      [exact Hres|fld_ok|apply HW; elem|discriminate|reflexivity|..]; destruct Hi as [E|E]; rewrite E; auto. }
  split; rewrite ?E0, ?E4; try done. split; rewrite ?Ee, ?Ex; auto.
Qed.

Lemma loose_off W : W ⊆ loose_fields -> off_mode W.
Proof. intros HW f Hf Hin%HW. revert Hf Hin. by apply notin_by. Qed.
Lemma handled_intro H A R D W s rc : cst H A R D W s -> pre_hdl_fields ⊆ R -> W ⊆ st_cr3 :: pdpe_fields ->
  mode_ok A s -> regs_ok s -> handled H rc s.
Proof. intros Hc HR HW Hm Hr. exists A, R, D, W. split_and!; [done|done| |done|done]. intros f Hf%HW. by right. Qed.
Lemma handled_exit H rc s : handled H rc s -> exit_post H (fun _ H' s2 => mode_ok H' s2 /\ regs_ok s2) rc s.
Proof.
  intros (A & R & D & W & Hc & _ & HW%loose_off & Hm & Hr). exists A, R, D, W.
  split_and!; [done|apply Hr|apply HW; elem|apply Hm|]. intros H' Hres. split; [|done]. by eapply resumed_mode.
Qed.

(** The end of the emulation. *)
Lemma update_rip_fits m rip sz : fits 64 rip -> fits 64 (vm_update_rip m rip sz).
Proof.
  intros Hr. unfold vm_update_rip. destruct (m =? 64); [by apply wrap_fits|].
  destruct (m =? 32); apply set_bits_fits; lia || done.
Qed.

Lemma wp_update_rip H A R D s sz Q : cst H A R D [] s -> pre_hdl_fields ⊆ R ->
  (forall A' v, cst H A' R D [] (with_vmcs v s) -> (forall f, f <> st_rip -> A' f = A f) ->
    A' st_rip = vm_update_rip (cpu_addr_sz (m_efer s) (A exec_cr0_read_shadow) (A st_rflags) (A st_cs_attributes))
      (A st_rip) sz -> Q tt (with_vmcs v s)) ->
  wp (update_rip sz) s Q.
Proof.
  intros Hc HR HQ. unfold update_rip.
  assert (exec_cr0_read_shadow ∈ R /\ st_cs_attributes ∈ R /\ st_rflags ∈ R /\ st_rip ∈ R) as (H0 & H1 & H2 & H3).
  { split_and!; apply HR; elem. }
  do 12 cstep.
  { apply update_rip_fits. change 64 with (width st_rip). eapply cst_fits; [exact Hc|fld_ok]. }
  repeat cstep.
  match type of Hc with cst _ ?A' _ _ _ (with_vmcs ?v _) => apply (HQ A' v) end.
  - eapply cst_weaken; [exact Hc| |]; intros f Hf; by repeat apply list_elem_of_further.
  - intros f Hf. by rewrite upd_ne.
  - by rewrite upd_eq.
Qed.

Lemma wp_clear_interrupt_shadow H A R D s Q : cst H A R D [] s ->
  (forall A' v, cst H A' R D [] (with_vmcs v s) -> (forall f, f <> st_interrupt -> A' f = A f) ->
    bit (A' st_interrupt) STI_BIT = false -> bit (A' st_interrupt) MSS_BIT = false -> Q tt (with_vmcs v s)) ->
  wp clear_interrupt_shadow s Q.
Proof.
  intros Hc HQ. unfold clear_interrupt_shadow. repeat cstep.
  match type of Hc with cst _ ?A' _ _ _ (with_vmcs ?v _) => apply (HQ A' v) end.
  - eapply cst_weaken; [exact Hc| |]; intros f Hf; by repeat apply list_elem_of_further.
  - intros f Hf. by rewrite !upd_ne.
  - rewrite upd_eq, bit_set_other by done. by apply (bit_set_same _ _ false).
  - rewrite upd_eq. by apply (bit_set_same _ _ false).
Qed.

Lemma regs_ok_upd s s' : regs_ok s -> m_gpr s' = m_gpr s -> m_usr_excp s' = m_usr_excp s -> m_mem s' = m_mem s ->
  regs_ok s'.
Proof. intros [] E1 E2 E3. split; by rewrite ?E1, ?E2, ?E3. Qed.

Lemma wp_emulate_done H A R D W s n rc : cst H A R D W s -> pre_hdl_fields ⊆ R -> W ⊆ st_cr3 :: pdpe_fields ->
  (W = [] \/ rc = VM_FAULT) -> mode_ok A s -> regs_ok s -> wp (emulate_done rc n) s (handled H).
Proof.
  intros Hc HR HW Hrc Hm Hr. unfold emulate_done. do 2 cstep.
  destruct (decide (rc = VM_DONE)) as [->|Hn1].
  - destruct Hrc as [->|]; [|done]. rewrite bool_decide_true by done.
    eapply wp_update_rip; [exact Hc|done|]. intros A1 v1 Hc1 HA1 _. do 2 cstep.
    rewrite bool_decide_true by auto. do 2 cstep.
    eapply wp_clear_interrupt_shadow; [exact Hc1|]. intros A2 v2 Hc2 HA2 _ _. cbn beta. apply wp_ret.
    eapply handled_intro; [exact Hc2|done|done| |].
    + eapply (mode_ok_off [st_rip; st_interrupt]); [by apply off_mode_check; vm_compute|exact Hm| |done].
      intros f [Hf1 Hf2%not_elem_of_cons]%not_elem_of_cons. rewrite HA2, HA1; [done|done|apply Hf2].
    + by eapply regs_ok_upd.
  - rewrite bool_decide_false by done. do 2 cstep. destruct (decide (rc = VM_DONE_LET_RIP)) as [->|Hn2].
    + destruct Hrc as [->|]; [|done]. rewrite bool_decide_true by auto. do 2 cstep.
      eapply wp_clear_interrupt_shadow; [exact Hc|]. intros A2 v2 Hc2 HA2 _ _. cbn beta. apply wp_ret.
      eapply handled_intro; [exact Hc2|done|done| |].
      * eapply (mode_ok_off [st_interrupt]); [by apply off_mode_check; vm_compute|exact Hm| |done].
        intros f [Hf _]%not_elem_of_cons. by apply HA2.
      * by eapply regs_ok_upd.
    + rewrite bool_decide_false by tauto. cstep. apply wp_ret. by eapply handled_intro.
Qed.

Lemma mode_ok_vmcs A v s : mode_ok A s -> mode_ok A (with_vmcs v s).
Proof. by intros []. Qed.

Lemma wp_finish H A R D W s n rc : cst H A R D W s -> pre_hdl_fields ⊆ R -> W ⊆ st_cr3 :: pdpe_fields ->
  (W = [] \/ rc = VM_FAULT) -> mode_ok A s -> regs_ok s -> wp (finish n rc) s (handled H).
Proof.
  intros Hc HR HW Hrc Hm Hr. unfold finish, insn_sz. apply wp_bind. cstep.
  apply (cst_pre H A R D W s info_insn_len); [fld_ok|load_ok|efer_ok| |exact Hc|].
  { intros Hin%HW. revert Hin. by apply (bool_decide_eq_true_1 _); vm_compute. }
  clear Hc. intros v Hc. cstep. eapply wp_emulate_done; [exact Hc| |done|done|by apply mode_ok_vmcs|by eapply regs_ok_upd].
  intros f Hf. right. by apply HR.
Qed.

(** A handler between the start of the exit and its end. *)
Definition settled (H : field -> Z) (rc : vm_code) (s : mach) : Prop := exists A R D W,
  cst H A R D W s /\ pre_hdl_fields ⊆ R /\ W ⊆ st_cr3 :: pdpe_fields /\ (W = [] \/ rc = VM_FAULT) /\
  mode_ok A s /\ regs_ok s.
Record starting (H A : field -> Z) (R D : list field) (s : mach) : Prop := mk_starting {
  sg_cst : cst H A R D [] s;
  sg_pre : pre_hdl_fields ⊆ R;
  sg_mode : mode_ok A s;
  sg_regs : regs_ok s;
}.

Lemma settled_finish H h n s : wp h s (settled H) -> wp (rc ← h; finish n rc) s (handled H).
Proof.
  intros Hh. apply wp_bind. eapply wp_mono; [exact Hh|]. intros rc s' (A & R & D & W & ? & ? & ? & ? & ? & ?).
  by eapply wp_finish.
Qed.
Lemma settled_emulate_done H n h s : wp h s (settled H) -> wp (rc ← h; emulate_done rc n) s (handled H).
Proof.
  intros Hh. apply wp_bind. eapply wp_mono; [exact Hh|]. intros rc s' (A & R & D & W & ? & ? & ? & ? & ? & ?).
  by eapply wp_emulate_done.
Qed.
Lemma settled_handled H rc s : settled H rc s -> handled H rc s.
Proof.
  intros (A & R & D & W & ? & ? & HW & ? & ? & ?). by eapply handled_intro.
Qed.
Lemma settled_intro H A R D s rc : starting H A R D s -> settled H rc s.
Proof. intros []. exists A, R, D, []. split_and!; try done; [apply list_subseteq_nil|by left]. Qed.

Lemma settled_fault H A R D s : starting H A R D s -> wp inject_gp s (settled H).
Proof.
  intros []. eapply wp_fault; [done..|]. intros A' s' Hc []. eapply settled_intro. by split.
Qed.

Lemma settled_post H R D fs A s P : pre_hdl_fields ⊆ R -> cr_post H R D fs A s P (settled H).
Proof.
  intros HR ok A' W' s' Hc HW [] _. exists A', R, D, W'. split_and!; try done; destruct ok; auto.
  - by etrans; [|apply list_subseteq_nil].
  - left. by apply sub_nil.
Qed.
Lemma settled_calls H rc l s : settled H rc s -> settled H rc (with_calls l s).
Proof.
  intros (A & R & D & W & ? & ? & ? & ? & [] & []). exists A, R, D, W. by split_and!.
Qed.
Lemma settled_cr_any H A R D s cr g : starting H A R D s -> fits 64 g ->
  wp (resolve_cr_wr_any ar max_paddr cr g) s (settled H).
Proof.
  intros [] Hg. unfold resolve_cr_wr_any.
  assert (faulted H R D A s (settled H)) as Hf.
  { intros A' s' Hc' []. eapply settled_intro. by split. }
  destruct (cr =? 0); [|destruct (cr =? 3)].
  - eapply wp_resolve_cr0_wr; try done. intros _. by apply settled_post.
  - eapply wp_resolve_cr3_wr; try done. by apply settled_post.
  - eapply wp_resolve_cr4_wr; try done. intros _. by apply settled_post.
Qed.
Lemma settled_cr_wr H A R D s cr g : starting H A R D s -> fits 64 g ->
  wp (resolve_cr_wr_with ar max_paddr cr g) s (settled H).
Proof.
  intros Hst Hg. unfold resolve_cr_wr_with. destruct (_ || _); [|apply wp_ret; by eapply settled_intro].
  apply wp_bind. eapply wp_mono; [by eapply settled_cr_any|]. intros rc s' Hs'. by apply settled_calls.
Qed.

Lemma put_gpr_regs s r v : regs_ok s -> fits 64 v ->
  regs_ok (with_gpr (fun r' => if decide (r = r') then v else m_gpr s r') s).
Proof. intros [Hg Hu Hm] Hv. split; [|done|done]. intros r'. cbn. by case_decide. Qed.

Lemma starting_gpr H A R D s r v : starting H A R D s -> fits 64 v ->
  starting H A R D (with_gpr (fun r' => if decide (r = r') then v else m_gpr s r') s).
Proof. intros [Hc Hp [] Hr] Hv. split; [done|done|done|]. by apply put_gpr_regs. Qed.

Lemma starting_gpr_low H A R D s r v : starting H A R D s ->
  starting H A R D (with_gpr (fun r' => if decide (r = r') then set_bits (m_gpr s r) 0 32 v else m_gpr s r') s).
Proof. intros Hst. apply starting_gpr; [done|]. apply set_bits_fits; [lia|lia|lia|apply Hst]. Qed.

Lemma starting_pre H A R D s f v : pre_hdl_fields ⊆ R -> mode_ok A s -> regs_ok s ->
  cst H A (f :: R) D [] (with_vmcs v s) -> starting H A (f :: R) D (with_vmcs v s).
Proof.
  intros Hp [] Hr Hc'. split; [done| |done|by eapply regs_ok_upd]. intros g Hg. right. by apply Hp.
Qed.

Lemma settled_cr_rd H A R D s cr gpr : starting H A R D s -> wp (resolve_cr_rd cr gpr) s (settled H).
Proof.
  intros Hst. unfold resolve_cr_rd. destruct (cr_field cr) as [f|] eqn:Ef; [|apply wp_ret; by eapply settled_intro].
  assert (ok_field vmx_supported f /\ width f = 64 /\ (cr <> 4 -> f ∈ pre_hdl_fields) /\ (cr = 4 -> f = exec_cr4_read_shadow))
    as (Hok & Hw & Hin & H4).
  { unfold cr_field in Ef. destruct (Z.eqb_spec cr 0) as [->|]; [|destruct (Z.eqb_spec cr 3) as [->|];
      [|destruct (Z.eqb_spec cr 4) as [->|]; [|done]]]; injection Ef as <-; split_and!; try done; try fld_ok; intros _; elem. }
  apply wp_bind.
  apply (wp_mono _ _ (fun _ s' => exists R', starting H A R' D s' /\ f ∈ R')).
  - apply wp_when. destruct (Z.eqb_spec cr 4) as [He|Hn].
    + rewrite (H4 He) in *. destruct Hst as [Hc Hp Hm Hr]. cstep. exists (exec_cr4_read_shadow :: R). split; [|by left].
      by eapply starting_pre.
    + exists R. split; [done|]. destruct Hst as [_ Hp _ _]. by apply Hp, Hin.
  - intros [] s' (R' & Hst' & Hf). pose proof (sg_cst _ _ _ _ _ Hst') as Hc.
    assert (st_cs_attributes ∈ R') as Ha by (apply Hst'; elem).
    assert (fits 64 (A f)) as HA by (rewrite <- Hw; by eapply cst_fits).
    do 6 cstep. destruct (lmode64 _ _); repeat cstep; eapply settled_calls, settled_intro, starting_gpr; try done.
    apply set_bits_fits; [lia|lia|lia|]. apply Hst'.
Qed.

Lemma settled_clts H A R D s : starting H A R D s -> wp emulate_clts s (settled H).
Proof.
  intros Hst. unfold emulate_clts, cpl. pose proof (sg_cst _ _ _ _ _ Hst) as Hc.
  assert (st_cs_selector ∈ R /\ exec_cr0_read_shadow ∈ R /\ st_cr0 ∈ R) as (H1 & H2 & H3).
  { split_and!; apply Hst; elem. }
  do 4 cstep. destruct (negb _); [by eapply settled_fault|]. do 3 cstep.
  eapply wp_cr0_update; [exact Hc|done|done|]. intros A' v Hc' Esh _ HA'. cbn beta. apply wp_ret.
  eapply settled_intro. destruct Hst as [_ Hp [M1 M2 M3 [I1 I2 I3 I4] M5 M6] Hr].
  assert (forall i, 0 <= i < 32 -> i <> CR0_TS_BIT ->
    bit (A' exec_cr0_read_shadow) i = bit (A exec_cr0_read_shadow) i) as Eb.
  { intros i Hi Hn. rewrite Esh, bit_set_low by done. unfold bit.
    rewrite Z.ldiff_spec, testbit_bits, Z.add_0_r, (proj2 (Z.ltb_lt i 32)) by lia.
    rewrite Z.shiftl_spec by lia. unfold CR0_TS_BIT in *. destruct (Z.eq_dec i 3) as [->|]; [done|].
    replace (Z.testbit 1 (i - 3)) with false; [by rewrite andb_true_r|].
    symmetry. destruct (Z.lt_ge_cases (i - 3) 0); [by rewrite Z.testbit_neg_r|].
    apply Z.bits_above_log2; simpl; lia. }
  split; [done|done| |by eapply regs_ok_upd].
  assert (forall f, f ∈ [exec_cr4_read_shadow; entry_entry; st_ia32_efer] -> A' f = A f) as Eo.
  { intros f Hf. apply HA'. revert Hf. by apply notin_by; vm_compute. }
  split; rewrite ?Eb by done; rewrite ?Eo by elem; try done. split; by rewrite Eo by elem.
Qed.

Lemma settled_lmsw H A R D s v : starting H A R D s -> wp (vmx_vmexit_resolve_lmsw ar max_paddr v) s (settled H).
Proof.
  intros Hst. unfold vmx_vmexit_resolve_lmsw. pose proof (sg_cst _ _ _ _ _ Hst) as Hc.
  assert (exec_cr0_read_shadow ∈ R) as H1 by (apply Hst; elem).
  do 2 cstep. eapply settled_cr_wr; [done|].
  assert (fits 64 (A exec_cr0_read_shadow)) as Hf.
  { change 64 with (width exec_cr0_read_shadow). eapply cst_fits; [exact Hc|fld_ok]. }
  apply fits_lor; [done| |].
  - apply fits_of_testbit; [done|apply Z.ldiff_nonneg; left; apply Hf|].
    intros i Hi. by rewrite Z.ldiff_spec, (fits_testbit 64).
  - apply fits_of_testbit; [done|apply Z.land_nonneg; by right|].
    intros i Hi. rewrite Z.land_spec, (fits_testbit 4 15) by (done || lia). apply andb_false_r.
Qed.

Lemma settled_resolve_cr H A R D s wr cr gpr : starting H A R D s ->
  wp (resolve_cr ar max_paddr wr cr gpr) s (settled H).
Proof.
  intros Hst. unfold resolve_cr, valid_cr_access, is_rmode, cpl. pose proof (sg_cst _ _ _ _ _ Hst) as Hc.
  assert (st_cs_selector ∈ R /\ exec_cr0_read_shadow ∈ R) as (H1 & H2) by (split; apply Hst; elem).
  do 12 cstep. destruct (negb _); [by eapply settled_fault|]. destruct (negb _).
  { apply wp_ret. by eapply settled_intro. }
  destruct wr; [|by eapply settled_cr_rd]. unfold resolve_cr_wr. do 2 cstep.
  eapply settled_cr_wr; [done|]. apply Hst.
Qed.

Lemma handled_cr_access H s : starting H H pre_hdl_fields [] s ->
  wp (vmx_vmexit_resolve_cr_access ar max_paddr) s (handled H).
Proof.
  intros Hst. unfold vmx_vmexit_resolve_cr_access. destruct Hst as [Hc Hp Hm Hr]. do 4 cstep.
  assert (starting H H (info_qualification :: pre_hdl_fields) [] (with_vmcs v s)) as Hst by by eapply starting_pre.
  destruct (_ =? 0); [|destruct (_ =? 1); [|destruct (_ =? 3)]].
  - apply settled_finish. by eapply settled_resolve_cr.
  - apply settled_finish. by eapply settled_resolve_cr.
  - destruct (bit _ 6); [apply wp_ret, settled_handled; by eapply settled_intro|].
    do 2 cstep. apply settled_finish. by eapply settled_lmsw.
  - apply settled_finish. by eapply settled_clts.
Qed.

(** *** The other handlers

    They do not touch the mode. *)

(** The end of a handler that left the mode alone. *)
Lemma starting_off fs H A A0 R R' D s s0 : cst H A R' D [] s -> pre_hdl_fields ⊆ R' -> starting H A0 R [] s0 ->
  off_mode fs -> (forall f, f ∉ fs -> A f = A0 f) -> same_mode s0 s -> regs_ok s -> starting H A R' D s.
Proof. intros Hc Hp [_ _ Hm _] Ho HA Hs Hr. split; [done|done| |done]. by eapply (mode_ok_off fs). Qed.

Ltac settle fs :=
  lazymatch goal with
  | Hst : starting ?H ?A0 ?R [] ?s0, Hc : cst ?H ?A ?R' ?D [] ?s |- settled ?H ?rc ?s =>
      apply (settled_intro H A R' D s rc);
      apply (starting_off fs H A A0 R R' D s s0);
      [exact Hc|pre_ok|exact Hst|by apply off_mode_check; vm_compute|
       let f := fresh in let Hf := fresh in intros f Hf; by upd_other Hf|done|]
  end.

Lemma put_gpr_low_regs s s' r v : regs_ok s -> m_usr_excp s' = m_usr_excp s -> m_mem s' = m_mem s ->
  m_gpr s' = (fun r' => if decide (r = r') then set_bits (m_gpr s r) 0 32 v else m_gpr s r') -> regs_ok s'.
Proof.
  intros Hr E2 E3 E1. eapply (regs_ok_upd (with_gpr _ s)); [|exact E1|done|done].
  apply put_gpr_regs; [done|]. apply set_bits_fits; [lia|lia|lia|apply Hr].
Qed.

Definition cs_ss_fields : list field :=
  [st_cs_selector; st_cs_base; st_cs_limit; st_cs_attributes; st_ss_selector; st_ss_base; st_ss_limit;
   st_ss_attributes; st_rip; st_rflags].

Lemma settled_sysenter H A s : starting H A pre_hdl_fields [] s -> wp emulate_sysenter s (settled H).
Proof.
  intros Hst. unfold emulate_sysenter, put_segment, put_flat, post_segments, for_each.
  pose proof (sg_cst _ _ _ _ _ Hst) as Hc. do 10 cstep.
  destruct (_ || _).
  { eapply settled_fault. destruct Hst as [_ _ [] Hr]. split; [exact Hc|pre_ok|done|by eapply regs_ok_upd]. }
  repeat cstep; try (apply wrap_fits; done); try (split; done).
  settle cs_ss_fields. eapply (put_gpr_low_regs s); [apply Hst|done..].
Qed.

Lemma settled_sysexit H A s : starting H A pre_hdl_fields [] s -> wp emulate_sysexit s (settled H).
Proof.
  intros Hst. unfold emulate_sysexit, cpl, put_segment, put_flat, post_segments, for_each.
  pose proof (sg_cst _ _ _ _ _ Hst) as Hc. do 10 cstep.
  destruct (_ || _).
  { eapply settled_fault. destruct Hst as [_ _ [] Hr]. split; [exact Hc|pre_ok|done|by eapply regs_ok_upd]. }
  repeat cstep; try (apply wrap_fits; done); try (split; done).
  settle cs_ss_fields. eapply (put_gpr_low_regs s); [apply Hst|done..].
Qed.

(** A write of the efer that leaves its long mode bits as the processor would. *)
Definition efer_wr_sane (A : field -> Z) (s : mach) : Prop :=
  bit (m_gpr s GPR64_RAX) EFER_LMA_BIT = bit (m_efer s) EFER_LMA_BIT /\
  (bit (A exec_cr0_read_shadow) CR0_PG_BIT = true ->
   bit (m_gpr s GPR64_RAX) EFER_LME_BIT = bit (m_efer s) EFER_LME_BIT).

Definition efer_value (s : mach) : Z :=
  Z.land (bits (m_gpr s GPR64_RAX) 0 32 + bits (m_gpr s GPR64_RDX) 0 32 * 2 ^ 32) 0xd01.
Lemma efer_value_bit s i : 0 <= i < 32 -> bit 0xd01 i = true -> bit (efer_value s) i = bit (m_gpr s GPR64_RAX) i.
Proof.
  intros Hi Hm. unfold efer_value, bit in *. rewrite Z.land_spec, Hm, andb_true_r.
  rewrite <- (Z.mod_pow2_bits_low _ 32 i), Z.mod_add, Z.mod_pow2_bits_low, testbit_bits by (done || lia).
  by rewrite (proj2 (Z.ltb_lt i 32)), Z.add_0_r by lia.
Qed.

Lemma settled_efer H A s wr : starting H A pre_hdl_fields [] s -> (wr = true -> efer_wr_sane A s) ->
  wp (resolve_msr_efer wr) s (settled H).
Proof.
  intros Hst Hsane. unfold resolve_msr_efer, gpr_low. destruct wr.
  - pose proof (sg_cst _ _ _ _ _ Hst) as Hc. destruct (Hsane eq_refl) as [Hlma Hlme]. repeat cstep.
    change (Z.land _ 3329) with (efer_value s) in *.
    assert (bit (efer_value s) EFER_LMA_BIT = bit (m_efer s) EFER_LMA_BIT) as E1 by by rewrite efer_value_bit.
    assert (bit (efer_value s) EFER_LME_BIT = bit (m_gpr s GPR64_RAX) EFER_LME_BIT) as E2 by by rewrite efer_value_bit.
    set (e' := efer_value s) in *. clearbody e'. clear Hsane.
    destruct Hst as [_ Hp [M1 M2 M3 [I1 I2 I3 I4] M5 M6] Hr].
    assert (bit e' EFER_LMA_BIT = bit e' EFER_LME_BIT && bit (A exec_cr0_read_shadow) CR0_PG_BIT) as E3.
    { rewrite E1, E2, M2. destruct (bit (A exec_cr0_read_shadow) CR0_PG_BIT); [by rewrite Hlme|].
      by rewrite !andb_false_r. }
    assert (bit e' EFER_LMA_BIT && negb (bit e' EFER_LME_BIT) = false) as ->.
    { rewrite E3. by destruct (bit e' EFER_LME_BIT), (bit (A exec_cr0_read_shadow) CR0_PG_BIT). }
    match type of Hc with cst _ ?A' ?R' ?D' _ ?s' => assert (starting H A' R' D' s') as Hst' end.
    { split; [exact Hc|pre_ok| |by eapply regs_ok_upd].
      split; upd_simpl; change (m_efer _) with e'; try done; [by rewrite E1|].
      split; upd_simpl; repeat first [rewrite bit_set_same by done | rewrite bit_set_other by done]; congruence. }
    repeat cstep. wp_if; [by eapply settled_fault|]. cstep. by eapply settled_intro.
  - repeat cstep. eapply settled_intro. by do 2 apply starting_gpr_low.
Qed.

Definition intr_fields : list field := event_fields ++ [exec_proc; st_rflags; st_interrupt; entry_insn_len].

(** Interrupts and events to deliver again. *)
Ltac settle_all fs := settle fs;
  lazymatch goal with
  | Hst : starting ?H ?A0 ?R [] ?s0 |- _ => apply (regs_ok_upd s0); [apply Hst|done|done|done]
  end.

Lemma settled_iwe H A s : starting H A pre_hdl_fields [] s -> wp vmx_vmexit_resolve_iwe s (settled H).
Proof.
  intros Hst. unfold vmx_vmexit_resolve_iwe, inject_interrupt, setup_interrupt_window_exiting, vmx_prepare_event_injection.
  pose proof (sg_cst _ _ _ _ _ Hst) as Hc. repeat cstep; [apply int_info_fits|].
  by_cases; settle_all intr_fields.
Qed.

(** The interrupt of the exit, when it is not the one the vmm keeps. *)
Lemma settled_intr H A s : starting H A pre_hdl_fields [] s -> bits (A info_int_info) 0 8 <> 0xc0 ->
  wp vmx_vmexit_resolve_intr s (settled H).
Proof.
  intros Hst Hn. unfold vmx_vmexit_resolve_intr, resolve_intr, safe_interrupts_on, inject_interrupt,
    setup_interrupt_window_exiting, vmx_prepare_event_injection.
  pose proof (sg_cst _ _ _ _ _ Hst) as Hc. do 8 cstep. cbn [m_irq_vector with_irq_vector].
  rewrite (proj2 (Z.eqb_neq _ _) Hn). 
  by_cases; try apply int_info_fits; by_cases; settle_all intr_fields.
Qed.

Ltac fits_read := try lazymatch goal with
  | Hst : starting ?H ?A ?R [] ?s0 |- fits (width _) (?A ?f) =>
      apply (cst_fits H A R [] [] s0 f); [apply Hst|fld_ok]
  | |- fits _ _ => by vm_compute
  end.
Lemma settled_idt_deliver H A s : starting H A pre_hdl_fields [] s -> wp idt_deliver s (settled H).
Proof.
  intros Hst. unfold idt_deliver, idt_deliver_rmode, idt_deliver_pmode, is_rmode.
  pose proof (sg_cst _ _ _ _ _ Hst) as Hc.
  by_cases; fits_read; by_cases; fits_read; by_cases; fits_read; by_cases; settle_all intr_fields.
Qed.
End mode.
