(* ===== verification/CpuRun.v ===== *)
(** * The exits of the vm, and the mode of its processor over them

    The handlers of [CpuRegs] and [Rmode] leave the mode alone: they are
    [calm], a triple that composes over their text.  With those of [CpuMode]
    that change it, every exit of the vm on its processor returns and keeps
    the mode consistent. *)

From S2P Require Import Prelude.
From S2P Require Import Monad.
From S2P Require Import Pagemem.
From S2P Require Import Walk.
From S2P Require Import Vm.
From S2P Require Import Words.
From S2P Require Import Vmcs.
From S2P Require Import Machine.
From S2P Require Import Cpu.
From S2P Require Import CpuRegs.
From S2P Require Import Rmode.
From S2P Require Import CpuMode.

Section calm.
Context {V : Vmx}.

(** ** Calm code

    From a state of a handler whose unmarked changes are [W] to one where they
    are [W'], with a value in [P]; the mode and the rest of the state stay
    consistent on the way. *)

Definition at_rest (H : field -> Z) (W : list field) (s : mach) : Prop := exists A R D,
  cst H A R D W s /\ pre_hdl_fields ⊆ R /\ mode_ok A s /\ regs_ok s.
Definition calm {X} (W : list field) (m : M mach X) (P : X -> Prop) (W' : list field) : Prop :=
  forall H s, at_rest H W s -> wp m s (fun x s' => P x /\ at_rest H W' s').

Definition any {X} (x : X) : Prop := True.

Lemma calm_mono {X} W m (P P' : X -> Prop) W' : calm W m P W' -> (forall x, P x -> P' x) -> calm W m P' W'.
Proof. intros Hm HP H s Hs. eapply wp_mono; [by apply Hm|]. intros x s' [? ?]. auto. Qed.
Lemma calm_any {X} W m (P : X -> Prop) W' : calm W m P W' -> calm W m any W'.
Proof. intros Hm. by eapply calm_mono. Qed.
Lemma calm_ret {X} W (x : X) (P : X -> Prop) : P x -> calm W (mret x) P W.
Proof. intros HP H s Hs. by apply wp_ret. Qed.
Lemma calm_ret_any {X} W (x : X) : calm W (mret x) any W.
Proof. by apply calm_ret. Qed.
Lemma calm_bind {X Y} W W1 W2 (m : M mach X) (k : X -> M mach Y) P Q :
  calm W m P W1 -> (forall x, P x -> calm W1 (k x) Q W2) -> calm W (m ≫= k) Q W2.
Proof.
  intros Hm Hk H s Hs. apply wp_bind. eapply wp_mono; [by apply Hm|]. intros x s' [Hx Hs']. by apply Hk.
Qed.
Lemma calm_if {X} W (b : bool) (m m' : M mach X) P W' : (b = true -> calm W m P W') -> (b = false -> calm W m' P W') ->
  calm W (if b then m else m') P W'.
Proof. destruct b; auto. Qed.
Lemma calm_when W (b : bool) m : (b = true -> calm W m any W) -> calm W (when b m) any W.
Proof. intros Hb. destruct b; [auto|by apply calm_ret]. Qed.

(** Accesses. *)
Lemma calm_pre W f : ok_field vmx_supported f -> loadable f -> f <> st_ia32_efer -> f ∉ W -> calm W (pre_access f) any W.
Proof.
  intros Hf Hl He HW H s (A & R & D & Hc & Hp & Hm & Hr). apply (cst_pre H A R D W s f); try done.
  intros v Hc'. split; [done|]. exists A, (f :: R), D. split_and!; [done| |by apply mode_ok_vmcs|by eapply regs_ok_upd].
  intros g Hg. right. by apply Hp.
Qed.
Lemma calm_post W f W' : ok_field vmx_supported f -> loadable f -> f <> st_ia32_efer -> f ∈ W ->
  filter (fun g => g <> f) W = W' -> calm W (post_access f) any W'.
Proof.
  intros Hf Hl He HW <- H s (A & R & D & Hc & Hp & Hm & Hr). apply (cst_post H A R D W s f); try done; [by left|].
  intros v Hc'. split; [done|]. exists A, (f :: R), (f :: D).
  split_and!; [done| |by apply mode_ok_vmcs|by eapply regs_ok_upd].
  intros g Hg. right. by apply Hp.
Qed.
Lemma calm_getf W f : ok_field vmx_supported f -> calm W (getf f) (fits (width f)) W.
Proof.
  intros Hf H s Hs. apply wp_gets. split; [|done]. destruct Hs as (A & R & D & (L & D' & Hv & _) & _).
  by destruct (Hv f Hf).
Qed.
Lemma calm_putf W f x : ok_field vmx_supported f -> fits (width f) x -> f ∉ mode_fields -> calm W (putf f x) any (f :: W).
Proof.
  intros Hf Hx Ho H s (A & R & D & Hc & Hp & Hm & Hr). apply (cst_putf H A R D W s f); try done.
  intros v Hc'. split; [done|]. exists (upd A f x), R, D. split_and!; [done|done| |by eapply regs_ok_upd].
  eapply (mode_ok_off [f]); [|exact Hm| |done].
  - intros g Hg Hin%list_elem_of_singleton. by subst g.
  - intros g Hg%not_elem_of_cons. by rewrite upd_ne by apply Hg.
Qed.
Lemma calm_put_fld W f lo w x : ok_field vmx_supported f -> 0 <= lo -> 0 <= w -> lo + w <= width f -> f ∉ mode_fields ->
  calm W (put_fld f lo w x) any (f :: W).
Proof.
  intros Hf Hlo Hw Hle Ho. unfold put_fld. eapply calm_bind; [by apply calm_getf|].
  intros y Hy. apply calm_putf; [done|by apply set_bits_fits|done].
Qed.

(** The other parts of the state. *)
Lemma calm_get_gpr W r : calm W (get_gpr r) (fits 64) W.
Proof. intros H s Hs. apply wp_gets. split; [|done]. destruct Hs as (A & R & D & _ & _ & _ & []). done. Qed.
Lemma calm_gets {X} W (g : mach -> X) : calm W (gets g) any W.
Proof. intros H s Hs. by apply wp_gets. Qed.
Lemma calm_mem W : calm W (gets m_mem) mem_ok W.
Proof. intros H s Hs. apply wp_gets. split; [|done]. destruct Hs as (A & R & D & _ & _ & _ & []). done. Qed.
Lemma calm_modify W g : (forall s, m_vmcs (g s) = m_vmcs s /\ same_mode s (g s) /\ (regs_ok s -> regs_ok (g s))) ->
  calm W (modify g) any W.
Proof.
  intros Hg H s (A & R & D & Hc & Hp & Hm & Hr). apply wp_modify. split; [done|]. exists A, R, D.
  destruct (Hg s) as (E1 & E2 & E3). split_and!; [|done|by eapply mode_ok_agree|auto].
  destruct Hc as (L & D' & Hv & Hc). exists L, D'. split; [|done]. intros f Hf. rewrite E1. by apply Hv.
Qed.
Lemma calm_call W c : calm W (call c) any W.
Proof. apply calm_modify. intros s. split_and!; [done|done|]. by intros []. Qed.
Lemma calm_put_gpr W r v : fits 64 v -> calm W (put_gpr r v) any W.
Proof. intros Hv. apply calm_modify. intros s. split_and!; [done|done|]. intros Hr. by apply put_gpr_regs. Qed.
Lemma calm_put_gpr_fld W r lo w v : 0 <= lo -> 0 <= w -> lo + w <= 64 -> calm W (put_gpr_fld r lo w v) any W.
Proof.
  intros Hlo Hw Hle. eapply calm_bind; [apply calm_get_gpr|]. intros x Hx. by apply calm_put_gpr, set_bits_fits.
Qed.
Lemma calm_write W (g : gmap Z Z -> gmap Z Z) : (forall m, mem_ok m -> mem_ok (g m)) ->
  calm W (modify (fun s => with_mem (g (m_mem s)) s)) any W.
Proof. intros Hg. apply calm_modify. intros s. split_and!; [done|done|]. intros []. split; [done|done|by apply Hg]. Qed.

(** Halves of a register. *)
Lemma calm_part W (m : M mach Z) P lo w W' : 0 <= lo -> 0 <= w -> calm W m P W' ->
  calm W (v ← m; mret (bits v lo w)) (fits w) W'.
Proof. intros Hlo Hw Hm. eapply calm_bind; [exact Hm|]. intros x _. by apply calm_ret, bits_fits. Qed.
Lemma calm_gpr_low W r : calm W (gpr_low r) (fits 32) W.
Proof. eapply calm_part; [done|done|apply calm_get_gpr]. Qed.
Lemma calm_get_wlow W r : calm W (get_wlow r) (fits 16) W.
Proof. eapply calm_part; [done|done|apply calm_get_gpr]. Qed.
Lemma calm_base_low W f : ok_field vmx_supported f -> calm W (base_low f) (fits 32) W.
Proof. intros Hf. eapply calm_part; [done|done|by apply calm_getf]. Qed.

Lemma calm_settled (h : M mach vm_code) H A R D s : starting H A R D s -> calm [] h any [] -> wp h s (settled H).
Proof.
  intros [Hc Hp Hm Hr] Hh. eapply wp_mono; [apply (Hh H); by exists A, R, D|].
  intros rc s' [_ (A' & R' & D' & Hc' & Hp' & Hm' & Hr')]. exists A', R', D', [].
  split_and!; [done|done|apply list_subseteq_nil|by left|done|done].
Qed.
Lemma starting_rest H A R D s : starting H A R D s -> at_rest H [] s.
Proof. intros []. by exists A, R, D. Qed.
End calm.

(** The steps of calm code; [calm_lib] knows the functions shown calm. *)
Ltac calm_lib := fail.
Ltac loads := split; [elem |
  let Hc := fresh in intros Hc; exfalso; revert Hc; apply (bool_decide_eq_true_1 _); vm_compute; reflexivity].
Ltac calm_step :=
  lazymatch goal with
  | |- calm _ (_ ≫= _) _ _ => eapply calm_bind
  | |- forall x, _ -> calm _ _ _ _ => let x := fresh "x" in let Hx := fresh "Hx" in intros x Hx; cbn beta in *
  | |- _ = _ -> calm _ _ _ _ => intros ?
  | |- calm _ (mret _) _ _ => first [apply calm_ret_any | apply calm_ret; try done]
  | |- calm _ (when _ _) _ _ => apply calm_when
  | |- calm _ (if _ then _ else _) _ _ => apply calm_if
  | |- calm _ (pre_access _) _ _ => apply calm_pre; [fld_ok|loads|discriminate|nomem]
  | |- calm ?W (post_access ?f) _ _ =>
      let W' := eval vm_compute in (filter (fun g => g <> f) W) in
      apply (calm_post W f W'); [fld_ok|loads|discriminate|mem|reflexivity]
  | |- calm _ (getf _) _ _ => apply calm_getf; fld_ok
  | |- calm _ (putf _ _) _ _ => apply calm_putf; [fld_ok| |elem]
  | |- calm _ (put_fld _ _ _ _) _ _ => apply calm_put_fld; [fld_ok|done|done|vm_compute; done|elem]
  | |- calm _ (call _) _ _ => apply calm_call
  | |- calm _ (gpr_low _) _ _ => apply calm_gpr_low
  | |- calm _ (get_wlow _) _ _ => apply calm_get_wlow
  | |- calm _ (base_low _) _ _ => apply calm_base_low; fld_ok
  | |- calm _ (get_gpr _) _ _ => apply calm_get_gpr
  | |- calm _ (put_gpr _ _) _ _ => apply calm_put_gpr
  | |- calm _ (put_gpr_fld _ _ _ _) _ _ => apply calm_put_gpr_fld; [done|done|lia]
  | |- calm _ (gets m_mem) _ _ => apply calm_mem
  | |- calm _ (gets _) _ _ => apply calm_gets
  | |- calm _ _ _ _ => calm_lib
  end.
Ltac calms := repeat first [calm_step | progress cbn beta iota].

Section exits.
Context {V : Vmx} (ar : area_t) (max_paddr : Z).

(** ** The handlers that leave the mode alone *)

Lemma calm_edx_eax : calm [] edx_eax any [].
Proof. unfold edx_eax. calms. Qed.
Lemma calm_put_edx_eax v : calm [] (put_edx_eax v) any [].
Proof. unfold put_edx_eax. calms. Qed.
Lemma calm_emulate_native : calm [] emulate_native any [].
Proof. apply calm_modify. intros s. split_and!; [done|done|]. by intros []. Qed.
Lemma calm_put_drs n v : calm [] (put_drs n v) any [].
Proof. apply calm_modify. intros s. split_and!; [done|done|]. by intros []. Qed.

Lemma calm_inject v e c : fits 32 e -> fits 64 c -> calm [] (inject_exception v e c) any [].
Proof.
  intros He Hcr H s (A & R & D & Hc & Hp & Hm & Hr). unfold inject_exception, vmx_prepare_event_injection.
  by_cases; try apply int_info_fits; by_cases; try done; by_cases.
  all: split; [done|]; eexists _, _, _; split_and!; [exact Hc| | |by eapply regs_ok_upd].
  all: try (intros f Hf; repeat apply list_elem_of_further; by apply Hp).
  all: eapply (mode_ok_off event_fields); [by apply off_mode_check; vm_compute|exact Hm| |done].
  all: intros f Hf; by upd_other Hf.
Qed.
Lemma calm_inject_gp : calm [] inject_gp any [].
Proof. unfold inject_gp. eapply calm_bind; [by apply calm_inject|]. intros. calms. Qed.

Lemma calm_put_regs a b c d : calm [] (put_regs a b c d) any [].
Proof. unfold put_regs. calms. Qed.

Ltac calm_lib ::= lazymatch goal with
  | |- calm _ edx_eax _ _ => apply calm_edx_eax
  | |- calm _ (put_edx_eax _) _ _ => apply calm_put_edx_eax
  | |- calm _ emulate_native _ _ => apply calm_emulate_native
  | |- calm _ (put_drs _ _) _ _ => apply calm_put_drs
  | |- calm _ inject_gp _ _ => apply calm_inject_gp
  | |- calm _ (inject_exception _ _ _) _ _ => apply calm_inject; done
  | |- calm _ (put_regs _ _ _ _) _ _ => apply calm_put_regs
  end.

(** Debug registers, other instructions, processor identification. *)
Lemma calm_valid_access : calm [] valid_cr_access any [].
Proof. unfold valid_cr_access, is_rmode, cpl. calms. Qed.
Lemma calm_resolve_dr wr dr gpr : calm [] (resolve_dr wr dr gpr) any [].
Proof.
  unfold resolve_dr, resolve_dr_wr, resolve_dr_rd, get_drs.
  eapply calm_bind; [apply calm_valid_access|calms].
Qed.

Lemma calm_cpuid q : calm [] (resolve_cpuid_of q) any [].
Proof.
  unfold resolve_cpuid_of, resolve_cpuid_any, resolve_cpuid_qemu, resolve_cpuid_mshyperv, resolve_cpuid_native, vmx_vmexit_resolve_cpuid, cpl.
  calms.
  - lazymatch goal with |- context [match ?o with Some _ => _ | None => _ end] => destruct o as [[[[a b] c] d]|] end;
      calms.
  - destruct (vmx_cpuid _ _) as [[[a b] c] d]. calms.
Qed.

(** The end of an exit from calm code. *)
Hypothesis Hfree : entry_free.

Lemma rest_settled (h : M mach vm_code) H s : at_rest H [] s -> calm [] h any [] -> wp h s (settled H).
Proof. intros (A & R & D & ? & ? & ? & ?). by apply (calm_settled h H A R D). Qed.
Lemma rest_handled (h : M mach vm_code) H s : at_rest H [] s -> calm [] h any [] -> wp h s (handled H).
Proof. intros Hs Hh. eapply wp_mono; [by apply rest_settled|]. intros rc s'. by apply settled_handled. Qed.
Lemma rest_finish H s n rc : at_rest H [] s -> wp (finish n rc) s (handled H).
Proof.
  intros (A & R & D & ? & ? & ? & ?). eapply wp_finish; [done|done|apply list_subseteq_nil|by left|done|done].
Qed.
Lemma rest_then {X} (m : M mach X) (k : X -> M mach vm_code) H s : at_rest H [] s -> calm [] m any [] ->
  (forall x s', at_rest H [] s' -> wp (k x) s' (handled H)) -> wp (m ≫= k) s (handled H).
Proof. intros Hs Hm Hk. apply wp_bind. eapply wp_mono; [by apply Hm|]. intros x s' [_ Hs']. by apply Hk. Qed.

Lemma handled_dr H s : at_rest H [] s -> wp vmx_vmexit_resolve_dr_access s (handled H).
Proof.
  intros Hs. unfold vmx_vmexit_resolve_dr_access. apply rest_then; [done|calms|]. intros _ s1 Hs1.
  apply rest_then; [done|eapply calm_any; calms|]. intros q s2 Hs2.
  apply rest_then; [done|apply calm_resolve_dr|]. intros rc s3 Hs3. by apply rest_finish.
Qed.
Lemma handled_cpuid q H s : at_rest H [] s -> wp (resolve_cpuid q) s (handled H).
Proof. intros Hs. apply rest_then; [done|apply calm_cpuid|]. intros rc s' Hs'. by apply rest_finish. Qed.
Lemma handled_native n H s : at_rest H [] s -> wp (emulate_native ;; finish n VM_DONE) s (handled H).
Proof. intros Hs. apply rest_then; [done|apply calm_emulate_native|]. intros _ s' Hs'. by apply rest_finish. Qed.
Lemma handled_xsetbv H s : at_rest H [] s -> wp resolve_xsetbv s (handled H).
Proof.
  intros Hs. apply rest_then; [done|apply calm_emulate_native|]. intros _ s1 Hs1.
  apply rest_then; [done|apply calm_edx_eax|]. intros x s2 Hs2.
  apply rest_then; [done|eapply calm_any; calms|]. intros y s3 Hs3.
  destruct (_ || _); [by apply rest_handled, calm_inject_gp|by apply rest_finish].
Qed.

(** Model specific registers. *)
Definition msr_sane (A : field -> Z) (wr : bool) (s : mach) : Prop := let msr := bits (m_gpr s GPR64_RCX) 0 32 in
  (wr = true -> msr = IA32_EFER_MSR -> efer_wr_sane A s) /\
  (vmx_msr_proxy = true -> msr <> IA32_PAT_MSR /\ msr <> IA32_PERF_GLB_CTL_MSR).

Lemma calm_msr_field f wr : f = st_ia32_sysenter_esp \/ f = st_ia32_sysenter_eip \/ f = st_ia32_dbgctl ->
  calm [] (resolve_msr_field f wr) any [].
Proof.
  intros Hf. unfold resolve_msr_field.
  destruct Hf as [-> | [-> | ->]]; (destruct wr; cbv iota; calms).
Qed.
Lemma calm_msr_sysenter_cs wr : calm [] (resolve_msr_sysenter_cs wr) any [].
Proof. unfold resolve_msr_sysenter_cs. destruct wr; cbv iota; calms. done. Qed.
Lemma calm_msr_mtrr wr : calm [] (resolve_msr_mtrr_def wr) any [].
Proof.
  unfold resolve_msr_mtrr_def. destruct wr; cbv iota.
  - calms. apply calm_modify. intros s. split_and!; [done|done|]. by intros [].
  - calms.
Qed.
Lemma calm_native_msr wr : calm [] (native_msr wr) any [].
Proof. unfold native_msr. calms. Qed.

Lemma settled_msr_arch H A s wr : starting H A pre_hdl_fields [] s -> msr_sane A wr s ->
  wp (resolve_msr_arch wr) s (settled H).
Proof.
  intros Hst [He Hp]. unfold resolve_msr_arch, gpr_low. apply wp_bind, wp_bind, wp_gets, wp_ret. cbn beta in *.
  assert (forall m, calm [] m any [] -> wp m s (settled H)) as Hc.
  { intros m Hm. by eapply calm_settled. }
  destruct (Z.eqb_spec (bits (m_gpr s GPR64_RCX) 0 32) IA32_MTRR_DEF_TYPE); [apply Hc, calm_msr_mtrr|].
  destruct (Z.eqb_spec (bits (m_gpr s GPR64_RCX) 0 32) IA32_EFER_MSR); [apply (settled_efer H A s); auto|].
  destruct vmx_msr_proxy; cbn [negb]; cbv iota; [|apply Hc; calms]. destruct (Hp eq_refl) as [H1 H2].
  destruct (_ =? IA32_SYSENTER_CS_MSR); [apply Hc, calm_msr_sysenter_cs|]. unfold msr_field.
  destruct (_ =? IA32_SYSENTER_ESP_MSR); [apply Hc, calm_msr_field; auto|].
  destruct (_ =? IA32_SYSENTER_EIP_MSR); [apply Hc, calm_msr_field; auto|].
  rewrite (proj2 (Z.eqb_neq _ IA32_PAT_MSR)) by done.
  destruct (_ =? IA32_DBG_CTL_MSR); [apply Hc, calm_msr_field; auto|].
  rewrite (proj2 (Z.eqb_neq _ IA32_PERF_GLB_CTL_MSR)) by done. apply Hc. calms.
Qed.

Lemma handled_msr H A s wr : starting H A pre_hdl_fields [] s -> msr_sane A wr s -> wp (resolve_msr wr) s (handled H).
Proof.
  intros Hst Hsane. unfold resolve_msr. apply wp_bind. eapply wp_mono; [by eapply settled_msr_arch|].
  intros rc s1 Hs1. cbn beta. case_bool_decide as Hrc.
  - destruct Hs1 as (A1 & R1 & D1 & W1 & Hc & Hp & _ & [->|E] & Hm & Hr); [|by rewrite E in Hrc].
    apply rest_then; [by exists A1, R1, D1| |intros; by apply rest_finish].
    eapply calm_bind; [apply calm_native_msr|intros; calms].
  - apply (settled_finish H (mret rc)). by apply wp_ret.
Qed.

(** ** Emulated instructions *)

Context (smap_raw smap_nr : Z) (stp brk_insn : bool) (x0 : Z).

Lemma calm_push W v : st_ss_base ∉ W -> calm W (emulate_rmode_push v) any W.
Proof.
  intros HW. unfold emulate_rmode_push, put_wlow. calms.
  eapply (calm_write _ (fun m => wr16 m _ v)). intros m Hm. by apply wr16_ok.
Qed.
Lemma calm_pop W : st_ss_base ∉ W -> calm W emulate_rmode_pop (fits 16) W.
Proof.
  intros HW. unfold emulate_rmode_pop, put_wlow. calms. intros H s Hs. apply wp_gets. split; [|done].
  destruct Hs as (A & R & D & _ & _ & _ & []). by apply rd16_fits.
Qed.
Ltac calm_lib ::= lazymatch goal with
  | |- calm _ edx_eax _ _ => apply calm_edx_eax
  | |- calm _ (put_edx_eax _) _ _ => apply calm_put_edx_eax
  | |- calm _ emulate_native _ _ => apply calm_emulate_native
  | |- calm _ (put_drs _ _) _ _ => apply calm_put_drs
  | |- calm _ inject_gp _ _ => apply calm_inject_gp
  | |- calm _ (inject_exception _ _ _) _ _ => apply calm_inject; done
  | |- calm _ (put_regs _ _ _ _) _ _ => apply calm_put_regs
  | |- calm _ (emulate_rmode_push _) _ _ => apply calm_push; elem
  | |- calm _ emulate_rmode_pop _ _ => apply calm_pop; elem
  end.

Lemma calm_far_ret n : calm [] (emulate_rmode_far_ret n) any [].
Proof. unfold emulate_rmode_far_ret, put_wlow. calms. done. Qed.
Lemma calm_iret : calm [] emulate_rmode_iret any [].
Proof. unfold emulate_rmode_iret. eapply calm_bind; [apply calm_far_ret|calms]. Qed.

(** The bios services. *)
Lemma calm_a20_set on : calm [] (dev_a20_set on) any [].
Proof. unfold dev_a20_set. calms. apply calm_modify. intros s. split_and!; [done|done|]. by intros []. Qed.
Lemma calm_smap_copy src : calm [] (smap_copy ar src) any [].
Proof.
  unfold smap_copy. calms. apply calm_modify. intros s. split_and!; [done|done|]. intros [Hg Hu Hm].
  split; [done|done|]. by apply mem_write_ok, mem_read_fits.
Qed.
Lemma calm_int15_smap : calm [] (emulate_int15_smap ar smap_raw smap_nr) any [].
Proof. unfold emulate_int15_smap, put_low. calms; apply calm_smap_copy. Qed.
Lemma calm_get_smap : calm [] (emulate_int15_get_smap ar smap_raw smap_nr) any [].
Proof.
  unfold emulate_int15_get_smap, set_cf, put_low, put_bhigh.
  eapply calm_bind; [apply calm_int15_smap|]. intros rc _. destruct rc; calms.
Qed.
Lemma calm_int15 : calm [] (emulate_int15 ar smap_raw smap_nr x0) any [].
Proof.
  unfold emulate_int15, emulate_int15_get_ext_mem, emulate_int15_a20, emulate_int15_a20_status,
    emulate_int15_a20_support, emulate_int15_old_get_ext_mem, succeed, set_cf, put_wlow, put_blow, put_bhigh.
  calms; first [apply calm_get_smap|apply calm_a20_set].
Qed.

(** Interrupts. *)
Lemma calm_deliver v sz : calm [] (rmode_deliver stp brk_insn v sz) any [].
Proof.
  unfold rmode_deliver. eapply calm_bind; [apply calm_mem|]. intros m Hm. cbv zeta.
  pose proof (rd16_fits m (4 * v + 2) Hm) as Hs. set (seg := rd16 m (4 * v + 2)) in *. clearbody seg.
  unfold emulate_rmode_far_call, emulate_rmode_far_jump.
  destruct stp, brk_insn; cbn [negb when]; calms; done.
Qed.
Lemma calm_interrupt v sz : calm [] (emulate_interrupt ar smap_raw smap_nr stp brk_insn x0 v sz) any [].
Proof.
  unfold emulate_interrupt, emulate_rmode_interrupt, is_rmode. calms; [apply calm_int15|apply calm_deliver].
Qed.

Lemma settled_emulate_mov d H A R D s : starting H A R D s -> wp (emulate_mov ar max_paddr d) s (settled H).
Proof.
  intros Hst. unfold emulate_mov.
  assert (forall m : M mach vm_code, calm [] m any [] -> wp m s (settled H)) as Hc by (intros m Hm; by eapply calm_settled).
  assert (wp (mret VM_FAIL) s (settled H)) as Hf by (apply Hc; calms).
  destruct (op_type (ud_op1 d)), (op_type (ud_op2 d)); try exact Hf.
  destruct (in_range _ _ _); [destruct (ud_pfx d); [exact Hf|by eapply settled_resolve_cr]|].
  destruct (in_range _ _ _); [destruct (ud_pfx d); [exact Hf|by eapply settled_resolve_cr]|].
  destruct (in_range _ _ _); [apply Hc, calm_resolve_dr|].
  destruct (in_range _ _ _); [apply Hc, calm_resolve_dr|exact Hf].
Qed.

Lemma settled_insn d H A s : starting H A pre_hdl_fields [] s ->
  wp (emulate_insn ar max_paddr smap_raw smap_nr stp brk_insn x0 d) s (settled H).
Proof.
  intros Hst. unfold emulate_insn.
  assert (forall m : M mach vm_code, calm [] m any [] -> wp m s (settled H)) as Hc by (intros m Hm; by eapply calm_settled).
  assert (calm [] emulate_iret any []) as Hi by (unfold emulate_iret, is_rmode; calms; apply calm_iret).
  assert (calm [] emulate_into any []) as Ho by (unfold emulate_into; calms).
  destruct (ud_mn d); try (by apply Hc; first [exact Hi | exact Ho | calms]).
  - apply Hc. unfold emulate_intn. destruct (op_type (ud_op1 d)); [calms|apply calm_interrupt|calms].
  - by eapply settled_emulate_mov.
  - by eapply settled_sysenter.
  - by eapply settled_sysexit.
  - by eapply settled_clts.
Qed.

Lemma handled_emulate dis H A s : starting H A pre_hdl_fields [] s ->
  wp (emulate ar max_paddr smap_raw smap_nr stp brk_insn x0 dis) s (handled H).
Proof.
  intros Hst. unfold emulate. destruct dis as [rc|d].
  - apply rest_handled; [by eapply starting_rest|calms].
  - apply settled_emulate_done. by eapply settled_insn.
Qed.
Lemma starting_least H A R D s : starting H A R D s -> starting H A pre_hdl_fields [] s.
Proof. intros [Hc Hp Hm Hr]. split; [|done..]. eapply cst_weaken; [exact Hc|done|apply list_subseteq_nil]. Qed.
Lemma handled_rmode_gp dis H A s : starting H A pre_hdl_fields [] s ->
  wp (vmx_vmexit_resolve_rmode_gp ar max_paddr smap_raw smap_nr stp brk_insn x0 dis) s (handled H).
Proof.
  intros [Hc Hp Hm Hr]. unfold vmx_vmexit_resolve_rmode_gp. do 4 cstep.
  assert (starting H A pre_hdl_fields [] (with_vmcs v s)) as Hst.
  { eapply starting_least. by eapply starting_pre. }
  assert (forall m : M mach vm_code, calm [] m any [] -> wp m (with_vmcs v s) (handled H)) as Hcm.
  { intros m Hcm. apply rest_handled; [by eapply starting_rest|done]. }
  destruct (negb _); [apply Hcm; calms|].
  destruct (_ =? _); [by eapply handled_emulate|].
  destruct (_ =? _); [apply Hcm, calm_interrupt|apply Hcm; calms].
Qed.

(** ** The exits of the vm

    What the vm exits for, with what the exit has to be about: the interrupt
    is not the one the vmm keeps for itself, and a write of the efer leaves
    its long mode bits as the processor would. *)
Inductive cpu_exit (s : mach) : M mach vm_code -> Prop :=
  | exit_cr_access : cpu_exit s (vmx_vmexit_resolve_cr_access ar max_paddr)
  | exit_dr_access : cpu_exit s vmx_vmexit_resolve_dr_access
  | exit_msr wr : (forall H, at_exit H s -> msr_sane H wr s) -> cpu_exit s (resolve_msr wr)
  | exit_cpuid q : cpu_exit s (resolve_cpuid q)
  | exit_invd : cpu_exit s resolve_invd
  | exit_wbinvd : cpu_exit s resolve_wbinvd
  | exit_hlt : cpu_exit s resolve_hlt
  | exit_xsetbv : cpu_exit s resolve_xsetbv
  | exit_emulate dis : cpu_exit s (emulate ar max_paddr smap_raw smap_nr stp brk_insn x0 dis)
  | exit_rmode_gp dis :
      cpu_exit s (vmx_vmexit_resolve_rmode_gp ar max_paddr smap_raw smap_nr stp brk_insn x0 dis)
  | exit_intr : (forall H, at_exit H s -> bits (H info_int_info) 0 8 <> 0xc0) -> cpu_exit s vmx_vmexit_resolve_intr
  | exit_iwe : cpu_exit s vmx_vmexit_resolve_iwe
  | exit_idt_deliver : cpu_exit s idt_deliver.

(** The vm runs between two exits: it changes its registers and its memory,
    and the processor does not change the shadows of the control registers,
    nor the efer, nor the controls. *)
Definition kept_fields : list field := mode_fields ++ [exec_pin; exec_proc; exec_proc2; exec_excp_bitmap].
Definition vm_runs (s s' : mach) : Prop := exists H H' g m v, s' = with_vmcs v (with_gpr g (with_mem m s)) /\
  at_exit H s /\ at_exit H' s' /\ (forall f, f ∈ kept_fields -> H' f = H f) /\
  (forall r, fits 64 (g r)) /\ mem_ok m.

Inductive vm_step (s : mach) : mach -> Prop :=
  | step_run s' : vm_runs s s' -> vm_step s s'
  | step_exit h rc s' : cpu_exit s h -> vm_exit h s = Some (rc, s') -> vm_step s s'.

Definition mode_inv (s : mach) : Prop := exists H, at_exit H s /\ mode_ok H s /\ regs_ok s.

Lemma starting_exit H s s1 : mode_ok H s -> regs_ok s -> exit_start H s s1 -> cst H H pre_hdl_fields [] [] s1 ->
  starting H H pre_hdl_fields [] s1.
Proof.
  intros Hm [Hg Hu Hmem] [v ->] Hc. split; [done|done|by destruct Hm|]. split; [|done|done]. intros r. cbn.
  case_decide; [|done]. change 64 with (width st_rsp). eapply cst_fits; [exact Hc|fld_ok].
Qed.

Lemma cpu_handled s h H s1 : cpu_exit s h -> at_exit H s -> exit_start H s s1 -> starting H H pre_hdl_fields [] s1 ->
  wp h s1 (handled H).
Proof.
  intros Hh He Hs Hst. pose proof (starting_rest _ _ _ _ _ Hst) as Hrest.
  destruct Hh as [| |wr Hsane|q| | | | |dis|dis|Hv| |].
  - by apply handled_cr_access.
  - by apply handled_dr.
  - apply (handled_msr H H); [done|]. destruct (Hsane H He) as [H1 H2], Hs as [v ->]. by split.
  - by apply handled_cpuid.
  - by apply handled_native.
  - by apply handled_native.
  - apply rest_handled; [done|]. unfold resolve_hlt. calms.
  - by apply handled_xsetbv.
  - by apply (handled_emulate dis H H).
  - by apply (handled_rmode_gp dis H H).
  - eapply wp_mono; [apply (settled_intr H H); [done|by apply Hv]|by apply settled_handled].
  - eapply wp_mono; [by apply (settled_iwe H H)|by apply settled_handled].
  - eapply wp_mono; [by apply (settled_idt_deliver H H)|by apply settled_handled].
Qed.

Lemma cpu_exit_handled s h H : cpu_exit s h -> at_exit H s -> mode_ok H s -> regs_ok s ->
  wp (vm_exit h) s (fun _ s' => mode_inv s').
Proof.
  intros Hh He Hm Hr. eapply wp_mono; [apply (cst_vm_exit H s h (fun _ H' s2 => mode_ok H' s2 /\ regs_ok s2))|].
  - apply Hfree.
  - done.
  - intros s1 Hs Hc. pose proof (starting_exit _ _ _ Hm Hr Hs Hc) as Hst.
    eapply wp_mono; [by eapply cpu_handled|]. intros rc s2. by apply handled_exit.
  - intros rc s3 (H' & s2 & [Hm2 Hr2] & [v ->] & He3). exists H'. split_and!; [done| |].
    + by destruct Hm2.
    + by eapply regs_ok_upd.
Qed.

Lemma mode_inv_step s s' : mode_inv s -> vm_step s s' -> mode_inv s'.
Proof.
  intros (H & He & Hm & Hr) [s'' Hrun|h rc s'' Hh Hrc].
  - destruct Hrun as (H1 & H2 & g & m & v & -> & He1 & He2 & HA & Hg & Hmem). exists H2.
    split_and!; [done| |split; [done|apply Hr|done]].
    eapply mode_ok_agree; [exact Hm| |done]. intros f Hf.
    rewrite (HA f) by (unfold kept_fields; rewrite elem_of_app; by left).
    destruct He as [_ Hh], He1 as [_ Hh1].
    assert (ok_field vmx_supported f) as Hok.
    { revert f Hf. apply Forall_forall. unfold mode_fields. repeat (apply Forall_cons_2; [fld_ok|]). apply Forall_nil_2. }
    by rewrite <- (Hh f Hok), <- (Hh1 f Hok).
  - apply (wp_run (vm_exit h) s rc s'' (fun _ s' => mode_inv s')); [by eapply cpu_exit_handled|exact Hrc].
Qed.

(** C7: whatever the vm does between its exits and whatever exits on its
    processor the vmm handles, its control registers, the efer it believes in,
    the entry controls and the real mode interceptions agree; and each of these
    exits is handled: its handler returns and keeps the agreement.  The exits
    are those of [cpu_exit], with three conditions on what made them: a write
    of the efer gives its bit lma the value the processor would ([efer_wr_sane];
    a vm that forges it breaks the agreement, [efer_lma_forged]); where the vmm
    proxies the msrs, the PAT and the control of the performance counters are
    not accessed; and the vector of an external interrupt is not 0xc0, on which
    the vmm panics.  The processor leaves the entry controls of the efer free
    ([entry_free]). *)
Theorem cpu_mode_invariant s s' : mode_inv s -> rtc vm_step s s' ->
  mode_inv s' /\ forall h, cpu_exit s' h -> exists rc s'', vm_exit h s' = Some (rc, s'') /\ mode_inv s''.
Proof.
  intros Hi Hs. assert (mode_inv s') as Hi'.
  { induction Hs as [|s1 s2 s3 H12 _ IH]; [done|]. apply IH. by eapply mode_inv_step. }
  split; [done|]. intros h Hh. destruct Hi' as (H & He & Hm & Hr).
  destruct (wp_exists _ _ _ (cpu_exit_handled s' h H Hh He Hm Hr)) as (rc & s'' & E & Hi''). eauto.
Qed.
End exits.

(** ** A concrete run

    A vm in real mode enables protection: [mov %eax, %cr0]. *)

Definition ex_fields : field -> Z :=
  upd (upd (upd (fun _ => 0) entry_entry 0x8000) info_insn_len 3) st_rip 0x7c00.
Definition ex_real : mach :=
  ex_mach ex_fields (fun r => if decide (r = GPR64_RAX) then 0x11 else 0) 0 VM_RMODE_EXCP_BITMAP true ∅.
Definition ex_paddr : Z := 0xfffffffff.

Lemma ex_fields_fit f : fits (width f) (ex_fields f).
Proof.
  unfold ex_fields, upd. repeat (destruct (decide _) as [<-|]; [by vm_compute|]).
  split; [done|]. apply Z.pow_pos_nonneg; [done|apply width_pos].
Qed.
Lemma ex_real_at : at_exit (V := ex_vmx) ex_fields ex_real.
Proof. apply ex_mach_at_exit, ex_fields_fit. Qed.
Lemma ex_real_mode : mode_ok ex_fields ex_real.
Proof. by split. Qed.
Lemma ex_real_regs : regs_ok ex_real.
Proof.
  split; [|by vm_compute|].
  - intros r. cbn. by case_decide; vm_compute.
  - intros a. by vm_compute.
Qed.
Lemma ex_real_inv : mode_inv (V := ex_vmx) ex_real.
Proof. exists ex_fields. exact (conj ex_real_at (conj ex_real_mode ex_real_regs)). Qed.

Lemma kbd_allowed s : forallb (fun p => negb (m_io_denied s p)) (seqZ 0x60 16) = true -> kbd_denied s false.
Proof.
  rewrite forallb_forall. intros H p Hp. apply negb_true_iff, H, list_elem_of_In, elem_of_seqZ.
  unfold KBD_START_PORT, KBD_END_PORT in Hp. lia.
Qed.

Lemma cpu_mode_invariant_witness : exists rc s',
  vm_exit (V := ex_vmx) (vmx_vmexit_resolve_cr_access (V := ex_vmx) ex_area ex_paddr) ex_real = Some (rc, s') /\
  bit (hw (m_vmcs s') exec_cr0_read_shadow) CR0_PE_BIT = true /\ kbd_denied s' false /\
  hw (m_vmcs s') st_rip = 0x7c03 /\ mode_inv (V := ex_vmx) s'.
Proof.
  set (h := vmx_vmexit_resolve_cr_access (V := ex_vmx) ex_area ex_paddr).
  destruct (vm_exit (V := ex_vmx) h ex_real) as [[rc s']|] eqn:E.
  - exists rc, s'. split; [reflexivity|].
    assert (match vm_exit (V := ex_vmx) h ex_real with
      | Some (_, s1) => (bit (hw (m_vmcs s1) exec_cr0_read_shadow) CR0_PE_BIT,
          forallb (fun p => negb (m_io_denied s1 p)) (seqZ 0x60 16), hw (m_vmcs s1) st_rip)
      | None => (false, false, 0) end = (true, true, 0x7c03)) as Ev by (vm_compute; reflexivity).
    rewrite E in Ev. injection Ev as E1 E2 E3. split_and!; [exact E1|by apply kbd_allowed|exact E3|].
    eapply (fun Hf => cpu_mode_invariant (V := ex_vmx) ex_area ex_paddr Hf 0 0 false false 0); [split_and!; vm_compute; reflexivity|exact ex_real_inv|].
    apply rtc_once. eapply step_exit; [constructor|exact E].
  - exfalso. assert (bool_decide (is_Some (vm_exit (V := ex_vmx) h ex_real)) = true) as Ev by (vm_compute; reflexivity).
    rewrite E in Ev. done.
Defined.
