(* ===== verification/CpuEvt.v ===== *)
(** * Events of the vm's processor

    What the handlers of [Cpu] deliver: external interrupts at once or when the
    vm allows them, the values moved to and from the control registers; and
    what a vm can write in its efer. *)

From S2P Require Import Prelude.
From S2P Require Import Monad.
From S2P Require Import Pagemem.
From S2P Require Import Walk.
From S2P Require Import Vm.
From S2P Require Import Vmcs.
From S2P Require Import Machine.
From S2P Require Import Cpu.
From S2P Require Import CpuRegs.
From S2P Require Import CpuMode.
From S2P Require Import CpuRun.

Section events.
Context {V : Vmx}.

(** ** Moves to and from the control registers

    What the vm reads in a control register is what it wrote there last. *)

Definition mov_back (ar : area_t) (max_paddr cr gpr gpr' : Z) : M mach vm_code :=
  rc ← resolve_cr ar max_paddr true cr gpr;
  if bool_decide (rc = VM_DONE) then resolve_cr ar max_paddr false cr gpr' else mret rc.

Lemma bits_set_low x v : bits (set_bits x 0 32 v) 0 32 = bits v 0 32.
Proof. rewrite bits_set_same by done. symmetry. unfold wrap. by rewrite bits_div_mod, Z.pow_0_r, Z.div_1_r. Qed.

Lemma wp_cr_rd_val H A R D s ar max_paddr cr gpr f : starting H A R D s -> cr_field cr = Some f ->
  wp (resolve_cr ar max_paddr false cr gpr) s (fun rc s' => rc = VM_DONE -> bits (m_gpr s' gpr) 0 32 = bits (A f) 0 32).
Proof.
  intros Hst Ef. unfold resolve_cr, valid_cr_access, is_rmode, cpl. pose proof (sg_cst _ _ _ _ _ Hst) as Hc.
  assert (forall g, g ∈ pre_hdl_fields -> g ∈ R) as Hp by apply Hst.
  assert (st_cs_selector ∈ R) as H1 by (apply Hp; elem). assert (exec_cr0_read_shadow ∈ R) as H2 by (apply Hp; elem).
  assert (st_cs_attributes ∈ R) as H3 by (apply Hp; elem). assert (st_cr3 ∈ R) as H4 by (apply Hp; elem).
  do 12 cstep. wp_if.
  { eapply wp_inject_gp; [exact Hc|]. by intros. }
  wp_if; [by apply wp_ret|]. unfold resolve_cr_rd. rewrite Ef.
  unfold cr_field in Ef. destruct (cr =? 0) eqn:E0; [|destruct (cr =? 3) eqn:E3; [|destruct (cr =? 4) eqn:E4; [|done]]];
    injection Ef as <-.
  - assert ((cr =? 4) = false) as -> by lia.
    by_cases; intros _; cbn; rewrite decide_True by done; rewrite ?bits_set_low; done.
  - assert ((cr =? 4) = false) as -> by lia.
    by_cases; intros _; cbn; rewrite decide_True by done; rewrite ?bits_set_low; done.
  - by_cases; intros _; cbn; rewrite decide_True by done; rewrite ?bits_set_low; done.
Qed.

(** What a write that is accepted leaves. *)
Definition moved (H : field -> Z) (cr g : Z) (rc : vm_code) (s : mach) : Prop := rc = VM_DONE ->
  exists f A R D, cr_field cr = Some f /\ starting H A R D s /\ bits (A f) 0 32 = bits g 0 32.

Lemma moved_post H R D fs A s cr g f (P : (field -> Z) -> Prop) : cr_field cr = Some f -> pre_hdl_fields ⊆ R ->
  (forall A', P A' -> bits (A' f) 0 32 = bits g 0 32) -> cr_post H R D fs A s P (moved H cr g).
Proof.
  intros Ef HR HP ok A' W' s' Hc HW [] HA'. destruct ok; [|done]. intros _. apply sub_nil in HW as ->.
  exists f, A', R, D. split_and!; [done|by split|by apply HP].
Qed.

Lemma moved_calls H cr g rc l s : moved H cr g rc s -> moved H cr g rc (with_calls l s).
Proof.
  intros Hm Hrc. destruct (Hm Hrc) as (f & A & R & D & E & [Hc Hp [] []] & HA).
  exists f, A, R, D. split_and!; [done| |done]. by split.
Qed.

Lemma wp_cr_wr_val H A R D s ar max_paddr cr gpr : starting H A R D s ->
  wp (resolve_cr ar max_paddr true cr gpr) s (moved H cr (m_gpr s gpr)).
Proof.
  intros Hst. unfold resolve_cr, valid_cr_access, is_rmode, cpl. pose proof (sg_cst _ _ _ _ _ Hst) as Hc.
  assert (forall g, g ∈ pre_hdl_fields -> g ∈ R) as Hp by apply Hst.
  assert (st_cs_selector ∈ R) as H1 by (apply Hp; elem). assert (exec_cr0_read_shadow ∈ R) as H2 by (apply Hp; elem).
  do 12 cstep. wp_if.
  { eapply wp_inject_gp; [exact Hc|]. by intros. }
  wp_if; [by apply wp_ret|]. unfold resolve_cr_wr, resolve_cr_wr_with. do 2 cstep.
  destruct Hst as [_ _ Hm Hr]. assert (fits 64 (m_gpr s gpr)) as Hg by apply Hr.
  assert (faulted H R D A s (moved H cr (m_gpr s gpr))) as Hf by done.
  wp_if; [|by apply wp_ret]. cstep.
  apply (wp_mono _ _ (moved H cr (m_gpr s gpr))); [|intros rc s'; by apply moved_calls]. unfold resolve_cr_wr_any.
  destruct (cr =? 0) eqn:E0; [|destruct (cr =? 3) eqn:E3; [|]].
  - eapply wp_resolve_cr0_wr; try done. intros _. eapply moved_post; [unfold cr_field; by rewrite E0|done|].
    intros A' ->. apply bits_set_low.
  - eapply wp_resolve_cr3_wr; try done. eapply moved_post; [unfold cr_field; by rewrite E0, E3|done|].
    intros A' ->. destruct (lmode64 _ _); [done|apply bits_set_low].
  - assert ((cr =? 4) = true) as E4 by lia.
    eapply wp_resolve_cr4_wr; try done. intros _. eapply moved_post; [unfold cr_field; by rewrite E0, E3, E4|done|].
    intros A' ->. apply bits_set_low.
Qed.

(** a move to a control register the vm is allowed to make, followed by a
    move from it, gives back the 32 bits that were moved: in protected mode,
    in long mode, and when the write changes between them. *)
Theorem cr_write_read H A R D s ar max_paddr cr gpr gpr' : starting H A R D s ->
  wp (mov_back ar max_paddr cr gpr gpr') s (fun rc s' => rc = VM_DONE ->
    bits (m_gpr s' gpr') 0 32 = bits (m_gpr s gpr) 0 32).
Proof.
  intros Hst. apply wp_bind. eapply wp_mono; [by eapply wp_cr_wr_val|]. intros rc s1 Hm. cbn beta.
  case_bool_decide as Hrc; [|by apply wp_ret]. destruct (Hm Hrc) as (f & A' & R' & D' & Ef & Hst' & HA).
  eapply wp_mono; [by eapply wp_cr_rd_val|]. intros rc' s2 Hb Hrc'. by rewrite Hb.
Qed.

(** ** Interrupts *)

(** The state the processor resumes with: [v] is injected, the vm was made to
    accept it, and no further exit is asked for. *)
Record injected (v : Z) (s : mach) : Prop := mk_injected {
  in_info : hw (m_vmcs s) entry_int_info = int_info VMCS_EVT_INFO_TYPE_HW_INT v;
  in_if : bit (hw (m_vmcs s) st_rflags) RFLAGS_IF_BIT = true;
  in_sti : bit (hw (m_vmcs s) st_interrupt) STI_BIT = false;
  in_mss : bit (hw (m_vmcs s) st_interrupt) MSS_BIT = false;
  in_closed : bit (hw (m_vmcs s) exec_proc) PROC_IWE_BIT = false;
}.

(** The vm accepts interrupts. *)
Definition interruptible (s : mach) : bool :=
  bit (hw (m_vmcs s) st_rflags) RFLAGS_IF_BIT && negb (bit (hw (m_vmcs s) st_interrupt) STI_BIT) &&
  negb (bit (hw (m_vmcs s) st_interrupt) MSS_BIT).

(** The processor leaves the "interrupt window" control free. *)
Definition window_free : Prop := bit (allow_1 (vmx_fx_proc vmx_cfg)) PROC_IWE_BIT = true /\
  bit (allow_0 (vmx_fx_proc vmx_cfg)) PROC_IWE_BIT = false.

(** The values of a handler's end, as the processor has them. *)
Record evt_worth (v : Z) (A : field -> Z) : Prop := mk_evt_worth {
  ew_info : A entry_int_info = int_info VMCS_EVT_INFO_TYPE_HW_INT v;
  ew_if : bit (A st_rflags) RFLAGS_IF_BIT = true;
  ew_sti : bit (A st_interrupt) STI_BIT = false;
  ew_mss : bit (A st_interrupt) MSS_BIT = false;
}.

Lemma wp_inject_interrupt H A R D s v Q : cst H A R D [] s -> st_rflags ∈ R ->
  (forall A' w, cst H A' R D [] (with_vmcs w s) -> evt_worth v A' ->
    (forall f, f ∉ [entry_int_info; st_rflags; st_interrupt] -> A' f = A f) -> Q tt (with_vmcs w s)) ->
  wp (inject_interrupt v) s Q.
Proof.
  intros Hc Hr HQ. unfold inject_interrupt, vmx_prepare_event_injection.
  repeat cstep; [apply int_info_fits|]. by_cases;
  match type of Hc with cst _ ?A' _ _ _ (with_vmcs ?w _) => apply (HQ A' w) end.
  all: try (eapply cst_weaken; [exact Hc| |]; pre_ok).
  all: try (intros f Hf; by upd_other Hf).
  all: try match goal with E : negb _ = false |- _ => apply negb_false_iff in E end.
  all: try match goal with E : _ || _ = false |- _ => apply orb_false_iff in E as [? ?] end.
  all: split; upd_simpl; try done.
  all: rewrite ?(bit_set_same _ _ true), ?bit_set_other, ?(bit_set_same _ _ false) by done; done.
Qed.

Definition accepts (A : field -> Z) : bool :=
  bit (A st_rflags) RFLAGS_IF_BIT && negb (bit (A st_interrupt) STI_BIT) && negb (bit (A st_interrupt) MSS_BIT).

Lemma wp_resolve_intr H A s : starting H A pre_hdl_fields [] s ->
  let v := bits (A info_int_info) 0 8 in v <> 0xc0 -> bit (A exec_proc) PROC_IWE_BIT = false ->
  wp vmx_vmexit_resolve_intr s (fun rc s' => rc = VM_DONE /\ exists A' R' D', cst H A' R' D' [] s' /\
    (forall f, f ∉ intr_fields -> A' f = A f) /\
    if accepts A then evt_worth v A' /\ bit (A' exec_proc) PROC_IWE_BIT = false
    else bit (A' exec_proc) PROC_IWE_BIT = true /\ m_irq_pending s' = v).
Proof.
  intros Hst v Hv Hw. unfold vmx_vmexit_resolve_intr, resolve_intr, safe_interrupts_on,
    setup_interrupt_window_exiting.
  pose proof (sg_cst _ _ _ _ _ Hst) as Hc. do 8 cstep. cbn [m_irq_vector with_irq_vector].
  change (bits (A info_int_info) 0 8) with v. rewrite (proj2 (Z.eqb_neq _ _) Hv). cstep.
  apply (wp_mono _ _ (fun on s1 => on = accepts A /\ exists R1 w, s1 = with_vmcs w (with_irq_vector v s) /\
    cst H A R1 [] [] s1 /\ st_rflags ∈ R1)).
  { unfold accepts. by_cases; (split; [by rewrite ?negb_orb|]);
      do 2 eexists; split; [reflexivity|split; [exact Hc|elem]|reflexivity|split; [exact Hc|elem]]. }
  intros on s1 (-> & R1 & w & -> & Hc1 & Hr1). clear Hc. cstep. destruct (accepts A); cbn [negb]; cbv iota.
  - eapply wp_inject_interrupt; [exact Hc1|done|]. intros A' w' Hc' He HA'. cstep. split; [done|].
    do 3 eexists. split; [exact Hc'|]. split.
    + intros f Hf. apply HA'. intros Hin. apply Hf. revert Hin. unfold intr_fields, event_fields.
      rewrite elem_of_app, !elem_of_cons. tauto.
    + split; [done|]. rewrite HA' by nomem. done.
  - do 5 cstep. rewrite Hw. cbn [xorb]. repeat cstep. split; [done|]. do 3 eexists. split; [exact Hc1|]. split.
    + intros f Hf. by upd_other Hf.
    + upd_simpl. by rewrite bit_set_same.
Qed.

Lemma wp_resolve_iwe H A s : starting H A pre_hdl_fields [] s ->
  bit (A exec_proc) PROC_IWE_BIT = true ->
  wp vmx_vmexit_resolve_iwe s (fun rc s' => rc = VM_DONE /\ exists A' R' D', cst H A' R' D' [] s' /\
    (forall f, f ∉ intr_fields -> A' f = A f) /\ evt_worth (m_irq_pending s) A' /\
    bit (A' exec_proc) PROC_IWE_BIT = false).
Proof.
  intros Hst Hw. unfold vmx_vmexit_resolve_iwe, setup_interrupt_window_exiting.
  pose proof (sg_cst _ _ _ _ _ Hst) as Hc. do 3 cstep.
  eapply wp_inject_interrupt; [exact Hc|elem|]. intros A' w Hc' He HA'. do 5 cstep.
  rewrite HA', Hw by nomem. cbn [xorb]. repeat cstep. split; [done|]. do 3 eexists. split; [exact Hc'|]. split_and!.
  - intros f Hf. upd_other Hf. apply HA'. intros Hin. apply Hf. revert Hin. unfold intr_fields, event_fields.
    rewrite elem_of_app, !elem_of_cons. tauto.
  - destruct He. split; by upd_simpl.
  - upd_simpl. by apply (bit_set_same _ _ false).
Qed.

(** The exits around these handlers. *)
Hypothesis Hfree : entry_free.
Hypothesis Hwin : window_free.

Lemma wp_evt_exit H s h (P : (field -> Z) -> mach -> Prop) : at_exit H s -> mode_ok H s -> regs_ok s ->
  (forall s1, exit_start H s s1 -> starting H H pre_hdl_fields [] s1 ->
    wp h s1 (fun rc s2 => rc = VM_DONE /\ exists A R D, cst H A R D [] s2 /\ regs_ok s2 /\
      (forall f, f ∉ intr_fields -> A f = H f) /\ P A s2)) ->
  wp (vm_exit h) s (fun rc s3 => rc = VM_DONE /\ exists A s2, P A s2 /\ exit_end s2 s3 /\
    (forall f, ok_field vmx_supported f -> f ∉ fixed_fields -> f <> st_rsp -> hw (m_vmcs s3) f = A f) /\
    bit (hw (m_vmcs s3) exec_proc) PROC_IWE_BIT = bit (A exec_proc) PROC_IWE_BIT).
Proof.
  intros He Hm Hr Hh. eapply wp_mono; [apply (cst_vm_exit H s h (fun rc H' s2 => rc = VM_DONE /\ exists A,
    P A s2 /\ resumed A H' [] (m_gpr s2 GPR64_RSP)) (proj1 Hfree) He)|].
  - intros s1 Hs1 Hc. eapply wp_mono; [apply Hh; [done|by eapply starting_exit]|].
    intros rc s2 (-> & A & R & D & Hc2 & Hr2 & HA & HP). exists A, R, D, []. split_and!; try done.
    + apply Hr2.
    + apply not_elem_of_nil.
    + rewrite HA by nomem. apply Hm.
    + intros H' Hres. split; [done|]. by exists A.
  - intros rc s3 (H' & s2 & (-> & A & HP & Hres) & Hend & [_ Hhw]). split; [done|]. exists A, s2.
    split_and!; [done|done| |].
    + intros f Hf Hfx Hn. rewrite Hhw by done. eapply resumed_plain; [exact Hres|done|apply not_elem_of_nil|done|done].
    + rewrite Hhw by fld_ok. destruct Hwin as [W1 W0].
      eapply (resumed_bit A H' [] _ exec_proc); [exact Hres|fld_ok|apply not_elem_of_nil|discriminate|reflexivity|..]; auto.
Qed.

Lemma intr_exit H s : at_exit H s -> mode_ok H s -> regs_ok s ->
  let v := bits (H info_int_info) 0 8 in v <> 0xc0 -> bit (H exec_proc) PROC_IWE_BIT = false ->
  wp (vm_exit vmx_vmexit_resolve_intr) s (fun rc s' => rc = VM_DONE /\
    if accepts H then injected v s' else bit (hw (m_vmcs s') exec_proc) PROC_IWE_BIT = true /\ m_irq_pending s' = v).
Proof.
  intros He Hm Hr v Hv Hw.
  eapply wp_mono; [apply (wp_evt_exit H s vmx_vmexit_resolve_intr (fun A s2 =>
    if accepts H then evt_worth v A /\ bit (A exec_proc) PROC_IWE_BIT = false
    else bit (A exec_proc) PROC_IWE_BIT = true /\ m_irq_pending s2 = v) He Hm Hr)|].
  - intros s1 Hs1 Hst. assert (wp vmx_vmexit_resolve_intr s1 (fun _ => regs_ok)) as Hreg.
    { eapply wp_mono; [by apply (settled_intr H H)|]. by intros rc s2 (A & R & D & W & ? & ? & ? & ? & ? & ?). }
    pose proof (wp_resolve_intr H H s1 Hst Hv Hw) as Hi.
    eapply wp_mono; [apply (wp_and _ _ _ _ Hi Hreg)|]. intros rc s2 [(-> & A & R & D & Hc & HA & HP) Hr2].
    split; [done|]. by exists A, R, D.
  - intros rc s3 (-> & A & s2 & HP & [w ->] & Hhw & Hx). split; [done|].
    destruct (accepts H); [|by rewrite Hx]. destruct HP as [[] HP].
    split; rewrite ?Hx, ?Hhw; try done; by (fld_ok || elem).
Qed.

Lemma iwe_exit H s : at_exit H s -> mode_ok H s -> regs_ok s -> bit (H exec_proc) PROC_IWE_BIT = true ->
  wp (vm_exit vmx_vmexit_resolve_iwe) s (fun rc s' => rc = VM_DONE /\ injected (m_irq_pending s) s').
Proof.
  intros He Hm Hr Hw.
  eapply wp_mono; [apply (wp_evt_exit H s vmx_vmexit_resolve_iwe (fun A s2 =>
    evt_worth (m_irq_pending s) A /\ bit (A exec_proc) PROC_IWE_BIT = false) He Hm Hr)|].
  - intros s1 [v ->] Hst.
    match goal with |- wp _ ?s1 _ => assert (wp vmx_vmexit_resolve_iwe s1 (fun _ => regs_ok)) as Hreg end.
    { eapply wp_mono; [by apply (settled_iwe H H)|]. by intros rc s2 (A & R & D & W & ? & ? & ? & ? & ? & ?). }
    pose proof (wp_resolve_iwe H H _ Hst Hw) as Hi.
    eapply wp_mono; [apply (wp_and _ _ _ _ Hi Hreg)|]. intros rc s2 [(-> & A & R & D & Hc & HA & HP) Hr2].
    split; [done|]. by exists A, R, D.
  - intros rc s3 (-> & A & s2 & [[] HP] & [w ->] & Hhw & Hx). split; [done|].
    split; rewrite ?Hx, ?Hhw; try done; by (fld_ok || elem).
Qed.

Lemma accepts_interruptible H s : at_exit H s -> accepts H = interruptible s.
Proof.
  intros [_ Hh]. unfold accepts, interruptible. rewrite !Hh; [done|fld_ok..].
Qed.

(** C8: an external interrupt whose vector is not 0xc0, that comes when the vmm
    awaits no other interrupt window, is delivered: at once when the vm accepts
    interrupts, else the vmm asks for an exit as soon as it does, and if the
    next exit is that one, whatever the vm did before it, it injects the
    interrupt.  (A second interrupt before it takes the place of this one; on
    the vector 0xc0 the vmm panics.)  The processor leaves the control of the
    interrupt window and the entry controls of the efer free ([window_free],
    [entry_free]). *)
Theorem interrupt_delivered H s : at_exit H s -> mode_ok H s -> regs_ok s ->
  let v := bits (H info_int_info) 0 8 in v <> 0xc0 -> bit (H exec_proc) PROC_IWE_BIT = false ->
  exists s1, vm_exit vmx_vmexit_resolve_intr s = Some (VM_DONE, s1) /\
    if interruptible s then injected v s1
    else bit (hw (m_vmcs s1) exec_proc) PROC_IWE_BIT = true /\
      forall s2, vm_runs s1 s2 -> exists s3,
        vm_exit vmx_vmexit_resolve_iwe s2 = Some (VM_DONE, s3) /\ injected v s3.
Proof.
  intros He Hm Hr v Hv Hw. destruct (wp_exists _ _ _ (intr_exit H s He Hm Hr Hv Hw)) as (rc & s1 & E1 & -> & HP).
  exists s1. split; [done|]. rewrite <- (accepts_interruptible H s He). destruct (accepts H); [done|].
  destruct HP as [Hx Hp]. split; [done|]. intros s2 Hrun.
  assert (mode_inv s1) as Hi1.
  { eapply (fun Hf => mode_inv_step (mk_area 0 0) 0 Hf 0 0 false false 0); [done|by exists H|]. eapply step_exit; [apply exit_intr|exact E1].
    intros H1 [_ Hh1]. destruct He as [_ Hh]. rewrite <- Hh1, Hh by fld_ok. done. }
  assert (mode_inv s2) as (H2 & He2 & Hm2 & Hr2).
  { eapply (fun Hf => mode_inv_step (mk_area 0 0) 0 Hf 0 0 false false 0); [done|exact Hi1|by apply step_run]. }
  assert (bit (H2 exec_proc) PROC_IWE_BIT = true /\ m_irq_pending s2 = v) as [Hx2 Hp2].
  { destruct Hrun as (Ha & Hb & g & m & w & -> & Ea & Eb & HA & _). split; [|done].
    destruct Ea as [_ Ea], Eb as [_ Eb], He2 as [_ E2]. rewrite <- (E2 exec_proc), (Eb exec_proc) by fld_ok.
    by rewrite HA, <- (Ea exec_proc) by (fld_ok || elem). }
  destruct (wp_exists _ _ _ (iwe_exit H2 s2 He2 Hm2 Hr2 Hx2)) as (rc & s3 & E3 & -> & HP).
  exists s3. split; [done|]. by rewrite <- Hp2.
Qed.
End events.

(** A vm in real mode, about to write 0x11 in cr0. *)
Lemma ex_started : exists s1, vmx_vmexit_pre_hdl (V := ex_vmx) ex_real = Some (tt, s1) /\
  starting (V := ex_vmx) ex_fields ex_fields pre_hdl_fields [] s1 /\ m_gpr s1 GPR64_RAX = 0x11.
Proof.
  destruct (exit_started (V := ex_vmx) ex_fields ex_real ex_real_at) as (s1 & E & Hs & Hc).
  exists s1. split; [exact E|]. split; [|by destruct Hs as [v ->]].
  exact (starting_exit (V := ex_vmx) _ _ _ ex_real_mode ex_real_regs Hs Hc).
Qed.

Lemma cr_write_read_witness : exists s1 rc s2,
  mov_back (V := ex_vmx) ex_area ex_paddr 0 GPR64_RAX GPR64_RCX s1 = Some (rc, s2) /\
  (rc = VM_DONE -> bits (m_gpr s2 GPR64_RCX) 0 32 = 0x11).
Proof.
  destruct ex_started as (s1 & _ & Hst & Hg).
  destruct (wp_exists _ _ _ (cr_write_read (V := ex_vmx) _ _ _ _ s1 ex_area ex_paddr 0 GPR64_RAX GPR64_RCX Hst))
    as (rc & s2 & E & HP).
  exists s1, rc, s2. split; [exact E|]. intros Hrc. by rewrite (HP Hrc), Hg.
Defined.

(** A vm that cannot be interrupted: the interrupt waits for its window. *)
Definition ex_intr_fields : field -> Z := upd (upd ex_fields info_int_info 0x80000030) st_rip 0x7c10.
Definition ex_intr : mach := ex_mach ex_intr_fields (fun _ => 0) 0 VM_RMODE_EXCP_BITMAP true ∅.

Lemma ex_intr_inv : at_exit (V := ex_vmx) ex_intr_fields ex_intr /\ mode_ok ex_intr_fields ex_intr /\ regs_ok ex_intr.
Proof.
  split_and!.
  - apply ex_mach_at_exit. intros f. unfold ex_intr_fields, upd.
    repeat (destruct (decide _) as [<-|]; [by vm_compute|]). apply ex_fields_fit.
  - by split.
  - by split; vm_compute.
Qed.

Lemma ex_entry_free : entry_free (V := ex_vmx).
Proof. by split_and!. Qed.
Lemma ex_window_free : window_free (V := ex_vmx).
Proof. by split. Qed.

Lemma ex_cleared : (forall r : Z, fits 64 ((fun _ => 0) r)) /\ mem_ok ∅.
Proof. split; [by intros r|]. intros a. by vm_compute. Qed.

Lemma interrupt_delivered_witness : exists s1 s2 s3,
  vm_exit (V := ex_vmx) (vmx_vmexit_resolve_intr (V := ex_vmx)) ex_intr = Some (VM_DONE, s1) /\
  bit (hw (m_vmcs s1) exec_proc) PROC_IWE_BIT = true /\
  vm_exit (V := ex_vmx) (vmx_vmexit_resolve_iwe (V := ex_vmx)) s2 = Some (VM_DONE, s3) /\ injected 0x30 s3.
Proof.
  destruct ex_intr_inv as (He & Hm & Hr).
  assert (bits (ex_intr_fields info_int_info) 0 8 <> 0xc0) as Hv by by vm_compute.
  destruct (interrupt_delivered (V := ex_vmx) ex_entry_free ex_window_free _ _ He Hm Hr Hv eq_refl) as [s1 [E1 HP]].
  change (interruptible ex_intr) with false in HP. destruct HP as [Hw HP].
  assert (mode_inv (V := ex_vmx) s1) as (H1 & He1 & _).
  { apply (mode_inv_step (V := ex_vmx) ex_area 0 ex_entry_free 0 0 false false 0 ex_intr); [exact (ex_intro _ _ (conj He (conj Hm Hr)))|].
    eapply step_exit; [|exact E1]. apply exit_intr.
    intros H1 [_ Hh1]. rewrite <- Hh1 by (apply vmx_has; vm_compute; reflexivity). exact Hv. }
  destruct (HP (with_vmcs (m_vmcs s1) (with_gpr (fun _ => 0) (with_mem ∅ s1)))) as [s3 [E3 H3]].
  { exists H1, H1, (fun _ => 0), ∅, (m_vmcs s1). split; [reflexivity|]. split; [exact He1|]. split; [exact He1|].
    split; [reflexivity|exact ex_cleared]. }
  exists s1. eexists. exists s3. split; [exact E1|]. split; [exact Hw|]. split; [exact E3|exact H3].
Defined.

(** ** The efer

    The value a vm writes is taken as it is: the bit that says that long mode
    is active is the vm's own. *)

Definition efer_wr : M mach vm_code := resolve_msr (V := ex_vmx) true.
Definition ex_efer (eax cr0 : Z) : mach :=
  ex_mach (upd ex_fields exec_cr0_read_shadow cr0) (fun r => if decide (r = GPR64_RAX) then eax else
    if decide (r = GPR64_RCX) then IA32_EFER_MSR else 0) 0
    VM_RMODE_EXCP_BITMAP true ∅.

(** In real mode: the vmm then takes the vm for a long mode one. *)
Lemma efer_lma_forged :
  match vm_exit (V := ex_vmx) efer_wr (ex_efer 0x500 0) with
  | Some (rc, s) => rc = VM_DONE /\ xx_lmode (m_efer s) = true /\
      bit (hw (m_vmcs s) exec_cr0_read_shadow) CR0_PG_BIT = false /\
      bit (hw (m_vmcs s) entry_entry) ENTRY_IA32E_BIT = false
  | None => False
  end.
Proof. by vm_compute. Qed.

(** With paging on: the write faults, and is done. *)
Lemma efer_fault_written :
  match vm_exit (V := ex_vmx) efer_wr (ex_efer 0x100 0x80000001) with
  | Some (rc, s) => rc = VM_FAULT /\ bit (m_efer s) EFER_LME_BIT = true
  | None => False
  end.
Proof. by vm_compute. Qed.
