(* ===== verification/RmodeSem.v ===== *)
(** * Interrupts of the real mode vm

    What the emulation of [Rmode] does to the registers and the memory of a vm
    in real mode: an interrupt enters the handler its table names and leaves a
    frame of six bytes on the stack, and the return from the handler resumes
    the program. *)

From S2P Require Import Prelude.
From S2P Require Import Monad.
From S2P Require Import Walk.
From S2P Require Import Vm.
From S2P Require Import Words.
From S2P Require Import Vmcs.
From S2P Require Import Machine.
From S2P Require Import Cpu.
From S2P Require Import CpuRegs.
From S2P Require Import Rmode.
From S2P Require Import CpuMode.
From S2P Require Import CpuRun.

(** ** The stack *)

(** The word at [ss:sp], [sp] modulo 64KB. *)
Definition stack_at (ss_base sp : Z) : Z := wrap32 (bits ss_base 0 32 + wrap16 sp).
Definition frame_at (ss_base sp p : Z) : Prop := exists i, 1 <= i <= 3 /\
  (p = stack_at ss_base (sp - 2 * i) \/ p = stack_at ss_base (sp - 2 * i) + 1).

Lemma stack_apart b sp i j : 1 <= i <= 3 -> 1 <= j <= 3 -> i <> j ->
  stack_at b (sp - 2 * i) <> stack_at b (sp - 2 * j) /\ stack_at b (sp - 2 * i) <> stack_at b (sp - 2 * j) + 1.
Proof.
  intros Hi Hj Hn. unfold stack_at, wrap32, wrap16, wrap. set (c := bits b 0 32). clearbody c.
  assert (forall x, ((c + x mod 2 ^ 16) mod 2 ^ 32) mod 2 ^ 16 = (c + x) mod 2 ^ 16) as E.
  { intros x. rewrite Z.mod_mod_divide by (by exists (2 ^ 16)). by rewrite Zplus_mod_idemp_r. }
  pose proof (E (sp - 2 * i)) as Ei. pose proof (E (sp - 2 * j)) as Ej.
  change (2 ^ 16) with 65536 in *. split; intros Heq; rewrite Heq in Ei.
  - rewrite Ej in Ei. clear Heq Ej E.
    pose proof (Z.div_mod (c + (sp - 2 * i)) 65536 ltac:(lia)). pose proof (Z.div_mod (c + (sp - 2 * j)) 65536 ltac:(lia)).
    lia.
  - rewrite <- Zplus_mod_idemp_l, Ej, Zplus_mod_idemp_l in Ei. clear Heq Ej E.
    pose proof (Z.div_mod (c + (sp - 2 * i)) 65536 ltac:(lia)).
    pose proof (Z.div_mod (c + (sp - 2 * j) + 1) 65536 ltac:(lia)). lia.
Qed.

(** The frame of an interrupt: flags, cs and ip. *)
Definition push_frame (m : gmap Z Z) (ss_base sp fl cs ip : Z) : gmap Z Z :=
  wr16 (wr16 (wr16 m (stack_at ss_base (sp - 2)) fl) (stack_at ss_base (sp - 4)) cs) (stack_at ss_base (sp - 6)) ip.

Lemma push_frame_read m b sp fl cs ip : fits 16 fl -> fits 16 cs -> fits 16 ip ->
  let m' := push_frame m b sp fl cs ip in
  rd16 m' (stack_at b (sp - 6)) = ip /\ rd16 m' (stack_at b (sp - 4)) = cs /\ rd16 m' (stack_at b (sp - 2)) = fl.
Proof.
  intros Hf Hc Hi. unfold push_frame.
  assert (forall i j, 1 <= i <= 3 -> 1 <= j <= 3 -> i <> j -> stack_at b (sp - 2 * i) <> stack_at b (sp - 2 * j) /\
    stack_at b (sp - 2 * i) <> stack_at b (sp - 2 * j) + 1 /\ stack_at b (sp - 2 * i) + 1 <> stack_at b (sp - 2 * j)) as Ha.
  { intros i j Hi' Hj Hn. destruct (stack_apart b sp i j Hi' Hj Hn) as [? ?].
    destruct (stack_apart b sp j i Hj Hi') as [? ?]; auto. }
  pose proof (Ha 1 2 ltac:(lia) ltac:(lia) ltac:(lia)) as (?&?&?).
  pose proof (Ha 1 3 ltac:(lia) ltac:(lia) ltac:(lia)) as (?&?&?).
  pose proof (Ha 2 3 ltac:(lia) ltac:(lia) ltac:(lia)) as (?&?&?). simpl (2 * _) in *.
  split_and!; repeat first [rewrite rd16_wr16 by done | rewrite rd16_wr16_ne by done]; done.
Qed.

Lemma push_frame_other m b sp fl cs ip p : ~ frame_at b sp p -> rd0 (push_frame m b sp fl cs ip) p = rd0 m p.
Proof.
  intros Hn. unfold push_frame. rewrite !rd0_wr16.
  assert (forall i, 1 <= i <= 3 -> p <> stack_at b (sp - 2 * i) /\ p <> stack_at b (sp - 2 * i) + 1) as Hp.
  { intros i Hi. split; intros ->; apply Hn; exists i; auto. }
  destruct (Hp 1), (Hp 2), (Hp 3); try lia. simpl (2 * _) in *. by rewrite !decide_False.
Qed.

Section rmode.
Context {V : Vmx}.

(** ** Push and pop *)

Definition sp_of (g : Z -> Z) : Z := bits (g GPR64_RSP) 0 16.
Definition put_sp (g : Z -> Z) (v : Z) (r : Z) : Z :=
  if decide (GPR64_RSP = r) then set_bits (g GPR64_RSP) 0 16 v else g r.

Lemma wrap16_add a b : wrap16 (wrap16 a + b) = wrap16 (a + b).
Proof. unfold wrap16, wrap. apply Zplus_mod_idemp_l. Qed.
Lemma wrap16_wrap a : wrap16 (wrap16 a) = wrap16 a.
Proof. unfold wrap16, wrap. by apply Z.mod_mod. Qed.
Lemma stack_at_wrap b a k : stack_at b (wrap16 a + k) = stack_at b (a + k).
Proof. unfold stack_at. by rewrite wrap16_add. Qed.
Lemma sp_put_sp g v : sp_of (put_sp g v) = wrap16 v.
Proof. unfold sp_of, put_sp. rewrite decide_True by done. by apply bits_set_same. Qed.
Lemma put_sp_other g v r : r <> GPR64_RSP -> put_sp g v r = g r.
Proof. intros Hr. unfold put_sp. by rewrite decide_False. Qed.
Lemma put_sp_fits g v : (forall r, fits 64 (g r)) -> forall r, fits 64 (put_sp g v r).
Proof. intros Hg r. unfold put_sp. case_decide; [|done]. by apply set_bits_fits. Qed.
Lemma put_sp_high g v : bits (put_sp g v GPR64_RSP) 16 48 = bits (g GPR64_RSP) 16 48.
Proof.
  unfold put_sp. rewrite decide_True by done. apply Z.bits_inj'. intros i Hi.
  rewrite !testbit_bits, testbit_set_bits by lia. rewrite (proj2 (Z.leb_le 0 (i + 16))) by lia.
  by rewrite (proj2 (Z.ltb_ge (i + 16) (0 + 16))) by lia.
Qed.

(** What the emulation may change of the state beside the fields. *)
Definition rstep (s s' : mach) : Prop := exists w g m e, s' = with_emu_done e (with_mem m (with_gpr g (with_vmcs w s))).
Lemma rstep_vmcs s s' v : rstep s s' -> rstep s (with_vmcs v s').
Proof. intros (w & g & m & e & ->). by exists v, g, m, e. Qed.
Lemma rstep_emu s s' v e : rstep s s' -> rstep s (with_vmcs v (with_emu_done e s')).
Proof. intros (w & g & m & e' & ->). by exists v, g, m, e. Qed.
Lemma rstep_trans s s1 s2 : rstep s s1 -> rstep s1 s2 -> rstep s s2.
Proof. intros (w & g & m & e & ->) (w' & g' & m' & e' & ->). by exists w', g', m', e'. Qed.
Lemma rstep_refl s : rstep s s.
Proof. exists (m_vmcs s), (m_gpr s), (m_mem s), (m_emu_done s). by destruct s. Qed.

Record pushed (s : mach) (b v : Z) (s' : mach) : Prop := mk_pushed {
  pu_mem : m_mem s' = wr16 (m_mem s) (stack_at b (sp_of (m_gpr s) - 2)) v;
  pu_gpr : m_gpr s' = put_sp (m_gpr s) (wrap16 (sp_of (m_gpr s) - 2));
  pu_rest : rstep s s';
}.
Lemma wp_push H A R D W s v Q : cst H A R D W s -> st_ss_base ∉ W ->
  (forall s', cst H A (st_ss_base :: R) D W s' -> pushed s (A st_ss_base) v s' -> Q tt s') ->
  wp (emulate_rmode_push v) s Q.
Proof.
  intros Hc HW HQ. unfold emulate_rmode_push, get_wlow, put_wlow, base_low. repeat cstep.
  apply HQ; [exact Hc|]. split; [|done|].
  2: { match type of Hc with cst _ _ _ _ _ (with_mem ?m (with_gpr ?g (with_vmcs ?w _))) =>
    exists w, g, m, (m_emu_done s); reflexivity end. }
  cbn. unfold stack_at. rewrite decide_True by done. f_equal. f_equal. f_equal.
  rewrite bits_set_same by done. apply wrap16_wrap.
Qed.

Lemma wrap16_sp g : wrap16 (sp_of g) = sp_of g.
Proof. apply wrap_id. by apply bits_fits. Qed.

Record popped (s : mach) (s' : mach) : Prop := mk_popped {
  po_mem : m_mem s' = m_mem s;
  po_gpr : m_gpr s' = put_sp (m_gpr s) (wrap16 (sp_of (m_gpr s) + 2));
  po_rest : rstep s s';
}.
Lemma wp_pop H A R D W s Q : cst H A R D W s -> st_ss_base ∉ W ->
  (forall s', cst H A (st_ss_base :: R) D W s' -> popped s s' ->
    Q (rd16 (m_mem s) (stack_at (A st_ss_base) (sp_of (m_gpr s)))) s') ->
  wp emulate_rmode_pop s Q.
Proof.
  intros Hc HW HQ. unfold emulate_rmode_pop, get_wlow, put_wlow, base_low. repeat cstep.
  unfold stack_at in HQ. rewrite wrap16_sp in HQ. apply HQ; [exact Hc|].
  match type of Hc with cst _ _ _ _ _ (with_gpr ?g (with_vmcs ?w _)) => split; [done|done|exists w, g, (m_mem s), (m_emu_done s); reflexivity] end.
Qed.

Lemma linear_fits x : fits 16 x -> 0 <= Z.shiftl x 4 < 2 ^ 32.
Proof. intros Hx. rewrite Z.shiftl_mul_pow2 by done. unfold fits in Hx. lia. Qed.

(** Three words pushed, three popped. *)
Lemma sp_minus g : sp_of (put_sp g (wrap16 (sp_of g - 2))) = wrap16 (sp_of g - 2).
Proof. by rewrite sp_put_sp, wrap16_wrap. Qed.
Lemma push_thrice (m0 m1 m2 m3 : gmap Z Z) (g0 g1 g2 g3 : Z -> Z) b v1 v2 v3 :
  m1 = wr16 m0 (stack_at b (sp_of g0 - 2)) v1 -> g1 = put_sp g0 (wrap16 (sp_of g0 - 2)) ->
  m2 = wr16 m1 (stack_at b (sp_of g1 - 2)) v2 -> g2 = put_sp g1 (wrap16 (sp_of g1 - 2)) ->
  m3 = wr16 m2 (stack_at b (sp_of g2 - 2)) v3 -> g3 = put_sp g2 (wrap16 (sp_of g2 - 2)) ->
  sp_of g3 = wrap16 (sp_of g0 - 6) /\ (forall r, r <> GPR64_RSP -> g3 r = g0 r) /\
  m3 = push_frame m0 b (sp_of g0) v1 v2 v3.
Proof.
  intros E1 G1 E2 G2 E3 G3.
  assert (forall g g' k, sp_of g = wrap16 (sp_of g0 - k) -> g' = put_sp g (wrap16 (sp_of g - 2)) ->
    sp_of g' = wrap16 (sp_of g0 - (k + 2))) as Hs.
  { intros g g' k Hg ->. rewrite sp_minus, Hg. unfold Z.sub. rewrite wrap16_add. f_equal. lia. }
  assert (sp_of g1 = wrap16 (sp_of g0 - 2)) as S1 by by rewrite G1, sp_minus.
  pose proof (Hs g1 g2 2 S1 G2) as S2. pose proof (Hs g2 g3 4 S2 G3) as S3. split_and!; [exact S3| |].
  - intros r Hr. by rewrite G3, G2, G1, !put_sp_other.
  - rewrite E3, E2, E1, S1, S2. unfold Z.sub. rewrite !stack_at_wrap, <- !Z.add_assoc. done.
Qed.

(** ** Entering a handler *)

Definition rmode_fields : list field := [st_cs_selector; st_cs_base; st_rip; st_rflags].
Record delivered (A : field -> Z) (s : mach) (v sz : Z) (A' : field -> Z) (s' : mach) : Prop := mk_delivered {
  dl_cs : A' st_cs_selector = rd16 (m_mem s) (4 * v + 2);
  dl_base : bits (A' st_cs_base) 0 32 = Z.shiftl (rd16 (m_mem s) (4 * v + 2)) 4;
  dl_ip : bits (A' st_rip) 0 32 = rd16 (m_mem s) (4 * v);
  dl_if : bit (A' st_rflags) RFLAGS_IF_BIT = false;
  dl_other : forall f, f ∉ rmode_fields -> A' f = A f;
  dl_sp : sp_of (m_gpr s') = wrap16 (sp_of (m_gpr s) - 6);
  dl_gpr : forall r, r <> GPR64_RSP -> m_gpr s' r = m_gpr s r;
  dl_mem : m_mem s' = push_frame (m_mem s) (A st_ss_base) (sp_of (m_gpr s)) (bits (A st_rflags) 0 16)
    (A st_cs_selector) (wrap16 (bits (A st_rip) 0 16 + sz));
}.

Lemma wp_deliver H A R D s stp brk v sz Q : cst H A R D [] s -> pre_hdl_fields ⊆ R -> mem_ok (m_mem s) ->
  (forall A' R' D' s', cst H A' R' D' [] s' -> rstep s s' -> delivered A s v sz A' s' -> Q VM_DONE_LET_RIP s') ->
  wp (rmode_deliver stp brk v sz) s Q.
Proof.
  intros Hc HR Hm HQ. unfold rmode_deliver, emulate_rmode_far_call.
  assert (st_rflags ∈ R /\ st_rip ∈ R /\ st_cs_selector ∈ R /\ st_cs_base ∈ R) as (H1 & H2 & H3 & H4) by (split_and!; apply HR; elem).
  assert (fits 16 (rd16 (m_mem s) (4 * v + 2)) /\ fits 16 (rd16 (m_mem s) (4 * v))) as [F1 F2] by by split; apply rd16_fits.
  pose proof (linear_fits _ F1) as F3. assert (0 <= rd16 (m_mem s) (4 * v) < 2 ^ 32) as F4 by (unfold fits in F2; lia).
  cbv zeta. do 5 cstep. eapply wp_push; [exact Hc|nomem|]. clear Hc. intros s1 Hc [M1 G1 S1]. cbn beta.
  destruct stp, brk; cbn [negb when]; cbv iota; repeat cstep;
    (eapply wp_push; [exact Hc|nomem|]); clear Hc; intros s2 Hc [M2 G2 S2]; cbn beta; repeat cstep;
    (eapply wp_push; [exact Hc|nomem|]); clear Hc; intros s3 Hc [M3 G3 S3]; cbn beta;
    unfold emulate_rmode_far_jump; repeat cstep; try exact F1.
  all: match type of Hc with cst _ ?A' ?R' ?D' _ ?s' => apply (HQ A' R' D' s') end; [exact Hc| |].
  all: try (apply rstep_vmcs; eapply rstep_trans; [exact S1|]; eapply rstep_trans; [|exact S3];
    eapply rstep_trans; [|exact S2]; by apply rstep_vmcs, rstep_refl).
  all: upd_simpl_in M2; upd_simpl_in M3; cbn [m_gpr m_mem with_vmcs] in M1, G1, M2, G2, M3, G3.
  all: destruct (push_thrice _ _ _ _ _ _ _ _ _ _ _ _ M1 G1 M2 G2 M3 G3) as (E1 & E2 & E3).
  all: split; upd_simpl; cbn [m_gpr m_mem with_vmcs]; try done.
  all: try (intros f Hf; by upd_other Hf).
  all: try (rewrite !bit_set_other, (bit_set_same _ _ false) by done; done).
  all: rewrite bits_set_same by done; by apply Z.mod_small.
Qed.

(** ** Returning from it *)

Record returned (A : field -> Z) (s : mach) (A' : field -> Z) (s' : mach) : Prop := mk_returned {
  rt_ip : bits (A' st_rip) 0 16 = rd16 (m_mem s) (stack_at (A st_ss_base) (sp_of (m_gpr s)));
  rt_cs : A' st_cs_selector = rd16 (m_mem s) (stack_at (A st_ss_base) (sp_of (m_gpr s) + 2));
  rt_base : bits (A' st_cs_base) 0 32 = Z.shiftl (A' st_cs_selector) 4;
  rt_fl : bits (A' st_rflags) 0 16 = rd16 (m_mem s) (stack_at (A st_ss_base) (sp_of (m_gpr s) + 4));
  rt_other : forall f, f ∉ rmode_fields -> A' f = A f;
  rt_sp : sp_of (m_gpr s') = wrap16 (sp_of (m_gpr s) + 6);
  rt_gpr : forall r, r <> GPR64_RSP -> m_gpr s' r = m_gpr s r;
  rt_mem : m_mem s' = m_mem s;
}.

Lemma pop_thrice (g0 g1 g2 g3 : Z -> Z) :
  g1 = put_sp g0 (wrap16 (sp_of g0 + 2)) -> g2 = put_sp g1 (wrap16 (sp_of g1 + 2)) ->
  g3 = put_sp g2 (wrap16 (sp_of g2 + 2)) ->
  sp_of g1 = wrap16 (sp_of g0 + 2) /\ sp_of g2 = wrap16 (sp_of g0 + 4) /\ sp_of g3 = wrap16 (sp_of g0 + 6) /\
  forall r, r <> GPR64_RSP -> g3 r = g0 r.
Proof.
  intros G1 G2 G3.
  assert (forall g g' k, sp_of g = wrap16 (sp_of g0 + k) -> g' = put_sp g (wrap16 (sp_of g + 2)) ->
    sp_of g' = wrap16 (sp_of g0 + (k + 2))) as Hs.
  { intros g g' k Hg ->. rewrite sp_put_sp, wrap16_wrap, Hg, wrap16_add. f_equal. lia. }
  assert (sp_of g1 = wrap16 (sp_of g0 + 2)) as S1 by by rewrite G1, sp_put_sp, wrap16_wrap.
  pose proof (Hs g1 g2 2 S1 G2) as S2. pose proof (Hs g2 g3 4 S2 G3) as S3. split_and!; [done|exact S2|exact S3|].
  intros r Hr. by rewrite G3, G2, G1, !put_sp_other.
Qed.

Lemma wp_rmode_iret H A R D s Q : cst H A R D [] s -> pre_hdl_fields ⊆ R -> mem_ok (m_mem s) ->
  (forall A' R' D' s', cst H A' R' D' [] s' -> rstep s s' -> returned A s A' s' -> Q VM_DONE_LET_RIP s') ->
  wp emulate_rmode_iret s Q.
Proof.
  intros Hc HR Hm HQ. unfold emulate_rmode_iret, emulate_rmode_far_ret. change (negb (0 =? 0)) with false.
  assert (st_rflags ∈ R /\ st_rip ∈ R /\ st_cs_selector ∈ R /\ st_cs_base ∈ R) as (H1 & H2 & H3 & H4) by (split_and!; apply HR; elem).
  do 2 cstep. eapply wp_pop; [exact Hc|nomem|]. clear Hc. intros s1 Hc [M1 G1 S1]. cbn beta. repeat cstep.
  eapply wp_pop; [exact Hc|nomem|]. clear Hc. intros s2 Hc [M2 G2 S2]. cbn beta. repeat cstep.
  { apply rd16_fits. cbn [m_mem with_vmcs]. by rewrite M1. }
  repeat cstep. eapply wp_pop; [exact Hc|nomem|]. clear Hc. intros s3 Hc [M3 G3 S3]. cbn beta. repeat cstep.
  cbn [m_gpr m_mem with_vmcs] in M1, G1, M2, G2, M3, G3.
  destruct (pop_thrice _ _ _ _ G1 G2 G3) as (E1 & E2 & E3 & E4).
  match type of Hc with cst _ ?A' ?R' ?D' _ ?s' => apply (HQ A' R' D' s') end; [exact Hc| |].
  { apply rstep_vmcs. eapply rstep_trans; [exact S1|]. eapply rstep_trans; [|exact S3].
    eapply rstep_trans; [|by apply rstep_vmcs, rstep_refl]. eapply rstep_trans; [|exact S2]. by apply rstep_vmcs, rstep_refl. }
  assert (forall a, fits 16 (rd16 (m_mem s) a)) as F by (intros a; by apply rd16_fits).
  cbn [m_gpr m_mem with_vmcs] in *.
  split; upd_simpl; cbn [m_gpr m_mem with_vmcs]; rewrite ?M2, ?M1, ?E1, ?E2, ?E3; try done.
  - rewrite bits_set_same by done. apply Z.mod_small, F.
  - f_equal. unfold stack_at. by rewrite wrap16_wrap.
  - rewrite bits_set_same by done. apply Z.mod_small, linear_fits, F.
  - rewrite bits_set_same by done. unfold stack_at. rewrite wrap16_wrap. apply Z.mod_small, F.
  - intros f Hf. by upd_other Hf.
  - by rewrite M3, M2.
Qed.

(** ** Whole exits *)

Context (ar : area_t) (max_paddr : Z).
Hypothesis Hfree : entry_free.

(** An exit whose handler ends with the code [c] and marks all its changes. *)
Lemma wp_worth_exit H s h c (P : (field -> Z) -> mach -> Prop) : at_exit H s -> mode_ok H s -> regs_ok s ->
  (forall s1, exit_start H s s1 -> starting H H pre_hdl_fields [] s1 ->
    wp h s1 (fun rc s2 => rc = c /\ exists A R D, cst H A R D [] s2 /\ fits 64 (m_gpr s2 GPR64_RSP) /\
      A entry_entry = H entry_entry /\ P A s2)) ->
  wp (vm_exit h) s (fun rc s3 => rc = c /\ exists A s2, P A s2 /\ exit_end s2 s3 /\
    (forall f, ok_field vmx_supported f -> f ∉ fixed_fields -> f <> st_rsp -> hw (m_vmcs s3) f = A f) /\
    hw (m_vmcs s3) st_rsp = m_gpr s2 GPR64_RSP).
Proof.
  intros He Hm Hr Hh. eapply wp_mono; [apply (cst_vm_exit H s h (fun rc H' s2 => rc = c /\ exists A,
    P A s2 /\ resumed A H' [] (m_gpr s2 GPR64_RSP)) (proj1 Hfree) He)|].
  - intros s1 Hs1 Hc. eapply wp_mono; [apply Hh; [done|by eapply starting_exit]|].
    intros rc s2 (-> & A & R & D & Hc2 & Hr2 & HA & HP). exists A, R, D, []. split_and!; try done.
    + apply not_elem_of_nil.
    + rewrite HA. apply Hm.
    + intros H' Hres. split; [done|]. by exists A.
  - intros rc s3 (H' & s2 & (-> & A & HP & Hres) & Hend & [_ Hhw]). split; [done|]. exists A, s2.
    split_and!; [done|done| |].
    + intros f Hf Hfx Hn. rewrite Hhw by done. eapply resumed_plain; [exact Hres|done|apply not_elem_of_nil|done|done].
    + rewrite Hhw by fld_ok. apply Hres.
Qed.

Context (smap_raw smap_nr : Z) (stp brk_insn : bool) (x0 : Z).
Let emul d := emulate ar max_paddr smap_raw smap_nr stp brk_insn x0 (inr d).
Let on_gp d := vmx_vmexit_resolve_rmode_gp ar max_paddr smap_raw smap_nr stp brk_insn x0 (inr d).

(** The end of an emulation that moved the instruction pointer itself. *)
Lemma wp_let_rip H A R D s n Q : cst H A R D [] s ->
  (forall A' R' D' w, cst H A' R' D' [] (with_vmcs w (with_emu_done true s)) ->
    (forall f, f <> st_interrupt -> A' f = A f) -> Q VM_DONE_LET_RIP (with_vmcs w (with_emu_done true s))) ->
  wp (emulate_done VM_DONE_LET_RIP n) s Q.
Proof.
  intros Hc HQ. unfold emulate_done. rewrite (bool_decide_false (VM_DONE_LET_RIP = VM_DONE)), bool_decide_true by auto.
  cbn [when]. do 5 cstep. eapply wp_clear_interrupt_shadow; [exact Hc|].
  intros A' w Hc' HA' _ _. cbn beta. apply wp_ret. by apply (HQ A' R D w).
Qed.

(** The handler of a software interrupt, and of the return from it. *)
Definition sw_event (idt : Z) : Prop := bit idt INT_V_BIT = true /\ bits idt 8 3 = VMCS_EVT_INFO_TYPE_SW_INT.
Definition int_insn (d : ud_t) (v : Z) : Prop :=
  ud_mn d = UD_Iint /\ op_type (ud_op1 d) = UD_OP_IMM /\ op_ubyte (ud_op1 d) = v /\ v <> BIOS_MISC_INTERRUPT.
Definition iret_insn (d : ud_t) : Prop := ud_mn d ∈ [UD_Iiretw; UD_Iiretd; UD_Iiretq].

(** The values of an exit's end beside those of the emulation. *)
Definition but_shadow (A A' : field -> Z) : Prop := forall f, f <> st_interrupt -> A' f = A f.

Lemma wp_int_exit H s d v : starting H H pre_hdl_fields [] s -> rmode (m_efer s) (H exec_cr0_read_shadow) = true ->
  sw_event (H info_idt_info) -> int_insn d v ->
  wp (on_gp d) s (fun rc s' => rc = VM_DONE_LET_RIP /\ exists A R D, cst H A R D [] s' /\ rstep s s' /\
    exists A1, but_shadow A1 A /\ delivered H s v (ud_len d) A1 s').
Proof.
  intros [Hc Hp Hm Hr] Hrm [Hv Ht] (I1 & I2 & I3 & I4). unfold on_gp, vmx_vmexit_resolve_rmode_gp.
  do 4 cstep. rewrite Hv, Ht. cbn [negb]. cbv iota. change (_ =? VMCS_EVT_INFO_TYPE_SW_INT) with true. cbv iota.
  unfold emulate, emulate_insn. rewrite I1. unfold emulate_intn. rewrite I2, I3. unfold emulate_interrupt, is_rmode.
  do 7 cstep. change (m_efer (with_vmcs v0 s)) with (m_efer s). rewrite Hrm. unfold emulate_rmode_interrupt.
  rewrite (proj2 (Z.eqb_neq _ _) I4). do 2 cstep. rewrite bool_decide_true by done. cbn [negb]. cbv iota.
  eapply wp_deliver; [exact Hc|intros f Hf; right; by apply Hp|apply Hr|].
  intros A' R' D' s' Hc' Hs' Hd. eapply wp_let_rip; [exact Hc'|]. intros A2 R2 D2 w Hc2 HA2. split; [done|].
  exists A2, R2, D2. split; [exact Hc2|]. split.
  { apply rstep_emu. eapply rstep_trans; [by apply rstep_vmcs, rstep_refl|exact Hs']. }
  exists A'. split; [exact HA2|]. destruct Hd. by split.
Qed.

Lemma wp_iret_exit H s d : starting H H pre_hdl_fields [] s -> rmode (m_efer s) (H exec_cr0_read_shadow) = true ->
  iret_insn d ->
  wp (emul d) s (fun rc s' => rc = VM_DONE_LET_RIP /\ exists A R D, cst H A R D [] s' /\ rstep s s' /\
    exists A1, but_shadow A1 A /\ returned H s A1 s').
Proof.
  intros [Hc Hp Hm Hr] Hrm Hi. unfold emul, emulate, emulate_insn.
  assert (wp (rc ← emulate_iret; emulate_done rc (ud_len d)) s (fun rc s' => rc = VM_DONE_LET_RIP /\
    exists A R D, cst H A R D [] s' /\ rstep s s' /\ exists A1, but_shadow A1 A /\ returned H s A1 s')) as Hw.
  { unfold emulate_iret, is_rmode. do 7 cstep. rewrite Hrm. eapply wp_rmode_iret; [exact Hc|done|apply Hr|].
    intros A' R' D' s' Hc' Hs' Hd. eapply wp_let_rip; [exact Hc'|]. intros A2 R2 D2 w Hc2 HA2. split; [done|].
    exists A2, R2, D2. split; [exact Hc2|]. split; [by apply rstep_emu|].
    exists A'. split; [exact HA2|]. destruct Hd. by split. }
  unfold iret_insn in Hi. rewrite !elem_of_cons, elem_of_nil in Hi. by destruct Hi as [-> | [-> | [-> | []]]].
Qed.

(** What the vm sees between the two exits: the handler of [v] is about to
    run, with interrupts off, and only the frame of the stack has changed. *)
Record in_handler (v : Z) (H : field -> Z) (s s1 : mach) : Prop := mk_in_handler {
  ih_cs : hw (m_vmcs s1) st_cs_selector = rd16 (m_mem s) (4 * v + 2);
  ih_base : bits (hw (m_vmcs s1) st_cs_base) 0 32 = Z.shiftl (rd16 (m_mem s) (4 * v + 2)) 4;
  ih_ip : bits (hw (m_vmcs s1) st_rip) 0 32 = rd16 (m_mem s) (4 * v);
  ih_if : bit (hw (m_vmcs s1) st_rflags) RFLAGS_IF_BIT = false;
  ih_sp : bits (hw (m_vmcs s1) st_rsp) 0 16 = wrap16 (bits (H st_rsp) 0 16 - 6);
  ih_mem : forall p, ~ frame_at (H st_ss_base) (bits (H st_rsp) 0 16) p -> rd0 (m_mem s1) p = rd0 (m_mem s) p;
}.
(** The handler leaves the frame and the stack as it found them. *)
Record stack_kept (b sp : Z) (s1 s2 : mach) : Prop := mk_stack_kept {
  sk_base : hw (m_vmcs s2) st_ss_base = hw (m_vmcs s1) st_ss_base;
  sk_sp : bits (hw (m_vmcs s2) st_rsp) 0 16 = bits (hw (m_vmcs s1) st_rsp) 0 16;
  sk_mem : forall p, frame_at b sp p -> rd0 (m_mem s2) p = rd0 (m_mem s1) p;
}.
(** The program goes on after the instruction of the interrupt. *)
Record back (sz : Z) (H : field -> Z) (s2 s3 : mach) : Prop := mk_back {
  bk_cs : hw (m_vmcs s3) st_cs_selector = H st_cs_selector;
  bk_base : bits (hw (m_vmcs s3) st_cs_base) 0 32 = Z.shiftl (H st_cs_selector) 4;
  bk_ip : bits (hw (m_vmcs s3) st_rip) 0 16 = wrap16 (bits (H st_rip) 0 16 + sz);
  bk_fl : bits (hw (m_vmcs s3) st_rflags) 0 16 = bits (H st_rflags) 0 16;
  bk_sp : bits (hw (m_vmcs s3) st_rsp) 0 16 = bits (H st_rsp) 0 16;
  bk_mem : m_mem s3 = m_mem s2;
}.

Lemma start_gpr H s s1 : exit_start H s s1 -> sp_of (m_gpr s1) = bits (H st_rsp) 0 16 /\ m_mem s1 = m_mem s /\
  m_efer s1 = m_efer s.
Proof. intros [v ->]. split_and!; [|done|done]. unfold sp_of. cbn. by rewrite decide_True. Qed.

Lemma rstep_gpr s s' : rstep s s' -> m_efer s' = m_efer s.
Proof. by intros (w & g & m & e & ->). Qed.

(** One exit in real mode. *)
Lemma rmode_exit H s h (P : (field -> Z) -> mach -> mach -> Prop) : at_exit H s -> mode_ok H s -> regs_ok s ->
  cpu_exit ar max_paddr smap_raw smap_nr stp brk_insn x0 s h ->
  (forall s1, exit_start H s s1 -> starting H H pre_hdl_fields [] s1 ->
    wp h s1 (fun rc s' => rc = VM_DONE_LET_RIP /\ exists A R D, cst H A R D [] s' /\ rstep s1 s' /\
      exists A1, but_shadow A1 A /\ (forall f, f ∉ rmode_fields -> A1 f = H f) /\ P A1 s1 s')) ->
  exists s1 s2 s3 A1, exit_start H s s1 /\ P A1 s1 s2 /\ rstep s1 s2 /\ exit_end s2 s3 /\
    vm_exit h s = Some (VM_DONE_LET_RIP, s3) /\ mode_inv s3 /\
    (forall f, f ∉ rmode_fields -> A1 f = H f) /\
    (forall f, ok_field vmx_supported f -> f ∉ fixed_fields -> f <> st_rsp -> f <> st_interrupt ->
      hw (m_vmcs s3) f = A1 f) /\
    hw (m_vmcs s3) st_rsp = m_gpr s2 GPR64_RSP.
Proof.
  intros He Hm Hr Hh Hw.
  assert (forall s1, exit_start H s s1 -> starting H H pre_hdl_fields [] s1 ->
    wp h s1 (fun rc s' => rc = VM_DONE_LET_RIP /\ exists A R D, cst H A R D [] s' /\ fits 64 (m_gpr s' GPR64_RSP) /\
      A entry_entry = H entry_entry /\ exists A1 s1, exit_start H s s1 /\ but_shadow A1 A /\
        (forall f, f ∉ rmode_fields -> A1 f = H f) /\ P A1 s1 s' /\ rstep s1 s')) as Hw'.
  { intros s1 Hs1 Hst1. pose proof (cpu_handled ar max_paddr smap_raw smap_nr stp brk_insn x0 s h H s1 Hh He Hs1 Hst1) as Hf.
    eapply wp_mono; [exact (wp_and _ _ _ _ (Hw s1 Hs1 Hst1) Hf)|].
    intros rc s' [(-> & A & R & D & Hc & Hr' & A1 & HA & HA1 & HP) (B & R' & D' & W' & _ & _ & _ & _ & [Hg _ _])]. specialize (Hg GPR64_RSP). split; [done|].
    exists A, R, D. split_and!; [done|done| |exists A1, s1; by split_and!].
    rewrite HA by discriminate. apply HA1. nomem. }
  pose proof (wp_worth_exit H s h VM_DONE_LET_RIP (fun A s' => exists A1 s1, exit_start H s s1 /\ but_shadow A1 A /\
    (forall f, f ∉ rmode_fields -> A1 f = H f) /\ P A1 s1 s' /\ rstep s1 s') He Hm Hr) as Hx.
  destruct (wp_exists _ _ _ (wp_and _ _ _ _ (Hx Hw')
    (cpu_exit_handled ar max_paddr Hfree smap_raw smap_nr stp brk_insn x0 s h H Hh He Hm Hr))) as (rc & s3 & E & [(-> & A & s2 & (A1 & s1 & HS & HA & HA1 & HP & Hr') & Hend & Hhw & Hsp) Hinv]).
  exists s1, s2, s3, A1. split_and!; try done. intros f Hf Hfx Hn Hn'. rewrite Hhw by done. by apply HA.
Qed.

(** The words of the frame, at the stack pointer the handler returns with. *)
Lemma frame_kept m m2 b sp fl cs ip : fits 16 fl -> fits 16 cs -> fits 16 ip ->
  (forall p, frame_at b sp p -> rd0 m2 p = rd0 (push_frame m b sp fl cs ip) p) ->
  let sp' := wrap16 (sp - 6) in
  rd16 m2 (stack_at b sp') = ip /\ rd16 m2 (stack_at b (sp' + 2)) = cs /\ rd16 m2 (stack_at b (sp' + 4)) = fl /\
  wrap16 (sp' + 6) = wrap16 sp.
Proof.
  intros Hf Hc Hi Hm. cbv zeta.
  destruct (push_frame_read m b sp fl cs ip Hf Hc Hi) as (E1 & E2 & E3).
  assert (forall i, 1 <= i <= 3 -> rd16 m2 (stack_at b (sp - 2 * i)) =
    rd16 (push_frame m b sp fl cs ip) (stack_at b (sp - 2 * i))) as E.
  { intros i Hb. apply rd16_agree; apply Hm; exists i; auto. }
  pose proof (E 1 ltac:(lia)) as F1. pose proof (E 2 ltac:(lia)) as F2. pose proof (E 3 ltac:(lia)) as F3.
  change (2 * 1) with 2 in F1. change (2 * 2) with 4 in F2. change (2 * 3) with 6 in F3. rewrite <- (Z.add_0_r (wrap16 (sp - 6))) at 1. rewrite !stack_at_wrap, wrap16_add.
  replace (sp - 6 + 0) with (sp - 6) by lia. replace (sp - 6 + 2) with (sp - 4) by lia.
  replace (sp - 6 + 4) with (sp - 2) by lia. replace (sp - 6 + 6) with sp by lia.
  split_and!; [by rewrite F3|by rewrite F2|by rewrite F1|done].
Qed.

(** What a run of the vm keeps. *)
Lemma runs_kept s1 s2 H2 : vm_runs s1 s2 -> at_exit H2 s2 -> m_efer s2 = m_efer s1 /\
  H2 exec_cr0_read_shadow = hw (m_vmcs s1) exec_cr0_read_shadow.
Proof.
  intros (H1 & H2' & g & m & w & -> & [_ E1] & [_ E2] & HA & _) [_ E]. split; [done|].
  rewrite <- E, E2, HA, <- E1 by (fld_ok || elem). done.
Qed.

(** The two exits, on what the processor holds. *)
Lemma int_exit H s d v : at_exit H s -> mode_ok H s -> regs_ok s ->
  rmode (m_efer s) (H exec_cr0_read_shadow) = true -> sw_event (H info_idt_info) -> int_insn d v ->
  exists s1, vm_exit (on_gp d) s = Some (VM_DONE_LET_RIP, s1) /\ in_handler v H s s1 /\ mode_inv s1 /\
    m_efer s1 = m_efer s /\ hw (m_vmcs s1) exec_cr0_read_shadow = H exec_cr0_read_shadow /\
    hw (m_vmcs s1) st_ss_base = H st_ss_base /\
    m_mem s1 = push_frame (m_mem s) (H st_ss_base) (bits (H st_rsp) 0 16) (bits (H st_rflags) 0 16)
      (H st_cs_selector) (wrap16 (bits (H st_rip) 0 16 + ud_len d)).
Proof.
  intros He Hm Hr Hrm Hv Hd.
  destruct (rmode_exit H s (on_gp d) (fun A1 s1 s' => delivered H s1 v (ud_len d) A1 s') He Hm Hr)
    as (s0 & s' & s1 & A1 & Hs0 & HD & Hst & Hend & E1 & Hinv & HA & Hhw & Hrsp).
  { apply exit_rmode_gp. }
  { intros s1 Hs1 Hst. destruct (start_gpr _ _ _ Hs1) as (_ & _ & Eefer). rewrite <- Eefer in Hrm.
    eapply wp_mono; [by apply (wp_int_exit H s1 d v)|].
    intros rc s' (-> & A & R & D & Hc & Hs' & A1 & HA & HD). split; [done|]. exists A, R, D.
    split_and!; [done|done|]. exists A1. split_and!; [done|apply HD|done]. }
  exists s1. split; [exact E1|]. destruct (start_gpr _ _ _ Hs0) as (Esp & Emem & Eefer). destruct Hend as [w1 ->].
  destruct HD as [D1 D2 D3 D4 D5 D6 D7 D8]. rewrite Emem in D1, D2, D3, D8. rewrite Esp in D6, D8.
  split; [|split; [exact Hinv|]].
  - split; rewrite ?Hhw by (fld_ok || elem || discriminate); try done.
    + by rewrite Hrsp, <- D6.
    + intros p Hp. cbn [m_mem with_vmcs with_emu_done]. rewrite D8. by apply push_frame_other.
  - rewrite !Hhw, !HA by (fld_ok || elem || discriminate). split_and!; [|done|done|exact D8].
    cbn [m_efer with_vmcs with_emu_done]. by rewrite (rstep_gpr _ _ Hst).
Qed.

Lemma iret_exit H s d : at_exit H s -> mode_ok H s -> regs_ok s ->
  rmode (m_efer s) (H exec_cr0_read_shadow) = true -> iret_insn d ->
  let word k := rd16 (m_mem s) (stack_at (H st_ss_base) (bits (H st_rsp) 0 16 + k)) in
  exists s1, vm_exit (emul d) s = Some (VM_DONE_LET_RIP, s1) /\
    bits (hw (m_vmcs s1) st_rip) 0 16 = word 0 /\ hw (m_vmcs s1) st_cs_selector = word 2 /\
    bits (hw (m_vmcs s1) st_cs_base) 0 32 = Z.shiftl (word 2) 4 /\
    bits (hw (m_vmcs s1) st_rflags) 0 16 = word 4 /\
    bits (hw (m_vmcs s1) st_rsp) 0 16 = wrap16 (bits (H st_rsp) 0 16 + 6) /\ m_mem s1 = m_mem s.
Proof.
  intros He Hm Hr Hrm Hd word.
  destruct (rmode_exit H s (emul d) (fun A1 s1 s' => returned H s1 A1 s') He Hm Hr)
    as (s0 & s' & s1 & A1 & Hs0 & HR & _ & [w1 ->] & E1 & _ & HA & Hhw & Hrsp).
  { apply exit_emulate. }
  { intros s1 Hs1 Hst. destruct (start_gpr _ _ _ Hs1) as (_ & _ & Eefer). rewrite <- Eefer in Hrm.
    eapply wp_mono; [by apply (wp_iret_exit H s1 d)|].
    intros rc s' (-> & A & R & D & Hc & Hs' & A1 & HA & HD). split; [done|]. exists A, R, D.
    split_and!; [done|done|]. exists A1. split_and!; [done|apply HD|done]. }
  eexists. split; [exact E1|]. destruct (start_gpr _ _ _ Hs0) as (Esp & Emem & _).
  destruct HR as [R1 R2 R3 R4 R5 R6 _ R8]. rewrite R2 in R3. rewrite Esp, Emem in *.
  rewrite !Hhw, Hrsp by (fld_ok || elem || discriminate). rewrite <- (Z.add_0_r (bits (H st_rsp) 0 16)) in R1.
  by split_and!.
Qed.

(** C9: in real mode an [int n] the vmm emulates, for a vector other than 0x15,
    whose services the vmm answers itself, enters the handler the interrupt
    table names, with interrupts off, and changes six bytes of the stack.  The
    handler runs in the vm without an exit up to its [iret]: whatever it does,
    if it leaves these bytes, the base of the stack segment and the low 16 bits
    of the stack pointer as it found them, the [iret], emulated too, resumes the
    program after the instruction with its code segment, its stack and its low
    flags.  The processor leaves the entry controls of the efer free ([entry_free]). *)
Theorem rmode_int_iret H s d v d' : at_exit H s -> mode_ok H s -> regs_ok s ->
  rmode (m_efer s) (H exec_cr0_read_shadow) = true -> sw_event (H info_idt_info) -> int_insn d v -> iret_insn d' ->
  exists s1, vm_exit (vmx_vmexit_resolve_rmode_gp ar max_paddr smap_raw smap_nr stp brk_insn x0 (inr d)) s =
      Some (VM_DONE_LET_RIP, s1) /\ in_handler v H s s1 /\
    forall s2, vm_runs s1 s2 -> stack_kept (H st_ss_base) (bits (H st_rsp) 0 16) s1 s2 ->
    exists s3, vm_exit (emulate ar max_paddr smap_raw smap_nr stp brk_insn x0 (inr d')) s2 = Some (VM_DONE_LET_RIP, s3) /\
      back (ud_len d) H s2 s3.
Proof.
  intros He Hm Hr Hrm Hv Hd Hd'.
  destruct (int_exit H s d v He Hm Hr Hrm Hv Hd) as (s1 & E1 & Hin & Hinv & Ef & Ec & Eb & Em).
  exists s1. split; [exact E1|]. split; [exact Hin|]. intros s2 Hrun [K1 K2 K3].
  assert (mode_inv s2) as (H2 & He2 & Hm2 & Hr2).
  { eapply (mode_inv_step ar max_paddr Hfree smap_raw smap_nr stp brk_insn x0); [exact Hinv|by apply step_run]. }
  destruct (runs_kept _ _ _ Hrun He2) as [R1 R2]. rewrite Ef in R1. rewrite Ec in R2. rewrite <- R1, <- R2 in Hrm.
  destruct (iret_exit H2 s2 d' He2 Hm2 Hr2 Hrm Hd') as (s3 & E3 & W1 & W2 & W3 & W4 & W5 & W6).
  exists s3. split; [exact E3|]. destruct He2 as [_ Ehw2]. rewrite !Ehw2 in K1, K2 by fld_ok. rewrite Eb in K1.
  destruct Hin as [_ _ _ _ I5 _]. rewrite I5 in K2. rewrite K1, K2 in *. rewrite Em in K3.
  assert (fits 16 (H st_cs_selector)) as Fcs.
  { change 16 with (width st_cs_selector). eapply vst_fits; [exact (at_exit_vst H s He)|fld_ok]. }
  assert (forall x, fits 16 (bits x 0 16)) as Fb by (intros x; by apply bits_fits).
  destruct (frame_kept _ _ _ _ _ _ _ (Fb (H st_rflags)) Fcs (wrap_fits 16 _ ltac:(done)) K3) as (F1 & F2 & F3 & F4).
  rewrite Z.add_0_r, F1 in W1. rewrite F2 in W2, W3. rewrite F3 in W4. rewrite F4 in W5. split; try done.
  rewrite W5. by apply wrap_id.
Qed.
End rmode.

(** ** A concrete run

    A boot loader calls the video service of the bios, whose handler is at
    f000:e3fe; the handler returns at once. *)

Definition ex_int_fields : field -> Z :=
  upd (upd (upd (upd (upd ex_fields info_idt_info 0x80000410) st_rsp 0x7000) st_rflags 0x202) st_cs_selector 0x7c0)
    st_ss_base 0x1000.
Definition ex_ivt : gmap Z Z := wr16 (wr16 ∅ 0x40 0xe3fe) 0x42 0xf000.
Definition ex_int : mach := ex_mach ex_int_fields (fun _ => 0) 0 VM_RMODE_EXCP_BITMAP true ex_ivt.
Definition ex_insn (mn : ud_mnemonic) (v len : Z) : ud_t :=
  mk_ud mn (mk_operand UD_OP_IMM 0 v) (mk_operand UD_OP_OTHER 0 0) false len.

Lemma ex_int_ok : at_exit (V := ex_vmx) ex_int_fields ex_int /\ mode_ok ex_int_fields ex_int /\ regs_ok ex_int.
Proof.
  split_and!.
  - apply ex_mach_at_exit. intros f. unfold ex_int_fields, upd.
    repeat (destruct (decide _) as [<-|]; [by vm_compute|]). apply ex_fields_fit.
  - by split.
  - split; [by intros r; vm_compute|by vm_compute|]. apply wr16_ok, wr16_ok. intros a. by vm_compute.
Qed.
Lemma ex_free : entry_free (V := ex_vmx).
Proof. by split_and!. Qed.
Lemma ex_int_insns : sw_event (ex_int_fields info_idt_info) /\ int_insn (ex_insn UD_Iint 0x10 2) 0x10 /\
  iret_insn (ex_insn UD_Iiretw 0 1).
Proof. split_and!; try (vm_compute; done). unfold iret_insn. apply list_elem_of_here. Qed.

(** The state the vmm resumes the vm with can run without a change. *)
Lemma ex_runs s : mode_inv (V := ex_vmx) s -> vm_runs (V := ex_vmx) s s.
Proof.
  intros (H & He & _ & [Hg Hu Hm]). exists H, H, (m_gpr s), (m_mem s), (m_vmcs s).
  split; [by destruct s|]. by split_and!.
Qed.

Lemma rmode_int_iret_witness : exists s1 s3,
  vm_exit (V := ex_vmx) (vmx_vmexit_resolve_rmode_gp (V := ex_vmx) ex_area ex_paddr 0 0 false false 0
    (inr (ex_insn UD_Iint 0x10 2))) ex_int = Some (VM_DONE_LET_RIP, s1) /\
  bits (hw (m_vmcs s1) st_rip) 0 32 = 0xe3fe /\
  vm_exit (V := ex_vmx) (emulate (V := ex_vmx) ex_area ex_paddr 0 0 false false 0 (inr (ex_insn UD_Iiretw 0 1))) s1 =
    Some (VM_DONE_LET_RIP, s3) /\
  bits (hw (m_vmcs s3) st_rip) 0 16 = 0x7c02.
Proof.
  destruct ex_int_ok as (He & Hm & Hr), ex_int_insns as (I1 & I2 & I3).
  destruct (rmode_int_iret (V := ex_vmx) ex_area ex_paddr ex_free 0 0 false false 0 _ _ _ _ _ He Hm Hr eq_refl I1 I2 I3)
    as (s1 & E1 & Hin & Hback).
  assert (mode_inv (V := ex_vmx) s1) as Hi.
  { apply (mode_inv_step (V := ex_vmx) ex_area ex_paddr ex_free 0 0 false false 0 ex_int);
      [exact (ex_intro _ _ (conj He (conj Hm Hr)))|]. eapply step_exit; [|exact E1]. apply exit_rmode_gp. }
  destruct (Hback s1 (ex_runs s1 Hi)) as (s3 & E3 & Hb).
  { split; [reflexivity|reflexivity|intros p _; reflexivity]. }
  exists s1, s3. split; [exact E1|]. split; [exact (ih_ip _ _ _ _ Hin)|]. split; [exact E3|exact (bk_ip _ _ _ _ Hb)].
Defined.
