(* ===== verification/Bios.v ===== *)
(** * The memory map the bios reports to the vm

    A boot program asks the bios for the memory map one entry at a time, from
    the continuation value of the previous answer, until it is zero.  The
    vmm answers these calls from the map it built for the vm: the loop of the
    program ends, and it has read every entry of that map, in order. *)

From S2P Require Import Prelude.
From S2P Require Import Monad.
From S2P Require Import Walk.
From S2P Require Import Vm.
From S2P Require Import Words.
From S2P Require Import Vmcs.
From S2P Require Import Machine.
From S2P Require Import Cpu.
From S2P Require Import CpuRegs.
From S2P Require Import Rmode.
From S2P Require Import CpuMode.
From S2P Require Import CpuRun.
From S2P Require Import RmodeSem.

(** ** The program

    [e820_map] is what the vm runs: the service at each turn, the entry it
    finds at es:di, and the continuation value in ebx. *)

Section program.
Context {V : Vmx} (ar : area_t) (smap_raw smap_nr x0 : Z).

Definition e820_call (size : Z) : M mach vm_code :=
  put_wlow GPR64_RAX BIOS_GET_SMAP ;; put_low GPR64_RDX BIOS_SMAP_ID ;; put_low GPR64_RCX size ;;
  emulate_int15 ar smap_raw smap_nr x0.
Definition read_entry : M mach bytes :=
  base ← base_low st_es_base; di ← get_wlow GPR64_RDI;
  gets (fun s => mem_read (m_mem s) (wrap32 (base + di)) sizeof_smap_e).
Fixpoint e820_loop (fuel : nat) (size : Z) : M mach (list bytes) :=
  match fuel with
  | O => fail
  | S fuel =>
      rc ← e820_call size;
      if negb (bool_decide (rc = VM_DONE)) then fail else
      e ← read_entry; ebx ← gpr_low GPR64_RBX;
      if ebx =? 0 then mret [e] else es ← e820_loop fuel size; mret (e :: es)
  end.
Definition e820_map (fuel : nat) (size : Z) : M mach (list bytes) :=
  put_low GPR64_RBX 0 ;; e820_loop fuel size.

(** ** Registers *)

(** [s'] is [s] with the register [r] worth [x]. *)
Record gput (s : mach) (r x : Z) (s' : mach) : Prop := mk_gput {
  gp_eq : m_gpr s' r = x;
  gp_ne : forall r', r' <> r -> m_gpr s' r' = m_gpr s r';
  gp_mem : m_mem s' = m_mem s;
}.
Lemma wp_put H A R D W s r lo w v Q : cst H A R D W s ->
  (forall s', cst H A R D W s' -> gput s r (set_bits (m_gpr s r) lo w v) s' -> Q tt s') ->
  wp (put_gpr_fld r lo w v) s Q.
Proof.
  intros Hc HQ. do 4 cstep. apply HQ; [exact Hc|]. split; [cbn; by rewrite decide_True| |done].
  intros r' Hr. cbn. by rewrite decide_False.
Qed.

(** What a call may change beside the entry it writes: the registers of the
    answer, the carry flag and the base of es, that is read. *)
Record answered (A : field -> Z) (s : mach) (A' : field -> Z) (s' : mach) : Prop := mk_answered {
  an_es : A' st_es_base = A st_es_base;
  an_cf : bit (A' st_rflags) RFLAGS_CF_BIT = false;
  an_di : m_gpr s' GPR64_RDI = m_gpr s GPR64_RDI;
}.
Definition buffer (A : field -> Z) (s : mach) : Z :=
  wrap32 (bits (A st_es_base) 0 32 + bits (m_gpr s GPR64_RDI) 0 16).

Hypothesis Hnr : 0 < smap_nr /\ smap_nr * sizeof_smap_e < 2 ^ 32.

(** The continuation value after the entry at [off]. *)
Definition next_off (off : Z) : Z := if smap_nr * sizeof_smap_e <=? off + sizeof_smap_e then 0 else off + sizeof_smap_e.

(** The registers of the question. *)
Record asked (s : mach) (size : Z) (s' : mach) : Prop := mk_asked {
  ak_ax : bits (m_gpr s' GPR64_RAX) 0 16 = BIOS_GET_SMAP;
  ak_edx : bits (m_gpr s' GPR64_RDX) 0 32 = BIOS_SMAP_ID;
  ak_ecx : bits (m_gpr s' GPR64_RCX) 0 32 = size;
  ak_rbx : m_gpr s' GPR64_RBX = m_gpr s GPR64_RBX;
  ak_rdi : m_gpr s' GPR64_RDI = m_gpr s GPR64_RDI;
  ak_mem : m_mem s' = m_mem s;
}.
Ltac gother G := rewrite (gp_ne _ _ _ _ G) by discriminate.

Lemma wp_ask H A R D s size (k : M mach vm_code) Q : cst H A R D [] s -> fits 32 size ->
  (forall s', cst H A R D [] s' -> asked s size s' -> wp k s' Q) ->
  wp (put_wlow GPR64_RAX BIOS_GET_SMAP ;; put_low GPR64_RDX BIOS_SMAP_ID ;; put_low GPR64_RCX size ;; k) s Q.
Proof.
  intros Hc Hsz HQ. unfold put_wlow, put_low. cstep.
  eapply wp_put; [exact Hc|]. clear Hc. intros s1 Hc G1. cbn beta. cstep.
  eapply wp_put; [exact Hc|]. clear Hc. intros s2 Hc G2. cbn beta. cstep.
  eapply wp_put; [exact Hc|]. clear Hc. intros s3 Hc G3. cbn beta. apply (HQ s3 Hc). split.
  - gother G3. gother G2. rewrite (gp_eq _ _ _ _ G1). by rewrite bits_set_same.
  - gother G3. rewrite (gp_eq _ _ _ _ G2). by rewrite bits_set_same.
  - rewrite (gp_eq _ _ _ _ G3), bits_set_same by done. by apply wrap_id.
  - gother G3. gother G2. by gother G1.
  - gother G3. gother G2. by gother G1.
  - by rewrite (gp_mem _ _ _ _ G3), (gp_mem _ _ _ _ G2), (gp_mem _ _ _ _ G1).
Qed.

Lemma wp_smap_copy H A R D s src Q : cst H A R D [] s -> bits (m_gpr s GPR64_RCX) 0 32 = sizeof_smap_e ->
  vmm_area_range ar (buffer A s) sizeof_smap_e = false ->
  (forall s', cst H A (st_es_base :: R) D [] s' -> m_gpr s' = m_gpr s ->
    m_mem s' = mem_write (m_mem s) (buffer A s) (mem_read (m_mem s) src sizeof_smap_e) -> Q VM_DONE s') ->
  wp (smap_copy ar src) s Q.
Proof.
  intros Hc Hn Hb HQ. unfold smap_copy, base_low, get_wlow, gpr_low. cbv zeta. repeat cstep.
  cbn [m_gpr with_vmcs]. rewrite Hn. fold (buffer A s). rewrite Hb. repeat cstep. apply HQ; [exact Hc|done|done].
Qed.

Lemma wp_int15_smap H A R D s off Q : cst H A R D [] s -> 
  bits (m_gpr s GPR64_RDX) 0 32 = BIOS_SMAP_ID -> sizeof_smap_e <= bits (m_gpr s GPR64_RCX) 0 32 ->
  bits (m_gpr s GPR64_RBX) 0 32 = off -> 0 <= off -> off < smap_nr * sizeof_smap_e -> (sizeof_smap_e | off) ->
  vmm_area_range ar (buffer A s) sizeof_smap_e = false ->
  (forall s', cst H A (st_es_base :: R) D [] s' -> m_gpr s' GPR64_RDI = m_gpr s GPR64_RDI ->
    m_mem s' = mem_write (m_mem s) (buffer A s) (mem_read (m_mem s) (smap_raw + off) sizeof_smap_e) ->
    bits (m_gpr s' GPR64_RBX) 0 32 = next_off off -> Q VM_DONE s') ->
  wp (emulate_int15_smap ar smap_raw smap_nr) s Q.
Proof.
  intros Hc Hedx Hecx Hoff H0 Hlt Hdiv Hb HQ. unfold emulate_int15_smap, gpr_low, put_low. repeat cstep.
  rewrite Hedx. rewrite (proj2 (Z.ltb_ge _ _)) by done. change (negb _) with false. cbv iota. cstep.
  apply (wp_mono _ _ (fun _ s' => cst H A R D [] s' /\ m_mem s' = m_mem s /\
    bits (m_gpr s' GPR64_RCX) 0 32 = sizeof_smap_e /\ forall r, r <> GPR64_RCX -> m_gpr s' r = m_gpr s r)).
  { apply wp_when. destruct (Z.ltb_spec sizeof_smap_e (bits (m_gpr s GPR64_RCX) 0 32)).
    - eapply wp_put; [exact Hc|]. intros s' Hc' [E1 E2 E3]. split_and!; [done|done| |done]. by rewrite E1, bits_set_same.
    - split_and!; [done|done|lia|done]. }
  clear Hc. intros [] s1 (Hc & Hm & Hcx & Hr). cbn beta. do 3 cstep. rewrite (Hr GPR64_RBX), Hoff by done.
  cbv zeta. cstep. rewrite (proj2 (Z.leb_gt _ _)) by done. cbv iota. cstep.
  apply (wp_mono _ _ (fun _ s' => cst H A R D [] s' /\ m_mem s' = m_mem s /\
    bits (m_gpr s' GPR64_RCX) 0 32 = sizeof_smap_e /\ m_gpr s' GPR64_RDI = m_gpr s GPR64_RDI /\
    bits (m_gpr s' GPR64_RBX) 0 32 = next_off off)).
  { unfold next_off. destruct Hdiv as [q Hq], Hnr as [N1 N2]. unfold sizeof_smap_e in *.
    destruct (Z.leb_spec (smap_nr * 20 - off) 20).
    - rewrite (proj2 (Z.leb_le (smap_nr * 20) (off + 20))) by lia. cstep.
      eapply wp_put; [exact Hc|]. clear Hc. intros s2 Hc G2. cbn beta.
      eapply wp_put; [exact Hc|]. clear Hc. intros s3 Hc G3. split_and!; [exact Hc| | | |].
      + by rewrite (gp_mem _ _ _ _ G3), (gp_mem _ _ _ _ G2).
      + rewrite (gp_eq _ _ _ _ G3), bits_set_same by done. assert (smap_nr * 20 - off = 20) as -> by lia. done.
      + gother G3. gother G2. by apply Hr.
      + gother G3. rewrite (gp_eq _ _ _ _ G2). by rewrite bits_set_same.
    - rewrite (proj2 (Z.leb_gt (smap_nr * 20) (off + 20))) by lia. do 4 cstep. rewrite Hcx.
      eapply wp_put; [exact Hc|]. clear Hc. intros s2 Hc G2. split_and!; [exact Hc| | | |].
      + by rewrite (gp_mem _ _ _ _ G2).
      + gother G2. done.
      + gother G2. by apply Hr.
      + rewrite (gp_eq _ _ _ _ G2), bits_set_same by done. apply wrap_id. unfold fits. lia. }
  clear Hc. intros [] s2 (Hc & Hm2 & Hcx2 & Hdi & Hbx). cbn beta.
  assert (buffer A s2 = buffer A s) as Eb by (unfold buffer; by rewrite Hdi).
  eapply wp_smap_copy; [exact Hc|done|by rewrite Eb|]. intros s3 Hc3 Hg3 Hm3.
  apply HQ; [exact Hc3|by rewrite Hg3| |by rewrite Hg3]. by rewrite Hm3, Eb, Hm2.
Qed.

Lemma wp_e820_call H A R D s size off Q : cst H A R D [] s -> st_rflags ∈ R -> fits 32 size -> sizeof_smap_e <= size ->
  bits (m_gpr s GPR64_RBX) 0 32 = off -> 0 <= off -> off < smap_nr * sizeof_smap_e -> (sizeof_smap_e | off) ->
  vmm_area_range ar (buffer A s) sizeof_smap_e = false ->
  (forall A' R' D' s', cst H A' R' D' [] s' -> st_rflags ∈ R' -> st_es_base ∈ R' -> answered A s A' s' ->
    m_mem s' = mem_write (m_mem s) (buffer A s) (mem_read (m_mem s) (smap_raw + off) sizeof_smap_e) ->
    bits (m_gpr s' GPR64_RBX) 0 32 = next_off off -> Q VM_DONE s') ->
  wp (e820_call size) s Q.
Proof.
  intros Hc HR Hsz Hle Hoff H0 Hlt Hdiv Hbuf HQ. unfold e820_call.
  eapply wp_ask; [exact Hc|done|]. clear Hc. intros s1 Hc [K1 K2 K3 K4 K5 K6].
  unfold emulate_int15, get_wlow. do 4 cstep. rewrite K1. change (BIOS_GET_SMAP =? BIOS_GET_SMAP) with true. cbv iota.
  unfold emulate_int15_get_smap. apply wp_bind.
  assert (buffer A s1 = buffer A s) as Eb by (unfold buffer; by rewrite K5).
  eapply (wp_int15_smap _ _ _ _ _ off); [exact Hc|done|by rewrite K3|by rewrite K4|done..|by rewrite Eb|].
  clear Hc. intros s2 Hc E1 E2 E3. unfold set_cf, put_low. cbv iota beta. cstep. cstep. cbn beta. cstep.
  eapply wp_put; [exact Hc|]. clear Hc. intros s3 Hc G3. cbn beta. repeat cstep.
  eapply (HQ _ _ _ _ Hc).
  - apply list_elem_of_here.
  - do 1 apply list_elem_of_further. apply list_elem_of_here.
  - split; [by upd_simpl| |]; upd_simpl.
    + by apply (bit_set_same _ _ false).
    + cbn [m_gpr with_vmcs]. gother G3. cbn [m_gpr with_vmcs]. by rewrite E1.
  - cbn [m_mem with_vmcs]. rewrite (gp_mem _ _ _ _ G3). cbn [m_mem with_vmcs]. by rewrite E2, K6, Eb.
  - cbn [m_gpr with_vmcs]. by gother G3.
Qed.

(** ** The loop *)

Context (m0 : gmap Z Z) (b : Z).
Hypothesis Hfree : vmm_area_range ar b sizeof_smap_e = false.
Hypothesis Happart : b + sizeof_smap_e <= smap_raw \/ smap_raw + smap_nr * sizeof_smap_e <= b.

Definition entry_bytes (i : Z) : bytes := mem_read m0 (smap_raw + i * sizeof_smap_e) sizeof_smap_e.

(** Before the call for the entry [i]. *)
Record looping (H A : field -> Z) (R D : list field) (i : Z) (s : mach) : Prop := mk_looping {
  lo_cst : cst H A R D [] s;
  lo_fl : st_rflags ∈ R;
  lo_buf : buffer A s = b;
  lo_off : bits (m_gpr s GPR64_RBX) 0 32 = i * sizeof_smap_e;
  lo_mem : forall p, ~ b <= p < b + sizeof_smap_e -> rd0 (m_mem s) p = rd0 m0 p;
}.

Lemma entry_read i m : 0 <= i < smap_nr -> (forall p, ~ b <= p < b + sizeof_smap_e -> rd0 m p = rd0 m0 p) ->
  mem_read m (smap_raw + i * sizeof_smap_e) sizeof_smap_e = entry_bytes i.
Proof. intros Hi Hm. apply mem_read_agree. intros p Hp. apply Hm. unfold sizeof_smap_e in *. lia. Qed.

Lemma entry_read_back i m m' : 0 <= i < smap_nr -> (forall p, ~ b <= p < b + sizeof_smap_e -> rd0 m p = rd0 m0 p) ->
  m' = mem_write m b (mem_read m (smap_raw + i * sizeof_smap_e) sizeof_smap_e) ->
  mem_read m' b sizeof_smap_e = entry_bytes i /\ forall p, ~ b <= p < b + sizeof_smap_e -> rd0 m' p = rd0 m0 p.
Proof.
  intros Hi Hm ->. rewrite (entry_read i m Hi Hm).
  assert (Z.of_nat (length (entry_bytes i)) = sizeof_smap_e) as E by apply length_mem_read. split.
  - rewrite <- E at 1. apply mem_read_written.
  - intros p Hp. rewrite rd0_mem_write, E, decide_False by done. by apply Hm.
Qed.

(** One turn: the entry, and the state the loop goes on or ends with. *)
Lemma wp_turn size fuel i H A R D s Q : fits 32 size -> sizeof_smap_e <= size -> 0 <= i < smap_nr -> looping H A R D i s ->
  (forall A' R' D' s', cst H A' R' D' [] s' -> st_rflags ∈ R' -> buffer A' s' = b ->
    (forall p, ~ b <= p < b + sizeof_smap_e -> rd0 (m_mem s') p = rd0 m0 p) ->
    bits (m_gpr s' GPR64_RBX) 0 32 = next_off (i * sizeof_smap_e) ->
    wp (if next_off (i * sizeof_smap_e) =? 0 then mret [entry_bytes i]
        else es ← e820_loop fuel size; mret (entry_bytes i :: es)) s' Q) ->
  wp (e820_loop (S fuel) size) s Q.
Proof.
  intros Hsz Hle Hi [Hc Hfl Hb Ho Hm] HQ. cbn [e820_loop]. apply wp_bind.
  eapply (wp_e820_call _ _ _ _ _ _ (i * sizeof_smap_e));
    [exact Hc|exact Hfl|done|done|exact Ho|unfold sizeof_smap_e; lia|unfold sizeof_smap_e in *; lia|by exists i|by rewrite Hb|].
  clear Hc. intros A' R' D' s' Hc Hfl' Hes [E1 E2 E3] Em Eo. rewrite bool_decide_true by done. cbn [negb]. cbv iota.
  unfold read_entry, base_low, get_wlow, gpr_low. repeat cstep. rewrite Eo. fold (buffer A' s').
  assert (buffer A' s' = b) as Eb by (unfold buffer; by rewrite E1, E3). rewrite Hb in Em.
  destruct (entry_read_back i _ _ Hi Hm Em) as [Er Hout]. rewrite Eb, Er. by apply (HQ A' R' D' s').
Qed.

Lemma wp_e820_loop size : fits 32 size -> sizeof_smap_e <= size -> forall n fuel i H A R D s, (n < fuel)%nat ->
  smap_nr = i + 1 + Z.of_nat n -> 0 <= i -> looping H A R D i s ->
  wp (e820_loop fuel size) s (fun es s' => es = entry_bytes <$> seqZ i (1 + Z.of_nat n) /\
    forall p, ~ b <= p < b + sizeof_smap_e -> rd0 (m_mem s') p = rd0 m0 p).
Proof.
  intros Hsz Hle. induction n as [|n IH]; intros fuel i H A R D s Hf Hn Hi Hl;
    (destruct fuel as [|fuel]; [lia|]); (eapply wp_turn; [done|done| |exact Hl|]; [lia|]);
    intros A' R' D' s' Hc Hfl Hb Hm Ho; unfold next_off in *; rewrite seqZ_cons by lia.
  - rewrite (proj2 (Z.leb_le _ _)) by (unfold sizeof_smap_e; lia). by apply wp_ret.
  - rewrite (proj2 (Z.leb_gt _ _)) in * by (unfold sizeof_smap_e; lia).
    rewrite (proj2 (Z.eqb_neq _ _)) by (unfold sizeof_smap_e; lia). apply wp_bind.
    eapply wp_mono; [apply (IH fuel (i + 1) H A' R' D' s'); [lia|lia|lia|]|].
    + split; [done|done|done|rewrite Ho; lia|done].
    + intros es s2 [-> Hm2]. apply wp_ret. split; [|done]. cbn [fmap list_fmap]. f_equal. f_equal. f_equal; lia.
Qed.

(** C10: a program that asks the bios for the memory map, with at least one
    turn of fuel for each entry, ends its loop and has read all the entries of
    the vm's map in order; outside of its buffer the memory is unchanged. *)
Theorem e820_enumerates H A R D s fuel size : cst H A R D [] s -> st_rflags ∈ R -> buffer A s = b -> m_mem s = m0 ->
  fits 32 size -> sizeof_smap_e <= size -> (Z.to_nat smap_nr <= fuel)%nat ->
  wp (e820_map fuel size) s (fun es s' => es = entry_bytes <$> seqZ 0 smap_nr /\
    forall p, ~ b <= p < b + sizeof_smap_e -> rd0 (m_mem s') p = rd0 m0 p).
Proof.
  intros Hc Hfl Hb Hm Hsz Hle Hf. unfold e820_map, put_low. apply wp_bind.
  eapply wp_put; [exact Hc|]. clear Hc. intros s1 Hc G. cbn beta. destruct Hnr as [N _].
  assert (seqZ 0 smap_nr = seqZ 0 (1 + Z.of_nat (Z.to_nat smap_nr - 1))) as -> by (f_equal; lia).
  eapply (wp_e820_loop size Hsz Hle _ fuel 0); [lia|lia|lia|]. split; [exact Hc|done| | |].
  - rewrite <- Hb. unfold buffer. by gother G.
  - rewrite (gp_eq _ _ _ _ G). by rewrite bits_set_same.
  - intros p _. by rewrite (gp_mem _ _ _ _ G), Hm.
Qed.
End program.

(** ** A concrete run

    A map of two entries, conventional memory and the first megabytes, read by
    a program whose buffer is at 2000:0100. *)

Definition ex_smap_fields : field -> Z := upd ex_fields st_es_base 0x20000.
Definition ex_smap_mem : gmap Z Z := mem_write ∅ 0x100000
  (le_bytes 8 0 ++ le_bytes 8 0x9fc00 ++ le_bytes 4 1 ++ le_bytes 8 0x100000 ++ le_bytes 8 0x700000 ++ le_bytes 4 1).
Definition ex_smap : mach := ex_mach ex_smap_fields (fun r => if decide (r = GPR64_RDI) then 0x100 else 0) 0
  VM_RMODE_EXCP_BITMAP true ex_smap_mem.

Lemma ex_smap_at : at_exit (V := ex_vmx) ex_smap_fields ex_smap.
Proof.
  apply ex_mach_at_exit. intros f. unfold ex_smap_fields, upd. destruct (decide _) as [<-|]; [by vm_compute|].
  apply ex_fields_fit.
Qed.

Lemma e820_enumerates_witness : exists s0 es s1,
  e820_map (V := ex_vmx) ex_area 0x100000 2 0 2 24 s0 = Some (es, s1) /\
  (fun e => smap_entry (mem_write ∅ 0 e) 0 0) <$> es = [mk_smap_e 0 0x9fc00 1; mk_smap_e 0x100000 0x700000 1].
Proof.
  destruct (exit_started (V := ex_vmx) ex_smap_fields ex_smap ex_smap_at) as (s0 & _ & [v ->] & Hc).
  match type of Hc with cst _ _ _ _ _ ?s => set (s0 := s) in * end.
  assert (buffer ex_smap_fields s0 = 0x20100) as Hb by by vm_compute.
  assert (0 < 2 /\ 2 * sizeof_smap_e < 2 ^ 32) as Hn by done.
  assert (0x20100 + sizeof_smap_e <= 0x100000 \/ 0x100000 + 2 * sizeof_smap_e <= 0x20100) as Ha by (left; done).
  assert (fits 32 24 /\ sizeof_smap_e <= 24) as [Hsz Hle] by done.
  assert ((Z.to_nat 2 <= 2)%nat) as Hfu by lia. assert (st_rflags ∈ pre_hdl_fields) as Hfl by elem.
  destruct (wp_exists _ _ _ (e820_enumerates (V := ex_vmx) ex_area 0x100000 2 0 Hn (m_mem s0) 0x20100
    eq_refl Ha _ _ _ _ s0 2 24 Hc Hfl Hb eq_refl Hsz Hle Hfu)) as (es & s1 & E & Hes & _).
  exists s0, es, s1. split; [exact E|]. rewrite Hes. vm_compute. reflexivity.
Defined.
