(* ===== verification/Dev.v ===== *)
(** * Port accesses of the vm (vmm/src/core/device.c, vmm/src/devices/*.c, vmm/src/vmx/vmx_exit_io.c)

    The vm drives most of the machine's devices itself: the ports the vmm
    denies it make it exit, and the handlers here either emulate the device
    (the serial line, the system control port), or forward the access to the
    port through a buffer of the vmm, after a filter has looked at it.  The
    machine's own devices are what [hw_in] answers from the accesses made so
    far. *)

From S2P Require Import Prelude.
From S2P Require Import Monad.
From S2P Require Import Pagemem.
From S2P Require Import Walk.
From S2P Require Import Vm.
From S2P Require Import Words.
From S2P Require Import Vmcs.
From S2P Require Import Machine.
From S2P Require Import Cpu.
From S2P Require Import Rmode.

Definition GPR64_RSI : Z := 9.
Definition RFLAGS_DF_BIT : Z := 10.

(** Ports (include/dev_io_ports.h, pci.h, sio.h, dev_*.h). *)
Definition PIC1_START_PORT : Z := 0x20.
Definition PIC1_END_PORT : Z := 0x21.
Definition PIC2_START_PORT : Z := 0xa0.
Definition COM1_START_PORT : Z := 0x3f8.
Definition COM1_END_PORT : Z := 0x3ff.
Definition ATA1_START_PORT : Z := 0x1f0.
Definition ATA1_END_PORT : Z := 0x1f7.
Definition ATA1_CTRL_PORT : Z := 0x3f6.
Definition PCI_CONFIG_ADDR : Z := 0xcf8.
Definition PCI_CONFIG_DATA : Z := 0xcfc.
Definition SIO_INDEX : Z := 0x2e.
Definition SIO_DATA : Z := 0x2f.
Definition PS2_SYS_CTRL_PORT_A : Z := 0x92.
Definition KBD_DATA_PORT : Z := 0x60.
Definition KBD_CTRL_PORT : Z := 0x64.
Definition KBD_CMD_SELF_TEST : Z := 0xaa.
Definition KBD_CMD_READ_O_PORT : Z := 0xd0.
Definition KBD_CMD_WRITE_O_PORT : Z := 0xd1.
Definition KBD_OUTPUT_PORT_A20 : Z := 2.
Definition DEV_UART_BUFF_LEN : Z := 64.
Definition PIC_UART1_IRQ : Z := 4.

(** ** State *)

(** An access to a port of the machine: its size, its port and the value. *)
Inductive io_evt := IO_IN (sz port v : Z) | IO_OUT (sz port v : Z).

(** [io_insn_t], without its source and destination. *)
Record io_insn := mk_io {
  io_in : bool; io_s : bool; io_sz : Z; io_addr : Z; io_seg : Z; io_back : bool; io_rep : bool;
  io_port : Z; io_msk : Z; io_cnt : Z;
}.
Definition io_zero : io_insn := mk_io false false 0 0 0 false false 0 0 0.
Record io_size := mk_io_size { z_avail : Z; z_done : Z; z_miss : Z }.

(** The filters, one per function the source has a pointer on. *)
Inductive io_flt :=
  | F_sio_com1 | F_sio_index | F_pci_addr | F_pci_dvd_e1000 | F_pci_cmd_sts_e1000 | F_pci_dvd_ehci
  | F_ata_lba | F_ata_scnt | F_ata_cmd.

(** The fields of [kbd_t] and of [ata_t] the code uses; the first disk. *)
Record kbd_t := mk_kbd { k_last_cmd : Z; k_output_port : Z }.
Record ata_t := mk_ata {
  a_base : Z; a_last_out : Z; a_cmd : Z; a_dev_head : Z; a_cnt : Z; a_lba : Z
}.
Record uart_t := mk_uart {
  u_buffer : bytes; u_index : Z; u_base : Z; u_ier : Z; u_iir : Z; u_fcr : Z; u_lcr : Z; u_mcr : Z; u_lsr : Z;
  u_msr : Z; u_lsb : Z; u_msb : Z; u_scr : Z
}.

Record dstate := mk_d {
  d_m : mach;
  d_hist : list io_evt;           (* accesses to the ports of the machine, the last one first *)
  d_pool : bytes;                 (* [info->vmm.io_pool] *)
  d_kbd : kbd_t;
  d_ps2 : Z;
  d_uart : uart_t;
  d_con : list bytes;             (* what the serial line wrote, the last one first *)
  d_ata : ata_t;
  d_icw2 : Z;                     (* [info->vm.dev.pic1_icw2] *)
  d_wait_icw2 : bool;             (* the static variable of [__io_pic_detect] *)
  d_pci_addr : Z;
  d_pci_flt : option io_flt;
  d_sio_flt : option io_flt;
}.

Definition set_m x s := mk_d x (d_hist s) (d_pool s) (d_kbd s) (d_ps2 s) (d_uart s) (d_con s) (d_ata s)
  (d_icw2 s) (d_wait_icw2 s) (d_pci_addr s) (d_pci_flt s) (d_sio_flt s).
Definition set_hist x s := mk_d (d_m s) x (d_pool s) (d_kbd s) (d_ps2 s) (d_uart s) (d_con s) (d_ata s)
  (d_icw2 s) (d_wait_icw2 s) (d_pci_addr s) (d_pci_flt s) (d_sio_flt s).
Definition set_pool x s := mk_d (d_m s) (d_hist s) x (d_kbd s) (d_ps2 s) (d_uart s) (d_con s) (d_ata s)
  (d_icw2 s) (d_wait_icw2 s) (d_pci_addr s) (d_pci_flt s) (d_sio_flt s).
Definition set_kbd x s := mk_d (d_m s) (d_hist s) (d_pool s) x (d_ps2 s) (d_uart s) (d_con s) (d_ata s)
  (d_icw2 s) (d_wait_icw2 s) (d_pci_addr s) (d_pci_flt s) (d_sio_flt s).
Definition set_ps2 x s := mk_d (d_m s) (d_hist s) (d_pool s) (d_kbd s) x (d_uart s) (d_con s) (d_ata s)
  (d_icw2 s) (d_wait_icw2 s) (d_pci_addr s) (d_pci_flt s) (d_sio_flt s).
Definition set_uart x s := mk_d (d_m s) (d_hist s) (d_pool s) (d_kbd s) (d_ps2 s) x (d_con s) (d_ata s)
  (d_icw2 s) (d_wait_icw2 s) (d_pci_addr s) (d_pci_flt s) (d_sio_flt s).
Definition set_con x s := mk_d (d_m s) (d_hist s) (d_pool s) (d_kbd s) (d_ps2 s) (d_uart s) x (d_ata s)
  (d_icw2 s) (d_wait_icw2 s) (d_pci_addr s) (d_pci_flt s) (d_sio_flt s).
Definition set_ata x s := mk_d (d_m s) (d_hist s) (d_pool s) (d_kbd s) (d_ps2 s) (d_uart s) (d_con s) x
  (d_icw2 s) (d_wait_icw2 s) (d_pci_addr s) (d_pci_flt s) (d_sio_flt s).
Definition set_icw2 x s := mk_d (d_m s) (d_hist s) (d_pool s) (d_kbd s) (d_ps2 s) (d_uart s) (d_con s) (d_ata s)
  x (d_wait_icw2 s) (d_pci_addr s) (d_pci_flt s) (d_sio_flt s).
Definition set_wait_icw2 x s := mk_d (d_m s) (d_hist s) (d_pool s) (d_kbd s) (d_ps2 s) (d_uart s) (d_con s)
  (d_ata s) (d_icw2 s) x (d_pci_addr s) (d_pci_flt s) (d_sio_flt s).
Definition set_pci_addr x s := mk_d (d_m s) (d_hist s) (d_pool s) (d_kbd s) (d_ps2 s) (d_uart s) (d_con s)
  (d_ata s) (d_icw2 s) (d_wait_icw2 s) x (d_pci_flt s) (d_sio_flt s).
Definition set_pci_flt x s := mk_d (d_m s) (d_hist s) (d_pool s) (d_kbd s) (d_ps2 s) (d_uart s) (d_con s)
  (d_ata s) (d_icw2 s) (d_wait_icw2 s) (d_pci_addr s) x (d_sio_flt s).
Definition set_sio_flt x s := mk_d (d_m s) (d_hist s) (d_pool s) (d_kbd s) (d_ps2 s) (d_uart s) (d_con s)
  (d_ata s) (d_icw2 s) (d_wait_icw2 s) (d_pci_addr s) (d_pci_flt s) x.

(** What the disassembler says of a string instruction: its mode, whether it
    has an address prefix, and its segment prefix counted from es. *)
Record ud_str := mk_ud_str { uds_mode : Z; uds_pfx_adr : bool; uds_pfx_seg : option Z }.

(** The machine (include/dev.h, [info->hrd]) and the configuration of the vmm. *)
Class Hrd := {
  hw_in : list io_evt -> Z -> Z -> Z;    (* what a port of a size answers *)
  cfg_net : bool;                        (* [CONFIG_HAS_NET] with [CONFIG_HAS_E1000] *)
  cfg_ehci_2nd : bool;                   (* [CONFIG_HAS_EHCI] with [CONFIG_EHCI_2ND] *)
  cfg_ext_io : bool;                     (* [CONFIG_VMX_FEAT_EXIT_EXT_IO] *)
  cfg_pg_1G : bool;
  hrd_disasm : mach -> vm_code * ud_str;
  hrd_net_pci : Z;                       (* the address of the card, [pci_cfg_addr_t] *)
  hrd_dbgp_pci : Z;
  hrd_dbgp_dvd : Z;
  hrd_pm1_ctl_port : Z;
  hrd_s3 : Z;
  hrd_facs : Z;
  hrd_undef : Z;                         (* what an uninitialised byte of the stack holds *)
}.

Section dev.
Context {V : Vmx} {Hw : Hrd} (ar : area_t) (max_paddr : Z).

Definition on_m {A} (m : M mach A) : M dstate A := zoom d_m set_m m.

(** ** Ports of the machine *)

Definition port_in (sz port : Z) : M dstate Z :=
  h ← gets d_hist;
  let v := bits (hw_in h sz port) 0 (8 * sz) in
  modify (set_hist (IO_IN sz port v :: h)) ;; mret v.
Definition port_out (sz port v : Z) : M dstate unit :=
  modify (fun s => set_hist (IO_OUT sz port v :: d_hist s) s).

Fixpoint rep_ins (sz port : Z) (cnt : nat) : M dstate bytes :=
  match cnt with
  | O => mret []
  | S cnt => v ← port_in sz port; l ← rep_ins sz port cnt; mret (le_bytes sz v ++ l)
  end.
Fixpoint rep_outs (sz port : Z) (cnt : nat) (data : bytes) : M dstate unit :=
  match cnt with
  | O => mret tt
  | S cnt => port_out sz port (le_word (take (Z.to_nat sz) data)) ;; rep_outs sz port cnt (drop (Z.to_nat sz) data)
  end.

Definition io_size_ok (sz : Z) : bool := (sz =? 1) || (sz =? 2) || (sz =? 4).
Definition buf_put (data got : bytes) : bytes := got ++ drop (length got) data.

(** ** Native accesses (io.c)

    [data] is the buffer [device] points on; [None] when the access goes past
    its end. *)

Definition in_buffer (n : Z) (data : bytes) : M dstate unit :=
  if n <=? Z.of_nat (length data) then mret tt else fail.

Definition is_pic_icw1 (data : Z) : bool := c_true (Z.land data 0x10).

Definition io_pic_detect (io : io_insn) (data : Z) : M dstate unit :=
  if negb ((PIC1_START_PORT <=? io_port io) && (io_port io <=? PIC1_END_PORT)) || io_in io then mret tt
  else if Z.land (io_port io) 1 =? 0 then when (is_pic_icw1 data) (modify (set_wait_icw2 true))
  else
    w ← gets d_wait_icw2;
    when w (modify (set_wait_icw2 false) ;; modify (set_icw2 data) ;;
            on_m (modify (allow_io_range PIC1_START_PORT PIC2_START_PORT))).

Definition io_string_native (io : io_insn) (data : bytes) : M dstate (vm_code * bytes) :=
  if io_back io then mret (VM_FAIL, data)
  else if io_in io then
    in_buffer (io_cnt io * io_sz io) data ;;
    got ← rep_ins (io_sz io) (io_port io) (Z.to_nat (io_cnt io)); mret (VM_DONE, buf_put data got)
  else
    when (io_sz io =? 1) (io_pic_detect io (nth 0 data 0)) ;;
    in_buffer (io_cnt io * io_sz io) data ;;
    rep_outs (io_sz io) (io_port io) (Z.to_nat (io_cnt io)) data ;; mret (VM_DONE, data).

Definition io_simple_native (io : io_insn) (data : bytes) : M dstate (vm_code * bytes) :=
  if io_rep io then mret (VM_FAIL, data)
  else if negb (io_size_ok (io_sz io)) then mret (VM_DONE, data)
  else
    in_buffer (io_sz io) data ;;
    if io_in io then v ← port_in (io_sz io) (io_port io); mret (VM_DONE, buf_put data (le_bytes (io_sz io) v))
    else
      when (io_sz io =? 1) (io_pic_detect io (nth 0 data 0)) ;;
      port_out (io_sz io) (io_port io) (le_word (take (Z.to_nat (io_sz io)) data)) ;; mret (VM_DONE, data).

(** [emulate_native] and the access. *)
Definition dev_io_native (io : io_insn) (data : bytes) : M dstate (vm_code * bytes) :=
  on_m (modify (with_emu_done false)) ;;
  if io_s io then io_string_native io data else io_simple_native io data.

(** ** Emulated accesses (io.c) *)

(** What an access to the memory of the vm reads of its processor. *)
Definition vm_cpu_of (s : mach) : vm_cpu :=
  mk_cpu (mk_mmu_cfg (bit (m_efer s) EFER_LMA_BIT) (bit (m_efer s) 11)
           (bit (val (m_vmcs s) exec_cr4_read_shadow) CR4_PAE_BIT)
           (bit (val (m_vmcs s) exec_cr4_read_shadow) CR4_PSE_BIT) cfg_pg_1G ar)
    (bit (val (m_vmcs s) exec_cr0_read_shadow) CR0_PG_BIT) (val (m_vmcs s) st_cr3)
    (cpl_of (val (m_vmcs s) st_cs_selector)).

(** An operation of [Vm] on the memory, and the page fault it may inject. *)
Definition vm_mem (op : vm_cpu -> vmst -> option (vm_code * vm_access * vmst)) : M mach (vm_code * vm_access) :=
  fun s => match op (vm_cpu_of s) (mk_vmst (m_mem s) [] [] []) with
  | None => None
  | Some (rc, ac, v) =>
      (for_each (rev (excps v)) (fun x => Cpu.inject_exception x.1.1 x.1.2 x.2) ;; mret (rc, ac))
        (with_mem (phys v) s)
  end.

(** The end of the forward operations. *)
Definition size_moved (done : Z) (sz : io_size) : io_size :=
  mk_io_size (wrap64 (z_avail sz - done)) done (wrap64 (z_miss sz - done)).
(** [rdi] or [rsi] after [done] bytes. *)
Definition str_update (io : io_insn) (r done : Z) : Z :=
  let update := Z.land r (io_msk io) in
  let update := if io_back io then wrap64 (update - Z.land done (io_msk io))
                else wrap64 (update + Z.land done (io_msk io)) in
  Z.lor (Z.ldiff r (io_msk io)) update.

Definition io_insn_string_in (io : io_insn) (data : bytes) (sz : io_size) : M dstate (vm_code * io_size) :=
  rdi ← on_m (get_gpr GPR64_RDI);
  r ← (if io_back io then mret (VM_FAIL, sz)
       else
         dst ← on_m (getf info_guest_linear);
         r ← on_m (vm_mem (fun c => vm_write_mem_sz c dst data (Z.min (z_miss sz) (z_avail sz))));
         mret (r.1, size_moved (va_done r.2) sz));
  on_m (put_gpr GPR64_RDI (str_update io rdi (z_done r.2))) ;; mret r.

Definition io_insn_string_out (io : io_insn) (data : bytes) (sz : io_size)
    : M dstate (vm_code * bytes * io_size) :=
  rsi ← on_m (get_gpr GPR64_RSI);
  r ← (if io_back io then mret (VM_FAIL, data, sz)
       else
         src ← on_m (getf info_guest_linear);
         r ← on_m (vm_mem (fun c => vm_read_mem_sz c src data (Z.min (z_miss sz) (z_avail sz))));
         mret (r.1, va_data r.2, size_moved (va_done r.2) sz));
  on_m (put_gpr GPR64_RSI (str_update io rsi (z_done r.2))) ;; mret r.

Definition io_insn_string (io : io_insn) (data : bytes) (sz : io_size) : M dstate (vm_code * bytes * io_size) :=
  rcx ← on_m (get_gpr GPR64_RCX);
  let sz := if io_rep io then mk_io_size (z_avail sz) (z_done sz) (wrap64 (z_miss sz * Z.land rcx (io_msk io)))
            else sz in
  r ← (if io_in io then r ← io_insn_string_in io data sz; mret (r.1, data, r.2)
       else io_insn_string_out io data sz);
  when (io_rep io)
    (rcx ← on_m (get_gpr GPR64_RCX);
     on_m (put_gpr GPR64_RCX
       (Z.lor (Z.ldiff rcx (io_msk io)) (Z.land (z_miss r.2 / io_sz io) (io_msk io))))) ;;
  mret r.

Definition io_insn_simple (io : io_insn) (data : bytes) (sz : io_size) : M dstate (vm_code * bytes * io_size) :=
  if io_rep io then mret (VM_FAIL, data, sz)
  else if z_avail sz <? io_sz io then mret (VM_FAIL, data, sz)
  else
    let n := Z.to_nat (io_sz io) in
    rax ← on_m (get_gpr GPR64_RAX);
    data ← (if negb (io_size_ok (io_sz io)) then mret data
            else if io_in io then
              on_m (put_gpr_fld GPR64_RAX 0 (8 * io_sz io) (le_word (take n data))) ;; mret data
            else mret (buf_put data (le_bytes (io_sz io) (bits rax 0 32))));
    mret (VM_DONE, data, mk_io_size (z_avail sz - io_sz io) (z_done sz + io_sz io) (z_miss sz - io_sz io)).

(** The buffer it leaves, and the sizes; [avail] is what the caller set. *)
Definition dev_io_insn (io : io_insn) (data : bytes) (avail : Z) : M dstate (vm_code * bytes * io_size) :=
  let sz := mk_io_size avail 0 (io_sz io) in
  if io_s io then io_insn_string io data sz else io_insn_simple io data sz.

(** ** Filters

    They change the buffer. *)

(** Super io (sio.c). *)
Definition dev_sio_filter_com1 (data : bytes) : M dstate (vm_code * bytes) :=
  let com1 := nth 0 data 0 in
  mret (VM_DONE, if Z.land com1 2 =? 0 then buf_put data [Z.lor com1 2] else data).
Definition dev_sio_filter_index (data : bytes) : M dstate (vm_code * bytes) :=
  (if negb (c_true (nth 0 data 0)) then
     on_m (modify (deny_io SIO_DATA)) ;; modify (set_sio_flt (Some F_sio_com1))
   else on_m (modify (allow_io SIO_DATA))) ;;
  mret (VM_DONE, data).

(** Pci (pci.c, include/pci.h). *)
Definition PCI_CFG_DEV_VDR_OFFSET : Z := 0.
Definition PCI_CFG_CMD_STS_OFFSET : Z := 4.
Definition PCI_CFG_VENDOR_INTEL : Z := 0x8086.
Definition PCI_CFG_DEVICE_INVALID : Z := 0xffff.
Definition PCI_CFG_DEVICE_i82540EM : Z := 0x100e.
Definition PCI_CFG_DEVICE_i82545EM_C : Z := 0x100f.
Definition pci_reg (a : Z) : Z := bits a 0 8.
Definition same_function (a b : Z) : bool :=
  (bits a 16 8 =? bits b 16 8) && (bits a 8 3 =? bits b 8 3) && (bits a 11 5 =? bits b 11 5).

Definition dev_pci_filter_dvd_e1000 (data : bytes) : M dstate (vm_code * bytes) :=
  let dvd := le_word (take 4 data) in
  mret (VM_DONE,
    if negb (bits dvd 0 16 =? PCI_CFG_VENDOR_INTEL) then data
    else if negb (bits dvd 16 16 =? PCI_CFG_DEVICE_i82540EM) && negb (bits dvd 16 16 =? PCI_CFG_DEVICE_i82545EM_C)
    then data
    else buf_put data (le_bytes 4 (set_bits dvd 16 16 PCI_CFG_DEVICE_INVALID))).
Definition dev_pci_filter_cmd_sts_e1000 (data : bytes) : M dstate (vm_code * bytes) :=
  let cs := le_word (take 4 data) in
  mret (VM_DONE,
    if negb (bit cs 1) || negb (bit cs 2) then buf_put data (le_bytes 4 (set_bits (set_bits cs 1 1 1) 2 1 1))
    else data).
Definition dev_pci_filter_e1000 (addr : Z) : M dstate vm_code :=
  if negb (same_function addr hrd_net_pci) then mret VM_IGNORE
  else if pci_reg addr =? PCI_CFG_DEV_VDR_OFFSET then modify (set_pci_flt (Some F_pci_dvd_e1000)) ;; mret VM_DONE
  else if pci_reg addr =? PCI_CFG_CMD_STS_OFFSET then modify (set_pci_flt (Some F_pci_cmd_sts_e1000)) ;; mret VM_DONE
  else mret VM_IGNORE.
Definition dev_pci_filter_dvd_ehci (data : bytes) : M dstate (vm_code * bytes) :=
  let dvd := le_word (take 4 data) in
  mret (VM_DONE,
    if negb (dvd =? hrd_dbgp_dvd) then data
    else buf_put data (le_bytes 4 (set_bits dvd 16 16 PCI_CFG_DEVICE_INVALID))).
Definition dev_pci_filter_ehci (addr : Z) : M dstate vm_code :=
  if same_function addr hrd_dbgp_pci && (pci_reg addr =? PCI_CFG_DEV_VDR_OFFSET) then
    modify (set_pci_flt (Some F_pci_dvd_ehci)) ;; mret VM_DONE
  else mret VM_IGNORE.
Definition dev_pci_filter_addr (data : bytes) : M dstate (vm_code * bytes) :=
  let addr := le_word (take 4 data) in
  modify (set_pci_addr addr) ;;
  rc ← (if cfg_net then dev_pci_filter_e1000 addr else mret VM_IGNORE);
  rc ← (if cfg_ehci_2nd && bool_decide (rc = VM_IGNORE) then dev_pci_filter_ehci addr else mret rc);
  (if bool_decide (rc = VM_IGNORE) then on_m (modify (allow_io PCI_CONFIG_DATA))
   else on_m (modify (deny_io PCI_CONFIG_DATA))) ;;
  mret (VM_DONE, data).

(** The disk (ata.c, include/dev_ata.h). *)
Definition ATA_READ_SECTOR_CMD : Z := 0x20.
Definition ATA_WRITE_SECTOR_CMD : Z := 0x30.
Definition ata_rw (cmd : Z) : bool := (cmd =? ATA_READ_SECTOR_CMD) || (cmd =? ATA_WRITE_SECTOR_CMD).

Definition ata_last_out v a := mk_ata (a_base a) v (a_cmd a) (a_dev_head a) (a_cnt a) (a_lba a).
Definition ata_cmd v a := mk_ata (a_base a) (a_last_out a) v (a_dev_head a) (a_cnt a) (a_lba a).
Definition ata_dev_head v a := mk_ata (a_base a) (a_last_out a) (a_cmd a) v (a_cnt a) (a_lba a).
Definition ata_disk cnt lba a := mk_ata (a_base a) (a_last_out a) (a_cmd a) (a_dev_head a) cnt lba.

Definition dev_ata_lba_filter (data : bytes) : M dstate (vm_code * bytes) :=
  ata ← gets d_ata;
  let idx := wrap8 (a_last_out ata - (a_base ata + 3)) in
  if 2 <? idx then mret (VM_FAIL, data)
  else modify (set_ata (ata_disk (a_cnt ata) (set_bits (a_lba ata) (8 * idx) 8 (nth 0 data 0)) ata)) ;;
       mret (VM_DONE, data).
Definition dev_ata_scnt_filter (data : bytes) : M dstate (vm_code * bytes) :=
  ata ← gets d_ata;
  let cnt := nth 0 data 0 in
  modify (set_ata (ata_disk (if negb (c_true cnt) then 256 else cnt) (a_lba ata) ata)) ;; mret (VM_DONE, data).
Definition dev_ata_cmd_filter (data : bytes) : M dstate (vm_code * bytes) :=
  modify (fun s => set_ata (ata_cmd (nth 0 data 0) (d_ata s)) s) ;;
  ata ← gets d_ata;
  when (ata_rw (a_cmd ata))
    (modify (set_ata (ata_disk (a_cnt ata) (Z.lor (a_lba ata) (Z.shiftl (bits (a_dev_head ata) 0 4) 24)) ata))) ;;
  mret (VM_DONE, data).

Definition run_filter (f : io_flt) : bytes -> M dstate (vm_code * bytes) :=
  match f with
  | F_sio_com1 => dev_sio_filter_com1 | F_sio_index => dev_sio_filter_index
  | F_pci_addr => dev_pci_filter_addr | F_pci_dvd_e1000 => dev_pci_filter_dvd_e1000
  | F_pci_cmd_sts_e1000 => dev_pci_filter_cmd_sts_e1000 | F_pci_dvd_ehci => dev_pci_filter_dvd_ehci
  | F_ata_lba => dev_ata_lba_filter | F_ata_scnt => dev_ata_scnt_filter | F_ata_cmd => dev_ata_cmd_filter
  end.

(** ** Forwarded accesses (io.c) *)

Definition failed (rc : vm_code) : bool := bool_decide (rc = VM_FAIL \/ rc = VM_FAULT).

Definition dev_io_proxy_filter_in (io : io_insn) (f : option io_flt) (data : bytes) (avail : Z)
    : M dstate (vm_code * bytes) :=
  r ← dev_io_native io data;
  if negb (bool_decide (r.1 = VM_DONE)) then mret r
  else
    r ← match f with Some f => run_filter f r.2 | None => mret r end;
    if failed r.1 then mret (VM_FAIL, r.2) else r' ← dev_io_insn io r.2 avail; mret r'.1.

Definition dev_io_proxy_filter_out (io : io_insn) (f : option io_flt) (data : bytes) (avail : Z)
    : M dstate (vm_code * bytes) :=
  r ← dev_io_insn io data avail;
  if negb (bool_decide (r.1.1 = VM_DONE)) then mret r.1
  else
    r ← match f with Some f => run_filter f r.1.2 | None => mret r.1 end;
    if failed r.1 then mret r
    else if negb (bool_decide (r.1 = VM_IGNORE)) then r ← dev_io_native io r.2; mret (VM_DONE, r.2)
    else mret (VM_DONE, r.2).

Definition dev_io_proxify_filter (io : io_insn) (f : option io_flt) : M dstate vm_code :=
  let avail := wrap64 (io_sz io * io_cnt io) in
  if VMM_IO_POOL_SZ <? avail then mret VM_FAIL
  else
    pool ← gets d_pool;
    r ← (if io_in io then dev_io_proxy_filter_in io f pool avail else dev_io_proxy_filter_out io f pool avail);
    modify (set_pool r.2) ;; mret r.1.

Definition dev_io_proxify (io : io_insn) : M dstate vm_code := dev_io_proxify_filter io None.
End dev.
