(* ===== verification/DevHdl.v ===== *)
(** * The devices of the vm (vmm/src/devices/kbd.c, ps2.c, uart.c, ata.c, sio.c, pci.c, acpi.c, vmm/src/core/device.c)

    The handlers of [Dev]'s accesses, the dispatch on the port, the exit on an
    instruction that accesses a port, and the initial devices. *)

From S2P Require Import Prelude.
From S2P Require Import Monad.
From S2P Require Import Pagemem.
From S2P Require Import Walk.
From S2P Require Import Vm.
From S2P Require Import Words.
From S2P Require Import Vmcs.
From S2P Require Import Machine.
From S2P Require Import Cpu.
From S2P Require Import Rmode.
From S2P Require Import Dev.

(** ** Fields *)

Definition uart_buffer v u := mk_uart v (u_index u) (u_base u) (u_ier u) (u_iir u) (u_fcr u) (u_lcr u) (u_mcr u)
  (u_lsr u) (u_msr u) (u_lsb u) (u_msb u) (u_scr u).
Definition uart_index v u := mk_uart (u_buffer u) v (u_base u) (u_ier u) (u_iir u) (u_fcr u) (u_lcr u) (u_mcr u)
  (u_lsr u) (u_msr u) (u_lsb u) (u_msb u) (u_scr u).
Definition uart_ier v u := mk_uart (u_buffer u) (u_index u) (u_base u) v (u_iir u) (u_fcr u) (u_lcr u) (u_mcr u)
  (u_lsr u) (u_msr u) (u_lsb u) (u_msb u) (u_scr u).
Definition uart_iir v u := mk_uart (u_buffer u) (u_index u) (u_base u) (u_ier u) v (u_fcr u) (u_lcr u) (u_mcr u)
  (u_lsr u) (u_msr u) (u_lsb u) (u_msb u) (u_scr u).
Definition uart_fcr v u := mk_uart (u_buffer u) (u_index u) (u_base u) (u_ier u) (u_iir u) v (u_lcr u) (u_mcr u)
  (u_lsr u) (u_msr u) (u_lsb u) (u_msb u) (u_scr u).
Definition uart_lcr v u := mk_uart (u_buffer u) (u_index u) (u_base u) (u_ier u) (u_iir u) (u_fcr u) v (u_mcr u)
  (u_lsr u) (u_msr u) (u_lsb u) (u_msb u) (u_scr u).
Definition uart_mcr v u := mk_uart (u_buffer u) (u_index u) (u_base u) (u_ier u) (u_iir u) (u_fcr u) (u_lcr u) v
  (u_lsr u) (u_msr u) (u_lsb u) (u_msb u) (u_scr u).
Definition uart_lsr v u := mk_uart (u_buffer u) (u_index u) (u_base u) (u_ier u) (u_iir u) (u_fcr u) (u_lcr u) (u_mcr u)
  v (u_msr u) (u_lsb u) (u_msb u) (u_scr u).
Definition uart_msr v u := mk_uart (u_buffer u) (u_index u) (u_base u) (u_ier u) (u_iir u) (u_fcr u) (u_lcr u) (u_mcr u)
  (u_lsr u) v (u_lsb u) (u_msb u) (u_scr u).
Definition uart_lsb v u := mk_uart (u_buffer u) (u_index u) (u_base u) (u_ier u) (u_iir u) (u_fcr u) (u_lcr u) (u_mcr u)
  (u_lsr u) (u_msr u) v (u_msb u) (u_scr u).
Definition uart_msb v u := mk_uart (u_buffer u) (u_index u) (u_base u) (u_ier u) (u_iir u) (u_fcr u) (u_lcr u) (u_mcr u)
  (u_lsr u) (u_msr u) (u_lsb u) v (u_scr u).
Definition uart_scr v u := mk_uart (u_buffer u) (u_index u) (u_base u) (u_ier u) (u_iir u) (u_fcr u) (u_lcr u) (u_mcr u)
  (u_lsr u) (u_msr u) (u_lsb u) (u_msb u) v.

(** The states the devices start in (setup/src/devices/*.c): the fields that
    are not set are those of [u]. *)
Definition dev_kbd_init (k : kbd_t) : kbd_t := mk_kbd KBD_CMD_SELF_TEST (k_output_port k).
Definition dev_ata_init (base : Z) (a : ata_t) : ata_t :=
  mk_ata base (a_last_out a) (a_cmd a) (a_dev_head a) (a_cnt a) (a_lba a).
Definition SERIAL_IIR_INFO_THR_EMPTY : Z := 1.
Definition dev_uart_init (base : Z) (u : uart_t) : uart_t :=
  mk_uart (u_buffer u) 0 base 0 (set_bits (set_bits (u_iir u) 0 1 1) 1 3 SERIAL_IIR_INFO_THR_EMPTY) (u_fcr u)
    0 0 0x60 0 0 0 0.

Section devices.
Context {V : Vmx} {Hw : Hrd} (ar : area_t) (max_paddr : Z).

Let dev_io_insn := dev_io_insn ar.
Let dev_io_proxify := dev_io_proxify ar.
Let dev_io_proxify_filter := dev_io_proxify_filter ar.

(** ** Keyboard controller (kbd.c) *)

Definition get_al : M dstate Z := v ← on_m (get_gpr GPR64_RAX); mret (bits v 0 8).
Definition put_al (v : Z) : M dstate unit := on_m (put_gpr_fld GPR64_RAX 0 8 v).

Definition dev_kbd_ctrl (io : io_insn) : M dstate vm_code :=
  if io_in io then v ← port_in 1 (io_port io); put_al v ;; mret VM_DONE
  else
    al ← get_al;
    modify (fun s => set_kbd (mk_kbd al (k_output_port (d_kbd s))) s) ;;
    port_out 1 (io_port io) al ;; mret VM_DONE.

Definition a20_of (v : Z) : bool := bit v 1.

Definition dev_kbd_data (io : io_insn) : M dstate vm_code :=
  if io_in io then
    v ← port_in 1 (io_port io); put_al v ;;
    k ← gets d_kbd;
    when (k_last_cmd k =? KBD_CMD_READ_O_PORT)
      (al ← get_al; put_al (Z.ldiff al KBD_OUTPUT_PORT_A20) ;;
       al ← get_al; put_al (Z.lor al (if a20_of (k_output_port k) then KBD_OUTPUT_PORT_A20 else 0))) ;;
    mret VM_DONE
  else
    k ← gets d_kbd;
    when (k_last_cmd k =? KBD_CMD_WRITE_O_PORT)
      (al ← get_al;
       modify (set_kbd (mk_kbd (k_last_cmd k) al)) ;;
       on_m (dev_a20_set (Z.b2z (a20_of al))) ;;
       when (negb (a20_of al)) (put_al (Z.lor al KBD_OUTPUT_PORT_A20))) ;;
    al ← get_al; port_out 1 (io_port io) al ;; mret VM_DONE.

Definition dev_kbd (io : io_insn) : M dstate vm_code :=
  if io_port io =? KBD_CTRL_PORT then dev_kbd_ctrl io
  else if io_port io =? KBD_DATA_PORT then dev_kbd_data io
  else if io_in io then v ← port_in 1 (io_port io); put_al v ;; mret VM_DONE
  else al ← get_al; port_out 1 (io_port io) al ;; mret VM_DONE.

(** ** System control port (ps2.c)

    [None] when the vm asks for a reset. *)

Definition dev_ps2 (io : io_insn) : M dstate vm_code :=
  v ← gets d_ps2;
  r ← dev_io_insn io [v] 1;
  let v := nth 0 r.1.2 0 in
  modify (set_ps2 v) ;;
  if negb (bool_decide (r.1.1 = VM_DONE)) then mret r.1.1
  else if bit v 0 then fail
  else on_m (dev_a20_set (bits v 1 1)) ;; mret VM_DONE.

(** ** Serial line (uart.c) *)

Definition dev_uart_flush : M dstate unit :=
  u ← gets d_uart;
  modify (fun s => set_con (take (Z.to_nat (u_index u)) (u_buffer u) :: d_con s) s) ;;
  modify (set_uart (uart_index 0 u)).

(** One turn of the loop of [__dev_uart_xfr], and the loop: [fuel] bounds its
    turns. *)
Definition uart_xfr_step (io : io_insn) : M dstate (vm_code * io_size) :=
  u ← gets d_uart;
  let i := Z.to_nat (u_index u) in
  r ← dev_io_insn io (drop i (u_buffer u)) (DEV_UART_BUFF_LEN - u_index u);
  modify (set_uart (uart_buffer (take i (u_buffer u) ++ r.1.2) u)) ;;
  if negb (bool_decide (r.1.1 = VM_DONE)) then mret (r.1.1, r.2)
  else
    let index := wrap32 (u_index u + z_done r.2) in
    modify (fun s => set_uart (uart_index index (d_uart s)) s) ;;
    when (DEV_UART_BUFF_LEN <=? index)
      (modify (fun s => set_uart (uart_index DEV_UART_BUFF_LEN (d_uart s)) s) ;;
       when (negb (io_in io)) dev_uart_flush) ;;
    mret (r.1.1, r.2).
Fixpoint dev_uart_xfr (fuel : nat) (io : io_insn) : M dstate vm_code :=
  match fuel with
  | O => fail
  | S fuel =>
      r ← uart_xfr_step io;
      if negb (bool_decide (r.1 = VM_DONE)) then mret r.1
      else if c_true (z_miss r.2) then dev_uart_xfr fuel io else mret r.1
  end.

(** An access to a register of one byte. *)
Definition reg_io (io : io_insn) (get : uart_t -> Z) (put : Z -> uart_t -> uart_t) : M dstate vm_code :=
  v ← gets (fun s => get (d_uart s));
  r ← dev_io_insn io [v] 1;
  modify (fun s => set_uart (put (nth 0 r.1.2 0) (d_uart s)) s) ;; mret r.1.1.

Definition dev_uart_dla (io : io_insn) : M dstate vm_code :=
  base ← gets (fun s => u_base (d_uart s));
  if io_port io =? base then reg_io io u_lsb uart_lsb else reg_io io u_msb uart_msb.
Definition dev_uart_lsr (io : io_insn) : M dstate vm_code := reg_io io u_lsr uart_lsr.
Definition dev_uart_ier (io : io_insn) : M dstate vm_code :=
  rc ← reg_io io u_ier uart_ier;
  u ← gets d_uart;
  (if negb (io_in io) && bit (u_ier u) 1 && bit (u_lsr u) 5 then
     on ← on_m safe_interrupts_on;
     when on
       (icw2 ← gets d_icw2;
        modify (set_uart (uart_iir (set_bits (u_iir u) 0 1 0) u)) ;;
        on_m (inject_interrupt (wrap8 (icw2 + PIC_UART1_IRQ))))
   else mret tt) ;;
  mret rc.
Definition dev_uart_iir (io : io_insn) : M dstate vm_code :=
  rc ← reg_io io u_iir uart_iir;
  u ← gets d_uart;
  when (io_in io && negb (bit (u_iir u) 0)) (modify (set_uart (uart_iir (set_bits (u_iir u) 0 1 1) u))) ;;
  mret rc.
Definition dev_uart_fcr (io : io_insn) : M dstate vm_code := reg_io io u_fcr uart_fcr.
Definition dev_uart_lcr (io : io_insn) : M dstate vm_code := reg_io io u_lcr uart_lcr.
Definition dev_uart_mcr (io : io_insn) : M dstate vm_code := reg_io io u_mcr uart_mcr.
Definition dev_uart_msr (io : io_insn) : M dstate vm_code := reg_io io u_msr uart_msr.
Definition dev_uart_scr (io : io_insn) : M dstate vm_code := reg_io io u_scr uart_scr.

Definition dev_uart (fuel : nat) (io : io_insn) : M dstate vm_code :=
  u ← gets d_uart;
  let base := u_base u in
  if io_port io <=? base + 1 then
    if bit (u_lcr u) 7 then dev_uart_dla io
    else if io_port io =? base then dev_uart_xfr fuel io
    else dev_uart_ier io
  else if io_port io =? base + 2 then if io_in io then dev_uart_iir io else dev_uart_fcr io
  else if io_port io =? base + 3 then dev_uart_lcr io
  else if io_port io =? base + 4 then dev_uart_mcr io
  else if (io_port io =? base + 5) && io_in io then dev_uart_lsr io
  else if (io_port io =? base + 6) && io_in io then dev_uart_msr io
  else if io_port io =? base + 7 then dev_uart_scr io
  else mret VM_FAIL.

(** ** Disk (ata.c) *)

Definition ata_slave (a : ata_t) : bool := bit (a_dev_head a) 4.
Definition ATA_CMD_REG (base : Z) : Z := base + 7.
Definition ATA_DEVICE_REG (base : Z) : Z := base + 6.

Definition dev_ata_device (io : io_insn) : M dstate vm_code :=
  if io_in io then dev_io_proxify io
  else if 1 <? wrap64 (io_sz io * io_cnt io) then mret VM_FAIL
  else
    r ← dev_io_insn io [hrd_undef] 1;
    if negb (bool_decide (r.1.1 = VM_DONE)) then mret r.1.1
    else
      modify (fun s => set_ata (ata_dev_head (nth 0 r.1.2 0) (d_ata s)) s) ;;
      r ← dev_io_native io r.1.2; mret r.1.

Definition fake_ata_status : M dstate vm_code :=
  a ← gets d_ata;
  if a_last_out a =? ATA_CMD_REG (a_base a) then put_al 1 ;; mret VM_DONE
  else if a_last_out a =? ATA_DEVICE_REG (a_base a) then put_al 0 ;; mret VM_DONE
  else mret VM_FAIL.
Definition dev_ata_status (io : io_insn) : M dstate vm_code :=
  rm ← on_m is_rmode; a ← gets d_ata;
  if negb rm && ata_slave a then fake_ata_status else dev_io_proxify io.
Definition dev_ata_alt_status (io : io_insn) : M dstate vm_code :=
  rm ← on_m is_rmode; a ← gets d_ata;
  if negb rm && ata_slave a then fake_ata_status else dev_io_proxify io.

Definition dev_ata_data (io : io_insn) : M dstate vm_code :=
  a ← gets d_ata;
  if negb (ata_rw (a_cmd a)) then dev_io_proxify io
  else
    rc ← dev_io_proxify io;
    when (bool_decide (rc = VM_DONE))
      (modify (fun s => set_ata (ata_disk (wrap16 (a_cnt (d_ata s) - 1)) (wrap32 (a_lba (d_ata s) + 1)) (d_ata s)) s)) ;;
    mret rc.

Definition dev_ata (io : io_insn) : M dstate vm_code :=
  when (negb (io_in io)) (modify (fun s => set_ata (ata_last_out (io_port io) (d_ata s)) s)) ;;
  base ← gets (fun s => a_base (d_ata s));
  if io_port io =? base + 7 then
    if io_in io then dev_ata_status io else dev_io_proxify_filter io (Some F_ata_cmd)
  else if io_port io =? base + 0x206 then
    if io_in io then dev_ata_alt_status io else dev_io_proxify io
  else if io_port io =? base + 6 then dev_ata_device io
  else if io_port io =? base then dev_ata_data io
  else if io_port io =? base + 2 then dev_io_proxify_filter io (Some F_ata_scnt)
  else if (io_port io =? base + 3) || (io_port io =? base + 4) || (io_port io =? base + 5) then
    dev_io_proxify_filter io (Some F_ata_lba)
  else dev_io_proxify io.

(** ** Super io and pci (sio.c, pci.c) *)

Definition dev_sio (io : io_insn) : M dstate vm_code :=
  (if io_port io =? SIO_INDEX then modify (set_sio_flt (Some F_sio_index))
   else if io_port io =? SIO_DATA then mret tt else modify (set_sio_flt None)) ;;
  f ← gets d_sio_flt; dev_io_proxify_filter io f.

Definition dev_pci (io : io_insn) : M dstate vm_code :=
  (if io_port io =? PCI_CONFIG_ADDR then modify (set_pci_flt (Some F_pci_addr))
   else if io_port io =? PCI_CONFIG_DATA then mret tt else modify (set_pci_flt None)) ;;
  f ← gets d_pci_flt; dev_io_proxify_filter io f.

(** ** Power management (acpi.c, common/drivers/acpi.c) *)

Definition acpi_facs_wake_vector : M mach (option Z) :=
  m ← gets m_mem;
  mret (if c_true (rd64 m (hrd_facs + 24)) then None
        else if negb (c_true (Words.rd32 m (hrd_facs + 12))) then None
        else Some (Words.rd32 m (hrd_facs + 12))).

Definition VMX_CODE_16_R0_CO_ATTR : Z := 0x809f.

(** The vector is 32 bits wide, the selector gets what is left of it. *)
Definition acpi_wake_up : M mach vm_code :=
  v ← acpi_facs_wake_vector;
  match v with
  | None => mret VM_FAIL
  | Some vector =>
      _ ← resolve_cr0_wr ar max_paddr 0x30;
      putf st_cs_limit 0xffff ;; post_access st_cs_limit ;;
      putf st_cs_attributes VMX_CODE_16_R0_CO_ATTR ;; post_access st_cs_attributes ;;
      put_fld st_rflags 1 1 1 ;; put_fld st_rflags RFLAGS_IF_BIT 1 0 ;; post_access st_rflags ;;
      putf st_rip (Z.land vector 0xf) ;; post_access st_rip ;;
      putf st_cs_selector (wrap16 (Z.shiftr vector 4)) ;; post_access st_cs_selector ;;
      sel ← getf st_cs_selector;
      putf st_cs_base (Z.shiftl sel 4) ;; post_access st_cs_base ;;
      mret VM_DONE_LET_RIP
  end.

Definition dev_acpi_pm1_ctl (io : io_insn) : M dstate vm_code :=
  let reg := [hrd_undef; hrd_undef] in
  if io_in io then
    r ← dev_io_native io reg;
    if negb (bool_decide (r.1 = VM_DONE)) then mret r.1
    else r ← dev_io_insn io r.2 2; mret r.1.1
  else
    r ← dev_io_insn io reg 2;
    if negb (bool_decide (r.1.1 = VM_DONE)) then mret r.1.1
    else
      let v := le_word r.1.2 in
      if bit v 13 && (bits v 10 3 =? hrd_s3) then on_m (call CTRL_EVT_SUSPEND ;; acpi_wake_up)
      else r ← dev_io_native io r.1.2; mret r.1.

(** ** The devices at the start of the vm (setup/src/core/vm.c)

    The unmapping of the card's registers is the mapper's. *)

Definition DFLT_PIC1_ICW2 : Z := 8.
Definition vm_dev_init (s : dstate) : dstate :=
  let m := with_a20 1 (d_m s) in
  let m := deny_io_range PIC1_START_PORT PIC1_END_PORT m in
  let m := deny_io_range COM1_START_PORT COM1_END_PORT m in
  let m := deny_io PS2_SYS_CTRL_PORT_A (deny_io_range KBD_START_PORT KBD_END_PORT m) in
  let m := if cfg_net || cfg_ehci_2nd then deny_io PCI_CONFIG_ADDR m else m in
  let m := deny_io hrd_pm1_ctl_port (deny_io SIO_INDEX m) in
  set_icw2 DFLT_PIC1_ICW2 (set_ata (dev_ata_init ATA1_START_PORT (d_ata s))
    (set_uart (dev_uart_init COM1_START_PORT (d_uart s)) (set_kbd (dev_kbd_init (d_kbd s)) (set_m m s)))).

(** ** Dispatch (core/device.c) *)

Definition dev_dispatch (fuel : nat) (io : io_insn) : M dstate vm_code :=
  let p := io_port io in
  if (cfg_net || cfg_ehci_2nd) && ((p =? PCI_CONFIG_ADDR) || (p =? PCI_CONFIG_DATA)) then dev_pci io
  else if (p =? SIO_INDEX) || (p =? SIO_DATA) then dev_sio io
  else if p =? hrd_pm1_ctl_port then dev_acpi_pm1_ctl io
  else if p =? PS2_SYS_CTRL_PORT_A then dev_ps2 io
  else if in_range p KBD_START_PORT KBD_END_PORT then dev_kbd io
  else if in_range p COM1_START_PORT COM1_END_PORT then dev_uart fuel io
  else if in_range p ATA1_START_PORT ATA1_END_PORT || (p =? ATA1_CTRL_PORT) then dev_ata io
  else dev_io_proxify io.

(** ** The exit (vmm/src/vmx/vmx_exit_io.c) *)

Definition io_addr_size (mode : Z) (pfx : bool) : Z :=
  if mode =? 64 then (if pfx then 2 else 4) else if mode =? 32 then (if pfx then 1 else 2) else (if pfx then 2 else 1).

(** The address size and the segment of a string instruction. *)
Definition vmx_io_str_info (in_ : bool) : M dstate (vm_code * (Z * Z)) :=
  if cfg_ext_io then
    on_m (pre_access info_insn_info) ;; i ← on_m (getf info_insn_info);
    mret (VM_DONE, (bits (Z.shiftl 1 (bits i 7 3)) 0 3, bits i 15 3))
  else
    d ← gets (fun s => hrd_disasm (d_m s));
    mret (d.1, (io_addr_size (uds_mode d.2) (uds_pfx_adr d.2),
                match uds_pfx_seg d.2 with Some g => bits g 0 3 | None => if in_ then 0 else 3 end)).

Definition vmx_io_init : M dstate (vm_code * io_insn) :=
  on_m (pre_access info_qualification) ;;
  q ← on_m (getf info_qualification);
  let in_ := bit q 3 in let s := bit q 4 in let sz := bits (bits q 0 3 + 1) 0 3 in let rep := bit q 5 in
  let port := bits q 16 16 in
  if negb (io_size_ok sz) then mret (VM_FAIL, mk_io in_ s sz 0 0 false rep port 0 0)
  else if negb s then mret (VM_DONE, mk_io in_ s sz 0 0 false rep port 0 1)
  else
    on_m (pre_access info_guest_linear) ;;
    d ← vmx_io_str_info in_;
    if negb (bool_decide (d.1 = VM_DONE)) then mret (d.1, mk_io in_ s sz 0 0 false rep port 0 0)
    else if 5 <? d.2.2 then mret (VM_FAIL, mk_io in_ s sz d.2.1 d.2.2 false rep port 0 0)
    else
      fl ← on_m (getf st_rflags); rcx ← on_m (get_gpr GPR64_RCX);
      let msk := Z.shiftr (Z.ones 64) (64 - 16 * d.2.1) in
      mret (VM_DONE, mk_io in_ s sz d.2.1 d.2.2 (bit fl RFLAGS_DF_BIT) rep port msk
                       (if rep then Z.land rcx msk else 1)).

Definition dev_access (fuel : nat) : M dstate vm_code :=
  r ← vmx_io_init;
  if negb (bool_decide (r.1 = VM_DONE)) then mret r.1 else dev_dispatch fuel r.2.

Definition vmx_vmexit_resolve_io (fuel : nat) : M dstate vm_code :=
  rc ← dev_access fuel;
  if negb (bool_decide (rc = VM_DONE)) then mret rc
  else
    on_m (pre_access info_insn_len) ;;
    n ← on_m (getf info_insn_len); on_m (emulate_done VM_DONE n).
End devices.
