(* ===== verification/DevSem.v ===== *)
(** * What the vm gets from a forwarded access (vmm/src/devices/io.c)

    A string instruction of the vm on an intercepted port moves exactly the
    bytes the machine's device gives, or takes, and leaves the vm's registers
    as the processor would. *)

From S2P Require Import Prelude.
From S2P Require Import Monad.
From S2P Require Import Pagemem.
From S2P Require Import Walk.
From S2P Require Import Vm.
From S2P Require Import VmMem.
From S2P Require Import Words.
From S2P Require Import Vmcs.
From S2P Require Import Machine.
From S2P Require Import Cpu.
From S2P Require Import Dev.
From S2P Require Import DevHdl.

(** ** Runs of accesses to a port *)

Section ports.
Context {Hw : Hrd}.

(** The values [n] reads of the port give, from the accesses made so far. *)
Fixpoint ins_vals (sz port : Z) (n : nat) (h : list io_evt) : list Z :=
  match n with
  | O => []
  | S n => let v := bits (hw_in h sz port) 0 (8 * sz) in v :: ins_vals sz port n (IO_IN sz port v :: h)
  end.
(** The units of [sz] bytes of a buffer. *)
Fixpoint units (sz : Z) (n : nat) (data : bytes) : list Z :=
  match n with
  | O => []
  | S n => le_word (take (Z.to_nat sz) data) :: units sz n (drop (Z.to_nat sz) data)
  end.
Definition ins_bytes (sz port : Z) (n : nat) (h : list io_evt) : bytes :=
  concat (le_bytes sz <$> ins_vals sz port n h).

Lemma length_ins_bytes sz port n h : 0 <= sz -> length (ins_bytes sz port n h) = (n * Z.to_nat sz)%nat.
Proof.
  intros Hsz. unfold ins_bytes. revert h. induction n as [|n IH]; intros h; cbn [ins_vals fmap list_fmap concat]; [done|].
  rewrite length_app, length_le_bytes, IH. lia.
Qed.

Lemma rep_ins_run sz port n s : rep_ins sz port n s =
  Some (ins_bytes sz port n (d_hist s), set_hist (rev (IO_IN sz port <$> ins_vals sz port n (d_hist s)) ++ d_hist s) s).
Proof.
  unfold ins_bytes. revert s. induction n as [|n IH]; intros s; cbn [rep_ins ins_vals]; [by destruct s|].
  unfold port_in, mbind, M_bind, gets, modify, mret, M_ret. rewrite IH. cbn [d_hist set_hist fmap list_fmap rev concat].
  by rewrite <- app_assoc.
Qed.
Lemma rep_outs_run sz port n data s : rep_outs sz port n data s =
  Some (tt, set_hist (rev (IO_OUT sz port <$> units sz n data) ++ d_hist s) s).
Proof.
  revert data s. induction n as [|n IH]; intros data s; cbn [rep_outs units]; [by destruct s|].
  unfold port_out, mbind, M_bind, modify. rewrite IH. cbn [d_hist set_hist fmap list_fmap rev].
  by rewrite <- app_assoc.
Qed.
Lemma wp_rep_ins sz port n s (Q : bytes -> dstate -> Prop) :
  Q (ins_bytes sz port n (d_hist s)) (set_hist (rev (IO_IN sz port <$> ins_vals sz port n (d_hist s)) ++ d_hist s) s) ->
  wp (rep_ins sz port n) s Q.
Proof. unfold wp. by rewrite rep_ins_run. Qed.
Lemma wp_rep_outs sz port n data s (Q : unit -> dstate -> Prop) :
  Q tt (set_hist (rev (IO_OUT sz port <$> units sz n data) ++ d_hist s) s) -> wp (rep_outs sz port n data) s Q.
Proof. unfold wp. by rewrite rep_outs_run. Qed.
End ports.

Lemma units_buf sz n data got : 0 < sz -> (n * Z.to_nat sz <= length got)%nat -> units sz n (buf_put data got) = units sz n got.
Proof.
  unfold buf_put. generalize (drop (length got) data). intros rest Hsz. revert got.
  induction n as [|n IH]; intros got Hl; cbn [units]; [done|]. rewrite take_app_le, drop_app_le by lia.
  rewrite IH; [done|]. rewrite length_drop. lia.
Qed.

Lemma buf_put_all data got : length got = length data -> buf_put data got = got.
Proof. intros H. unfold buf_put. rewrite H, drop_all. by rewrite app_nil_r. Qed.
Lemma length_buf_put data got : (length got <= length data)%nat -> length (buf_put data got) = length data.
Proof. intros H. unfold buf_put. rewrite length_app, length_drop. lia. Qed.
Lemma take_buf_put data got : take (length got) (buf_put data got) = got.
Proof. unfold buf_put. by rewrite take_app_length. Qed.

(** ** The registers of a string instruction *)

Definition addr_ok (io : io_insn) : Prop :=
  (io_addr io = 1 \/ io_addr io = 2 \/ io_addr io = 4) /\ io_msk io = Z.ones (16 * io_addr io).

(** An index that does not go past the address size moves by what was done. *)
Lemma str_update_fwd io r d : addr_ok io -> io_back io = false -> fits 64 r -> 0 <= d ->
  Z.land r (io_msk io) + d < 2 ^ (16 * io_addr io) -> str_update io r d = r + d.
Proof.
  intros [Ha Hm] Hb Hr Hd Hlt. unfold str_update. rewrite Hb, Hm in *.
  set (w := 16 * io_addr io) in *. assert (0 <= w <= 64) as Hw by (unfold w; lia).
  rewrite !Z.land_ones in * by lia.
  pose proof (Z.mod_pos_bound r (2 ^ w) ltac:(apply Z.pow_pos_nonneg; lia)) as Hlo.
  rewrite (Z.mod_small d) by lia.
  assert (2 ^ w <= 2 ^ 64) by (apply Z.pow_le_mono_r; lia).
  rewrite (wrap_id 64) by (split; lia).
  replace (Z.ldiff r (Z.ones w)) with (Z.shiftl (r / 2 ^ w) w).
  2: { rewrite Z.ldiff_ones_r by lia. by rewrite Z.shiftr_div_pow2 by lia. }
  rewrite (Z.lor_comm), lor_shiftl_add by (try lia; split; lia).
  pose proof (Z.div_mod r (2 ^ w) ltac:(lia)). lia.
Qed.

(** ** Symbolic execution of the handlers *)

Lemma set_m_same s : set_m (d_m s) s = s.
Proof. by destruct s. Qed.
Lemma wp_on_m {A} (m : M mach A) s Q : wp (on_m m) s Q <-> wp m (d_m s) (fun x m' => Q x (set_m m' s)).
Proof. apply wp_zoom. Qed.
Lemma wp_on_get {A} (f : mach -> A) s Q : wp (on_m (gets f)) s Q <-> Q (f (d_m s)) s.
Proof. rewrite wp_on_m, wp_gets. by rewrite set_m_same. Qed.
Lemma wp_on_put f s Q : wp (on_m (modify f)) s Q <-> Q tt (set_m (f (d_m s)) s).
Proof. by rewrite wp_on_m, wp_modify. Qed.

Lemma wp_done (m : M dstate vm_code) (P : dstate -> Prop) s :
  wp m s (fun rc s' => rc = VM_DONE /\ P s') -> exists s', m s = Some (VM_DONE, s') /\ P s'.
Proof. intros H. apply wp_exists in H as (rc & s' & Hrun & -> & Hs'). by exists s'. Qed.

Definition gpr_put (r v : Z) (s : mach) : mach := with_gpr (fun r' => if decide (r = r') then v else m_gpr s r') s.

Lemma wp_on_put_fld r lo w v s (Q : unit -> dstate -> Prop) :
  Q tt (set_m (gpr_put r (set_bits (m_gpr (d_m s) r) lo w v) (d_m s)) s) -> wp (on_m (put_gpr_fld r lo w v)) s Q.
Proof. intros HQ. apply wp_on_m. exact HQ. Qed.
Lemma wp_on_put_al v s (Q : unit -> dstate -> Prop) :
  Q tt (set_m (gpr_put GPR64_RAX (set_bits (m_gpr (d_m s) GPR64_RAX) 0 8 v) (d_m s)) s) -> wp (put_al v) s Q.
Proof. apply wp_on_put_fld. Qed.

Ltac dstep :=
  lazymatch goal with
  | |- wp (mret _) _ _ => apply wp_ret
  | |- wp (_ ≫= _) _ _ => apply wp_bind
  | |- wp (gets _) _ _ => apply wp_gets
  | |- wp (modify _) _ _ => apply wp_modify
  | |- wp (when _ _) _ _ => apply wp_when
  | |- wp (on_m (get_gpr _)) _ _ => apply wp_on_get
  | |- wp (on_m (getf _)) _ _ => apply wp_on_get
  | |- wp (on_m (gets _)) _ _ => apply wp_on_get
  | |- wp (on_m (modify _)) _ _ => apply wp_on_put
  | |- wp (on_m (put_gpr ?r ?v)) _ _ => apply (wp_on_put (gpr_put r v))
  | |- wp (on_m (call _)) _ _ => apply wp_on_put
  | |- wp (put_al _) _ _ => apply wp_on_put_al
  | |- wp (on_m (put_gpr_fld _ _ _ _)) _ _ => apply wp_on_put_fld
  end.
Ltac dsteps := repeat (dstep; cbv beta).

Lemma with_mem_same s : with_mem (m_mem s) s = s.
Proof. by destruct s. Qed.

Section transfer.
Context {V : Vmx} {Hw : Hrd} (ar : area_t).

(** The range the vm asks for reaches its memory: each byte [i] is at [pa i],
    that the tables of the vm give if it has paging, with the rights the access
    needs and out of the area of the vmm; a write changes none of these tables. *)
Definition vm_reaches (s : mach) (wr : bool) (linear len : Z) (pa : Z -> Z) : Prop :=
  let c := vm_cpu_of ar s in
  if wr then steady c (vcr3 c) VM_ACC_REQ_VM true (m_mem s) linear len pa
  else reaches c (vcr3 c) VM_ACC_REQ_VM false (m_mem s) linear len pa.

Lemma vm_reaches_unpaged s wr linear len : cr0_pg (vm_cpu_of ar s) = false -> vm_range ar linear len ->
  vm_reaches s wr linear len (fun i => linear + i).
Proof.
  intros Hpg Hr. pose proof (steady_unpaged (vm_cpu_of ar s) (vcr3 (vm_cpu_of ar s)) VM_ACC_REQ_VM wr (m_mem s) linear len Hpg Hr) as H.
  destruct wr; [exact H|]. by apply steady_reaches.
Qed.

(** The accesses to the memory of the vm. *)
Lemma wp_vm_write s dst data n pa (Q : vm_code * vm_access -> mach -> Prop) :
  vm_reaches s true dst n pa -> 0 < n -> 0 <= dst -> dst + n <= 2 ^ 64 -> n <= Z.of_nat (length data) ->
  (forall ac, va_done ac = n -> Q (VM_DONE, ac) (with_mem (scatter (m_mem s) pa 0 (take (Z.to_nat n) data)) s)) ->
  wp (vm_mem ar (fun c => vm_write_mem_sz c dst data n)) s Q.
Proof.
  intros Hr Hn Ha He Hd HQ. unfold wp, vm_mem, vm_write_mem_sz, vm_access_linear.
  destruct (write_reached _ _ VM_ACC_REQ_VM dst n data pa (mk_vmst (m_mem s) [] [] []) Ha Hn He Hd Hr) as (ac & -> & Hac).
  cbn. by apply HQ.
Qed.
Lemma wp_vm_read s src data n pa (Q : vm_code * vm_access -> mach -> Prop) :
  vm_reaches s false src n pa -> 0 < n -> 0 <= src -> src + n <= 2 ^ 64 -> n <= Z.of_nat (length data) ->
  (forall ac, va_done ac = n -> va_data ac = buf_put data (gather (m_mem s) pa n) -> Q (VM_DONE, ac) s) ->
  wp (vm_mem ar (fun c => vm_read_mem_sz c src data n)) s Q.
Proof.
  intros Hr Hn Ha He Hd HQ. unfold wp, vm_mem, vm_read_mem_sz, vm_access_linear.
  destruct (read_reached _ _ VM_ACC_REQ_VM src n data pa (mk_vmst (m_mem s) [] [] []) Ha Hn He Hd Hr) as (ac & -> & Hac & Hda).
  cbn. rewrite with_mem_same. apply HQ; [done|]. rewrite Hda. unfold buf_put. by rewrite length_gather.
Qed.

(** Nothing is done for no byte. *)
Lemma wp_vm_write_none s dst data (Q : vm_code * vm_access -> mach -> Prop) :
  (forall ac, va_done ac = 0 -> Q (VM_DONE, ac) s) -> wp (vm_mem ar (fun c => vm_write_mem_sz c dst data 0)) s Q.
Proof.
  intros HQ. unfold wp, vm_mem, vm_write_mem_sz, vm_access_linear, vm_access_virtual.
  change (Z.to_nat _) with 0%nat.
  destruct (negb (cr0_pg (vm_cpu_of ar s))); cbn; rewrite with_mem_same; by apply HQ.
Qed.

(** A string instruction the vmm can forward: its count, its size, and the
    range of the vm it works on, whose bytes are at [pa]. *)
Record str_ok (io : io_insn) (s : dstate) (n : nat) (reg linear : Z) (pa : Z -> Z) : Prop := {
  so_str : io_s io = true;
  so_fwd : io_back io = false;
  so_size : io_size_ok (io_sz io) = true;
  so_addr : addr_ok io;
  so_cnt : io_cnt io = Z.of_nat n;
  so_some : (0 < n)%nat;
  so_rep : Z.of_nat n = if io_rep io then Z.land (m_gpr (d_m s) GPR64_RCX) (io_msk io) else 1;
  so_fit : Z.of_nat n * io_sz io <= VMM_IO_POOL_SZ;
  so_pool : Z.of_nat (length (d_pool s)) = VMM_IO_POOL_SZ;
  so_lin : val (m_vmcs (d_m s)) info_guest_linear = linear;
  so_reaches : vm_reaches (d_m s) (io_in io) linear (Z.of_nat n * io_sz io) pa;
  so_low : 0 <= linear;
  so_high : linear + Z.of_nat n * io_sz io <= 2 ^ 64;
  so_reg : fits 64 (m_gpr (d_m s) reg);
  so_idx : Z.land (m_gpr (d_m s) reg) (io_msk io) + Z.of_nat n * io_sz io < 2 ^ (16 * io_addr io);
}.

(** The registers after [n] units: the index moved, the counter down to zero. *)
Definition str_regs (io : io_insn) (reg : Z) (n : nat) (g : Z -> Z) : Z -> Z := fun r =>
  if decide (reg = r) then g r + Z.of_nat n * io_sz io
  else if decide (GPR64_RCX = r) then if io_rep io then Z.ldiff (g r) (io_msk io) else g r
  else g r.

Lemma size_bounds io : io_size_ok (io_sz io) = true -> 1 <= io_sz io <= 4.
Proof. unfold io_size_ok. rewrite !orb_true_iff, !Z.eqb_eq. lia. Qed.

(** The sizes once everything was moved. *)
Lemma size_moved_all n : 0 <= n -> size_moved n (mk_io_size n 0 n) = mk_io_size 0 n 0.
Proof. intros Hn. unfold size_moved. cbn. by rewrite Z.sub_diag, wrap_id by (split; lia). Qed.

(** The bytes a repeated instruction asks for. *)
Lemma miss_ok io s n reg linear pa : str_ok io s n reg linear pa ->
  (if io_rep io then wrap64 (io_sz io * Z.land (m_gpr (d_m s) GPR64_RCX) (io_msk io)) else io_sz io) =
    Z.of_nat n * io_sz io.
Proof.
  intros []. pose proof (size_bounds io so_size0). destruct (io_rep io); rewrite <- ?so_rep0; [|lia].
  change VMM_IO_POOL_SZ with 16384 in *. rewrite (Z.mul_comm (io_sz io)), wrap_id by (split; nia). done.
Qed.

(** The end of a string instruction. *)
Lemma wp_string_end io reg n s (r : vm_code * bytes * io_size) (Q : vm_code * bytes * io_size -> dstate -> Prop) g :
  reg <> GPR64_RCX -> io_size_ok (io_sz io) = true -> z_miss r.2 = 0 ->
  m_gpr (d_m s) = m_gpr (gpr_put reg (g reg + Z.of_nat n * io_sz io) (with_gpr g (d_m s))) ->
  (forall s', m_mem (d_m s') = m_mem (d_m s) -> d_hist s' = d_hist s -> d_pool s' = d_pool s ->
     d_con s' = d_con s -> d_uart s' = d_uart s -> m_vmcs (d_m s') = m_vmcs (d_m s) ->
     (forall x, m_gpr (d_m s') x = str_regs io reg n g x) -> Q r s') ->
  if io_rep io then
    wp (rcx ← on_m (get_gpr GPR64_RCX);
        on_m (put_gpr GPR64_RCX (Z.lor (Z.ldiff rcx (io_msk io)) (Z.land (z_miss r.2 / io_sz io) (io_msk io)))))
      s (fun _ s' => wp (mret r) s' Q)
  else wp (mret r) s Q.
Proof.
  intros Hreg Hsz Hm Hg HQ. pose proof (size_bounds io Hsz).
  destruct (io_rep io) eqn:Er; dsteps; rewrite ?Hm, ?Z.div_0_l, ?Z.land_0_l, ?Z.lor_0_r by lia;
    apply HQ; try done; intros x; unfold str_regs; cbn [m_gpr d_m set_m gpr_put with_gpr];
    rewrite Hg, ?Er; cbn [m_gpr gpr_put with_gpr]; repeat case_decide; congruence.
Qed.

(** The memory side of a repeated instruction, from a buffer that holds what
    the device gave. *)
Lemma wp_string_in io s n linear pa data Q : str_ok io s n GPR64_RDI linear pa -> io_in io = true ->
  (length data >= n * Z.to_nat (io_sz io))%nat ->
  (forall s', m_mem (d_m s') = scatter (m_mem (d_m s)) pa 0 (take (n * Z.to_nat (io_sz io)) data) ->
     d_hist s' = d_hist s -> d_pool s' = d_pool s -> d_con s' = d_con s -> d_uart s' = d_uart s ->
     m_vmcs (d_m s') = m_vmcs (d_m s) ->
     (forall r, m_gpr (d_m s') r = str_regs io GPR64_RDI n (m_gpr (d_m s)) r) ->
     Q (VM_DONE, data, mk_io_size 0 (Z.of_nat n * io_sz io) 0) s') ->
  wp (dev_io_insn ar io data (Z.of_nat n * io_sz io)) s Q.
Proof.
  intros Hok Hin Hl HQ. pose proof (miss_ok io s n _ _ _ Hok) as Hm. destruct Hok.
  pose proof (size_bounds io so_size0) as Hsz.
  unfold dev_io_insn. rewrite so_str0. unfold io_insn_string. dsteps. rewrite Hin.
  cbn [z_avail z_done z_miss]. unfold io_insn_string_in. rewrite so_fwd0.
  replace (if io_rep io then _ else mk_io_size _ 0 _) with
    (mk_io_size (Z.of_nat n * io_sz io) 0 (Z.of_nat n * io_sz io)).
  2: { rewrite <- Hm. by destruct (io_rep io). }
  dsteps. cbn [z_avail z_miss]. rewrite Z.min_id, so_lin0. apply wp_on_m.
  rewrite Hin in so_reaches0. eapply wp_vm_write; [exact so_reaches0|nia|done|done|nia|].
  intros ac Hac. dsteps. cbn [fst snd]. rewrite Hac, size_moved_all by nia. cbn [z_done].
  rewrite str_update_fwd by (try done; nia).
  apply (wp_string_end io GPR64_RDI n _ (VM_DONE, data, _) _ (m_gpr (d_m s))); try done.
  intros s' H1 H2 H3 H4 H5 H6 H7. apply HQ; try done. rewrite H1. cbn [m_mem d_m set_m gpr_put with_gpr with_mem].
  do 2 f_equal. lia.
Qed.

(** A buffer of the vmm filled from the memory of the vm. *)
Lemma wp_string_out io s n linear pa data Q : str_ok io s n GPR64_RSI linear pa -> io_in io = false ->
  Z.of_nat n * io_sz io <= Z.of_nat (length data) ->
  (forall s', m_mem (d_m s') = m_mem (d_m s) ->
     d_hist s' = d_hist s -> d_pool s' = d_pool s -> d_con s' = d_con s -> d_uart s' = d_uart s ->
     m_vmcs (d_m s') = m_vmcs (d_m s) ->
     (forall r, m_gpr (d_m s') r = str_regs io GPR64_RSI n (m_gpr (d_m s)) r) ->
     Q (VM_DONE, buf_put data (gather (m_mem (d_m s)) pa (Z.of_nat n * io_sz io)),
        mk_io_size 0 (Z.of_nat n * io_sz io) 0) s') ->
  wp (dev_io_insn ar io data (Z.of_nat n * io_sz io)) s Q.
Proof.
  intros Hok Hin Hl HQ. pose proof (miss_ok io s n _ _ _ Hok) as Hm. destruct Hok.
  pose proof (size_bounds io so_size0) as Hsz.
  unfold dev_io_insn. rewrite so_str0. unfold io_insn_string. dsteps. rewrite Hin.
  cbn [z_avail z_done z_miss]. unfold io_insn_string_out. rewrite so_fwd0.
  replace (if io_rep io then _ else mk_io_size _ 0 _) with
    (mk_io_size (Z.of_nat n * io_sz io) 0 (Z.of_nat n * io_sz io)).
  2: { rewrite <- Hm. by destruct (io_rep io). }
  dsteps. cbn [z_avail z_miss]. rewrite Z.min_id, so_lin0. apply wp_on_m.
  rewrite Hin in so_reaches0. eapply wp_vm_read; [exact so_reaches0|nia|done|done|done|].
  intros ac Hac Hd. dsteps. cbn [fst snd]. rewrite Hac, Hd, size_moved_all by nia. cbn [z_done].
  rewrite str_update_fwd by (try done; nia).
  apply (wp_string_end io GPR64_RSI n _ (VM_DONE, _, _) _ (m_gpr (d_m s))); try done.
Qed.

Lemma str_ok_same io s s' n reg linear pa : str_ok io s n reg linear pa -> d_pool s' = d_pool s ->
  m_gpr (d_m s') = m_gpr (d_m s) -> m_vmcs (d_m s') = m_vmcs (d_m s) -> m_mem (d_m s') = m_mem (d_m s) ->
  m_efer (d_m s') = m_efer (d_m s) -> str_ok io s' n reg linear pa.
Proof.
  intros [] Hp Hg Hv Hm He. constructor; rewrite ?Hp, ?Hg, ?Hv; try done.
  unfold vm_reaches, vm_cpu_of. by rewrite Hm, He, Hv.
Qed.

Lemma avail_ok io s n reg linear pa : str_ok io s n reg linear pa ->
  wrap64 (io_sz io * io_cnt io) = Z.of_nat n * io_sz io /\ Z.of_nat n * io_sz io <= VMM_IO_POOL_SZ.
Proof.
  intros []. pose proof (size_bounds io so_size0). change VMM_IO_POOL_SZ with 16384 in *.
  split; [|done]. rewrite so_cnt0, Z.mul_comm. by apply wrap_id; split; nia.
Qed.

Lemma in_buffer_ok n data : n <= Z.of_nat (length data) -> in_buffer n data = mret tt.
Proof. intros H. unfold in_buffer. by rewrite (proj2 (Z.leb_le _ _)). Qed.

Lemma pool_room io s n reg linear pa : str_ok io s n reg linear pa -> (n * Z.to_nat (io_sz io) <= length (d_pool s))%nat.
Proof. intros []. pose proof (size_bounds io so_size0). nia. Qed.

(** C13: a forwarded string input: the machine is read once per unit, in order;
    the memory of the vm gets these units from the destination of the
    instruction, the index moves past them and the counter is zero; the
    access is done.  The access ([str_ok]) goes forward, has at least one unit
    and fits the buffer of the vmm; each of its bytes reaches a byte of the
    memory of the vm, through its tables and with its rights if it has paging,
    out of these tables and of the area of the vmm; and its index does not pass
    the end of its address size. *)
Theorem proxy_ins_transfers io s n linear pa : str_ok io s n GPR64_RDI linear pa -> io_in io = true ->
  exists s', dev_io_proxify ar io s = Some (VM_DONE, s') /\
    m_mem (d_m s') = scatter (m_mem (d_m s)) pa 0 (ins_bytes (io_sz io) (io_port io) n (d_hist s)) /\
    d_hist s' = rev (IO_IN (io_sz io) (io_port io) <$> ins_vals (io_sz io) (io_port io) n (d_hist s)) ++ d_hist s /\
    (forall r, m_gpr (d_m s') r = str_regs io GPR64_RDI n (m_gpr (d_m s)) r) /\
    Z.of_nat (length (d_pool s')) = VMM_IO_POOL_SZ.
Proof.
  intros Hok Hin. destruct (avail_ok _ _ _ _ _ _ Hok) as [Ea Hfit]. pose proof (pool_room _ _ _ _ _ _ Hok) as Hroom.
  pose proof (size_bounds io (so_size _ _ _ _ _ _ Hok)) as Hsz.
  apply (wp_done _ (fun s' => m_mem (d_m s') = scatter (m_mem (d_m s)) pa 0 (ins_bytes (io_sz io) (io_port io) n (d_hist s)) /\
    d_hist s' = rev (IO_IN (io_sz io) (io_port io) <$> ins_vals (io_sz io) (io_port io) n (d_hist s)) ++ d_hist s /\
    (forall r, m_gpr (d_m s') r = str_regs io GPR64_RDI n (m_gpr (d_m s)) r) /\
    Z.of_nat (length (d_pool s')) = VMM_IO_POOL_SZ)).
  pose proof (length_ins_bytes (io_sz io) (io_port io) n (d_hist s) ltac:(lia)) as Hlen.
  unfold dev_io_proxify, dev_io_proxify_filter. rewrite Ea, (proj2 (Z.ltb_ge _ _)), Hin by done.
  unfold dev_io_proxy_filter_in, dev_io_native, io_string_native.
  rewrite (so_str _ _ _ _ _ _ Hok), (so_fwd _ _ _ _ _ _ Hok), Hin, (so_cnt _ _ _ _ _ _ Hok).
  dsteps. rewrite in_buffer_ok by nia. dsteps. rewrite Nat2Z.id. apply wp_rep_ins. dsteps.
  cbn [fst snd d_hist set_m]. rewrite bool_decide_eq_true_2 by done. cbn [negb]. dsteps.
  change (failed (VM_DONE, _).1) with false. cbv iota. dsteps.
  eapply wp_string_in; [by eapply str_ok_same; [exact Hok|..]|done|cbn [snd]; rewrite length_buf_put; lia|].
  intros s' H1 H2 H3 H4 H5 H6 H7. dsteps. cbn [fst snd d_m set_pool d_hist d_pool]. split_and!; try done.
  - rewrite H1. cbn [d_m set_hist set_m m_mem with_emu_done]. f_equal. rewrite <- Hlen. apply take_buf_put.
  - rewrite length_buf_put by lia. apply Hok.
Qed.

(** C14: a forwarded string output: the units of the memory of the vm, from the
    source of the instruction, are sent to the port in order; the index and
    the counter are those of the processor, the memory is left alone.  The
    access is as for an input ([str_ok]: forward, not empty, within the buffer,
    its bytes reached in the memory of the vm with or without paging, the index
    within its address size), and its port is none of the first interrupt
    controller, which the vmm watches. *)
Theorem proxy_outs_transfers io s n linear pa : str_ok io s n GPR64_RSI linear pa -> io_in io = false ->
  ~ PIC1_START_PORT <= io_port io <= PIC1_END_PORT ->
  exists s', dev_io_proxify ar io s = Some (VM_DONE, s') /\
    m_mem (d_m s') = m_mem (d_m s) /\
    d_hist s' = rev (IO_OUT (io_sz io) (io_port io) <$>
      units (io_sz io) n (gather (m_mem (d_m s)) pa (Z.of_nat n * io_sz io))) ++ d_hist s /\
    (forall r, m_gpr (d_m s') r = str_regs io GPR64_RSI n (m_gpr (d_m s)) r) /\
    Z.of_nat (length (d_pool s')) = VMM_IO_POOL_SZ.
Proof.
  intros Hok Hin Hpic. destruct (avail_ok _ _ _ _ _ _ Hok) as [Ea Hfit]. pose proof (pool_room _ _ _ _ _ _ Hok) as Hroom.
  pose proof (size_bounds io (so_size _ _ _ _ _ _ Hok)) as Hsz.
  pose proof (length_gather (m_mem (d_m s)) pa (Z.of_nat n * io_sz io)) as Hlen.
  apply (wp_done _ (fun s' => m_mem (d_m s') = m_mem (d_m s) /\
    d_hist s' = rev (IO_OUT (io_sz io) (io_port io) <$>
      units (io_sz io) n (gather (m_mem (d_m s)) pa (Z.of_nat n * io_sz io))) ++ d_hist s /\
    (forall r, m_gpr (d_m s') r = str_regs io GPR64_RSI n (m_gpr (d_m s)) r) /\
    Z.of_nat (length (d_pool s')) = VMM_IO_POOL_SZ)).
  unfold dev_io_proxify, dev_io_proxify_filter. rewrite Ea, (proj2 (Z.ltb_ge _ _)), Hin by done.
  unfold dev_io_proxy_filter_out. dsteps. eapply wp_string_out; [exact Hok|done|nia|].
  intros s1 H1 H2 H3 H4 H5 H6 H7. cbn [fst snd]. rewrite bool_decide_eq_true_2 by done. cbn [negb]. dsteps.
  change (failed (VM_DONE, _).1) with false. cbv iota. cbn [fst snd].
  rewrite bool_decide_eq_false_2 by done. cbn [negb]. unfold dev_io_native, io_string_native.
  rewrite (so_str _ _ _ _ _ _ Hok), (so_fwd _ _ _ _ _ _ Hok), Hin, (so_cnt _ _ _ _ _ _ Hok). dsteps.
  assert (forall x, io_pic_detect io x = mret tt) as Hp.
  { intros x. unfold io_pic_detect. rewrite Hin, orb_false_r.
    destruct (Z.leb_spec PIC1_START_PORT (io_port io)), (Z.leb_spec (io_port io) PIC1_END_PORT); try done. lia. }
  rewrite Hp, in_buffer_ok by (rewrite length_buf_put; nia). destruct (_ =? 1); dsteps.
  all: rewrite Nat2Z.id; apply wp_rep_outs; dsteps; cbn [fst snd d_m set_pool d_hist d_pool set_hist set_m];
    cbn [m_mem m_gpr with_emu_done];
    (split_and!; [done|by rewrite H1|rewrite units_buf, H2 by nia; done|done|rewrite length_buf_put by nia; apply Hok]).
Qed.
End transfer.

(** ** The buffer of the vmm *)

Section buffer.
Context {V : Vmx} {Hw : Hrd}.




(** An index that reaches the end of a 16-bit segment carries into the high
    half of the register. *)
Lemma str_update_carries io : io_back io = false -> io_msk io = Z.ones 16 ->
  str_update io 0xffff 1 = 0x10000.
Proof. intros Hb Hm. unfold str_update. by rewrite Hb, Hm. Qed.

(** The end of the first controller's set-up frees the keyboard's ports, the
    system control port and the super io's too. *)
Lemma pic_detect_frees io s p : io_port io = PIC1_END_PORT -> io_in io = false -> d_wait_icw2 s = true ->
  PIC1_START_PORT <= p <= PIC2_START_PORT ->
  exists s', io_pic_detect io 8 s = Some (tt, s') /\ m_io_denied (d_m s') p = false.
Proof.
  intros Hio Hin Hw' Hp.
  enough (wp (io_pic_detect io 8) s (fun _ s' => m_io_denied (d_m s') p = false)) as Hwp.
  { apply wp_exists in Hwp as ([] & s' & Hrun & Hd). by exists s'. }
  unfold io_pic_detect. rewrite Hio, Hin.
  change ((PIC1_START_PORT <=? PIC1_END_PORT) && (PIC1_END_PORT <=? PIC1_END_PORT)) with true.
  change (Z.land PIC1_END_PORT 1 =? 0) with false. cbn [negb orb]. cbv iota. dsteps. rewrite Hw'. dsteps.
  cbn [m_io_denied d_m set_m set_icw2 set_wait_icw2 allow_io_range with_io_denied].
  by rewrite access_io_range, decide_True.
Qed.
End buffer.

(** ** The card of the vmm on the pci bus (pci.c) *)

(** A double word sent to a port, or read from it. *)
Definition io_long (in_ : bool) (port : Z) : io_insn := mk_io in_ false 4 0 0 false false port 0 1.

Lemma set_high v x : fits 32 v -> set_bits v 16 16 x = bits v 0 16 + 2 ^ 16 * bits x 0 16.
Proof.
  intros Hv. pose proof (bits_fits v 0 16 ltac:(lia) ltac:(lia)) as Hb.
  rewrite (Z.mul_comm (2 ^ 16)), <- lor_shiftl_add by (try exact Hb; lia).
  unfold set_bits, bits. apply Z.bits_inj'. intros i Hi. autorewrite with zbit.
  destruct (Z.lt_ge_cases i 32) as [Hlt|Hge]; [|rewrite (fits_testbit 32 v) by done].
  all: repeat zbit_split; rewrite ?andb_true_r, ?andb_false_r, ?orb_false_r, ?Z.add_0_r; cbn; try done;
    rewrite ?Z.testbit_neg_r by lia; rewrite ?andb_true_r, ?andb_false_r, ?orb_false_r; try done; f_equal; lia.
Qed.

Section pci.
Context {V : Vmx} {Hw : Hrd} (ar : area_t).

Definition pci_card_reg (addr : Z) : bool :=
  same_function addr hrd_net_pci && ((pci_reg addr =? PCI_CFG_DEV_VDR_OFFSET) || (pci_reg addr =? PCI_CFG_CMD_STS_OFFSET)).
Definition pci_dbgp_reg (addr : Z) : bool := same_function addr hrd_dbgp_pci && (pci_reg addr =? PCI_CFG_DEV_VDR_OFFSET).
(** The registers of the bus the vmm filters. *)
Definition pci_filtered (addr : Z) : bool := (cfg_net && pci_card_reg addr) || (cfg_ehci_2nd && pci_dbgp_reg addr).
(** The identity of a card the driver of the vmm takes. *)
Definition e1000_dvd (dvd : Z) : Prop := bits dvd 0 16 = PCI_CFG_VENDOR_INTEL /\
  (bits dvd 16 16 = PCI_CFG_DEVICE_i82540EM \/ bits dvd 16 16 = PCI_CFG_DEVICE_i82545EM_C).

Lemma long_word data v : fits 32 v -> le_word (take (Z.to_nat 4) (buf_put data (le_bytes 4 v))) = v.
Proof.
  intros Hv. pose proof (take_buf_put data (le_bytes 4 v)) as Ht. rewrite length_le_bytes in Ht. rewrite Ht.
  by apply (le_word_bytes 4).
Qed.

Lemma data_port deny bm p :
  vmx_access_io deny PCI_CONFIG_DATA bm p = if p =? PCI_CONFIG_DATA then deny else bm p.
Proof. unfold vmx_access_io. case_decide; destruct (Z.eqb_spec p PCI_CONFIG_DATA); done || lia. Qed.

Lemma wp_filter_addr data addr s (Q : vm_code * bytes -> dstate -> Prop) : le_word (take (Z.to_nat 4) data) = addr ->
  (forall s', (forall p, m_io_denied (d_m s') p = if p =? PCI_CONFIG_DATA then pci_filtered addr else m_io_denied (d_m s) p) ->
     (cfg_net = true -> same_function addr hrd_net_pci = true -> pci_reg addr = PCI_CFG_DEV_VDR_OFFSET ->
        d_pci_flt s' = Some F_pci_dvd_e1000) ->
     d_hist s' = d_hist s -> d_pool s' = d_pool s -> m_gpr (d_m s') = m_gpr (d_m s) -> Q (VM_DONE, data) s') ->
  wp (dev_pci_filter_addr data) s Q.
Proof.
  intros Ha HQ. unfold dev_pci_filter_addr. change (take 4 data) with (take (Z.to_nat 4) data). rewrite Ha.
  unfold pci_filtered, pci_card_reg, pci_dbgp_reg in HQ. dsteps. unfold dev_pci_filter_e1000, dev_pci_filter_ehci.
  destruct cfg_net, (same_function addr hrd_net_pci), (Z.eqb_spec (pci_reg addr) PCI_CFG_DEV_VDR_OFFSET);
    cbn [negb andb orb] in *; dsteps; try destruct (pci_reg addr =? PCI_CFG_CMD_STS_OFFSET); dsteps;
    destruct cfg_ehci_2nd, (same_function addr hrd_dbgp_pci); cbn [negb andb orb] in *; dsteps;
    first [rewrite bool_decide_eq_true_2 by done|rewrite bool_decide_eq_false_2 by done]; cbn [negb andb orb]; cbv iota; dsteps;
    try (first [rewrite bool_decide_eq_true_2 by done|rewrite bool_decide_eq_false_2 by done]; cbv iota; dsteps);
    apply HQ; try done; intros p; apply data_port.
Qed.

(** Once the vm has written [addr] in the address register of the bus. *)
Lemma wp_pci_select s addr (Q : vm_code -> dstate -> Prop) : bits (m_gpr (d_m s) GPR64_RAX) 0 32 = addr ->
  Z.of_nat (length (d_pool s)) = VMM_IO_POOL_SZ ->
  (forall s', (forall p, m_io_denied (d_m s') p = if p =? PCI_CONFIG_DATA then pci_filtered addr else m_io_denied (d_m s) p) ->
     (cfg_net = true -> same_function addr hrd_net_pci = true -> pci_reg addr = PCI_CFG_DEV_VDR_OFFSET ->
        d_pci_flt s' = Some F_pci_dvd_e1000) ->
     d_hist s' = IO_OUT 4 PCI_CONFIG_ADDR addr :: d_hist s -> length (d_pool s') = length (d_pool s) -> Q VM_DONE s') ->
  wp (dev_pci ar (io_long false PCI_CONFIG_ADDR)) s Q.
Proof.
  intros Ha Hp HQ. assert (fits 32 addr) as Hfa by (rewrite <- Ha; by apply bits_fits).
  change VMM_IO_POOL_SZ with 16384 in Hp. set (data := buf_put (d_pool s) (le_bytes 4 addr)).
  assert (length data = length (d_pool s)) as Hl by (apply length_buf_put; rewrite length_le_bytes; lia).
  unfold dev_pci. dsteps. unfold dev_io_proxify_filter. cbn [io_port io_long].
  rewrite Z.eqb_refl. dsteps. change (VMM_IO_POOL_SZ <? wrap64 _) with false. cbv iota. cbn [io_in io_long].
  unfold dev_io_proxy_filter_out, dev_io_insn, io_insn_simple. cbn [io_s io_rep io_sz io_in io_long z_avail].
  change (wrap64 _ <? 4) with false. cbv iota. dsteps. change (negb (io_size_ok 4)) with false. cbv iota. dsteps.
  cbn [fst snd d_m set_pci_flt d_pool d_pci_flt m_gpr]. rewrite Ha. fold data.
  rewrite bool_decide_eq_true_2 by done. cbn [negb run_filter]. dsteps.
  eapply (wp_filter_addr data addr); [by apply long_word|]. intros s1 H1 H2 H3 H4 H5. dsteps.
  change (failed (VM_DONE, data).1) with false. cbv iota. cbn [fst snd].
  rewrite bool_decide_eq_false_2 by done. cbn [negb]. unfold dev_io_native, io_simple_native.
  cbn [io_s io_rep io_sz io_in io_long]. dsteps. change (negb (io_size_ok 4)) with false. cbv iota. dsteps.
  rewrite in_buffer_ok by lia. dsteps. change (4 =? 1) with false. cbv iota. unfold port_out. dsteps. apply HQ; try done.
  cbn [d_hist set_pool set_hist set_m]. rewrite H3. do 2 f_equal. by apply long_word.
Qed.

(** C16: when the vm selects a register of the bus by a 32-bit output to the
    address port, the data port is intercepted if the register is one the vmm
    filters and free if not; those are the identity and the command of its card
    and the registers of its debug port ([pci_filtered]).  When it is the identity of a card
    the vmm knows, a 32-bit read of the data port then gives the vm the vendor
    with the device number of no device.  No other port is intercepted or freed:
    nothing is hidden from the smaller accesses to the ports that follow the
    data port. *)
Theorem pci_card_hidden s addr : bits (m_gpr (d_m s) GPR64_RAX) 0 32 = addr ->
  Z.of_nat (length (d_pool s)) = VMM_IO_POOL_SZ ->
  exists s1, dev_pci ar (io_long false PCI_CONFIG_ADDR) s = Some (VM_DONE, s1) /\
    (forall p, m_io_denied (d_m s1) p = if p =? PCI_CONFIG_DATA then pci_filtered addr else m_io_denied (d_m s) p) /\
    d_hist s1 = IO_OUT 4 PCI_CONFIG_ADDR addr :: d_hist s /\
    (cfg_net = true -> same_function addr hrd_net_pci = true -> pci_reg addr = PCI_CFG_DEV_VDR_OFFSET ->
     e1000_dvd (bits (hw_in (d_hist s1) 4 PCI_CONFIG_DATA) 0 32) ->
     exists s2, dev_pci ar (io_long true PCI_CONFIG_DATA) s1 = Some (VM_DONE, s2) /\
       bits (m_gpr (d_m s2) GPR64_RAX) 0 32 = PCI_CFG_VENDOR_INTEL + 2 ^ 16 * PCI_CFG_DEVICE_INVALID).
Proof.
  intros Ha Hp. apply (wp_done _ (fun s1 => (forall p, m_io_denied (d_m s1) p = if p =? PCI_CONFIG_DATA then pci_filtered addr else m_io_denied (d_m s) p) /\
    d_hist s1 = IO_OUT 4 PCI_CONFIG_ADDR addr :: d_hist s /\ _)).
  apply (wp_pci_select s addr); [done..|]. intros s1 H1 H2 H3 H4. split_and!; [done..|]. intros Hn Hf Hr [Hv Hd].
  specialize (H2 Hn Hf Hr). set (v := bits (hw_in (d_hist s1) 4 PCI_CONFIG_DATA) 0 32) in *.
  apply (wp_done _ (fun s2 => _)). unfold dev_pci. dsteps. cbn [io_port io_long].
  change (PCI_CONFIG_DATA =? PCI_CONFIG_ADDR) with false. rewrite Z.eqb_refl. dsteps. rewrite H2.
  assert (fits 32 v) as Hfv by (by apply bits_fits). change VMM_IO_POOL_SZ with 16384 in Hp.
  unfold dev_io_proxify_filter. change (VMM_IO_POOL_SZ <? wrap64 _) with false. cbv iota. cbn [io_in io_long]. dsteps.
  unfold dev_io_proxy_filter_in, dev_io_native, io_simple_native. cbn [io_s io_rep io_sz io_in io_long io_port]. dsteps.
  change (negb (io_size_ok 4)) with false. cbv iota. dsteps. rewrite in_buffer_ok by lia. dsteps.
  unfold port_in. dsteps. cbn [d_hist set_m]. change (8 * 4) with 32. fold v. rewrite bool_decide_eq_true_2 by done.
  cbn [negb run_filter fst snd]. unfold dev_pci_filter_dvd_e1000. change (take 4) with (take (A := Z) (Z.to_nat 4)).
  rewrite long_word, Hv by done. rewrite Z.eqb_refl. cbn [negb].
  replace (_ && _) with false.
  2: { destruct Hd as [-> | ->]; reflexivity. }
  dsteps. change (failed (VM_DONE, _).1) with false. cbv iota. cbn [snd].
  unfold dev_io_insn, io_insn_simple. cbn [io_s io_rep io_sz io_in io_long z_avail].
  change (wrap64 _ <? 4) with false. cbv iota. dsteps. change (negb (io_size_ok 4)) with false. cbv iota. dsteps.
  split; [done|]. cbn [d_m set_m set_pool set_hist m_gpr gpr_put with_gpr]. rewrite decide_True by done.
  set (v' := set_bits v 16 16 PCI_CFG_DEVICE_INVALID). assert (v' = PCI_CFG_VENDOR_INTEL + 2 ^ 16 * PCI_CFG_DEVICE_INVALID) as Hv'.
  { unfold v'. rewrite set_high by done. by rewrite Hv. }
  rewrite long_word by (by rewrite Hv'). by rewrite bits_set_same, Hv'.
Qed.
End pci.

(** ** Short registers

    The register of the power management is two bytes of the stack: an access
    of four bytes goes past it.  The block address registers of the disk are
    told apart by the last port written, not by the one that is read. *)

Lemma acpi_pm1_overrun {V : Vmx} {Hw : Hrd} ar max_paddr s : dev_acpi_pm1_ctl ar max_paddr (io_long true hrd_pm1_ctl_port) s = None.
Proof. reflexivity. Qed.
Lemma ata_lba_read_fails {Hw : Hrd} s data : a_base (d_ata s) = ATA1_START_PORT ->
  a_last_out (d_ata s) = ATA_CMD_REG ATA1_START_PORT -> dev_ata_lba_filter data s = Some ((VM_FAIL, data), s).
Proof. intros Hb Hl. unfold dev_ata_lba_filter, mbind, M_bind, gets. by rewrite Hb, Hl. Qed.

(** ** Examples *)

(** The card of the vmm is at 0:2.0; the other ports count their accesses. *)
Definition ex_hrd : Hrd := {|
  hw_in := fun h sz port => if port =? PCI_CONFIG_DATA then 0x100e8086 else 0x41 + Z.of_nat (length h);
  cfg_net := true; cfg_ehci_2nd := false; cfg_ext_io := true; cfg_pg_1G := false;
  hrd_disasm := fun _ => (VM_FAIL, mk_ud_str 16 false None);
  hrd_net_pci := 0x1000; hrd_dbgp_pci := 0; hrd_dbgp_dvd := 0; hrd_pm1_ctl_port := 0x404; hrd_s3 := 5;
  hrd_facs := 0xe0000; hrd_undef := 0
|}.
#[local] Existing Instance ex_hrd.

Definition ex_pool : bytes := replicate (Z.to_nat VMM_IO_POOL_SZ) 0.
Definition ex_uart : uart_t := dev_uart_init COM1_START_PORT (mk_uart (replicate 64 0) 0 0 0 0 0 0 0 0 0 0 0 0).
Definition ex_dev (g : Z -> Z) (m : gmap Z Z) : dstate :=
  mk_d (ex_mach (fun _ => 0) g 0 0 true m) [] ex_pool (mk_kbd KBD_CMD_SELF_TEST 2) 0 ex_uart []
    (mk_ata ATA1_START_PORT 0 0 0 0 0) 8 false 0 None None.

Lemma ex_pool_length : Z.of_nat (length ex_pool) = VMM_IO_POOL_SZ.
Proof. unfold ex_pool. rewrite length_replicate. apply Z2Nat.id. apply Z.leb_le. reflexivity. Qed.

(** rep insw and rep outsw of three words at the linear address 0xffe of a vm
    with paging, across its pages 0 and 1. *)
Definition ex_gpr (r : Z) : Z :=
  if decide (r = GPR64_RCX) then 0x50003 else if decide (r = GPR64_RDI) then 0x70ffe else
  if decide (r = GPR64_RSI) then 0x70ffe else 0.
Definition ex_str (in_ : bool) : io_insn := mk_io in_ true 2 1 0 false true 0x300 0xffff 3.
Definition ex_paged_fields (f : field) : Z :=
  if decide (f = exec_cr0_read_shadow) then 0x80000001 else if decide (f = st_cr3) then 0x1000 else
  if decide (f = info_guest_linear) then 0xffe else 0.
Definition ex_paged_dev (m : gmap Z Z) : dstate :=
  set_m (with_vmcs (mk_vmcs ex_paged_fields encode ex_paged_fields) (d_m (ex_dev ex_gpr m))) (ex_dev ex_gpr m).
Definition ex_words : gmap Z Z := mem_write (mem_write ex_tables 0x8ffe [1; 2]) 0x5000 [3; 4; 5; 6].

Lemma ex_str_ok in_ reg m : reg = GPR64_RDI \/ reg = GPR64_RSI ->
  (forall p, 0x1000 <= p < 0x3000 -> rd0 m p = rd0 ex_tables p) ->
  str_ok (mk_area 0x1000000 0x1002000) (ex_str in_) (ex_paged_dev m) 3 reg 0xffe ex_pa.
Proof.
  intros Hreg Hm. constructor; [reflexivity|reflexivity|reflexivity|by split; [left|]|reflexivity|lia|reflexivity|done|
    exact ex_pool_length|reflexivity| |done|done| |].
  - change (Z.of_nat 3 * io_sz (ex_str in_)) with 6. destruct in_.
    + exact (ex_steady VM_ACC_REQ_VM true m Hm).
    + exact (steady_reaches _ _ _ _ _ _ _ _ (ex_steady VM_ACC_REQ_VM false m Hm)).
  - by destruct Hreg as [-> | ->].
  - by destruct Hreg as [-> | ->].
Qed.

Example proxy_ins_transfers_witness : exists s',
  dev_io_proxify (mk_area 0x1000000 0x1002000) (ex_str true) (ex_paged_dev ex_tables) = Some (VM_DONE, s') /\
  mem_read (m_mem (d_m s')) 0x8ffe 2 = [0x41; 0] /\ mem_read (m_mem (d_m s')) 0x5000 4 = [0x42; 0; 0x43; 0] /\
  m_gpr (d_m s') GPR64_RDI = 0x71004 /\ m_gpr (d_m s') GPR64_RCX = 0x50000.
Proof.
  destruct (proxy_ins_transfers (mk_area 0x1000000 0x1002000) (ex_str true) (ex_paged_dev ex_tables) 3 0xffe ex_pa)
    as (s' & Hrun & Hm & Hh & Hg & Hp); [apply ex_str_ok; [by left|done]|reflexivity|].
  exists s'. rewrite Hm, !Hg. split_and!; [exact Hrun|vm_compute; reflexivity..].
Defined.

Lemma ex_words_tables p : 0x1000 <= p < 0x3000 -> rd0 ex_words p = rd0 ex_tables p.
Proof. intros Hp. unfold ex_words. rewrite !rd0_mem_write, !decide_False by (cbn [length]; lia). done. Qed.

Example proxy_outs_transfers_witness : exists s',
  dev_io_proxify (mk_area 0x1000000 0x1002000) (ex_str false) (ex_paged_dev ex_words) = Some (VM_DONE, s') /\
  d_hist s' = [IO_OUT 2 0x300 0x605; IO_OUT 2 0x300 0x403; IO_OUT 2 0x300 0x201].
Proof.
  destruct (proxy_outs_transfers (mk_area 0x1000000 0x1002000) (ex_str false) (ex_paged_dev ex_words) 3 0xffe ex_pa)
    as (s' & Hrun & Hm & Hh & Hg & Hp); [apply ex_str_ok; [by right|exact ex_words_tables]|reflexivity|unfold PIC1_START_PORT, PIC1_END_PORT; cbn; lia|].
  exists s'. rewrite Hh. split_and!; [exact Hrun|vm_compute; reflexivity].
Defined.


Example pci_card_hidden_witness : exists s1 s2,
  dev_pci (mk_area 0x1000000 0x1002000) (io_long false PCI_CONFIG_ADDR)
    (ex_dev (fun r => if decide (r = GPR64_RAX) then 0x80001000 else 0) ∅) = Some (VM_DONE, s1) /\
  m_io_denied (d_m s1) PCI_CONFIG_DATA = true /\
  dev_pci (mk_area 0x1000000 0x1002000) (io_long true PCI_CONFIG_DATA) s1 = Some (VM_DONE, s2) /\
  bits (m_gpr (d_m s2) GPR64_RAX) 0 32 = 0xffff8086.
Proof.
  destruct (pci_card_hidden (mk_area 0x1000000 0x1002000)
    (ex_dev (fun r => if decide (r = GPR64_RAX) then 0x80001000 else 0) ∅) 0x80001000)
    as (s1 & H1 & Hd & Hh & Hr); [reflexivity|exact ex_pool_length|].
  destruct Hr as (s2 & H2 & He); [reflexivity|reflexivity|reflexivity| |].
  - rewrite Hh. split; [reflexivity|left; reflexivity].
  - exists s1, s2. split_and!; [exact H1|rewrite Hd; reflexivity|exact H2|rewrite He; reflexivity].
Defined.
