(* ===== verification/DevKbd.v ===== *)
(** * The a20 line behind the keyboard controller (vmm/src/devices/kbd.c)

    The vm commands the line through the controller's output port.  The vmm
    never lets the machine's line go down and shows the vm the line it
    believes in: the two controllers, the machine's and the one the vm sees,
    are two abstract machines the handler keeps apart. *)

From S2P Require Import Prelude.
From S2P Require Import Monad.
From S2P Require Import Vm.
From S2P Require Import Words.
From S2P Require Import Vmcs.
From S2P Require Import Machine.
From S2P Require Import Cpu.
From S2P Require Import Rmode.
From S2P Require Import Dev.
From S2P Require Import DevHdl.
From S2P Require Import DevSem.

(** ** Controllers *)



(** What the vm does: [out] with a value in al, or [in]. *)
Inductive kbd_op := K_out (port v : Z) | K_in (port : Z).


(** ** The handler *)

Definition io_byte (in_ : bool) (port : Z) : io_insn := mk_io in_ false 1 0 0 false false port 0 1.

Section kbd.
Context {Hw : Hrd}.

(** The accesses, and al after each of them. *)
Definition kbd_step (op : kbd_op) : M dstate Z :=
  match op with
  | K_out p v => put_al v ;; _ ← dev_kbd (io_byte false p); get_al
  | K_in p => _ ← dev_kbd (io_byte true p); get_al
  end.
Fixpoint kbd_run (ops : list kbd_op) : M dstate (list Z) :=
  match ops with
  | [] => mret []
  | op :: ops => al ← kbd_step op; l ← kbd_run ops; mret (al :: l)
  end.



Lemma wp_get_al s (Q : Z -> dstate -> Prop) : Q (bits (m_gpr (d_m s) GPR64_RAX) 0 8) s -> wp get_al s Q.
Proof. intros HQ. unfold get_al. dsteps. exact HQ. Qed.
Lemma al_put v s : bits (m_gpr (d_m (set_m (gpr_put GPR64_RAX (set_bits (m_gpr (d_m s) GPR64_RAX) 0 8 v) (d_m s)) s)) GPR64_RAX) 0 8
  = wrap 8 v.
Proof. cbn [d_m set_m m_gpr gpr_put with_gpr]. rewrite decide_True by done. by rewrite bits_set_same. Qed.


Lemma wp_a20_set on s (Q : unit -> dstate -> Prop) :
  Q tt (set_m (with_a20 on (d_m s)) s) -> wp (on_m (dev_a20_set on)) s Q.
Proof.
  intros HQ. unfold dev_a20_set. apply wp_on_m. dsteps. destruct (Z.eqb_spec on (m_a20 (d_m s))) as [->|]; cbn [negb]; dsteps; [|exact HQ].
  replace (set_m (d_m s) s) with (set_m (with_a20 (m_a20 (d_m s)) (d_m s)) s); [exact HQ|]. by destruct s as [[]].
Qed.


Ltac kbd_al := cbn [io_port io_byte io_in d_m set_m set_kbd set_hist m_gpr gpr_put with_gpr with_a20 d_kbd];
  rewrite ?decide_True by done; rewrite ?bits_set_same by done.





(** The controller the vm sees does not forget its command: the next byte the
    vm means for the keyboard is taken for the output port and changed. *)
Lemma kbd_byte_changed s : k_last_cmd (d_kbd s) = KBD_CMD_WRITE_O_PORT ->
  wp (kbd_run [K_out KBD_DATA_PORT 0xdf; K_out KBD_DATA_PORT 0xf4]) s (fun als s' =>
    als = [0xdf; 0xf6] /\ m_a20 (d_m s') = 0 /\
    d_hist s' = IO_OUT 1 KBD_DATA_PORT 0xf6 :: IO_OUT 1 KBD_DATA_PORT 0xdf :: d_hist s).
Proof.
  intros Hc. cbn [kbd_run]. unfold kbd_step, dev_kbd, dev_kbd_ctrl, dev_kbd_data, get_al, port_out.
  cbn [io_port io_byte io_in]. change (KBD_DATA_PORT =? KBD_CTRL_PORT) with false. rewrite Z.eqb_refl. dsteps. kbd_al.
  rewrite Hc, Z.eqb_refl. dsteps. apply wp_a20_set. dsteps. kbd_al.
  change (a20_of (wrap 8 0xdf)) with true. cbn [negb]. dsteps. kbd_al. cbn [k_last_cmd]. rewrite Z.eqb_refl. dsteps.
  apply wp_a20_set. dsteps. kbd_al. change (a20_of (wrap 8 0xf4)) with false. cbn [negb]. dsteps. kbd_al.
  split_and!; reflexivity.
Qed.
End kbd.

(** ** Examples *)


