(* ===== verification/DevUart.v ===== *)
(** * The serial line (vmm/src/devices/uart.c)

    A repeated output of the vm goes through the buffer of the emulated line,
    [DEV_UART_BUFF_LEN] bytes at a time; a full buffer is written to the
    console of the vmm.  The loop ends, and what it writes is computed by
    [uart_lines]. *)

From S2P Require Import Prelude.
From S2P Require Import Monad.
From S2P Require Import Pagemem.
From S2P Require Import Walk.
From S2P Require Import Vm.
From S2P Require Import VmMem.
From S2P Require Import Words.
From S2P Require Import Vmcs.
From S2P Require Import Machine.
From S2P Require Import Cpu.
From S2P Require Import Dev.
From S2P Require Import DevHdl.
From S2P Require Import DevSem.

(** ** What is written

    [n] bytes, the first ones at [pa 0], [pa 1], ..., after the bytes [pend] the
    buffer holds: what the buffer holds at the end, and the full buffers.
    Every chunk is read from the first byte: the source is that of the exit,
    not the one the index moved to. *)

Fixpoint uart_lines (fuel : nat) (m : gmap Z Z) (pa : Z -> Z) (pend : bytes) (n : Z) : bytes * list bytes :=
  match fuel with
  | O => (pend, [])
  | S fuel =>
      let k := Z.min n (DEV_UART_BUFF_LEN - Z.of_nat (length pend)) in
      let p := pend ++ gather m pa k in
      let full := DEV_UART_BUFF_LEN <=? Z.of_nat (length p) in
      let rest := if full then [] else p in
      let r := if n - k =? 0 then (rest, []) else uart_lines fuel m pa rest (n - k) in
      (r.1, (if full then [p] else []) ++ r.2)
  end.

(** The same as a stream: past the room of the buffer, [p] bytes being there
    already, the bytes are those of the start of the string, again and again. *)
Definition resent (m : gmap Z Z) (pa : Z -> Z) (p n : Z) : bytes :=
  if n <=? DEV_UART_BUFF_LEN - p then gather m pa n
  else
    let n' := n - (DEV_UART_BUFF_LEN - p) in
    gather m pa (DEV_UART_BUFF_LEN - p) ++
    concat (replicate (Z.to_nat (n' / DEV_UART_BUFF_LEN)) (gather m pa DEV_UART_BUFF_LEN)) ++
    gather m pa (n' mod DEV_UART_BUFF_LEN).

Lemma resent_start m pa n : 0 < n -> resent m pa 0 n =
  concat (replicate (Z.to_nat (n / DEV_UART_BUFF_LEN)) (gather m pa DEV_UART_BUFF_LEN)) ++ gather m pa (n mod DEV_UART_BUFF_LEN).
Proof.
  intros Hn. unfold resent. change DEV_UART_BUFF_LEN with 64. rewrite Z.sub_0_r. destruct (Z.leb_spec n 64) as [Hle|Hgt].
  - destruct (Z.eq_dec n 64) as [->|Hne].
    { change (gather m pa 64 = (gather m pa 64 ++ []) ++ []). by rewrite !app_nil_r. }
    by rewrite Z.div_small, Z.mod_small by lia.
  - replace n with (1 * 64 + (n - 64)) at 3 4 by lia. rewrite Z.div_add_l, (Z.add_comm (1 * 64)), Z_mod_plus_full by lia.
    rewrite Z2Nat.inj_add by (try apply Z.div_pos; lia). change (Z.to_nat 1) with 1%nat. cbn [Nat.add replicate concat].
    by rewrite <- app_assoc.
Qed.
Lemma uart_lines_stream m pa fuel : forall pend n, 0 < n <= Z.of_nat fuel -> Z.of_nat (length pend) < DEV_UART_BUFF_LEN ->
  let r := uart_lines fuel m pa pend n in
  concat r.2 ++ r.1 = pend ++ resent m pa (Z.of_nat (length pend)) n /\
  Forall (fun l => Z.of_nat (length l) = DEV_UART_BUFF_LEN) r.2 /\ Z.of_nat (length r.1) < DEV_UART_BUFF_LEN.
Proof.
  change DEV_UART_BUFF_LEN with 64. induction fuel as [|fuel IH]; intros pend n Hn Hp; [lia|]. cbn [uart_lines]. cbv zeta.
  change DEV_UART_BUFF_LEN with 64. set (k := Z.min n (64 - Z.of_nat (length pend))). cbn [fst snd].
  pose proof (length_gather m pa k) as Hk. rewrite length_app. destruct (Z.leb_spec n (64 - Z.of_nat (length pend))) as [Hle|Hgt].
  - unfold resent. change DEV_UART_BUFF_LEN with 64. rewrite (proj2 (Z.leb_le n _)) by lia.
    replace (n - k) with 0 by lia. cbn [Z.eqb fst snd]. rewrite app_nil_r.
    replace (gather m pa n) with (gather m pa k) by (f_equal; lia).
    destruct (Z.leb_spec 64 (Z.of_nat (length pend + length (gather m pa k)))) as [H|H]; cbn [concat]; rewrite ?app_nil_r.
    + split_and!; [done| |done]. constructor; [|done]. rewrite length_app. lia.
    + split_and!; [done|done|]. rewrite length_app. lia.
  - rewrite (proj2 (Z.leb_le 64 _)), (proj2 (Z.eqb_neq (n - k) 0)) by lia.
    destruct (IH [] (n - k)) as (Hs & Hl & Hr); [lia|done|]. cbn [length app] in *.
    split_and!; [|constructor; [rewrite length_app; lia|exact Hl]|exact Hr]. cbn [concat]. rewrite <- !app_assoc. f_equal.
    change (Z.of_nat 0) with 0 in Hs. rewrite Hs, resent_start by lia. unfold resent. change DEV_UART_BUFF_LEN with 64.
    rewrite (proj2 (Z.leb_gt n _)) by lia. cbv zeta. replace k with (64 - Z.of_nat (length pend)) by lia. done.
Qed.

(** ** The loop *)

Lemma land_put r n m w : 0 <= w -> m = Z.ones w -> 0 <= n < 2 ^ w -> Z.land (Z.lor (Z.ldiff r m) (Z.land n m)) m = n.
Proof.
  intros Hw -> Hn. transitivity (Z.land n (Z.ones w)); [|rewrite Z.land_ones by done; by apply Z.mod_small].
  apply Z.bits_inj'. intros i Hi. autorewrite with zbit. repeat zbit_split; cbn;
    rewrite ?andb_true_r, ?andb_false_r; done.
Qed.
Lemma land_step r k n m w : 0 <= w -> m = Z.ones w -> 0 <= k -> Z.land r m + k + n < 2 ^ w -> 0 <= n ->
  Z.land (r + k) m = Z.land r m + k.
Proof.
  intros Hw -> Hk Hlt Hn. rewrite !Z.land_ones in * by done.
  pose proof (Z.mod_pos_bound r (2 ^ w) ltac:(apply Z.pow_pos_nonneg; lia)).
  rewrite <- Zplus_mod_idemp_l. apply Z.mod_small. lia.
Qed.

Lemma rsi_fits io r k n : addr_ok io -> fits 64 r -> 0 <= k < n -> Z.land r (io_msk io) + n < 2 ^ (16 * io_addr io) ->
  fits 64 (r + k).
Proof.
  intros [Ha Hm] [H0 H64] Hk Hlt. rewrite Hm, Z.land_ones in Hlt by lia. set (w := 16 * io_addr io) in *.
  assert (0 < w <= 64) as Hw by lia. pose proof (Z.div_mod r (2 ^ w) ltac:(lia)) as Hd.
  assert (r / 2 ^ w < 2 ^ (64 - w)) as Hq.
  { apply Z.div_lt_upper_bound; [lia|]. rewrite <- Z.pow_add_r by lia. by replace (w + (64 - w)) with 64 by lia. }
  assert (2 ^ 64 = 2 ^ w * 2 ^ (64 - w)) as He by (rewrite <- Z.pow_add_r by lia; f_equal; lia).
  split; [lia|]. rewrite He. nia.
Qed.

Section uart.
Context {V : Vmx} {Hw : Hrd} (ar : area_t).

(** A repeated output of [n] bytes, in the middle of the loop. *)
Record outs_ok (io : io_insn) (s : dstate) (n linear : Z) (pa : Z -> Z) : Prop := {
  uo_str : io_s io = true;
  uo_out : io_in io = false;
  uo_fwd : io_back io = false;
  uo_rep : io_rep io = true;
  uo_size : io_sz io = 1;
  uo_addr : addr_ok io;
  uo_cnt : Z.land (m_gpr (d_m s) GPR64_RCX) (io_msk io) = n;
  uo_some : 0 < n;
  uo_lin : val (m_vmcs (d_m s)) info_guest_linear = linear;
  uo_reaches : vm_reaches ar (d_m s) false linear n pa;
  uo_low : 0 <= linear;
  uo_high : linear + n <= 2 ^ 64;
  uo_rsi : fits 64 (m_gpr (d_m s) GPR64_RSI);
  uo_idx : Z.land (m_gpr (d_m s) GPR64_RSI) (io_msk io) + n < 2 ^ (16 * io_addr io);
  uo_buf : length (u_buffer (d_uart s)) = Z.to_nat DEV_UART_BUFF_LEN;
  uo_index : 0 <= u_index (d_uart s) < DEV_UART_BUFF_LEN;
}.

Definition pending (s : dstate) : bytes := take (Z.to_nat (u_index (d_uart s))) (u_buffer (d_uart s)).

(** The registers and the rest once [k] bytes moved. *)
Record outs_moved (io : io_insn) (k : Z) (s s' : dstate) : Prop := {
  om_mem : m_mem (d_m s') = m_mem (d_m s);
  om_vmcs : m_vmcs (d_m s') = m_vmcs (d_m s);
  om_efer : m_efer (d_m s') = m_efer (d_m s);
  om_rsi : m_gpr (d_m s') GPR64_RSI = m_gpr (d_m s) GPR64_RSI + k;
  om_rcx : Z.land (m_gpr (d_m s') GPR64_RCX) (io_msk io) = Z.land (m_gpr (d_m s) GPR64_RCX) (io_msk io) - k;
}.

Lemma outs_moved_trans io k k' s s1 s2 : outs_moved io k s s1 -> outs_moved io k' s1 s2 -> outs_moved io (k + k') s s2.
Proof. intros [] []. constructor; try congruence; lia. Qed.

Lemma addr_width io : addr_ok io -> 0 <= 16 * io_addr io <= 64.
Proof. intros [H _]. lia. Qed.

(** One emulated access to [avail] bytes of the buffer. *)
Lemma wp_outs_chunk io s n linear pa data avail Q : outs_ok io s n linear pa -> 0 < avail -> avail <= Z.of_nat (length data) ->
  (forall s', outs_moved io (Z.min n avail) s s' -> d_con s' = d_con s -> d_uart s' = d_uart s ->
     Q (VM_DONE, buf_put data (gather (m_mem (d_m s)) pa (Z.min n avail)),
        mk_io_size (wrap64 (avail - Z.min n avail)) (Z.min n avail) (n - Z.min n avail)) s') ->
  wp (dev_io_insn ar io data avail) s Q.
Proof.
  intros [] Ha Hda HQ. pose proof (addr_width io uo_addr0) as Hw'. pose proof uo_addr0 as [_ Hmsk]. set (k := Z.min n avail) in *.
  assert (0 <= Z.land (m_gpr (d_m s) GPR64_RSI) (io_msk io)) as H0 by (rewrite Hmsk, Z.land_ones by lia; apply Z.mod_pos_bound; apply Z.pow_pos_nonneg; lia).
  assert (2 ^ (16 * io_addr io) <= 2 ^ 64) as Hp by (apply Z.pow_le_mono_r; lia).
  unfold dev_io_insn. rewrite uo_str0. unfold io_insn_string. dsteps. rewrite uo_out0, uo_rep0, uo_size0, uo_cnt0.
  cbn [z_avail z_done z_miss]. rewrite (Z.mul_1_l n), (wrap_id 64 n) by (split; lia).
  unfold io_insn_string_out. rewrite uo_fwd0. dsteps. cbn [z_avail z_miss]. fold k. rewrite uo_lin0. apply wp_on_m.
  eapply (wp_vm_read _ _ _ _ _ pa); [intros i Hi; apply uo_reaches0; unfold k in Hi; lia|unfold k; lia|done|unfold k; lia|unfold k; lia|].
  intros ac Hac Hd. dsteps. unfold size_moved. cbn [fst snd z_avail z_miss z_done]. rewrite Hac, Hd.
  rewrite str_update_fwd by (try done; unfold k; lia). dsteps. rewrite Z.div_1_r, (wrap_id 64 (n - k)) by (unfold k; split; lia).
  apply HQ; try done. constructor; cbn [m_mem m_vmcs m_gpr d_m set_m gpr_put with_gpr]; try done.
  rewrite decide_True by done. rewrite (land_put _ (n - k) _ (16 * io_addr io)); [unfold k; lia|lia|done|unfold k; lia].
Qed.

Definition chunk (s : dstate) (n : Z) (pa : Z -> Z) : bytes :=
  pending s ++ gather (m_mem (d_m s)) pa (Z.min n (DEV_UART_BUFF_LEN - u_index (d_uart s))).

Lemma length_pending io s n linear pa : outs_ok io s n linear pa -> Z.of_nat (length (pending s)) = u_index (d_uart s).
Proof. intros []. unfold pending. rewrite length_take, uo_buf0. change DEV_UART_BUFF_LEN with 64 in *. lia. Qed.
Lemma length_chunk io s n linear pa : outs_ok io s n linear pa -> Z.of_nat (length (chunk s n pa)) =
  u_index (d_uart s) + Z.min n (DEV_UART_BUFF_LEN - u_index (d_uart s)).
Proof.
  intros Hok. pose proof (length_pending _ _ _ _ _ Hok). destruct Hok. unfold chunk. rewrite length_app.
  pose proof (length_gather (m_mem (d_m s)) pa (Z.min n (DEV_UART_BUFF_LEN - u_index (d_uart s)))). lia.
Qed.

(** One turn of the loop. *)
Lemma wp_uart_step io s n linear pa Q : outs_ok io s n linear pa ->
  (forall s' sz, outs_moved io (Z.min n (DEV_UART_BUFF_LEN - u_index (d_uart s))) s s' ->
     length (u_buffer (d_uart s')) = Z.to_nat DEV_UART_BUFF_LEN ->
     (if DEV_UART_BUFF_LEN <=? Z.of_nat (length (chunk s n pa)) then
        u_index (d_uart s') = 0 /\ pending s' = [] /\ d_con s' = chunk s n pa :: d_con s
      else u_index (d_uart s') = Z.of_nat (length (chunk s n pa)) /\ pending s' = chunk s n pa /\
        d_con s' = d_con s) ->
     z_miss sz = n - Z.min n (DEV_UART_BUFF_LEN - u_index (d_uart s)) -> Q (VM_DONE, sz) s') ->
  wp (uart_xfr_step ar io) s Q.
Proof.
  intros Hok HQ. pose proof (length_chunk _ _ _ _ _ Hok) as Hl. pose proof (length_pending _ _ _ _ _ Hok) as Hlp.
  unfold uart_xfr_step. dsteps. set (i := u_index (d_uart s)) in *.
  assert (0 <= i < 64) as Hi by (destruct Hok; done). change DEV_UART_BUFF_LEN with 64 in *.
  set (k := Z.min n (64 - i)) in *. assert (0 < n) as Hn by (destruct Hok; done).
  eapply wp_outs_chunk; [exact Hok|lia| |].
  { rewrite length_drop. pose proof (uo_buf _ _ _ _ _ Hok) as Hb. change DEV_UART_BUFF_LEN with 64 in Hb. lia. }
  fold k. intros s1 Hm Hc Hu. dsteps. cbn [fst snd].
  rewrite bool_decide_eq_true_2 by done. cbn [negb]. dsteps. cbn [z_done d_uart set_uart u_index uart_buffer uart_index].
  rewrite (wrap_id 32) by (split; lia).
  set (buf := take (Z.to_nat i) (u_buffer (d_uart s)) ++ _).
  assert (length (gather (m_mem (d_m s)) pa k) = Z.to_nat k) as Hr.
  { pose proof (length_gather (m_mem (d_m s)) pa k). lia. }
  assert (length (u_buffer (d_uart s)) = Z.to_nat 64) as Hb by (destruct Hok; done).
  assert (length buf = Z.to_nat 64) as Hlb.
  { unfold buf. rewrite length_app, length_buf_put, length_take, length_drop by (rewrite length_drop; lia). lia. }
  assert (take (Z.to_nat (i + k)) buf = chunk s n pa) as Hch.
  { unfold buf, chunk, pending. fold i k. rewrite take_app_ge by (rewrite length_take; lia). f_equal.
    rewrite length_take. replace (_ - _)%nat with (length (gather (m_mem (d_m s)) pa k)) by lia. apply take_buf_put. }
  rewrite Hl in HQ. destruct (Z.leb_spec 64 (i + k)) as [Hge|Hlt]; dsteps.
  - rewrite (uo_out _ _ _ _ _ Hok). cbn [negb]. unfold dev_uart_flush. dsteps. apply HQ; [by destruct Hm|exact Hlb| |done].
    cbn [d_uart set_uart set_con u_index uart_index uart_buffer u_buffer d_con pending]. rewrite Hc.
    split_and!; [done|done|]. f_equal. rewrite <- Hch. f_equal. lia.
  - apply HQ; [by destruct Hm|exact Hlb| |done].
    unfold pending. cbn [d_uart set_uart set_con u_index uart_index uart_buffer u_buffer d_con]. rewrite Hc.
    split_and!; [lia|exact Hch|done].
Qed.

Lemma outs_ok_next io s s' n k linear pa : outs_ok io s n linear pa -> outs_moved io k s s' -> 0 <= k < n ->
  length (u_buffer (d_uart s')) = Z.to_nat DEV_UART_BUFF_LEN -> 0 <= u_index (d_uart s') < DEV_UART_BUFF_LEN ->
  outs_ok io s' (n - k) linear pa.
Proof.
  intros [] [] Hk Hb Hi. pose proof (addr_width io uo_addr0) as Hw'. pose proof uo_addr0 as [_ Hmsk].
  assert (0 <= Z.land (m_gpr (d_m s) GPR64_RSI) (io_msk io)) as H0 by (rewrite Hmsk, Z.land_ones by lia; apply Z.mod_pos_bound; apply Z.pow_pos_nonneg; lia).
  constructor; rewrite ?om_vmcs0, ?om_rsi0; try done; try lia.
  - unfold vm_reaches, vm_cpu_of. rewrite om_vmcs0, om_efer0, om_mem0. intros i Hi'. apply uo_reaches0. lia.
  - apply (rsi_fits io _ k n); try done.
  - rewrite (land_step _ k (n - k) _ (16 * io_addr io)) by (try done; lia). lia.
Qed.

Lemma uart_outs_lines io s n linear pa fuel : outs_ok io s n linear pa -> n <= Z.of_nat fuel ->
  exists s', dev_uart_xfr ar fuel io s = Some (VM_DONE, s') /\ outs_moved io n s s' /\
    pending s' = (uart_lines fuel (m_mem (d_m s)) pa (pending s) n).1 /\
    d_con s' = rev (uart_lines fuel (m_mem (d_m s)) pa (pending s) n).2 ++ d_con s.
Proof.
  intros Hok Hf. apply (wp_done _ (fun s' => outs_moved io n s s' /\
    pending s' = (uart_lines fuel (m_mem (d_m s)) pa (pending s) n).1 /\
    d_con s' = rev (uart_lines fuel (m_mem (d_m s)) pa (pending s) n).2 ++ d_con s)).
  revert s n Hok Hf. induction fuel as [|fuel IH]; intros s n Hok Hf; [destruct Hok; lia|].
  pose proof (length_pending _ _ _ _ _ Hok) as Hlp. pose proof (length_chunk _ _ _ _ _ Hok) as Hlc.
  cbn [dev_uart_xfr uart_lines]. dsteps. eapply wp_uart_step; [exact Hok|]. intros s1 sz Hm Hb Hfull Hz. cbn [fst snd].
  rewrite bool_decide_eq_true_2 by done. cbn [negb]. rewrite Hz, Hlp. fold (chunk s n pa).
  set (k := Z.min n (DEV_UART_BUFF_LEN - u_index (d_uart s))) in *. unfold c_true.
  assert (0 < k <= n) as Hk by (destruct Hok; unfold k; lia).
  destruct (Z.eqb_spec (n - k) 0) as [E|Hne]; cbn [negb].
  - dsteps. split; [done|]. replace n with k at 1 by lia. split; [done|]. cbn [fst snd].
    destruct (_ <=? _); destruct Hfull as (_ & Hpd & Hc); rewrite Hpd, Hc; done.
  - eapply wp_mono; [apply (IH s1 (n - k))|].
    + eapply outs_ok_next; [exact Hok|exact Hm|lia|exact Hb|].
      destruct (Z.leb_spec DEV_UART_BUFF_LEN (Z.of_nat (length (chunk s n pa)))); destruct Hfull as (-> & _);
        change DEV_UART_BUFF_LEN with 64 in *; lia.
    + lia.
    + intros rc s2 (-> & Hm2 & Hpd2 & Hc2). split; [done|]. cbn [fst snd].
      rewrite Hpd2, Hc2, (om_mem _ _ _ _ Hm). destruct (_ <=? _); destruct Hfull as (_ & -> & ->);
        (split; [replace n with (k + (n - k)) at 1 by lia; by eapply outs_moved_trans|]); split; try done.
      cbn [app rev]. by rewrite <- app_assoc.
Qed.

(** C18: a repeated byte output of the vm on the serial line ends: its counter
    is at zero, its index is moved by the bytes it sends, and the console gets
    lines of 64 bytes.  These lines and what stays in the buffer are what the
    buffer held and then the string, as far as the room of the buffer; past it
    they are its first bytes again, line after line, not the rest of it.  The
    output ([outs_ok]) goes forward; each of its bytes is in the memory of the
    vm, through its tables if it has paging, and out of the area of the vmm; and
    its index does not pass the end of its address size. *)
Theorem uart_outs_terminates io s n linear pa fuel : outs_ok io s n linear pa -> n <= Z.of_nat fuel ->
  exists s' lines, dev_uart_xfr ar fuel io s = Some (VM_DONE, s') /\ outs_moved io n s s' /\
    d_con s' = rev lines ++ d_con s /\ Forall (fun l => Z.of_nat (length l) = DEV_UART_BUFF_LEN) lines /\
    Z.of_nat (length (pending s')) < DEV_UART_BUFF_LEN /\
    concat lines ++ pending s' = pending s ++ resent (m_mem (d_m s)) pa (Z.of_nat (length (pending s))) n.
Proof.
  intros Hok Hf. destruct (uart_outs_lines io s n linear pa fuel Hok Hf) as (s' & E & Hm & Hp & Hc).
  pose proof (length_pending _ _ _ _ _ Hok) as Hl. pose proof (uo_index _ _ _ _ _ Hok). pose proof (uo_some _ _ _ _ _ Hok).
  destruct (uart_lines_stream (m_mem (d_m s)) pa fuel (pending s) n) as (Hs & Hall & Hr); [lia|lia|].
  eexists s', _. rewrite Hp. by split_and!.
Qed.

(** A repeated input that finds the buffer full never ends. *)
Definition ins_full (io : io_insn) (s : dstate) : Prop :=
  0 < Z.land (m_gpr (d_m s) GPR64_RCX) (io_msk io) /\ u_index (d_uart s) = DEV_UART_BUFF_LEN.

Lemma wp_ins_full io s : io_s io = true -> io_in io = true -> io_back io = false -> io_rep io = true ->
  io_sz io = 1 -> addr_ok io -> ins_full io s ->
  wp (uart_xfr_step ar io) s (fun r s' => r.1 = VM_DONE /\ c_true (z_miss r.2) = true /\ ins_full io s').
Proof.
  intros Hs Hin Hb Hr Hsz Hok (Hn & Hi). pose proof (addr_width io Hok) as Hw'. pose proof Hok as [_ Hmsk].
  set (n := Z.land (m_gpr (d_m s) GPR64_RCX) (io_msk io)) in *.
  assert (0 <= n < 2 ^ (16 * io_addr io)) as Hn'.
  { unfold n. rewrite Hmsk, Z.land_ones by lia. apply Z.mod_pos_bound, Z.pow_pos_nonneg; lia. }
  assert (2 ^ (16 * io_addr io) <= 2 ^ 64) as Hp by (apply Z.pow_le_mono_r; lia).
  unfold uart_xfr_step. dsteps. rewrite Hi, Z.sub_diag. unfold dev_io_insn. rewrite Hs. unfold io_insn_string. dsteps.
  rewrite Hin, Hr, Hsz. fold n. cbn [z_avail z_done z_miss]. rewrite (Z.mul_1_l n), (wrap_id 64 n) by (split; lia).
  unfold io_insn_string_in. rewrite Hb. dsteps. cbn [z_avail z_miss]. rewrite Z.min_r by lia. apply wp_on_m.
  apply wp_vm_write_none. intros ac Hac. rewrite set_m_same. dsteps.
  unfold size_moved. cbn [fst snd z_miss z_done z_avail]. rewrite Hac, bool_decide_eq_true_2 by done. cbn [negb]. dsteps.
  change (DEV_UART_BUFF_LEN <=? wrap32 (DEV_UART_BUFF_LEN + 0)) with true. cbv iota. dsteps. cbv iota. dsteps.
  cbn [fst snd z_miss]. rewrite !Z.sub_0_r, (wrap_id 64 n), c_true_ne, Z.div_1_r by (try (split; lia); lia).
  split_and!; try done. unfold ins_full. cbn [d_m set_uart set_m m_gpr gpr_put with_gpr m_vmcs d_uart uart_index u_index].
  rewrite decide_True by done. by rewrite (land_put _ n _ (16 * io_addr io)) by (try done; lia).
Qed.

Lemma uart_ins_hangs io fuel s : io_s io = true -> io_in io = true -> io_back io = false -> io_rep io = true ->
  io_sz io = 1 -> addr_ok io -> ins_full io s -> dev_uart_xfr ar fuel io s = None.
Proof.
  intros Hs Hin Hb Hr Hsz Hok. revert s. induction fuel as [|fuel IH]; intros s Hf; [done|].
  destruct (wp_exists _ _ _ (wp_ins_full io s Hs Hin Hb Hr Hsz Hok Hf)) as ([rc sz] & s' & Hrun & Hrc & Hm & Hf').
  cbn [dev_uart_xfr]. unfold mbind, M_bind. rewrite Hrun. cbn [fst snd] in *.
  rewrite bool_decide_eq_true_2, Hm by done. by apply IH.
Qed.
End uart.

(** ** Example

    70 bytes that are all different: the six bytes the buffer holds at the end
    are the first ones again. *)

Definition ex_outs : io_insn := mk_io false true 1 1 3 false true COM1_START_PORT 0xffff 70.
Definition ex_outs_gpr (r : Z) : Z := if decide (r = GPR64_RCX) then 70 else 0.
Definition ex_outs_dev : dstate := ex_dev ex_outs_gpr (mem_write ∅ 0 (seqZ 1 70)).

Lemma ex_outs_ok : outs_ok (Hw := ex_hrd) (mk_area 0x1000000 0x1002000) ex_outs ex_outs_dev 70 0 (fun i => 0 + i).
Proof.
  constructor; [reflexivity|reflexivity|reflexivity|reflexivity|reflexivity|by split; [left|]|reflexivity|done|
    reflexivity| |done|done|done|done|reflexivity|done].
  apply (vm_reaches_unpaged (Hw := ex_hrd)); [reflexivity|]. intros i Hi. unfold vmm_area, mem_range. cbn [area_start area_end]. apply andb_false_iff. left. apply Z.leb_gt. lia.
Qed.

Example uart_outs_terminates_witness : exists s' lines,
  dev_uart_xfr (Hw := ex_hrd) (mk_area 0x1000000 0x1002000) 70 ex_outs ex_outs_dev = Some (VM_DONE, s') /\
  d_con s' = rev lines ++ [] /\ Forall (fun l => Z.of_nat (length l) = 64) lines /\
  concat lines ++ pending s' = seqZ 1 64 ++ [1; 2; 3; 4; 5; 6] /\ Z.land (m_gpr (d_m s') GPR64_RCX) 0xffff = 0.
Proof.
  destruct (uart_outs_terminates (Hw := ex_hrd) (mk_area 0x1000000 0x1002000) ex_outs ex_outs_dev 70 0 (fun i => 0 + i) 70)
    as (s' & lines & Hrun & Hm & Hc & Hall & _ & Hs); [exact ex_outs_ok|lia|].
  exists s', lines. split; [exact Hrun|]. split; [exact Hc|]. split; [exact Hall|]. split; [rewrite Hs; vm_compute; reflexivity|].
  exact (om_rcx _ _ _ _ Hm).
Defined.
