(* ===== verification/DevTy.v ===== *)
(** * Types of the device state (vmm/src/devices/*.c)

    The state of the devices is made of machine integers and buffers of fixed
    sizes; [dev_ok] says so, and every port access of the vm keeps it.  The
    judgement [tyd m P] is partial: if the handler returns, the state it leaves
    is well typed and its result has the property [P]. *)

From S2P Require Import Prelude.
From S2P Require Import Monad.
From S2P Require Import Pagemem.
From S2P Require Import Walk.
From S2P Require Import Vm.
From S2P Require Import Words.
From S2P Require Import Vmcs.
From S2P Require Import Machine.
From S2P Require Import Cpu.
From S2P Require Import Rmode.
From S2P Require Import Dev.
From S2P Require Import DevHdl.
From S2P Require Import DevSem.

Abbreviation byte := (fits 8).
Abbreviation any := (fun _ => True).

(** ** Accesses to the memory of the vm *)

Definition buf_ok (n : nat) (data : bytes) : Prop := Forall byte data /\ length data = n.

Lemma buf_read_ok n data a off len m : buf_ok n data -> mem_ok m -> 0 <= off -> 0 <= len -> off + len <= Z.of_nat n ->
  buf_ok n (take (Z.to_nat off) data ++ mem_read m a len ++ drop (Z.to_nat off + Z.to_nat len) data).
Proof.
  intros [Hb Hl] Hm Ho Hn Hfit. pose proof (length_mem_read m a len). split.
  - apply Forall_app; split; [by apply Forall_take|]. apply Forall_app; split; [by apply mem_read_fits|by apply Forall_drop].
  - rewrite !length_app, length_take, length_drop. lia.
Qed.

Section access.
Variables (c : vm_cpu) (n : nat).

(** An access to [n] bytes, in its middle. *)
Record acc_ok (ac : vm_access) (s : vmst) : Prop := {
  ao_mem : mem_ok (phys s);
  ao_buf : buf_ok n (va_data ac);
  ao_rm : va_rm ac = false;
  ao_done : 0 <= va_done ac <= Z.of_nat n;
}.

Lemma operator_typed ac s rc ac' s' : operator ac s = Some (rc, ac', s') -> acc_ok ac s -> 0 <= va_len ac ->
  va_done ac + va_len ac <= Z.of_nat n -> acc_ok ac' s' /\ va_done ac' = va_done ac + va_len ac.
Proof.
  intros Ho [Hm [Hb Hl] Hr Hd] Hlen Hfit. unfold operator in Ho. rewrite Hr in Ho. unfold vm_access_local_operator in Ho.
  destruct (va_wr ac); simplify_eq/=; (split; [|reflexivity]).
  - constructor; [|by split|done|destruct ac; cbn in *; lia]. cbn. apply mem_write_ok; [done|]. by apply Forall_take, Forall_drop.
  - constructor; [done| |done|destruct ac; cbn in *; lia]. apply (buf_read_ok n); [by split|done|lia..].
Qed.

Lemma physical_typed ac s rc ac' s' : vm_access_physical c ac s = Some (rc, ac', s') -> acc_ok ac s -> 0 <= va_len ac ->
  va_done ac + va_len ac <= Z.of_nat n -> acc_ok ac' s' /\ va_len ac' = va_len ac /\
  (va_done ac' = va_done ac \/ va_done ac' = va_done ac + va_len ac).
Proof.
  intros Hp Hok Hlen Hfit. unfold vm_access_physical in Hp. destruct (negb _); [simplify_eq; auto|].
  unfold vm_access_system in Hp. rewrite decide_True in Hp by done. unfold vm_access_system_identity in Hp.
  destruct (vmm_area_range _ _ _); [simplify_eq; auto|].
  destruct (operator_len _ _ _ _ _ Hp) as [-> _]. destruct (operator_typed _ _ _ _ _ Hp) as [? ->]; [done..|].
  split; [done|]. split; [done|by right].
Qed.

Lemma validate_phys ac v w s rc w' s' : vm_access_validate c ac v w s = (rc, w', s') -> phys s' = phys s.
Proof.
  unfold vm_access_validate. destruct (pg_walk _ _ _ _ _) as [rc0 w0]. intros H.
  repeat (case_match; simplify_eq; try done).
Qed.

Lemma loop_typed fuel : forall ac v len w s rc ac' s', vm_access_loop c fuel ac v len w s = Some (rc, ac', s') ->
  acc_ok ac s -> 0 <= len -> va_done ac + len <= Z.of_nat n -> acc_ok ac' s'.
Proof.
  induction fuel as [|fuel IH]; intros ac v len w s rc ac' s' Hl Hok Hlen Hfit; cbn [vm_access_loop] in Hl;
    (destruct (negb _); [by simplify_eq|]); [done|].
  destruct (vm_access_validate c ac v w s) as [[rc1 w1] s1] eqn:Ev.
  pose proof (validate_phys _ _ _ _ _ _ _ Ev) as Hp1.
  assert (acc_ok ac s1) as Hok1 by (destruct Hok; constructor; rewrite ?Hp1; done).
  destruct (decide (rc1 = VM_DONE)); [|by simplify_eq]. cbv zeta in Hl.
  set (k := Z.min len _) in Hl. assert (0 <= k <= len) as Hk.
  { unfold k. pose proof (Z.mod_pos_bound (align_next v (w_size w1) - v) (2 ^ 64) ltac:(lia)). unfold wrap. lia. }
  destruct (vm_access_physical c _ s1) as [[[rc2 ac2] s2]|] eqn:Ep; [|done]. cbn [mbind option_bind] in Hl.
  destruct (physical_typed _ _ _ _ _ Ep) as (Hok2 & Hl2 & Hd2); [by destruct Hok1; constructor|cbn; lia|cbn; lia|].
  cbn [va_len va_done set_range] in Hl2, Hd2. destruct (decide _); [|by simplify_eq].
  eapply IH; [exact Hl|done| |]; rewrite Hl2; lia.
Qed.

Lemma access_typed cr3 a data len wr rq s rc ac s' :
  vm_access_virtual c (vm_access_setup cr3 a data len wr rq false) s = Some (rc, ac, s') ->
  mem_ok (phys s) -> buf_ok n data -> 0 <= len <= Z.of_nat n -> acc_ok ac s'.
Proof.
  intros H Hm Hb Hlen. assert (acc_ok (vm_access_setup cr3 a data len wr rq false) s) as Hok by (constructor; [done|done|done|cbn; lia]).
  unfold vm_access_virtual in H. destruct (negb _).
  - by destruct (physical_typed _ _ _ _ _ H Hok); cbn; [lia..|].
  - by eapply loop_typed; [exact H|done|cbn; lia..].
Qed.
End access.

(** ** The state of the devices *)

Record uart_ok (u : uart_t) : Prop := {
  uo_buffer : buf_ok 64 (u_buffer u);
  uo_index : 0 <= u_index u <= DEV_UART_BUFF_LEN;
  uo_ier : byte (u_ier u); uo_iir : byte (u_iir u); uo_fcr : byte (u_fcr u); uo_lcr : byte (u_lcr u);
  uo_mcr : byte (u_mcr u); uo_lsr : byte (u_lsr u); uo_msr : byte (u_msr u); uo_lsb : byte (u_lsb u);
  uo_msb : byte (u_msb u); uo_scr : byte (u_scr u);
}.
Record ata_ok (a : ata_t) : Prop := {
  ta_last : fits 16 (a_last_out a); ta_cmd : byte (a_cmd a); ta_head : byte (a_dev_head a);
  ta_cnt : fits 16 (a_cnt a); ta_lba : fits 32 (a_lba a);
}.
Definition pool_ok (data : bytes) : Prop := buf_ok (Z.to_nat VMM_IO_POOL_SZ) data.

Record dev_ok (s : dstate) : Prop := {
  do_mem : mem_ok (m_mem (d_m s));
  do_pool : pool_ok (d_pool s);
  do_cmd : byte (k_last_cmd (d_kbd s));
  do_port : byte (k_output_port (d_kbd s));
  do_ps2 : byte (d_ps2 s);
  do_uart : uart_ok (d_uart s);
  do_con : Forall (Forall byte) (d_con s);
  do_ata : ata_ok (d_ata s);
  do_icw2 : byte (d_icw2 s);
  do_pci : fits 32 (d_pci_addr s);
}.

(** What an exit finds in its qualification. *)
Definition io_ok (io : io_insn) : Prop := io_size_ok (io_sz io) = true /\ fits 16 (io_port io) /\ 0 <= io_cnt io.

(** ** Computations *)

Ltac head_of t := lazymatch t with ?f _ => head_of f | _ => t end.

Definition keeps {A} (m : M mach A) : Prop := forall s x s', m s = Some (x, s') -> m_mem s' = m_mem s.
Definition tyd {A} (m : M dstate A) (P : A -> Prop) : Prop := forall s x s', dev_ok s -> m s = Some (x, s') -> dev_ok s' /\ P x.

Lemma keeps_ret {A} (x : A) : keeps (mret x).
Proof. intros s y s' H. by injection H as <- <-. Qed.
Lemma keeps_fail {A} : keeps (@fail mach A).
Proof. done. Qed.
Lemma keeps_bind {A B} (m : M mach A) (k : A -> M mach B) : keeps m -> (forall x, keeps (k x)) -> keeps (m ≫= k).
Proof.
  intros Hm Hk s y s' H. unfold mbind, M_bind in H. destruct (m s) as [[x s1]|] eqn:E; [|done].
  by rewrite (Hk _ _ _ _ H), (Hm _ _ _ E).
Qed.
Lemma keeps_gets {A} (f : mach -> A) : keeps (gets f).
Proof. intros s y s' H. by injection H as <- <-. Qed.
Lemma keeps_modify f : (forall s, m_mem (f s) = m_mem s) -> keeps (modify f).
Proof. intros Hf s y s' H. injection H as <- <-. apply Hf. Qed.
Lemma keeps_when b m : keeps m -> keeps (when b m).
Proof. intros Hm. destruct b; [done|apply keeps_ret]. Qed.
Lemma keeps_if {A} (b : bool) (m m' : M mach A) : keeps m -> keeps m' -> keeps (if b then m else m').
Proof. by destruct b. Qed.
Lemma keeps_each {A} (l : list A) (f : A -> M mach unit) : (forall x, keeps (f x)) -> keeps (for_each l f).
Proof. intros Hf. induction l as [|x l IH]; cbn [for_each]; [apply keeps_ret|]. by apply keeps_bind. Qed.
Lemma keeps_vmcs {A} (m : M vmcs A) : keeps (on_vmcs m).
Proof. intros s y s' H. unfold on_vmcs, zoom in H. destruct (m _) as [[x v]|]; [|done]. by injection H as <- <-. Qed.

Ltac keep :=
  repeat lazymatch goal with
  | |- keeps (mret _) => apply keeps_ret
  | |- keeps fail => apply keeps_fail
  | |- keeps (_ ≫= _) => apply keeps_bind; [|intros ?]
  | |- keeps (gets _) => apply keeps_gets
  | |- keeps (modify _) => apply keeps_modify; intros ?; first [done | by case_decide]
  | |- keeps (when _ _) => apply keeps_when
  | |- keeps (if _ then _ else _) => apply keeps_if
  | |- keeps (for_each _ _) => apply keeps_each; intros ?
  | |- keeps (pre_access _) => apply keeps_vmcs
  | |- keeps (post_access _) => apply keeps_vmcs
  | |- keeps (putf _ _) => apply keeps_vmcs
  | |- keeps (let '_ := ?p in _) => destruct p
  | |- keeps match ?x with _ => _ end => destruct x
  | |- keeps ?m => let h := head_of m in unfold h; cbv zeta
  end.
Section machine.
Context {V : Vmx} {Hw : Hrd} (ar : area_t) (max_paddr : Z).

Lemma keeps_inject v e c : keeps (Cpu.inject_exception v e c).
Proof. keep. Qed.
Lemma keeps_interrupt v : keeps (inject_interrupt v).
Proof. keep. Qed.
Lemma keeps_wake : keeps (acpi_wake_up ar max_paddr).
Proof. keep. Qed.
Lemma keeps_done rc n : keeps (emulate_done rc n).
Proof. keep. Qed.

(** ** Rules *)

Lemma tyd_ret {A} (x : A) (P : A -> Prop) : P x -> tyd (mret x) P.
Proof. intros HP s y s' Hs H. by injection H as <- <-. Qed.
Lemma tyd_fail {A} (P : A -> Prop) : tyd fail P.
Proof. done. Qed.
Lemma tyd_bind {A B} (m : M dstate A) (k : A -> M dstate B) P Q : tyd m P -> (forall x, P x -> tyd (k x) Q) ->
  tyd (m ≫= k) Q.
Proof.
  intros Hm Hk s y s' Hs H. unfold mbind, M_bind in H. destruct (m s) as [[x s1]|] eqn:E; [|done].
  destruct (Hm _ _ _ Hs E) as [Hs1 HP]. by apply (Hk x HP s1).
Qed.
Lemma tyd_mono {A} (m : M dstate A) (P Q : A -> Prop) : tyd m P -> (forall x, P x -> Q x) -> tyd m Q.
Proof. intros Hm HPQ s x s' Hs H. destruct (Hm _ _ _ Hs H). auto. Qed.
Lemma tyd_gets {A} (f : dstate -> A) (P : A -> Prop) : (forall s, dev_ok s -> P (f s)) -> tyd (gets f) P.
Proof. intros Hf s x s' Hs H. injection H as <- <-. auto. Qed.
Lemma tyd_modify f : (forall s, dev_ok s -> dev_ok (f s)) -> tyd (modify f) any.
Proof. intros Hf s x s' Hs H. injection H as <- <-. auto. Qed.
Lemma tyd_when b m : (b = true -> tyd m any) -> tyd (when b m) any.
Proof. intros Hm. destruct b; [auto|by apply tyd_ret]. Qed.
Lemma tyd_if {A} (b : bool) (m m' : M dstate A) P : (b = true -> tyd m P) -> (b = false -> tyd m' P) ->
  tyd (if b then m else m') P.
Proof. destruct b; auto. Qed.

Lemma set_m_ok s m : dev_ok s -> mem_ok (m_mem m) -> dev_ok (set_m m s).
Proof. intros [] Hm. by constructor. Qed.
Lemma tyd_on_m {A} (m : M mach A) : keeps m -> tyd (on_m m) any.
Proof.
  intros Hm s x s' Hs H. unfold on_m, zoom in H. destruct (m _) as [[y m']|] eqn:E; [|done]. injection H as <- <-.
  split; [|done]. apply set_m_ok; [done|]. rewrite (Hm _ _ _ E). apply Hs.
Qed.

(** Fields of the state. *)
Lemma set_kbd_ok a b s : dev_ok s -> byte a -> byte b -> dev_ok (set_kbd (mk_kbd a b) s).
Proof. intros [] ? ?. by constructor. Qed.
Lemma set_ps2_ok v s : dev_ok s -> byte v -> dev_ok (set_ps2 v s).
Proof. intros [] ?. by constructor. Qed.
Lemma set_icw2_ok v s : dev_ok s -> byte v -> dev_ok (set_icw2 v s).
Proof. intros [] ?. by constructor. Qed.
Lemma set_uart_ok u s : dev_ok s -> uart_ok u -> dev_ok (set_uart u s).
Proof. intros [] ?. by constructor. Qed.
Lemma set_ata_ok a s : dev_ok s -> ata_ok a -> dev_ok (set_ata a s).
Proof. intros [] ?. by constructor. Qed.
Lemma set_pool_ok d s : dev_ok s -> pool_ok d -> dev_ok (set_pool d s).
Proof. intros [] ?. by constructor. Qed.
Lemma set_pci_ok a s : dev_ok s -> fits 32 a -> dev_ok (set_pci_addr a s).
Proof. intros [] ?. by constructor. Qed.

(** ** Ports and buffers *)

Lemma buf_put_ok n data got : buf_ok n data -> Forall byte got -> (length got <= n)%nat -> buf_ok n (buf_put data got).
Proof.
  intros [Hb Hl] Hg Hle. split; [|rewrite length_buf_put; lia]. apply Forall_app; split; [done|by apply Forall_drop].
Qed.
Lemma buf_nth n data i : buf_ok n data -> byte (nth i data 0).
Proof.
  intros [Hb _]. destruct (le_lt_dec (length data) i) as [Hi|Hi]; [rewrite nth_overflow by done; unfold fits; lia|].
  rewrite Forall_forall in Hb. apply Hb, list_elem_of_In, nth_In, Hi.
Qed.
Lemma size_cases io : io_ok io -> io_sz io = 1 \/ io_sz io = 2 \/ io_sz io = 4.
Proof. intros [H _]. unfold io_size_ok in H. lia. Qed.
Lemma length_le_bytes' n v : length (le_bytes n v) = Z.to_nat n.
Proof. unfold le_bytes. by rewrite length_fmap, length_seqZ. Qed.

Lemma tyd_port_in sz port : tyd (port_in sz port) any.
Proof. unfold port_in. apply (tyd_bind _ _ any); [by apply tyd_gets|]. intros h _. apply (tyd_bind _ _ any); [|intros; by apply tyd_ret].
  apply tyd_modify. by intros s []. Qed.
Lemma tyd_port_out sz port v : tyd (port_out sz port v) any.
Proof. apply tyd_modify. by intros s []. Qed.
Lemma tyd_rep_ins sz port n : 0 <= sz ->
  tyd (rep_ins sz port n) (fun l => Forall byte l /\ length l = (n * Z.to_nat sz)%nat).
Proof.
  intros Hsz. induction n as [|n IH]; cbn [rep_ins]; [by apply tyd_ret|].
  eapply tyd_bind; [apply tyd_port_in|]. intros v _. eapply tyd_bind; [apply IH|]. intros l [Hb Hl]. apply tyd_ret. split.
  - apply Forall_app; split; [apply le_bytes_fits|done].
  - rewrite length_app, length_le_bytes'. lia.
Qed.
Lemma tyd_rep_outs sz port n : forall data, tyd (rep_outs sz port n data) any.
Proof.
  induction n as [|n IH]; intros data; cbn [rep_outs]; [by apply tyd_ret|].
  eapply tyd_bind; [apply tyd_port_out|]. intros _ _. apply IH.
Qed.
Lemma tyd_in_buffer n data : tyd (in_buffer n data) (fun _ => n <= Z.of_nat (length data)).
Proof. unfold in_buffer. destruct (n <=? _) eqn:E; [|apply tyd_fail]. apply tyd_ret. lia. Qed.
Lemma tyd_pic io data : byte data -> tyd (io_pic_detect io data) any.
Proof.
  intros Hd. unfold io_pic_detect. apply tyd_if; intros _; [by apply tyd_ret|]. apply tyd_if; intros _.
  - apply tyd_when. intros _. apply tyd_modify. by intros s [].
  - eapply (tyd_bind _ _ any); [by apply tyd_gets|]. intros w _. apply tyd_when. intros _.
    apply (tyd_bind _ _ any); [apply tyd_modify; by intros s []|]. intros _ _.
    apply (tyd_bind _ _ any); [apply tyd_modify; intros; by apply set_icw2_ok|]. intros _ _. apply tyd_on_m. keep.
Qed.

(** ** Accesses *)

Lemma tyd_native n io data : buf_ok n data -> io_ok io -> tyd (dev_io_native io data) (fun r => buf_ok n r.2).
Proof.
  intros Hd Hio. pose proof (size_cases _ Hio) as Hsz. destruct Hio as (_ & Hport & Hcnt). unfold dev_io_native.
  eapply tyd_bind; [apply tyd_on_m; keep|]. intros _ _. apply tyd_if; intros _.
  - unfold io_string_native. apply tyd_if; intros _; [by apply tyd_ret|]. apply tyd_if; intros _.
    + eapply tyd_bind; [apply tyd_in_buffer|]. intros [] Hfit. eapply tyd_bind; [apply tyd_rep_ins; lia|].
      intros got [Hb Hl]. apply tyd_ret. apply buf_put_ok; [done|done|]. destruct Hd. cbn beta in *. nia.
    + eapply (tyd_bind _ _ any); [apply tyd_when; intros _; by eapply tyd_pic, buf_nth|]. intros _ _.
      eapply tyd_bind; [apply tyd_in_buffer|]. intros _ _. eapply tyd_bind; [apply tyd_rep_outs|]. intros _ _. by apply tyd_ret.
  - unfold io_simple_native. apply tyd_if; intros _; [by apply tyd_ret|]. apply tyd_if; intros _; [by apply tyd_ret|].
    eapply tyd_bind; [apply tyd_in_buffer|]. intros [] Hfit. apply tyd_if; intros _.
    + eapply tyd_bind; [apply tyd_port_in|]. intros v _. apply tyd_ret.
      apply buf_put_ok; [done|apply le_bytes_fits|]. rewrite length_le_bytes'. destruct Hd. lia.
    + eapply (tyd_bind _ _ any); [apply tyd_when; intros _; by eapply tyd_pic, buf_nth|]. intros _ _.
      eapply tyd_bind; [apply tyd_port_out|]. intros _ _. by apply tyd_ret.
Qed.

(** Memory of the vm. *)
Lemma vm_mem_typed n cr3 addr data len wr rq s r s' : buf_ok n data -> 0 <= len <= Z.of_nat n -> mem_ok (m_mem s) ->
  vm_mem ar (fun c => vm_access_linear c (vm_access_setup (cr3 c) addr data len wr rq false)) s = Some (r, s') ->
  mem_ok (m_mem s') /\ buf_ok n (va_data r.2) /\ 0 <= va_done r.2 <= Z.of_nat n.
Proof.
  intros Hd Hlen Hs H. unfold vm_mem in H. destruct (vm_access_linear _ _ _) as [[[rc ac] v]|] eqn:E; [|done].
  assert (acc_ok n ac v) as [A1 A2 A3 A4] by (eapply access_typed; [exact E|exact Hs|done|done]).
  unfold mbind, M_bind in H. destruct (for_each _ _ _) as [[[] m1]|] eqn:E1; [|done]. injection H as <- <-.
  split; [|by split]. assert (m_mem m1 = phys v) as ->; [|done].
  refine (keeps_each _ _ _ _ _ _ E1). intros x. apply keeps_inject.
Qed.
Lemma tyd_vm_mem n cr3 addr data len wr rq : buf_ok n data -> 0 <= len <= Z.of_nat n ->
  tyd (on_m (vm_mem ar (fun c => vm_access_linear c (vm_access_setup (cr3 c) addr data len wr rq false))))
    (fun r => buf_ok n (va_data r.2) /\ 0 <= va_done r.2 <= Z.of_nat n).
Proof.
  intros Hd Hlen s r s' Hs H. unfold on_m, zoom in H.
  match type of H with match ?t with _ => _ end = _ => destruct t as [[r' m']|] eqn:E; [|done] end. injection H as <- <-.
  destruct (vm_mem_typed n cr3 addr data len wr rq _ _ _ Hd Hlen (do_mem _ Hs) E). split; [|done]. by apply set_m_ok.
Qed.

Lemma tyd_insn_string_in n io data sz : buf_ok n data -> 0 <= z_miss sz -> 0 <= z_avail sz <= Z.of_nat n -> z_done sz = 0 ->
  tyd (io_insn_string_in ar io data sz) (fun r => 0 <= z_done r.2 <= Z.of_nat n).
Proof.
  intros Hd Hm Ha Hz. unfold io_insn_string_in. eapply tyd_bind; [apply tyd_on_m; keep|]. intros rdi _.
  eapply (tyd_bind _ _ (fun r => 0 <= z_done r.2 <= Z.of_nat n)).
  - apply tyd_if; intros _; [apply tyd_ret; cbn; lia|]. eapply tyd_bind; [apply tyd_on_m; keep|]. intros dst _.
    unfold vm_write_mem_sz. eapply tyd_bind; [apply (tyd_vm_mem n vcr3); [done|lia]|]. intros r [_ Hr]. by apply tyd_ret.
  - intros r Hr. eapply tyd_bind; [apply tyd_on_m; keep|]. intros _ _. by apply tyd_ret.
Qed.

Lemma tyd_get_uart : tyd (gets d_uart) uart_ok.
Proof. apply tyd_gets. by intros s []. Qed.
Lemma tyd_get_ata : tyd (gets d_ata) ata_ok.
Proof. apply tyd_gets. by intros s []. Qed.
Lemma tyd_get_pool : tyd (gets d_pool) pool_ok.
Proof. apply tyd_gets. by intros s []. Qed.
Lemma tyd_get_ps2 : tyd (gets d_ps2) byte.
Proof. apply tyd_gets. by intros s []. Qed.
Lemma tyd_get_kbd : tyd (gets d_kbd) (fun k => byte (k_last_cmd k) /\ byte (k_output_port k)).
Proof. apply tyd_gets. by intros s []. Qed.
Lemma tyd_get_al : tyd get_al byte.
Proof. unfold get_al. eapply tyd_bind; [apply tyd_on_m; keep|]. intros v _. apply tyd_ret, bits_fits; lia. Qed.

Ltac ty_first :=
  lazymatch goal with
  | |- tyd (gets d_uart) _ => apply tyd_get_uart
  | |- tyd (gets d_ata) _ => apply tyd_get_ata
  | |- tyd (gets d_pool) _ => apply tyd_get_pool
  | |- tyd (gets d_ps2) _ => apply tyd_get_ps2
  | |- tyd (gets d_kbd) _ => apply tyd_get_kbd
  | |- tyd get_al _ => apply tyd_get_al
  | |- tyd (on_m _) _ => apply tyd_on_m; solve [keep]
  | |- tyd (port_in _ _) _ => apply tyd_port_in
  | |- tyd (port_out _ _ _) _ => apply tyd_port_out
  | |- tyd (gets _) _ => apply (tyd_gets _ any); done
  | |- @tyd unit _ _ => lazymatch goal with |- tyd ?m _ => cut (tyd m any); [exact (fun H => H)|] end
  end.
Ltac ty_step :=
  lazymatch goal with
  | |- tyd (mret _) _ => apply tyd_ret
  | |- tyd fail _ => apply tyd_fail
  | |- tyd (if _ then _ else _) _ => apply tyd_if; intros ?
  | |- tyd (when _ _) _ => apply tyd_when; intros ?
  | |- tyd (on_m _) _ => apply tyd_on_m; solve [keep]
  | |- tyd (port_out _ _ _) _ => apply tyd_port_out
  | |- tyd (put_al _) _ => apply tyd_on_m; solve [keep]
  | |- tyd (_ ≫= _) _ => eapply tyd_bind; [ty_first|intros ? ?]
  | |- tyd match ?x with _ => _ end _ => destruct x
  end.
Ltac ty := repeat (ty_step; cbv zeta beta; cbn [fst snd]); try done.

Lemma tyd_insn_string_out n io data sz : buf_ok n data -> 0 <= z_miss sz -> 0 <= z_avail sz <= Z.of_nat n -> z_done sz = 0 ->
  tyd (io_insn_string_out ar io data sz) (fun r => buf_ok n r.1.2 /\ 0 <= z_done r.2 <= Z.of_nat n).
Proof.
  intros Hd Hm Ha Hz. unfold io_insn_string_out. ty_step.
  eapply (tyd_bind _ _ (fun r => buf_ok n r.1.2 /\ 0 <= z_done r.2 <= Z.of_nat n)).
  - ty; [split; [done|cbn; lia]|].
    unfold vm_read_mem_sz. eapply tyd_bind; [apply (tyd_vm_mem n vcr3); [done|lia]|]. intros r Hr. by apply tyd_ret.
  - intros r Hr. ty.
Qed.

Lemma tyd_insn n io data avail : buf_ok n data -> 0 <= avail <= Z.of_nat n -> io_ok io ->
  tyd (dev_io_insn ar io data avail) (fun r => buf_ok n r.1.2 /\ 0 <= z_done r.2 <= Z.of_nat n).
Proof.
  intros Hd Ha Hio. pose proof (size_cases _ Hio) as Hsz. unfold dev_io_insn. apply tyd_if; intros _.
  - unfold io_insn_string. ty_step. cbv zeta.
    set (sz := if io_rep io then _ else _).
    assert (0 <= z_miss sz /\ z_avail sz = avail /\ z_done sz = 0) as (Hm & Hav & Hz).
    { subst sz. destruct (io_rep io); cbn; [|lia]. split; [|done].
      apply (wrap_fits 64). lia. }
    eapply (tyd_bind _ _ (fun r => buf_ok n r.1.2 /\ 0 <= z_done r.2 <= Z.of_nat n)).
    + apply tyd_if; intros _; [|apply tyd_insn_string_out; [done|done|lia|done]].
      eapply tyd_bind; [apply (tyd_insn_string_in n); [done|done|lia|done]|]. intros r Hr. by apply tyd_ret.
    + intros r Hr. ty_step; [ty|]. ty.
  - unfold io_insn_simple. apply tyd_if; intros _; [apply tyd_ret; split; [done|cbn; lia]|].
    destruct (avail <? io_sz io) eqn:Hlt; cbn [z_avail]; rewrite Hlt; [apply tyd_ret; split; [done|cbn; lia]|].
    ty_step. cbv zeta. eapply (tyd_bind _ _ (buf_ok n)).
    + ty.
      apply buf_put_ok; [done|apply le_bytes_fits|]. rewrite length_le_bytes'. lia.
    + intros data' Hd'. apply tyd_ret. split; [done|]. cbn. lia.
Qed.
(** ** Filters and forwarded accesses *)

Lemma word_fits n data k : buf_ok n data -> fits (8 * Z.of_nat k) (le_word (take k data)).
Proof.
  intros [Hb _]. pose proof (le_word_fits (take k data) ltac:(by apply Forall_take)) as H.
  assert (length (take k data) <= k)%nat by (rewrite length_take; lia).
  destruct H as [? H]. split; [done|]. eapply Z.lt_le_trans; [exact H|]. apply Z.pow_le_mono_r; lia.
Qed.
Lemma fits_or w a b : 0 <= w -> fits w a -> fits w b -> fits w (Z.lor a b).
Proof.
  intros Hn Ha Hb. apply fits_of_testbit; [done|apply Z.lor_nonneg; split; [apply Ha|apply Hb]|].
  intros i Hi. rewrite Z.lor_spec, (fits_testbit _ _ _ Ha), (fits_testbit _ _ _ Hb) by done. done.
Qed.

Definition POOL : nat := Z.to_nat VMM_IO_POOL_SZ.
Lemma POOL_size : Z.of_nat POOL = 16384.
Proof. unfold POOL. apply Z2Nat.id. apply Z.leb_le. reflexivity. Qed.

Lemma pool_put data got : pool_ok data -> Forall byte got -> (length got <= 4)%nat -> pool_ok (buf_put data got).
Proof. intros Hd Hg Hl. apply buf_put_ok; [done|done|]. pose proof POOL_size. unfold POOL in *. lia. Qed.

Lemma tyd_set_ata f : (forall s, dev_ok s -> ata_ok (f s)) -> tyd (modify (fun s => set_ata (f s) s)) any.
Proof. intros Hf. apply tyd_modify. intros s Hs. apply set_ata_ok; auto. Qed.
Lemma tyd_set_uart f : (forall s, dev_ok s -> uart_ok (f s)) -> tyd (modify (fun s => set_uart (f s) s)) any.
Proof. intros Hf. apply tyd_modify. intros s Hs. apply set_uart_ok; auto. Qed.
Lemma tyd_flt f : tyd (modify (set_pci_flt f)) any.
Proof. apply tyd_modify. by intros s []. Qed.

Lemma tyd_filter f data : pool_ok data -> tyd (run_filter f data) (fun r => pool_ok r.2).
Proof.
  intros Hd. pose proof (buf_nth _ _ 0 Hd) as H0. destruct f; cbn [run_filter].
  - apply tyd_ret. cbn [snd]. destruct (_ =? 0); [|done]. apply pool_put; [done| |cbn; lia].
    apply Forall_cons; split; [|done]. apply fits_or; [lia|done|]. unfold fits. lia.
  - unfold dev_sio_filter_index. ty. apply tyd_modify. by intros s [].
  - unfold dev_pci_filter_addr. ty_step; [apply tyd_modify; intros; apply set_pci_ok; [done|by apply (word_fits _ _ 4 Hd)]|].
    eapply (tyd_bind _ _ any).
    { ty. unfold dev_pci_filter_e1000. ty; apply tyd_flt. }
    intros rc _. eapply (tyd_bind _ _ any); [unfold dev_pci_filter_ehci; ty; apply tyd_flt|]. intros rc' _. ty.
  - apply tyd_ret. cbn [snd]. repeat case_match; try done. apply pool_put; [done|apply le_bytes_fits|].
    by rewrite length_le_bytes'.
  - apply tyd_ret. cbn [snd]. case_match; [|done]. apply pool_put; [done|apply le_bytes_fits|]. by rewrite length_le_bytes'.
  - apply tyd_ret. cbn [snd]. case_match; [done|]. apply pool_put; [done|apply le_bytes_fits|]. by rewrite length_le_bytes'.
  - unfold dev_ata_lba_filter. ty_step. cbv zeta. set (idx := wrap8 _).
    assert (fits 8 idx) by (apply wrap_fits; lia). destruct (2 <? idx) eqn:Hidx; [by apply tyd_ret|]. ty.
    apply tyd_modify. intros s Hs. apply set_ata_ok; [done|]. destruct H as []. constructor; cbn; [done..|].
    unfold fits in *. apply set_bits_fits; [lia|lia|lia|done].
  - unfold dev_ata_scnt_filter. ty. apply tyd_modify. intros s Hs. apply set_ata_ok; [done|].
    match goal with H : ata_ok _ |- _ => destruct H end. constructor; cbn; try done. case_match; [by unfold fits; lia|].
    unfold fits in *. lia.
  - unfold dev_ata_cmd_filter. ty.
    + apply tyd_set_ata. intros s []. destruct do_ata0. by constructor.
    + apply tyd_modify. intros s Hs. apply set_ata_ok; [done|].
      match goal with H : ata_ok _ |- _ => destruct H end. constructor; cbn; try done.
      apply fits_or; [lia|done|]. rewrite Z.shiftl_mul_pow2 by lia. pose proof (bits_fits (a_dev_head x0) 0 4). unfold fits in *. lia.
Qed.
Lemma tyd_proxy io f : io_ok io -> tyd (dev_io_proxify_filter ar io f) any.
Proof.
  intros Hio. unfold dev_io_proxify_filter. set (avail := wrap64 _).
  assert (0 <= avail) as Ha by (apply (wrap_fits 64); lia).
  destruct (VMM_IO_POOL_SZ <? avail) eqn:Hle; [by apply tyd_ret|].
  assert (0 <= avail <= Z.of_nat (Z.to_nat VMM_IO_POOL_SZ)) as Hav by (rewrite Z2Nat.id; [lia|by apply Z.leb_le]).
  ty_step. eapply (tyd_bind _ _ (fun r => pool_ok r.2)).
  - apply tyd_if; intros _.
    + unfold dev_io_proxy_filter_in. eapply tyd_bind; [by eapply tyd_native|]. intros r Hr. apply tyd_if; intros _; [by apply tyd_ret|].
      eapply (tyd_bind _ _ (fun r => pool_ok r.2)); [destruct f; [by apply tyd_filter|by apply tyd_ret]|]. intros r1 Hr1.
      apply tyd_if; intros _; [by apply tyd_ret|]. eapply tyd_bind; [by eapply tyd_insn|]. intros r2 [Hr2 _]. by apply tyd_ret.
    + unfold dev_io_proxy_filter_out. eapply tyd_bind; [by eapply tyd_insn|]. intros r [Hr _]. apply tyd_if; intros _; [by apply tyd_ret|].
      eapply (tyd_bind _ _ (fun r => pool_ok r.2)); [destruct f; [by apply tyd_filter|by apply tyd_ret]|]. intros r1 Hr1.
      apply tyd_if; intros _; [by apply tyd_ret|]. apply tyd_if; intros _; [|by apply tyd_ret].
      eapply tyd_bind; [by eapply tyd_native|]. intros r2 Hr2. by apply tyd_ret.
  - intros r Hr. ty. apply tyd_modify. intros. by apply set_pool_ok.
Qed.

(** ** The devices *)

Ltac handler := lazymatch goal with |- tyd ?m _ => let h := head_of m in unfold h; cbv zeta end.

Lemma tyd_kbd io : tyd (dev_kbd io) any.
Proof.
  handler. apply tyd_if; intros _; [|apply tyd_if; intros _; [|ty]].
  - handler. ty. apply tyd_modify. intros s Hs. apply set_kbd_ok; [done|done|]. apply Hs.
  - handler. ty. apply tyd_modify. intros s Hs. apply set_kbd_ok; [done| |done]. apply H0.
Qed.

Lemma tyd_insn1 io v : byte v -> io_ok io -> tyd (dev_io_insn ar io [v] 1) (fun r => buf_ok 1 r.1.2).
Proof.
  intros Hv Hio. eapply tyd_mono; [apply (tyd_insn 1); [|lia|done]|by intros r []]. split; [|done].
  by apply Forall_cons.
Qed.

Lemma tyd_ps2 io : io_ok io -> tyd (dev_ps2 ar io) any.
Proof.
  intros Hio. handler. ty_step. eapply tyd_bind; [by apply tyd_insn1|]. intros r Hr. cbv zeta.
  ty. apply tyd_modify. intros s Hs. apply set_ps2_ok; [done|]. exact (buf_nth _ _ _ Hr).
Qed.

(** Serial line. *)
Lemma uart_index_ok v u : uart_ok u -> 0 <= v <= DEV_UART_BUFF_LEN -> uart_ok (uart_index v u).
Proof. intros [] Hv. by constructor. Qed.
Lemma uart_iir_ok v u : uart_ok u -> byte v -> uart_ok (uart_iir v u).
Proof. intros [] Hv. by constructor. Qed.

Lemma tyd_flush : tyd dev_uart_flush any.
Proof.
  unfold dev_uart_flush. ty.
  - apply tyd_modify. intros s Hs. match goal with H : uart_ok _ |- _ => destruct H as [[Hb _] _] end. destruct Hs.
    constructor; try done. apply Forall_cons; split; [by apply Forall_take|done].
  - apply tyd_modify. intros s Hs. apply set_uart_ok; [done|]. apply uart_index_ok; [done|]. unfold DEV_UART_BUFF_LEN. lia.
Qed.

Lemma tyd_xfr_step io : io_ok io -> tyd (uart_xfr_step ar io) any.
Proof.
  intros Hio. handler. ty_step. rename x into u. rename H into Hu.
  pose proof (uo_index _ Hu) as Hi. destruct (uo_buffer _ Hu) as [Hb Hl]. unfold DEV_UART_BUFF_LEN in *.
  eapply tyd_bind; [apply (tyd_insn (Z.to_nat (64 - u_index u))); [|lia|done]|].
  - split; [by apply Forall_drop|]. rewrite length_drop. lia.
  - intros r [[Hrb Hrl] Hd]. ty_step.
    { apply tyd_modify. intros s Hs. apply set_uart_ok; [done|]. destruct Hu. constructor; try done. split.
      - apply Forall_app; split; [by apply Forall_take|done].
      - cbn. rewrite length_app, length_take. lia. }
    assert (wrap32 (u_index u + z_done r.2) = u_index u + z_done r.2) as -> by (apply wrap_id; unfold fits; lia).
    ty.
    + apply tyd_set_uart. intros s Hs. apply uart_index_ok; [apply Hs|]. unfold DEV_UART_BUFF_LEN. lia.
    + apply tyd_set_uart. intros s Hs. apply uart_index_ok; [apply Hs|]. unfold DEV_UART_BUFF_LEN. lia.
    + apply tyd_flush.
Qed.
Lemma tyd_xfr fuel io : io_ok io -> tyd (dev_uart_xfr ar fuel io) any.
Proof.
  intros Hio. induction fuel as [|fuel IH]; cbn [dev_uart_xfr]; [apply tyd_fail|].
  eapply tyd_bind; [by apply tyd_xfr_step|]. intros r _. ty.
Qed.
(** A register: how it is put back keeps the others. *)
Definition reg_ok (get : uart_t -> Z) (put : Z -> uart_t -> uart_t) : Prop :=
  (forall u, uart_ok u -> byte (get u)) /\ (forall v u, uart_ok u -> byte v -> uart_ok (put v u)).
Ltac reg := split; [intros u []; assumption|intros v u [] Hv; by constructor].

Lemma tyd_reg io get put : io_ok io -> reg_ok get put -> tyd (reg_io ar io get put) any.
Proof.
  intros Hio [Hg Hp]. handler. eapply (tyd_bind _ _ byte); [apply tyd_gets; intros s []; auto|]. intros v Hv.
  eapply tyd_bind; [by apply tyd_insn1|]. intros r Hr. ty. apply tyd_set_uart. intros s []. apply Hp; [done|].
  exact (buf_nth _ _ _ Hr).
Qed.

Lemma tyd_uart fuel io : io_ok io -> tyd (dev_uart ar fuel io) any.
Proof.
  intros Hio. handler. ty.
  - handler. ty_step. ty; apply tyd_reg; [done|reg|done|reg].
  - by apply tyd_xfr.
  - handler. eapply tyd_bind; [apply tyd_reg; [done|reg]|]. intros rc _. ty.
    + apply tyd_modify. intros s Hs. apply set_uart_ok; [done|]. apply uart_iir_ok; [done|].
      match goal with H : uart_ok ?u |- byte (set_bits (u_iir ?u) _ _ _) => destruct H end. apply set_bits_fits; lia || done.
  - handler. eapply tyd_bind; [apply tyd_reg; [done|reg]|]. intros rc _. ty.
    apply tyd_modify. intros s Hs. apply set_uart_ok; [done|]. apply uart_iir_ok; [done|].
    match goal with H : uart_ok ?u |- byte (set_bits (u_iir ?u) _ _ _) => destruct H end. apply set_bits_fits; lia || done.
  - apply tyd_reg; [done|reg].
  - apply tyd_reg; [done|reg].
  - apply tyd_reg; [done|reg].
  - apply tyd_reg; [done|reg].
  - apply tyd_reg; [done|reg].
  - apply tyd_reg; [done|reg].
Qed.

(** Disk. *)
Hypothesis undef_ok : byte hrd_undef.

Lemma tyd_fake_status : tyd fake_ata_status any.
Proof. handler. ty. Qed.
Lemma tyd_ata io : io_ok io -> tyd (dev_ata ar io) any.
Proof.
  intros Hio. handler. ty; try by apply tyd_proxy.
  - apply tyd_set_ata. intros s []. destruct do_ata0, Hio as (_ & ? & _). by constructor.
  - handler. ty; [apply tyd_fake_status|by apply tyd_proxy].
  - handler. ty; [apply tyd_fake_status|by apply tyd_proxy].
  - handler. ty; [by apply tyd_proxy|]. eapply tyd_bind; [by apply tyd_insn1|]. intros r Hr. ty.
    + apply tyd_set_ata. intros s []. destruct do_ata0. constructor; try done. exact (buf_nth _ _ _ Hr).
    + eapply tyd_bind; [eapply tyd_native; [exact Hr|done]|]. intros r' _. ty.
  - handler. ty; [by apply tyd_proxy|]. eapply tyd_bind; [by apply tyd_proxy|]. intros rc _. ty.
    apply tyd_set_ata. intros s []. destruct do_ata0. constructor; try done; cbn; apply wrap_fits; lia.
Qed.

Lemma tyd_sio_flt f : tyd (modify (set_sio_flt f)) any.
Proof. apply tyd_modify. by intros s []. Qed.
Lemma tyd_sio io : io_ok io -> tyd (dev_sio ar io) any.
Proof. intros Hio. handler. ty; try apply tyd_sio_flt. by apply tyd_proxy. Qed.
Lemma tyd_pci io : io_ok io -> tyd (dev_pci ar io) any.
Proof. intros Hio. handler. ty; try apply tyd_flt. by apply tyd_proxy. Qed.

Lemma tyd_acpi io : io_ok io -> tyd (dev_acpi_pm1_ctl ar max_paddr io) any.
Proof.
  intros Hio. handler. assert (buf_ok 2 [hrd_undef; hrd_undef]) as Hu by (split; [apply Forall_cons; split; [done|]; by apply Forall_cons|done]).
  apply tyd_if; intros _.
  - eapply tyd_bind; [by eapply tyd_native|]. intros r Hr. ty. eapply tyd_bind; [eapply (tyd_insn 2); [done|lia|done]|].
    intros r' _. ty.
  - eapply tyd_bind; [eapply (tyd_insn 2); [done|lia|done]|]. intros r [Hr _]. ty.
    eapply tyd_bind; [eapply tyd_native; [exact Hr|done]|]. intros r' _. ty.
Qed.

Lemma tyd_dispatch fuel io : io_ok io -> tyd (dev_dispatch ar max_paddr fuel io) any.
Proof.
  intros Hio. handler. ty; [by apply tyd_pci|by apply tyd_sio|by apply tyd_acpi|by apply tyd_ps2|apply tyd_kbd|
    by apply tyd_uart|by apply tyd_ata|by apply tyd_proxy].
Qed.

(** ** The exit *)

Lemma tyd_io_init : tyd vmx_io_init (fun r => r.1 = VM_DONE -> io_ok r.2).
Proof.
  unfold vmx_io_init. ty_step. ty_step. rename x0 into q. cbv zeta.
  assert (fits 16 (bits q 16 16)) as Hp by (apply bits_fits; lia).
  apply tyd_if; intros Hsz; [by apply tyd_ret|]. apply negb_false_iff in Hsz.
  apply tyd_if; intros _; [apply tyd_ret; intros _; split_and!; cbn; done|].
  ty_step. eapply (tyd_bind _ _ any); [unfold vmx_io_str_info; ty|]. intros d _.
  destruct (negb _) eqn:Hd; [apply tyd_ret; cbn; intros E; rewrite E in Hd; by rewrite bool_decide_eq_true_2 in Hd|].
  apply tyd_if; intros _; [by apply tyd_ret|]. ty_step. ty_step. apply tyd_ret. intros _. split_and!; [done|done|].
  cbn [io_cnt snd]. destruct (bit q 5); [|lia]. apply Z.land_nonneg. right. apply Z.shiftr_nonneg. by apply Z.leb_le.
Qed.

Lemma tyd_resolve_io fuel : tyd (vmx_vmexit_resolve_io ar max_paddr fuel) any.
Proof.
  unfold vmx_vmexit_resolve_io, dev_access. eapply (tyd_bind _ _ any).
  - eapply tyd_bind; [apply tyd_io_init|]. intros r Hr. destruct (negb _) eqn:E; [by apply tyd_ret|].
    apply tyd_dispatch, Hr. by apply negb_false_iff, bool_decide_eq_true in E.
  - intros rc _. ty.
Qed.
End machine.

(** ** The state the set-up leaves *)

Lemma dev_init_ok `{Hrd} s : dev_ok s -> dev_ok (vm_dev_init s).
Proof.
  intros [Hm ? ? ? ? [] ? [] ? ?].
  assert (m_mem (d_m (vm_dev_init s)) = m_mem (d_m s)) as Em by (unfold vm_dev_init; by destruct (cfg_net || cfg_ehci_2nd)).
  constructor; [by rewrite Em|done|by unfold fits|done|done| |done|by constructor|by unfold fits|done].
  constructor; cbn; try (by unfold fits); try done; try (unfold fits, DEV_UART_BUFF_LEN; lia).
  apply set_bits_fits; [lia|lia|lia|]. by apply set_bits_fits; [lia|lia|lia|].
Qed.

(** ** Example: the vm is about to send a byte on its serial line *)

#[local] Existing Instance ex_hrd.
#[local] Existing Instance ex_vmx.

Definition ex_out_fields (f : field) : Z :=
  if decide (f = info_qualification) then 0x3f80000 else if decide (f = info_insn_len) then 1 else 0.
Definition ex_out (pool : bytes) : dstate :=
  set_pool pool (set_m (ex_mach ex_out_fields (fun _ => 0x41) 0 0 true ∅) (ex_dev (fun _ => 0) ∅)).
Lemma replicate_ok n : buf_ok n (replicate n 0).
Proof. split; [|apply length_replicate]. apply Forall_replicate. by unfold fits. Qed.
Lemma ex_out_ok pool : pool_ok pool -> dev_ok (ex_out pool).
Proof.
  intros Hp. assert (mem_ok ∅) as Hm by (intros a; unfold rd0; by rewrite lookup_empty).
  constructor; try exact Hm; try done; try exact (conj (Z.le_refl 0) eq_refl).
  constructor; [apply (replicate_ok 64)|..]; split; discriminate || reflexivity.
Qed.
