(* ===== verification/ExitDt.v ===== *)
(** * Descriptor table registers of a vm in real mode (vmm/src/vmx/vmx_exit_dt.c)

    lgdt, lidt, sgdt and sidt are intercepted in real mode: the vmm runs the
    vm with its own limit of the interrupt table, and keeps the limit the vm
    believes in. *)

From S2P Require Import Prelude.
From S2P Require Import Monad.
From S2P Require Import Pagemem.
From S2P Require Import Walk.
From S2P Require Import Vm.
From S2P Require Import Words.
From S2P Require Import Vmcs.
From S2P Require Import Machine.
From S2P Require Import Cpu.
From S2P Require Import CpuRegs.
From S2P Require Import Rmode.
From S2P Require Import Dev.

(** ** The instruction information (include/vmx_types.h) *)

Definition dt_scale (i : Z) : Z := bits i 0 2.
Definition dt_addr_sz (i : Z) : Z := bits i 7 3.
Definition dt_op (i : Z) : Z := bits i 11 1.
Definition dt_seg (i : Z) : Z := bits i 15 3.
Definition dt_idx (i : Z) : Z := bits i 18 4.
Definition dt_no_idx (i : Z) : bool := bit i 22.
Definition dt_base (i : Z) : Z := bits i 23 4.
Definition dt_no_base (i : Z) : bool := bit i 27.
Definition dt_type (i : Z) : Z := bits i 28 2.

Definition TYPE_SGDT : Z := 0.
Definition TYPE_SIDT : Z := 1.
Definition TYPE_LGDT : Z := 2.
Definition TYPE_LIDT : Z := 3.
Definition OP_SZ_16 : Z := 0.

(** [dt_reg_t], as the ten bytes it is in memory; the stack it is on is not
    initialised. *)
Record dt_reg := mk_dt { dt_limit : Z; dt_base_addr : Z }.
Definition dt_bytes (d : dt_reg) : bytes := le_bytes 2 (dt_limit d) ++ le_bytes 8 (dt_base_addr d).
Definition dt_of_bytes (b : bytes) : dt_reg := mk_dt (le_word (take 2 b)) (le_word (drop 2 b)).

Section dt.
Context {V : Vmx} {Hw : Hrd} (ar : area_t).

Definition vmexit_lgdt (d : dt_reg) : M mach vm_code :=
  c ← cpl;
  if c_true c then mret VM_FAIL
  else
    putf st_gdtr_base (dt_base_addr d) ;; put_fld st_gdtr_limit 0 16 (dt_limit d) ;;
    post_access st_gdtr_base ;; post_access st_gdtr_limit ;; mret VM_DONE.

Definition vmexit_lidt (d : dt_reg) : M mach vm_code :=
  c ← cpl;
  if c_true c then mret VM_FAIL
  else
    l ← gets m_idt_saved;
    when (negb (l =? dt_limit d)) (modify (with_idt_saved (dt_limit d))) ;;
    putf st_idtr_base (dt_base_addr d) ;; post_access st_idtr_base ;; mret VM_DONE.

Definition vmexit_sgdt : M mach dt_reg :=
  pre_access st_gdtr_base ;; pre_access st_gdtr_limit ;;
  b ← getf st_gdtr_base; l ← getf st_gdtr_limit; mret (mk_dt (bits l 0 16) b).

Definition vmexit_sidt : M mach dt_reg :=
  pre_access st_idtr_base ;;
  b ← getf st_idtr_base; l ← gets m_idt_saved; mret (mk_dt l b).

(** The base of the segment of the operand. *)
Definition dt_seg_base (seg : Z) : M mach Z :=
  match [st_es_base; st_cs_base; st_ss_base; st_ds_base; st_fs_base; st_gs_base] !! Z.to_nat seg with
  | Some f => pre_access f ;; getf f
  | None => mret 0
  end.

Definition dt_reg_of (r : Z) : Z := GPR64_RAX - Z.land r GPR64_RAX.

(** The address of the operand; the shift that gives the mask is undefined for
    64-bit addresses. *)
Definition dt_operand (i disp : Z) : M mach Z :=
  if 2 <=? dt_addr_sz i then fail
  else
    let addr_msk := Z.shiftl 1 (16 * Z.shiftl 1 (dt_addr_sz i)) - 1 in
    seg ← dt_seg_base (dt_seg i);
    base ← (if negb (dt_no_base i) then r ← get_gpr (dt_reg_of (dt_base i)); mret (Z.land r addr_msk) else mret 0);
    idx ← (if negb (dt_no_idx i) then
             r ← get_gpr (dt_reg_of (dt_idx i)); mret (wrap64 (Z.land r addr_msk * Z.shiftl 1 (dt_scale i)))
           else mret 0);
    mret (wrap64 (wrap64 (wrap64 (seg + base) + idx) + Z.land disp addr_msk)).

(** The mask of the base and the size of the operand. *)
Definition dt_shape (mode op : Z) : Z * Z :=
  if mode =? 64 then (2 ^ 64 - 1, 10) else if op =? OP_SZ_16 then (2 ^ 24 - 1, 6) else (2 ^ 32 - 1, 6).

(** The upper bytes of the operand that is not read are [hrd_undef]. *)
Definition vmx_vmexit_resolve_dt : M mach vm_code :=
  rm ← is_rmode;
  if negb rm then mret VM_FAIL
  else
    pre_access info_insn_info ;; pre_access info_qualification ;;
    i ← getf info_insn_info; disp ← getf info_qualification;
    dt_addr ← dt_operand i disp;
    efer ← gets m_efer; cr0 ← getf exec_cr0_read_shadow; fl ← getf st_rflags; attr ← getf st_cs_attributes;
    let '(op_msk, sz) := dt_shape (cpu_addr_sz efer cr0 fl attr) (dt_op i) in
    let undef := replicate 10 hrd_undef in
    rc ← (if dt_type i <? TYPE_LGDT then
            d ← (if dt_type i =? TYPE_SGDT then vmexit_sgdt else vmexit_sidt);
            let d := mk_dt (dt_limit d) (Z.land (dt_base_addr d) op_msk) in
            r ← vm_mem ar (fun c => vm_write_mem_sz c dt_addr (dt_bytes d) sz);
            mret (if bool_decide (r.1 = VM_DONE) then None else Some r.1, VM_DONE)
          else
            r ← vm_mem ar (fun c => vm_read_mem_sz c dt_addr undef sz);
            if negb (bool_decide (r.1 = VM_DONE)) then mret (Some r.1, VM_DONE)
            else
              let d := dt_of_bytes (va_data r.2) in
              let d := mk_dt (dt_limit d) (Z.land (dt_base_addr d) op_msk) in
              rc ← (if dt_type i =? TYPE_LGDT then vmexit_lgdt d else vmexit_lidt d);
              mret (None, rc));
    match rc.1 with
    | Some rc => mret rc
    | None => pre_access info_insn_len ;; n ← getf info_insn_len; emulate_done rc.2 n
    end.
End dt.
