(* ===== verification/Exits.v ===== *)
(** * The exit handler (vmm/src/vmx/vmx_exit.c, vmx_exit_excp.c, vmx_exit_pf.c, vmx_exit_db.c, vmm/src/core/excp.c)

    [vmx_vmexit_handler] is all that runs between an exit of the vm and its
    resumption: it loads the fields every handler reads, calls the resolver of
    the reason of the exit, delivers again the event the exit interrupted,
    completes a single step lost by the emulation of an instruction, runs the
    controller and commits the control structure.  It has no result when the
    vmm stops the vm. *)

From S2P Require Import Prelude.
From S2P Require Import Monad.
From S2P Require Import Pagemem.
From S2P Require Import Walk.
From S2P Require Import Vm.
From S2P Require Import Words.
From S2P Require Import Vmcs.
From S2P Require Import Machine.
From S2P Require Import Cpu.
From S2P Require Import CpuRegs.
From S2P Require Import Rmode.
From S2P Require Import Dev.
From S2P Require Import DevHdl.
From S2P Require Import ExitDt.

(** ** State

    The devices with the machine, and the data of the last fault, [fault] in
    [vm_cpu_t]. *)

Record npf_t := mk_npf { npf_err : Z; npf_paddr : Z; npf_vaddr : Z }.
Record xstate := mk_x { x_d : dstate; x_excp_err : Z; x_npf : npf_t; x_vmexit_cnt : Z }.
Definition set_d v s := mk_x v (x_excp_err s) (x_npf s) (x_vmexit_cnt s).
Definition set_excp_err v s := mk_x (x_d s) v (x_npf s) (x_vmexit_cnt s).
Definition set_npf v s := mk_x (x_d s) (x_excp_err s) v (x_vmexit_cnt s).
Definition set_vmexit_cnt v s := mk_x (x_d s) (x_excp_err s) (x_npf s) v.
Definition mach_of (s : xstate) : mach := d_m (x_d s).

(** What the exits ask of the controller ([Ctrl]); it works on the machine. *)
Class Controller := {
  ask_excp : Z -> M mach vm_code;
  ask_npf : M mach vm_code;
  ask_hypercall : M mach vm_code;
  run_controller : M mach vm_code;
}.

Definition VMX_VMEXIT_EXCP_NMI : Z := 0.
Definition VMX_VMEXIT_NMI_WIN : Z := 8.
Definition VMX_VMEXIT_MACH_CHECK : Z := 41.
Definition VMX_VMEXIT_EPT : Z := 48.
Definition VMX_VMEXIT_EPT_CONF : Z := 49.
Definition HYPERCALL_INSN_SZ : Z := 3.
Definition VMX_ACTIVITY_HALT : Z := 1.
Definition VMX_ACTIVITY_SHUTDOWN : Z := 2.
Definition VMX_ACTIVITY_SIPI : Z := 3.
Definition DBGCTL_BTF_BIT : Z := 1.
Definition DBG_BE_BIT : Z := 12.
Definition DBG_BS_BIT : Z := 14.

Section exits.
Context {V : Vmx} {Hw : Hrd} {C : Controller} (ar : area_t) (max_paddr : Z).
(** The map of the memory and what the debugger asks of the emulation, the
    instruction under the instruction pointer, and the virtual processor. *)
Context (smap_raw smap_nr : Z) (stp brk_insn : bool) (x0 : Z) (dis : mach -> vm_code + ud_t) (q : cpuid_qemu) (fuel : nat).

Definition on_d {A} (m : M dstate A) : M xstate A := zoom x_d set_d m.
Definition on_mach {A} (m : M mach A) : M xstate A := on_d (on_m m).

(** ** Exceptions (excp.c, vmx_exit_excp.c)

    [vmm_excp_mce] only prints. *)

Definition resolve_exception_with (vector error fault : Z) : M xstate vm_code :=
  modify (set_excp_err error) ;;
  rc ← on_mach (ask_excp vector);
  when (bool_decide (rc = VM_IGNORE)) (on_mach (inject_exception vector error fault)) ;; mret rc.

(** [__exception_fault] *)
Definition exception_fault (qualification : Z) : Z := Z.land qualification 0xffffffff.

Definition resolve_exception : M xstate vm_code :=
  i ← on_mach (getf info_int_info); f ← on_mach (getf info_qualification); e ← on_mach (getf info_int_err_code);
  let vector := bits i 0 8 in
  when (vector =? PF_EXCP) (on_mach (putf st_cr2 (exception_fault f) ;; post_access st_cr2)) ;;
  resolve_exception_with vector e (exception_fault f).

Definition excp_dr6 : M mach unit :=
  f ← getf info_qualification; put_fld st_dr6 0 16 (bits f 0 16) ;; on_vmcs (vmcs_set_read st_dr6).

Definition vmx_vmexit_resolve_excp : M xstate vm_code :=
  on_mach (pre_access info_int_info ;; pre_access info_int_err_code ;; pre_access info_qualification) ;;
  i ← on_mach (getf info_int_info);
  let vector := bits i 0 8 in
  if vector =? GP_EXCP then
    rm ← on_mach is_rmode;
    if (rm : bool) then
      m ← gets mach_of;
      on_mach (vmx_vmexit_resolve_rmode_gp ar max_paddr smap_raw smap_nr stp brk_insn x0 (dis m))
    else resolve_exception
  else when (vector =? DB_EXCP) (on_mach excp_dr6) ;; resolve_exception.

(** ** Faults of the nested paging (vmx_exit_pf.c) *)

Definition vmx_vmexit_resolve_ept_viol : M xstate vm_code :=
  on_mach (pre_access info_qualification) ;;
  e ← on_mach (getf info_qualification);
  on_mach (pre_access info_guest_physical) ;;
  p ← on_mach (getf info_guest_physical);
  v ← on_mach (if bit e 7 then pre_access info_guest_linear ;; getf info_guest_linear
               else rip ← getf st_rip; mret (Z.land rip 0xffffffff));
  modify (set_npf (mk_npf e p v)) ;;
  rc ← on_mach ask_npf;
  mret (if bool_decide (rc = VM_IGNORE) then VM_FAIL else VM_DONE).

(** ** Hypercalls (insn.c) *)

Definition resolve_hypercall : M xstate vm_code :=
  rc ← on_mach ask_hypercall;
  on_mach (if bool_decide (rc = VM_IGNORE) then inject_exception UD_EXCP 0 0 ;; mret VM_DONE
           else finish HYPERCALL_INSN_SZ VM_DONE).

Definition resolve_default : M xstate vm_code := mret VM_FAIL.

(** ** Dispatch (vmx_exit.c) *)

Definition vmx_vmexit_resolvers : list (M xstate vm_code) :=
  [ vmx_vmexit_resolve_excp; on_mach vmx_vmexit_resolve_intr; resolve_default; resolve_default; resolve_default;
    resolve_default; resolve_default; on_mach vmx_vmexit_resolve_iwe; resolve_default; resolve_default;
    on_mach (resolve_cpuid q); resolve_default; resolve_default; resolve_default; resolve_default; resolve_default;
    resolve_default; resolve_default; resolve_hypercall; resolve_default; resolve_default; resolve_default;
    resolve_default; resolve_default; resolve_default; resolve_default; resolve_default; resolve_default;
    on_mach (vmx_vmexit_resolve_cr_access ar max_paddr); on_mach vmx_vmexit_resolve_dr_access;
    on_d (vmx_vmexit_resolve_io ar max_paddr fuel); on_mach (resolve_msr false); on_mach (resolve_msr true);
    resolve_default; resolve_default; resolve_default; resolve_default; resolve_default; resolve_default; resolve_default;
    resolve_default; resolve_default; resolve_default; resolve_default; resolve_default; resolve_default;
    on_mach (vmx_vmexit_resolve_dt ar); resolve_default; vmx_vmexit_resolve_ept_viol; resolve_default; resolve_default;
    resolve_default; resolve_default; resolve_default; on_mach resolve_wbinvd; on_mach resolve_xsetbv ].

Definition vmx_vmexit_resolve (reason : Z) : M xstate vm_code :=
  match vmx_vmexit_resolvers !! Z.to_nat reason with Some h => h | None => mret VM_FAIL end.

Definition vmx_vmexit_resolve_dispatcher : M xstate vm_code :=
  r ← on_mach (getf info_reason); vmx_vmexit_resolve (bits r 0 16).

(** ** Debug exceptions lost by the emulation (vmx_exit_db.c)

    The answer of [vmx_db_pending_discarded] is only printed. *)

Definition vmx_vmexit_on_event (reason : Z) : bool := (reason <=? VMX_VMEXIT_NMI_WIN) || (reason =? VMX_VMEXIT_MACH_CHECK).
Definition vmx_vmexit_on_ept (reason : Z) : bool := (reason =? VMX_VMEXIT_EPT) || (reason =? VMX_VMEXIT_EPT_CONF).
Definition vmexit_on_insn : M mach bool :=
  r ← getf info_reason; e ← gets m_emu_done;
  let r := bits r 0 16 in mret (negb (vmx_vmexit_on_ept r) && negb (vmx_vmexit_on_event r) || e).

Definition vmx_db_pending_discarded : M mach bool :=
  i ← getf entry_int_info;
  if negb (bit i INT_V_BIT) then
    pre_access st_activity ;; a ← getf st_activity; mret ((a =? VMX_ACTIVITY_SHUTDOWN) || (a =? VMX_ACTIVITY_SIPI))
  else
    let type := bits i 8 3 in
    if bool_decide (type ∈ [2; VMCS_EVT_INFO_TYPE_HW_INT; VMCS_EVT_INFO_TYPE_HW_EXCP; 5]) then mret true
    else if bool_decide (type ∈ [VMCS_EVT_INFO_TYPE_SW_INT; 6]) then
      pre_access st_interrupt ;; i ← getf st_interrupt; mret (negb (bit i MSS_BIT))
    else mret false.

Definition vmx_db_check_pending_stp : M mach vm_code :=
  fl ← getf st_rflags;
  if negb (bit fl RFLAGS_TF_BIT) then mret VM_IGNORE
  else put_fld st_rflags RFLAGS_TF_BIT 1 0 ;; post_access st_rflags ;; mret VM_DONE.

Definition vmx_db_check_pending_any : M mach vm_code :=
  on ← vmexit_on_insn;
  if negb on then mret VM_IGNORE
  else
    rc ← vmx_db_check_pending_stp;
    when (bool_decide (rc = VM_DONE)) (put_fld st_dbg_excp DBG_BS_BIT 1 1 ;; post_access st_dbg_excp) ;;
    mret VM_DONE.

Definition vmx_db_check_pending : M mach unit :=
  pre_access st_dbg_excp ;;
  _ ← vmx_db_check_pending_any;
  d ← getf st_dbg_excp;
  if bit d DBG_BE_BIT || bit d DBG_BS_BIT then _ ← vmx_db_pending_discarded; mret tt else mret tt.

Definition vmx_check_dbgctl : M mach unit :=
  pre_access st_activity ;; pre_access st_interrupt ;;
  i ← getf st_interrupt; a ← getf st_activity;
  if negb (bit i STI_BIT) && negb (bit i MSS_BIT) && negb (a =? VMX_ACTIVITY_HALT) then mret tt
  else
    pre_access st_ia32_dbgctl ;; pre_access st_dbg_excp ;;
    fl ← getf st_rflags; c ← getf st_ia32_dbgctl; d ← getf st_dbg_excp;
    (if bit fl RFLAGS_TF_BIT && negb (bit c DBGCTL_BTF_BIT) then put_fld st_dbg_excp DBG_BS_BIT 1 1
     else when (bit d DBG_BS_BIT) (put_fld st_dbg_excp DBG_BS_BIT 1 0)) ;;
    post_access st_dbg_excp.

(** ** The handler (vmx_exit.c)

    [vmx_vmexit_failure] never returns.  The end of the handler compares the
    codes of include/vmerr.h, that are all different from zero. *)

Definition code_val (rc : vm_code) : Z :=
  match rc with
  | VM_FAIL => 1 | VM_FAULT => 2 | VM_DONE => 4 | VM_DONE_LET_RIP => 8
  | VM_NATIVE => 16 | VM_IGNORE => 32 | VM_INTERN => 64 | VM_PARTIAL => 128
  end.

Definition vmx_vmexit_failure {A} : M xstate A := fail.

Definition vmx_vmexit_post : M xstate unit :=
  on_mach vmx_db_check_pending ;;
  rc ← on_mach run_controller;
  (if c_true (Z.land (code_val rc) (Z.lor (code_val VM_FAIL) (code_val VM_FAULT))) then vmx_vmexit_failure else mret tt) ;;
  on_mach vmx_check_dbgctl ;;
  modify (fun s => set_vmexit_cnt (wrap64 (x_vmexit_cnt s + 1)) s) ;;
  on_mach vmx_vmexit_post_hdl.

Definition vmx_vmexit_handler : M xstate unit :=
  on_mach vmx_vmexit_pre_hdl ;;
  rc ← vmx_vmexit_resolve_dispatcher;
  (if bool_decide (rc = VM_FAIL) then vmx_vmexit_failure else mret tt) ;;
  rc ← on_mach idt_deliver;
  (if negb (c_true (code_val rc)) then vmx_vmexit_failure else mret tt) ;;
  vmx_vmexit_post.
End exits.
