(* ===== verification/ExitInv.v ===== *)
(** * The mode of the processor over whole exits

    [CpuRun] shows that each resolver keeps the mode of the vm's processor
    consistent.  Here the judgement is partial, as the vmm may stop the vm, and
    follows the whole of [vmx_vmexit_handler], the devices included: a
    resolver may leave an unmarked change of a field of [loose_fields], that the
    rest of the handler does not look at. *)

From S2P Require Import Prelude.
From S2P Require Import Monad.
From S2P Require Import Pagemem.
From S2P Require Import Walk.
From S2P Require Import Vm.
From S2P Require Import Words.
From S2P Require Import Vmcs.
From S2P Require Import Machine.
From S2P Require Import Cpu.
From S2P Require Import CpuRegs.
From S2P Require Import Rmode.
From S2P Require Import CpuMode.
From S2P Require Import CpuRun.
From S2P Require Import Dev.
From S2P Require Import DevHdl.
From S2P Require Import DevTy.
From S2P Require Import ExitDt.
From S2P Require Import Exits.

Section tame.
Context {V : Vmx}.

(** ** Computations on the machine

    Over a resolver nothing is left unmarked; over the devices nothing is said
    of the memory, that [DevTy] shows well typed; at the end of the handler
    unmarked changes may be left over. *)

Inductive lax := Strict | Memless | Over.
Definition over (lo : lax) : list field := match lo with Over => loose_fields | _ => [] end.
Record regs_lax (lo : lax) (s : mach) : Prop := mk_regs_lax {
  rl_gpr : forall r, fits 64 (m_gpr s r);
  rl_usr : fits 32 (m_usr_excp s);
  rl_mem : lo <> Memless -> mem_ok (m_mem s);
}.

Definition rest (lo : lax) (H : field -> Z) (W : list field) (s : mach) : Prop := exists A R D Wl,
  cst H A R D (W ++ Wl) s /\ pre_hdl_fields ⊆ R /\ Wl ⊆ over lo /\ mode_ok A s /\ regs_lax lo s.
Definition tame {X} (lo : lax) (W : list field) (m : M mach X) (P : X -> Prop) (W' : list field) : Prop :=
  forall H s x s', rest lo H W s -> m s = Some (x, s') -> P x /\ rest lo H W' s'.

Lemma regs_lax_ok lo s : lo <> Memless -> regs_lax lo s <-> regs_ok s.
Proof. intros Hl. split; intros [? ? ?]; constructor; auto. Qed.
Lemma regs_lax_upd lo s s' : regs_lax lo s -> m_gpr s' = m_gpr s -> m_usr_excp s' = m_usr_excp s -> m_mem s' = m_mem s ->
  regs_lax lo s'.
Proof. intros [] E1 E2 E3. split; by rewrite ?E1, ?E2, ?E3. Qed.
Lemma rest_at lo H s : at_rest H [] s -> rest lo H [] s.
Proof.
  intros (A & R & D & Hc & HR & Hm & [? ? ?]). exists A, R, D, []. split_and!; try done. apply list_subseteq_nil.
Qed.
Lemma at_rest_strict H s : rest Strict H [] s <-> at_rest H [] s.
Proof.
  split; [|apply rest_at]. intros (A & R & D & Wl & Hc & HR & ->%sub_nil & Hm & Hr%regs_lax_ok); [|done]. by exists A, R, D.
Qed.
Lemma rest_handled_iff H rc s : handled H rc s <-> rest Over H [] s.
Proof.
  split; intros (A & R & D & W & ? & ? & ? & ? & Hr); exists A, R, D, W; split_and!; try done; by apply (regs_lax_ok Over).
Qed.
Lemma rest_mem lo H s : rest Memless H [] s -> mem_ok (m_mem s) -> rest lo H [] s.
Proof.
  intros (A & R & D & Wl & Hc & HR & ->%sub_nil & Hm & [? ? ?]) Hok. exists A, R, D, []. split_and!; try done.
  apply list_subseteq_nil.
Qed.
Lemma rest_memless H s : rest Strict H [] s -> rest Memless H [] s.
Proof. intros Hs%at_rest_strict. by apply rest_at. Qed.

Lemma tame_wp {X} lo W (m : M mach X) P W' :
  (forall H s, rest lo H W s -> wp m s (fun x s' => P x /\ rest lo H W' s')) -> tame lo W m P W'.
Proof. intros Hm H s x s' Hs E. exact (wp_run m s x s' _ (Hm H s Hs) E). Qed.
Lemma tame_ret {X} lo W (x : X) (P : X -> Prop) : P x -> tame lo W (mret x) P W.
Proof. intros HP H s y s' Hs E. by injection E as <- <-. Qed.
Lemma tame_fail {X} lo W (P : X -> Prop) W' : tame lo W fail P W'.
Proof. done. Qed.
Lemma tame_mono {X} lo W (m : M mach X) (P P' : X -> Prop) W' : tame lo W m P W' -> (forall x, P x -> P' x) -> tame lo W m P' W'.
Proof. intros Hm HP H s x s' Hs E. destruct (Hm H s x s' Hs E). auto. Qed.
Lemma tame_bind {X Y} lo W W1 W2 (m : M mach X) (k : X -> M mach Y) P Q :
  tame lo W m P W1 -> (forall x, P x -> tame lo W1 (k x) Q W2) -> tame lo W (m ≫= k) Q W2.
Proof.
  intros Hm Hk H s y s2 Hs E. unfold mbind, M_bind in E. destruct (m s) as [[x s1]|] eqn:E1; [|done].
  destruct (Hm H s x s1 Hs E1) as [HP Hs1]. by apply (Hk x HP H s1).
Qed.
Lemma tame_if {X} lo W (b : bool) (m m' : M mach X) P W' : (b = true -> tame lo W m P W') -> (b = false -> tame lo W m' P W') ->
  tame lo W (if b then m else m') P W'.
Proof. destruct b; auto. Qed.
Lemma tame_when lo W (b : bool) m : (b = true -> tame lo W m any W) -> tame lo W (when b m) any W.
Proof. intros Hb. destruct b; [auto|by apply tame_ret]. Qed.

Lemma bind_some {S X Y} (m : M S X) (k : X -> M S Y) s y s2 : (m ≫= k) s = Some (y, s2) ->
  exists x s1, m s = Some (x, s1) /\ k x s1 = Some (y, s2).
Proof. unfold mbind, M_bind. destruct (m s) as [[x s1]|]; [eauto|done]. Qed.

(** Accesses. *)
Lemma filter_notin (f : field) (l : list field) : f ∉ l -> filter (fun g => g <> f) l = l.
Proof.
  induction l as [|g l IH]; intros Hf; [done|]. apply not_elem_of_cons in Hf as [Hg Hl].
  rewrite filter_cons_True by (by intros ->). by rewrite IH.
Qed.
Lemma loose_out (lo : lax) (Wl : list field) f : Wl ⊆ over lo -> f ∉ loose_fields -> f ∉ Wl.
Proof. intros HW Hf Hin%HW. destruct lo; [by apply elem_of_nil in Hin..|done]. Qed.
Lemma notin_app (f : field) (W Wl : list field) (lo : lax) : f ∉ W -> f ∉ loose_fields -> Wl ⊆ over lo -> f ∉ W ++ Wl.
Proof. intros HW Hf Hl. rewrite elem_of_app. intros [?|?]; [done|]. by eapply loose_out. Qed.

Lemma tame_pre lo W f : ok_field vmx_supported f -> loadable f -> f <> st_ia32_efer -> f ∉ W -> f ∉ loose_fields ->
  tame lo W (pre_access f) any W.
Proof.
  intros Hf Hl He HW Hlf. apply tame_wp. intros H s (A & R & D & Wl & Hc & Hp & HWl & Hm & Hr).
  apply (cst_pre H A R D (W ++ Wl) s f); try done; [by eapply notin_app|]. intros v Hc'. split; [done|].
  exists A, (f :: R), D, Wl. split_and!; [done| |done|by apply mode_ok_vmcs|by eapply regs_lax_upd].
  intros g Hg. right. by apply Hp.
Qed.
Lemma tame_post lo W f W' : ok_field vmx_supported f -> loadable f -> f <> st_ia32_efer -> f ∈ W -> f ∉ loose_fields ->
  filter (fun g => g <> f) W = W' -> tame lo W (post_access f) any W'.
Proof.
  intros Hf Hl He HW Hlf <-. apply tame_wp. intros H s (A & R & D & Wl & Hc & Hp & HWl & Hm & Hr).
  apply (cst_post H A R D (W ++ Wl) s f); try done; [left; rewrite elem_of_app; by left|].
  intros v Hc'. split; [done|]. exists A, (f :: R), (f :: D), Wl.
  rewrite filter_app, (filter_notin f Wl) in Hc'.
  2:{ by eapply loose_out. }
  split_and!; [done| |done|by apply mode_ok_vmcs|by eapply regs_lax_upd]. intros g Hg. right. by apply Hp.
Qed.
Lemma tame_getf lo W f : ok_field vmx_supported f -> tame lo W (getf f) (fits (width f)) W.
Proof.
  intros Hf. apply tame_wp. intros H s Hs. apply wp_gets. split; [|done].
  destruct Hs as (A & R & D & Wl & (L & D' & Hv & _) & _). by destruct (Hv f Hf).
Qed.
Lemma tame_putf lo W f x : ok_field vmx_supported f -> fits (width f) x -> f ∉ mode_fields -> tame lo W (putf f x) any (f :: W).
Proof.
  intros Hf Hx Ho. apply tame_wp. intros H s (A & R & D & Wl & Hc & Hp & HWl & Hm & Hr).
  apply (cst_putf H A R D (W ++ Wl) s f); try done. intros v Hc'. split; [done|].
  exists (upd A f x), R, D, Wl. split_and!; [done|done|done| |by eapply regs_lax_upd].
  eapply (mode_ok_off [f]); [|exact Hm| |done].
  - intros g Hg Hin%list_elem_of_singleton. by subst g.
  - intros g Hg%not_elem_of_cons. by rewrite upd_ne by apply Hg.
Qed.
Lemma tame_put_fld lo W f a w x : ok_field vmx_supported f -> 0 <= a -> 0 <= w -> a + w <= width f -> f ∉ mode_fields ->
  tame lo W (put_fld f a w x) any (f :: W).
Proof.
  intros Hf Ha Hw Hle Ho. unfold put_fld. eapply tame_bind; [by apply tame_getf|].
  intros y Hy. apply tame_putf; [done|by apply set_bits_fits|done].
Qed.
(** A field that is in [W] already. *)
Lemma tame_dup {X} lo W f (m : M mach X) P W' : f ∈ W -> tame lo W m P (f :: W') -> f ∈ W' -> tame lo W m P W'.
Proof.
  intros _ Hm Hf H s x s' Hs E. destruct (Hm H s x s' Hs E) as [HP (A & R & D & Wl & Hc & Hrest)]. split; [done|].
  exists A, R, D, Wl. split; [|done]. apply (cst_dedup _ _ _ _ _ f); [left; rewrite elem_of_app; by left|exact Hc].
Qed.

(** The other parts of the state. *)
Lemma tame_gets {X} lo W (g : mach -> X) : tame lo W (gets g) any W.
Proof. intros H s x s' Hs E. by injection E as <- <-. Qed.
Lemma tame_get_gpr lo W r : tame lo W (get_gpr r) (fits 64) W.
Proof. intros H s x s' Hs E. injection E as <- <-. split; [|done]. by destruct Hs as (A & R & D & Wl & _ & _ & _ & _ & []). Qed.
Lemma tame_modify lo W g : (forall s, m_vmcs (g s) = m_vmcs s /\ same_mode s (g s) /\ (regs_lax lo s -> regs_lax lo (g s))) ->
  tame lo W (modify g) any W.
Proof.
  intros Hg H s x s' (A & R & D & Wl & Hc & Hp & HW & Hm & Hr) E. injection E as <- <-. split; [done|]. exists A, R, D, Wl.
  destruct (Hg s) as (E1 & E2 & E3). split_and!; [|done|done|by eapply mode_ok_agree|auto].
  destruct Hc as (L & D' & Hv & Hc). exists L, D'. split; [|done]. intros f Hf. rewrite E1. by apply Hv.
Qed.
Lemma tame_put_gpr lo W r v : fits 64 v -> tame lo W (put_gpr r v) any W.
Proof. intros Hv. apply tame_modify. intros s. split_and!; [done|done|]. intros [Hg Hu Hm]. split; [|done|done]. intros r'. cbn.
  by case_decide.
Qed.
Lemma tame_put_gpr_fld lo W r a w v : 0 <= a -> 0 <= w -> a + w <= 64 -> tame lo W (put_gpr_fld r a w v) any W.
Proof.
  intros Ha Hw Hle. eapply tame_bind; [apply tame_get_gpr|]. intros x Hx. by apply tame_put_gpr, set_bits_fits.
Qed.
Lemma tame_call lo W c : tame lo W (call c) any W.
Proof. apply tame_modify. intros s. split_and!; [done|done|]. by intros []. Qed.

(** A change of dr6 that is never marked. *)
Lemma wp_set_read H A R D W s f Q : ok_field vmx_supported f -> loadable f -> (f = st_ia32_efer -> entry_entry ∈ R) ->
  f ∈ W -> cst H A R D W s -> (forall v, cst H A (f :: R) D W (with_vmcs v s) -> Q tt (with_vmcs v s)) ->
  wp (on_vmcs (vmcs_set_read f)) s Q.
Proof.
  intros Hf Hl Hn HW (L & D' & Hv & HR & HD & HL & He) HQ. apply wp_on_vmcs.
  destruct (Hv f Hf) as [F1 F2 F3 F4 F5 F6]. eapply wp_mono; [eapply put_read_at; exact F1|].
  intros [] v [Hfr Hat]. apply HQ. exists (f :: L), D'. split_and!; [|by apply cons_sub|done|by apply loaded_cons|].
  - eapply (vst_step H A A L (f :: L) D' D' W W f s v (val (m_vmcs s) f));
      [done|done| |done|apply same_elem_cons|apply same_elem_refl|apply same_elem_refl| | |done|done].
    + rewrite (bool_decide_true (f ∈ f :: L)) by (by left). exact Hat.
    + by left.
    + intros _. apply F3. by right.
  - apply loaded_entry; auto.
Qed.
End tame.

(** The steps; [tame_lib] knows the functions shown tame. *)
Ltac tame_lib := fail.
Ltac fit := first [done | lazymatch goal with H : fits _ _ |- _ => exact H end].
Ltac tame_step :=
  lazymatch goal with
  | |- tame _ _ (_ ≫= _) _ _ => eapply tame_bind
  | |- forall x, _ -> tame _ _ _ _ _ => let x := fresh "x" in let Hx := fresh "Hx" in intros x Hx; cbn beta in *
  | |- _ = _ -> tame _ _ _ _ _ => intros ?
  | |- tame _ _ (mret _) _ _ => first [apply (tame_ret _ _ _ (fun _ => True)); exact I | apply tame_ret; try done]
  | |- tame _ _ fail _ _ => apply tame_fail
  | |- tame _ _ (when _ _) _ _ => apply tame_when
  | |- tame _ _ (if _ then _ else _) _ _ => apply tame_if
  | |- tame _ _ (pre_access _) _ _ => apply tame_pre; [fld_ok|loads|discriminate|nomem|elem]
  | |- tame _ ?W (post_access ?f) _ _ =>
      let W' := eval vm_compute in (filter (fun g => g <> f) W) in
      apply (tame_post _ W f W'); [fld_ok|loads|discriminate|mem|elem|reflexivity]
  | |- tame _ _ (getf _) _ _ => apply tame_getf; fld_ok
  | |- tame _ _ (putf _ _) _ _ => apply tame_putf; [fld_ok| |elem]
  | |- tame _ _ (put_fld _ _ _ _) _ _ => apply tame_put_fld; [fld_ok|done|done|vm_compute; done|elem]
  | |- tame _ _ (call _) _ _ => apply tame_call
  | |- tame _ _ (get_gpr _) _ _ => apply tame_get_gpr
  | |- tame _ _ (put_gpr _ _) _ _ => apply tame_put_gpr
  | |- tame _ _ (put_gpr_fld _ _ _ _) _ _ => apply tame_put_gpr_fld; [done|done|lia]
  | |- tame _ _ (gets _) _ _ => apply tame_gets
  | |- tame _ _ _ _ _ => tame_lib
  end.
Ltac tames := repeat first [tame_step | progress cbn beta iota].

(** A write that its mark follows. *)
Lemma filter_head (f : field) (l : list field) : f ∉ l -> filter (fun g => g <> f) (f :: l) = l.
Proof. intros Hf. rewrite filter_cons_False by naive_solver. by apply filter_notin. Qed.
Ltac marked f := match goal with
  | Hc : context [filter (fun g => g <> f) (f :: ?W)] |- _ => rewrite (filter_head f W) in Hc by assumption
  end.

Section library.
Context {V : Vmx}.

(** ** The functions the end of the handler and the devices use *)

(** An injection marks the event before its last change. *)
Lemma wp_inject_over H A R D W s v e c (Q : unit -> mach -> Prop) : cst H A R D W s ->
  entry_int_info ∉ W -> st_cr2 ∉ W -> entry_err_code ∉ W -> fits 32 e -> fits 64 c ->
  (forall A' R' D' w, cst H A' R' D' W (with_vmcs w s) -> R ⊆ R' -> (forall f, f ∉ event_fields -> A' f = A f) ->
    Q tt (with_vmcs w s)) ->
  wp (Cpu.inject_exception v e c) s Q.
Proof.
  intros Hc H1 H2 H3 He Hcr HQ. unfold Cpu.inject_exception, vmx_prepare_event_injection.
  assert (forall f, f ∈ R -> f ∈ R) as HR by done.
  by_cases; try apply int_info_fits; by_cases; try done; by_cases;
    try marked entry_int_info; by_cases; try done; by_cases; try marked st_cr2; by_cases; try done; by_cases; try marked entry_err_code.
  all: eapply HQ; [exact Hc|pre_ok|intros f Hf; by upd_other Hf].
Qed.
Lemma tame_inject lo v e c : fits 32 e -> fits 64 c -> tame lo [] (Cpu.inject_exception v e c) any [].
Proof.
  intros He Hcr. apply tame_wp. intros H s (A & R & D & Wl & Hc & Hp & HW & Hm & Hr).
  eapply wp_inject_over; [exact Hc|eapply loose_out; [exact HW|elem]..|done|done|]. intros A' R' D' w Hc' HR HA. split; [done|].
  exists A', R', D', Wl. split_and!; [done|by etrans|done| |by eapply regs_lax_upd].
  by eapply (mode_ok_off event_fields); [apply off_mode_check; vm_compute|exact Hm|done|].
Qed.
Lemma tame_rip lo sz : tame lo [] (update_rip sz) any [].
Proof. unfold update_rip. tames. by apply update_rip_fits. Qed.
Lemma tame_shadow lo : tame lo [] clear_interrupt_shadow any [].
Proof. unfold clear_interrupt_shadow. tames. Qed.
Lemma tame_emulate_done lo rc n : tame lo [] (emulate_done rc n) any [].
Proof.
  unfold emulate_done. tames; [apply tame_rip| |apply tame_shadow].
  apply tame_modify. intros s. split_and!; [done|done|]. by intros [].
Qed.
Lemma tame_idt lo : tame lo [] idt_deliver any [].
Proof. unfold idt_deliver, is_rmode, idt_deliver_rmode, idt_deliver_pmode. tames; done. Qed.
Lemma tame_db lo : tame lo [] vmx_db_check_pending any [].
Proof.
  unfold vmx_db_check_pending, vmx_db_check_pending_any, vmexit_on_insn, vmx_db_check_pending_stp, vmx_db_pending_discarded.
  tames.
Qed.
Lemma wp_dbgctl_over H A R D W s (Q : unit -> mach -> Prop) : cst H A R D W s -> pre_hdl_fields ⊆ R ->
  st_activity ∉ W -> st_interrupt ∉ W -> st_ia32_dbgctl ∉ W -> st_dbg_excp ∉ W ->
  (forall A' R' D' w, cst H A' R' D' W (with_vmcs w s) -> R ⊆ R' -> (forall f, f <> st_dbg_excp -> A' f = A f) ->
    Q tt (with_vmcs w s)) ->
  wp vmx_check_dbgctl s Q.
Proof.
  intros Hc HR H1 H2 H3 H4 HQ. assert (st_rflags ∈ R) as Hfl by (apply HR; elem).
  unfold vmx_check_dbgctl. by_cases; try marked st_dbg_excp; try rewrite (filter_notin _ _ H4) in Hc.
  all: eapply HQ; [exact Hc|pre_ok|intros f Hf; by rewrite ?upd_ne].
Qed.
Lemma tame_dbgctl lo : tame lo [] vmx_check_dbgctl any [].
Proof.
  apply tame_wp. intros H s (A & R & D & Wl & Hc & Hp & HW & Hm & Hr).
  eapply wp_dbgctl_over; [exact Hc|exact Hp|eapply loose_out; [exact HW|elem]..|].
  intros A' R' D' w Hc' HR HA. split; [done|]. exists A', R', D', Wl. split_and!; [done|by etrans|done| |by eapply regs_lax_upd].
  eapply (mode_ok_off [st_dbg_excp]); [by apply off_mode_check; vm_compute|exact Hm| |done].
  intros f [Hf _]%not_elem_of_cons. by apply HA.
Qed.
End library.

(** ** The devices *)

(** The page faults an access of the vm raises. *)
Definition excps_ok (s : vmst) : Prop := Forall (fun x => fits 32 x.1.2 /\ fits 64 x.2) (excps s).

Lemma land_fits w a b : 0 <= w -> fits w a -> fits w (Z.land a b).
Proof.
  intros Hw Ha. apply fits_of_testbit; [done|apply Z.land_nonneg; left; apply Ha|].
  intros i Hi. rewrite Z.land_spec, (fits_testbit _ _ _ Ha) by done. done.
Qed.
Lemma align_fits v n : fits 64 (align_next v n).
Proof. unfold align_next, align. apply land_fits; [lia|]. apply wrap_fits. lia. Qed.

Section faults.
Variable c : vm_cpu.

Lemma access_pf_ok ac v s : fits 64 v -> excps_ok s -> excps_ok (access_pf c ac v s).
Proof.
  intros Hv Hs. apply Forall_cons; split; [|exact Hs]. split; [|exact Hv]. cbn [fst snd].
  destruct (va_wr ac), (Vm.cpl c =? 3); by vm_compute.
Qed.
Lemma validate_excps ac v w s rc w' s' : fits 64 v -> vm_access_validate c ac v w s = (rc, w', s') -> excps_ok s -> excps_ok s'.
Proof.
  intros Hv. unfold vm_access_validate. destruct (pg_walk _ _ _ _ _) as [rc0 w0]. intros E Hs.
  repeat (case_match; simplify_eq; try done); by apply access_pf_ok.
Qed.
Lemma recv_excps fuel : forall a n s s', recv_loop fuel a n s = Some s' -> excps s' = excps s.
Proof.
  induction fuel as [|fuel IH]; intros a n s s' E; cbn [recv_loop] in E; destruct (negb _); try by simplify_eq.
  destruct (ctrl_io_read n s) as [got s1] eqn:E1. apply IH in E. rewrite E. cbn.
  unfold ctrl_io_read in E1. case_match; by simplify_eq.
Qed.
Lemma physical_excps ac s rc ac' s' : vm_access_physical c ac s = Some (rc, ac', s') -> excps s' = excps s.
Proof.
  unfold vm_access_physical, vm_access_system, vm_access_system_identity, operator, vm_access_local_operator,
    vm_access_remote_operator. intros E. repeat (case_match; simplify_eq/=; try done).
  destruct (recv_loop _ _ _ s) as [s1|] eqn:Er; [|done]. cbn in E. simplify_eq. by eapply recv_excps.
Qed.
Lemma loop_excps fuel : forall ac v len w s rc ac' s', fits 64 v -> vm_access_loop c fuel ac v len w s = Some (rc, ac', s') ->
  excps_ok s -> excps_ok s'.
Proof.
  induction fuel as [|fuel IH]; intros ac v len w s rc ac' s' Hv E Hs; cbn [vm_access_loop] in E;
    (destruct (negb _); [by simplify_eq|]); [done|].
  destruct (vm_access_validate c ac v w s) as [[rc1 w1] s1] eqn:Ev. pose proof (validate_excps _ _ _ _ _ _ _ Hv Ev Hs) as Hs1.
  destruct (decide (rc1 = VM_DONE)); [|by simplify_eq]. cbv zeta in E.
  destruct (vm_access_physical c _ s1) as [[[rc2 ac2] s2]|] eqn:Ep; [|done]. cbn [mbind option_bind] in E.
  pose proof (physical_excps _ _ _ _ _ Ep) as Es. destruct (decide _); [|simplify_eq; unfold excps_ok; by rewrite Es].
  eapply IH; [apply align_fits|exact E|unfold excps_ok; by rewrite Es].
Qed.
Lemma access_excps ac s rc ac' s' : fits 64 (va_addr ac) -> vm_access_linear c ac s = Some (rc, ac', s') -> excps_ok s -> excps_ok s'.
Proof.
  intros Ha. unfold vm_access_linear, vm_access_virtual. destruct (negb _); intros E Hs.
  - unfold excps_ok. by rewrite (physical_excps _ _ _ _ _ E).
  - by eapply loop_excps.
Qed.
End faults.

Section devices.
Context {V : Vmx} {Hw : Hrd} (ar : area_t) (max_paddr : Z).

Lemma tame_each {X} (l : list X) (f : X -> M mach unit) lo : (forall x, x ∈ l -> tame lo [] (f x) any []) ->
  tame lo [] (for_each l f) any [].
Proof.
  induction l as [|x l IH]; intros Hf; cbn [for_each]; [by apply tame_ret|]. eapply tame_bind; [apply Hf; by left|].
  intros _ _. apply IH. intros y Hy. apply Hf. by right.
Qed.

(** A memory access changes bytes the assertion says nothing of. *)
Lemma tame_vm_mem cr3 addr data len wr rq : fits 64 addr ->
  tame Memless [] (vm_mem ar (fun c => vm_access_linear c (vm_access_setup (cr3 c) addr data len wr rq false))) any [].
Proof.
  intros Ha H s r s' Hs E. unfold vm_mem in E.
  destruct (vm_access_linear _ _ _) as [[[rc ac] v]|] eqn:El; [|done].
  assert (excps_ok v) as Hx.
  { eapply access_excps; [|exact El|by apply Forall_nil]. done. }
  assert (rest Memless H [] (with_mem (phys v) s)) as Hs'.
  { destruct Hs as (A & R & D & Wl & Hc & Hp & HW & Hm & [G1 G2 G3]). exists A, R, D, Wl.
    split_and!; [exact Hc|done|done| |by split]. eapply mode_ok_agree; [exact Hm|done|done]. }
  refine (tame_bind _ _ _ _ _ _ (fun _ => True) (fun _ => True) _ _ H _ _ _ Hs' E).
  - apply tame_each. intros x Hxl. unfold excps_ok in Hx. rewrite Forall_forall in Hx.
    apply list_elem_of_In, in_rev, list_elem_of_In in Hxl. destruct (Hx x Hxl). by apply tame_inject.
  - intros [] _. by apply tame_ret.
Qed.

(** Ports other than those of the keyboard. *)
Lemma tame_port lo (deny : bool) p : ~ KBD_START_PORT <= p <= KBD_END_PORT ->
  tame lo [] (modify (fun s => with_io_denied (vmx_access_io deny p (m_io_denied s)) s)) any [].
Proof.
  intros Hn H s x s' (A & R & D & Wl & Hc & Hp & HW & Hm & [G1 G2 G3]) E. injection E as <- <-. split; [done|].
  exists A, R, D, Wl. split_and!; [exact Hc|done|done| |by split]. destruct Hm as [M1 M2 M3 M4 M5 M6]. split; try done.
  intros p' Hp'. cbn. unfold vmx_access_io. rewrite decide_False by (intros ->; done). by apply M5.
Qed.

Lemma tame_rmode lo : tame lo [] is_rmode any [].
Proof. unfold is_rmode. tames. Qed.
Lemma tame_interrupt lo v : tame lo [] (inject_interrupt v) any [].
Proof. unfold inject_interrupt, vmx_prepare_event_injection. tames. apply int_info_fits. Qed.
Lemma tame_safe lo : tame lo [] safe_interrupts_on any [].
Proof. unfold safe_interrupts_on. tames. Qed.
Lemma tame_a20 lo on : tame lo [] (dev_a20_set on) any [].
Proof. unfold dev_a20_set. tames. apply tame_modify. intros s. split_and!; [done|done|]. by intros []. Qed.
Lemma tame_native lo : tame lo [] (modify (with_emu_done false)) any [].
Proof. apply tame_modify. intros s. split_and!; [done|done|]. by intros []. Qed.

(** ** Computations on the devices

    [p] says that the vm is not about to send the second word of the
    initialisation of its interrupt controller: that access frees the ports of
    the keyboard. *)

Definition drest (p : bool) (H : field -> Z) (s : dstate) : Prop :=
  rest Memless H [] (d_m s) /\ (p = true -> d_wait_icw2 s = false).
Definition dame {A} (p : bool) (m : M dstate A) (P : A -> Prop) (p' : bool) : Prop :=
  forall H s x s', drest p H s -> m s = Some (x, s') -> P x /\ drest p' H s'.

Lemma dame_ret {A} p (x : A) (P : A -> Prop) : P x -> dame p (mret x) P p.
Proof. intros HP H s y s' Hs E. by injection E as <- <-. Qed.
Lemma dame_fail {A} p (P : A -> Prop) p' : dame p fail P p'.
Proof. done. Qed.
Lemma dame_drop {A} p (m : M dstate A) P : dame p m P p -> dame p m P false.
Proof. intros Hm H s x s' Hs E. destruct (Hm H s x s' Hs E) as [? [? _]]. by split. Qed.
Lemma dame_bind {A B} p p1 p2 (m : M dstate A) (k : A -> M dstate B) P Q :
  dame p m P p1 -> (forall x, P x -> dame p1 (k x) Q p2) -> dame p (m ≫= k) Q p2.
Proof.
  intros Hm Hk H s y s2 Hs E. unfold mbind, M_bind in E. destruct (m s) as [[x s1]|] eqn:E1; [|done].
  destruct (Hm H s x s1 Hs E1) as [HP Hs1]. by apply (Hk x HP H s1).
Qed.
Lemma dame_if {A} p (b : bool) (m m' : M dstate A) P p' : (b = true -> dame p m P p') -> (b = false -> dame p m' P p') ->
  dame p (if b then m else m') P p'.
Proof. destruct b; auto. Qed.
Lemma dame_when p (b : bool) m p' : (b = true -> dame p m any p') -> (b = false -> dame p (mret tt) any p') -> dame p (when b m) any p'.
Proof. destruct b; auto. Qed.
Lemma dame_gets {A} p (f : dstate -> A) : dame p (gets f) any p.
Proof. intros H s x s' Hs E. by injection E as <- <-. Qed.
Lemma dame_modify p f : (forall s, d_m (f s) = d_m s /\ d_wait_icw2 (f s) = d_wait_icw2 s) -> dame p (modify f) any p.
Proof.
  intros Hf H s x s' [Hr Hp] E. injection E as <- <-. destruct (Hf s) as [E1 E2]. split; [done|]. split; [by rewrite E1|].
  intros Ht. by rewrite E2, Hp.
Qed.
Lemma dame_on_m {A} p (m : M mach A) P : tame Memless [] m P [] -> dame p (on_m m) P p.
Proof.
  intros Hm H s x s' [Hr Hp] E. unfold on_m, zoom in E. destruct (m _) as [[y m']|] eqn:E1; [|done]. injection E as <- <-.
  destruct (Hm H _ _ _ Hr E1) as [HP Hr']. by split.
Qed.

Lemma dame_mono {A} p (m : M dstate A) (P Q : A -> Prop) p' : dame p m P p' -> (forall x, P x -> Q x) -> dame p m Q p'.
Proof. intros Hm HP H s x s' Hs E. destruct (Hm H s x s' Hs E). auto. Qed.
End devices.

Ltac dame_lib := fail.
(** The names of the two states in the side conditions are the library's. *)
Ltac dame_first :=
  lazymatch goal with
  | |- dame _ (gets _) _ _ => apply dame_gets
  | |- dame _ (modify (set_wait_icw2 _)) _ _ => fail
  | |- dame _ (modify _) _ _ => apply dame_modify; intros ?; split; reflexivity
  | |- dame _ (on_m ?m) _ _ => apply dame_on_m; try (tames; try fit)
  | |- dame _ _ _ _ => dame_lib
  end.
Ltac dame_step :=
  lazymatch goal with
  | |- dame _ (mret _) _ _ => first [apply (dame_ret _ _ (fun _ => True)); exact I | apply dame_ret; try done]
  | |- dame _ fail _ _ => apply dame_fail
  | |- dame _ (if _ then _ else _) _ _ => apply dame_if; intros ?
  | |- dame _ (when _ _) _ _ => apply dame_when; intros ?
  | |- dame _ (_ ≫= _) _ _ => eapply dame_bind; [|intros ? ?; cbn beta in *]
  | |- dame _ (match ?x with _ => _ end) _ _ => destruct x
  | |- _ => dame_first
  end.
Ltac dames := repeat (dame_step; cbv zeta beta).

Section device_library.
Context {V : Vmx} {Hw : Hrd} (ar : area_t) (max_paddr : Z).

(** ** The accesses *)

Lemma dame_port_in p sz port : dame p (port_in sz port) any p.
Proof. unfold port_in. dames. Qed.
Lemma dame_port_out p sz port v : dame p (port_out sz port v) any p.
Proof. unfold port_out. dames. Qed.

Lemma dame_rep_ins p sz port n : dame p (rep_ins sz port n) any p.
Proof. induction n as [|n IH]; cbn [rep_ins]; [by apply dame_ret|]. dames; [apply dame_port_in|apply IH]. Qed.
Lemma dame_rep_outs p sz port n : forall data, dame p (rep_outs sz port n data) any p.
Proof.
  induction n as [|n IH]; intros data; cbn [rep_outs]; [by apply dame_ret|].
  eapply dame_bind; [apply dame_port_out|]. intros _ _. apply IH.
Qed.
Lemma dame_in_buffer p n data : dame p (in_buffer n data) any p.
Proof. unfold in_buffer. dames. Qed.

(** The first word of the initialisation only waits for the second. *)
Lemma dame_pic io data : dame true (io_pic_detect io data) any false.
Proof.
  intros H s x s' [Hr Hp] E. split; [done|]. unfold drest. split; [|done]. revert E. unfold io_pic_detect.
  destruct (_ || _); [by intros [= <- <-]|]. destruct (_ =? 0).
  - destruct (is_pic_icw1 data); by intros [= <- <-].
  - unfold mbind at 1, M_bind at 1, gets. rewrite (Hp eq_refl). by intros [= <- <-].
Qed.
Lemma dame_native io data : dame true (dev_io_native io data) any false.
Proof.
  unfold dev_io_native, io_string_native, io_simple_native.
  eapply dame_bind; [apply dame_on_m, tame_native|]. intros _ _.
  assert (forall b, dame true (when b (io_pic_detect io (nth 0 data 0))) any false) as Hpic.
  { intros b. apply dame_when; intros _; [apply dame_pic|]. by apply dame_drop, dame_ret. }
  repeat (apply dame_if; intros _); try (by apply dame_drop, dame_ret).
  - apply dame_drop. dames; [apply dame_in_buffer|apply dame_rep_ins].
  - eapply dame_bind; [apply Hpic|]. intros _ _. dames; [apply dame_in_buffer|apply dame_rep_outs].
  - eapply dame_bind; [apply dame_in_buffer|]. intros _ _. apply dame_if; intros _.
    + apply dame_drop. dames. apply dame_port_in.
    + eapply dame_bind; [apply Hpic|]. intros _ _. dames. apply dame_port_out.
Qed.

Lemma str_update_fits io r done : fits 64 r -> fits 64 (str_update io r done).
Proof.
  intros Hr. unfold str_update. apply fits_or; [lia| |].
  - apply fits_of_testbit; [lia|apply Z.ldiff_nonneg; left; apply Hr|]. intros i Hi.
    rewrite Z.ldiff_spec, (fits_testbit _ _ _ Hr) by done. done.
  - destruct (io_back io); apply wrap_fits; lia.
Qed.
Lemma ldiff_fits w a b : 0 <= w -> fits w a -> fits w (Z.ldiff a b).
Proof.
  intros Hn Ha. apply fits_of_testbit; [done|apply Z.ldiff_nonneg; left; apply Ha|]. intros i Hi.
  rewrite Z.ldiff_spec, (fits_testbit _ _ _ Ha) by done. done.
Qed.
Lemma dame_string_in p io data sz : dame p (io_insn_string_in ar io data sz) any p.
Proof.
  unfold io_insn_string_in. dames.
  - apply tame_vm_mem. done.
  - by apply str_update_fits.
Qed.

Lemma dame_string_out p io data sz : dame p (io_insn_string_out ar io data sz) any p.
Proof.
  unfold io_insn_string_out. dames.
  - apply tame_vm_mem. done.
  - by apply str_update_fits.
Qed.
Lemma dame_insn p io data avail : fits 64 (io_msk io) -> dame p (dev_io_insn ar io data avail) any p.
Proof.
  intros Hmsk. unfold dev_io_insn. apply dame_if; intros _.
  - unfold io_insn_string. dames; [apply dame_string_in|apply dame_string_out|].
    apply fits_or; [lia|by apply ldiff_fits|]. rewrite Z.land_comm. apply land_fits; [lia|done].
  - unfold io_insn_simple. dames.
    match goal with H : negb (io_size_ok _) = false |- _ => unfold io_size_ok in H end. apply tame_put_gpr_fld; lia.
Qed.
Lemma dame_filter p f data : dame p (run_filter f data) any p.
Proof.
  assert (forall lo (g : mach -> mach), (forall s, exists (deny : bool) q, g s = with_io_denied (vmx_access_io deny q (m_io_denied s)) s /\
    ~ KBD_START_PORT <= q <= KBD_END_PORT) -> tame lo [] (modify g) any []) as Hport.
  { intros lo g Hg H s x s' Hs E. injection E as <- <-. destruct (Hg s) as (deny & q & -> & Hq).
    by eapply (tame_port lo deny q Hq H s). }
  destruct f; cbn [run_filter]; unfold dev_sio_filter_index, dev_pci_filter_addr, dev_pci_filter_e1000, dev_pci_filter_ehci,
    dev_ata_lba_filter, dev_ata_scnt_filter, dev_ata_cmd_filter, dev_sio_filter_com1, dev_pci_filter_dvd_e1000,
    dev_pci_filter_cmd_sts_e1000, dev_pci_filter_dvd_ehci; dames.
  all: apply Hport; intros s; eexists _, _; (split; [reflexivity|]);
    unfold KBD_START_PORT, KBD_END_PORT, SIO_DATA, PCI_CONFIG_DATA; lia.
Qed.

Definition io_msk_ok (io : io_insn) : Prop := fits 64 (io_msk io).
Lemma dame_flt p f r : dame p (match f with Some f => run_filter f r.2 | None => mret r end) any p.
Proof. destruct f; [apply dame_filter|by apply dame_ret]. Qed.
Lemma dame_proxy io f : io_msk_ok io -> dame true (dev_io_proxify_filter ar io f) any false.
Proof.
  intros Hio. unfold dev_io_proxify_filter. apply dame_if; intros _; [by apply dame_drop, dame_ret|].
  eapply dame_bind; [apply dame_gets|]. intros pool _.
  eapply (dame_bind _ false _ _ _ any); [|intros r _; dames]. apply dame_if; intros _.
  - unfold dev_io_proxy_filter_in. eapply dame_bind; [apply dame_native|]. intros r _. apply dame_if; intros _; [by apply dame_ret|].
    eapply dame_bind; [apply dame_flt|]. intros r1 _. dames. by apply dame_insn.
  - unfold dev_io_proxy_filter_out. eapply dame_bind; [by apply dame_insn|]. intros r _.
    apply dame_if; intros _; [by apply dame_drop, dame_ret|].
    eapply dame_bind; [apply dame_flt|]. intros r1 _. apply dame_if; intros _; [by apply dame_drop, dame_ret|].
    apply dame_if; intros _; [|by apply dame_drop, dame_ret]. eapply dame_bind; [apply dame_native|]. intros r2 _. by apply dame_ret.
Qed.
Lemma dame_get_al p : dame p get_al any p.
Proof. unfold get_al. dames. Qed.
Lemma dame_put_al p v : dame p (put_al v) any p.
Proof. unfold put_al. dames. Qed.
End device_library.

Ltac dame_lib ::= lazymatch goal with
  | |- dame _ (port_in _ _) _ _ => apply dame_port_in
  | |- dame _ (port_out _ _ _) _ _ => apply dame_port_out
  | |- dame _ get_al _ _ => apply dame_get_al
  | |- dame _ (put_al _) _ _ => apply dame_put_al
  | |- dame _ (dev_io_insn _ _ _ _) _ _ => apply dame_insn; assumption
  end.
Ltac tame_lib ::= lazymatch goal with
  | |- tame _ _ is_rmode _ _ => apply tame_rmode
  | |- tame _ _ (inject_interrupt _) _ _ => apply tame_interrupt
  | |- tame _ _ safe_interrupts_on _ _ => apply tame_safe
  | |- tame _ _ (dev_a20_set _) _ _ => apply tame_a20
  end.

Section handlers.
Context {V : Vmx} {Hw : Hrd} (ar : area_t) (max_paddr : Z).

(** ** The devices *)

Lemma dame_kbd p io : dame p (dev_kbd io) any p.
Proof. unfold dev_kbd, dev_kbd_ctrl, dev_kbd_data. dames. Qed.
Lemma dame_ps2 p io : io_msk_ok io -> dame p (dev_ps2 ar io) any p.
Proof. intros Hio. unfold dev_ps2. dames. Qed.
Lemma dame_xfr p fuel io : io_msk_ok io -> dame p (dev_uart_xfr ar fuel io) any p.
Proof.
  intros Hio. induction fuel as [|fuel IH]; cbn [dev_uart_xfr]; [apply dame_fail|].
  eapply dame_bind; [unfold uart_xfr_step, dev_uart_flush; dames|]. intros r _. dames. apply IH.
Qed.
Lemma dame_reg p io get put : io_msk_ok io -> dame p (reg_io ar io get put) any p.
Proof. intros Hio. unfold reg_io. dames. Qed.
Lemma dame_uart p fuel io : io_msk_ok io -> dame p (dev_uart ar fuel io) any p.
Proof.
  intros Hio. unfold dev_uart, dev_uart_dla, dev_uart_ier, dev_uart_iir, dev_uart_fcr, dev_uart_lcr, dev_uart_mcr, dev_uart_lsr,
    dev_uart_msr, dev_uart_scr. dames; first [by apply dame_reg|by apply dame_xfr].
Qed.

Lemma dame_ata io : io_msk_ok io -> dame true (dev_ata ar io) any false.
Proof.
  intros Hio. assert (forall f, dame true (dev_io_proxify_filter ar io f) any false) as Hx by (intros f; by apply dame_proxy).
  assert (dame true fake_ata_status any false) as Hk by (apply dame_drop; unfold fake_ata_status; dames).
  assert (dame true (dev_io_proxify ar io) any false) as Hp by apply Hx.
  unfold dev_ata. eapply dame_bind; [dames|]. intros _ _. eapply dame_bind; [apply dame_gets|]. intros base _.
  repeat lazymatch goal with |- dame _ (if _ then _ else _) _ _ => apply dame_if; intros _ end; try apply Hx; try apply Hp.
  - unfold dev_ata_status. do 2 (eapply dame_bind; [dames|intros ? _]). by apply dame_if.
  - unfold dev_ata_alt_status. do 2 (eapply dame_bind; [dames|intros ? _]). by apply dame_if.
  - unfold dev_ata_device. apply dame_if; intros _; [done|]. apply dame_if; intros _; [by apply dame_drop, dame_ret|].
    eapply dame_bind; [dames|]. intros r _. apply dame_if; intros _; [by apply dame_drop, dame_ret|].
    eapply dame_bind; [dames|]. intros _ _. eapply dame_bind; [apply dame_native|]. intros r' _. by apply dame_ret.
  - unfold dev_ata_data. eapply dame_bind; [dames|]. intros a _. apply dame_if; intros _; [done|].
    eapply dame_bind; [exact Hp|]. intros rc _. dames.
Qed.
Lemma dame_sio io : io_msk_ok io -> dame true (dev_sio ar io) any false.
Proof.
  intros Hio. unfold dev_sio. do 2 (eapply dame_bind; [dames|intros ? _]). by apply dame_proxy.
Qed.
Lemma dame_pci io : io_msk_ok io -> dame true (dev_pci ar io) any false.
Proof.
  intros Hio. unfold dev_pci. do 2 (eapply dame_bind; [dames|intros ? _]). by apply dame_proxy.
Qed.

(** The wake-up from sleep goes back to real mode first. *)
Lemma rest_settled_over H rc s : settled H rc s -> rest Over H [] s.
Proof. intros Hs. apply (rest_handled_iff H rc). by apply settled_handled. Qed.
Lemma wake_rest H s rc s' : rest Strict H [] s -> acpi_wake_up ar max_paddr s = Some (rc, s') -> rc <> VM_DONE /\ rest Over H [] s'.
Proof.
  intros Hs. unfold acpi_wake_up. intros E. apply bind_some in E as (v & s1 & E1 & E).
  assert (rest Strict H [] s1) as Hs1.
  { refine (proj2 ((_ : tame Strict [] acpi_facs_wake_vector any []) H s v s1 Hs E1)). unfold acpi_facs_wake_vector. tames. }
  destruct v as [v|].
  2:{ injection E as <- <-. split; [done|]. apply at_rest_strict in Hs1. by apply rest_at. }
  apply bind_some in E as (rc0 & s2 & E2 & E).
  assert (rest Over H [] s2) as Hs2.
  { apply at_rest_strict in Hs1 as (A & R & D & Hc & HR & Hm & Hr). eapply rest_settled_over.
    refine (wp_run _ _ _ _ _ (settled_cr_any ar max_paddr H A R D s1 0 0x30 _ _) E2); [by split|done]. }
  refine ((_ : tame Over [] _ (fun rc => rc <> VM_DONE) []) H s2 rc s' Hs2 E). tames.
  - by vm_compute.
  - by vm_compute.
  - rewrite Z.land_comm. change (fits 64 (Z.land 15 v)). apply land_fits; [lia|by vm_compute].
  - apply (wrap_fits 16). lia.
  - match goal with Hx : fits _ ?x |- fits _ (?x ≪ 4) => revert Hx; change (width st_cs_selector) with 16; change (width st_cs_base) with 64;
      unfold fits; rewrite Z.shiftl_mul_pow2; lia end.
Qed.

(** ** The exit

    The wake-up ends the exit; the other accesses leave the memory to [DevTy]. *)
Definition io_end (H : field -> Z) (rc : vm_code) (s : dstate) : Prop :=
  drest false H s \/ rc <> VM_DONE /\ rest Over H [] (d_m s).
Lemma dame_end {A} (m : M dstate A) (rc_of : A -> vm_code) P p' H s x s' : dame true m P p' -> drest true H s ->
  m s = Some (x, s') -> io_end H (rc_of x) s'.
Proof. intros Hm Hs E. left. destruct (Hm H s x s' Hs E) as [_ [? _]]. by split. Qed.

Lemma acpi_end io H s rc s' : byte hrd_undef -> io_ok io -> io_msk_ok io -> dev_ok s -> drest true H s ->
  dev_acpi_pm1_ctl ar max_paddr io s = Some (rc, s') -> io_end H rc s'.
Proof.
  intros Hu Hio Hmsk Hok Hs. unfold dev_acpi_pm1_ctl. destruct (io_in io).
  - apply (dame_end _ (fun rc => rc) any false); [|done]. eapply dame_bind; [apply dame_native|]. intros r _. dames.
  - intros E. apply bind_some in E as (r & s1 & E1 & E).
    assert (tyd (dev_io_insn ar io [hrd_undef; hrd_undef] 2) (fun r => buf_ok 2 r.1.2 /\ 0 <= z_done r.2 <= 2)) as Ht.
    { apply (tyd_insn ar 2); [|lia|done]. split; [|done]. by repeat (apply Forall_cons; split; [done|]). }
    destruct (Ht s r s1 Hok E1) as [Hok1 _].
    destruct (dame_insn ar true io [hrd_undef; hrd_undef] 2 Hmsk H s r s1 Hs E1) as [_ Hs1].
    revert E. destruct (negb _); [apply (dame_end (mret r.1.1) (fun rc => rc) any true); [by apply dame_ret|done]|].
    cbv zeta. destruct (_ && _).
    + unfold on_m, zoom. intros E.
      destruct ((call CTRL_EVT_SUSPEND ;; acpi_wake_up ar max_paddr) (d_m s1)) as [[rc1 m1]|] eqn:E2; [|done]. injection E as <- <-. right.
      assert (rest Strict H [] (d_m s1)) as Hs2 by (apply (rest_mem Strict); [apply Hs1|apply Hok1]).
      apply bind_some in E2 as ([] & m2 & E3 & E2).
      by refine (wake_rest H m2 rc1 m1 (proj2 (tame_call Strict [] CTRL_EVT_SUSPEND H (d_m s1) tt m2 Hs2 E3)) E2).
    + apply (dame_end _ (fun rc => rc) any false); [|done]. eapply dame_bind; [apply dame_native|]. intros r' _. dames.
Qed.

Lemma dispatch_end fuel io H s rc s' : byte hrd_undef -> io_ok io -> io_msk_ok io -> dev_ok s -> drest true H s ->
  dev_dispatch ar max_paddr fuel io s = Some (rc, s') -> io_end H rc s'.
Proof.
  intros Hu Hio Hmsk Hok Hs. unfold dev_dispatch. cbv zeta.
  assert (forall m, dame true m any false -> m s = Some (rc, s') -> io_end H rc s') as Hd.
  { intros m Hm. by apply (dame_end m (fun rc => rc) any false). }
  repeat case_match; try (lazymatch goal with |- dev_acpi_pm1_ctl _ _ _ _ = _ -> _ => by apply acpi_end end); apply Hd.
  - by apply dame_pci.
  - by apply dame_sio.
  - by apply dame_drop, dame_ps2.
  - by apply dame_drop, dame_kbd.
  - by apply dame_drop, dame_uart.
  - by apply dame_ata.
  - by apply dame_proxy.
Qed.

Lemma dame_str_info p b : dame p (vmx_io_str_info b) (fun d => d.2.1 = 0 \/ d.2.1 = 1 \/ d.2.1 = 2 \/ d.2.1 = 4) p.
Proof.
  unfold vmx_io_str_info. dames; cbn [fst snd].
  - match goal with |- context [bits ?y 7 3] => pose proof (bits_fits y 7 3 ltac:(lia)) as Hk; set (k := bits y 7 3) in * end.
    assert (k = 0 \/ k = 1 \/ k = 2 \/ k = 3 \/ k = 4 \/ k = 5 \/ k = 6 \/ k = 7) as Hc by (unfold fits in Hk; lia).
    destruct Hc as [E|[E|[E|[E|[E|[E|[E|E]]]]]]]; rewrite E; vm_compute; auto.
  - unfold io_addr_size. repeat case_match; auto.
Qed.
Lemma dame_io_init : dame true vmx_io_init (fun r => io_msk_ok r.2) true.
Proof.
  unfold vmx_io_init. dames; [apply dame_str_info|].
  cbn beta in *. match goal with Hd : _ \/ _ |- _ => unfold io_msk_ok; cbn [snd io_msk]; destruct Hd as [E|[E|[E|E]]]; rewrite E; by vm_compute end.
Qed.

Lemma io_rest fuel H s rc s' : byte hrd_undef -> dev_ok s -> d_wait_icw2 s = false -> rest Strict H [] (d_m s) ->
  vmx_vmexit_resolve_io ar max_paddr fuel s = Some (rc, s') -> rest Over H [] (d_m s') /\ dev_ok s'.
Proof.
  intros Hu Hok Hw2 Hs E.
  assert (dev_ok s') as Hok' by (by destruct (tyd_resolve_io ar max_paddr Hu fuel s rc s' Hok E)). split; [|done].
  revert E. unfold vmx_vmexit_resolve_io, dev_access. intros E. apply bind_some in E as (rc1 & s1 & E1 & E).
  assert (io_end H rc1 s1) as Hend.
  { clear E. apply bind_some in E1 as (r & s0 & E0 & E1).
    assert (drest true H s) as Hd by (split; [by apply rest_memless|done]).
    destruct (tyd_io_init s r s0 Hok E0) as [Hok0 Hio]. destruct (dame_io_init H s r s0 Hd E0) as [Hmsk Hd0].
    revert E1. case_bool_decide as Hr; cbn [negb].
    - apply dispatch_end; auto.
    - apply (dame_end (mret r.1) (fun rc => rc) any true); [by apply dame_ret|done]. }
  revert E. case_bool_decide as Hrc; cbn [negb].
  - intros E. destruct Hend as [Hend|[? _]]; [|done]. apply (rest_mem Over); [|apply Hok'].
    refine (proj1 (proj2 ((_ : dame false _ any false) H s1 rc s' Hend E))). dames. apply tame_emulate_done.
  - intros E. injection E as <- <-. destruct Hend as [[Hend _]|[_ Hend]]; [|done].
    by apply (rest_mem Over); [|apply Hok'].
Qed.
End handlers.
