(* ===== verification/ExitRun.v ===== *)
(** * The mode of the processor, from exit to exit

    The whole of [vmx_vmexit_handler], for every reason of an exit, on the
    judgement of [ExitInv]; the controller is known by what it may do to the
    machine. *)

From S2P Require Import Prelude.
From S2P Require Import Monad.
From S2P Require Import Pagemem.
From S2P Require Import Walk.
From S2P Require Import Vm.
From S2P Require Import Words.
From S2P Require Import Vmcs.
From S2P Require Import Machine.
From S2P Require Import Cpu.
From S2P Require Import CpuRegs.
From S2P Require Import Rmode.
From S2P Require Import CpuMode.
From S2P Require Import Dev.
From S2P Require Import DevHdl.
From S2P Require Import DevSem.
From S2P Require Import DevTy.
From S2P Require Import CpuRun.
From S2P Require Import ExitDt.
From S2P Require Import Exits.
From S2P Require Import ExitInv.

Ltac tame_lib ::= lazymatch goal with
  | |- tame _ _ is_rmode _ _ => apply tame_rmode
  | |- tame _ _ (inject_interrupt _) _ _ => apply tame_interrupt
  | |- tame _ _ safe_interrupts_on _ _ => apply tame_safe
  | |- tame _ _ (dev_a20_set _) _ _ => apply tame_a20
  | |- tame _ _ (emulate_done _ _) _ _ => apply tame_emulate_done
  | |- tame _ _ (inject_exception _ _ _) _ _ => apply tame_inject
  end.

(** ** Resolvers that only change the machine *)

Section resolvers.
Context {V : Vmx} {Hw : Hrd} (ar : area_t).

Lemma tame_mem_typed n cr3 addr data len wr rq : fits 64 addr -> buf_ok n data -> 0 <= len <= Z.of_nat n ->
  tame Strict [] (vm_mem ar (fun c => vm_access_linear c (vm_access_setup (cr3 c) addr data len wr rq false)))
    (fun r => buf_ok n (va_data r.2)) [].
Proof.
  intros Ha Hd Hl H s r s' Hs E.
  assert (mem_ok (m_mem s)) as Hm by (destruct Hs as (A & R & D & Wl & _ & _ & _ & _ & [_ _ Hm]); by apply Hm).
  destruct (vm_mem_typed ar n cr3 addr data len wr rq s r s' Hd Hl Hm E) as (Hm' & Hd' & _). split; [done|].
  apply (rest_mem Strict); [|done].
  by refine (proj2 (tame_vm_mem ar cr3 addr data len wr rq Ha H s r s' (rest_memless H s Hs) E)).
Qed.

(** Descriptor tables. *)
Lemma tame_seg_base seg : tame Strict [] (dt_seg_base seg) (fits 64) [].
Proof.
  unfold dt_seg_base. destruct (_ !! Z.to_nat seg) as [f|] eqn:E; [|by apply tame_ret].
  assert (f ∈ [st_es_base; st_cs_base; st_ss_base; st_ds_base; st_fs_base; st_gs_base]) as Hf by (by eapply list_elem_of_lookup_2).
  repeat (apply elem_of_cons in Hf as [->|Hf]); [..|by apply elem_of_nil in Hf]; tames.
Qed.
Lemma tame_operand i disp : tame Strict [] (dt_operand i disp) (fits 64) [].
Proof.
  unfold dt_operand. apply tame_if; intros _; [apply tame_fail|]. cbv zeta.
  eapply tame_bind; [apply tame_seg_base|]. intros seg _.
  eapply (tame_bind _ _ _ _ _ _ any); [tames|]. intros base _. eapply (tame_bind _ _ _ _ _ _ any); [tames|]. intros idx _.
  apply tame_ret. apply wrap_fits. lia.
Qed.
Lemma tame_cpl : tame Strict [] cpl any [].
Proof. unfold cpl. tames. Qed.
Lemma tame_lgdt d : fits 64 (dt_base_addr d) -> tame Strict [] (vmexit_lgdt d) any [].
Proof. intros Hd. unfold vmexit_lgdt. eapply tame_bind; [apply tame_cpl|]. intros c _. tames. exact Hd. Qed.
Lemma tame_lidt d : fits 64 (dt_base_addr d) -> tame Strict [] (vmexit_lidt d) any [].
Proof.
  intros Hd. unfold vmexit_lidt. eapply tame_bind; [apply tame_cpl|]. intros c _. tames; [|exact Hd].
  apply tame_modify. intros s. split_and!; [done|done|]. by intros [].
Qed.
Lemma dt_bytes_ok d : buf_ok 10 (dt_bytes d).
Proof.
  unfold dt_bytes. split; [apply Forall_app; split; apply le_bytes_fits|]. by rewrite length_app, !length_le_bytes'.
Qed.
Lemma shape_ok mode op : fits 64 (dt_shape mode op).1 /\ 0 <= (dt_shape mode op).2 <= Z.of_nat 10.
Proof. unfold dt_shape. repeat case_match; by vm_compute. Qed.
Hypothesis undef_ok : byte hrd_undef.

Lemma tame_dt : tame Strict [] (vmx_vmexit_resolve_dt ar) any [].
Proof.
  unfold vmx_vmexit_resolve_dt. eapply tame_bind; [apply tame_rmode|]. intros rm _. apply tame_if; intros _; [tames|].
  do 4 (eapply tame_bind; [tames|intros ? _]). rename x1 into i. eapply tame_bind; [apply tame_operand|]. intros a Ha.
  do 4 (eapply tame_bind; [tames|intros ? _]). cbv zeta. pose proof (shape_ok (cpu_addr_sz x1 x3 x4 x5) (dt_op i)) as Hsh.
  destruct (dt_shape _ _) as [msk sz]. cbn [fst snd] in Hsh. destruct Hsh as [Hmsk Hsz].
  eapply (tame_bind _ _ _ _ _ _ any).
  - apply tame_if; intros _.
    + eapply (tame_bind _ _ _ _ _ _ any); [unfold vmexit_sgdt, vmexit_sidt; tames|]. intros d _.
      eapply tame_bind; [unfold vm_write_mem_sz; apply (tame_mem_typed 10 vcr3); [done|apply dt_bytes_ok|done]|]. intros r _. tames.
    + eapply tame_bind; [unfold vm_read_mem_sz; apply (tame_mem_typed 10 vcr3); [done|split; [by apply Forall_replicate|done]|done]|].
      intros r Hr. cbv zeta.
      assert (fits 64 (Z.land (dt_base_addr (dt_of_bytes (va_data r.2))) msk)) as Hb.
      { rewrite Z.land_comm. apply land_fits; [lia|done]. }
      tames; [by apply tame_lgdt|by apply tame_lidt].
  - intros rc _. destruct rc.1; tames.
Qed.
End resolvers.

(** ** The controller

    What it does to the machine between the resolver and the resumption leaves
    the mode of the processor consistent. *)
Class ControllerLaws `{Vmx} `{Controller} : Prop := {
  excp_tame v : tame Over [] (ask_excp v) any [];
  npf_tame : tame Over [] ask_npf any [];
  hypercall_tame : tame Over [] ask_hypercall any [];
  run_tame : tame Over [] run_controller any [];
}.

(** A controller nobody is connected to: nothing is filtered. *)
#[local] Instance idle_controller : Controller := {
  ask_excp _ := mret VM_IGNORE; ask_npf := mret VM_IGNORE; ask_hypercall := mret VM_IGNORE; run_controller := mret VM_DONE;
}.
#[local] Instance idle_laws `{Vmx} : ControllerLaws.
Proof. split; intros; by apply tame_ret. Qed.

(** A debugger: whatever it is asked, it looks at the whole machine and
    decides of an answer and of changes to the registers of the vm, to its
    memory and to the fields a debugger uses. *)
Definition debug_fields : list field :=
  [st_rip; st_rflags; st_dr7; st_ia32_dbgctl; st_dbg_excp; st_interrupt; exec_excp_bitmap; exec_proc].
Inductive edit := ed_gpr (r v : Z) | ed_byte (a v : Z) | ed_field (f : field) (v : Z).
Definition edit_one `{Vmx} (e : edit) : M mach unit :=
  match e with
  | ed_gpr r v => put_gpr r (wrap64 v)
  | ed_byte a v => modify (fun s => with_mem (<[a := wrap8 v]> (m_mem s)) s)
  | ed_field f v => when (bool_decide (f ∈ debug_fields)) (pre_access f ;; putf f (wrap (width f) v) ;; post_access f)
  end.
Definition plan : Type := mach -> vm_code * list edit.
Definition play `{Vmx} (p : plan) : M mach vm_code := r ← gets p; for_each r.2 edit_one ;; mret r.1.
Definition debugger `{Vmx} (on_excp : Z -> plan) (on_npf on_hypercall on_run : plan) : Controller := {|
  ask_excp v := play (on_excp v); ask_npf := play on_npf; ask_hypercall := play on_hypercall; run_controller := play on_run;
|}.

Lemma tame_edit `{Vmx} e : tame Over [] (edit_one e) any [].
Proof.
  destruct e as [r v|a v|f v]; cbn [edit_one].
  - apply tame_put_gpr, wrap_fits. lia.
  - apply tame_modify. intros s. split_and!; [done|done|]. intros [G1 G2 G3]. split; [done|done|]. intros Hl b. cbn [m_mem with_mem].
    rewrite rd0_insert. case_decide; [by apply wrap_fits|by apply G3].
  - apply tame_when. intros Hf%bool_decide_eq_true. unfold debug_fields in Hf.
    repeat (apply elem_of_cons in Hf as [->|Hf]); [..|by apply elem_of_nil in Hf]; tames; by apply wrap_fits.
Qed.
Lemma debugger_laws `{Vmx} on_excp on_npf on_hypercall on_run :
  @ControllerLaws _ (debugger on_excp on_npf on_hypercall on_run).
Proof.
  assert (forall p, tame Over [] (play p) any []) as Hp.
  { intros p. unfold play. eapply (tame_bind _ _ _ _ _ _ any); [apply tame_gets|]. intros r _.
    eapply (tame_bind _ _ _ _ _ _ any); [apply tame_each; intros; apply tame_edit|]. intros _ _. by apply tame_ret. }
  split; intros; apply Hp.
Qed.

Section exits.
Context {V : Vmx} {Hw : Hrd} {C : Controller} {L : ControllerLaws} (ar : area_t) (max_paddr : Z).
Context (smap_raw smap_nr : Z) (stp brk_insn : bool) (x0 : Z) (dis : mach -> vm_code + ud_t) (q : cpuid_qemu) (fuel : nat).
Hypothesis undef_ok : byte hrd_undef.

(** ** Computations on the state of the exits *)

Definition xrest (lo : lax) (H : field -> Z) (s : xstate) : Prop := rest lo H [] (mach_of s) /\ dev_ok (x_d s).
Definition xame {A} (m : M xstate A) (P : A -> Prop) : Prop :=
  forall H s x s', xrest Over H s -> m s = Some (x, s') -> P x /\ xrest Over H s'.

Lemma xrest_over H s : xrest Strict H s -> xrest Over H s.
Proof. intros [Hr Hd]. split; [|done]. apply rest_at. by apply at_rest_strict. Qed.
Lemma xame_ret {A} (x : A) (P : A -> Prop) : P x -> xame (mret x) P.
Proof. intros HP H s y s' Hs E. by injection E as <- <-. Qed.
Lemma xame_fail {A} (P : A -> Prop) : xame fail P.
Proof. done. Qed.
Lemma xame_bind {A B} (m : M xstate A) (k : A -> M xstate B) P Q : xame m P -> (forall x, P x -> xame (k x) Q) -> xame (m ≫= k) Q.
Proof. intros Hm Hk H s y s2 Hs (x & s1 & E1 & E)%bind_some. destruct (Hm H s x s1 Hs E1) as [HP Hs1]. by apply (Hk x HP H s1). Qed.
Lemma xame_gets {A} (f : xstate -> A) : xame (gets f) any.
Proof. intros H s x s' Hs E. by injection E as <- <-. Qed.
Lemma xame_when (b : bool) m : xame m any -> xame (when b m) any.
Proof. intros Hm. destruct b; [done|by apply xame_ret]. Qed.
Lemma xame_modify f : (forall s, x_d (f s) = x_d s) -> xame (modify f) any.
Proof. intros Hf H s x s' Hs E. injection E as <- <-. split; [done|]. unfold xrest, mach_of. by rewrite Hf. Qed.
Lemma on_mach_rest {A} (m : M mach A) lo lo' H s x s' (P : A -> Prop) : lo' <> Memless ->
  (forall m1, rest lo H [] (mach_of s) -> m (mach_of s) = Some (x, m1) -> P x /\ rest lo' H [] m1) ->
  xrest lo H s -> on_mach m s = Some (x, s') -> P x /\ xrest lo' H s'.
Proof.
  intros Hlo Hm [Hr Hd] E. unfold on_mach, on_d, on_m, zoom in E. destruct (m (d_m (x_d s))) as [[y m1]|] eqn:E1; [|done].
  injection E as <- <-. destruct (Hm m1 Hr E1) as [HP Hr']. split; [done|]. split; [done|]. apply set_m_ok; [done|].
  destruct Hr' as (A0 & R & D & Wl & _ & _ & _ & _ & [_ _ Hok]). by apply Hok.
Qed.
Lemma xame_on {A} (m : M mach A) P : tame Over [] m P [] -> xame (on_mach m) P.
Proof. intros Hm H s x s' Hs. apply (on_mach_rest _ Over Over); [done| |done]. intros m1 Hr E. by apply (Hm H _ _ _ Hr). Qed.

(** The same before the first unmarked change. *)
Definition xsame {A} (m : M xstate A) (P : A -> Prop) : Prop :=
  forall H s x s', xrest Strict H s -> m s = Some (x, s') -> P x /\ xrest Strict H s'.
Definition resolved {A} (m : M xstate A) : Prop := forall H s x s', xrest Strict H s -> m s = Some (x, s') -> xrest Over H s'.
Lemma xsame_on {A} (m : M mach A) P : tame Strict [] m P [] -> xsame (on_mach m) P.
Proof. intros Hm H s x s' Hs. apply (on_mach_rest _ Strict Strict); [done| |done]. intros m1 Hr E. by apply (Hm H _ _ _ Hr). Qed.
Lemma resolved_bind {A B} (m : M xstate A) (k : A -> M xstate B) P : xsame m P -> (forall x, P x -> resolved (k x)) -> resolved (m ≫= k).
Proof. intros Hm Hk H s y s2 Hs (x & s1 & E1 & E)%bind_some. destruct (Hm H s x s1 Hs E1) as [HP Hs1]. by apply (Hk x HP H s1 y). Qed.
Lemma resolved_xame {A} (m : M xstate A) P : xame m P -> resolved m.
Proof. intros Hm H s x s' Hs E. by refine (proj2 (Hm H s x s' (xrest_over H s Hs) E)). Qed.
Lemma resolved_wp (h : M mach vm_code) : (forall H A s, starting H A pre_hdl_fields [] s -> wp h s (handled H)) -> resolved (on_mach h).
Proof.
  intros Hh H s rc s' Hs E. eapply (proj2 (on_mach_rest h Strict Over H s rc s' any _ _ Hs E)).
  Unshelve. { done. }
  intros m1 Hr E1. split; [done|]. apply at_rest_strict in Hr as (A & R & D & Hc & HR & Hm & Hrg).
  apply (rest_handled_iff H rc), (wp_run _ _ _ _ _ (Hh H A _ (starting_least H A R D _ (mk_starting _ _ _ _ _ Hc HR Hm Hrg))) E1).
Qed.

(** ** The resolvers *)

Lemma tame_finish n rc : tame Over [] (finish n rc) any [].
Proof. unfold finish, insn_sz. tames. Qed.
Lemma tame_intr : tame Over [] vmx_vmexit_resolve_intr any [].
Proof.
  unfold vmx_vmexit_resolve_intr, resolve_intr, setup_interrupt_window_exiting. tames.
  all: apply tame_modify; intros s; (split_and!; [done|done|]); by intros [].
Qed.
Lemma xame_exception_with v e f : fits 32 e -> fits 64 f -> xame (resolve_exception_with v e f) any.
Proof.
  intros He Hf. unfold resolve_exception_with. eapply xame_bind; [by apply xame_modify|]. intros _ _.
  eapply xame_bind; [apply xame_on, excp_tame|]. intros rc _.
  eapply xame_bind; [apply xame_when, xame_on; by apply tame_inject|]. intros _ _. by apply xame_ret.
Qed.
Lemma fault_fits f : fits 64 (exception_fault f).
Proof. unfold exception_fault. rewrite Z.land_comm. apply land_fits; [lia|by vm_compute]. Qed.
Lemma xame_exception : xame resolve_exception any.
Proof.
  unfold resolve_exception. eapply xame_bind; [apply xame_on; tames|]. intros i _. eapply xame_bind; [apply xame_on; tames|].
  intros f _. eapply xame_bind; [apply xame_on; tames|]. intros e He. cbv zeta.
  eapply xame_bind; [apply xame_when, xame_on; tames; apply fault_fits|]. intros _ _.
  apply xame_exception_with; [exact He|apply fault_fits].
Qed.
(** The causes of an intercepted debug exception are set without a mark. *)
Lemma tame_dr6 : tame Over [] excp_dr6 any [].
Proof.
  unfold excp_dr6. eapply tame_bind; [tames|]. intros f _.
  assert (tame Over [] (put_fld st_dr6 0 16 (bits f 0 16)) any [st_dr6]) as Hput by tames.
  intros H s x s' Hs ([] & s1 & E1 & E)%bind_some. split; [done|].
  destruct (Hput H s tt s1 Hs E1) as [_ (A & R & D & Wl & Hc & HR & HW & Hm & Hr)].
  refine (wp_run _ s1 x s' (fun _ s' => rest Over H [] s') _ E).
  apply (wp_set_read H A R D ([st_dr6] ++ Wl) s1 st_dr6); [fld_ok|loads|discriminate|by left|exact Hc|].
  intros v Hc'. exists A, (st_dr6 :: R), D, (st_dr6 :: Wl).
  split_and!; [exact Hc'| | |by apply mode_ok_vmcs|by eapply regs_lax_upd].
  - intros g Hg. right. by apply HR.
  - intros g [->|Hg]%elem_of_cons; [by left|by apply HW].
Qed.

Lemma resolved_excp : resolved (vmx_vmexit_resolve_excp ar max_paddr smap_raw smap_nr stp brk_insn x0 dis).
Proof.
  unfold vmx_vmexit_resolve_excp. eapply resolved_bind; [apply xsame_on; tames|]. intros _ _.
  eapply resolved_bind; [apply xsame_on; tames|]. intros i _. cbv zeta. destruct (_ =? _).
  - eapply resolved_bind; [apply xsame_on, tame_rmode|]. intros rm _. destruct rm; [|by eapply resolved_xame, xame_exception].
    intros H s rc s' Hs (m & s1 & E1 & E)%bind_some. injection E1 as <- <-.
    refine (resolved_wp _ _ H s rc s' Hs E). intros H' A s0 Hst. by eapply handled_rmode_gp.
  - eapply resolved_xame, xame_bind; [apply xame_when, xame_on, tame_dr6|]. intros _ _. apply xame_exception.
Qed.
Lemma xame_hypercall : xame resolve_hypercall any.
Proof.
  unfold resolve_hypercall. eapply xame_bind; [apply xame_on, hypercall_tame|]. intros rc _. apply xame_on.
  apply tame_if; intros _; [|apply tame_finish]. tames; done.
Qed.
Lemma xame_ept : xame vmx_vmexit_resolve_ept_viol any.
Proof.
  unfold vmx_vmexit_resolve_ept_viol. do 4 (eapply xame_bind; [apply xame_on; tames|intros ? _]).
  eapply (xame_bind _ _ any).
  - apply xame_on, tame_if; intros _; (eapply tame_mono; [|done]); tames.
  - intros v _. eapply xame_bind; [by apply xame_modify|]. intros _ _.
    eapply xame_bind; [apply xame_on, npf_tame|]. intros rc _. by apply xame_ret.
Qed.

(** What the exit must be about: the vm is not in the middle of the
    initialisation of its interrupt controller when it accesses a port, and
    writes the efer as the processor would. *)
Record exit_sane (H : field -> Z) (s : xstate) : Prop := mk_exit_sane {
  es_io : bits (H info_reason) 0 16 = 30 -> d_wait_icw2 (x_d s) = false;
  es_rd : bits (H info_reason) 0 16 = 31 -> msr_sane H false (mach_of s);
  es_wr : bits (H info_reason) 0 16 = 32 -> msr_sane H true (mach_of s);
}.

Lemma on_mach_getf f s x s' : on_mach (getf f) s = Some (x, s') -> x = val (m_vmcs (mach_of s)) f /\ s' = s.
Proof. destruct s as [[m] e n c]. intros E. by injection E as <- <-. Qed.

Lemma resolver_rest H s reason rc s' : starting H H pre_hdl_fields [] (mach_of s) -> dev_ok (x_d s) -> exit_sane H s ->
  reason = bits (H info_reason) 0 16 ->
  vmx_vmexit_resolve ar max_paddr smap_raw smap_nr stp brk_insn x0 dis q fuel reason s = Some (rc, s') -> xrest Over H s'.
Proof.
  intros Hst Hok [Hio Hrd Hwr] ->. assert (xrest Strict H s) as Hs.
  { split; [|done]. apply at_rest_strict. by eapply starting_rest. }
  assert (forall h : M mach vm_code, wp h (mach_of s) (handled H) -> on_mach h s = Some (rc, s') -> xrest Over H s') as Hone.
  { intros h Hh E. refine (proj2 (on_mach_rest h Strict Over H s rc s' any ltac:(done) _ Hs E)). intros m1 _ E1. split; [done|].
    by apply (rest_handled_iff H rc), (wp_run _ _ _ _ _ Hh E1). }
  assert (resolved resolve_default) as Hdef by (eapply resolved_xame, xame_ret; by instantiate (1 := any)).
  assert (fits 16 (bits (H info_reason) 0 16)) as Hr by (apply bits_fits; lia).
  unfold vmx_vmexit_resolve, vmx_vmexit_resolvers.
  assert (forall n, Z.to_nat (bits (H info_reason) 0 16) = n -> bits (H info_reason) 0 16 = Z.of_nat n) as Hn.
  { intros n <-. symmetry. apply Z2Nat.id, Hr. }
  destruct (Z.to_nat (bits (H info_reason) 0 16)) as [|n] eqn:En; [by apply resolved_excp|].
  do 55 try (destruct n as [|n]).
  all: cbn [lookup list_lookup]; try (exact (Hdef H s rc s' Hs)).
  all: specialize (Hn _ eq_refl); cbn in Hn.
  - apply (resolved_xame _ any); [|done]. apply xame_on, tame_intr.
  - apply Hone. eapply wp_mono; [by apply (settled_iwe H H)|apply settled_handled].
  - apply Hone, handled_cpuid. by eapply starting_rest.
  - by apply (resolved_xame _ any); [apply xame_hypercall|].
  - apply Hone. by apply handled_cr_access.
  - apply Hone, handled_dr. by eapply starting_rest.
  - unfold on_d, zoom. intros E. destruct (vmx_vmexit_resolve_io ar max_paddr fuel (x_d s)) as [[y d]|] eqn:E1; [|done]. injection E as <- <-.
    by destruct (io_rest ar max_paddr fuel H _ _ _ undef_ok Hok (Hio Hn) (proj1 Hs) E1).
  - apply Hone, (handled_msr H H); auto.
  - apply Hone, (handled_msr H H); auto.
  - intros E. apply xrest_over. refine (proj2 (xsame_on _ any _ H s rc s' Hs E)). by apply tame_dt.
  - by apply (resolved_xame _ any); [apply xame_ept|].
  - apply Hone, handled_native. by eapply starting_rest.
  - apply Hone, handled_xsetbv. by eapply starting_rest.
Qed.

(** ** The handler *)

Hypothesis Hfree : entry_free.

Lemma post_mode H s s' : rest Over H [] s -> vmx_vmexit_post_hdl s = Some (tt, s') -> mode_inv s'.
Proof.
  intros Hs E. apply (rest_handled_iff H VM_DONE) in Hs.
  destruct (handled_exit Hfree H VM_DONE s Hs) as (A & R & D0 & W & Hc & Hg & HW & Hb & HQ).
  destruct (cst_committable H A R D0 W s (m_gpr s GPR64_RSP) (proj1 Hfree) Hc HW Hb) as (L' & D' & Hv & Hcm).
  destruct (wp_run _ _ _ _ _ (wp_post_hdl H A L' D' W s Hv Hg Hcm) E) as [He [v ->]].
  destruct (HQ _ (committed_resumed H A L' D' W s _ Hv)) as [Hm Hr]. eexists. split; [exact He|]. split; [by destruct Hm|by eapply regs_ok_upd].
Qed.

(** The state between two exits. *)
Definition vm_inv (s : xstate) : Prop := mode_inv (mach_of s) /\ dev_ok (x_d s).

Lemma on_mach_some {A} (m : M mach A) s x s' : on_mach m s = Some (x, s') ->
  exists m1, m (mach_of s) = Some (x, m1) /\ s' = set_d (set_m m1 (x_d s)) s.
Proof.
  unfold on_mach, on_d, on_m, zoom. intros E. change (d_m (x_d s)) with (mach_of s) in E.
  destruct (m (mach_of s)) as [[y m1]|]; [|done]. injection E as <- <-. eauto.
Qed.
Lemma xame_when_fail {A} (b : bool) (m : M xstate A) P : xame m P -> xame (if b then vmx_vmexit_failure else m) P.
Proof. intros Hm. destruct b; [apply xame_fail|done]. Qed.

Lemma start_reason H A s : starting H A pre_hdl_fields [] s -> val (m_vmcs s) info_reason = A info_reason.
Proof.
  intros [Hc _ _ _]. refine (wp_run (getf info_reason) s _ s (fun x _ => x = A info_reason) _ eq_refl).
  apply (cst_getf H A pre_hdl_fields [] [] s); [fld_ok|right; elem|exact Hc|done].
Qed.

Lemma xame_post : xame (on_mach vmx_db_check_pending) any /\ xame (on_mach run_controller) any /\ xame (on_mach vmx_check_dbgctl) any.
Proof. split_and!; apply xame_on; [apply tame_db|apply run_tame|apply tame_dbgctl]. Qed.
(** The end of the handler, from the check of the debug controls. *)
Lemma post_split H s s' : xrest Over H s -> vmx_vmexit_post s = Some (tt, s') -> exists s1 m2,
  xrest Over H s1 /\ vmx_check_dbgctl (mach_of s1) = Some (tt, m2) /\ rest Over H [] m2 /\
  vmx_vmexit_post_hdl m2 = Some (tt, mach_of s') /\ dev_ok (x_d s').
Proof.
  intros Hs. destruct xame_post as (H1 & H2 & H3). unfold vmx_vmexit_post.
  intros ([] & s1 & E1 & E)%bind_some. destruct (H1 H s tt s1 Hs E1) as [_ Hs1].
  apply bind_some in E as (rc & s2 & E2 & E). destruct (H2 H s1 rc s2 Hs1 E2) as [_ Hs2].
  apply bind_some in E as ([] & s3 & E3 & E). destruct (c_true _); [done|]. injection E3 as <-.
  apply bind_some in E as ([] & s4 & E4 & E). destruct (H3 H s2 tt s4 Hs2 E4) as [_ Hs4].
  apply bind_some in E as ([] & s5 & E5 & E). injection E5 as <-.
  apply on_mach_some in E as (m & E & ->). apply on_mach_some in E4 as (m4 & E4 & ->). destruct Hs4 as [Hr Hd].
  exists s2, m4. split; [exact Hs2|]. split; [exact E4|]. split; [exact Hr|]. split; [exact E|].
  destruct (post_mode H _ m Hr E) as (H' & _ & _ & []). by apply set_m_ok.
Qed.
Lemma handler_split s s' : vm_inv s -> (forall H, at_exit H (mach_of s) -> exit_sane H s) ->
  vmx_vmexit_handler ar max_paddr smap_raw smap_nr stp brk_insn x0 dis q fuel s = Some (tt, s') ->
  exists H s4, xrest Over H s4 /\ vmx_vmexit_post s4 = Some (tt, s').
Proof.
  intros [(H & He & Hm & Hr) Hok] Hsane. unfold vmx_vmexit_handler. intros ([] & s1 & E1 & E)%bind_some.
  apply on_mach_some in E1 as (m1 & E1 & ->).
  destruct (exit_started H _ He) as (m1' & E1' & Hes & Hc). rewrite E1' in E1. injection E1 as ->.
  pose proof (starting_exit H _ _ Hm Hr Hes Hc) as Hst. destruct (Hsane H He) as [S1 S2 S3].
  set (s1 := set_d _ _) in E. assert (dev_ok (x_d s1)) as Hok1.
  { apply set_m_ok; [done|]. destruct Hst. apply sg_regs. }
  assert (exit_sane H s1) as Hs1.
  { destruct Hes as [v ->]. split; [done|by intros ?%S2|by intros ?%S3]. }
  apply bind_some in E as (rc & s2 & E2 & E). unfold vmx_vmexit_resolve_dispatcher in E2.
  apply bind_some in E2 as (r & s1' & E3 & E2). apply on_mach_getf in E3 as [-> ->].
  change (mach_of s1) with m1 in E2. rewrite (start_reason H H _ Hst) in E2.
  assert (xrest Over H s2) as Hs2 by (eapply (resolver_rest H s1); [exact Hst|exact Hok1|exact Hs1|reflexivity|exact E2]).
  apply bind_some in E as ([] & s3 & E3 & E). destruct (bool_decide (rc = VM_FAIL)); [done|]. injection E3 as <-.
  apply bind_some in E as (rc4 & s4 & E4 & E).
  destruct (xame_on idt_deliver any (tame_idt Over) H s2 rc4 s4 Hs2 E4) as [_ Hs4].
  apply bind_some in E as ([] & s5 & E5 & E). destruct (negb _); [done|]. injection E5 as <-.
  by exists H, s4.
Qed.
Lemma handler_inv s s' : vm_inv s -> (forall H, at_exit H (mach_of s) -> exit_sane H s) ->
  vmx_vmexit_handler ar max_paddr smap_raw smap_nr stp brk_insn x0 dis q fuel s = Some (tt, s') -> vm_inv s'.
Proof.
  intros Hi Hsane (H & s4 & Hs4 & E)%handler_split; [|done..].
  destruct (post_split H s4 s' Hs4 E) as (s1 & m2 & _ & _ & Hr & Ep & Hd). split; [by eapply post_mode|done].
Qed.

(** ** The vm runs, and exits *)

Inductive vm_life : xstate -> xstate -> Prop :=
  | life_run s m : vm_runs (mach_of s) m -> vm_life s (set_d (set_m m (x_d s)) s)
  | life_exit s s' : (forall H, at_exit H (mach_of s) -> exit_sane H s) ->
      vmx_vmexit_handler ar max_paddr smap_raw smap_nr stp brk_insn x0 dis q fuel s = Some (tt, s') -> vm_life s s'.

Lemma life_inv s s' : vm_life s s' -> vm_inv s -> vm_inv s'.
Proof.
  intros [s0 m Hrun|s0 s1 Hs E] Hi; [|by apply (handler_inv s0 s1)]. destruct Hi as [Hi Hd].
  assert (mode_inv m) as Hi' by (eapply (mode_inv_step ar max_paddr Hfree smap_raw smap_nr stp brk_insn x0); [exact Hi|by left]).
  split; [exact Hi'|]. apply set_m_ok; [exact Hd|]. destruct Hi' as (H' & _ & _ & []). done.
Qed.

(** C5: the mode of the processor of the vm is consistent and its devices are
    well typed at every resumption: over the whole of the exit handler, that
    resolves the exit, delivers the interrupted event again, completes a lost
    single step, runs the controller and commits the control structure.  The vm
    does what it wants between the exits and exits for any reason, but
    ([exit_sane]) it accesses no port in the middle of the initialisation of
    its interrupt controller, writes the efer as the processor would accept it
    and, where the msrs are proxied, leaves the PAT and the performance
    counters alone.  The controller is any that leaves this mode alone
    ([ControllerLaws]), such as a debugger that changes registers, memory and
    its own fields as it wants ([debugger_laws]).  The
    processor leaves the entry controls of the efer free ([entry_free]). *)
Theorem handler_mode_invariant s s' : vm_inv s -> rtc vm_life s s' -> vm_inv s'.
Proof. intros Hi Hs. induction Hs as [|s1 s2 s3 H12 _ IH]; [done|]. apply IH. by apply (life_inv s1 s2). Qed.
End exits.

(** ** The vm enables protection

    The exit of [CpuRun]'s example, through the whole handler. *)
#[local] Existing Instance ex_vmx.
#[local] Existing Instance ex_hrd.

Definition ex_cr_fields : field -> Z := upd ex_fields info_reason 28.
Definition ex_cr : mach :=
  ex_mach ex_cr_fields (fun r => if decide (r = GPR64_RAX) then 0x11 else 0) 0 VM_RMODE_EXCP_BITMAP true ∅.
Definition ex_x (pool : bytes) : xstate := mk_x (set_m ex_cr (ex_out pool)) 0 (mk_npf 0 0 0) 0.

Lemma ex_cr_at : at_exit ex_cr_fields ex_cr.
Proof.
  apply ex_mach_at_exit. intros f. unfold ex_cr_fields. unfold upd. destruct (decide _) as [<-|]; [by vm_compute|apply ex_fields_fit].
Qed.
Lemma ex_cr_inv : mode_inv ex_cr.
Proof.
  exists ex_cr_fields. split_and!; [exact ex_cr_at|by split|]. split; [intros r; cbn; by case_decide; vm_compute|by vm_compute|intros a; by vm_compute].
Qed.
Lemma ex_cr_runs pool : exists s', vmx_vmexit_handler ex_area ex_paddr 0 0 false false 0 (fun _ => inl VM_FAIL) CPUID_QEMU_NONE 1 (ex_x pool) =
  Some (tt, s') /\ bit (hw (m_vmcs (mach_of s')) exec_cr0_read_shadow) CR0_PE_BIT = true.
Proof. eexists. split; [vm_compute; reflexivity|]. reflexivity. Qed.
Lemma ex_x_inv pool : pool_ok pool -> vm_inv (ex_x pool).
Proof.
  intros Hp. split; [exact ex_cr_inv|]. apply set_m_ok; [by apply ex_out_ok|].
  intros a. by vm_compute.
Qed.

Lemma ex_x_sane pool H : at_exit H (mach_of (ex_x pool)) -> exit_sane H (ex_x pool).
Proof.
  intros [_ HH]. pose proof (HH info_reason ltac:(fld_ok)) as Er. change (28 = H info_reason) in Er.
  split; rewrite <- Er; intros Hx; vm_compute in Hx; discriminate Hx.
Qed.

(** A debugger that, at every exit, patches the first instruction of the vm,
    sets a hardware breakpoint and changes a register. *)
#[local] Definition ex_plan : plan :=
  fun _ => (VM_DONE, [ed_byte 0x7c03 0xcc; ed_field st_dr7 0x402; ed_gpr GPR64_RBX 7]).
#[local] Definition ex_debugger : Controller :=
  debugger (fun _ _ => (VM_IGNORE, [])) (fun _ => (VM_IGNORE, [])) (fun _ => (VM_IGNORE, [])) ex_plan.
Lemma ex_debugger_runs pool : exists s', @vmx_vmexit_handler _ _ ex_debugger ex_area ex_paddr 0 0 false false 0 (fun _ => inl VM_FAIL)
    CPUID_QEMU_NONE 1 (ex_x pool) = Some (tt, s') /\
  bit (hw (m_vmcs (mach_of s')) exec_cr0_read_shadow) CR0_PE_BIT = true /\ hw (m_vmcs (mach_of s')) st_dr7 = 0x402 /\
  rd0 (m_mem (mach_of s')) 0x7c03 = 0xcc.
Proof. eexists. split; [vm_compute; reflexivity|]. split_and!; reflexivity. Qed.

Example handler_mode_invariant_witness : exists s', vm_inv s' /\ bit (hw (m_vmcs (mach_of s')) exec_cr0_read_shadow) CR0_PE_BIT = true /\
  hw (m_vmcs (mach_of s')) st_dr7 = 0x402.
Proof.
  assert (byte hrd_undef) as Hu by by vm_compute.
  assert entry_free as Hf by (split_and!; vm_compute; reflexivity).
  assert (pool_ok ex_pool) as Hp by apply replicate_ok. destruct (ex_debugger_runs ex_pool) as (s' & E & Hpe & Hdr & _).
  exists s'. split; [|exact (conj Hpe Hdr)].
  refine (@handler_mode_invariant _ _ ex_debugger (debugger_laws _ _ _ _) ex_area ex_paddr 0 0 false false 0 (fun _ => inl VM_FAIL)
    CPUID_QEMU_NONE 1 Hu Hf (ex_x ex_pool) s' (ex_x_inv _ Hp) (rtc_once _ _ (life_exit _ _ _ _ _ _ _ _ _ _ _ _ _ E))).
  exact (ex_x_sane _).
Defined.
