(* ===== verification/Invg.v ===== *)
(** * The inspection of an invalid state of the vm (vmm/src/vmx/vmx_exit_invg.c)

    When the processor refuses to enter the vm, the vmm says which of the
    conditions on its state do not hold: one line per condition.  A function
    here is the list of the lines the C function prints, without the dumps
    that go with some of them. *)

From S2P Require Import Prelude.
From S2P Require Import Pagemem.
From S2P Require Import Walk.
From S2P Require Import Vm.
From S2P Require Import Words.
From S2P Require Import Vmcs.
From S2P Require Import Cpu.
From S2P Require Import CpuRegs.
From stdpp Require Import strings.

#[local] Open Scope Z_scope.

Abbreviation lines := (list string).
Definition warn (b : bool) (msg : string) : lines := if b then [msg] else [].

(** ** Fields *)

(** [vmcs_guest_seg_attr_t], [seg_sel_t] *)
Definition at_type (a : Z) : Z := bits a 0 4.
Definition at_s (a : Z) : bool := bit a 4.
Definition at_dpl (a : Z) : Z := bits a 5 2.
Definition at_p (a : Z) : bool := bit a 7.
Definition at_r1 (a : Z) : Z := bits a 8 4.
Definition at_l (a : Z) : bool := bit a 13.
Definition at_d (a : Z) : bool := bit a 14.
Definition at_g (a : Z) : bool := bit a 15.
Definition at_u (a : Z) : bool := bit a 16.
Definition at_r2 (a : Z) : Z := bits a 17 15.
Definition sel_rpl (s : Z) : Z := bits s 0 2.
Definition sel_ti (s : Z) : bool := bit s 2.

(** The fields of a segment register. *)
Record seg_fields := mk_seg { sg_name : string; sg_sel : field; sg_base : field; sg_limit : field; sg_attr : field }.
Definition es : seg_fields := mk_seg "ES" st_es_selector st_es_base st_es_limit st_es_attributes.
Definition cs : seg_fields := mk_seg "CS" st_cs_selector st_cs_base st_cs_limit st_cs_attributes.
Definition ss : seg_fields := mk_seg "SS" st_ss_selector st_ss_base st_ss_limit st_ss_attributes.
Definition ds : seg_fields := mk_seg "DS" st_ds_selector st_ds_base st_ds_limit st_ds_attributes.
Definition fs : seg_fields := mk_seg "FS" st_fs_selector st_fs_base st_fs_limit st_fs_attributes.
Definition gs : seg_fields := mk_seg "GS" st_gs_selector st_gs_base st_gs_limit st_gs_attributes.
Definition ldtr : seg_fields := mk_seg "LDTR" st_ldtr_selector st_ldtr_base st_ldtr_limit st_ldtr_attributes.
Definition tr : seg_fields := mk_seg "TR" st_tr_selector st_tr_base st_tr_limit st_tr_attributes.

Definition VMX_VMCS_GUEST_ACTIVITY_STATE_ACTIVE : Z := 0.
Definition VMX_VMCS_GUEST_ACTIVITY_STATE_HALT : Z := 1.
Definition VMX_VMCS_GUEST_ACTIVITY_STATE_SHUTDOWN : Z := 2.
Definition VMX_VMCS_GUEST_ACTIVITY_STATE_SIPI : Z := 3.
Definition VMCS_EVT_INFO_TYPE_NMI : Z := 2.
Definition VMCS_EVT_INFO_TYPE_OTHER : Z := 7.
Definition NMI_EXCP : Z := 2.

(** What the inspection reads besides the copies of the fields. *)
Record invg_info := mk_invg {
  iv_cr0 : fixed;                (* [info->vm.vmx_fx_cr0] *)
  iv_cr4 : fixed;
  iv_efer : Z;                   (* [info->vm.efer] *)
  iv_max_paddr : Z;              (* [info->vm.cpu.max_paddr] and that of the vmm *)
  iv_revision : Z;               (* [info->vm.vmx_info.revision_id] *)
  iv_current : Z;                (* the address of [vm_cpu_vmcs] *)
  iv_mem : gmap Z Z;
}.

Section invg.
Variables (i : invg_info) (g : field -> Z).

(** include/cpu_modes.h *)
Definition iv_paged (pae lma : bool) : bool :=
  bit (g exec_cr0_read_shadow) CR0_PG_BIT && eqb (bit (g exec_cr4_read_shadow) CR4_PAE_BIT) pae &&
  eqb (bit (iv_efer i) EFER_LMA_BIT) lma.
Definition canonical_linear (a : Z) : bool :=
  negb (iv_paged true true) || ((a <=? 2 ^ 47 - 1) || (wnot 64 (2 ^ 47 - 1) <=? a)).

Definition uguest : bool := bit (g exec_proc) 31 && bit (g exec_proc2) 7.
Definition ia32e : bool := bit (g entry_entry) 9.
Definition entry_smm : bool := bit (g entry_entry) 10.
Definition v86 : bool := bit (g st_rflags) 17.
Definition rf_if : bool := bit (g st_rflags) 9.
Definition rf_tf : bool := bit (g st_rflags) 8.
Definition inject_v : bool := bit (g entry_int_info) 31.
Definition inject_type : Z := bits (g entry_int_info) 8 3.
Definition inject_vector : Z := bits (g entry_int_info) 0 8.
Definition sti : bool := bit (g st_interrupt) 0.
Definition mss : bool := bit (g st_interrupt) 1.
Definition smi : bool := bit (g st_interrupt) 2.

(** ** Control, debug and model specific registers *)

Definition pat_bad (n : Z) : bool := let pa := bits (g st_ia32_pat) (8 * n) 3 in (pa =? 2) || (pa =? 3).

Definition vmx_invg_cr_dr_msr : lines :=
  let cr0 := bits (g st_cr0) 0 32 in let cr4 := bits (g st_cr4) 0 32 in
  let dbgctl := g st_ia32_dbgctl in let perf := g st_ia32_perf in let efer := g st_ia32_efer in
  let entry := g entry_entry in
  warn (negb (bits (vmx_set_fixed cr0 (iv_cr0 i)) 0 32 =? cr0)) "cr0 setting" ++
  warn (negb uguest && negb (bit cr0 CR0_PE_BIT && bit cr0 CR0_PG_BIT)) "cr0 setting (uguest pe pg)" ++
  warn (negb (bits (vmx_set_fixed cr4 (iv_cr4 i)) 0 32 =? cr4)) "cr4 setting" ++
  (if bit entry 2 then
     if c_true (bits dbgctl 2 4) || c_true (bits dbgctl 13 1) || c_true (bits dbgctl 15 49) then ["ia32 dbgctl rsv setting"%string]
     else warn (c_true (bits (g st_dr7) 32 32)) "ia32 dbgctl (dr7)"
   else []) ++
  warn (ia32e && negb (bit cr0 CR0_PG_BIT && bit cr4 CR4_PAE_BIT)) "ia32e mode (pg/pae)" ++
  warn (negb ia32e && bit cr4 17) "ia32e mode (pcide)" ++
  warn (c_true (Z.land (g st_cr3) (wnot 64 (iv_max_paddr i)))) "cr3 setting" ++
  (if negb (canonical_linear (g st_ia32_sysenter_esp)) then ["sysenter esp"%string]
   else warn (negb (canonical_linear (g st_ia32_sysenter_eip))) "sysenter eip") ++
  warn (bit entry 13 && (c_true (bits perf 2 30) || c_true (bits perf 35 29))) "ia32 perf rsv setting" ++
  warn (bit entry 14 && (pat_bad 0 || pat_bad 1 || pat_bad 2 || pat_bad 3 || pat_bad 4 || pat_bad 5 || pat_bad 6 || pat_bad 7))
    "ia32 pat setting" ++
  (if bit entry 15 then
     warn (c_true (Z.land efer (wnot 64 0xd01))) "ia32 efer rsv bits setting" ++
     warn (negb (eqb (bit efer EFER_LMA_BIT) ia32e)) "efer lma setting" ++
     warn ((negb uguest && negb (bit cr0 CR0_PG_BIT)) && negb (eqb (bit efer EFER_LMA_BIT) (bit efer EFER_LME_BIT)))
       "efer lme setting"
   else []).

(** ** Segments *)

Definition vmx_check_seg_limit (s : seg_fields) : lines :=
  warn (negb (at_g (g (sg_attr s))) && c_true (Z.shiftr (g (sg_limit s)) 20)) (sg_name s +:+ " granularity/limit").

Definition seg_rsv (s : seg_fields) : bool := c_true (at_r1 (g (sg_attr s))) || c_true (at_r2 (g (sg_attr s))).

Definition vmx_check_seg_type (s : seg_fields) (uguest : bool) : lines :=
  let a := g (sg_attr s) in let nm := sg_name s in
  if at_u a then []
  else
    warn (negb uguest && (at_type a <? 11) && (at_dpl a <? sel_rpl (g (sg_sel s)))) (nm +:+ " dpl") ++
    warn (negb (bit (at_type a) 0)) (nm +:+ " not accessed") ++
    warn (bit (at_type a) 3 && negb (bit (at_type a) 1)) (nm +:+ " type (code/unreadable)") ++
    warn (negb (at_s a)) (nm +:+ " system type") ++
    warn (negb (at_p a)) (nm +:+ " not present") ++
    warn (seg_rsv s) (nm +:+ " rsv bits") ++
    vmx_check_seg_limit s.

Definition v86_base_bad (s : seg_fields) : bool := negb (g (sg_base s) =? sel_index (g (sg_sel s)) * 16).
Definition v86_attr_bad (s : seg_fields) : bool := negb (g (sg_attr s) =? 0xf3).
Definition base_high (s : seg_fields) : bool := c_true (bits (g (sg_base s)) 32 32).
Definition usable (s : seg_fields) : bool := negb (at_u (g (sg_attr s))).

(** Virtual 8086 mode; the limit checked is the one of cs, six times. *)
Definition vmx_invg_segments_v86 : lines :=
  warn (v86_base_bad cs || v86_base_bad ss || v86_base_bad ds || v86_base_bad es || v86_base_bad fs || v86_base_bad gs)
    "v86 segment base" ++
  warn (negb (g st_cs_limit =? 0xffff)) "v86 segment limit" ++
  warn (v86_attr_bad cs || v86_attr_bad ss || v86_attr_bad ds || v86_attr_bad es || v86_attr_bad fs || v86_attr_bad gs)
    "v86 segment attr".

Definition vmx_invg_segments_code : lines :=
  let ca := g st_cs_attributes in let sa := g st_ss_attributes in
  (if negb ((at_type ca =? 9) || (at_type ca =? 11) || (at_type ca =? 13) || (at_type ca =? 15)) then
     if negb uguest then ["CS type"%string] else warn (negb (at_type ca =? 3)) "CS type while uguest"
   else []) ++
  warn (negb (at_s ca)) "CS desc (sys)" ++
  warn (negb (at_p ca)) "CS present bit" ++
  warn (seg_rsv cs) "CS reserved bits" ++
  warn (ia32e && at_l ca && at_d ca) "CS.attr.d while entering ia32e" ++
  vmx_check_seg_limit cs ++
  warn ((at_type ca =? 3) && (c_true (at_dpl ca) || c_true (at_dpl sa))) "CS/SS dpl (type 3)" ++
  warn (((at_type ca =? 9) || (at_type ca =? 11)) && negb (at_dpl ca =? at_dpl sa)) "CS dpl (type 9/11)" ++
  warn (((at_type ca =? 13) || (at_type ca =? 15)) && (at_dpl sa <? at_dpl ca)) "CS dpl (type 13/15)" ++
  warn (usable ss && (negb (at_s sa) || negb ((at_type sa =? 3) || (at_type sa =? 7)))) "SS type/sys" ++
  warn (negb uguest && negb (at_dpl sa =? sel_rpl (g st_ss_selector))) "SS dpl" ++
  warn (uguest && negb (bit (g st_cr0) CR0_PE_BIT) && c_true (at_dpl sa)) "SS dpl (pe=0)" ++
  (if usable ss then
     warn (negb (at_p sa)) "SS present bit" ++ warn (seg_rsv ss) "SS rsv bits" ++ vmx_check_seg_limit ss
   else []) ++
  vmx_check_seg_type ds uguest ++ vmx_check_seg_type es uguest ++ vmx_check_seg_type fs uguest ++
  vmx_check_seg_type gs uguest.

Definition vmx_invg_segments_sys : lines :=
  let ta := g st_tr_attributes in let la := g st_ldtr_attributes in
  warn ((ia32e && negb (at_type ta =? 11)) || (negb ia32e && negb (at_type ta =? 3) && negb (at_type ta =? 11))) "TR type" ++
  warn (at_s ta) "TR sys" ++
  warn (negb (at_p ta)) "TR not present" ++
  warn (seg_rsv tr) "TR rsv bits" ++
  vmx_check_seg_limit tr ++
  warn (at_u ta) "TR unusable" ++
  (if usable ldtr then
     warn (negb (at_type la =? 2)) "LDTR type" ++ warn (at_s la) "LDTR sys" ++ warn (negb (at_p la)) "LDTR not present" ++
     warn (seg_rsv ldtr) "LDTR rsv bits" ++ vmx_check_seg_limit ldtr
   else []).

Definition vmx_invg_segments : lines :=
  warn (sel_ti (g st_tr_selector)) "TR not in GDT" ++
  warn (usable ldtr && sel_ti (g st_ldtr_selector)) "LDTR usable and not in GDT" ++
  warn (negb v86 && negb uguest && negb (sel_rpl (g st_ss_selector) =? sel_rpl (g st_cs_selector))) "ss/cs RPL" ++
  (if v86 then vmx_invg_segments_v86 else []) ++
  warn (negb (canonical_linear (g st_tr_base)) || negb (canonical_linear (g st_fs_base)) || negb (canonical_linear (g st_gs_base)))
    "TR/FS/GS non-canonical base address" ++
  warn (usable ldtr && negb (canonical_linear (g st_ldtr_base))) "LDTR non-canonical base address" ++
  warn (base_high cs) "CS base address upper bits non zero" ++
  warn (usable ss && base_high ss) "SS invalid base address" ++
  warn (usable ds && base_high ds) "DS invalid base address" ++
  warn (usable es && base_high es) "ES invalid base address" ++
  (if negb v86 then vmx_invg_segments_code else []) ++
  vmx_invg_segments_sys.

(** ** Descriptor tables, instruction pointer and flags *)

Definition vmx_invg_dtr : lines :=
  warn (negb (canonical_linear (g st_gdtr_base))) "GDT non-canonical base address" ++
  warn (negb (canonical_linear (g st_idtr_base))) "IDT non-canonical base address" ++
  warn (c_true (bits (g st_gdtr_limit) 16 16)) "GDTR limit" ++
  warn (c_true (bits (g st_idtr_limit) 16 16)) "IDTR limit".

Definition vmx_invg_loc : lines :=
  let rf := g st_rflags in
  (if ia32e && at_l (g st_cs_attributes) then warn (negb (canonical_linear (g st_rip))) "RIP non-canonical address"
   else warn (c_true (bits (g st_rip) 32 32)) "RIP upper bits") ++
  warn (negb (bit rf 1) || (bit rf 3 || bit rf 5 || bit rf 15 || c_true (bits rf 22 10))) "RFLAGS rsv bits" ++
  warn (v86 && (ia32e || negb (bit (g st_cr0) CR0_PE_BIT))) "RFLAGS vm bit" ++
  warn (negb rf_if && (inject_v && (inject_type =? VMCS_EVT_INFO_TYPE_HW_INT))) "RFLAGS.if = 0 while injecting IRQ".

(** ** The other fields *)

Definition vmx_invg_activity : lines :=
  let act := g st_activity in
  warn (3 <? act) "activity state" ++
  warn ((act =? VMX_VMCS_GUEST_ACTIVITY_STATE_HALT) && c_true (at_dpl (g st_ss_attributes))) "activity state (HLT) ss.dpl" ++
  warn (negb (act =? VMX_VMCS_GUEST_ACTIVITY_STATE_ACTIVE) && (sti || mss)) "activity state (ACTIVE) sti/mss" ++
  (if inject_v then
     if (act =? VMX_VMCS_GUEST_ACTIVITY_STATE_HALT) &&
        (negb ((inject_type =? VMCS_EVT_INFO_TYPE_HW_INT) || (inject_type =? VMCS_EVT_INFO_TYPE_NMI)) ||
         negb ((inject_type =? VMCS_EVT_INFO_TYPE_HW_EXCP) && ((inject_vector =? DB_EXCP) || (inject_vector =? MC_EXCP))) ||
         negb ((inject_type =? VMCS_EVT_INFO_TYPE_OTHER) && (inject_vector =? 0)))
     then ["activity state (HLT) event entry"%string]
     else if (act =? VMX_VMCS_GUEST_ACTIVITY_STATE_SHUTDOWN) &&
        negb ((inject_type =? VMCS_EVT_INFO_TYPE_HW_EXCP) && ((inject_vector =? NMI_EXCP) || (inject_vector =? MC_EXCP)))
     then ["activity state (SHTDWN)"%string]
     else warn (act =? VMX_VMCS_GUEST_ACTIVITY_STATE_SIPI) "activity state (SIPI) event entry"
   else []) ++
  warn ((act =? VMX_VMCS_GUEST_ACTIVITY_STATE_SIPI) && entry_smm) "activity state (SIPI) smm".

Definition vmx_invg_interruptibility : lines :=
  let act := g st_activity in let dbg := g st_dbg_excp in let btf := bit (g st_ia32_dbgctl) 1 in let bs := bit dbg 14 in
  warn (c_true (bits (g st_interrupt) 4 28)) "interruptibility state rsv bits" ++
  warn (sti && mss) "interruptibility state sti & mss" ++
  warn (sti && negb rf_if) "interruptibility state sti & !rflags.if" ++
  warn ((sti || mss) && (inject_v && (inject_type =? VMCS_EVT_INFO_TYPE_HW_INT))) "interruptibility state (sti/mss & inject HWINT)" ++
  warn ((sti || mss) && (inject_v && (inject_type =? VMCS_EVT_INFO_TYPE_NMI))) "interruptibility state (sti/mss & inject NMI)" ++
  warn smi "interruptibility state (smi & !SMM)" ++
  warn (negb smi && entry_smm) "interruptibility state (enter smm & !smi)" ++
  warn (bit (g st_interrupt) 3 && bit (g exec_pin) 5 && inject_v && (inject_type =? VMCS_EVT_INFO_TYPE_NMI))
    "interruptibility state (nmi & vnmi)" ++
  warn (c_true (bits dbg 4 8) || c_true (bits dbg 13 1) || c_true (bits dbg 15 17)) "pending #DB rsv bits" ++
  (if sti || mss || (act =? VMX_VMCS_GUEST_ACTIVITY_STATE_HALT) then
     warn (((rf_tf && negb btf) && negb bs) || ((negb rf_tf || btf) && bs)) "pending #DB bs/tf/btf"
   else []).

Definition vmx_invg_link : lines :=
  let link := g st_vmcs_link_ptr in
  if link =? 2 ^ 64 - 1 then []
  else
    let x := Words.rd32 (iv_mem i) link in
    warn (c_true (Z.land (bits link 0 16) 0xfff)) "vmcs link ptr" ++
    warn (iv_max_paddr i <? link) "vmcs link ptr (max paddr)" ++
    ["vmcs link ptr ="%string] ++
    warn (negb (Z.land x 0x7fffffff =? iv_revision i)) "vmcs link ptr revision id" ++
    warn (negb (Z.shiftr x 31 =? bits (g exec_proc2) 14 1)) "vmcs link ptr shadow" ++
    warn (entry_smm && (link =? iv_current i)) "vmcs link ptr SMM/current".

Definition vmx_invg_nonreg : lines := vmx_invg_activity ++ vmx_invg_interruptibility ++ vmx_invg_link.

(** ** Entries of the PAE table *)

Definition vmx_check_pdpe (e : Z) : lines := warn (negb (valid_pae_pdpe (iv_max_paddr i) e)) "pae pdpe".

Definition vmx_invg_pdpte : lines :=
  if negb (iv_paged true false) then []
  else if negb (bit (g exec_proc2) 1) then
    let pdp := Z.shiftl (bits (g st_cr3) 5 27) 5 in
    vmx_check_pdpe (rd64 (iv_mem i) pdp) ++ vmx_check_pdpe (rd64 (iv_mem i) (pdp + 8)) ++
    vmx_check_pdpe (rd64 (iv_mem i) (pdp + 16)) ++ vmx_check_pdpe (rd64 (iv_mem i) (pdp + 24))
  else
    vmx_check_pdpe (g st_pdpe_0) ++ vmx_check_pdpe (g st_pdpe_1) ++ vmx_check_pdpe (g st_pdpe_2) ++
    vmx_check_pdpe (g st_pdpe_3).

Definition vmx_invg_detect : lines :=
  vmx_invg_cr_dr_msr ++ vmx_invg_segments ++ vmx_invg_dtr ++ vmx_invg_loc ++ vmx_invg_nonreg ++ vmx_invg_pdpte.
End invg.
