(* ===== verification/ExitSem.v ===== *)
(** * What the exit handler does

    An exception the controller ignores goes back to the vm, a lost single
    step is set pending again, and the descriptor tables of real mode go to
    memory and back. *)

From S2P Require Import Prelude.
From S2P Require Import Monad.
From S2P Require Import Pagemem.
From S2P Require Import Walk.
From S2P Require Import Vm.
From S2P Require Import Words.
From S2P Require Import Vmcs.
From S2P Require Import Machine.
From S2P Require Import Cpu.
From S2P Require Import CpuRegs.
From S2P Require Import Rmode.
From S2P Require Import CpuMode.
From S2P Require Import Dev.
From S2P Require Import DevHdl.
From S2P Require Import DevSem.
From S2P Require Import DevTy.
From S2P Require Import CpuRun.
From S2P Require Import ExitDt.
From S2P Require Import Exits.
From S2P Require Import ExitInv.
From S2P Require Import ExitRun.
From S2P Require Import Invg.
From stdpp Require Import strings.

#[local] Open Scope Z_scope.

(** ** Exceptions *)

(** The exceptions the processor pushes an error code for, outside of real
    mode: double fault, invalid TSS, segment not present, stack fault, general
    protection, page fault and alignment check. *)
Definition pushes_error_code (v : Z) : bool := bool_decide (v ∈ [8; 10; 11; 12; 13; 14; 17]).
Lemma has_error_code_arch v : has_error_code v = pushes_error_code v.
Proof. apply bool_decide_ext. rewrite !elem_of_cons, !elem_of_nil. unfold PF_EXCP, DF_EXCP, TS_EXCP, NP_EXCP, SS_EXCP, GP_EXCP, AC_EXCP. lia. Qed.

(** The event of an exception, as the processor reads it: valid, a hardware
    exception, with an error code or not, and the vector. *)
Definition excp_event (v : Z) : Z := 0x80000300 + (if pushes_error_code v then 0x800 else 0) + v.
Definition code_event (v : Z) : Z := let i := int_info VMCS_EVT_INFO_TYPE_HW_EXCP v in
  if has_error_code v then set_bits i INT_DEC_BIT 1 1 else i.
Lemma event_arch v : fits 8 v -> code_event v = excp_event v.
Proof.
  intros Hv. assert (Forall (fun v => code_event v = excp_event v) (seqZ 0 256)) as Hall.
  { apply (bool_decide_eq_true_1 _). vm_compute. reflexivity. }
  rewrite Forall_forall in Hall. apply Hall, elem_of_seqZ. unfold fits in Hv. lia.
Qed.
Record reflects (v e c : Z) (A : field -> Z) : Prop := mk_reflects {
  rf_info : A entry_int_info = excp_event v;
  rf_err : pushes_error_code v = true -> A entry_err_code = e;
  rf_cr2 : v = PF_EXCP -> A st_cr2 = c;
}.

Section excp.
Context {V : Vmx} {Hw : Hrd} {C : Controller} (ar : area_t) (max_paddr : Z).
Context (smap_raw smap_nr : Z) (stp brk_insn : bool) (x0 : Z) (dis : mach -> vm_code + ud_t) (q : cpuid_qemu) (fuel : nat).

Lemma wp_inject H A R D W s v e c (Q : unit -> mach -> Prop) : cst H A R D W s ->
  entry_int_info ∉ W -> st_cr2 ∉ W -> entry_err_code ∉ W -> fits 8 v -> fits 32 e -> fits 64 c ->
  (forall A' w, cst H A' R D W (with_vmcs w s) -> reflects v e c A' -> (forall f, f ∉ event_fields -> A' f = A f) ->
    Q tt (with_vmcs w s)) ->
  wp (Cpu.inject_exception v e c) s Q.
Proof.
  intros Hc H1 H2 H3 Hv He Hcr HQ. pose proof (event_arch v Hv) as Hev. unfold code_event in Hev. unfold Cpu.inject_exception, vmx_prepare_event_injection.
  by_cases; try apply int_info_fits; by_cases; try done; by_cases;
    try marked entry_int_info; by_cases; try done; by_cases; try marked st_cr2; by_cases; try done; by_cases; try marked entry_err_code.
  all: eapply HQ; [eapply cst_weaken; [exact Hc|pre_ok|pre_ok]| |intros f Hf; by upd_other Hf].
  all: split; rewrite <- ?Hev, <- ?has_error_code_arch; upd_simpl; try done; try congruence;
    try (by match goal with E : has_error_code ?x = _ |- _ => rewrite E end); try (intros ->; done).
Qed.

Definition put_mach (m : mach) (s : xstate) : xstate := set_d (set_m m (x_d s)) s.
Lemma put_mach_id s : put_mach (mach_of s) s = s.
Proof. by destruct s as [[] ? ? ?]. Qed.
Lemma wp_on_mach {A} (m : M mach A) s (Q : A -> xstate -> Prop) :
  wp m (mach_of s) (fun x m' => Q x (put_mach m' s)) -> wp (on_mach m) s Q.
Proof. intros Hm. unfold on_mach, on_d, on_m. by apply wp_zoom, wp_zoom. Qed.
Lemma wp_on_mach_get {A} (m : M mach A) s (Q : A -> xstate -> Prop) :
  wp m (mach_of s) (fun x m' => m' = mach_of s /\ Q x s) -> wp (on_mach m) s Q.
Proof. intros Hm. apply wp_on_mach. eapply wp_mono; [exact Hm|]. intros x m' [-> HQ]. by rewrite put_mach_id. Qed.

Lemma exception_fault_low f : exception_fault f = f mod 2 ^ 32.
Proof. unfold exception_fault. change 0xffffffff with (Z.ones 32). by apply Z.land_ones. Qed.

(** An exception is resolved, from a state where its fields are loaded. *)
Definition excp_loaded : list field := [info_qualification; info_int_err_code; info_int_info].
Definition ignored (H A : field -> Z) (m : mach) (rc : vm_code) (s : xstate) : Prop := rc = VM_IGNORE /\
  x_excp_err s = A info_int_err_code /\ exists A' R D W w, cst H A' R D W (mach_of s) /\ pre_hdl_fields ⊆ R /\ W ⊆ [st_dr6] /\
    mach_of s = with_vmcs w m /\
    reflects (bits (A info_int_info) 0 8) (A info_int_err_code) (exception_fault (A info_qualification)) A' /\
    forall f, f ∉ st_dr6 :: event_fields -> A' f = A f.

Lemma wp_exception H A A1 R D W s m w : cst H A1 R D W (mach_of s) -> pre_hdl_fields ⊆ R -> excp_loaded ⊆ R -> W ⊆ [st_dr6] ->
  mach_of s = with_vmcs w m -> (forall f, f <> st_dr6 -> A1 f = A f) -> ask_excp (bits (A info_int_info) 0 8) = mret VM_IGNORE ->
  wp resolve_exception s (ignored H A m).
Proof.
  intros Hc HR HL HW Hm HA Hig. unfold resolve_exception.
  assert (info_int_info ∈ R /\ info_qualification ∈ R /\ info_int_err_code ∈ R) as (I1 & I2 & I3) by (split_and!; apply HL; elem).
  do 3 (apply wp_bind, wp_on_mach_get; cstep; (split; [done|]); rewrite HA by discriminate).
  cbv zeta. set (v := bits (A info_int_info) 0 8) in *.
  assert (fits 32 (A info_int_err_code)) as He.
  { rewrite <- HA by discriminate. change 32 with (width info_int_err_code). eapply cst_fits; [exact Hc|fld_ok]. }
  assert (forall g : field, g <> st_dr6 -> g ∉ W) as Hout.
  { intros g Hg Hin%HW%list_elem_of_singleton. done. }
  apply wp_bind. apply (wp_mono _ _ (fun _ s' => exists A2 R2 D2 w2, mach_of s' = with_vmcs w2 m /\ cst H A2 R2 D2 W (mach_of s') /\
    R ⊆ R2 /\ forall f, f ∉ st_dr6 :: event_fields -> A2 f = A f)).
  { assert (forall f, f ∉ st_dr6 :: event_fields -> A1 f = A f) as HA1.
    { intros f [Hf _]%not_elem_of_cons. by apply HA. }
    apply wp_when. destruct (v =? PF_EXCP); [|by exists A1, R, D, w]. apply wp_on_mach.
    cstep. cstep; [apply fault_fits|]. cstep. rewrite (filter_head st_cr2 W) in Hc by (by apply Hout).
    rewrite Hm in Hc |- *. do 4 eexists. split; [reflexivity|]. split; [exact Hc|]. split; [pre_ok|].
    intros f Hf. upd_other Hf. by apply HA1. }
  clear Hc. intros _ s1 (A2 & R2 & D2 & w2 & Hm1 & Hc & HR2 & HA2). unfold resolve_exception_with. apply wp_bind, wp_modify.
  apply wp_bind, wp_on_mach. rewrite Hig. cstep. rewrite put_mach_id. rewrite bool_decide_true by done. cbn [when].
  apply wp_bind, wp_on_mach. eapply wp_inject; [exact Hc|by apply Hout..|by apply bits_fits|exact He|apply fault_fits|].
  intros A3 w3 Hc3 Hrf HA3. apply wp_ret. split; [done|]. split; [done|]. change (mach_of (set_excp_err _ s1)) with (mach_of s1) in *.
  cbn [mach_of put_mach x_d set_d d_m set_m]. rewrite Hm1 in Hc3 |- *.
  exists A3, R2, D2, W, w3. split_and!; [exact Hc3|by etrans|done|done|done|].
  intros f Hf. rewrite HA3 by (by apply not_elem_of_cons in Hf as [_ ?]). by apply HA2.
Qed.

Lemma wp_resolve_excp H A s : starting H A pre_hdl_fields [] (mach_of s) -> let v := bits (A info_int_info) 0 8 in
  v <> GP_EXCP \/ rmode (m_efer (mach_of s)) (A exec_cr0_read_shadow) = false -> ask_excp v = mret VM_IGNORE ->
  wp (vmx_vmexit_resolve_excp ar max_paddr smap_raw smap_nr stp brk_insn x0 dis) s (ignored H A (mach_of s)).
Proof.
  intros Hst v Hv Hig. unfold vmx_vmexit_resolve_excp. pose proof (sg_cst _ _ _ _ _ Hst) as Hc.
  apply wp_bind, wp_on_mach. do 5 cstep. match goal with |- context [put_mach (with_vmcs ?w _) s] => set (s1 := put_mach (with_vmcs w _) s) end.
  match type of Hc with cst _ _ ?R _ _ (with_vmcs ?w _) => assert (mach_of s1 = with_vmcs w (mach_of s)) as Hm1 by done;
    assert (excp_loaded ⊆ R /\ pre_hdl_fields ⊆ R) as [HL HR]; [split; intros f Hf; [|by do 3 right];
      unfold excp_loaded in Hf; rewrite !elem_of_cons, elem_of_nil in Hf; rewrite !elem_of_cons; tauto|] end.
  rewrite <- Hm1 in Hc. clearbody s1. apply wp_bind, wp_on_mach_get. cstep. split; [done|]. fold v.
  destruct (Z.eqb_spec v GP_EXCP) as [Hg|_].
  - destruct Hv as [?|Hv]; [done|]. apply wp_bind, wp_on_mach_get. unfold is_rmode. do 5 cstep. split; [done|].
    rewrite Hm1. cbn [m_efer with_vmcs]. rewrite Hv. eapply wp_exception; [exact Hc|exact HR|exact HL|apply list_subseteq_nil|exact Hm1|done|exact Hig].
  - apply wp_bind, wp_when. destruct (v =? DB_EXCP).
    + apply wp_on_mach. unfold excp_dr6. do 4 cstep.
      eapply (wp_set_read H _ _ _ [st_dr6]); [fld_ok|loads|discriminate|by left|exact Hc|]. intros w Hc'. rewrite Hm1 in Hc'.
      eapply (wp_exception H A _ _ _ [st_dr6] (put_mach _ s1) _ w); [exact Hc'| | |done| | |exact Hig].
      * intros f Hf. right. by apply HR.
      * intros f Hf. right. by apply HL.
      * cbn. by rewrite Hm1.
      * intros f Hf. by rewrite upd_ne.
    + eapply wp_exception; [exact Hc|exact HR|exact HL|apply list_subseteq_nil|exact Hm1|done|exact Hig].
Qed.

(** ** The end of the handler

    Its steps only change these fields, when no event was interrupted. *)
Definition end_fields : list field := [st_interrupt; st_dbg_excp; st_rflags].
Definition end_post (H A : field -> Z) (R W : list field) (s s' : mach) : Prop := exists A' R' D' w,
  s' = with_vmcs w s /\ cst H A' R' D' W s' /\ R ⊆ R' /\ forall f, f ∉ end_fields -> A' f = A f.
Lemma end_intro H A A' R R' D' W s w : cst H A' R' D' W (with_vmcs w s) -> R ⊆ R' -> (forall f, f ∉ end_fields -> A' f = A f) ->
  end_post H A R W s (with_vmcs w s).
Proof. intros. by exists A', R', D', w. Qed.

Lemma wp_idt_quiet H A R D W s : cst H A R D W s -> bit (A info_idt_info) INT_V_BIT = false ->
  info_idt_info ∉ W -> info_int_info ∉ W -> st_interrupt ∉ W ->
  wp idt_deliver s (fun rc s' => rc = VM_DONE /\ end_post H A R W s s').
Proof.
  intros Hc Hi H1 H2 H3. unfold idt_deliver. do 4 cstep. rewrite Hi. cbn [negb]. cbv iota.
  by_cases; try marked st_interrupt; by_cases; (split; [done|]).
  all: eapply end_intro; [exact Hc|pre_ok|]; intros f Hf; by upd_other Hf.
Qed.
Lemma wp_discarded H A0 A R0 R D W s0 s w (Q : mach -> Prop) : s = with_vmcs w s0 -> cst H A R D W s -> R0 ⊆ R ->
  (forall f, f ∉ end_fields -> A f = A0 f) -> st_activity ∉ W -> st_interrupt ∉ W ->
  (forall s', end_post H A0 R0 W s0 s' -> Q s') -> wp vmx_db_pending_discarded s (fun _ s' => Q s').
Proof.
  intros -> Hc HR HA H1 H2 HQ. unfold vmx_db_pending_discarded.
  apply (proj2 (wp_bind (getf entry_int_info) _ _ _)), (proj2 (wp_gets _ _ _)). generalize (val (m_vmcs (with_vmcs w s0)) entry_int_info).
  intros i. by_cases; apply HQ; (eapply end_intro; [exact Hc| |exact HA]); intros f Hf%HR; by repeat apply list_elem_of_further.
Qed.
Lemma wp_db_quiet H A R D W s : cst H A R D W s -> pre_hdl_fields ⊆ R ->
  st_dbg_excp ∉ W -> st_rflags ∉ W -> st_activity ∉ W -> st_interrupt ∉ W -> info_reason ∉ W ->
  wp vmx_db_check_pending s (fun _ s' => end_post H A R W s s').
Proof.
  intros Hc HR H1 H2 H4 H5 H6. assert (st_rflags ∈ R /\ info_reason ∈ R) as [I1 I2] by (split; apply HR; elem).
  unfold vmx_db_check_pending, vmx_db_check_pending_any, vmexit_on_insn, vmx_db_check_pending_stp.
  by_cases; try marked st_rflags; by_cases; try marked st_dbg_excp; by_cases.
  all: try (eapply end_intro; [exact Hc|pre_ok|]; intros f Hf; by upd_other Hf).
  all: eapply (wp_discarded H A _ R); [reflexivity|exact Hc|pre_ok|intros f Hf; by upd_other Hf|done|done|intros s' Hs'; exact Hs'].
Qed.
Lemma wp_dbgctl_quiet H A R D W s : cst H A R D W s -> pre_hdl_fields ⊆ R ->
  st_activity ∉ W -> st_interrupt ∉ W -> st_ia32_dbgctl ∉ W -> st_dbg_excp ∉ W ->
  wp vmx_check_dbgctl s (fun _ s' => end_post H A R W s s').
Proof.
  intros Hc HR H1 H2 H3 H4. eapply wp_dbgctl_over; [exact Hc|exact HR|done..|]. intros A' R' D' w Hc' HR' HA.
  eapply end_intro; [exact Hc'|done|]. intros f Hf. apply HA. intros ->. apply Hf. elem.
Qed.

Hypothesis Hfree : entry_free.

Lemma wp_post_plain H A R D W s : cst H A R D W s -> fits 64 (m_gpr s GPR64_RSP) -> entry_entry ∉ W -> bit (A entry_entry) 15 = true ->
  wp vmx_vmexit_post_hdl s (fun _ s' => forall f, ok_field vmx_supported f -> f ∉ W -> f <> st_rsp -> f ∉ fixed_fields ->
    hw (m_vmcs s') f = A f).
Proof.
  intros Hc Hg HW Hb. destruct (cst_committable H A R D W s (m_gpr s GPR64_RSP) (proj1 Hfree) Hc HW Hb) as (L' & D' & Hv & Hcm).
  eapply wp_mono; [apply (wp_post_hdl H A L' D' W s Hv Hg Hcm)|]. intros _ s' [[_ Hhw] _] f Hf HfW Hn Hx. rewrite Hhw by done.
  eapply resumed_plain; [by eapply committed_resumed|done..].
Qed.

(** What stays of the state from the resolver to the resumption. *)
Record settles (H A : field -> Z) (m0 : mach) (s : xstate) (A' : field -> Z) (R W : list field) : Prop := mk_settles {
  se_cst : exists D, cst H A' R D W (mach_of s);
  se_pre : pre_hdl_fields ⊆ R;
  se_mach : exists w, mach_of s = with_vmcs w m0;
  se_same : forall f, f ∉ end_fields -> A' f = A f;
}.
Lemma settle_step H A m0 s A1 R W (m : M mach unit) (Q : unit -> xstate -> Prop) : settles H A m0 s A1 R W ->
  (forall D, cst H A1 R D W (mach_of s) -> wp m (mach_of s) (fun _ s' => end_post H A1 R W (mach_of s) s')) ->
  (forall s' A2 R2, settles H A m0 s' A2 R2 W -> x_excp_err s' = x_excp_err s -> Q tt s') -> wp (on_mach m) s Q.
Proof.
  intros [[D Hc] HR [w Hw0] Hs] Hm HQ. apply wp_on_mach. eapply wp_mono; [by apply (Hm D)|].
  intros [] m' (A2 & R2 & D2 & w2 & -> & Hc2 & HR2 & HA2). apply (HQ _ A2 R2); [|done]. split.
  - exists D2. exact Hc2.
  - by etrans.
  - exists w2. cbn. by rewrite Hw0.
  - intros f Hf. by rewrite HA2, Hs.
Qed.

Lemma wp_post_quiet H A m0 s A1 R W : settles H A m0 s A1 R W -> W ⊆ [st_dr6] -> run_controller = mret VM_DONE ->
  fits 64 (m_gpr m0 GPR64_RSP) -> bit (A entry_entry) 15 = true ->
  wp vmx_vmexit_post s (fun _ s' => x_excp_err s' = x_excp_err s /\ forall f, ok_field vmx_supported f ->
    f ∉ st_dr6 :: st_rsp :: fixed_fields ++ end_fields -> hw (m_vmcs (mach_of s')) f = A f).
Proof.
  intros Hs HW Hrun Hg Hb. assert (forall g : field, g <> st_dr6 -> g ∉ W) as Hout.
  { intros g Hg' Hin%HW%list_elem_of_singleton. done. }
  unfold vmx_vmexit_post. apply wp_bind. eapply settle_step; [exact Hs| |].
  { intros D Hc. eapply wp_db_quiet; [exact Hc|by apply Hs|by apply Hout..]. }
  intros s2 A2 R2 Hs2 E2. apply wp_bind. rewrite Hrun. apply wp_on_mach_get. apply (proj2 (wp_ret _ _ _)). split; [done|].
  apply wp_bind. change (c_true (Z.land (code_val VM_DONE) (Z.lor (code_val VM_FAIL) (code_val VM_FAULT)))) with false. cbv iota.
  apply (proj2 (wp_ret _ _ _)). apply wp_bind. eapply settle_step; [exact Hs2| |].
  { intros D Hc. eapply wp_dbgctl_quiet; [exact Hc|by apply Hs2|by apply Hout..]. }
  intros s3 A3 R3 [[D3 Hc3] HR3 [w3 Hw3] HA3] E3. apply wp_bind, (proj2 (wp_modify _ _ _)), wp_on_mach.
  change (mach_of (set_vmexit_cnt _ s3)) with (mach_of s3). eapply wp_mono.
  - eapply wp_post_plain; [exact Hc3|by rewrite Hw3|by apply Hout|]. rewrite HA3; [done|]. by apply (bool_decide_eq_true_1 _); vm_compute.
  - intros [] m' Hhw. split; [by rewrite <- E2, <- E3|]. intros f Hf [N1 [N2 [N3 N4]%not_elem_of_app]%not_elem_of_cons]%not_elem_of_cons.
    cbn. rewrite Hhw; [by apply HA3|done|by apply Hout|done|done].
Qed.

(** C6: an exception the controller ignores goes back to the vm: when the exit
    interrupted no event and the controller, asked next, lets the vm run, the
    processor is asked at the resumption to deliver a hardware exception of the
    same vector, at the instruction that raised it, with the error code of the
    exit for the vectors that push one and the low 32 bits of the fault address
    in cr2 for a page fault; the handler returns.  In real mode, where the
    processor pushes no error code, the vectors that have one are left out.  The processor leaves
    the entry controls of the efer free ([entry_free]). *)
Theorem exception_reflected H s : at_exit H (mach_of s) -> mode_ok H (mach_of s) -> regs_ok (mach_of s) ->
  bits (H info_reason) 0 16 = VMX_VMEXIT_EXCP_NMI -> bit (H info_idt_info) INT_V_BIT = false ->
  let v := bits (H info_int_info) 0 8 in
  pushes_error_code v = false \/ rmode (m_efer (mach_of s)) (H exec_cr0_read_shadow) = false ->
  ask_excp v = mret VM_IGNORE -> run_controller = mret VM_DONE ->
  wp (vmx_vmexit_handler ar max_paddr smap_raw smap_nr stp brk_insn x0 dis q fuel) s (fun _ s' =>
    reflects v (H info_int_err_code) (H info_qualification mod 2 ^ 32) (hw (m_vmcs (mach_of s'))) /\
    hw (m_vmcs (mach_of s')) st_rip = H st_rip /\ x_excp_err s' = H info_int_err_code).
Proof.
  intros He Hm Hr Hrs Hidt v Hv Hig Hrun. unfold vmx_vmexit_handler. apply wp_bind, wp_on_mach.
  destruct (exit_started H _ He) as (m1 & E1 & Hes & Hc1). pose proof (starting_exit H _ _ Hm Hr Hes Hc1) as Hst.
  unfold wp at 1. rewrite E1. set (s1 := put_mach m1 s). change m1 with (mach_of s1) in Hst.
  apply wp_bind. unfold vmx_vmexit_resolve_dispatcher. apply wp_bind, wp_on_mach_get.
  apply (proj2 (wp_gets _ _ _)). split; [done|]. rewrite (start_reason H H _ Hst), Hrs.
  change (vmx_vmexit_resolve _ _ _ _ _ _ _ _ _ _ VMX_VMEXIT_EXCP_NMI) with (vmx_vmexit_resolve_excp ar max_paddr smap_raw smap_nr stp brk_insn x0 dis).
  eapply wp_mono; [apply (wp_resolve_excp H H s1 Hst); [|exact Hig]|].
  { destruct Hv as [Hv|Hv]; [left; intros Hg; unfold v in Hv; rewrite Hg in Hv; discriminate Hv|right]. destruct Hes as [w Hes]. cbn. by rewrite Hes. }
  intros rc s2 (-> & Eerr & A & R & D & W & w & Hc & HR & HW & Hm2 & Hrf & HA).
  change (bool_decide (VM_IGNORE = VM_FAIL)) with false. apply wp_bind, (proj2 (wp_ret _ _ _)), wp_bind, wp_on_mach.
  assert (forall g : field, g <> st_dr6 -> g ∉ W) as Hout.
  { intros g Hg' Hin%HW%list_elem_of_singleton. done. }
  eapply wp_mono; [eapply wp_idt_quiet; [exact Hc| |by apply Hout..]|].
  { rewrite HA; [exact Hidt|]. by apply (bool_decide_eq_true_1 _); vm_compute. }
  intros rc m3 (-> & A3 & R3 & D3 & w3 & -> & Hc3 & HR3 & HA3). apply wp_bind, (proj2 (wp_ret _ _ _)).
  eapply wp_mono; [eapply (wp_post_quiet H A (mach_of s1) _ A3 R3 W); [|exact HW|exact Hrun|apply Hst|]|].
  - split; [exists D3; exact Hc3|by etrans|exists w3; cbn; by rewrite Hm2|exact HA3].
  - rewrite HA; [apply Hm|]. by apply (bool_decide_eq_true_1 _); vm_compute.
  - intros [] s4 [E4 Hhw].
    assert (forall f, f ∈ st_rip :: event_fields -> hw (m_vmcs (mach_of s4)) f = A f) as Hh.
    { intros f Hf. apply Hhw; [|].
      - repeat (apply elem_of_cons in Hf as [->|Hf]); [fld_ok..|by apply elem_of_nil in Hf].
      - revert Hf. apply notin_by. by vm_compute. }
    rewrite exception_fault_low in Hrf. destruct Hrf as [F1 F2 F3]. split; [|split; [|by rewrite E4]].
    + split; rewrite ?Hh by elem; auto.
    + rewrite Hh, HA; [done| |elem]. by apply (bool_decide_eq_true_1 _); vm_compute.
Qed.
End excp.

(** ** Pending debug exceptions

    The processor refuses a pending single step that is not the one the flags
    of the vm ask for, when the vm is blocked or halted; [Invg] prints a line. *)
Definition bs_line : string := "pending #DB bs/tf/btf".
Definition bs_bad (g : field -> Z) : bool := (sti g || mss g || (g st_activity =? VMX_VMCS_GUEST_ACTIVITY_STATE_HALT)) &&
  (rf_tf g && negb (bit (g st_ia32_dbgctl) DBGCTL_BTF_BIT) && negb (bit (g st_dbg_excp) DBG_BS_BIT) ||
   (negb (rf_tf g) || bit (g st_ia32_dbgctl) DBGCTL_BTF_BIT) && bit (g st_dbg_excp) DBG_BS_BIT).
Lemma bs_line_bad g : bs_line ∈ vmx_invg_interruptibility g -> bs_bad g = true.
Proof.
  unfold vmx_invg_interruptibility. cbv zeta. rewrite !elem_of_app.
  assert (forall b m, bs_line ∈ warn b m -> m = bs_line /\ b = true) as Hw.
  { intros b m Hm. unfold warn in Hm. destruct b; [by apply list_elem_of_singleton in Hm|by apply elem_of_nil in Hm]. }
  intros Hin. repeat (destruct Hin as [[Hm _]%Hw|Hin]; [discriminate Hm|]). unfold bs_bad.
  destruct (_ || _ || _); [|by apply elem_of_nil in Hin]. by apply Hw in Hin as [_ Hb].
Qed.

Lemma wp_dbgctl_bs {V : Vmx} H A R D W s : cst H A R D W s -> pre_hdl_fields ⊆ R ->
  st_activity ∉ W -> st_interrupt ∉ W -> st_ia32_dbgctl ∉ W -> st_dbg_excp ∉ W ->
  wp vmx_check_dbgctl s (fun _ s' => exists A' R' D' w, s' = with_vmcs w s /\ cst H A' R' D' W s' /\
    (forall f, f <> st_dbg_excp -> A' f = A f) /\ bs_bad A' = false).
Proof.
  intros Hc HR H1 H2 H3 H4. assert (st_rflags ∈ R) as Hfl by (apply HR; elem).
  unfold vmx_check_dbgctl. by_cases; try marked st_dbg_excp; try rewrite (filter_notin _ _ H4) in Hc.
  all: do 4 eexists; (split; [reflexivity|]); (split; [exact Hc|]); (split; [intros f Hf; by rewrite ?upd_ne|]).
  all: unfold bs_bad, sti, mss, rf_tf; upd_simpl; rewrite ?(bit_set_same _ _ true), ?(bit_set_same _ _ false) by done.
  all: change STI_BIT with 0 in *; change MSS_BIT with 1 in *; change RFLAGS_TF_BIT with 8 in *;
    change VMX_ACTIVITY_HALT with 1 in *; change VMX_VMCS_GUEST_ACTIVITY_STATE_HALT with 1 in *.
  all: destruct (bit (A st_interrupt) 0), (bit (A st_interrupt) 1), (A st_activity =? 1), (bit (A st_rflags) 8),
    (bit (A st_ia32_dbgctl) DBGCTL_BTF_BIT); try done; by destruct (bit (A st_dbg_excp) DBG_BS_BIT).
Qed.

(** C26: the vm resumes with a pending single step the processor accepts: the
    inspection of the fields at the resumption has no complaint on it, blocked,
    halted or stepping.  The exit is one the mode of the processor survives
    ([exit_sane]) and the controller one that leaves this mode alone
    ([ControllerLaws]); it may set or clear the step, its controls and the
    interruptibility as it wants.  The processor leaves the
    entry controls of the efer free ([entry_free]). *)
Theorem pending_step_valid `{Vmx} `{Hrd} `{Controller} `{!ControllerLaws} ar max_paddr raw nr stp brk x0 dis q fuel s s' :
  byte hrd_undef -> entry_free -> vm_inv s -> (forall H, at_exit H (mach_of s) -> exit_sane H s) ->
  vmx_vmexit_handler ar max_paddr raw nr stp brk x0 dis q fuel s = Some (tt, s') ->
  bs_line ∉ vmx_invg_interruptibility (hw (m_vmcs (mach_of s'))).
Proof.
  intros Hu Hf Hi Hsane Hrun. destruct (handler_split _ _ _ _ _ _ _ _ _ _ Hu _ _ Hi Hsane Hrun) as (H' & s4 & Hs4 & E).
  destruct (post_split Hf H' s4 s' Hs4 E) as (s1 & m2 & [Hs1 _] & Edb & Hs2 & Ep & _).
  destruct Hs1 as (A & R & D & W & Hc & HR & HW & Hm & Hr).
  assert (forall f, f ∉ loose_fields -> f ∉ W) as Hout by (intros f Hn Hin%HW; done).
  destruct (wp_run _ _ _ _ _ (wp_dbgctl_bs H' A R D W (mach_of s1) Hc HR ltac:(apply Hout; elem) ltac:(apply Hout; elem)
    ltac:(apply Hout; elem) ltac:(apply Hout; elem)) Edb) as (A' & R' & D' & w & -> & Hc' & HA & Hbad).
  assert (bit (A' entry_entry) 15 = true) as Hb by (rewrite HA by discriminate; apply Hm).
  assert (fits 64 (m_gpr (with_vmcs w (mach_of s1)) GPR64_RSP)) as Hg by apply Hr.
  pose proof (wp_run _ _ _ _ _ (wp_post_plain Hf H' A' R' D' W _ Hc' Hg ltac:(apply Hout; elem) Hb) Ep) as Hhw. cbn beta in Hhw.
  intros Hin%bs_line_bad. revert Hin. unfold bs_bad, sti, mss, rf_tf.
  rewrite !Hhw; [unfold bs_bad, sti, mss, rf_tf in Hbad; by rewrite Hbad|..];
    first [fld_ok|apply Hout; elem|discriminate|by apply (bool_decide_eq_true_1 _); vm_compute].
Qed.

#[local] Existing Instance ex_vmx.
#[local] Existing Instance ex_hrd.
#[local] Existing Instance idle_controller.
#[local] Existing Instance idle_laws.

(** A page fault at 0x1234000, in protected mode. *)
Definition ex_pf_fields : field -> Z := upd (upd (upd (upd ex_fields info_int_info 0x80000b0e) info_int_err_code 2)
  info_qualification 0x1234000) exec_cr0_read_shadow 1.
Definition ex_pf : mach := ex_mach ex_pf_fields (fun _ => 0) 0 VM_PMODE_EXCP_BITMAP false ∅.
Definition ex_pf_x (pool : bytes) : xstate := mk_x (set_m ex_pf (ex_out pool)) 0 (mk_npf 0 0 0) 0.
Lemma ex_pf_fit f : fits (width f) (ex_pf_fields f).
Proof. unfold ex_pf_fields, upd. do 4 (destruct (decide _) as [<-|]; [by vm_compute|]). apply ex_fields_fit. Qed.

Example exception_reflected_witness : exists s',
  vmx_vmexit_handler ex_area ex_paddr 0 0 false false 0 (fun _ => inl VM_FAIL) CPUID_QEMU_NONE 1 (ex_pf_x []) = Some (tt, s') /\
  hw (m_vmcs (mach_of s')) entry_int_info = 0x80000b0e /\ hw (m_vmcs (mach_of s')) entry_err_code = 2 /\
  hw (m_vmcs (mach_of s')) st_cr2 = 0x1234000 /\ hw (m_vmcs (mach_of s')) st_rip = 0x7c00.
Proof.
  assert (entry_free) as Hf by (split_and!; vm_compute; reflexivity).
  assert (at_exit ex_pf_fields ex_pf) as He by (apply ex_mach_at_exit, ex_pf_fit).
  assert (mode_ok ex_pf_fields ex_pf) as Hm by by split.
  assert (regs_ok ex_pf) as Hr by (split; [intros r; by vm_compute|by vm_compute|intros a; by vm_compute]).
  assert (bits (ex_pf_fields info_int_info) 0 8 = 14) as Hv by (vm_compute; reflexivity).
  assert (bits (ex_pf_fields info_reason) 0 16 = VMX_VMEXIT_EXCP_NMI) as Hrs by (vm_compute; reflexivity).
  assert (bit (ex_pf_fields info_idt_info) INT_V_BIT = false) as Hi by (vm_compute; reflexivity).
  pose proof (exception_reflected ex_area ex_paddr 0 0 false false 0 (fun _ => inl VM_FAIL) CPUID_QEMU_NONE 1 Hf
    ex_pf_fields (ex_pf_x []) He Hm Hr Hrs Hi) as Hwp.
  assert (pushes_error_code 14 = false \/ rmode (m_efer (mach_of (ex_pf_x []))) (ex_pf_fields exec_cr0_read_shadow) = false) as Hn
    by (right; vm_compute; reflexivity).
  cbv zeta in Hwp. rewrite Hv in Hwp. pose proof (Hwp Hn eq_refl eq_refl) as Hend. clear Hwp.
  destruct (wp_exists _ _ _ Hend) as ([] & s' & E & [F1 F2 F3] & Hrip & _).
  exists s'. split; [exact E|]. split; [exact F1|]. split; [exact (F2 eq_refl)|]. split; [exact (F3 eq_refl)|exact Hrip].
Defined.

(** In real mode, where the processor pushes no error code and refuses an
    event that has one, a stack fault is asked for with an error code. *)
Definition ex_ss : mach := ex_mach (upd ex_fields info_int_info 0x80000b0c) (fun _ => 0) 0 VM_RMODE_EXCP_BITMAP true ∅.
Example rmode_error_code :
  match vmx_vmexit_handler ex_area ex_paddr 0 0 false false 0 (fun _ => inl VM_FAIL) CPUID_QEMU_NONE 1
    (mk_x (set_m ex_ss (ex_out [])) 0 (mk_npf 0 0 0) 0) with
  | Some (_, s) => bit (hw (m_vmcs (mach_of s)) exec_cr0_read_shadow) CR0_PE_BIT = false /\
      bit (hw (m_vmcs (mach_of s)) entry_int_info) INT_DEC_BIT = true
  | None => False
  end.
Proof. vm_compute. split; reflexivity. Qed.

(** A debugger that steps a vm which has just enabled its interrupts. *)
#[local] Definition ex_stepper : Controller :=
  debugger (fun _ _ => (VM_IGNORE, [])) (fun _ => (VM_IGNORE, [])) (fun _ => (VM_IGNORE, []))
    (fun _ => (VM_DONE, [ed_field st_rflags 0x302; ed_field st_interrupt 1])).
Lemma ex_stepper_runs pool : exists s', @vmx_vmexit_handler _ _ ex_stepper ex_area ex_paddr 0 0 false false 0 (fun _ => inl VM_FAIL)
    CPUID_QEMU_NONE 1 (ex_x pool) = Some (tt, s') /\
  bit (hw (m_vmcs (mach_of s')) st_dbg_excp) DBG_BS_BIT = true /\ sti (hw (m_vmcs (mach_of s'))) = true.
Proof. eexists. split; [vm_compute; reflexivity|]. split; reflexivity. Qed.

Example pending_step_valid_witness : exists s', bit (hw (m_vmcs (mach_of s')) st_dbg_excp) DBG_BS_BIT = true /\
  sti (hw (m_vmcs (mach_of s'))) = true /\ bs_line ∉ vmx_invg_interruptibility (hw (m_vmcs (mach_of s'))).
Proof.
  assert (byte hrd_undef) as Hu by by vm_compute.
  assert entry_free as Hf by (split_and!; vm_compute; reflexivity).
  assert (pool_ok ex_pool) as Hp by apply replicate_ok. destruct (ex_stepper_runs ex_pool) as (s' & E & Hbs & Hsti).
  exists s'. split; [exact Hbs|]. split; [exact Hsti|].
  refine (@pending_step_valid _ _ ex_stepper (debugger_laws _ _ _ _) ex_area ex_paddr 0 0 false false 0 (fun _ => inl VM_FAIL)
    CPUID_QEMU_NONE 1 (ex_x ex_pool) s' Hu Hf (ex_x_inv _ Hp) _ E). exact (ex_x_sane _).
Defined.

(** ** The interrupted event

    The code compares the outcome of its delivery with zero, that no code of
    include/vmerr.h is: a refused delivery goes unnoticed, the event is lost
    and the vm resumed. *)
Lemma idt_failure_unseen (rc : vm_code) : negb (c_true (code_val rc)) = false.
Proof. by destruct rc. Qed.

(** ** The operand of the descriptor table instructions

    [lgdt -16(%bx)] with bx at 0x100: the processor reads at the offset 0xf0 of
    its segment, the vmm 64KB above. *)
Definition ex_dt_info : Z := 2 * 2 ^ 28 + (15 - GPR64_RBX) * 2 ^ 23 + 2 ^ 22 + 3 * 2 ^ 15.
Example dt_operand_not_wrapped :
  option_map fst (dt_operand ex_dt_info (2 ^ 64 - 16)
    (ex_mach ex_fields (fun r => if decide (r = GPR64_RBX) then 0x100 else 0) 0 0 true ∅)) = Some 0x100f0.
Proof. vm_compute. reflexivity. Qed.
