(* ===== verification/VmxInit.v ===== *)
(** * The set-up of the processor (setup/src/vmx/*.c, include/vmx_vmcs.h)

    The vmm checks that the processor has what it needs, finds which controls
    it allows, fills the copies of the fields of the control structure, and
    writes them all.  The processor is what its msrs and cpuid answer; a panic
    is [None]. *)

From S2P Require Import Prelude.
From S2P Require Import Monad.
From S2P Require Import Pagemem.
From S2P Require Import Vm.
From S2P Require Import Vmcs.
From S2P Require Import Machine.
From S2P Require Import Cpu.
From S2P Require Import CpuRegs.

(** ** Fields of the host (include/vmx_vmcs_enc.h) *)

Definition host_es : field := Fld 0xc00.
Definition host_cs : field := Fld 0xc02.
Definition host_ss : field := Fld 0xc04.
Definition host_ds : field := Fld 0xc06.
Definition host_fs : field := Fld 0xc08.
Definition host_gs : field := Fld 0xc0a.
Definition host_tr : field := Fld 0xc0c.
Definition host_ia32_pat : field := Fld 0x2c00.
Definition host_ia32_efer : field := Fld 0x2c02.
Definition host_ia32_perf : field := Fld 0x2c04.
Definition host_ia32_sysenter_cs : field := Fld 0x4c00.
Definition host_cr0 : field := Fld 0x6c00.
Definition host_cr3 : field := Fld 0x6c02.
Definition host_cr4 : field := Fld 0x6c04.
Definition host_fs_base : field := Fld 0x6c06.
Definition host_gs_base : field := Fld 0x6c08.
Definition host_tr_base : field := Fld 0x6c0a.
Definition host_gdtr_base : field := Fld 0x6c0c.
Definition host_idtr_base : field := Fld 0x6c0e.
Definition host_ia32_sysenter_esp : field := Fld 0x6c10.
Definition host_ia32_sysenter_eip : field := Fld 0x6c12.
Definition host_rsp : field := Fld 0x6c14.
Definition host_rip : field := Fld 0x6c16.

(** ** Bitmaps (include/vmx_vmcs.h)

    A bitmap is a page of bytes; [base] is where the part of it an access is
    looked up in starts. *)

Definition vmx_bitmap (deny : bool) (base x : Z) (bm : bytes) : bytes :=
  let n := Z.to_nat (base + x / 8) in
  let b := nth n bm 0 in
  <[n := if deny then Z.lor b (Z.shiftl 1 (x mod 8)) else Z.land b (wnot 8 (Z.shiftl 1 (x mod 8)))]> bm.

(** [__vmx_access_io] on the two bitmaps. *)
Definition vmx_io_bitmaps (deny : bool) (io : Z) (ab : bytes * bytes) : bytes * bytes :=
  if io <? 0x8000 then (vmx_bitmap deny 0 io ab.1, ab.2) else (ab.1, vmx_bitmap deny 0 (io - 0x8000) ab.2).

(** [__vmx_access_msr]; [None] when the msr has no bit. *)
Definition vmx_access_msr (deny rd wr : bool) (msr : Z) (bm : bytes) : option bytes :=
  if msr <? 0x2000 then
    let bm := if rd then vmx_bitmap deny 0 msr bm else bm in
    Some (if wr then vmx_bitmap deny 2048 msr bm else bm)
  else if (0xc0000000 <=? msr) && (msr <=? 0xc0002000 - 1) then
    let bm := if rd then vmx_bitmap deny 1024 (msr - 0xc0000000) bm else bm in
    Some (if wr then vmx_bitmap deny 3072 (msr - 0xc0000000) bm else bm)
  else None.
Definition vmx_deny_msr_rw (msr : Z) (bm : bytes) : option bytes := vmx_access_msr true true true msr bm.

(** ** The processor and the configuration *)

Class Proc := {
  rdmsr : Z -> Z;                (* 64-bit answers *)
  cpu_has_vmx : bool;            (* [vmx_supported] *)
  cpu_max_addr_sz : Z;           (* the answer of cpuid on address sizes *)
  cfg_vpid : bool;               (* [CONFIG_VMX_FEAT_VPID] *)
  cfg_exit_ext_io : bool;        (* [CONFIG_VMX_FEAT_EXIT_EXT_IO] *)
  cfg_exit_dt : bool;            (* [CONFIG_VMX_FEAT_EXIT_DT] *)
  cfg_msr_proxy : bool;          (* [CONFIG_MSR_PROXY] *)
  cfg_exec_ptr : bool;
  cfg_smbase : bool;
}.

(** What the vmm runs with when it fills the control structure. *)
Record host := mk_host {
  h_cr0 : Z; h_cr3 : Z; h_cr4 : Z;
  h_stack_bottom : Z; h_entry : Z;
  h_gdt : Z; h_idt : Z;
  h_vmc : Z;                     (* the address of the aligned structures *)
  h_npg_pml4 : Z; h_npg_asid : Z;
}.

(** Addresses in [vmx_vmc_t]. *)
Definition vm_cpu_vmcs (vmc : Z) : Z := vmc + PAGE_SIZE.
Definition io_bitmap_a (vmc : Z) : Z := vmc + 2 * PAGE_SIZE.
Definition io_bitmap_b (vmc : Z) : Z := vmc + 3 * PAGE_SIZE.
Definition msr_bitmap (vmc : Z) : Z := vmc + 4 * PAGE_SIZE.
Definition sizeof_msr_area : Z := PAGE_SIZE / 2 * 16.
Definition msr_exit_store (vmc : Z) : Z := vmc + 5 * PAGE_SIZE.
Definition msr_exit_load (vmc : Z) : Z := msr_exit_store vmc + sizeof_msr_area.
Definition msr_entry_load (vmc : Z) : Z := msr_exit_load vmc + sizeof_msr_area.

Definition IA32_FEATURE_CONTROL_MSR : Z := 0x3a.
Definition IA32_VMX_BASIC_MSR : Z := 0x480.

Definition CR0_PE : Z := 1.
Definition CR0_PG : Z := Z.shiftl 1 CR0_PG_BIT.
Definition CR4_MCE : Z := 64.
Definition CR4_VMXE : Z := 0x2000.

Section init.
Context {P : Proc}.

(** ** Capabilities (vmx_cpu.c) *)

(** The two halves of a capability msr, and the pair of a control register. *)
Definition rd_fixed (m : Z) : fixed := mk_fixed (bits (rdmsr m) 0 32) (bits (rdmsr m) 32 32).
Definition rd_fixed_cr (m : Z) : fixed := mk_fixed (bits (rdmsr m) 0 32) (bits (rdmsr (m + 1)) 0 32).

Record caps := mk_caps {
  cp_feat : Z;                   (* what the feature control msr holds *)
  cp_info : Z; cp_misc : Z; cp_ept : Z;
  cp_cfg : vmcs_cfg;
}.

(** The feature control is locked with the extension on. *)
Definition vmx_cpu_feat_ctrl : option Z :=
  let feat := bits (rdmsr IA32_FEATURE_CONTROL_MSR) 0 32 in
  if negb (bit feat 2) && bit feat 0 then None
  else if negb (bit feat 0) then
    let feat := if negb (bit feat 2) then set_bits feat 2 1 1 else feat in
    Some (set_bits feat 0 1 1)
  else Some feat.

Definition vmx_cpu_basic_info : option (Z * Z * (fixed * fixed * fixed * fixed)) :=
  let info := rdmsr IA32_VMX_BASIC_MSR in
  let misc := rdmsr 0x485 in
  let fx := if bit info 55 then (rd_fixed 0x48d, rd_fixed 0x48e, rd_fixed 0x490, rd_fixed 0x48f)
            else (rd_fixed 0x481, rd_fixed 0x482, rd_fixed 0x484, rd_fixed 0x483) in
  if negb (bit misc 5) then None
  else if cfg_exit_ext_io && negb (bit info 54) then None
  else Some (info, misc, fx).

Definition vmx_cpu_ept_feat : option Z :=
  let cap := rdmsr 0x48c in
  if negb (bit cap 14) then None
  else if negb (bit cap 6) then None
  else if cfg_vpid && negb (bit cap 32) then None
  else if negb (bit cap 20) then None
  else Some cap.

Definition vmx_cpu_proc2_feat : option (fixed * Z) :=
  let fx := rd_fixed 0x48b in
  if negb (bit (allow_1 fx) 7) then None
  else if cfg_exit_dt && negb (bit (allow_1 fx) 2) then None
  else if cfg_vpid && negb (bit (allow_1 fx) 5) then None
  else if negb (bit (allow_1 fx) 1) then None
  else cap ← vmx_cpu_ept_feat; Some (fx, cap).

Definition vmx_cpu_proc_feat (proc : fixed) : option (fixed * Z) :=
  if negb (bit (allow_1 proc) 31) then None else vmx_cpu_proc2_feat.

(** The guest is unrestricted: paging and protection may be off. *)
Definition unrestricted (fx : fixed) : fixed :=
  mk_fixed (Z.ldiff (allow_0 fx) (Z.lor CR0_PG CR0_PE)) (Z.lor (allow_1 fx) (Z.lor CR0_PG CR0_PE)).

Definition vmx_cpu_features : option caps :=
  if negb cpu_has_vmx then None
  else
    feat ← vmx_cpu_feat_ctrl;
    b ← vmx_cpu_basic_info;
    let '(info, misc, (pin, proc, entry, exit)) := b in
    p ← vmx_cpu_proc_feat proc;
    Some (mk_caps feat info misc p.2
      (mk_vmcs_cfg entry exit pin proc p.1 (unrestricted (rd_fixed_cr 0x486)) (rd_fixed_cr 0x488) cfg_exec_ptr cfg_smbase)).

(** [vmx_cpu_max_addr], given what [info->vm.vmx_info] holds: sizes and
    maximums of the physical and linear addresses. *)
Definition vmx_cpu_max_addr (info : Z) : option (Z * Z * Z * Z) :=
  let psz := bits cpu_max_addr_sz 0 8 in let vsz := bits cpu_max_addr_sz 8 8 in
  if bit info 48 then None
  else Some (psz, wrap64 (Z.shiftl 1 psz - 1), vsz, wrap64 (Z.shiftl 1 vsz - 1)).

(** [flush_tlb] and [flush_tlb_glb] of [vmx_cpu_skillz]. *)
Definition VMCS_VPID_INV_SINGLE : Z := 3.
Definition VMCS_VPID_INV_SINGLE_ALL : Z := 1.
Definition VMCS_VPID_INV_ALL : Z := 2.
Definition vmx_cpu_skillz (cap : Z) : option (Z * Z) :=
  if negb cfg_vpid then Some (0, 0)
  else if bit cap 41 && bit cap 43 then Some (VMCS_VPID_INV_SINGLE, VMCS_VPID_INV_SINGLE_ALL)
  else if bit cap 42 then Some (VMCS_VPID_INV_ALL, VMCS_VPID_INV_ALL)
  else None.

(** setup/src/core/cpu.c: the sizes of the addresses come first, when the
    information msr has not been read yet. *)
Definition cpu_init : option (caps * (Z * Z * Z * Z) * (Z * Z)) :=
  mx ← vmx_cpu_max_addr 0;
  c ← vmx_cpu_features;
  sk ← vmx_cpu_skillz (cp_ept c);
  Some (c, mx, sk).

(** ** The vmm in root mode (vmx_vmm.c)

    The control registers it runs with, if the processor accepts [vmxon]. *)

Definition vmx_vmm_init (c : caps) (cr0 cr4 : Z) (vmxon : bool) : option (Z * Z) :=
  let cr0 := set_bits cr0 0 32 (vmx_set_fixed (bits cr0 0 32) (vmx_fx_cr0 (cp_cfg c))) in
  let cr4 := set_bits cr4 0 32 (vmx_set_fixed (bits cr4 0 32) (vmx_fx_cr4 (cp_cfg c))) in
  if vmxon then Some (cr0, Z.lor cr4 CR4_VMXE) else None.

(** ** The control structure (vmx_vmcs.c, vmx_guest.c) *)

Record vmi := mk_vmi {
  i_vmcs : vmcs;
  i_msr_bm : bytes;
  i_cr0_dft_mask : Z;
  i_cr4_dft_mask : Z;
  i_cfg : vmcs_cfg;
  i_idt_limit_rmode : Z;
  i_dr6 : Z; i_dr7 : Z;          (* [dr_shadow[4]], [dr_shadow[5]] *)
}.
Definition set_i_vmcs v s := mk_vmi v (i_msr_bm s) (i_cr0_dft_mask s) (i_cr4_dft_mask s) (i_cfg s) (i_idt_limit_rmode s) (i_dr6 s) (i_dr7 s).
Definition set_i_msr_bm v s := mk_vmi (i_vmcs s) v (i_cr0_dft_mask s) (i_cr4_dft_mask s) (i_cfg s) (i_idt_limit_rmode s) (i_dr6 s) (i_dr7 s).
Definition set_i_masks v w s := mk_vmi (i_vmcs s) (i_msr_bm s) v w (i_cfg s) (i_idt_limit_rmode s) (i_dr6 s) (i_dr7 s).
Definition set_i_cfg v s := mk_vmi (i_vmcs s) (i_msr_bm s) (i_cr0_dft_mask s) (i_cr4_dft_mask s) v (i_idt_limit_rmode s) (i_dr6 s) (i_dr7 s).
Definition set_i_cpu idt d6 d7 s := mk_vmi (i_vmcs s) (i_msr_bm s) (i_cr0_dft_mask s) (i_cr4_dft_mask s) (i_cfg s) idt d6 d7.

Definition on_fields {A} (m : M vmcs A) : M vmi A := zoom i_vmcs set_i_vmcs m.
Definition vset (f : field) (v : Z) : M vmi unit := on_fields (modify (set_val f v)).
Definition vset_fld (f : field) (lo w v : Z) : M vmi unit :=
  on_fields (modify (fun s => set_val f (set_bits (val s f) lo w v) s)).

Section host.
Variable h : host.

Definition gdt_krn_seg_sel (idx : Z) : Z := Z.shiftl idx 3.

Definition vmx_vmcs_host_state_init : M vmi unit :=
  vset host_cr0 (h_cr0 h) ;; vset host_cr3 (h_cr3 h) ;; vset host_cr4 (h_cr4 h) ;;
  vset host_ia32_sysenter_cs (bits (rdmsr IA32_SYSENTER_CS_MSR) 0 32) ;;
  vset host_ia32_sysenter_esp (rdmsr IA32_SYSENTER_ESP_MSR) ;;
  vset host_ia32_sysenter_eip (rdmsr IA32_SYSENTER_EIP_MSR) ;;
  vset host_ia32_perf (rdmsr IA32_PERF_GLB_CTL_MSR) ;;
  vset host_ia32_pat (rdmsr IA32_PAT_MSR) ;;
  vset host_ia32_efer (rdmsr IA32_EFER_MSR) ;;
  vset host_rsp (h_stack_bottom h) ;; vset host_rip (h_entry h) ;;
  vset host_cs (gdt_krn_seg_sel 1) ;;
  for_each [host_ss; host_ds; host_es; host_fs; host_gs] (fun f => vset f (gdt_krn_seg_sel 2)) ;;
  vset host_tr (gdt_krn_seg_sel 3) ;;
  vset host_gdtr_base (h_gdt h) ;; vset host_idtr_base (h_idt h).

Definition vmx_vmcs_entry_controls_init : M vmi unit :=
  vset_fld entry_entry 13 1 1 ;; vset_fld entry_entry 14 1 1 ;; vset_fld entry_entry 15 1 1 ;; vset_fld entry_entry 2 1 1 ;;
  vset entry_msr_load_addr (msr_entry_load (h_vmc h)).

Definition vmx_vmcs_exit_controls_init : M vmi unit :=
  vset_fld exit_exit 15 1 1 ;; vset_fld exit_exit 9 1 1 ;;
  vset_fld exit_exit 12 1 1 ;; vset_fld exit_exit 19 1 1 ;; vset_fld exit_exit 21 1 1 ;;
  vset_fld exit_exit 18 1 1 ;; vset_fld exit_exit 20 1 1 ;; vset_fld exit_exit 2 1 1 ;;
  vset exit_msr_store_addr (msr_exit_store (h_vmc h)) ;; vset exit_msr_load_addr (msr_exit_load (h_vmc h)).

Definition deny_msr (msr : Z) : M vmi unit := fun s =>
  match vmx_deny_msr_rw msr (i_msr_bm s) with
  | Some bm => Some (tt, set_i_msr_bm bm s)
  | None => None
  end.
Definition vmx_vmcs_exec_controls_msr_init : M vmi unit :=
  when (negb cfg_msr_proxy) (deny_msr IA32_MTRR_DEF_TYPE ;; deny_msr IA32_EFER_MSR ;; vset_fld exec_proc 28 1 1) ;;
  vset exec_msr_bitmap (msr_bitmap (h_vmc h)).

Definition vmx_vmcs_exec_controls_io_init : M vmi unit :=
  vset_fld exec_proc 25 1 1 ;;
  vset exec_io_bitmap_a (io_bitmap_a (h_vmc h)) ;; vset exec_io_bitmap_b (io_bitmap_b (h_vmc h)).

Definition VMX_EPT_MEM_TYPE_WB : Z := 6.

Definition vmx_vmcs_exec_controls_init (dflt_excp : Z) : M vmi unit :=
  vset_fld exec_proc 3 1 1 ;; vset_fld exec_proc 15 1 1 ;; vset_fld exec_proc 10 1 0 ;; vset_fld exec_proc 29 1 0 ;;
  vset_fld exec_proc 31 1 1 ;;
  vset_fld exec_proc2 7 1 1 ;; vset_fld exec_proc2 2 1 1 ;; vset_fld exec_proc2 3 1 1 ;; vset_fld exec_proc2 1 1 1 ;;
  vset_fld exec_eptp 0 3 VMX_EPT_MEM_TYPE_WB ;; vset_fld exec_eptp 3 3 3 ;;
  vset_fld exec_eptp 12 40 (Z.shiftr (h_npg_pml4 h) 12) ;;
  when cfg_vpid (vset_fld exec_proc2 5 1 1 ;; vset exec_vpid (h_npg_asid h)) ;;
  vset exec_excp_bitmap dflt_excp ;; vset exec_pagefault_err_code_mask 0 ;; vset exec_pagefault_err_code_match 0 ;;
  m ← gets i_cr0_dft_mask; w ← gets i_cr4_dft_mask;
  let m := set_bits (set_bits (set_bits m 0 1 1) 30 1 1) 31 1 1 in
  let w := set_bits (set_bits (set_bits (set_bits (set_bits w 6 1 1) 5 1 1) 4 1 1) 7 1 1) 13 1 1 in
  modify (set_i_masks m w) ;; vset exec_cr0_mask m ;; vset exec_cr4_mask w ;;
  vmx_vmcs_exec_controls_io_init ;; vmx_vmcs_exec_controls_msr_init.

Definition vmx_vmcs_controls_init (dflt_excp : Z) : M vmi unit :=
  vmx_vmcs_exec_controls_init dflt_excp ;; vmx_vmcs_exit_controls_init ;; vmx_vmcs_entry_controls_init.

(** The first state of the vm: real mode, at the entry point. *)
Definition RM_STACK_BOTTOM : Z := Z.land 0x9fc00 0xffff0000 - 2.
Definition RM_BASE_SS : Z := Z.shiftr (Z.land RM_STACK_BOTTOM 0xffff0000) 4.
Definition RM_BASE_SP : Z := Z.land RM_STACK_BOTTOM 0xffff.
Definition VM_ENTRY_POINT : Z := Z.land 0x600 0xffff.
Definition VMX_CODE_16_R0_CO : Z := 0x809f.
Definition VMX_DATA_16_R0_ATTR : Z := 0x8093.
Definition VMX_DATA_16_R3_ATTR : Z := 0x80f3.
Definition VMX_TSS_32_ATTR : Z := 0x8b.

Definition vmx_vmcs_guest_register_state_init : M vmi unit :=
  c ← gets i_cfg;
  modify (set_i_cfg (mk_vmcs_cfg (vmx_fx_entry c) (vmx_fx_exit c) (vmx_fx_pin c) (vmx_fx_proc c) (vmx_fx_proc2 c)
    (vmx_fx_cr0 c) (mk_fixed (Z.lor (allow_0 (vmx_fx_cr4 c)) CR4_MCE) (Z.lor (allow_1 (vmx_fx_cr4 c)) CR4_MCE))
    (feat_exec_ptr c) (feat_smbase c))) ;;
  vset st_ia32_dbgctl (rdmsr IA32_DBG_CTL_MSR) ;; vset st_ia32_pat (rdmsr IA32_PAT_MSR) ;;
  vset_fld st_rflags 1 1 1 ;; vset_fld st_rflags 9 1 1 ;;
  vset_fld st_rsp 0 32 RM_BASE_SP ;; vset_fld st_rip 0 32 VM_ENTRY_POINT.

Definition vmx_vmcs_guest_register_state_segments_init : M vmi unit :=
  l ← gets i_idt_limit_rmode;
  vset_fld st_idtr_limit 0 16 l ;;
  vset st_ss_selector (wrap16 RM_BASE_SS) ;; vset_fld st_ss_base 0 32 (Z.shiftl (wrap16 RM_BASE_SS) 4) ;;
  for_each [st_cs_limit; st_ss_limit; st_ds_limit; st_es_limit; st_fs_limit; st_gs_limit] (fun f => vset f 0xffff) ;;
  vset st_cs_attributes VMX_CODE_16_R0_CO ;; vset st_ss_attributes VMX_DATA_16_R0_ATTR ;;
  for_each [st_ds_attributes; st_es_attributes; st_fs_attributes; st_gs_attributes] (fun f => vset f VMX_DATA_16_R3_ATTR) ;;
  vset st_tr_attributes VMX_TSS_32_ATTR ;; vset_fld st_ldtr_attributes 16 1 1.

Definition vmx_vmcs_guest_nonregister_state_init : M vmi unit :=
  vset st_activity 0 ;; vset st_vmcs_link_ptr (2 ^ 64 - 1).

Definition vmx_vmcs_guest_state_init : M vmi unit :=
  vmx_vmcs_guest_register_state_init ;; vmx_vmcs_guest_register_state_segments_init ;;
  vmx_vmcs_guest_nonregister_state_init.

Definition vmx_vmcs_init (dflt_excp : Z) : M vmi unit :=
  vmx_vmcs_controls_init dflt_excp ;; vmx_vmcs_host_state_init ;; vmx_vmcs_guest_state_init.

(** ** Commit (setup/src/vmx/vmx_vmcs_acc.c, vmx_vmcs_enc.c)

    [supported] is the encodings the processor implements. *)

Variable supported : Z -> bool.

Definition flush (f : field) : M vmi unit := on_fields (vmcs_force_flush supported f).
Definition flush_fixed (f : field) (fx : vmcs_cfg -> fixed) : M vmi unit :=
  c ← gets i_cfg;
  on_fields (modify (fun s => set_val f (vmx_set_fixed (val s f) (fx c)) s)) ;; flush f.
Definition flush_fixed_low (f : field) (fx : vmcs_cfg -> fixed) : M vmi unit :=
  c ← gets i_cfg;
  on_fields (modify (fun s => set_val f (set_bits (val s f) 0 32 (vmx_set_fixed (bits (val s f) 0 32) (fx c))) s)).
Definition flush_if (f : field) (n : Z) (g : field) : M vmi unit :=
  v ← gets (fun s => val (i_vmcs s) f); when (bit v n) (flush g).

Definition vmx_vmcs_encode : M vmi unit := on_fields (modify (fun s => mk_vmcs (val s) encode (hw s))).

Definition vmcs_commit : M vmi unit :=
  c ← gets i_cfg;
  for_each [exec_vpid; st_es_selector; st_cs_selector; st_ss_selector; st_ds_selector; st_fs_selector; st_gs_selector;
    st_ldtr_selector; st_tr_selector; host_es; host_cs; host_ss; host_ds; host_fs; host_gs; host_tr;
    exec_io_bitmap_a; exec_io_bitmap_b; exec_msr_bitmap; exit_msr_store_addr; exit_msr_load_addr; entry_msr_load_addr] flush ;;
  when (feat_exec_ptr c) (flush exec_executive_vmcs_ptr) ;; flush exec_tsc_offset ;;
  when (bit (allow_1 (vmx_fx_proc c)) 21) (flush exec_vapic_addr) ;;
  when (bit (allow_1 (vmx_fx_proc2 c)) 0) (flush exec_apic_addr) ;;
  for_each [exec_eptp; st_vmcs_link_ptr; st_ia32_dbgctl] flush ;;
  flush_fixed entry_entry vmx_fx_entry ;;
  flush_if entry_entry 14 st_ia32_pat ;; flush_if entry_entry 15 st_ia32_efer ;; flush_if entry_entry 13 st_ia32_perf ;;
  for_each [st_pdpe_0; st_pdpe_1; st_pdpe_2; st_pdpe_3] flush ;;
  flush_fixed exit_exit vmx_fx_exit ;;
  flush_if exit_exit 19 host_ia32_pat ;; flush_if exit_exit 21 host_ia32_efer ;; flush_if exit_exit 12 host_ia32_perf ;;
  flush_fixed exec_pin vmx_fx_pin ;; flush_fixed exec_proc vmx_fx_proc ;;
  for_each [exec_excp_bitmap; exec_pagefault_err_code_mask; exec_pagefault_err_code_match; exec_cr3_target_count;
    exit_msr_store_count; exit_msr_load_count; entry_msr_load_count; entry_int_info; entry_err_code; entry_insn_len;
    exec_tpr_threshold] flush ;;
  flush_fixed exec_proc2 vmx_fx_proc2 ;;
  for_each [st_es_limit; st_cs_limit; st_ss_limit; st_ds_limit; st_fs_limit; st_gs_limit; st_ldtr_limit; st_tr_limit;
    st_gdtr_limit; st_idtr_limit; st_es_attributes; st_cs_attributes; st_ss_attributes; st_ds_attributes; st_fs_attributes;
    st_gs_attributes; st_ldtr_attributes; st_tr_attributes; st_interrupt; st_activity] flush ;;
  when (feat_smbase c) (flush st_smbase) ;; flush st_ia32_sysenter_cs ;;
  when (bit (allow_1 (vmx_fx_pin c)) 6) (flush st_preempt_timer) ;;
  for_each [host_ia32_sysenter_cs; exec_cr0_mask; exec_cr4_mask; exec_cr0_read_shadow; exec_cr4_read_shadow;
    exec_cr3_target_0; exec_cr3_target_1; exec_cr3_target_2; exec_cr3_target_3] flush ;;
  flush_fixed_low st_cr0 vmx_fx_cr0 ;; for_each [st_cr0; st_cr3] flush ;;
  flush_fixed_low st_cr4 vmx_fx_cr4 ;;
  for_each [st_cr4; st_es_base; st_cs_base; st_ss_base; st_ds_base; st_fs_base; st_gs_base; st_tr_base; st_ldtr_base;
    st_gdtr_base; st_idtr_base; st_dr7; st_rsp; st_rip; st_rflags; st_dbg_excp; st_ia32_sysenter_esp; st_ia32_sysenter_eip;
    host_cr0; host_cr3; host_cr4; host_fs_base; host_gs_base; host_tr_base; host_gdtr_base; host_idtr_base;
    host_ia32_sysenter_esp; host_ia32_sysenter_eip; host_rsp; host_rip] flush.

(** ** The vm (vmx_vm.c): [vmclear] and [vmptrld] are the answers of the
    processor. *)

Definition vmx_vm_init (vmclear vmptrld : bool) : M vmi unit :=
  modify (set_i_cpu (0x15 * 4 - 1) 0xffff0ff0 0x400) ;;
  if negb vmclear then fail
  else if negb vmptrld then fail
  else vmx_vmcs_init VM_RMODE_EXCP_BITMAP ;; vmx_vmcs_encode ;; vmcs_commit.
End host.
End init.

(** The information data starts cleared. *)
Definition vmi_zero (hw : field -> Z) (c : vmcs_cfg) : vmi :=
  mk_vmi (mk_vmcs (fun _ => 0) (fun _ => 0) hw) (replicate 4096 0) 0 0 c 0 0 0.
