(* ===== verification/VmxSetup.v ===== *)
(** * The state the vm is first entered in

    The bitmaps hold exactly what was denied, the commit of the set-up writes
    every field, and the inspection of [Invg] finds nothing to say about the
    state the processor gets. *)

From S2P Require Import Prelude.
From S2P Require Import Monad.
From S2P Require Import Pagemem.
From S2P Require Import Vm.
From S2P Require Import Vmcs.
From S2P Require Import Machine.
From S2P Require Import Cpu.
From S2P Require Import CpuRegs.
From S2P Require Import Invg.
From S2P Require Import VmxInit.
From stdpp Require Import strings.

#[local] Open Scope Z_scope.

(** ** Bitmaps *)

Ltac dlia := Z.to_euclidean_division_equations; lia.

Definition bm_bit (base x : Z) (bm : bytes) : bool := bit (nth (Z.to_nat (base + x / 8)) bm 0) (x mod 8).

Lemma nth_insert (l : bytes) i j v : (i < length l)%nat -> nth j (<[i := v]> l) 0 = if decide (i = j) then v else nth j l 0.
Proof.
  intros Hi. rewrite !nth_lookup. destruct (decide (i = j)) as [<-|Hn]; [by rewrite list_lookup_insert_eq|].
  by rewrite list_lookup_insert_ne.
Qed.

Lemma bitmap_spec deny base x bm : 0 <= base -> 0 <= x -> base + x / 8 < Z.of_nat (length bm) ->
  forall base' x', 0 <= base' -> 0 <= x' ->
  bm_bit base' x' (vmx_bitmap deny base x bm) =
    if decide (base + x / 8 = base' + x' / 8 /\ x mod 8 = x' mod 8) then deny else bm_bit base' x' bm.
Proof.
  intros Hb Hx Hl base' x' Hb' Hx'. unfold bm_bit, vmx_bitmap.
  pose proof (Z.div_pos x 8 Hx ltac:(lia)). pose proof (Z.div_pos x' 8 Hx' ltac:(lia)).
  pose proof (Z.mod_pos_bound x 8 ltac:(lia)). pose proof (Z.mod_pos_bound x' 8 ltac:(lia)).
  rewrite nth_insert by lia. destruct (decide (Z.to_nat _ = Z.to_nat _)) as [E|E].
  - assert (base + x / 8 = base' + x' / 8) as E' by lia. rewrite E'. unfold bit.
    assert (forall k, 0 <= k < 8 -> Z.testbit (Z.shiftl 1 (x mod 8)) k = (x mod 8 =? k)) as Hk.
    { intros k Hk. rewrite Z.shiftl_1_l. by apply Z.pow2_bits_eqb; lia. }
    destruct deny.
    + rewrite Z.lor_spec, Hk by lia. destruct (Z.eqb_spec (x mod 8) (x' mod 8)); case_decide; try tauto; by rewrite ?orb_true_r, ?orb_false_r.
    + rewrite Z.land_spec. unfold wnot. rewrite Z.lxor_spec, Hk, Z.ones_spec_low by lia.
      destruct (Z.eqb_spec (x mod 8) (x' mod 8)); case_decide; try tauto; by rewrite ?andb_true_r, ?andb_false_r.
  - rewrite decide_False; [done|]. intros [E' _]. lia.
Qed.
Lemma bitmap_length deny base x bm : length (vmx_bitmap deny base x bm) = length bm.
Proof. apply length_insert. Qed.

(** Where the processor looks an access to an msr up. *)
Definition msr_ok (msr : Z) : Prop := 0 <= msr < 0x2000 \/ 0xc0000000 <= msr < 0xc0002000.
Definition msr_exits (bm : bytes) (wr : bool) (msr : Z) : bool :=
  let base := if wr then 2048 else 0 in
  if msr <? 0x2000 then bm_bit base msr bm else bm_bit (base + 1024) (msr - 0xc0000000) bm.

(** C12: an access to the msr bitmap changes what the processor does for the
    msr and the directions it names, and for nothing else; it panics for the
    msrs that have no bit. *)
Theorem msr_bitmap_exact deny rd wr msr bm : length bm = Z.to_nat PAGE_SIZE -> 0 <= msr ->
  match vmx_access_msr deny rd wr msr bm with
  | None => ~ msr_ok msr
  | Some bm' => msr_ok msr /\ length bm' = length bm /\ forall wr' msr', msr_ok msr' ->
      msr_exits bm' wr' msr' =
        if decide (msr' = msr /\ (if wr' then wr else rd) = true) then deny else msr_exits bm wr' msr'
  end.
Proof.
  intros Hl Hmsr. unfold vmx_access_msr. change PAGE_SIZE with 4096 in Hl.
  assert (forall (b : bool) base x l, length (if b then vmx_bitmap deny base x l else l) = length l) as Hlen.
  { intros [] base x l; [apply bitmap_length|done]. }
  destruct (Z.ltb_spec msr 0x2000) as [Hlow|Hlow].
  - split; [by left|]. split; [by rewrite !Hlen|]. intros wr' msr' Hm'. unfold msr_exits.
    destruct rd, wr, wr', (Z.ltb_spec msr' 0x2000); destruct Hm';
      rewrite ?bitmap_spec by (rewrite ?bitmap_length; try lia; dlia);
      repeat case_decide; try done; exfalso; dlia.
  - destruct (Z.leb_spec 0xc0000000 msr) as [H1|H1]; cbn [andb]; [|unfold msr_ok; lia].
    destruct (Z.leb_spec msr (0xc0002000 - 1)) as [H2|H2]; [|unfold msr_ok; lia].
    split; [right; lia|]. split; [by rewrite !Hlen|]. intros wr' msr' Hm'. unfold msr_exits.
    destruct rd, wr, wr', (Z.ltb_spec msr' 0x2000); destruct Hm';
      rewrite ?bitmap_spec by (rewrite ?bitmap_length; try lia; dlia);
      repeat case_decide; try done; exfalso; dlia.
Qed.

(** The io bitmaps are the set of ports of [Machine]. *)
Definition io_exits (ab : bytes * bytes) (p : Z) : bool :=
  if p <? 0x8000 then bm_bit 0 p ab.1 else bm_bit 0 (p - 0x8000) ab.2.
Lemma io_bitmaps_exact deny io ab : length ab.1 = Z.to_nat PAGE_SIZE -> length ab.2 = Z.to_nat PAGE_SIZE -> 0 <= io < 0x10000 ->
  forall p, 0 <= p < 0x10000 -> io_exits (vmx_io_bitmaps deny io ab) p = if decide (p = io) then deny else io_exits ab p.
Proof.
  destruct ab as [a b]. cbn [fst snd]. change PAGE_SIZE with 4096. intros Ha Hb Hio p Hp. unfold io_exits, vmx_io_bitmaps.
  destruct (Z.ltb_spec io 0x8000), (Z.ltb_spec p 0x8000); cbn [fst snd];
    rewrite ?bitmap_spec by dlia; repeat case_decide; try done; exfalso; dlia.
Qed.

(** ** Commit *)

Lemma set_fixed_bit v fx n : 0 <= n -> bit (vmx_set_fixed v fx) n = bit v n && bit (allow_1 fx) n || bit (allow_0 fx) n.
Proof. intros Hn. unfold vmx_set_fixed, bit. by rewrite Z.lor_spec, Z.land_spec. Qed.
Lemma set_fixed_idem v fx : vmx_set_fixed (vmx_set_fixed v fx) fx = vmx_set_fixed v fx.
Proof.
  apply Z.bits_inj'. intros n Hn. change (bit (vmx_set_fixed (vmx_set_fixed v fx) fx) n = bit (vmx_set_fixed v fx) n).
  rewrite !set_fixed_bit by done. by destruct (bit v n), (bit (allow_1 fx) n), (bit (allow_0 fx) n).
Qed.

(** The fields that are fixed, and the ones that are always written. *)
Definition low_fields : list field := [st_cr0; st_cr4].
Definition fix_of (c : vmcs_cfg) (f : field) : option fixed :=
  if decide (f = entry_entry) then Some (vmx_fx_entry c) else
  if decide (f = exit_exit) then Some (vmx_fx_exit c) else
  if decide (f = exec_pin) then Some (vmx_fx_pin c) else
  if decide (f = exec_proc) then Some (vmx_fx_proc c) else
  if decide (f = exec_proc2) then Some (vmx_fx_proc2 c) else
  if decide (f = st_cr0) then Some (vmx_fx_cr0 c) else
  if decide (f = st_cr4) then Some (vmx_fx_cr4 c) else None.
(** The value the commit gives to a field that holds [v]. *)
Definition final (c : vmcs_cfg) (v : field -> Z) (f : field) : Z :=
  match fix_of c f with
  | Some fx => if decide (f ∈ low_fields) then set_bits (v f) 0 32 (vmx_set_fixed (bits (v f) 0 32) fx)
               else vmx_set_fixed (v f) fx
  | None => v f
  end.

Section commit.
Context (supported : Z -> bool) (c : vmcs_cfg) (v : field -> Z).
Context (needed : field -> Prop).
Hypothesis implements : forall f, needed f -> supported (encode f) = true.

(** Inside the commit: [fx] are fixed already, [D] are written. *)
Record inv (fx : list field) (D : field -> Prop) (s : vmi) : Prop := {
  in_cfg : i_cfg s = c;
  in_enc : enc (i_vmcs s) = encode;
  in_val : forall f, val (i_vmcs s) f = if decide (f ∈ fx) then final c v f else v f;
  in_hw : forall f, D f -> hw (i_vmcs s) f = wrap (width f) (final c v f);
}.
Definition real (f : field) : Prop := f <> CR2 /\ f <> DR6 /\ enc_fake (encode f) = false.

Lemma inv_mono fx (D D' : field -> Prop) s : inv fx D s -> (forall f, D' f -> D f) -> inv fx D' s.
Proof. intros [] HD. constructor; auto. Qed.

Lemma wp_flush fx D f s (Q : unit -> vmi -> Prop) : inv fx D s -> real f -> needed f -> (f ∈ fx \/ fix_of c f = None) ->
  (forall s', inv fx (fun g => g = f \/ D g) s' -> Q tt s') -> wp (flush supported f) s Q.
Proof.
  intros [] (Hf1 & Hf2 & Hf3) Hneed Hfix HQ. unfold flush, on_fields. apply wp_zoom. unfold vmcs_force_flush.
  wp_steps. rewrite in_enc0, Hf3. cbn [negb]. unfold vmx_vmwrite. unfold wp. rewrite implements by done. apply HQ.
  constructor; [done|done|done|]. intros g Hg. destruct f as [e| |]; [|done|done]. cbn [i_vmcs set_i_vmcs hw set_hw encode].
  unfold upd. destruct (decide (Fld e = g)) as [<-|Hn].
  - rewrite in_val0. cbn [width]. case_decide; [done|]. destruct Hfix as [|Hfix]; [done|]. unfold final. by rewrite Hfix.
  - destruct Hg as [->|Hg]; [done|]. by apply in_hw0.
Qed.
Lemma wp_flushes fx l : forall D s (Q : unit -> vmi -> Prop), inv fx D s ->
  Forall (fun f => real f /\ needed f /\ (f ∈ fx \/ fix_of c f = None)) l ->
  (forall s', inv fx (fun g => g ∈ l \/ D g) s' -> Q tt s') -> wp (for_each l (flush supported)) s Q.
Proof.
  induction l as [|f l IH]; intros D s Q Hs Hl HQ; cbn [for_each].
  - apply wp_ret, HQ. eapply inv_mono; [exact Hs|]. intros g [Hg|Hg]; [by apply elem_of_nil in Hg|done].
  - apply Forall_cons in Hl as [(Hr & Hn & Hx) Hl]. apply wp_bind. eapply wp_flush; [exact Hs|done|done|done|]. intros s1 Hs1.
    eapply IH; [exact Hs1|done|]. intros s2 Hs2. apply HQ. eapply inv_mono; [exact Hs2|].
    intros g [Hg|Hg]; [|by right; right]. apply elem_of_cons in Hg as [->|Hg]; [by right; left|by left].
Qed.
Lemma wp_flush_when fx D b f s (Q : unit -> vmi -> Prop) : inv fx D s -> real f -> (b = true -> needed f) -> fix_of c f = None ->
  (forall s', inv fx (fun g => (b = true /\ g = f) \/ D g) s' -> Q tt s') -> wp (when b (flush supported f)) s Q.
Proof.
  intros Hs Hr Hn Hx HQ. apply wp_when. destruct b.
  - eapply wp_flush; [exact Hs|done|by apply Hn|by right|]. intros s' Hs'. apply HQ. eapply inv_mono; [exact Hs'|].
    intros g [[_ ->]|Hg]; [by left|by right].
  - apply HQ. eapply inv_mono; [exact Hs|]. intros g [[]|]; [done|done].
Qed.

Lemma inv_fix fx D f s w : inv fx D s -> w = final c v f ->
  inv (f :: fx) D (set_i_vmcs (set_val f w (i_vmcs s)) s).
Proof.
  intros [] ->. constructor; [done|done| |done]. intros g. cbn [i_vmcs set_i_vmcs val set_val]. unfold upd.
  destruct (decide (f = g)) as [<-|Hn]; [by rewrite decide_True by (by left)|]. rewrite in_val0.
  destruct (decide (g ∈ fx)) as [Hg|Hg]; [by rewrite decide_True by (by right)|].
  rewrite decide_False; [done|]. intros [E|E]%elem_of_cons; [by apply Hn|done].
Qed.
Lemma wp_flush_fixed fx D f g s (Q : unit -> vmi -> Prop) : inv fx D s -> real f -> needed f -> f ∉ fx -> f ∉ low_fields ->
  fix_of c f = Some (g c) -> (forall s', inv (f :: fx) (fun h => h = f \/ D h) s' -> Q tt s') ->
  wp (flush_fixed supported f g) s Q.
Proof.
  intros Hs Hr Hn Hfx Hlow Hfix HQ. unfold flush_fixed. wp_steps. unfold on_fields at 1. apply wp_zoom, wp_modify.
  eapply (wp_flush (f :: fx) D); [|done|done|left; left|exact HQ]. apply inv_fix; [done|].
  unfold final. rewrite Hfix, decide_False by done. rewrite (in_cfg _ _ _ Hs), (in_val _ _ _ Hs). by rewrite decide_False by done.
Qed.
Lemma wp_flush_fixed_low fx D f g s (Q : unit -> vmi -> Prop) : inv fx D s -> f ∉ fx -> f ∈ low_fields ->
  fix_of c f = Some (g c) -> (forall s', inv (f :: fx) D s' -> Q tt s') -> wp (flush_fixed_low f g) s Q.
Proof.
  intros Hs Hfx Hlow Hfix HQ. unfold flush_fixed_low. wp_steps. unfold on_fields. apply wp_zoom, wp_modify. apply HQ.
  apply inv_fix; [done|]. unfold final. rewrite Hfix, decide_True by done.
  rewrite (in_cfg _ _ _ Hs), (in_val _ _ _ Hs). by rewrite decide_False by done.
Qed.
Lemma wp_flush_if fx D f n g s (Q : unit -> vmi -> Prop) : inv fx D s -> f ∈ fx -> real g ->
  (bit (final c v f) n = true -> needed g) -> fix_of c g = None ->
  (forall s', inv fx (fun h => (bit (final c v f) n = true /\ h = g) \/ D h) s' -> Q tt s') -> wp (flush_if supported f n g) s Q.
Proof.
  intros Hs Hf Hr Hn Hx HQ. unfold flush_if. wp_steps. rewrite (in_val _ _ _ Hs), decide_True by done.
  eapply wp_when, wp_flush_when; done.
Qed.
End commit.

(** The fields the commit of the set-up always writes, and the others. *)
Definition boot_fields : list field :=
  [exec_vpid; st_es_selector; st_cs_selector; st_ss_selector; st_ds_selector; st_fs_selector; st_gs_selector;
   st_ldtr_selector; st_tr_selector; host_es; host_cs; host_ss; host_ds; host_fs; host_gs; host_tr;
   exec_io_bitmap_a; exec_io_bitmap_b; exec_msr_bitmap; exit_msr_store_addr; exit_msr_load_addr; entry_msr_load_addr;
   exec_tsc_offset; exec_eptp; st_vmcs_link_ptr; st_ia32_dbgctl; entry_entry; st_pdpe_0; st_pdpe_1; st_pdpe_2; st_pdpe_3;
   exit_exit; exec_pin; exec_proc; exec_excp_bitmap; exec_pagefault_err_code_mask; exec_pagefault_err_code_match;
   exec_cr3_target_count; exit_msr_store_count; exit_msr_load_count; entry_msr_load_count; entry_int_info; entry_err_code;
   entry_insn_len; exec_tpr_threshold; exec_proc2; st_es_limit; st_cs_limit; st_ss_limit; st_ds_limit; st_fs_limit;
   st_gs_limit; st_ldtr_limit; st_tr_limit; st_gdtr_limit; st_idtr_limit; st_es_attributes; st_cs_attributes;
   st_ss_attributes; st_ds_attributes; st_fs_attributes; st_gs_attributes; st_ldtr_attributes; st_tr_attributes;
   st_interrupt; st_activity; st_ia32_sysenter_cs; host_ia32_sysenter_cs; exec_cr0_mask; exec_cr4_mask;
   exec_cr0_read_shadow; exec_cr4_read_shadow; exec_cr3_target_0; exec_cr3_target_1; exec_cr3_target_2; exec_cr3_target_3;
   st_cr0; st_cr3; st_cr4; st_es_base; st_cs_base; st_ss_base; st_ds_base; st_fs_base; st_gs_base; st_tr_base;
   st_ldtr_base; st_gdtr_base; st_idtr_base; st_dr7; st_rsp; st_rip; st_rflags; st_dbg_excp; st_ia32_sysenter_esp;
   st_ia32_sysenter_eip; host_cr0; host_cr3; host_cr4; host_fs_base; host_gs_base; host_tr_base; host_gdtr_base;
   host_idtr_base; host_ia32_sysenter_esp; host_ia32_sysenter_eip; host_rsp; host_rip].
Definition boot_conds (c : vmcs_cfg) (v : field -> Z) : list (bool * field) :=
  [(feat_exec_ptr c, exec_executive_vmcs_ptr); (bit (allow_1 (vmx_fx_proc c)) 21, exec_vapic_addr);
   (bit (allow_1 (vmx_fx_proc2 c)) 0, exec_apic_addr); (feat_smbase c, st_smbase);
   (bit (allow_1 (vmx_fx_pin c)) 6, st_preempt_timer);
   (bit (final c v entry_entry) 14, st_ia32_pat); (bit (final c v entry_entry) 15, st_ia32_efer);
   (bit (final c v entry_entry) 13, st_ia32_perf);
   (bit (final c v exit_exit) 19, host_ia32_pat); (bit (final c v exit_exit) 21, host_ia32_efer);
   (bit (final c v exit_exit) 12, host_ia32_perf)].
Definition boot_written (c : vmcs_cfg) (v : field -> Z) (f : field) : Prop :=
  f ∈ boot_fields \/ (true, f) ∈ boot_conds c v.

Lemma in_boot f : bool_decide (f ∈ boot_fields) = true -> f ∈ boot_fields.
Proof. apply bool_decide_eq_true. Qed.

Ltac head t := lazymatch t with ?f _ => head f | _ => t end.
Ltac cond := let E := fresh in intros E; right; rewrite <- E; unfold boot_conds; set_solver.
Ltac dec := apply (bool_decide_unpack _); vm_compute; exact I.
Ltac plain1 := split_and!; [by split_and!|by left; apply in_boot|first [right; reflexivity | left; dec]].
Ltac plain := repeat (apply Forall_cons; split; [plain1|]); apply Forall_nil; exact I.
Ltac commit_step :=
  lazymatch goal with
  | |- wp (gets i_cfg) _ _ => apply wp_gets
  | |- wp (_ ≫= _) _ _ => apply wp_bind
  | H : inv _ _ _ _ ?s |- wp (for_each _ _) ?s _ => eapply wp_flushes; [eassumption|exact H|plain|clear H; intros ? H]
  | H : inv _ _ _ _ ?s |- wp (when _ _) ?s _ => eapply wp_flush_when; [eassumption|exact H|by split_and!|cond|reflexivity|clear H; intros ? H]
  | H : inv _ _ _ _ ?s |- wp (flush _ _) ?s _ =>
      eapply wp_flush; [eassumption|exact H|by split_and!|by left; apply in_boot|by right|clear H; intros ? H]
  | H : inv _ _ _ _ ?s |- wp (flush_fixed _ _ _) ?s _ =>
      eapply wp_flush_fixed; [eassumption|exact H|by split_and!|by left; apply in_boot|dec|
        dec|reflexivity|clear H; intros ? H]
  | H : inv _ _ _ _ ?s |- wp (flush_fixed_low _ _) ?s _ =>
      eapply wp_flush_fixed_low; [exact H|dec|dec|reflexivity|clear H; intros ? H]
  | H : inv _ _ _ _ ?s |- wp (flush_if _ _ _ _) ?s _ =>
      eapply wp_flush_if; [eassumption|exact H|dec|by split_and!|cond|reflexivity|clear H; intros ? H]
  end; cbv beta.

(** Where a field was written. *)
Ltac find :=
  cbv beta; lazymatch goal with
  | |- ?P \/ ?Q => first [left; solve [reflexivity | dec | split; [by symmetry|reflexivity]] | right; find]
  end.

Lemma commit_runs supported c v s : (forall f, boot_written c v f -> supported (encode f) = true) ->
  inv c v [] (fun _ => False) s -> exists s', vmcs_commit supported s = Some (tt, s') /\ i_cfg s' = c /\
    forall f, boot_written c v f -> hw (i_vmcs s') f = wrap (width f) (final c v f).
Proof.
  intros Himp H.
  cut (wp (vmcs_commit supported) s (fun _ s' => i_cfg s' = c /\
    forall f, boot_written c v f -> hw (i_vmcs s') f = wrap (width f) (final c v f))).
  { intros Hw. apply wp_exists in Hw as ([] & s' & Hr & Hc & Hh). by exists s'. }
  unfold vmcs_commit. commit_step. commit_step. rewrite (in_cfg _ _ _ _ _ H).
  repeat commit_step.
  split; [exact (in_cfg _ _ _ _ _ H)|]. intros f Hf. apply (in_hw _ _ _ _ _ H). clear H. destruct Hf as [Hf|Hf].
  - revert f Hf. apply (proj1 (Forall_forall _ _)). unfold boot_fields. repeat (apply Forall_cons; split; [find|]). by apply Forall_nil.
  - unfold boot_conds in Hf. repeat (apply elem_of_cons in Hf as [E|Hf]; [injection E as Eb ->; find|]). by apply elem_of_nil in Hf.
Qed.

(** ** The first state of the vm *)

(** What the processor holds: real mode at the entry point. *)
Record first_state (i : invg_info) (g : field -> Z) : Prop := {
  fs_uguest : uguest g = true;
  fs_ia32e : ia32e g = false;
  fs_smm : entry_smm g = false;
  fs_cr0 : bits (vmx_set_fixed (bits (g st_cr0) 0 32) (iv_cr0 i)) 0 32 = bits (g st_cr0) 0 32;
  fs_cr4 : bits (vmx_set_fixed (bits (g st_cr4) 0 32) (iv_cr4 i)) 0 32 = bits (g st_cr4) 0 32;
  fs_pcide : bit (bits (g st_cr4) 0 32) 17 = false;
  fs_dbgctl : bits (g st_ia32_dbgctl) 2 4 = 0 /\ bits (g st_ia32_dbgctl) 13 1 = 0 /\ bits (g st_ia32_dbgctl) 15 49 = 0;
  fs_perf : bit (g entry_entry) 13 = true -> g st_ia32_perf = 0;
  fs_pat : bit (g entry_entry) 14 = true -> forall n, 0 <= n < 8 -> pat_bad g n = false;
  fs_efer : bit (g entry_entry) 15 = true -> g st_ia32_efer = 0;
  fs_zero : Forall (fun f => g f = 0)
    [st_dr7; st_cr3; exec_cr0_read_shadow; exec_cr4_read_shadow; st_ia32_sysenter_esp; st_ia32_sysenter_eip; st_tr_selector;
     st_cs_base; st_ds_base; st_es_base; st_tr_limit; st_gdtr_limit; entry_int_info; st_activity;
     st_interrupt; st_dbg_excp];
  fs_ss_base : g st_ss_base = 0x80000;
  fs_code : g st_cs_attributes = VMX_CODE_16_R0_CO;
  fs_stack : g st_ss_attributes = VMX_DATA_16_R0_ATTR;
  fs_data : Forall (fun f => g f = VMX_DATA_16_R3_ATTR) [st_ds_attributes; st_es_attributes; st_fs_attributes; st_gs_attributes];
  fs_limits : Forall (fun f => g f = 0xffff) [st_cs_limit; st_ss_limit; st_ds_limit; st_es_limit; st_fs_limit; st_gs_limit];
  fs_task : g st_tr_attributes = VMX_TSS_32_ATTR;
  fs_ldtr : g st_ldtr_attributes = 0x10000;
  fs_idtr : g st_idtr_limit = 0x53;
  fs_rip : g st_rip = VM_ENTRY_POINT;
  fs_rflags : g st_rflags = 0x202;
  fs_link : g st_vmcs_link_ptr = 2 ^ 64 - 1;
}.

Lemma canonical_off i g a : g exec_cr0_read_shadow = 0 -> canonical_linear i g a = true.
Proof. intros E. unfold canonical_linear, iv_paged. by rewrite E. Qed.

Section checks.
Variables (i : invg_info) (g : field -> Z).
Hypothesis H : first_state i g.

Lemma zero_of f : f ∈ [st_dr7; st_cr3; exec_cr0_read_shadow; exec_cr4_read_shadow; st_ia32_sysenter_esp; st_ia32_sysenter_eip; st_tr_selector;
     st_cs_base; st_ds_base; st_es_base; st_tr_limit; st_gdtr_limit; entry_int_info; st_activity;
     st_interrupt; st_dbg_excp] -> g f = 0.
Proof. intros Hf. pose proof (fs_zero _ _ H) as Hz. rewrite Forall_forall in Hz. by apply Hz. Qed.

Lemma cr_ok : vmx_invg_cr_dr_msr i g = [].
Proof.
  unfold vmx_invg_cr_dr_msr. cbv zeta. rewrite (fs_cr0 _ _ H), (fs_cr4 _ _ H), !Z.eqb_refl, (fs_uguest _ _ H), (fs_ia32e _ _ H), (fs_pcide _ _ H).
  destruct (fs_dbgctl _ _ H) as (-> & -> & ->). rewrite !canonical_off by (by apply zero_of; dec).
  rewrite !(zero_of st_dr7), !(zero_of st_cr3) by dec.
  destruct (bit (g entry_entry) 13) eqn:E13; [rewrite (fs_perf _ _ H E13)|];
  (destruct (bit (g entry_entry) 14) eqn:E14; [rewrite !(fs_pat _ _ H E14) by lia|]);
  (destruct (bit (g entry_entry) 15) eqn:E15; [rewrite (fs_efer _ _ H E15)|]);
  destruct (bit (g entry_entry) 2); reflexivity.
Qed.

Lemma limit_of f : f ∈ [st_cs_limit; st_ss_limit; st_ds_limit; st_es_limit; st_fs_limit; st_gs_limit] -> g f = 0xffff.
Proof. intros Hf. pose proof (fs_limits _ _ H) as Hl. rewrite Forall_forall in Hl. by apply Hl. Qed.
Lemma data_of f : f ∈ [st_ds_attributes; st_es_attributes; st_fs_attributes; st_gs_attributes] -> g f = VMX_DATA_16_R3_ATTR.
Proof. intros Hf. pose proof (fs_data _ _ H) as Hl. rewrite Forall_forall in Hl. by apply Hl. Qed.

Ltac vals := cbn [sg_attr sg_limit sg_name sg_base sg_sel ds es fs gs cs ss ldtr tr];
  repeat match goal with |- context [g ?f] =>
    first [rewrite !(zero_of f) by dec | rewrite !(limit_of f) by dec | rewrite !(data_of f) by dec] end.

Lemma data_ok s : s = ds \/ s = es \/ s = fs \/ s = gs -> vmx_check_seg_type g s true = [].
Proof.
  intros Hs. unfold vmx_check_seg_type, seg_rsv, vmx_check_seg_limit.
  destruct Hs as [-> |[-> |[-> | ->]]]; vals; reflexivity.
Qed.
Lemma segments_ok : vmx_invg_segments i g = [].
Proof.
  unfold vmx_invg_segments, vmx_invg_segments_v86, vmx_invg_segments_code, vmx_invg_segments_sys, usable, base_high, v86.
  rewrite !(fs_uguest _ _ H), (fs_ia32e _ _ H), !canonical_off by (by apply zero_of; dec).
  rewrite !data_ok by tauto. unfold vmx_check_seg_limit, seg_rsv.
  vals. rewrite (fs_rflags _ _ H), !(fs_code _ _ H), !(fs_stack _ _ H), !(fs_task _ _ H), !(fs_ldtr _ _ H).
  rewrite !(fs_ss_base _ _ H). vals.
  destruct (bit (g st_cr0) CR0_PE_BIT); reflexivity.
Qed.

Lemma dtr_ok : vmx_invg_dtr i g = [].
Proof.
  unfold vmx_invg_dtr. rewrite !canonical_off by (by apply zero_of; dec). rewrite (fs_idtr _ _ H). vals.
  reflexivity.
Qed.
Lemma loc_ok : vmx_invg_loc i g = [].
Proof.
  unfold vmx_invg_loc, v86, rf_if, inject_v. rewrite (fs_ia32e _ _ H), (fs_rip _ _ H), !(fs_rflags _ _ H). vals.
  reflexivity.
Qed.
Lemma nonreg_ok : vmx_invg_nonreg i g = [].
Proof.
  unfold vmx_invg_nonreg, vmx_invg_activity, vmx_invg_interruptibility, vmx_invg_link, sti, mss, smi, inject_v.
  rewrite (fs_smm _ _ H), !(fs_link _ _ H). vals.
  reflexivity.
Qed.
Lemma pdpte_ok : vmx_invg_pdpte i g = [].
Proof. unfold vmx_invg_pdpte, iv_paged. by rewrite (zero_of exec_cr0_read_shadow) by dec. Qed.

Lemma first_state_valid : vmx_invg_detect i g = [].
Proof. unfold vmx_invg_detect. by rewrite cr_ok, segments_ok, dtr_ok, loc_ok, nonreg_ok, pdpte_ok. Qed.
End checks.

(** ** The set-up *)

(** What the processor documents of the msrs the state comes from. *)
Record proc_ok {P : Proc} : Prop := {
  po_msr m : fits 64 (rdmsr m);
  po_entry m : m = 0x484 \/ m = 0x490 -> bit (rdmsr m) 9 = false /\ bit (rdmsr m) 10 = false;
  po_pcide : bit (rdmsr 0x488) 17 = false;
  po_dbgctl : bits (rdmsr IA32_DBG_CTL_MSR) 2 4 = 0 /\ bits (rdmsr IA32_DBG_CTL_MSR) 13 1 = 0 /\ bits (rdmsr IA32_DBG_CTL_MSR) 15 49 = 0;
  po_pat n : 0 <= n < 8 -> bits (rdmsr IA32_PAT_MSR) (8 * n) 3 <> 2 /\ bits (rdmsr IA32_PAT_MSR) (8 * n) 3 <> 3;
}.
Arguments proc_ok : clear implicits.

Section boot.
Context {P : Proc} (h : host) (hw0 : field -> Z).

Definition start (c : vmcs_cfg) : vmi := set_i_cpu (0x15 * 4 - 1) 0xffff0ff0 0x400 (vmi_zero hw0 c).
Definition mce (c : vmcs_cfg) : vmcs_cfg := mk_vmcs_cfg (vmx_fx_entry c) (vmx_fx_exit c) (vmx_fx_pin c) (vmx_fx_proc c) (vmx_fx_proc2 c)
  (vmx_fx_cr0 c) (mk_fixed (Z.lor (allow_0 (vmx_fx_cr4 c)) CR4_MCE) (Z.lor (allow_1 (vmx_fx_cr4 c)) CR4_MCE))
  (feat_exec_ptr c) (feat_smbase c).

(** The copies are [V]; nothing else that matters has changed but the
    capabilities. *)
Record sim (c : vmcs_cfg) (V : field -> Z) (s : vmi) : Prop := {
  si_cfg : i_cfg s = c;
  si_idt : i_idt_limit_rmode s = 0x53;
  si_val f : val (i_vmcs s) f = V f;
}.
Lemma sim_vset c V f x s (Q : unit -> vmi -> Prop) : sim c V s -> (forall s', sim c (upd V f x) s' -> Q tt s') -> wp (vset f x) s Q.
Proof.
  intros [] HQ. unfold vset, on_fields. apply wp_zoom, wp_modify, HQ. constructor; [done|done|]. intros g.
  cbn [i_vmcs set_i_vmcs val set_val]. unfold upd. by case_decide.
Qed.
Definition updf (V : field -> Z) (f : field) (lo w x : Z) : field -> Z := fun g => if decide (f = g) then set_bits (V g) lo w x else V g.
Lemma sim_vset_fld c V f lo w x s (Q : unit -> vmi -> Prop) : sim c V s ->
  (forall s', sim c (updf V f lo w x) s' -> Q tt s') -> wp (vset_fld f lo w x) s Q.
Proof.
  intros [] HQ. unfold vset_fld, on_fields. apply wp_zoom, wp_modify, HQ. constructor; [done|done|]. intros g.
  cbn [i_vmcs set_i_vmcs val set_val]. rewrite si_val0. unfold upd, updf. by case_decide; subst.
Qed.
Lemma sim_deny c V m s (Q : unit -> vmi -> Prop) : sim c V s -> msr_ok m -> (forall s', sim c V s' -> Q tt s') -> wp (deny_msr m) s Q.
Proof.
  intros [] Hm HQ. unfold deny_msr, wp, vmx_deny_msr_rw, vmx_access_msr.
  destruct (Z.ltb_spec m 0x2000); [apply HQ; by constructor|]. destruct Hm as [Hm|Hm]; [lia|].
  destruct (Z.leb_spec 0xc0000000 m); [|lia]. destruct (Z.leb_spec m (0xc0002000 - 1)); [|lia]. apply HQ. by constructor.
Qed.
Lemma sim_masks c V m w s : sim c V s -> sim c V (set_i_masks m w s).
Proof. intros []. by constructor. Qed.
Lemma sim_cfg c c' V s : sim c V s -> sim c' V (set_i_cfg c' s).
Proof. intros []. by constructor. Qed.

Lemma each_cons {A} (x : A) l (f : A -> M vmi unit) s (Q : unit -> vmi -> Prop) :
  wp (f x) s (fun _ s' => wp (for_each l f) s' Q) -> wp (for_each (x :: l) f) s Q.
Proof. apply (proj2 (wp_bind (f x) (fun _ => for_each l f) s Q)). Qed.
Lemma each_nil {A} (f : A -> M vmi unit) s (Q : unit -> vmi -> Prop) : Q tt s -> wp (for_each [] f) s Q.
Proof. done. Qed.
Lemma mtrr_msr : msr_ok IA32_MTRR_DEF_TYPE.
Proof. left. unfold IA32_MTRR_DEF_TYPE. lia. Qed.
Lemma efer_msr : msr_ok IA32_EFER_MSR.
Proof. right. unfold IA32_EFER_MSR. lia. Qed.

Ltac sim_step :=
  lazymatch goal with
  | |- wp (_ ≫= _) _ _ => apply (proj2 (wp_bind _ _ _ _))
  | |- wp (for_each (_ :: _) _) _ _ => apply each_cons
  | |- wp (for_each [] _) _ _ => apply each_nil
  | H : sim _ _ ?s |- wp (vset _ _) ?s _ => eapply sim_vset; [exact H|clear H; intros ? H]
  | H : sim _ _ ?s |- wp (vset_fld _ _ _ _) ?s _ => eapply sim_vset_fld; [exact H|clear H; intros ? H]
  | H : sim _ _ ?s |- wp (deny_msr _) ?s _ => eapply sim_deny; [exact H|first [apply mtrr_msr|apply efer_msr]|clear H; intros ? H]
  | H : sim _ _ ?s |- wp (gets i_idt_limit_rmode) ?s _ => apply (proj2 (wp_gets _ _ _)); rewrite (si_idt _ _ _ H)
  | H : sim _ _ ?s |- wp (gets i_cfg) ?s _ => apply (proj2 (wp_gets _ _ _)); rewrite (si_cfg _ _ _ H)
  | |- wp (gets _) _ _ => apply (proj2 (wp_gets _ _ _))
  | H : sim _ _ ?s |- wp (modify (set_i_masks ?m ?w)) ?s _ => apply (proj2 (wp_modify _ _ _)); apply (sim_masks _ _ m w) in H
  | H : sim _ _ ?s |- wp (modify (set_i_cfg ?c)) ?s _ => apply (proj2 (wp_modify _ _ _)); apply (sim_cfg _ c) in H
  | |- wp (when ?b _) _ _ => apply (proj2 (wp_when _ _ _ _)); destruct b
  | |- wp ?m _ _ => let h := head m in unfold h
  end; cbv beta zeta.

(** The values of the copies. *)
Definition copy_values : list (field * Z) :=
  [(st_cr0, 0); (st_cr4, 0); (st_ia32_perf, 0); (st_ia32_efer, 0);
   (st_dr7, 0); (st_cr3, 0); (exec_cr0_read_shadow, 0); (exec_cr4_read_shadow, 0); (st_ia32_sysenter_esp, 0);
   (st_ia32_sysenter_eip, 0); (st_tr_selector, 0); (st_cs_base, 0); (st_ds_base, 0); (st_es_base, 0); (st_tr_limit, 0);
   (st_gdtr_limit, 0); (entry_int_info, 0); (st_activity, 0); (st_interrupt, 0); (st_dbg_excp, 0);
   (st_ss_base, 0x80000); (st_cs_attributes, VMX_CODE_16_R0_CO); (st_ss_attributes, VMX_DATA_16_R0_ATTR);
   (st_ds_attributes, VMX_DATA_16_R3_ATTR); (st_es_attributes, VMX_DATA_16_R3_ATTR); (st_fs_attributes, VMX_DATA_16_R3_ATTR);
   (st_gs_attributes, VMX_DATA_16_R3_ATTR); (st_cs_limit, 0xffff); (st_ss_limit, 0xffff); (st_ds_limit, 0xffff);
   (st_es_limit, 0xffff); (st_fs_limit, 0xffff); (st_gs_limit, 0xffff); (st_tr_attributes, VMX_TSS_32_ATTR);
   (st_ldtr_attributes, 0x10000); (st_idtr_limit, 0x53); (st_rip, VM_ENTRY_POINT); (st_rflags, 0x202);
   (st_vmcs_link_ptr, 2 ^ 64 - 1); (entry_entry, 0xe004);
   (st_ia32_dbgctl, rdmsr IA32_DBG_CTL_MSR); (st_ia32_pat, rdmsr IA32_PAT_MSR)].
Definition copies_ok (v : field -> Z) : Prop :=
  Forall (fun p => v p.1 = p.2) copy_values /\ bit (v exec_proc) 31 = true /\ bit (v exec_proc2) 7 = true.

Lemma init_fills c : wp (vmx_vmcs_init h VM_RMODE_EXCP_BITMAP) (start c)
  (fun _ s => i_cfg s = mce c /\ copies_ok (val (i_vmcs s))).
Proof.
  assert (sim c (fun _ => 0) (start c)) as H by by constructor. generalize dependent (start c). intros s0 H.
  repeat sim_step.
  all: split; [exact (si_cfg _ _ _ H)|]; split.
  all: match goal with |- Forall _ _ => unfold copy_values; repeat (apply Forall_cons; split; [cbn [fst snd]; rewrite (si_val _ _ _ H); reflexivity|]); by apply Forall_nil
       | _ => split; rewrite (si_val _ _ _ H); reflexivity end.
Qed.
End boot.

(** ** The property *)

Lemma bit_wrap w z n : 0 <= w -> 0 <= n < w -> bit (wrap w z) n = bit z n.
Proof. intros Hw Hn. unfold bit. rewrite testbit_wrap by lia. by rewrite (proj2 (Z.ltb_lt n w)) by lia. Qed.
Lemma bits_wrap w z lo n : 0 <= lo -> 0 <= n -> lo + n <= w -> bits (wrap w z) lo n = bits z lo n.
Proof.
  intros Hlo Hn Hw. apply Z.bits_inj'. intros k Hk. autorewrite with zbit. repeat zbit_split; simpl; done || lia.
Qed.
Lemma bits_all w z : 0 <= w -> fits w z -> bits z 0 w = z.
Proof. intros Hw Hz. rewrite bits_div_mod, Z.pow_0_r, Z.div_1_r by lia. by apply Z.mod_small. Qed.

(** A control register whose copy is cleared gets what is fixed to one. *)
Lemma set_fixed_0 fx : vmx_set_fixed 0 fx = allow_0 fx.
Proof. unfold vmx_set_fixed. by rewrite Z.land_0_l. Qed.
Lemma cr_first fx : fits 32 (allow_0 fx) ->
  bits (wrap 64 (set_bits 0 0 32 (vmx_set_fixed (bits 0 0 32) fx))) 0 32 = allow_0 fx /\
  bits (vmx_set_fixed (allow_0 fx) fx) 0 32 = allow_0 fx.
Proof.
  intros Hf. change (bits 0 0 32) with 0. rewrite set_fixed_0. split.
  - rewrite bits_wrap, bits_set_same by lia. by apply wrap_id.
  - rewrite <- set_fixed_0, set_fixed_idem, set_fixed_0. by apply bits_all.
Qed.

(** What the feature checks leave. *)
Lemma features_ok `{P : Proc} c : proc_ok P -> vmx_cpu_features = Some c ->
  bit (allow_1 (vmx_fx_proc (cp_cfg c))) 31 = true /\ bit (allow_1 (vmx_fx_proc2 (cp_cfg c))) 7 = true /\
  (bit (allow_0 (vmx_fx_entry (cp_cfg c))) 9 = false /\ bit (allow_0 (vmx_fx_entry (cp_cfg c))) 10 = false) /\
  fits 32 (allow_0 (vmx_fx_cr0 (cp_cfg c))) /\ fits 32 (allow_0 (vmx_fx_cr4 (cp_cfg c))) /\
  bit (allow_0 (vmx_fx_cr4 (cp_cfg c))) 17 = false.
Proof.
  intros Hok. unfold vmx_cpu_features. destruct (negb cpu_has_vmx); [done|].
  destruct vmx_cpu_feat_ctrl as [feat|]; [|done]. cbn [mbind option_bind].
  destruct vmx_cpu_basic_info as [[[info misc] [[[pin proc] entry] exit]]|] eqn:Eb; [|done]. cbn [mbind option_bind].
  destruct (vmx_cpu_proc_feat proc) as [[p2 cap]|] eqn:Ep; [|done]. cbn [mbind option_bind]. intros E. injection E as <-.
  cbn [cp_cfg vmx_fx_proc vmx_fx_proc2 vmx_fx_entry vmx_fx_cr0 vmx_fx_cr4 fst].
  assert (forall m n, 0 <= n < 32 -> bit (bits (rdmsr m) 0 32) n = bit (rdmsr m) n) as Hlow.
  { intros m n Hn. unfold bit. rewrite testbit_bits by lia. by rewrite (proj2 (Z.ltb_lt n 32)), Z.add_0_r by lia. }
  split; [|split; [|split; [|split; [|split]]]].
  - revert Ep. unfold vmx_cpu_proc_feat. by destruct (bit (allow_1 proc) 31).
  - revert Ep. unfold vmx_cpu_proc_feat, vmx_cpu_proc2_feat. destruct (negb (bit (allow_1 proc) 31)); [done|]. cbv zeta.
    destruct (bit (allow_1 (rd_fixed 0x48b)) 7) eqn:E7; [|done]. cbn [negb].
    repeat (destruct (_ && _); [done|]). destruct (negb _); [done|].
    destruct vmx_cpu_ept_feat; [|done]. cbn [mbind option_bind]. intros Ep. by injection Ep as <- <-.
  - revert Eb. unfold vmx_cpu_basic_info. cbv zeta. destruct (negb (bit (rdmsr 0x485) 5)); [done|].
    destruct (cfg_exit_ext_io && _); [done|].
    destruct (bit (rdmsr IA32_VMX_BASIC_MSR) 55); intros Eb; injection Eb as _ _ _ _ <- _; cbn [allow_0 rd_fixed];
      rewrite !Hlow by lia; apply (po_entry Hok); tauto.
  - cbn [allow_0 unrestricted rd_fixed_cr]. apply fits_of_testbit; [lia|apply Z.ldiff_nonneg; left; by apply (bits_fits _ 0 32)|].
    intros n Hn. rewrite Z.ldiff_spec, (fits_testbit 32) by (try apply bits_fits; lia). done.
  - apply bits_fits; lia.
  - cbn [allow_0 rd_fixed_cr]. rewrite Hlow by lia. apply (po_pcide Hok).
Qed.

Section valid.
Context {P : Proc} (c : caps) (i : invg_info) (v g : field -> Z).
Hypothesis Hok : proc_ok P.
Hypothesis Hfeat : vmx_cpu_features = Some c.
Let c' := mce (cp_cfg c).
Hypothesis Hv : copies_ok v.
Hypothesis Hg : forall f, boot_written c' v f -> g f = wrap (width f) (final c' v f).
Hypothesis Hcr0 : iv_cr0 i = vmx_fx_cr0 c'.
Hypothesis Hcr4 : iv_cr4 i = vmx_fx_cr4 c'.

Lemma copy_of f x : (f, x) ∈ copy_values -> v f = x.
Proof. intros Hf. destruct Hv as [Hl _]. rewrite Forall_forall in Hl. by apply (Hl (f, x)). Qed.
Lemma written_of f x : (f, x) ∈ copy_values -> boot_written c' v f -> fix_of c' f = None -> wrap (width f) x = x -> g f = x.
Proof. intros Hf Hw Hx Hfit. rewrite Hg by done. unfold final. by rewrite Hx, (copy_of f x Hf). Qed.

Ltac value := apply written_of; [unfold copy_values; repeat first [left | right]|left; apply in_boot; vm_compute; reflexivity|reflexivity|reflexivity].

Lemma entry_bit n : 0 <= n < 32 -> bit (g entry_entry) n = bit 0xe004 n && bit (allow_1 (vmx_fx_entry c')) n || bit (allow_0 (vmx_fx_entry c')) n.
Proof.
  intros Hn. rewrite Hg by (left; apply in_boot; vm_compute; reflexivity). change (width entry_entry) with 32. rewrite bit_wrap by lia.
  change (final c' v entry_entry) with (vmx_set_fixed (v entry_entry) (vmx_fx_entry c')). rewrite set_fixed_bit by lia.
  rewrite (copy_of entry_entry 0xe004); [done|]. unfold copy_values. repeat first [left | right].
Qed.
Lemma control_bit f n fx x : f ∈ boot_fields -> width f = 32 -> fix_of c' f = Some fx -> f ∉ low_fields -> 0 <= n < 32 ->
  bit (v f) n = x -> bit (g f) n = x && bit (allow_1 fx) n || bit (allow_0 fx) n.
Proof.
  intros Hf Hw Hfx Hl Hn <-. rewrite Hg by (by left). rewrite Hw, bit_wrap by lia. unfold final. rewrite Hfx, decide_False by done.
  by rewrite set_fixed_bit by lia.
Qed.
Lemma cr_of f fx : f ∈ boot_fields -> width f = 64 -> fix_of c' f = Some fx -> f ∈ low_fields -> fits 32 (allow_0 fx) -> v f = 0 ->
  bits (g f) 0 32 = allow_0 fx /\ bits (vmx_set_fixed (bits (g f) 0 32) fx) 0 32 = bits (g f) 0 32.
Proof.
  intros Hf Hw Hfx Hl Hfit Hv0. destruct (cr_first fx Hfit) as [H1 H2]. rewrite Hg by (by left). rewrite Hw. unfold final.
  rewrite Hfx, decide_True, Hv0 by done. by rewrite H1.
Qed.
Lemma loaded n f x : n = 13 \/ n = 14 \/ n = 15 -> bit (g entry_entry) n = true -> (bit (final c' v entry_entry) n, f) ∈ boot_conds c' v ->
  fix_of c' f = None -> v f = x -> g f = wrap (width f) x.
Proof.
  intros Hn Hb Hc Hfx <-. rewrite Hg; [unfold final; by rewrite Hfx|]. right.
  assert (bit (final c' v entry_entry) n = true) as <-; [|done].
  rewrite <- Hb, Hg by (left; apply in_boot; vm_compute; reflexivity). change (width entry_entry) with 32. by rewrite bit_wrap by lia.
Qed.
Lemma wrap_msr m : wrap 64 (rdmsr m) = rdmsr m.
Proof. apply wrap_id, (po_msr Hok). Qed.

Ltac pick := unfold copy_values, boot_conds; repeat first [left | right].
Ltac listed := apply in_boot; vm_compute; reflexivity.

Lemma set_up_first : first_state i g.
Proof.
  destruct (features_ok c Hok Hfeat) as (Fp & Fp2 & (Fe9 & Fe10) & Fc0 & Fc4 & Fpc). destruct Hv as (_ & Vp & Vp2).
  assert (fits 32 (allow_0 (vmx_fx_cr4 c'))) as Fc4'.
  { cbn. apply fits_of_testbit; [lia|apply Z.lor_nonneg; split; [apply Fc4|done]|]. intros n Hn.
    rewrite Z.lor_spec, (fits_testbit _ _ _ Fc4) by done. apply (fits_testbit 32); [by split|done]. }
  destruct (cr_of st_cr0 (vmx_fx_cr0 c')) as [C0 C0']; [listed|reflexivity|reflexivity|dec|exact Fc0|apply copy_of; pick|].
  destruct (cr_of st_cr4 (vmx_fx_cr4 c')) as [C4 C4']; [listed|reflexivity|reflexivity|dec|exact Fc4'|apply copy_of; pick|].
  constructor; try (by value).
  - unfold uguest. rewrite (control_bit exec_proc 31 (vmx_fx_proc c') true), (control_bit exec_proc2 7 (vmx_fx_proc2 c') true);
      try first [listed|reflexivity|dec|lia|done]. cbn [c' mce vmx_fx_proc vmx_fx_proc2]. by rewrite Fp, Fp2.
  - unfold ia32e. rewrite entry_bit by lia. exact Fe9.
  - unfold entry_smm. rewrite entry_bit by lia. exact Fe10.
  - by rewrite Hcr0.
  - by rewrite Hcr4.
  - rewrite C4. unfold bit. cbn [c' mce vmx_fx_cr4 allow_0]. rewrite Z.lor_spec. unfold bit in Fpc. by rewrite Fpc.
  - rewrite (written_of st_ia32_dbgctl (rdmsr IA32_DBG_CTL_MSR)); [apply (po_dbgctl Hok)|pick|left; listed|reflexivity|apply wrap_msr].
  - intros Hb. apply (loaded 13 st_ia32_perf 0); [tauto|done|pick|reflexivity|apply copy_of; pick].
  - intros Hb n Hn. unfold pat_bad.
    rewrite (loaded 14 st_ia32_pat (rdmsr IA32_PAT_MSR)); [|tauto|done|pick|reflexivity|apply copy_of; pick].
    change (width st_ia32_pat) with 64. rewrite wrap_msr. destruct (po_pat Hok n Hn) as [H2 H3].
    apply orb_false_iff; split; by apply Z.eqb_neq.
  - intros Hb. apply (loaded 15 st_ia32_efer 0); [tauto|done|pick|reflexivity|apply copy_of; pick].
  - repeat (apply Forall_cons; split; [value|]). by apply Forall_nil.
  - repeat (apply Forall_cons; split; [value|]). by apply Forall_nil.
  - repeat (apply Forall_cons; split; [value|]). by apply Forall_nil.
Qed.
End valid.

(** C11: on a processor that passes the checks of the set-up, the set-up ends
    with a control structure whose state of the vm is valid: the inspection
    the vmm makes of a state the processor refused finds nothing wrong with
    what the processor holds, the guest is unrestricted, and every control is
    on when it has to be, or when it is asked for and allowed. *)
Theorem vm_init_valid `{P : Proc} h hw0 supported c : proc_ok P -> vmx_cpu_features = Some c ->
  (forall v f, boot_written (mce (cp_cfg c)) v f -> supported (encode f) = true) ->
  exists s, vmx_vm_init h supported true true (vmi_zero hw0 (cp_cfg c)) = Some (tt, s) /\ i_cfg s = mce (cp_cfg c) /\
    uguest (hw (i_vmcs s)) = true /\
    (forall n, 0 <= n < 32 -> bit (hw (i_vmcs s) entry_entry) n =
      bit 0xe004 n && bit (allow_1 (vmx_fx_entry (cp_cfg c))) n || bit (allow_0 (vmx_fx_entry (cp_cfg c))) n) /\
    forall i, iv_cr0 i = vmx_fx_cr0 (i_cfg s) -> iv_cr4 i = vmx_fx_cr4 (i_cfg s) -> vmx_invg_detect i (hw (i_vmcs s)) = [].
Proof.
  intros Hok Hfeat Himp.
  destruct (wp_exists _ _ _ (init_fills h hw0 (cp_cfg c))) as ([] & s1 & Hrun & Hcfg & Hcop).
  set (s2 := set_i_vmcs (mk_vmcs (val (i_vmcs s1)) encode (hw (i_vmcs s1))) s1).
  assert (inv (mce (cp_cfg c)) (val (i_vmcs s1)) [] (fun _ => False) s2) as Hinv by (constructor; [exact Hcfg|done|done|done]).
  destruct (commit_runs supported _ _ _ (Himp _) Hinv) as (s3 & Hrun3 & Hcfg3 & Hhw).
  exists s3. split; [|split; [done|]].
  - unfold vmx_vm_init. cbn [negb]. unfold mbind, M_bind, modify. change (set_i_cpu _ _ _ _) with (start hw0 (cp_cfg c)).
    rewrite Hrun. unfold vmx_vmcs_encode, on_fields, zoom, modify. exact Hrun3.
  - split; [|split].
    + exact (fs_uguest _ _ (set_up_first c (mk_invg (vmx_fx_cr0 (mce (cp_cfg c))) (vmx_fx_cr4 (mce (cp_cfg c))) 0 0 0 0 ∅) _ _ Hok Hfeat Hcop Hhw eq_refl eq_refl)).
    + intros n Hn. exact (entry_bit c _ _ Hcop Hhw n Hn).
    + intros i H0 H4. rewrite Hcfg3 in H0, H4. exact (first_state_valid i _ (set_up_first c i _ _ Hok Hfeat Hcop Hhw H0 H4)).
Qed.

(** Any event injected in a halted vm is reported, as no event is of the three
    kinds at once. *)
Lemma halted_injection_reported i g : g st_activity = VMX_VMCS_GUEST_ACTIVITY_STATE_HALT -> inject_v g = true ->
  "activity state (HLT) event entry"%string ∈ vmx_invg_detect i g.
Proof.
  intros Ha Hv. assert ("activity state (HLT) event entry"%string ∈ vmx_invg_activity g) as Hin.
  { unfold vmx_invg_activity. rewrite Ha, Hv. cbv zeta. rewrite !elem_of_app. right. right. right. left.
    change (VMX_VMCS_GUEST_ACTIVITY_STATE_HALT =? VMX_VMCS_GUEST_ACTIVITY_STATE_HALT) with true. cbn [andb].
    destruct (Z.eqb_spec (inject_type g) VMCS_EVT_INFO_TYPE_HW_INT) as [E|E]; [rewrite E; by left|].
    destruct (Z.eqb_spec (inject_type g) VMCS_EVT_INFO_TYPE_NMI) as [E'|E']; [rewrite E'; by left|]. by left. }
  unfold vmx_invg_detect, vmx_invg_nonreg. rewrite !elem_of_app. tauto.
Qed.
(** The width of the physical addresses is checked before it is read. *)
Lemma pwidth32_unchecked `{P : Proc} : vmx_cpu_max_addr 0 <> None.
Proof. done. Qed.

(** ** Example *)

Definition ex_rdmsr (m : Z) : Z :=
  if m =? IA32_FEATURE_CONTROL_MSR then 5 else if m =? IA32_VMX_BASIC_MSR then 0x40000000000012 else if m =? 0x485 then 0x20
  else if (0x481 <=? m) && (m <=? 0x484) || (m =? 0x48b) then 0xffffffff00000000
  else if m =? 0x486 then 0x80000021 else if m =? 0x487 then 0xffffffff else if m =? 0x488 then 0x2000 else if m =? 0x489 then 0x67ff
  else if m =? 0x48c then 0x0f0106114040 else if m =? IA32_PAT_MSR then 0x7040600070406 else 0.
#[local] Instance ex_proc : Proc := {|
  rdmsr := ex_rdmsr; cpu_has_vmx := true; cpu_max_addr_sz := 0x3024; cfg_vpid := true; cfg_exit_ext_io := true;
  cfg_exit_dt := true; cfg_msr_proxy := false; cfg_exec_ptr := false; cfg_smbase := false
|}.
Lemma ex_proc_ok : proc_ok ex_proc.
Proof.
  constructor.
  - intros m. cbn. unfold ex_rdmsr. repeat case_match; split; discriminate || reflexivity.
  - intros m [-> | ->]; split; reflexivity.
  - reflexivity.
  - split_and!; reflexivity.
  - intros n Hn. assert (n = 0 \/ n = 1 \/ n = 2 \/ n = 3 \/ n = 4 \/ n = 5 \/ n = 6 \/ n = 7) as Hc by lia.
    repeat destruct Hc as [-> | Hc]; try subst n; split; discriminate.
Qed.
Definition ex_host : host := mk_host 0x80050033 0x1000 0x6f8 0x200000 0x100000 0x3000 0x4000 0x10000 0x50000 1.

Example vm_init_valid_witness : exists c s, vmx_cpu_features = Some c /\
  vmx_vm_init ex_host (fun _ => true) true true (vmi_zero (fun _ => 0) (cp_cfg c)) = Some (tt, s) /\
  uguest (hw (i_vmcs s)) = true.
Proof.
  destruct vmx_cpu_features as [c|] eqn:E; [|by vm_compute in E].
  destruct (vm_init_valid ex_host (fun _ => 0) (fun _ => true) c ex_proc_ok E (fun _ _ _ => eq_refl)) as (s & Hrun & _ & Hu & _).
  exists c, s. split; [reflexivity|]. split; [exact Hrun|exact Hu].
Defined.

Example msr_bitmap_exact_witness : match vmx_access_msr true true true IA32_EFER_MSR (replicate 4096 0) with
  | Some bm => msr_exits bm true IA32_EFER_MSR = true | None => False end.
Proof.
  pose proof (msr_bitmap_exact true true true IA32_EFER_MSR (replicate 4096 0) (length_replicate 4096 0) ltac:(by apply Z.leb_le)) as H.
  destruct (vmx_access_msr true true true IA32_EFER_MSR (replicate 4096 0)) as [bm|].
  - destruct H as (Hm & _ & H). rewrite H by done. reflexivity.
  - apply H. exact efer_msr.
Defined.
