(* ===== verification/RegsSem.v ===== *)
(** * What the vm sees in its other registers

    The debug registers give back what was written in them, whatever name they
    have; the processor identification is the processor's, without the
    extension the vmm runs on. *)

From S2P Require Import Prelude.
From S2P Require Import Monad.
From S2P Require Import Walk.
From S2P Require Import Vmcs.
From S2P Require Import Machine.
From S2P Require Import Cpu.
From S2P Require Import CpuRegs.
From S2P Require Import CpuMode.
From S2P Require Import CpuRun.
From S2P Require Import CpuEvt.

Lemma bits_testbit_low x w i : 0 <= i < w -> Z.testbit (bits x 0 w) i = Z.testbit x i.
Proof. intros Hi. rewrite testbit_bits, Z.add_0_r by lia. by rewrite (proj2 (Z.ltb_lt i w)) by lia. Qed.

Section regs.
Context {V : Vmx}.

(** ** Processor identification *)

(** The registers of an answer. *)
Record answers (s : mach) (a b c d : Z) : Prop := mk_answers {
  as_eax : bits (m_gpr s GPR64_RAX) 0 32 = wrap32 a;
  as_ebx : bits (m_gpr s GPR64_RBX) 0 32 = wrap32 b;
  as_ecx : bits (m_gpr s GPR64_RCX) 0 32 = wrap32 c;
  as_edx : bits (m_gpr s GPR64_RDX) 0 32 = wrap32 d;
}.

Lemma put_fld_at s r lo w v Q :
  (forall s', m_gpr s' r = set_bits (m_gpr s r) lo w v -> (forall r', r' <> r -> m_gpr s' r' = m_gpr s r') -> Q tt s') ->
  wp (put_gpr_fld r lo w v) s Q.
Proof.
  intros HQ. unfold put_gpr_fld, put_gpr. apply wp_bind, wp_gets, wp_modify. apply HQ; cbn.
  - by rewrite decide_True.
  - intros r' Hr. by rewrite decide_False.
Qed.

Lemma wp_gpr_low s r Q : Q (bits (m_gpr s r) 0 32) s -> wp (gpr_low r) s Q.
Proof. done. Qed.

Lemma wp_put_regs s a b c d Q : (forall s', answers s' a b c d -> Q tt s') -> wp (put_regs a b c d) s Q.
Proof.
  intros HQ. unfold put_regs.
  apply wp_bind, put_fld_at. intros s1 E1 N1. apply wp_bind, put_fld_at. intros s2 E2 N2.
  apply wp_bind, put_fld_at. intros s3 E3 N3. apply put_fld_at. intros s4 E4 N4. apply HQ. split.
  - by rewrite N4, N3, N2, E1, bits_set_same.
  - by rewrite N4, N3, E2, bits_set_same.
  - by rewrite N4, E3, bits_set_same.
  - by rewrite E4, bits_set_same.
Qed.

(** The leaf the vm asks for, without the bit of the extension. *)
Definition hidden (idx c : Z) : Z := if idx =? CPUID_FEATURE_INFO then set_bits (wrap32 c) CPUID_ECX_FEAT_VMX_BIT 1 0 else c.

Lemma wp_native_cpuid s idx Q : (forall s', (let '(a, b, c, d) := vmx_cpuid (bits (m_gpr s GPR64_RAX) 0 32)
    (bits (m_gpr s GPR64_RCX) 0 32) in answers s' a b (hidden idx c) d) -> Q tt s') ->
  wp (resolve_cpuid_native ;; vmx_vmexit_resolve_cpuid idx) s Q.
Proof.
  intros HQ. unfold resolve_cpuid_native, emulate_native.
  apply wp_bind, wp_bind, wp_modify, wp_bind, wp_gpr_low, wp_bind, wp_gpr_low. cbn [m_gpr with_emu_done].
  destruct (vmx_cpuid _ _) as [[[a b] c] d]. apply wp_put_regs. intros s1 [H1 H2 H3 H4].
  unfold vmx_vmexit_resolve_cpuid, hidden in *. apply wp_when. case_match; [|by apply HQ].
  apply wp_bind, wp_gpr_low, put_fld_at. intros s2 E2 N2. apply HQ. split; rewrite ?N2 by done; try done.
  by rewrite E2, bits_set_same, H3.
Qed.

Definition hyperv_leaf (idx : Z) : bool :=
  (idx =? CPUID_MSHYPERV_RANGE) || (idx =? CPUID_MSHYPERV_ID) || (idx =? CPUID_MSHYPERV_FEAT).
Definition qemu_on (q : cpuid_qemu) (s : mach) : bool :=
  match q with CPUID_QEMU_NONE => false | CPUID_QEMU_USER => cpl_of (val (m_vmcs s) st_cs_selector) =? 3 | CPUID_QEMU_ALL => true end.

(** What the vm is to be told. *)
Definition cpuid_spec (q : cpuid_qemu) (s : mach) : Z * Z * Z * Z :=
  let idx := bits (m_gpr s GPR64_RAX) 0 32 in
  match (if qemu_on q s then qemu_answer idx else None) with
  | Some r => r
  | None =>
      if hyperv_leaf idx then (0, 0, 0, 0)
      else let '(a, b, c, d) := vmx_cpuid idx (bits (m_gpr s GPR64_RCX) 0 32) in (a, b, hidden idx c, d)
  end.

Lemma qemu_hides idx a b c d : idx = CPUID_FEATURE_INFO -> qemu_answer idx = Some (a, b, c, d) ->
  bit c CPUID_ECX_FEAT_VMX_BIT = false.
Proof. intros -> [= <- <- <- <-]. done. Qed.

Lemma wp_cpuid_any q s idx : idx = bits (m_gpr s GPR64_RAX) 0 32 ->
  wp (resolve_cpuid_any q idx) s (fun _ s' => let '(a, b, c, d) := cpuid_spec q s in answers s' a b c d).
Proof.
  intros Hi. unfold resolve_cpuid_any, resolve_cpuid_qemu, cpuid_spec. rewrite <- Hi.
  do 3 apply wp_bind. apply wp_gets, wp_ret. fold (qemu_on q s). cbv zeta.
  destruct (if qemu_on q s then _ else _) as [[[[a b] c] d]|].
  - apply wp_bind, wp_put_regs. intros s' Hs'. by do 2 apply wp_ret.
  - apply wp_ret. rewrite bool_decide_false by done. unfold resolve_cpuid_mshyperv. fold (hyperv_leaf idx). apply wp_bind.
    destruct (hyperv_leaf idx).
    + apply wp_bind, wp_put_regs. intros s' Hs'. by do 2 apply wp_ret.
    + apply wp_ret. rewrite bool_decide_false by done. apply wp_native_cpuid. intros s'. rewrite <- Hi.
      by destruct (vmx_cpuid _ _) as [[[a b] c] d].
Qed.

Lemma spec_hides q s a b c d : cpuid_spec q s = (a, b, c, d) -> bits (m_gpr s GPR64_RAX) 0 32 = CPUID_FEATURE_INFO ->
  bit c CPUID_ECX_FEAT_VMX_BIT = false.
Proof.
  unfold cpuid_spec. intros Hc Hi. rewrite Hi in Hc. destruct (if qemu_on q s then _ else _) as [[[[a' b'] c'] d']|] eqn:E.
  - injection Hc as -> -> -> ->. revert E. destruct (qemu_on q s); [|done]. by apply qemu_hides.
  - change (hyperv_leaf CPUID_FEATURE_INFO) with false in Hc. destruct (vmx_cpuid _ _) as [[[a' b'] c'] d'].
    injection Hc as _ _ <- _. unfold hidden. change (_ =? _) with true. by apply (bit_set_same _ _ false).
Qed.

(** C25: the answer to cpuid is the one of the emulated processor where it has
    one, else the processor's own; in no case does it show the extension the
    vmm uses. *)
Theorem cpuid_hides_vmx q s :
  wp (resolve_cpuid_of q) s (fun rc s' => rc = VM_DONE /\
    (let '(a, b, c, d) := cpuid_spec q s in answers s' a b c d) /\
    (bits (m_gpr s GPR64_RAX) 0 32 = CPUID_FEATURE_INFO -> bit (m_gpr s' GPR64_RCX) CPUID_ECX_FEAT_VMX_BIT = false) /\
    exists l, m_calls s' = CTRL_EVT_CPUID (bits (m_gpr s GPR64_RAX) 0 32) :: l).
Proof.
  unfold resolve_cpuid_of. apply wp_bind, wp_gpr_low, wp_bind.
  eapply wp_mono; [by apply wp_cpuid_any|]. intros [] s' Hs'. apply wp_bind, wp_modify, wp_ret. split; [done|].
  destruct (cpuid_spec q s) as [[[a b] c] d] eqn:E. split; [by destruct Hs'|]. split; [|by eexists].
  intros Hi. pose proof (spec_hides q s a b c d E Hi) as Hb. destruct Hs' as [_ _ Hc _].
  change (m_gpr (with_calls _ s')) with (m_gpr s'). unfold bit in *.
  rewrite <- (bits_testbit_low (m_gpr s' GPR64_RCX) 32), Hc by done. unfold wrap32, wrap.
  by rewrite Z.mod_pow2_bits_low.
Qed.

(** ** Debug registers *)

(** The register behind the names dr4 and dr6, dr5 and dr7. *)
Definition dr_slot (dr : Z) : Z := if 5 <? dr then dr - 2 else dr.

(** The processor lets the vm access the register. *)
Definition dr_allowed (s : mach) : bool :=
  rmode (m_efer s) (val (m_vmcs s) exec_cr0_read_shadow) || (cpl_of (val (m_vmcs s) st_cs_selector) =? 0).
Definition dr_named (s : mach) (dr gpr : Z) : bool :=
  valid_dr_regs gpr dr && negb (bit (val (m_vmcs s) exec_cr4_read_shadow) CR4_DE_BIT && ((dr =? 4) || (dr =? 5))).
Definition dr_detects (dr v7 : Z) : bool := (dr_slot dr =? 5) && bit v7 DR7_GD_BIT.
Definition dr_open (s : mach) (dr gpr : Z) : bool :=
  dr_allowed s && dr_named s dr gpr && negb (dr_detects dr (m_dr s 5)).

(** A fault of calm code. *)
Lemma calm_fault (m : M mach unit) H s (Q : vm_code -> mach -> Prop) : at_rest H [] s -> calm [] m any [] ->
  (forall s', Q VM_FAULT s') -> wp (m ;; mret VM_FAULT) s Q.
Proof. intros Hs Hm HQ. apply wp_bind. eapply wp_mono; [by apply Hm|]. intros [] s' _. by apply wp_ret. Qed.

(** The outcome of an access: the register is the vm's own. *)
Definition dr_outcome (wr : bool) (dr gpr : Z) (s : mach) (rc : vm_code) (s' : mach) : Prop :=
  if dr_open s dr gpr then rc = VM_DONE /\ m_vmcs s' = m_vmcs s /\ m_efer s' = m_efer s /\
    if wr then forall n, m_dr s' n = if decide (dr_slot dr = n) then
        set_bits (m_dr s n) 0 32 (dr_reserved n (bits (m_gpr s gpr) 0 32)) else m_dr s n
    else bits (m_gpr s' gpr) 0 32 = bits (m_dr s (dr_slot dr)) 0 32
  else rc <> VM_DONE.

Lemma wp_dr_outcome H s wr dr gpr : at_rest H [] s ->
  wp (resolve_dr wr dr gpr) s (fun rc s' => at_rest H [] s' /\ dr_outcome wr dr gpr s rc s').
Proof.
  intros Hs. apply wp_and; [eapply wp_mono; [by apply calm_resolve_dr|by intros rc s' []]|].
  unfold resolve_dr, dr_outcome, dr_open. apply wp_bind. apply (wp_mono _ _ (fun ok s' => s' = s /\ ok = dr_allowed s)).
  { unfold valid_cr_access, is_rmode, cpl, getf. by wp_steps. }
  intros ok s' [-> ->]. destruct (dr_allowed s); cbn [negb andb].
  2:{ apply (calm_fault _ H); [done|by apply calm_inject|done]. }
  unfold dr_named, dr_detects. destruct (valid_dr_regs gpr dr); cbn [negb andb]; [|by apply wp_ret].
  unfold getf, get_drs. wp_steps. destruct (_ && _); cbn [negb andb].
  { apply (calm_fault _ H); [done|by apply calm_inject|done]. }
  fold (dr_slot dr). cbv zeta. wp_steps. destruct (_ && _); cbn [negb].
  { match goal with |- wp ?m _ _ => assert (calm [] m (fun rc => rc = VM_FAULT) []) as Hcm end; [calms; first [apply calm_put_drs|by apply calm_inject]|].
    eapply wp_mono; [by apply (Hcm H)|]. by intros rc s' [-> _]. }
  destruct wr.
  - unfold resolve_dr_wr, get_drs, put_drs, gpr_low, get_gpr. wp_steps. split_and!; [done..|]. intros n. cbn.
    by destruct (decide _) as [->|].
  - unfold resolve_dr_rd, get_drs, put_gpr_fld, get_gpr, put_gpr. wp_steps. split_and!; [done..|]. cbn.
    rewrite decide_True, bits_set_same by done. apply wrap_id. by apply bits_fits.
Qed.

Definition dr_back (dr gpr dr' gpr' : Z) : M mach vm_code :=
  rc ← resolve_dr true dr gpr;
  if bool_decide (rc = VM_DONE) then resolve_dr false dr' gpr' else mret rc.

(** a move to a debug register is done exactly when the vm may access the
    register; the move from it that follows, under either of the names of dr6
    and dr7, is done unless the name is reserved or the value just written
    asks to detect the accesses to dr7, and it gives back what was moved with
    the reserved bits as the code sets them. *)
Theorem dr_write_read H A R D s dr gpr dr' gpr' : starting H A R D s -> dr_slot dr = dr_slot dr' ->
  wp (dr_back dr gpr dr' gpr') s (fun rc s' =>
    let v := dr_reserved (dr_slot dr) (bits (m_gpr s gpr) 0 32) in
    (rc = VM_DONE <-> dr_open s dr gpr = true /\ dr_named s dr' gpr' = true /\ dr_detects dr v = false) /\
    (rc = VM_DONE -> bits (m_gpr s' gpr') 0 32 = bits v 0 32)).
Proof.
  intros Hst Hs. unfold dr_back. cbv zeta. apply wp_bind.
  eapply wp_mono; [apply (wp_dr_outcome H); by eapply starting_rest|]. unfold dr_outcome at 1.
  intros rc s1 [Hs1 Hw]. cbn beta. case_eq (dr_open s dr gpr); intros Hop; rewrite Hop in Hw.
  2:{ rewrite bool_decide_false by done. apply wp_ret. split; [|done]. split; [done|by intros []]. }
  destruct Hw as (-> & Ev & Ef & Hw). rewrite bool_decide_true by done.
  assert (dr_open s1 dr' gpr' = dr_named s dr' gpr' && negb (dr_detects dr (dr_reserved (dr_slot dr) (bits (m_gpr s gpr) 0 32)))) as E.
  { revert Hop. unfold dr_open, dr_named, dr_allowed, dr_detects. rewrite Ev, Ef, <- Hs, (Hw 5).
    destruct (_ || (cpl_of _ =? 0)); [|done]. intros _. cbn [andb]. f_equal. f_equal.
    case (dr_slot dr =? 5) eqn:E5; [|done]. apply Z.eqb_eq in E5. rewrite E5, decide_True by done. cbn [andb].
    by apply bit_set_low. }
  eapply wp_mono; [by apply (wp_dr_outcome H)|]. unfold dr_outcome. rewrite E.
  intros rc s2 [_ Hr]. destruct (dr_named s dr' gpr'), (dr_detects _ _); cbn [negb andb] in Hr;
    try (split; [split; [done|by intros (?&?&?)]|done]).
  destruct Hr as (-> & _ & _ & Hr). split; [done|]. intros _. by rewrite Hr, <- Hs, Hw, decide_True, bits_set_low.
Qed.

(** The bit of dr6 the mask should clear is kept, as 12 is reserved. *)
Lemma dr6_bit12_kept v : bit (dr_reserved 4 v) 12 = bit v 12.
Proof.
  unfold dr_reserved, bit. cbn [Z.eqb Pos.eqb]. rewrite Z.lor_spec, Z.land_spec.
  change (Z.testbit 0xfffffeff 12) with true. change (Z.testbit 0xffff0ff0 12) with false. by rewrite andb_true_r, orb_false_r.
Qed.
End regs.

(** A vm asks a processor that has the extension. *)
Definition ex_cpuid : mach := ex_mach ex_fields (fun _ => 1) 0 0 false ∅.
Lemma cpuid_hides_vmx_witness : exists s',
  resolve_cpuid_of (V := ex_vmx) CPUID_QEMU_NONE ex_cpuid = Some (VM_DONE, s') /\
  bit (m_gpr s' GPR64_RCX) CPUID_ECX_FEAT_VMX_BIT = false.
Proof.
  destruct (wp_exists _ _ _ (cpuid_hides_vmx (V := ex_vmx) CPUID_QEMU_NONE ex_cpuid))
    as (rc & s' & E & -> & _ & Hb & _).
  exists s'. split; [exact E|]. apply Hb. reflexivity.
Defined.

(** dr7 is written and read back through dr5. *)
Lemma ex_dr_open s1 : vmx_vmexit_pre_hdl (V := ex_vmx) ex_real = Some (tt, s1) ->
  dr_open s1 7 GPR64_RAX && dr_named s1 5 GPR64_RCX = true.
Proof.
  assert (match vmx_vmexit_pre_hdl (V := ex_vmx) ex_real with
    | Some (_, s) => dr_open s 7 GPR64_RAX && dr_named s 5 GPR64_RCX | None => false end = true) as H by by vm_compute.
  intros E. by rewrite E in H.
Qed.
Lemma dr_write_read_witness : exists s1 s2,
  dr_back 7 GPR64_RAX 5 GPR64_RCX s1 = Some (VM_DONE, s2) /\ bits (m_gpr s2 GPR64_RCX) 0 32 = 0x411.
Proof.
  destruct ex_started as (s1 & E1 & Hst & Hg). destruct (andb_prop _ _ (ex_dr_open s1 E1)) as [Hop Hnm].
  destruct (wp_exists _ _ _ (dr_write_read (V := ex_vmx) _ _ _ _ s1 7 GPR64_RAX 5 GPR64_RCX Hst eq_refl))
    as (rc & s2 & E & [_ Hrc] & HP).
  assert (rc = VM_DONE) as -> by (apply Hrc; split; [exact Hop|split; [exact Hnm|rewrite Hg; reflexivity]]).
  exists s1, s2. split; [exact E|]. rewrite (HP eq_refl), Hg. reflexivity.
Defined.
