(* ===== verification/Slab.v ===== *)
(** * The slab allocator (vmm/src/core/slab.c, common/libc/malloc.c,
    common/libc/ppg.c, include/slab.h, include/malloc.h)

    Objects of one size are carved out of pages of the page pool and kept on
    the free list of a cache; the caches are kept on a list sorted by object
    size.  The descriptor of a physical page names the cache its objects
    belong to, which is how [free] finds its way back.

    The cells of the two kinds of lists live in pages taken from the pool and
    never given back, so a page holds one kind only: the model keeps the links
    of the caches and those of the free objects in two stores. *)

From S2P Require Import Prelude.
From S2P Require Import Cdll.
From S2P Require Import Pagemem.
From S2P Require Import Alloc.
From S2P Require Import Pool.
From Stdlib Require Import Sorted.

(** ** State *)

(** [slab_t], without its links. *)
Record cache := mk_cache { c_nr : Z; c_sz : Z; c_obj : Z }.
#[export] Instance cache_inhabited : Inhabited cache := populate (mk_cache 0 0 0).

(** [sizeof(slab_t)] and [sizeof(slab_obj_t)]. *)
Definition sizeof_slab : Z := 40.
Definition sizeof_slab_obj : Z := 16.

(** [info->vmm.slab], the caches by address, the two stores, and the page
    descriptors: their number and their [slab] field by page number. *)
Record slab_info (A : Type) := mk_slab_info {
  sl_al : A;
  sl_nr : Z;
  sl_used : Z;
  sl_avl : Z;
  sl_cache : gmap Z cache;
  sl_lnk : store;
  ob_lnk : store;
  ppg_nr : Z;
  ppg_slab : gmap Z Z;
}.
Arguments mk_slab_info {A}.
Arguments sl_al {A}. Arguments sl_nr {A}. Arguments sl_used {A}. Arguments sl_avl {A}.
Arguments sl_cache {A}. Arguments sl_lnk {A}. Arguments ob_lnk {A}. Arguments ppg_nr {A}. Arguments ppg_slab {A}.

Section slab.
Context {A : Type} {PA : PageAlloc A}.
Implicit Types (st : slab_info A).

Definition cache_at st (c : Z) : cache := sl_cache st !!! c.

Definition with_al (al : A) st : slab_info A :=
  mk_slab_info al (sl_nr st) (sl_used st) (sl_avl st) (sl_cache st) (sl_lnk st) (ob_lnk st) (ppg_nr st) (ppg_slab st).
Definition with_nr (nr : Z) st : slab_info A :=
  mk_slab_info (sl_al st) nr (sl_used st) (sl_avl st) (sl_cache st) (sl_lnk st) (ob_lnk st) (ppg_nr st) (ppg_slab st).
(** The results of a list macro on the two cache lists. *)
Definition set_used (r : store * Z) st : slab_info A :=
  mk_slab_info (sl_al st) (sl_nr st) r.2 (sl_avl st) (sl_cache st) r.1 (ob_lnk st) (ppg_nr st) (ppg_slab st).
Definition set_avl (r : store * Z) st : slab_info A :=
  mk_slab_info (sl_al st) (sl_nr st) (sl_used st) r.2 (sl_cache st) r.1 (ob_lnk st) (ppg_nr st) (ppg_slab st).
Definition set_cache (c : Z) (v : cache) st : slab_info A :=
  mk_slab_info (sl_al st) (sl_nr st) (sl_used st) (sl_avl st) (<[c := v]> (sl_cache st)) (sl_lnk st) (ob_lnk st) (ppg_nr st) (ppg_slab st).
(** The result of a list macro on the object list of the cache [c]. *)
Definition set_objs (c : Z) (r : store * Z) st : slab_info A :=
  mk_slab_info (sl_al st) (sl_nr st) (sl_used st) (sl_avl st)
    (<[c := mk_cache (c_nr (cache_at st c)) (c_sz (cache_at st c)) r.2]> (sl_cache st))
    (sl_lnk st) r.1 (ppg_nr st) (ppg_slab st).
Definition set_cache_nr (c nr : Z) st : slab_info A :=
  set_cache c (mk_cache (wrap64 nr) (c_sz (cache_at st c)) (c_obj (cache_at st c))) st.
Definition set_owner (n c : Z) st : slab_info A :=
  mk_slab_info (sl_al st) (sl_nr st) (sl_used st) (sl_avl st) (sl_cache st) (sl_lnk st) (ob_lnk st) (ppg_nr st) (<[n := c]> (ppg_slab st)).

(** ** Page descriptors (ppg.c) *)

(** [ppg_get_desc]: the index of the descriptor. *)
Definition ppg_get_desc (addr : Z) st : option Z :=
  let n := page_nr addr in if n <? ppg_nr st then Some n else None.

(** ** Operations *)

Definition slab_req_page (slab : Z) st : Z * slab_info A :=
  let (addr, al) := pa_pop (sl_al st) in
  let st := with_al al st in
  if c_true addr then
    match ppg_get_desc addr st with
    | None => (0, st)
    | Some n => (addr, set_owner n slab st)
    end
  else (addr, st).

Definition slab_setup (slab sz : Z) st : slab_info A := set_cache slab (mk_cache 0 sz 0) st.

Definition slab_list_step (p : Z) st (i : Z) : slab_info A :=
  let slab := p + i * sizeof_slab in
  let st := slab_setup slab 0 st in
  set_avl (cdll_fill (sl_lnk st) (sl_avl st) slab) st.

Definition slab_list_grow st : Z * slab_info A :=
  let (slab, al) := pa_pop (sl_al st) in
  let st := with_al al st in
  if negb (c_true slab) then (slab, st)
  else
    let nr := PAGE_SIZE / sizeof_slab in
    (slab + nr * sizeof_slab, fold_left (slab_list_step slab) (seqZ 0 nr) st).

Definition slab_alloc st : Z * slab_info A :=
  let '(ok, st) :=
    if negb (c_true (sl_avl st)) then
      let (r, st) := slab_list_grow st in (c_true r, st)
    else (true, st) in
  if ok then
    let (slab, r) := cdll_pop (sl_lnk st) (sl_avl st) in (slab, set_avl r st)
  else (0, st).

(** The objects of one page, at [addr], [addr + sz], ... *)
Definition slab_fill_page (slab addr np sz : Z) st : slab_info A :=
  fold_left (fun st i => set_objs slab (cdll_fill (ob_lnk st) (c_obj (cache_at st slab)) (addr + i * sz)) st)
    (seqZ 0 np) st.

Fixpoint slab_grow_pages (pages : nat) (slab np nr : Z) st : Z * slab_info A :=
  match pages with
  | O => (nr, st)
  | S pages =>
      let (addr, st) := slab_req_page slab st in
      if negb (c_true addr) then (nr, st)
      else
        let st := slab_fill_page slab addr np (c_sz (cache_at st slab)) st in
        let st := set_cache_nr slab (c_nr (cache_at st slab) + np) st in
        slab_grow_pages pages slab np (nr + np) st
  end.

(** The number of objects added. *)
Definition slab_grow (slab nr : Z) st : Z * slab_info A :=
  if negb (c_true slab) || negb (c_true nr) then (0, st)
  else
    let sz := c_sz (cache_at st slab) in
    let bytes := wrap64 (sz * nr) in
    let pages := Z.shiftr bytes 12 + (if c_true (bytes mod PAGE_SIZE) then 1 else 0) in
    slab_grow_pages (Z.to_nat pages) slab (PAGE_SIZE / sz) 0 st.

Definition slab_create (sz nr : Z) st : Z * slab_info A :=
  let (slab, st) := slab_alloc st in
  if negb (c_true slab) then (0, st)
  else
    let st := slab_setup slab sz st in
    let (n, st) := slab_grow slab nr st in
    if negb (c_true n) then (0, set_avl (cdll_fill (sl_lnk st) (sl_avl st) slab) st)
    else (slab, st).

Definition slab_insert (sz nr nxt : Z) st : Z * slab_info A :=
  let (slab, st) := slab_create sz nr st in
  if negb (c_true slab) then (0, st)
  else
    let st :=
      if c_true nxt then set_used (cdll_insert_before (sl_lnk st) (sl_used st) slab nxt) st
      else set_used (cdll_fill (sl_lnk st) (sl_used st) slab) st in
    (slab, with_nr (sl_nr st + 1) st).

Definition slab_size_long (asz : Z) : Z :=
  if long_aligned asz then asz else long_align_next asz.
Definition slab_size (asz : Z) : Z :=
  if asz <? sizeof_slab_obj then sizeof_slab_obj else slab_size_long asz.

Definition slab_at (addr : Z) st : Z :=
  match ppg_get_desc addr st with
  | Some n => default 0 (ppg_slab st !! n)
  | None => 0
  end.

(** The free list of a cache holds [nr] objects, which bounds the search. *)
Definition slab_add (slab obj : Z) st : option (slab_info A) :=
  if negb (c_true slab) then Some st
  else
    found ← cdll_search (Z.to_nat (c_nr (cache_at st slab))) (ob_lnk st) (c_obj (cache_at st slab)) obj;
    if (found : bool) then Some st
    else
      let st := set_objs slab (cdll_fill (ob_lnk st) (c_obj (cache_at st slab)) obj) st in
      Some (set_cache_nr slab (c_nr (cache_at st slab) + 1) st).

(** [while(slab->next != used && sz > slab->sz) slab = slab->next]; the list
    holds [info->vmm.slab.nr] caches, which bounds the walk. *)
Fixpoint slab_walk (fuel : nat) (slab sz : Z) st : option Z :=
  match fuel with
  | O => None
  | S fuel =>
      if negb (get_next (sl_lnk st) slab =? sl_used st) && (c_sz (cache_at st slab) <? sz)
      then slab_walk fuel (get_next (sl_lnk st) slab) sz st
      else Some slab
  end.

Definition slab_find (asz : Z) st : option Z :=
  let sz := slab_size asz in
  if negb (c_true (sl_used st)) then Some 0
  else
    slab ← slab_walk (Z.to_nat (sl_nr st)) (sl_used st) sz st;
    Some (if c_sz (cache_at st slab) =? sz then slab else 0).

Definition slab_new (asz nr : Z) st : option (Z * slab_info A) :=
  if PAGE_SIZE / 2 <? asz then Some (0, st)
  else
    let sz := slab_size asz in
    if negb (c_true (sl_used st)) then Some (slab_insert sz nr 0 st)
    else
      slab ← slab_walk (Z.to_nat (sl_nr st)) (sl_used st) sz st;
      if sz <? c_sz (cache_at st slab) then Some (slab_insert sz nr slab st)
      else if sz =? c_sz (cache_at st slab) then
        let (n, st) := slab_grow slab nr st in
        Some (if negb (c_true n) then 0 else slab, st)
      else Some (slab_insert sz nr 0 st).

(** ** malloc and free *)

Definition pop_obj (slab : Z) st : Z * slab_info A :=
  let (obj, r) := cdll_pop (ob_lnk st) (c_obj (cache_at st slab)) in (obj, set_objs slab r st).

(** [slab->nr--; return obj] *)
Definition malloc_done (slab : Z) (r : Z * slab_info A) : Z * slab_info A :=
  (r.1, set_cache_nr slab (c_nr (cache_at r.2 slab) - 1) r.2).

(** [malloc] after the lookup of the cache. *)
Definition malloc_from (slab sz : Z) st : option (Z * slab_info A) :=
  '(slab, st) ← (if c_true slab then Some (slab, st) else slab_new sz 1 st);
  if negb (c_true slab) then Some (0, st)
  else
    let (obj, st1) := pop_obj slab st in
    if negb (c_true obj) then
      let (n, st1) := slab_grow slab 1 st1 in
      if negb (c_true n) then Some (0, st1) else Some (malloc_done slab (pop_obj slab st1))
    else Some (malloc_done slab (obj, st1)).

Definition malloc (sz : Z) st : option (Z * slab_info A) :=
  slab ← slab_find sz st; malloc_from slab sz st.

Definition free (addr : Z) st : option (slab_info A) := slab_add (slab_at addr st) addr st.
End slab.

(** ** Reads after updates *)

Section reads.
Context {A : Type}.
Implicit Types (st : slab_info A).

Lemma cache_at_set_cache c v st c' :
  cache_at (set_cache c v st) c' = if decide (c = c') then v else cache_at st c'.
Proof. unfold cache_at. simpl. rewrite !lookup_total_alt, lookup_insert. by case_decide. Qed.

Lemma cache_at_set_objs c r st c' :
  cache_at (set_objs c r st) c' =
    if decide (c = c') then mk_cache (c_nr (cache_at st c)) (c_sz (cache_at st c)) r.2 else cache_at st c'.
Proof. unfold cache_at at 1. simpl. rewrite lookup_total_alt, lookup_insert. case_decide; [done|]. by rewrite <- lookup_total_alt. Qed.

Lemma sz_set_objs c r st c' : c_sz (cache_at (set_objs c r st) c') = c_sz (cache_at st c').
Proof. rewrite cache_at_set_objs. by case_decide; subst. Qed.
Lemma nr_set_objs c r st c' : c_nr (cache_at (set_objs c r st) c') = c_nr (cache_at st c').
Proof. rewrite cache_at_set_objs. by case_decide; subst. Qed.
Lemma obj_set_objs c r st c' :
  c_obj (cache_at (set_objs c r st) c') = if decide (c = c') then r.2 else c_obj (cache_at st c').
Proof. rewrite cache_at_set_objs. by case_decide; subst. Qed.

Lemma sz_set_nr c n st c' : c_sz (cache_at (set_cache_nr c n st) c') = c_sz (cache_at st c').
Proof. unfold set_cache_nr. rewrite cache_at_set_cache. by case_decide; subst. Qed.
Lemma obj_set_nr c n st c' : c_obj (cache_at (set_cache_nr c n st) c') = c_obj (cache_at st c').
Proof. unfold set_cache_nr. rewrite cache_at_set_cache. by case_decide; subst. Qed.
Lemma nr_set_nr c n st c' :
  c_nr (cache_at (set_cache_nr c n st) c') = if decide (c = c') then wrap64 n else c_nr (cache_at st c').
Proof. unfold set_cache_nr. rewrite cache_at_set_cache. by case_decide; subst. Qed.
End reads.

Create Rewrite HintDb slab.
#[export] Hint Rewrite @sz_set_objs @nr_set_objs @obj_set_objs @sz_set_nr @obj_set_nr @nr_set_nr : slab.

(** ** The invariant

    [lc] are the caches that have objects; [objs c] is the free list of [c] and
    [lv] the blocks handed out, with their sizes.  Every object, free or not,
    sits on the grid of its cache's size in a page the cache owns. *)

Definition on_grid (owner : gmap Z Z) (c sz o : Z) : Prop :=
  exists n k, o = n * 4096 + k * sz /\ 0 <= k /\ (k + 1) * sz <= 4096 /\ owner !! n = Some c.

Record objs_ok {A} {PA : PageAlloc A} (st : slab_info A) (used : gset Z) (lc : list Z)
    (objs : Z -> list Z) (lv : list (Z * Z)) : Prop := {
  oo_al : exists free, alloc_rep (sl_al st) free used;
  oo_sz c : c ∈ lc -> 16 <= c_sz (cache_at st c) <= 2048 /\ (8 | c_sz (cache_at st c));
  oo_rep c : c ∈ lc -> rep (ob_lnk st) (c_obj (cache_at st c)) (objs c);
  oo_grid c o : c ∈ lc -> o ∈ objs c -> on_grid (ppg_slab st) c (c_sz (cache_at st c)) o;
  oo_live q s : (q, s) ∈ lv -> exists c, c ∈ lc /\ s = c_sz (cache_at st c) /\
    on_grid (ppg_slab st) c s q /\ (q ∉ objs c);
  oo_nodup : NoDup lv.*1;
  oo_pages n c : ppg_slab st !! n = Some c -> n * 4096 ∈ used /\ n < ppg_nr st;
}.

(** The list of caches in use, sorted by size, and the spare ones. *)
Record list_ok {A} (st : slab_info A) (used : gset Z) (lu la : list Z) : Prop := {
  lo_used : rep (sl_lnk st) (sl_used st) lu;
  lo_avl : rep (sl_lnk st) (sl_avl st) la;
  lo_disj : NoDup (lu ++ la);
  lo_nr : sl_nr st = Z.of_nat (length lu);
  lo_sorted : StronglySorted (fun c c' => c_sz (cache_at st c) < c_sz (cache_at st c')) lu;
  lo_cells c : c ∈ lu ++ la -> exists n, n * 4096 ∈ used /\ n * 4096 <= c < n * 4096 + 4096;
}.

Definition cnt_ok {A} (st : slab_info A) (lc : list Z) (objs : Z -> list Z) : Prop :=
  forall c, c ∈ lc -> c_nr (cache_at st c) = wrap64 (Z.of_nat (length (objs c))).

Lemma grid_page n k sz : 16 <= sz -> 0 <= k -> (k + 1) * sz <= 4096 -> (n * 4096 + k * sz) / 4096 = n.
Proof. intros. rewrite Z.div_add_l, Z.div_small by nia. lia. Qed.

(** An object belongs to one cache. *)
Lemma grid_owner owner c c' sz sz' o : 16 <= sz -> 16 <= sz' ->
  on_grid owner c sz o -> on_grid owner c' sz' o -> c = c'.
Proof.
  intros Hs Hs' (n & k & -> & Hk & Hb & Ho) (n' & k' & He & Hk' & Hb' & Ho').
  pose proof (grid_page n k sz Hs Hk Hb) as H1. rewrite He, grid_page in H1 by done. subst. congruence.
Qed.

Section objects.
Context {A : Type} {PA : PageAlloc A} {PL : PageAllocLaws A}.
Implicit Types (st : slab_info A).

Definition upd (objs : Z -> list Z) (c : Z) (l : list Z) : Z -> list Z :=
  fun c' => if decide (c = c') then l else objs c'.

Lemma upd_same objs c l : upd objs c l c = l.
Proof. unfold upd. by rewrite decide_True. Qed.
Lemma upd_other objs c l c' : c <> c' -> upd objs c l c' = objs c'.
Proof. intros. unfold upd. by rewrite decide_False. Qed.

Lemma objs_disjoint st used lc objs lv c c' o : objs_ok st used lc objs lv ->
  c ∈ lc -> c' ∈ lc -> o ∈ objs c -> on_grid (ppg_slab st) c' (c_sz (cache_at st c')) o -> c = c'.
Proof.
  intros Ho Hc Hc' Hoc Hg. pose proof (oo_sz _ _ _ _ _ Ho c Hc). pose proof (oo_sz _ _ _ _ _ Ho c' Hc').
  eapply grid_owner; [| |by eapply oo_grid|exact Hg]; lia.
Qed.

(** The free lists after a macro on the list of [c] that frames the others. *)
Lemma objs_ok_update st used lc objs lv lv' c r l : objs_ok st used lc objs lv -> c ∈ lc ->
  rep r.1 r.2 l -> frame (l ++ objs c) (ob_lnk st) r.1 ->
  (forall o, o ∈ l -> on_grid (ppg_slab st) c (c_sz (cache_at st c)) o) ->
  (forall q s, (q, s) ∈ lv' -> exists c', c' ∈ lc /\ s = c_sz (cache_at st c') /\
    on_grid (ppg_slab st) c' s q /\ (q ∉ upd objs c l c')) ->
  NoDup lv'.*1 -> objs_ok (set_objs c r st) used lc (upd objs c l) lv'.
Proof.
  intros Ho Hc Hr Hf Hg Hl Hnd. split; simpl; try apply Ho; try done.
  - intros c' Hc'. rewrite sz_set_objs. by apply (oo_sz _ _ _ _ _ Ho).
  - intros c' Hc'. rewrite obj_set_objs. destruct (decide (c = c')) as [<-|Hne]; [by rewrite upd_same|].
    rewrite upd_other by done. eapply rep_frame; [exact Hf| |by apply (oo_rep _ _ _ _ _ Ho)].
    intros o Ho1 Ho2. apply Hne. symmetry. apply elem_of_app in Ho2 as [Ho2|Ho2].
    + eapply objs_disjoint; [exact Ho|exact Hc'|exact Hc|exact Ho1|by apply Hg].
    + eapply objs_disjoint; [exact Ho|exact Hc'|exact Hc|exact Ho1|by apply (oo_grid _ _ _ _ _ Ho)].
  - intros c' o Hc' Hoc. rewrite sz_set_objs. destruct (decide (c = c')) as [<-|Hne].
    + rewrite upd_same in Hoc. by apply Hg.
    + rewrite upd_other in Hoc by done. by apply (oo_grid _ _ _ _ _ Ho).
  - intros q sz Hq. destruct (Hl q sz Hq) as (c' & ? & ? & ? & ?). exists c'. by rewrite sz_set_objs.
Qed.

Lemma grid_nonzero st used lc objs lv c sz o : objs_ok st used lc objs lv -> 16 <= sz ->
  on_grid (ppg_slab st) c sz o -> o <> 0.
Proof.
  intros Ho Hs (n & k & -> & Hk & _ & Hn).
  apply (oo_pages _ _ _ _ _ Ho) in Hn as [Hn _]. destruct (oo_al _ _ _ _ _ Ho) as [free Hal].
  destruct (alloc_pages _ _ _ Hal (n * 4096)) as (n' & He & Hn' & _); [by right|]. nia.
Qed.

Lemma objs_nodup st used lc objs lv c : objs_ok st used lc objs lv -> c ∈ lc -> NoDup (objs c).
Proof. intros Ho Hc. by destruct (oo_rep _ _ _ _ _ Ho c Hc) as (_ & ? & _). Qed.

Definition add_obj (c o : Z) st : slab_info A :=
  set_objs c (cdll_fill (ob_lnk st) (c_obj (cache_at st c)) o) st.

Lemma add_obj_ok st used lc objs lv lv' c o : objs_ok st used lc objs lv -> c ∈ lc ->
  on_grid (ppg_slab st) c (c_sz (cache_at st c)) o -> (o ∉ objs c) -> (o ∉ lv'.*1) ->
  (forall x, x ∈ lv' -> x ∈ lv) -> NoDup lv'.*1 ->
  objs_ok (add_obj c o st) used lc (upd objs c (objs c ++ [o])) lv'.
Proof.
  intros Ho Hc Hg Hn Hnl Hsub Hnd.
  assert (o <> 0) as H0 by (eapply grid_nonzero; [done| |done]; by apply (oo_sz _ _ _ _ _ Ho)).
  destruct (rep_fill _ _ _ o (oo_rep _ _ _ _ _ Ho c Hc) Hn H0) as [Hr Hf].
  apply (objs_ok_update st used lc objs lv); [done|done|done| | | |done].
  - intros p Hp. apply Hf. list_elem.
  - intros x Hx. apply elem_of_app in Hx as [Hx|Hx]; [by apply (oo_grid _ _ _ _ _ Ho)|].
    apply list_elem_of_singleton in Hx as ->. done.
  - intros q sz Hq. destruct (oo_live _ _ _ _ _ Ho q sz (Hsub _ Hq)) as (c' & ? & ? & ? & Hqc).
    exists c'. split_and!; [done..|]. destruct (decide (c = c')) as [<-|Hne]; [|by rewrite upd_other].
    rewrite upd_same. intros [?|He%list_elem_of_singleton]%elem_of_app; [done|]. subst.
    apply Hnl, list_elem_of_fmap. by exists (o, c_sz (cache_at st c)).
Qed.

Lemma live_fresh st used lc objs lv c o : objs_ok st used lc objs lv -> c ∈ lc -> o ∈ objs c ->
  o ∉ lv.*1.
Proof.
  intros Ho Hc Hoc Hl. apply list_elem_of_fmap in Hl as ([q sz] & -> & Hq).
  destruct (oo_live _ _ _ _ _ Ho q sz Hq) as (c' & Hc' & -> & Hg & Hn). simpl in *.
  assert (c = c') as <-; [|done]. by eapply objs_disjoint.
Qed.

Lemma pop_obj_ok st used lc objs lv c x l : objs_ok st used lc objs lv -> c ∈ lc ->
  objs c = x :: l ->
  (pop_obj c st).1 = x /\
  objs_ok (pop_obj c st).2 used lc (upd objs c l) ((x, c_sz (cache_at st c)) :: lv).
Proof.
  intros Ho Hc Hx. pose proof (oo_rep _ _ _ _ _ Ho c Hc) as Hr. rewrite Hx in Hr.
  destruct (rep_pop_cons _ _ _ _ Hr) as (Hp & Hr' & Hf).
  pose proof (objs_nodup _ _ _ _ _ _ Ho Hc) as Hnd. rewrite Hx in Hnd. apply NoDup_cons in Hnd as [Hxl Hnd].
  unfold pop_obj. destruct (cdll_pop _ _) as [o r]. cbn [fst snd] in *. split; [done|].
  apply (objs_ok_update st used lc objs lv); [done|done|done| | | |].
  - intros p Hpl. apply Hf. rewrite Hx in Hpl. list_elem.
  - intros o' Ho'. apply (oo_grid _ _ _ _ _ Ho); [done|]. rewrite Hx. by right.
  - intros q sz Hq. apply elem_of_cons in Hq as [Hq|Hq].
    + simplify_eq. exists c. rewrite upd_same. split_and!; [done..| |done].
      apply (oo_grid _ _ _ _ _ Ho); [done|]. rewrite Hx. by left.
    + destruct (oo_live _ _ _ _ _ Ho q sz Hq) as (c' & ? & ? & ? & Hqc). exists c'.
      split_and!; [done..|]. destruct (decide (c = c')) as [<-|]; [|by rewrite upd_other].
      rewrite upd_same. intros Hql. apply Hqc. rewrite Hx. by right.
  - simpl. apply NoDup_cons. split; [|by apply (oo_nodup _ _ _ _ _ Ho)].
    eapply live_fresh; [done|done|]. rewrite Hx. by left.
Qed.

Lemma objs_ok_ext st used lc objs objs' lv : (forall c, c ∈ lc -> objs' c = objs c) ->
  objs_ok st used lc objs lv -> objs_ok st used lc objs' lv.
Proof.
  intros He [H1 H2 H3 H4 H5 H6 H7]. split; try done.
  - intros c Hc. rewrite He by done. by apply H3.
  - intros c o Hc. rewrite He by done. by apply H4.
  - intros q sz Hq. destruct (H5 q sz Hq) as (c & Hc & ? & ? & ?). exists c. by rewrite He.
Qed.

Lemma pop_obj_empty st used lc objs lv c : objs_ok st used lc objs lv -> c ∈ lc -> objs c = [] ->
  (pop_obj c st).1 = 0 /\ objs_ok (pop_obj c st).2 used lc objs lv.
Proof.
  intros Ho Hc Hx. pose proof (oo_rep _ _ _ _ _ Ho c Hc) as Hr. rewrite Hx in Hr.
  unfold pop_obj. rewrite (rep_pop_nil _ _ Hr). split; [done|]. cbn [fst snd].
  apply (objs_ok_ext _ _ _ (upd objs c [])).
  { intros c' _. unfold upd. case_decide; by subst. }
  apply (objs_ok_update st used lc objs lv); [done|done| | | | |by apply (oo_nodup _ _ _ _ _ Ho)].
  - destruct Hr as [_ Hr]. by split.
  - done.
  - intros o Ho'. by apply elem_of_nil in Ho'.
  - intros q sz Hq. destruct (oo_live _ _ _ _ _ Ho q sz Hq) as (c' & ? & ? & ? & Hqc). exists c'.
    split_and!; [done..|]. unfold upd. case_decide; [apply not_elem_of_nil|done].
Qed.

(** *** Growing a cache *)

(** Fields an object operation leaves alone. *)
Record same_lists st st' : Prop := {
  sm_lnk : sl_lnk st' = sl_lnk st;
  sm_used : sl_used st' = sl_used st;
  sm_avl : sl_avl st' = sl_avl st;
  sm_nr : sl_nr st' = sl_nr st;
  sm_sz c : c_sz (cache_at st' c) = c_sz (cache_at st c);
}.

Lemma same_lists_refl st : same_lists st st.
Proof. by split. Qed.
Lemma same_lists_trans st1 st2 st3 : same_lists st1 st2 -> same_lists st2 st3 -> same_lists st1 st3.
Proof. intros [] []. split; intros; etrans; eauto. Qed.
Lemma same_lists_objs c r st : same_lists st (set_objs c r st).
Proof. split; try done. intros. apply sz_set_objs. Qed.
Lemma same_lists_set_nr c n st : same_lists st (set_cache_nr c n st).
Proof. split; try done. intros. apply sz_set_nr. Qed.

Lemma objs_ok_set_nr st used lc objs lv c n : objs_ok st used lc objs lv ->
  objs_ok (set_cache_nr c n st) used lc objs lv.
Proof.
  intros [H1 H2 H3 H4 H5 H6 H7]. split; simpl; try done.
  - intros c' Hc. rewrite sz_set_nr. by apply H2.
  - intros c' Hc. rewrite obj_set_nr. by apply H3.
  - intros c' o Hc Ho. rewrite sz_set_nr. by apply H4.
  - intros q s Hq. destruct (H5 q s Hq) as (c' & ? & ? & ? & ?). exists c'. by rewrite sz_set_nr.
Qed.

Lemma objs_ok_alloc st used lc objs lv free : objs_ok st used lc objs lv ->
  forall al' used', alloc_rep al' free used' -> used ⊆ used' ->
  objs_ok (with_al al' st) used' lc objs lv.
Proof.
  intros [H1 H2 H3 H4 H5 H6 H7] al' used' Hal Hsub. split; simpl; try done; [by exists free|].
  intros n c Hn. destruct (H7 n c Hn). split; [by apply Hsub|done].
Qed.

Lemma page_nr_page n : 0 < n < 2 ^ 40 -> page_nr (n * 4096) = n.
Proof.
  intros Hn. unfold page_nr. rewrite pg_nr_div by (unfold PG_4K_SHIFT; lia).
  change (2 ^ PG_4K_SHIFT) with 4096. apply Z.div_mul. lia.
Qed.

Lemma req_page_ok c st used lc objs lv : objs_ok st used lc objs lv ->
  let (a, st') := slab_req_page c st in
  exists used', used ⊆ used' /\ objs_ok st' used' lc objs lv /\ same_lists st st' /\
    (forall c', cache_at st' c' = cache_at st c') /\ ppg_slab st ⊆ ppg_slab st' /\
    (a = 0 \/ exists n, a = n * 4096 /\ a <> 0 /\ ppg_slab st' !! n = Some c /\ ppg_slab st !! n = None).
Proof.
  intros Ho. destruct (oo_al _ _ _ _ _ Ho) as [free Hal]. unfold slab_req_page.
  destruct free as [|p free].
  { rewrite (pop_empty _ _ Hal). exists used. simpl. split_and!; try done; [|auto].
    by eapply objs_ok_alloc. }
  destruct (alloc_pages _ _ _ Hal p) as (n & -> & Hn); [left; by left|].
  destruct (alloc_disjoint _ _ _ Hal) as [_ Hdisj].
  destruct (pop_page _ _ _ _ Hal) as [Hp Hal']. destruct (pa_pop (sl_al st)) as [addr al].
  cbn [fst snd] in *. subst addr. rewrite c_true_ne by lia.
  assert (objs_ok (with_al al st) ({[n * 4096]} ∪ used) lc objs lv) as Ho' by
    (eapply objs_ok_alloc; [done|done|apply union_subseteq_r]).
  unfold ppg_get_desc. rewrite page_nr_page by done. cbn [with_al ppg_nr].
  destruct (n <? ppg_nr st) eqn:Hlt.
  2: { exists ({[n * 4096]} ∪ used). split_and!; try done; [apply union_subseteq_r|by auto]. }
  assert (ppg_slab st !! n = None) as Hnone.
  { destruct (ppg_slab st !! n) as [c'|] eqn:He; [|done].
    apply (oo_pages _ _ _ _ _ Ho) in He as [He _]. exfalso. by apply (Hdisj (n * 4096)); [left|]. }
  assert (forall c' sz o, on_grid (ppg_slab st) c' sz o -> on_grid (<[n:=c]> (ppg_slab st)) c' sz o) as Hg.
  { intros c' sz o (n' & k & ? & ? & ? & Hn'). exists n', k. split_and!; try done.
    rewrite lookup_insert_ne; [done|]. intros <-. congruence. }
  exists ({[n * 4096]} ∪ used). split_and!; try done; [apply union_subseteq_r| | |].
  - destruct Ho' as [H1 H2 H3 H4 H5 H6 H7]. split; simpl in *; try done; [auto| |].
    + intros q s Hq. destruct (H5 q s Hq) as (c' & ? & ? & ? & ?). exists c'. auto.
    + intros n' c' Hn'. destruct (decide (n = n')) as [<-|].
      * split; [apply elem_of_union_l; by apply elem_of_singleton|by apply Z.ltb_lt].
      * rewrite lookup_insert_ne in Hn' by done. by apply (H7 n' c').
  - by apply insert_subseteq.
  - right. exists n. simpl. rewrite lookup_insert_eq. split_and!; [done|lia|done|done].
Qed.

(** The objects of one page, in order. *)
Definition page_objs (addr sz : Z) (k : nat) : list Z := (fun i => addr + i * sz) <$> seqZ 0 (Z.of_nat k).

Lemma fill_page_ok st used lc objs lv c n (k : nat) : objs_ok st used lc objs lv -> c ∈ lc ->
  ppg_slab st !! n = Some c ->
  (forall o, o ∈ objs c -> o / 4096 <> n) -> (forall o, o ∈ lv.*1 -> o / 4096 <> n) ->
  Z.of_nat k * c_sz (cache_at st c) <= 4096 ->
  let st' := slab_fill_page c (n * 4096) (Z.of_nat k) (c_sz (cache_at st c)) st in
  objs_ok st' used lc (upd objs c (objs c ++ page_objs (n * 4096) (c_sz (cache_at st c)) k)) lv /\
  same_lists st st' /\ (forall c', c_nr (cache_at st' c') = c_nr (cache_at st c')) /\
  ppg_slab st' = ppg_slab st.
Proof.
  intros Ho Hc Hn Hobj Hlv Hk. unfold slab_fill_page, page_objs.
  pose proof (oo_sz _ _ _ _ _ Ho c Hc) as [Hsz _]. set (sz := c_sz (cache_at st c)) in *.
  induction k as [|k IH].
  { simpl. rewrite app_nil_r. split_and!; try done.
    eapply objs_ok_ext; [|done]. intros c' _. unfold upd. case_decide; by subst. }
  destruct IH as (Ho' & Hsm & Hnr & Hpg); [lia|].
  replace (Z.of_nat (S k)) with (Z.of_nat k + 1) in * by lia. rewrite seqZ_app by lia.
  rewrite fold_left_app, fmap_app. change (seqZ (0 + Z.of_nat k) 1) with [0 + Z.of_nat k].
  rewrite Z.add_0_l. cbn [fold_left fmap list_fmap].
  set (st1 := fold_left _ _ st) in *. set (o := n * 4096 + Z.of_nat k * sz).
  assert (on_grid (ppg_slab st1) c (c_sz (cache_at st1 c)) o) as Hg.
  { rewrite (sm_sz _ _ Hsm), Hpg. exists n, (Z.of_nat k). split_and!; [done|lia|lia|done]. }
  assert (o / 4096 = n) as Hdiv by (apply grid_page; lia).
  set (l := objs c ++ _) in *.
  assert (o ∉ upd objs c l c) as Hol.
  { rewrite upd_same. unfold l. intros [Hin|Hin]%elem_of_app; [by apply (Hobj o)|].
    apply list_elem_of_fmap in Hin as (i & Hi & Hik%elem_of_seqZ). unfold o in Hi. nia. }
  assert (o ∉ lv.*1) as Hlo by (intros Hin; by apply (Hlv o)).
  split_and!.
  - eapply objs_ok_ext;
      [|by apply (add_obj_ok st1 used lc (upd objs c l) lv lv c o Ho' Hc Hg Hol Hlo); [|apply (oo_nodup _ _ _ _ _ Ho)]].
    intros c' _. unfold upd. case_decide; [|done]. rewrite decide_True by done.
    unfold l. by rewrite <- app_assoc.
  - eapply same_lists_trans; [exact Hsm|apply same_lists_objs].
  - intros c'. rewrite nr_set_objs. apply Hnr.
  - exact Hpg.
Qed.

Lemma page_objs_length addr sz k : length (page_objs addr sz k) = k.
Proof. unfold page_objs. rewrite length_fmap, length_seqZ. lia. Qed.

Lemma grow_pages_ok c lc (pages : nat) : c ∈ lc -> forall st used objs lv nr,
  objs_ok st used lc objs lv -> cnt_ok st lc objs ->
  let sz := c_sz (cache_at st c) in
  let (r, st') := slab_grow_pages pages c (PAGE_SIZE / sz) nr st in
  exists used' l, used ⊆ used' /\ objs_ok st' used' lc (upd objs c (objs c ++ l)) lv /\
    cnt_ok st' lc (upd objs c (objs c ++ l)) /\ same_lists st st' /\ ppg_slab st ⊆ ppg_slab st' /\
    r = nr + Z.of_nat (length l).
Proof.
  intros Hc. induction pages as [|pages IH]; intros st used objs lv nr Ho Hcnt sz; cbn [slab_grow_pages].
  { exists used, []. rewrite app_nil_r. simpl. split_and!; try done; [| |lia].
    - eapply objs_ok_ext; [|done]. intros c' _. unfold upd. case_decide; by subst.
    - intros c' Hc'. unfold upd. case_decide; subst; by apply Hcnt. }
  pose proof (req_page_ok c st used lc objs lv Ho) as Hreq.
  destruct (slab_req_page c st) as [a st1].
  destruct Hreq as (used1 & Hsub & Ho1 & Hsm1 & Hca & Hown1 & Ha).
  assert (cnt_ok st1 lc objs) as Hcnt1 by (intros c' Hc'; rewrite Hca; by apply Hcnt).
  destruct Ha as [->|(n & -> & Hnz & Hown & Hnone)].
  { cbn [negb]. exists used1, []. rewrite app_nil_r. simpl. split_and!; try done; [| |lia].
    - eapply objs_ok_ext; [|done]. intros c' _. unfold upd. case_decide; by subst.
    - intros c' Hc'. unfold upd. case_decide; subst; by apply Hcnt1. }
  rewrite c_true_ne by done. cbn [negb].
  pose proof (oo_sz _ _ _ _ _ Ho c Hc) as [Hsz _]. fold sz in Hsz.
  assert (c_sz (cache_at st1 c) = sz) as Hsz1 by (by rewrite Hca).
  rewrite Hsz1. set (np := Z.to_nat (PAGE_SIZE / sz)).
  change PAGE_SIZE with 4096 in *.
  assert (2 <= 4096 / sz) by (apply Z.div_le_lower_bound; lia).
  assert (sz * (4096 / sz) <= 4096) by (apply Z.mul_div_le; lia).
  assert (Hnp : Z.of_nat np = 4096 / sz) by (unfold np; lia).
  assert (forall sz' o, on_grid (ppg_slab st) c sz' o -> 16 <= sz' -> o / 4096 <> n) as Hpage.
  { intros sz' o (n' & k & -> & ? & ? & Hn') ? Hdiv. rewrite grid_page in Hdiv by done. congruence. }
  assert (forall c' sz' o, on_grid (ppg_slab st) c' sz' o -> 16 <= sz' -> o / 4096 <> n) as Hpage'.
  { intros c' sz' o (n' & k & -> & ? & ? & Hn') ? Hdiv. rewrite grid_page in Hdiv by done. congruence. }
  destruct (fill_page_ok st1 used1 lc objs lv c n np Ho1 Hc Hown) as (Ho2 & Hsm2 & Hnr2 & Hpg2).
  { intros o Hoc. eapply Hpage; [by eapply oo_grid|]. by apply (oo_sz _ _ _ _ _ Ho). }
  { intros o Hov. apply list_elem_of_fmap in Hov as ([q s] & -> & Hq).
    destruct (oo_live _ _ _ _ _ Ho q s Hq) as (c' & Hc' & -> & Hg & _).
    eapply Hpage'; [done|]. by apply (oo_sz _ _ _ _ _ Ho). }
  { rewrite Hsz1. lia. }
  rewrite Hsz1, Hnp in *.
  set (st2 := slab_fill_page _ _ _ _ st1) in *. set (l0 := page_objs _ _ _) in *.
  set (st3 := set_cache_nr c _ st2).
  assert (c_sz (cache_at st3 c) = sz) as Hsz3.
  { unfold st3. by rewrite sz_set_nr, (sm_sz _ _ Hsm2), Hsz1. }
  assert (same_lists st st3) as Hsm3.
  { eapply same_lists_trans; [exact Hsm1|]. eapply same_lists_trans; [exact Hsm2|apply same_lists_set_nr]. }
  assert (cnt_ok st3 lc (upd objs c (objs c ++ l0))) as Hcnt3.
  { intros c' Hc'. unfold st3. rewrite nr_set_nr, Hnr2. case_decide as He.
    - subst c'. rewrite upd_same, Hcnt1 by done. rewrite length_app, Nat2Z.inj_add.
      unfold l0. rewrite page_objs_length, Hnp. unfold wrap64, wrap. by rewrite Zplus_mod_idemp_l.
    - rewrite upd_other, Hnr2 by done. by apply Hcnt1. }
  specialize (IH st3 used1 _ lv (nr + 4096 / sz) (objs_ok_set_nr _ _ _ _ _ c _ Ho2) Hcnt3).
  cbv zeta in IH. rewrite Hsz3 in IH.
  destruct (slab_grow_pages pages c _ _ st3) as [r st4].
  destruct IH as (used' & l & Hsub' & Ho4 & Hcnt4 & Hsm4 & Hown4 & Hr). rewrite upd_same in *.
  assert (forall c', c' ∈ lc -> upd objs c (objs c ++ l0 ++ l) c' = upd (upd objs c (objs c ++ l0)) c ((objs c ++ l0) ++ l) c') as He.
  { intros c' _. unfold upd. case_decide; [by rewrite app_assoc|done]. }
  exists used', (l0 ++ l). split_and!.
  - etrans; done.
  - by eapply objs_ok_ext.
  - intros c' Hc'. rewrite He by done. by apply Hcnt4.
  - by eapply same_lists_trans.
  - etrans; [exact Hown1|]. rewrite <- Hpg2. exact Hown4.
  - rewrite Hr, length_app, Nat2Z.inj_add. unfold l0. rewrite page_objs_length, Hnp. lia.
Qed.

Lemma grow_ok c lc st used objs lv : objs_ok st used lc objs lv -> cnt_ok st lc objs -> c ∈ lc -> c <> 0 ->
  let (r, st') := slab_grow c 1 st in
  exists used' l, used ⊆ used' /\ objs_ok st' used' lc (upd objs c (objs c ++ l)) lv /\
    cnt_ok st' lc (upd objs c (objs c ++ l)) /\ same_lists st st' /\ ppg_slab st ⊆ ppg_slab st' /\
    r = Z.of_nat (length l).
Proof.
  intros Ho Hcnt Hc Hnz. unfold slab_grow. rewrite (c_true_ne c) by done.
  change (c_true 1) with true. cbn [negb orb].
  pose proof (grow_pages_ok c lc (Z.to_nat 1) Hc st used objs lv 0 Ho Hcnt) as Hg. cbv zeta in Hg.
  destruct (oo_sz _ _ _ _ _ Ho c Hc) as [Hsz _].
  rewrite Z.mul_1_r, wrap_id by (split; lia). rewrite Z.shiftr_div_pow2, Z.div_small by lia.
  change PAGE_SIZE with 4096 in *. rewrite Z.mod_small by lia. rewrite c_true_ne by lia. exact Hg.
Qed.

(** *** The cache lists *)

(** Nothing of the objects changed. *)
Record same_objs st st' : Prop := {
  so_lnk : ob_lnk st' = ob_lnk st;
  so_slab : ppg_slab st' = ppg_slab st;
  so_ppg : ppg_nr st' = ppg_nr st;
}.

Lemma objs_ok_same st st' used used' lc objs lv : objs_ok st used lc objs lv -> same_objs st st' ->
  (forall c, c ∈ lc -> cache_at st' c = cache_at st c) ->
  (exists free, alloc_rep (sl_al st') free used') -> used ⊆ used' -> objs_ok st' used' lc objs lv.
Proof.
  intros [H1 H2 H3 H4 H5 H6 H7] [E1 E2 E3] Hca Hal Hsub. split; rewrite ?E1, ?E2, ?E3; try done.
  - intros c Hc. rewrite Hca by done. by apply H2.
  - intros c Hc. rewrite Hca by done. by apply H3.
  - intros c o Hc. rewrite Hca by done. by apply H4.
  - intros q s Hq. destruct (H5 q s Hq) as (c & Hc & ? & ? & ?). exists c. by rewrite Hca.
  - intros n c Hn. destruct (H7 n c Hn). split; [by apply Hsub|done].
Qed.

Lemma ssorted_mono {B} (R R' : B -> B -> Prop) l : (forall x y, x ∈ l -> y ∈ l -> R x y -> R' x y) ->
  StronglySorted R l -> StronglySorted R' l.
Proof.
  intros Hr. induction 1 as [|x l Hs IH Hf]; constructor.
  - apply IH. intros y z Hy Hz. apply Hr; by right.
  - apply Forall_forall. intros y Hy. rewrite Forall_forall in Hf.
    apply Hr; [by left|by right|by apply Hf].
Qed.

Lemma list_ok_same st st' used used' lu la : list_ok st used lu la -> same_lists st st' ->
  used ⊆ used' -> list_ok st' used' lu la.
Proof.
  intros [H1 H2 H3 H4 H5 H6] [E1 E2 E3 E4 E5] Hsub. split; rewrite ?E1, ?E2, ?E3, ?E4; try done.
  - eapply ssorted_mono; [|exact H5]. intros x y _ _. by rewrite !E5.
  - intros c Hc. destruct (H6 c Hc) as (n & Hn & ?). exists n. split; [by apply Hsub|done].
Qed.

(** The caches in use keep their sizes. *)
Definition sizes_kept st st' (lu : list Z) : Prop :=
  forall c, c ∈ lu -> c_sz (cache_at st' c) = c_sz (cache_at st c).

(** One step of the initialisation of a page of spare caches. *)
Lemma list_step_ok st used lu la objs lv p i n : objs_ok st used lu objs lv -> cnt_ok st lu objs ->
  list_ok st used lu la -> (p + i * sizeof_slab ∉ lu ++ la) -> n * 4096 ∈ used ->
  n * 4096 <= p + i * sizeof_slab < n * 4096 + 4096 ->
  let st' := slab_list_step p st i in
  objs_ok st' used lu objs lv /\ cnt_ok st' lu objs /\ list_ok st' used lu (la ++ [p + i * sizeof_slab]) /\
  sl_al st' = sl_al st /\ sizes_kept st st' lu.
Proof.
  intros Ho Hcnt [H1 H2 H3 H4 H5 H6] Hn Hu Hb. unfold slab_list_step. cbv zeta.
  set (c := p + i * sizeof_slab) in *.
  assert (c <> 0) as Hc0.
  { destruct (oo_al _ _ _ _ _ Ho) as [free Hal].
    destruct (alloc_pages _ _ _ Hal (n * 4096)) as (n' & He & Hn' & _); [by right|]. lia. }
  assert ((c ∉ lu) /\ (c ∉ la)) as [Hclu Hcla] by (split; list_elem).
  assert (forall c', c' ∈ lu -> cache_at (slab_setup c 0 st) c' = cache_at st c') as Hca.
  { intros c' Hc'. unfold slab_setup. rewrite cache_at_set_cache. case_decide; [by subst|done]. }
  destruct (rep_fill _ _ _ c H2 Hcla Hc0) as [Hr Hf].
  split_and!; [| | |done|by intros c' Hc'; simpl; rewrite <- (Hca c' Hc')].
  - eapply objs_ok_same; [exact Ho|by split|exact Hca|by apply (oo_al _ _ _ _ _ Ho)|done].
  - intros c' Hc'. rewrite <- (Hcnt c' Hc'). f_equal. apply Hca, Hc'.
  - split; simpl; try done.
    + eapply rep_frame; [exact Hf| |exact H1]. intros x Hx Hx'.
      apply NoDup_app in H3 as (_ & Hd & _). apply elem_of_cons in Hx' as [->|Hx']; [done|].
      by apply (Hd x).
    + rewrite app_assoc. apply NoDup_app. split_and!; [done| |apply NoDup_singleton].
      intros x Hx Hxc%list_elem_of_singleton. by subst.
    + eapply ssorted_mono; [|exact H5]. intros x y Hx Hy. simpl.
      change (cache_at (set_avl _ _)) with (cache_at (slab_setup c 0 st)). by rewrite !Hca.
    + intros c' Hc'. rewrite app_assoc in Hc'. apply elem_of_app in Hc' as [Hc'|Hc']; [by apply H6|].
      apply list_elem_of_singleton in Hc' as ->. by exists n.
Qed.

Definition spare (p : Z) (k : nat) : list Z := (fun i => p + i * sizeof_slab) <$> seqZ 0 (Z.of_nat k).

Lemma list_steps_ok st used lu la objs lv n (k : nat) : objs_ok st used lu objs lv -> cnt_ok st lu objs ->
  list_ok st used lu la -> n * 4096 ∈ used -> Z.of_nat k <= 102 ->
  (forall c, c ∈ lu ++ la -> c < n * 4096 \/ n * 4096 + 4096 <= c) ->
  let st' := fold_left (slab_list_step (n * 4096)) (seqZ 0 (Z.of_nat k)) st in
  objs_ok st' used lu objs lv /\ cnt_ok st' lu objs /\ list_ok st' used lu (la ++ spare (n * 4096) k) /\
  sl_al st' = sl_al st /\ sizes_kept st st' lu.
Proof.
  intros Ho Hcnt Hl Hu Hk Hout. induction k as [|k IH].
  { unfold spare. simpl. by rewrite app_nil_r. }
  destruct IH as (Ho' & Hcnt' & Hl' & Hal & Hkept); [lia|].
  unfold spare in *. replace (Z.of_nat (S k)) with (Z.of_nat k + 1) by lia. rewrite seqZ_app by lia.
  rewrite fold_left_app, fmap_app. change (seqZ (0 + Z.of_nat k) 1) with [0 + Z.of_nat k].
  rewrite Z.add_0_l. cbn [fold_left fmap list_fmap]. rewrite app_assoc.
  set (st1 := fold_left _ _ st) in *.
  destruct (list_step_ok st1 used lu _ objs lv (n * 4096) (Z.of_nat k) n Ho' Hcnt' Hl') as (? & ? & ? & ? & Hkept').
  - rewrite app_assoc. intros [Hin|Hin]%elem_of_app; unfold sizeof_slab in *.
    + apply Hout in Hin. lia.
    + apply list_elem_of_fmap in Hin as (i & Hi & Hik%elem_of_seqZ). lia.
  - done.
  - unfold sizeof_slab. lia.
  - split_and!; try done. intros c Hc. by rewrite Hkept', Hkept.
Qed.

(** What every operation on the lists gives back: the objects are the same,
    the spare list and the pages in use may have grown. *)
Definition lists_grown st st' (used used' : gset Z) lu objs lv la' : Prop :=
  sizes_kept st st' lu /\ used ⊆ used' /\ objs_ok st' used' lu objs lv /\ cnt_ok st' lu objs /\ list_ok st' used' lu la'.

Lemma list_grow_ok st used lu objs lv : objs_ok st used lu objs lv -> cnt_ok st lu objs ->
  list_ok st used lu [] ->
  let (r, st') := slab_list_grow st in
  exists used' la', lists_grown st st' used used' lu objs lv la' /\ (r <> 0 -> la' <> []).
Proof.
  intros Ho Hcnt Hl. destruct (oo_al _ _ _ _ _ Ho) as [free Hal]. unfold slab_list_grow.
  destruct free as [|p free].
  { rewrite (pop_empty _ _ Hal). cbn [c_true Z.eqb negb]. change (negb (c_true 0)) with true. cbv iota.
    exists used, []. unfold lists_grown. split_and!; try done; [by eapply objs_ok_alloc| ].
    by eapply list_ok_same. }
  destruct (alloc_pages _ _ _ Hal p) as (n & -> & Hn); [left; by left|].
  destruct (alloc_disjoint _ _ _ Hal) as [_ Hdisj].
  destruct (pop_page _ _ _ _ Hal) as [Hp Hal']. destruct (pa_pop (sl_al st)) as [addr al].
  cbn [fst snd] in *. subst addr. rewrite c_true_ne by lia. cbn [negb].
  change (PAGE_SIZE / sizeof_slab) with (Z.of_nat 102).
  set (used' := {[n * 4096]} ∪ used) in *.
  assert (used ⊆ used') as Hsub by apply union_subseteq_r.
  assert (objs_ok (with_al al st) used' lu objs lv) as Ho' by (by eapply objs_ok_alloc).
  assert (list_ok (with_al al st) used' lu []) as Hl' by (by eapply list_ok_same).
  destruct (list_steps_ok (with_al al st) used' lu [] objs lv n 102 Ho' Hcnt Hl') as (H1 & H2 & H3 & _ & H4).
  - apply elem_of_union_l. by apply elem_of_singleton.
  - lia.
  - intros c Hc. destruct (lo_cells _ _ _ _ Hl c Hc) as (n' & Hn' & ?).
    destruct (decide (n' = n)) as [->|]; [|lia]. exfalso. by apply (Hdisj (n * 4096)); [left|].
  - eexists used', _. unfold lists_grown. split_and!; [exact H4|done|exact H1|exact H2|exact H3|].
    intros _. done.
Qed.

Lemma rep_nil_inv h l : rep h 0 l -> l = [].
Proof. intros [He (_ & H0 & _)]. destruct l as [|x l]; [done|]. simpl in He. subst. exfalso. apply H0. by left. Qed.

Lemma rep_nonnil h lst l : rep h lst l -> lst <> 0 -> exists l', l = lst :: l'.
Proof. intros [-> _] Hne. destruct l as [|x l]; [done|]. by exists l. Qed.

(** A spare cache taken off its list. *)
Definition taken (c : Z) (used : gset Z) (lu la : list Z) : Prop :=
  c <> 0 /\ (c ∉ lu ++ la) /\ exists n, n * 4096 ∈ used /\ n * 4096 <= c < n * 4096 + 4096.

Lemma alloc_ok st used lu la objs lv : objs_ok st used lu objs lv -> cnt_ok st lu objs ->
  list_ok st used lu la ->
  let (c, st') := slab_alloc st in
  exists used' la', lists_grown st st' used used' lu objs lv la' /\ (c = 0 \/ taken c used' lu la').
Proof.
  intros Ho Hcnt Hl. unfold slab_alloc.
  assert (exists st1 (ok : bool), (if negb (c_true (sl_avl st)) then let (r, st) := slab_list_grow st in (c_true r, st) else (true, st)) = (ok, st1) /\
    exists used1 la1, lists_grown st st1 used used1 lu objs lv la1) as (st1 & ok & -> & used1 & la1 & Hkept & Hsub & Ho1 & Hcnt1 & Hl1).
  { destruct (negb (c_true (sl_avl st))) eqn:Hav.
    - unfold c_true in Hav. rewrite negb_involutive in Hav. apply Z.eqb_eq in Hav.
      pose proof (lo_avl _ _ _ _ Hl) as Hla. rewrite Hav in Hla. apply rep_nil_inv in Hla as ->.
      pose proof (list_grow_ok st used lu objs lv Ho Hcnt Hl) as Hg.
      destruct (slab_list_grow st) as [r st1]. destruct Hg as (used1 & la1 & Hg & _).
      exists st1, (c_true r). split; [done|]. by exists used1, la1.
    - do 2 eexists. split; [done|]. exists used, la. done. }
  destruct ok; [|exists used1, la1; split; [done|by left]].
  pose proof (lo_avl _ _ _ _ Hl1) as Hla. destruct la1 as [|c la1].
  - rewrite (rep_pop_nil _ _ Hla). exists used1, []. split; [|by left].
    destruct Hla as [Hav _]. simpl in Hav. destruct Hl1 as [H1 H2 H3 H4 H5 H6].
    unfold lists_grown. split_and!; [exact Hkept|done|by eapply objs_ok_same; [..|apply (oo_al _ _ _ _ _ Ho1)|]|done|].
    split; simpl; try done. by rewrite <- Hav.
  - destruct (rep_pop_cons _ _ _ _ Hla) as (Hc & Hr & Hf). destruct (cdll_pop _ _) as [c' r].
    cbn [fst snd] in *. subst c'. exists used1, la1. destruct Hl1 as [H1 H2 H3 H4 H5 H6].
    pose proof H3 as Hnd. rewrite <- Permutation_middle in H3. apply NoDup_cons in H3 as [Hcn H3].
    split.
    + unfold lists_grown. split_and!; [exact Hkept|done|by eapply objs_ok_same; [..|apply (oo_al _ _ _ _ _ Ho1)|]|done|].
      split; simpl; try done.
      * eapply rep_frame; [exact Hf| |exact H1]. intros x Hx Hx'.
        apply NoDup_app in Hnd as (_ & Hd & _). apply (Hd x Hx). by right.
      * intros x Hx. apply H6. apply elem_of_app in Hx as [?|?]; apply elem_of_app; [by left|right; by right].
    + right. split_and!; [by destruct Hla as [_ ?%ring_nonzero]|done|].
      apply H6. apply elem_of_app. right. by left.
Qed.

(** *** A new cache *)

Definition size_ok (sz : Z) : Prop := 16 <= sz <= 2048 /\ (8 | sz).

Lemma setup_ok st used lu la objs lv c sz : objs_ok st used lu objs lv -> cnt_ok st lu objs ->
  list_ok st used lu la -> (c ∉ lu) -> size_ok sz ->
  objs_ok (slab_setup c sz st) used (c :: lu) (upd objs c []) lv /\
  cnt_ok (slab_setup c sz st) (c :: lu) (upd objs c []) /\
  list_ok (slab_setup c sz st) used lu la /\ c_sz (cache_at (slab_setup c sz st) c) = sz.
Proof.
  intros [O1 O2 O3 O4 O5 O6 O7] Hcnt [H1 H2 H3 H4 H5 H6] Hc Hsz.
  assert (forall c', c' ∈ lu -> cache_at (slab_setup c sz st) c' = cache_at st c') as Hca.
  { intros c' Hc'. unfold slab_setup. rewrite cache_at_set_cache. case_decide; [by subst|done]. }
  assert (cache_at (slab_setup c sz st) c = mk_cache 0 sz 0) as Hcc.
  { unfold slab_setup. rewrite cache_at_set_cache. by rewrite decide_True. }
  assert (forall c', c' ∈ lu -> upd objs c [] c' = objs c') as Hup.
  { intros c' Hc'. apply upd_other. by intros ->. }
  split_and!; [| | |by rewrite Hcc].
  - split; simpl; try done.
    + intros c' [->|Hc']%elem_of_cons; [by rewrite Hcc|]. rewrite Hca by done. by apply O2.
    + intros c' [->|Hc']%elem_of_cons; [rewrite Hcc, upd_same; apply rep_nil|].
      rewrite Hca, Hup by done. by apply O3.
    + intros c' o [->|Hc']%elem_of_cons; [rewrite upd_same; by intros ?%elem_of_nil|].
      rewrite Hca, Hup by done. by apply O4.
    + intros q s Hq. destruct (O5 q s Hq) as (c' & Hc' & ? & ? & ?). exists c'.
      rewrite Hca, Hup by done. split_and!; try done. by right.
  - intros c' [->|Hc']%elem_of_cons; [by rewrite Hcc, upd_same|]. rewrite Hca, Hup by done. by apply Hcnt.
  - split; simpl; try done. eapply ssorted_mono; [|exact H5]. intros x y Hx Hy. by rewrite !Hca.
Qed.

(** Forgetting a cache that got no objects. *)
Lemma objs_ok_restrict st used lu objs lv c : objs_ok st used (c :: lu) objs lv ->
  (forall q s, (q, s) ∈ lv -> exists c', c' ∈ lu /\ 16 <= s /\ on_grid (ppg_slab st) c' s q) ->
  objs_ok st used lu objs lv.
Proof.
  intros Ho Hlv. split; try apply Ho.
  - intros c' Hc'. apply (oo_sz _ _ _ _ _ Ho). by right.
  - intros c' Hc'. apply (oo_rep _ _ _ _ _ Ho). by right.
  - intros c' o Hc'. apply (oo_grid _ _ _ _ _ Ho). by right.
  - intros q s Hq. destruct (oo_live _ _ _ _ _ Ho q s Hq) as (c1 & Hc1 & Hs & Hg & Hn).
    destruct (Hlv q s Hq) as (c2 & Hc2 & H16 & Hg2).
    assert (c1 = c2) as -> by (eapply grid_owner; [exact H16|exact H16|done|done]). eauto.
Qed.

Lemma grid_mono owner owner' c sz o : owner ⊆ owner' -> on_grid owner c sz o -> on_grid owner' c sz o.
Proof.
  intros Hs (n & k & ? & ? & ? & Hn). exists n, k. split_and!; try done. by eapply lookup_weaken.
Qed.

(** The cache [c] has objects of size [sz] and is on no list. *)
Definition created st st' (c sz : Z) used (lu la : list Z) objs objs' lv : Prop :=
  sizes_kept st st' lu /\ taken c used lu la /\ objs_ok st' used (c :: lu) objs' lv /\ cnt_ok st' (c :: lu) objs' /\
  list_ok st' used lu la /\ c_sz (cache_at st' c) = sz /\ objs' c <> [] /\
  (forall c', c' ∈ lu -> objs' c' = objs c').

Lemma create_ok st used lu la objs lv sz : objs_ok st used lu objs lv -> cnt_ok st lu objs ->
  list_ok st used lu la -> size_ok sz ->
  let (c, st') := slab_create sz 1 st in
  exists used' la' objs', used ⊆ used' /\
    ((c = 0 /\ lists_grown st st' used used' lu objs lv la') \/ created st st' c sz used' lu la' objs objs' lv).
Proof.
  intros Ho Hcnt Hl Hsz. unfold slab_create.
  pose proof (alloc_ok st used lu la objs lv Ho Hcnt Hl) as Ha. destruct (slab_alloc st) as [c st1].
  destruct Ha as (used1 & la1 & (Hkept1 & Hsub1 & Ho1 & Hcnt1 & Hl1) & Hc).
  destruct Hc as [->|(Hc0 & Hcn & Hcell)].
  { exists used1, la1, objs. split; [done|]. left. done. }
  rewrite c_true_ne by done. cbn [negb].
  assert ((c ∉ lu) /\ (c ∉ la1)) as [Hclu Hcla] by (split; list_elem).
  destruct (setup_ok st1 used1 lu la1 objs lv c sz Ho1 Hcnt1 Hl1 Hclu Hsz) as (Ho2 & Hcnt2 & Hl2 & Hsz2).
  set (st2 := slab_setup c sz st1) in *.
  assert (ppg_slab st2 = ppg_slab st1) as Hpg2 by done.
  pose proof (grow_ok c (c :: lu) st2 used1 _ lv Ho2 Hcnt2 (list_elem_of_here c lu) Hc0) as Hg.
  destruct (slab_grow c 1 st2) as [r st3].
  destruct Hg as (used3 & l & Hsub3 & Ho3 & Hcnt3 & Hsm3 & Hpg3 & ->). rewrite upd_same in *. cbn [app] in *.
  assert (list_ok st3 used3 lu la1) as Hl3 by (by eapply list_ok_same).
  assert (forall c', c' ∈ lu -> upd (upd objs c []) c l c' = objs c') as Hup.
  { intros c' Hc'. rewrite !upd_other; [done|by intros ->..]. }
  assert (sizes_kept st st3 lu) as Hkept3.
  { intros c' Hc'. rewrite (sm_sz _ _ Hsm3). unfold st2, slab_setup. rewrite cache_at_set_cache.
    rewrite decide_False by (by intros ->). by apply Hkept1. }
  destruct Hcell as (n & Hn & Hb).
  assert (n * 4096 ∈ used3) as Hn3 by (by apply Hsub3).
  destruct l as [|o l].
  - cbn [length negb c_true]. change (negb (c_true (Z.of_nat 0))) with true. cbv iota.
    exists used3, (la1 ++ [c]), objs. split; [by etrans|]. left. split; [done|].
    assert (objs_ok st3 used3 lu objs lv) as Ho4.
    { eapply objs_ok_ext; [intros c' Hc'; symmetry; by apply Hup|].
      apply (objs_ok_restrict _ _ _ _ _ c Ho3). intros q s Hq.
      destruct (oo_live _ _ _ _ _ Ho1 q s Hq) as (c' & Hc' & Hs & Hgr & _). exists c'.
      split_and!; [done| |eapply grid_mono; [|exact Hgr]; by rewrite <- Hpg2].
      rewrite Hs. by apply (oo_sz _ _ _ _ _ Ho1). }
    assert (cnt_ok st3 lu objs) as Hcnt4.
    { intros c' Hc'. rewrite Hcnt3 by (by right). by rewrite Hup. }
    destruct Hl3 as [H1 H2 H3 H4 H5 H6].
    destruct (rep_fill _ _ _ c H2 Hcla Hc0) as [Hr Hf].
    unfold lists_grown. split_and!; [exact Hkept3|by etrans| |done|].
    + eapply objs_ok_same; [exact Ho4|by split|done|by apply (oo_al _ _ _ _ _ Ho4)|done].
    + split; simpl; try done.
      * eapply rep_frame; [exact Hf| |exact H1]. intros x Hx Hx'.
        apply NoDup_app in H3 as (_ & Hd & _). apply elem_of_cons in Hx' as [->|Hx']; [done|].
        by apply (Hd x).
      * rewrite app_assoc. apply NoDup_app. split_and!; [done| |apply NoDup_singleton].
        intros x Hx ->%list_elem_of_singleton. by apply Hcn.
      * intros x Hx. rewrite app_assoc in Hx. apply elem_of_app in Hx as [Hx|Hx]; [by apply H6|].
        apply list_elem_of_singleton in Hx as ->. by exists n.
  - rewrite c_true_length. cbn [negb].
    eexists used3, la1, _. split; [by etrans|]. right.
    split_and!; [exact Hkept3|split_and!; [done|done|by exists n]|exact Ho3|exact Hcnt3|done| | |exact Hup].
    + by rewrite (sm_sz _ _ Hsm3).
    + by rewrite upd_same.
Qed.

(** *** Finding the place of a size *)

Lemma walk_ok st used lu la sz : list_ok st used lu la -> forall fuel l1 x l2, lu = l1 ++ x :: l2 ->
  Forall (fun c => c_sz (cache_at st c) < sz) l1 -> (length (x :: l2) <= fuel)%nat ->
  exists l1' s l2', lu = l1' ++ s :: l2' /\ slab_walk fuel x sz st = Some s /\
    Forall (fun c => c_sz (cache_at st c) < sz) l1' /\ (sz <= c_sz (cache_at st s) \/ l2' = []).
Proof.
  intros Hl. induction fuel as [|fuel IH]; intros l1 x l2 Hlu Hf Hlen; cbn [slab_walk]; [simpl in Hlen; lia|].
  pose proof (lo_used _ _ _ _ Hl) as Hr. rewrite Hlu in Hr. destruct (rep_walk _ _ _ _ _ Hr) as [Hn Hb].
  rewrite Hb, Hn. destruct l2 as [|y l2].
  - rewrite bool_decide_eq_true_2 by done. cbn [negb andb]. exists l1, x, []. split_and!; auto.
  - rewrite bool_decide_eq_false_2 by done. cbn [negb andb hd].
    destruct (Z.ltb_spec (c_sz (cache_at st x)) sz) as [Hlt|Hge].
    + apply (IH (l1 ++ [x]) y l2); [by rewrite <- app_assoc| |simpl in *; lia].
      apply Forall_app. split; [done|]. by constructor.
    + exists l1, x, (y :: l2). split_and!; auto.
Qed.

Lemma objs_ok_perm st used lc lc' objs lv : (forall c, c ∈ lc' <-> c ∈ lc) ->
  objs_ok st used lc objs lv -> objs_ok st used lc' objs lv.
Proof.
  intros Hp [H1 H2 H3 H4 H5 H6 H7]. split; try done.
  - intros c Hc. apply H2. by apply Hp.
  - intros c Hc. apply H3. by apply Hp.
  - intros c o Hc. apply H4. by apply Hp.
  - intros q s Hq. destruct (H5 q s Hq) as (c & Hc & ?). exists c. by rewrite Hp.
Qed.

Lemma ssorted_insert {B} (R : B -> B -> Prop) l1 c l2 : StronglySorted R (l1 ++ l2) ->
  (forall x, x ∈ l1 -> R x c) -> (forall y, y ∈ l2 -> R c y) -> StronglySorted R (l1 ++ c :: l2).
Proof.
  induction l1 as [|x l1 IH]; simpl; intros Hs H1 H2.
  - constructor; [done|]. by apply Forall_forall.
  - apply StronglySorted_inv in Hs as [Hs Hf]. constructor.
    + apply IH; [done| |done]. intros y Hy. apply H1. by right.
    + apply Forall_app in Hf as [Hf1 Hf2]. apply Forall_app. split; [done|]. constructor; [|done].
      apply H1. by left.
Qed.

Lemma ssorted_after {B} (R : B -> B -> Prop) l1 x l2 : StronglySorted R (l1 ++ x :: l2) ->
  forall y, y ∈ l2 -> R x y.
Proof.
  induction l1 as [|z l1 IH]; simpl; intros [Hs Hf]%StronglySorted_inv; [|by apply IH].
  intros y Hy. rewrite Forall_forall in Hf. by apply Hf.
Qed.

(** A cache of size [sz] with a free object. *)
Definition served st' (c sz : Z) used lv : Prop :=
  exists used' lu' la' objs', used ⊆ used' /\ objs_ok st' used' lu' objs' lv /\ cnt_ok st' lu' objs' /\
    list_ok st' used' lu' la' /\ c ∈ lu' /\ c <> 0 /\ c_sz (cache_at st' c) = sz /\ objs' c <> [].

(** The insertion of a new cache between [l1] and [l2]: before [nxt], the head
    of [l2], or at the end. *)
Lemma insert_ok st used l1 l2 la objs lv sz nxt : objs_ok st used (l1 ++ l2) objs lv ->
  cnt_ok st (l1 ++ l2) objs -> list_ok st used (l1 ++ l2) la -> size_ok sz -> nxt = hd 0 l2 ->
  (forall c, c ∈ l1 -> c_sz (cache_at st c) < sz) -> (forall c, c ∈ l2 -> sz < c_sz (cache_at st c)) ->
  let (c, st') := slab_insert sz 1 nxt st in
  (c = 0 /\ exists used' la', lists_grown st st' used used' (l1 ++ l2) objs lv la') \/
  served st' c sz used lv.
Proof.
  intros Ho Hcnt Hl Hsz Hnxt H1 H2. unfold slab_insert.
  pose proof (create_ok st used (l1 ++ l2) la objs lv sz Ho Hcnt Hl Hsz) as Hc.
  destruct (slab_create sz 1 st) as [c st1].
  destruct Hc as (used1 & la1 & objs1 & Hsub & [[-> Hg]|Hcr]).
  { left. split; [done|]. by exists used1, la1. }
  destruct Hcr as (Hkept & (Hc0 & Hcn & n & Hn & Hb) & Ho1 & Hcnt1 & Hl1 & Hsz1 & Hne & Hobjs).
  rewrite c_true_ne by done. cbn [negb].
  destruct Hl1 as [L1 L2 L3 L4 L5 L6].
  assert ((c ∉ l1 ++ l2) /\ (c ∉ la1)) as [Hclu Hcla] by (split; list_elem).
  assert (exists r, (if c_true nxt then set_used (cdll_insert_before (sl_lnk st1) (sl_used st1) c nxt) st1
     else set_used (cdll_fill (sl_lnk st1) (sl_used st1) c) st1) = set_used r st1 /\
     rep r.1 r.2 (l1 ++ c :: l2) /\ frame (l1 ++ c :: l2) (sl_lnk st1) r.1) as (r & -> & Hr & Hf).
  { destruct l2 as [|y l2]; simpl in Hnxt; subst nxt.
    - change (c_true 0) with false. cbv iota. rewrite app_nil_r in *.
      destruct (rep_fill _ _ _ c L1 Hclu Hc0) as [Hr Hf]. eexists. split; [reflexivity|]. split; [done|].
      intros p Hp. apply Hf. list_elem.
    - rewrite c_true_ne by (destruct L1 as [_ L1]; apply ring_rotate in L1; by eapply ring_nonzero).
      destruct (rep_insert_before _ _ _ _ _ c L1 Hclu Hc0) as [Hr Hf]. by eexists. }
  right. exists used1, (l1 ++ c :: l2), la1, objs1. simpl.
  assert (forall x, x ∈ l1 ++ c :: l2 <-> x ∈ c :: l1 ++ l2) as Hperm.
  { intros x. by rewrite <- Permutation_middle. }
  split_and!; try done.
  - eapply objs_ok_perm; [exact Hperm|]. eapply objs_ok_same; [exact Ho1|by split|done|by apply (oo_al _ _ _ _ _ Ho1)|done].
  - intros c' Hc'. by apply Hcnt1, Hperm.
  - split; simpl; try done.
    + eapply rep_frame; [exact Hf| |exact L2]. intros x Hx Hx'. apply Hperm in Hx'.
      apply elem_of_cons in Hx' as [->|Hx']; [done|]. apply NoDup_app in L3 as (_ & Hd & _). by apply (Hd x).
    + rewrite <- app_assoc. cbn [app]. rewrite <- Permutation_middle. apply NoDup_cons.
      rewrite app_assoc. done.
    + rewrite L4, !length_app. simpl. lia.
    + apply ssorted_insert; [done| |]; intros x Hx; simpl; change (cache_at (set_used r st1)) with (cache_at st1);
        change (cache_at (with_nr _ _)) with (cache_at st1); rewrite Hsz1, Hkept by list_elem; auto.
    + intros x Hx. rewrite <- app_assoc in Hx. cbn [app] in Hx. rewrite <- Permutation_middle in Hx.
      rewrite app_assoc in Hx. apply elem_of_cons in Hx as [->|Hx]; [by exists n|by apply L6].
  - apply elem_of_app. right. by left.
Qed.

Lemma slab_size_ok asz : 0 <= asz <= 2048 -> size_ok (slab_size asz) /\ asz <= slab_size asz.
Proof.
  intros Ha. unfold slab_size, sizeof_slab_obj, slab_size_long, size_ok.
  destruct (Z.ltb_spec asz 16); [split; [split; [lia|by exists 2]|lia]|].
  unfold long_aligned, long_align_next. change sizeof_long with (2 ^ 3). rewrite aligned_pow2 by lia.
  unfold align_next. change (2 ^ 3) with 8. destruct (Z.eqb_spec (asz mod 8) 0) as [Hm|Hm].
  - split; [|lia]. split; [lia|]. by apply Z.mod_divide.
  - rewrite wrap_id by (split; lia).
    pose proof (align_pow2 3 (asz + 8) ltac:(lia) ltac:(split; lia)) as Hal.
    change (2 ^ 3) with 8 in Hal. rewrite Hal. clear Hal. pose proof (Z.div_mod (asz + 8) 8 ltac:(lia)). pose proof (Z.mod_pos_bound (asz + 8) 8 ltac:(lia)).
    assert (asz <> 2048) by (intros ->; done).
    assert ((asz + 8) mod 8 <> 0).
    { replace (asz + 8) with (asz + 1 * 8) by lia. by rewrite Z.mod_add. }
    assert (8 * ((asz + 8) / 8) <= 2048).
    { assert ((asz + 8) / 8 <= 256); [|lia]. assert ((asz + 8) / 8 < 257); [|lia].
      apply Z.div_lt_upper_bound; lia. }
    split; [split; [lia|apply Z.divide_factor_l]|lia].
Qed.

(** [slab_find]: the cache of that size, or null when there is none. *)
Lemma find_ok st used lu la objs lv asz : objs_ok st used lu objs lv -> list_ok st used lu la ->
  0 <= asz <= 2048 -> exists c, slab_find asz st = Some c /\
    (c = 0 \/ (c ∈ lu /\ c <> 0 /\ c_sz (cache_at st c) = slab_size asz)).
Proof.
  intros Ho Hl Ha. unfold slab_find. destruct (c_true (sl_used st)) eqn:Hu; cbn [negb].
  2: { exists 0. auto. }
  unfold c_true in Hu. apply negb_true_iff, Z.eqb_neq in Hu.
  destruct (rep_nonnil _ _ _ (lo_used _ _ _ _ Hl) Hu) as [l2 Hlu].
  destruct (walk_ok st used lu la (slab_size asz) Hl (Z.to_nat (sl_nr st)) [] (sl_used st) l2)
    as (l1' & c & l2' & Hlu' & -> & _ & _); [done|done|rewrite (lo_nr _ _ _ _ Hl), Hlu; lia|].
  cbn [mbind option_bind]. destruct (Z.eqb_spec (c_sz (cache_at st c)) (slab_size asz)) as [He|]; [|eauto].
  exists c. split; [done|]. right. split_and!; [rewrite Hlu'; list_elem| |done].
  intros ->. destruct (lo_used _ _ _ _ Hl) as (_ & _ & H0 & _). apply H0. rewrite Hlu'. list_elem.
Qed.

Lemma new_ok st used lu la objs lv asz : objs_ok st used lu objs lv -> cnt_ok st lu objs ->
  list_ok st used lu la -> 0 <= asz <= 2048 ->
  exists c st', slab_new asz 1 st = Some (c, st') /\
    ((c = 0 /\ exists used' la' objs', objs_ok st' used' lu objs' lv /\ cnt_ok st' lu objs' /\ list_ok st' used' lu la') \/
     served st' c (slab_size asz) used lv).
Proof.
  intros Ho Hcnt Hl Ha. unfold slab_new. rewrite (proj2 (Z.ltb_ge (PAGE_SIZE / 2) asz)) by (change (PAGE_SIZE / 2) with 2048; lia).
  destruct (slab_size_ok asz Ha) as [Hsz _]. set (sz := slab_size asz) in *.
  assert (forall l1 l2 nxt, lu = l1 ++ l2 -> nxt = hd 0 l2 ->
    (forall c, c ∈ l1 -> c_sz (cache_at st c) < sz) -> (forall c, c ∈ l2 -> sz < c_sz (cache_at st c)) ->
    exists c st', Some (slab_insert sz 1 nxt st) = Some (c, st') /\
    ((c = 0 /\ exists used' la' objs', objs_ok st' used' lu objs' lv /\ cnt_ok st' lu objs' /\ list_ok st' used' lu la') \/
     served st' c sz used lv)) as Hins.
  { intros l1 l2 nxt -> Hnxt H1 H2.
    pose proof (insert_ok st used l1 l2 la objs lv sz nxt Ho Hcnt Hl Hsz Hnxt H1 H2) as Hi.
    destruct (slab_insert sz 1 nxt st) as [c st']. exists c, st'. split; [done|].
    destruct Hi as [[-> (used' & la' & _ & _ & ? & ? & ?)]|?]; [|by right]. left. split; [done|].
    by exists used', la', objs. }
  destruct (c_true (sl_used st)) eqn:Hu; cbn [negb].
  2: { apply negb_false_iff, Z.eqb_eq in Hu. pose proof (lo_used _ _ _ _ Hl) as Hr. rewrite Hu in Hr.
       apply rep_nil_inv in Hr as ->. by apply (Hins [] []); [..|intros ? ?%elem_of_nil|intros ? ?%elem_of_nil]. }
  unfold c_true in Hu. apply negb_true_iff, Z.eqb_neq in Hu.
  destruct (rep_nonnil _ _ _ (lo_used _ _ _ _ Hl) Hu) as [l2 Hlu].
  destruct (walk_ok st used lu la sz Hl (Z.to_nat (sl_nr st)) [] (sl_used st) l2)
    as (l1' & c & l2' & Hlu' & -> & Hlt & Hend); [done|done|rewrite (lo_nr _ _ _ _ Hl), Hlu; lia|].
  cbn [mbind option_bind]. rewrite Forall_forall in Hlt.
  destruct (Z.ltb_spec sz (c_sz (cache_at st c))) as [Hc|Hc].
  { apply (Hins l1' (c :: l2')); [done|done|done|]. intros y [->|Hy]%elem_of_cons; [done|].
    pose proof (lo_sorted _ _ _ _ Hl) as Hs. rewrite Hlu' in Hs.
    pose proof (ssorted_after _ _ _ _ Hs y Hy). simpl in *. lia. }
  destruct (Z.eqb_spec sz (c_sz (cache_at st c))) as [He|Hne].
  - assert (c ∈ lu) as Hclu by (rewrite Hlu'; list_elem).
    assert (c <> 0) as Hc0.
    { intros ->. destruct (lo_used _ _ _ _ Hl) as (_ & _ & H0 & _). by apply H0. }
    pose proof (grow_ok c lu st used objs lv Ho Hcnt Hclu Hc0) as Hg.
    destruct (slab_grow c 1 st) as [n st1]. destruct Hg as (used1 & l & Hsub & Ho1 & Hcnt1 & Hsm & _ & ->).
    do 2 eexists. split; [reflexivity|].
    assert (list_ok st1 used1 lu la) as Hl1 by (by eapply list_ok_same).
    destruct l as [|o l].
    + left. split; [done|]. by exists used1, la, (upd objs c (objs c ++ [])).
    + right. rewrite c_true_length. cbn [negb].
      exists used1, lu, la, (upd objs c (objs c ++ o :: l)). split_and!; try done.
      * by rewrite (sm_sz _ _ Hsm).
      * rewrite upd_same. by destruct (objs c).
  - destruct Hend as [?| ->]; [lia|]. apply (Hins lu []); [by rewrite app_nil_r|done| |by intros ? ?%elem_of_nil].
    intros y Hy. rewrite Hlu' in Hy. apply elem_of_app in Hy as [Hy|Hy]; [by apply Hlt|].
    apply list_elem_of_singleton in Hy as ->. lia.
Qed.
End objects.

(** ** The heap *)

(** A consistent heap whose live blocks, with their sizes, are [lv]. *)
Definition heap_ok {A} {PA : PageAlloc A} (st : slab_info A) (lv : list (Z * Z)) : Prop :=
  exists used lu la objs, objs_ok st used lu objs lv /\ cnt_ok st lu objs /\ list_ok st used lu la.

(** The same heap seen from its free lists: the caches in use are [lu], the
    free list of the cache [c] is [objs c] in this order, and its counter is
    the length of that list. *)
Definition heap_rep {A} {PA : PageAlloc A} (st : slab_info A) (lv : list (Z * Z)) (lu : list Z)
    (objs : Z -> list Z) : Prop :=
  exists used la, objs_ok st used lu objs lv /\ cnt_ok st lu objs /\ list_ok st used lu la.

Lemma heap_ok_rep {A} {PA : PageAlloc A} (st : slab_info A) lv :
  heap_ok st lv <-> exists lu objs, heap_rep st lv lu objs.
Proof.
  split; [intros (u & lu & la & ob & ?); by exists lu, ob, u, la|].
  intros (lu & ob & u & la & ?). by exists u, lu, la, ob.
Qed.

Section heap.
Context {A : Type} {PA : PageAlloc A} {PL : PageAllocLaws A}.
Implicit Types (st : slab_info A).

(** Two live blocks never overlap. *)
Lemma live_disjoint st used lc objs lv p sz q s : objs_ok st used lc objs lv ->
  (p, sz) ∈ lv -> (q, s) ∈ lv -> p <> q -> p + sz <= q \/ q + s <= p.
Proof.
  intros Ho Hp Hq Hne.
  destruct (oo_live _ _ _ _ _ Ho p sz Hp) as (c & Hc & -> & (n & k & -> & Hk & Hb & Hn) & _).
  destruct (oo_live _ _ _ _ _ Ho q s Hq) as (c' & Hc' & -> & (n' & k' & -> & Hk' & Hb' & Hn') & _).
  pose proof (oo_sz _ _ _ _ _ Ho c Hc) as [? _]. pose proof (oo_sz _ _ _ _ _ Ho c' Hc') as [? _].
  destruct (Z.lt_trichotomy n n') as [?|[<-|?]]; [left; nia| |right; nia].
  assert (c = c') as <- by congruence.
  destruct (Z.lt_trichotomy k k') as [?|[<-|?]]; [left; nia|done|right; nia].
Qed.

Lemma pop_served st used lu la objs lv c : objs_ok st used lu objs lv -> cnt_ok st lu objs ->
  list_ok st used lu la -> c ∈ lu -> objs c <> [] ->
  let (p, st') := malloc_done c (pop_obj c st) in
  heap_ok st' ((p, c_sz (cache_at st c)) :: lv) /\ (8 | p) /\ p <> 0.
Proof.
  intros Ho Hcnt Hl Hc Hne. destruct (objs c) as [|x l] eqn:Hx; [done|].
  destruct (pop_obj_ok _ _ _ _ _ _ _ _ Ho Hc Hx) as [Hp Ho'].
  assert (same_lists st (pop_obj c st).2) as Hsm.
  { unfold pop_obj. destruct (cdll_pop _ _). apply same_lists_objs. }
  assert (forall c', c_nr (cache_at (pop_obj c st).2 c') = c_nr (cache_at st c')) as Hnr.
  { intros c'. unfold pop_obj. destruct (cdll_pop _ _). apply nr_set_objs. }
  destruct (pop_obj c st) as [o st1]. cbn [fst snd] in *. subst o. unfold malloc_done. cbn [fst snd].
  assert (x ∈ objs c) as Hxo by (rewrite Hx; by left).
  pose proof (oo_grid _ _ _ _ _ Ho c x Hc Hxo) as Hg.
  destruct (oo_sz _ _ _ _ _ Ho c Hc) as [Hsz Hdiv].
  split_and!.
  - exists used, lu, la, (upd objs c l). split_and!.
    + by apply objs_ok_set_nr.
    + intros c' Hc'. rewrite nr_set_nr. unfold upd. case_decide as He.
      * subst c'. rewrite Hnr, Hcnt, Hx by done. unfold wrap64, wrap. rewrite Zminus_mod_idemp_l.
        f_equal. simpl length. lia.
      * rewrite Hnr. by apply Hcnt.
    + eapply list_ok_same; [exact Hl|eapply same_lists_trans; [exact Hsm|apply same_lists_set_nr]|done].
  - destruct Hg as (n & k & -> & _). apply Z.divide_add_r; [exists (n * 512); lia|by apply Z.divide_mul_r].
  - eapply grid_nonzero; [exact Ho|exact (proj1 Hsz)|done].
Qed.

Lemma nodup_keys_filter (l : list (Z * Z)) p : NoDup l.*1 -> NoDup (filter (fun x => x.1 <> p) l).*1.
Proof.
  induction l as [|x l IH]; [done|]. intros [Hx Hnd]%NoDup_cons. rewrite filter_cons.
  case_decide; [|by apply IH]. apply NoDup_cons. split; [|by apply IH].
  intros Hin. apply Hx. apply list_elem_of_fmap in Hin as (y & He & Hy).
  apply list_elem_of_filter in Hy as [_ Hy]. apply list_elem_of_fmap. by exists y.
Qed.

Lemma slab_size_big asz : 2048 < asz < 2 ^ 64 -> ~ 16 <= slab_size asz <= 2048.
Proof.
  intros Ha. unfold slab_size, sizeof_slab_obj, slab_size_long, long_align_next.
  rewrite (proj2 (Z.ltb_ge _ _)) by lia. destruct (long_aligned asz); [lia|].
  unfold align_next. change sizeof_long with (2 ^ 3).
  rewrite align_pow2 by (apply wrap_fits || lia; lia). change (2 ^ 3) with 8.
  destruct (Z.lt_ge_cases (asz + 8) (2 ^ 64)).
  - rewrite wrap_id by (split; lia). pose proof (Z.div_mod (asz + 8) 8 ltac:(lia)).
    pose proof (Z.mod_pos_bound (asz + 8) 8 ltac:(lia)). lia.
  - assert (wrap64 (asz + 8) = asz + 8 - 2 ^ 64) as ->.
    { unfold wrap64, wrap. symmetry. apply Z.mod_unique with 1; lia. }
    rewrite Z.div_small by lia. lia.
Qed.

(** A cache holds fewer objects than there are addresses. *)
Lemma objs_bound st used lc objs lv c : objs_ok st used lc objs lv -> c ∈ lc ->
  Z.of_nat (length (objs c)) <= 2 ^ 52.
Proof.
  intros Ho Hc. remember (2 ^ 52) as b eqn:Hb52.
  assert (objs c ⊆+ seqZ 0 b) as Hs%submseteq_length.
  { apply NoDup_submseteq; [by eapply objs_nodup|]. intros o Hoc. apply elem_of_seqZ.
    destruct (oo_grid _ _ _ _ _ Ho c o Hc Hoc) as (n & k & -> & Hk & Hb & Hn).
    apply (oo_pages _ _ _ _ _ Ho) in Hn as [Hn _]. destruct (oo_al _ _ _ _ _ Ho) as [free Hal].
    destruct (alloc_pages _ _ _ Hal (n * 4096)) as (n' & He & Hn'); [by right|].
    destruct (oo_sz _ _ _ _ _ Ho c Hc) as [Hsz _]. assert (n = n') as <- by lia. nia. }
  rewrite length_seqZ in Hs. assert (0 <= b) by lia. clear Hb52. lia.
Qed.

Lemma search_ok st used lu objs lv c p : objs_ok st used lu objs lv -> cnt_ok st lu objs -> c ∈ lu ->
  cdll_search (Z.to_nat (c_nr (cache_at st c))) (ob_lnk st) (c_obj (cache_at st c)) p =
  Some (bool_decide (p ∈ objs c)).
Proof.
  intros Ho Hcnt Hc. apply rep_search; [by apply (oo_rep _ _ _ _ _ Ho)|].
  rewrite Hcnt by done. pose proof (objs_bound _ _ _ _ _ _ Ho Hc). rewrite wrap_id by (split; lia). lia.
Qed.

Lemma slab_at_live st used lc objs lv p c : objs_ok st used lc objs lv -> c ∈ lc ->
  on_grid (ppg_slab st) c (c_sz (cache_at st c)) p -> slab_at p st = c.
Proof.
  intros Ho Hc (n & k & -> & Hk & Hb & Hn). destruct (oo_sz _ _ _ _ _ Ho c Hc) as [Hsz _].
  pose proof (oo_pages _ _ _ _ _ Ho n c Hn) as [Hu Hlt].
  unfold slab_at, ppg_get_desc.
  assert (page_nr (n * 4096 + k * c_sz (cache_at st c)) = n) as ->.
  { unfold page_nr. rewrite pg_nr_div by (unfold PG_4K_SHIFT; lia).
    change (2 ^ PG_4K_SHIFT) with 4096. apply grid_page; [lia|done|done]. }
  rewrite (proj2 (Z.ltb_lt _ _)) by done. by rewrite Hn.
Qed.

(** What [malloc] promises: null, when the pool is exhausted, or a block that
    is big enough, aligned on 8 bytes and overlaps no live block; the heap is
    consistent again in both cases. *)
Definition malloc_result (lv : list (Z * Z)) (asz p : Z) st' : Prop :=
  (p = 0 /\ heap_ok st' lv) \/
  exists sz, asz <= sz /\ p <> 0 /\ (8 | p) /\ heap_ok st' ((p, sz) :: lv) /\
    forall q s, (q, s) ∈ lv -> p + sz <= q \/ q + s <= p.

(** The end of [malloc] on a cache that has a free object. *)
Lemma pop_result st used lu la objs lv c asz : objs_ok st used lu objs lv -> cnt_ok st lu objs ->
  list_ok st used lu la -> c ∈ lu -> objs c <> [] -> 0 <= asz <= 2048 ->
  c_sz (cache_at st c) = slab_size asz ->
  c_true (pop_obj c st).1 = true /\
  malloc_result lv asz (malloc_done c (pop_obj c st)).1 (malloc_done c (pop_obj c st)).2.
Proof.
  intros Ho Hcnt Hl Hc Hne Ha Hsz. destruct (slab_size_ok asz Ha) as [_ Hge].
  pose proof (pop_served st used lu la objs lv c Ho Hcnt Hl Hc Hne) as Hp.
  unfold malloc_done in *. destruct (pop_obj c st) as [p st']. cbn [fst snd] in *.
  destruct Hp as (Hh & H8 & Hnz). split; [by apply c_true_ne|]. right. exists (slab_size asz).
  rewrite Hsz in Hh. split_and!; [done..|]. intros q s Hq. destruct Hh as (? & ? & ? & ? & Hoh & _).
  eapply live_disjoint; [exact Hoh|by left|by right|].
  intros ->. pose proof (oo_nodup _ _ _ _ _ Hoh) as Hnd. simpl in Hnd. apply NoDup_cons in Hnd as [Hnd _].
  apply Hnd, list_elem_of_fmap. by exists (q, s).
Qed.

(** An empty cache grows by one page, or the pool is exhausted. *)
Lemma refill_result st used lu la objs lv c asz : objs_ok st used lu objs lv -> cnt_ok st lu objs ->
  list_ok st used lu la -> c ∈ lu -> c <> 0 -> objs c = [] -> 0 <= asz <= 2048 ->
  c_sz (cache_at st c) = slab_size asz ->
  (pop_obj c st).1 = 0 /\
  let (n, st1) := slab_grow c 1 (pop_obj c st).2 in
  if c_true n then malloc_result lv asz (malloc_done c (pop_obj c st1)).1 (malloc_done c (pop_obj c st1)).2
  else heap_ok st1 lv.
Proof.
  intros Ho Hcnt Hl Hc Hc0 Hx Ha Hsz. destruct (pop_obj_empty _ _ _ _ _ _ Ho Hc Hx) as [Hp Ho1].
  split; [done|].
  assert (same_lists st (pop_obj c st).2) as Hsm.
  { unfold pop_obj. destruct (cdll_pop _ _). apply same_lists_objs. }
  assert (cnt_ok (pop_obj c st).2 lu objs) as Hcnt1.
  { intros c' Hc'. rewrite <- (Hcnt c' Hc'). unfold pop_obj. destruct (cdll_pop _ _). apply nr_set_objs. }
  assert (list_ok (pop_obj c st).2 used lu la) as Hl1 by (by eapply list_ok_same).
  set (st1 := (pop_obj c st).2) in *.
  pose proof (grow_ok c lu st1 used objs lv Ho1 Hcnt1 Hc Hc0) as Hg.
  destruct (slab_grow c 1 st1) as [n st2]. destruct Hg as (used2 & l & Hsub & Ho2 & Hcnt2 & Hsm2 & _ & ->).
  assert (list_ok st2 used2 lu la) as Hl2 by (by eapply list_ok_same).
  destruct l as [|x l].
  - by exists used2, lu, la, (upd objs c (objs c ++ [])).
  - rewrite c_true_length. eapply pop_result; [exact Ho2|done..| |done|].
    + rewrite upd_same. by destruct (objs c).
    + by rewrite (sm_sz _ _ Hsm2), (sm_sz _ _ Hsm).
Qed.

(** The end of [malloc] when no cache of the size exists: a cache is created. *)
Lemma fresh_result st used lu la objs lv asz : objs_ok st used lu objs lv -> cnt_ok st lu objs ->
  list_ok st used lu la -> 0 <= asz <= 2048 ->
  exists p st', malloc_from 0 asz st = Some (p, st') /\ malloc_result lv asz p st'.
Proof.
  intros Ho Hcnt Hl Ha. unfold malloc_from. change (c_true 0) with false. cbv iota.
  destruct (new_ok st used lu la objs lv asz Ho Hcnt Hl Ha) as (c & st1 & -> & Hn). cbn [mbind option_bind].
  destruct Hn as [[-> (used1 & la1 & objs1 & H1 & H2 & H3)]|Hs].
  - exists 0, st1. split; [done|]. left. split; [done|]. by exists used1, lu, la1, objs1.
  - destruct Hs as (used1 & lu1 & la1 & objs1 & Hsub & H1 & H2 & H3 & H4 & H5 & H6 & H7).
    rewrite (c_true_ne c) by done. cbn [negb].
    destruct (pop_result st1 used1 lu1 la1 objs1 lv c asz H1 H2 H3 H4 H7 Ha H6) as [Ht Hres].
    destruct (pop_obj c st1) as [o st2]. cbn [fst snd] in Ht. rewrite Ht. cbn [negb]. eauto.
Qed.

(** ** Properties *)

(** C28: [malloc] of at most half a page always returns.  It gives null when the
    pool is exhausted, the heap being consistent again; otherwise a block that
    is big enough, aligned on 8 bytes and overlaps no live block. *)
Theorem malloc_spec st lv asz : heap_ok st lv -> 0 <= asz <= 2048 ->
  exists p st', malloc asz st = Some (p, st') /\ malloc_result lv asz p st'.
Proof.
  intros (used & lu & la & objs & Ho & Hcnt & Hl) Ha. unfold malloc.
  destruct (find_ok st used lu la objs lv asz Ho Hl Ha) as (c & -> & Hc). cbn [mbind option_bind].
  destruct Hc as [->|(Hc & Hc0 & Hcsz)].
  - apply (fresh_result st used lu la objs lv asz Ho Hcnt Hl Ha).
  - unfold malloc_from. rewrite (c_true_ne c) by done. cbn [mbind option_bind negb]. rewrite (c_true_ne c) by done. cbn [negb].
    destruct (decide (objs c = [])) as [Hx|Hx].
    + destruct (refill_result st used lu la objs lv c asz Ho Hcnt Hl Hc Hc0 Hx Ha Hcsz) as [Hp Hres].
      destruct (pop_obj c st) as [o st1]. cbn [fst snd] in *. subst o. change (c_true 0) with false. cbn [negb].
      destruct (slab_grow c 1 st1) as [n st2]. destruct (c_true n); cbn [negb].
      * destruct (malloc_done _ _) as [p st'] eqn:Hd. eauto.
      * exists 0, st2. split; [done|]. by left.
    + destruct (pop_result st used lu la objs lv c asz Ho Hcnt Hl Hc Hx Ha Hcsz) as [Ht Hres].
      destruct (pop_obj c st) as [o st2]. cbn [fst snd] in Ht. rewrite Ht. cbn [negb]. eauto.
Qed.

(** C29: [free] of a live block always returns and puts the block at the end of
    the free list of the cache its page belongs to, whose counter grows by one;
    the free lists of the other caches are kept, the heap is consistent with
    the other live blocks, and a second [free] of the same block has no
    effect. *)
Theorem free_spec st lv lu objs p sz : heap_rep st lv lu objs -> (p, sz) ∈ lv ->
  let c := slab_at p st in
  c ∈ lu /\ ~ p ∈ objs c /\
  exists st', free p st = Some st' /\
    heap_rep st' (filter (fun x => x.1 <> p) lv) lu (upd objs c (objs c ++ [p])) /\
    c_nr (cache_at st' c) = wrap64 (c_nr (cache_at st c) + 1) /\
    free p st' = Some st'.
Proof.
  intros (used & la & Ho & Hcnt & Hl) Hp.
  destruct (oo_live _ _ _ _ _ Ho p sz Hp) as (c & Hc & -> & Hg & Hn).
  assert (c <> 0) as Hc0.
  { intros ->. destruct (lo_used _ _ _ _ Hl) as (_ & _ & H0 & _). by apply H0. }
  unfold free. rewrite (slab_at_live _ _ _ _ _ _ _ Ho Hc Hg). cbv zeta. split; [done|]. split; [done|].
  unfold slab_add at 1.
  rewrite (c_true_ne c) by done. cbn [negb].
  rewrite (search_ok _ _ _ _ _ _ _ Ho Hcnt Hc), bool_decide_eq_false_2 by done. cbn [mbind option_bind].
  fold (add_obj c p st). set (st1 := add_obj c p st).
  assert (objs_ok st1 used lu (upd objs c (objs c ++ [p])) (filter (fun x => x.1 <> p) lv)) as Ho1.
  { apply (add_obj_ok st used lu objs lv); try done.
    - intros (x & -> & Hx)%list_elem_of_fmap. by apply list_elem_of_filter in Hx as [? _].
    - intros x Hx. by apply list_elem_of_filter in Hx as [_ ?].
    - apply nodup_keys_filter, Ho. }
  set (st2 := set_cache_nr c _ st1).
  assert (objs_ok st2 used lu (upd objs c (objs c ++ [p])) (filter (fun x => x.1 <> p) lv)) as Ho2
    by (by apply objs_ok_set_nr).
  assert (cnt_ok st2 lu (upd objs c (objs c ++ [p]))) as Hcnt2.
  { intros c' Hc'. unfold st2, st1, add_obj. rewrite nr_set_nr, !nr_set_objs. case_decide as He.
    - subst c'. rewrite upd_same, Hcnt by done. rewrite length_app, Nat2Z.inj_add. unfold wrap64, wrap.
      by rewrite Zplus_mod_idemp_l.
    - rewrite upd_other by done. by apply Hcnt. }
  exists st2. split; [done|]. split_and!.
  - exists used, la. split_and!; [done|done|].
    eapply list_ok_same; [exact Hl| |done].
    eapply same_lists_trans; [apply same_lists_objs|apply same_lists_set_nr].
  - unfold st2, st1, add_obj. by rewrite nr_set_nr, decide_True, nr_set_objs by done.
  - assert (c_sz (cache_at st2 c) = c_sz (cache_at st c)) as Hsz2.
    { unfold st2, st1, add_obj. by rewrite sz_set_nr, sz_set_objs. }
    rewrite (slab_at_live _ _ _ _ _ p c Ho2 Hc) by (by rewrite Hsz2). unfold slab_add.
    rewrite (c_true_ne c) by done. cbn [negb].
    rewrite (search_ok _ _ _ _ _ _ _ Ho2 Hcnt2 Hc), bool_decide_eq_true_2; [done|].
    rewrite upd_same. list_elem.
Qed.

(** Blocks of more than half a page are refused, whatever the heap holds. *)
Theorem malloc_limit st lv asz : heap_ok st lv -> 2048 < asz < 2 ^ 64 -> malloc asz st = Some (0, st).
Proof.
  intros (used & lu & la & objs & Ho & _ & Hl) Ha. unfold malloc, malloc_from.
  assert (slab_find asz st = Some 0) as ->.
  { unfold slab_find. destruct (c_true (sl_used st)) eqn:Hu; cbn [negb]; [|done].
    apply negb_true_iff, Z.eqb_neq in Hu.
    destruct (rep_nonnil _ _ _ (lo_used _ _ _ _ Hl) Hu) as [l2 Hlu].
    destruct (walk_ok st used lu la (slab_size asz) Hl (Z.to_nat (sl_nr st)) [] (sl_used st) l2)
      as (l1' & c & l2' & Hlu' & -> & _ & _); [done|done|rewrite (lo_nr _ _ _ _ Hl), Hlu; lia|].
    cbn [mbind option_bind]. destruct (Z.eqb_spec (c_sz (cache_at st c)) (slab_size asz)) as [He|]; [|done].
    destruct (oo_sz _ _ _ _ _ Ho c) as [Hsz _]; [rewrite Hlu'; list_elem|].
    rewrite He in Hsz. by apply slab_size_big in Ha. }
  cbn [mbind option_bind]. change (c_true 0) with false. cbv iota. unfold slab_new.
  by rewrite (proj2 (Z.ltb_lt (PAGE_SIZE / 2) asz)) by (change (PAGE_SIZE / 2) with 2048; lia).
Qed.
End heap.

(** The heap before any allocation. *)
Lemma heap_init {A} {PA : PageAlloc A} al n free used : alloc_rep al free used ->
  heap_ok (mk_slab_info al 0 0 0 ∅ ∅ ∅ n ∅) [].
Proof.
  intros Hal. exists used, [], [], (fun _ => []). split_and!.
  - split; simpl; try (intros ? ?%elem_of_nil; done); try (intros ? ? ?%elem_of_nil; done).
    + by exists free.
    + constructor.
    + intros k c Hk. by rewrite lookup_empty in Hk.
  - intros c Hc. by apply elem_of_nil in Hc.
  - split; simpl; [apply rep_nil|apply rep_nil|constructor|done|constructor|].
    intros c Hc. by apply elem_of_nil in Hc.
Qed.

Definition heap_example : slab_info vmm_pool :=
  mk_slab_info (pool_init pool_example) 0 0 0 ∅ ∅ ∅ 0x200 ∅.

Lemma heap_example_ok : heap_ok heap_example [].
Proof. eapply heap_init. exists [3; 2; 1; 0], []. split; [exact pool_example_wf|done]. Qed.

Example malloc_spec_witness : exists p st', malloc 24 heap_example = Some (p, st') /\
  malloc_result [] 24 p st'.
Proof. apply malloc_spec; [exact heap_example_ok|lia]. Defined.

Example malloc_limit_witness : malloc 2049 heap_example = Some (0, heap_example).
Proof. apply (malloc_limit _ []); [exact heap_example_ok|lia]. Defined.

(** A heap with one live block. *)
Definition heap_one : slab_info vmm_pool := default heap_example (snd <$> malloc_from 0 24 heap_example).

Lemma heap_one_ok : exists sz, heap_ok heap_one [(0x102000, sz)].
Proof.
  destruct heap_example_ok as (used & lu & la & objs & Ho & Hcnt & Hl).
  destruct (fresh_result heap_example used lu la objs [] 24 Ho Hcnt Hl ltac:(lia)) as (p & st' & He & Hr).
  assert (fst <$> malloc_from 0 24 heap_example = Some 0x102000) as Hp by (vm_compute; reflexivity).
  unfold heap_one. rewrite He. rewrite He in Hp. cbn [fmap option_fmap option_map fst snd default] in *.
  apply (inj Some) in Hp. destruct Hr as [[H0 _]|(sz & _ & _ & _ & Hok & _)].
  - rewrite H0 in Hp. discriminate Hp.
  - exists sz. rewrite <- Hp. exact Hok.
Qed.

Example free_spec_witness : exists lu objs, let c := slab_at 0x102000 heap_one in
  c ∈ lu /\ ~ 0x102000 ∈ objs c /\
  exists st', free 0x102000 heap_one = Some st' /\
    heap_rep st' [] lu (upd objs c (objs c ++ [0x102000])) /\
    c_nr (cache_at st' c) = wrap64 (c_nr (cache_at heap_one c) + 1) /\
    free 0x102000 st' = Some st'.
Proof.
  destruct heap_one_ok as [sz (lu & objs & Hok)%heap_ok_rep]. exists lu, objs.
  apply (free_spec heap_one [(0x102000, sz)] lu objs 0x102000 sz); [exact Hok|apply list_elem_of_here].
Defined.
