(* ===== verification/GdbPkt.v ===== *)
(** * The packets of the gdb stub (vmm/src/control/gdbstub_pkt.c,
    include/gdbstub_pkt.h, include/gdbstub.h)

    Reading and writing the packets of gdb's remote protocol, their checksums
    and the numbers they carry.  The state of the stub is its status bits, the
    last stop reason and the answer being written; what the stub acts on is a
    type [V], of which this file only uses the control interface and four
    registers. *)

From S2P Require Import Prelude.
From S2P Require Import Str.

(** ** Interfaces *)

(** [ctrl_io_write] and [ctrl_io_read] (include/ctrl_io.h), whichever driver is
    configured. *)
Class CtrlIO (V : Type) := {
  io_write : bytes -> V -> V;
  io_read : Z -> V -> bytes * V;
}.

(** What the driver promises: it never returns more than was asked for. *)
Class CtrlIOLaws (V : Type) {IO : CtrlIO V} := {
  io_read_len n v : Z.of_nat (length (io_read n v).1) <= Z.max 0 n;
}.

(** What the stop packet shows of the vm's cpu: [cpu_addr_sz()] and the raw
    values of rsp, rbp and rip. *)
Class CpuView (V : Type) := {
  cpu_addr_sz : V -> Z;
  view_rsp : V -> Z;
  view_rbp : V -> Z;
  view_rip : V -> Z;
}.

(** ** Constants *)

Definition GDB_PKT_SZ : Z := 4.
Definition GDB_ACKPKT_SZ : Z := GDB_PKT_SZ + 1.
Definition GDB_INPUT_SZ : Z := 1024.
Definition GDB_ANSWER_SZ : Z := 1024.
Definition GDB_BUF_SZ : Z := GDB_ANSWER_SZ - GDB_ACKPKT_SZ.
Definition GDB_PKT_BYTE : Z := 36.
Definition GDB_END_BYTE : Z := 35.
Definition GDB_ACK_BYTE : Z := 43.
Definition GDB_NAK_BYTE : Z := 45.
Definition GDB_INT_BYTE : Z := 3.
Definition GDB_EXIT_INT : Z := 2.

(** The fixed answers: "+$OK#9a", "+$#00", "+$E00#a5", "+$E0e#da". *)
Definition msg_ok : bytes := [43; 36; 79; 75; 35; 57; 97].
Definition msg_unsupported : bytes := [43; 36; 35; 48; 48].
Definition msg_err_gen : bytes := [43; 36; 69; 48; 48; 35; 97; 53].
Definition msg_err_mem : bytes := [43; 36; 69; 48; 101; 35; 100; 97].

(** ** State *)

(** [gdbstub_t] and the answer buffer: [g_buf] are the [gdb_buffer.sz] bytes
    written at [&gdb_answer[2]]. *)
Record gdb (V : Type) := mk_gdb {
  g_on : bool;
  g_lock : bool;
  g_ack : bool;
  g_reason : Z;
  g_buf : bytes;
  g_v : V;
}.
Arguments mk_gdb {V}.
Arguments g_on {V}. Arguments g_lock {V}. Arguments g_ack {V}.
Arguments g_reason {V}. Arguments g_buf {V}. Arguments g_v {V}.

(** ** Checksums and numbers *)

Definition gdb_checksum_of (data : bytes) : Z := fold_left (fun cks b => wrap8 (cks + b)) data 0.

Definition gdb_checksum (data : bytes) : bytes :=
  let (h, l) := uint8_to_hex (gdb_checksum_of data) in [h; l].

Definition gdb_checksum_verify (data : bytes) (c0 c1 : Z) : bool :=
  match hex_to_uint8 c0 c1 with
  | None => false
  | Some chkv => gdb_checksum_of data =? chkv
  end.

(** [fix = (uint16_t* )data]: the 16-bit words of the data and its odd byte. *)
Fixpoint words (data : bytes) : list (Z * Z) * bytes :=
  match data with
  | a :: b :: data => let (ws, t) := words data in ((a, b) :: ws, t)
  | t => ([], t)
  end.
Definition unwords (ws : list (Z * Z)) : bytes := ws ≫= fun w => [w.1; w.2].

(** The loop of [__gdb_fix_endian] swaps the words [o] and [i - 1]. *)
Fixpoint fix_loop (tm o i : nat) (fix_ : list (Z * Z)) : list (Z * Z) :=
  match tm with
  | O => fix_
  | S tm =>
      let i := (i - 1)%nat in
      fix_loop tm (S o) i (<[i := fix_ !!! o]> (<[o := fix_ !!! i]> fix_))
  end.

Definition gdb_fix_endian (data : bytes) : bytes :=
  let len := length data in
  let (ws, t) := words data in
  unwords (fix_loop (len / 4) 0 (len / 2) ws) ++ t.

(** [strchr] scans [len] bytes and answers null when no byte is left after the
    scan: the last byte is not looked at. *)
Fixpoint strchr (str : bytes) (c : Z) : option nat :=
  match str with
  | [] => None
  | b :: str =>
      if b =? c then if (length str =? 0)%nat then None else Some O
      else S <$> strchr str c
  end.

Definition gdb_get_byte (data : bytes) : option Z :=
  match data with
  | d0 :: d1 :: _ => hex_to_uint8 d0 d1
  | _ => None
  end.

Definition gdb_get_number (data : bytes) (endian : bool) : option Z :=
  hex_to_uint64 (if endian then gdb_fix_endian data else data).

(** ** Operations on the stub *)

Section pkt.
Context {V : Type} {IO : CtrlIO V} {CV : CpuView V}.
Implicit Types (g : gdb V).

Definition set_buf (b : bytes) g : gdb V := mk_gdb (g_on g) (g_lock g) (g_ack g) (g_reason g) b (g_v g).
Definition set_v (v : V) g : gdb V := mk_gdb (g_on g) (g_lock g) (g_ack g) (g_reason g) (g_buf g) v.
Definition gdb_set_ack (x : bool) g : gdb V := mk_gdb (g_on g) (g_lock g) x (g_reason g) (g_buf g) (g_v g).
Definition gdb_set_lock (x : bool) g : gdb V := mk_gdb (g_on g) x (g_ack g) (g_reason g) (g_buf g) (g_v g).
Definition gdb_set_enable (x : bool) g : gdb V := mk_gdb x (g_lock g) (g_ack g) (g_reason g) (g_buf g) (g_v g).
Definition gdb_set_last_stop_reason (x : Z) g : gdb V := mk_gdb (g_on g) (g_lock g) (g_ack g) x (g_buf g) (g_v g).

Definition gdb_reset_buffer g : gdb V := set_buf [] g.
Definition gdb_io_write (b : bytes) g : gdb V := set_v (io_write b (g_v g)) g.
Definition gdb_io_read (n : Z) g : bytes * gdb V :=
  let (b, v) := io_read n (g_v g) in (b, set_v v g).

Definition gdb_ok := gdb_io_write msg_ok.
Definition gdb_unsupported := gdb_io_write msg_unsupported.
Definition gdb_err := gdb_io_write msg_err_gen.
Definition gdb_err_mem := gdb_io_write msg_err_mem.
Definition gdb_ack g : gdb V := gdb_set_ack true (gdb_io_write [GDB_ACK_BYTE] g).
Definition gdb_nak g : gdb V := gdb_io_write [GDB_NAK_BYTE] g.

(** [gdb_add_str], [gdb_add_byte], [gdb_add_number]: appending to the answer. *)
Definition gdb_add_str (str : bytes) g : gdb V :=
  if Z.of_nat (length (g_buf g)) <? GDB_BUF_SZ - Z.of_nat (length str)
  then set_buf (g_buf g ++ str) g else g.

Definition gdb_add_byte (value : Z) g : gdb V :=
  if Z.of_nat (length (g_buf g)) <? GDB_BUF_SZ - 2
  then let (h, l) := uint8_to_hex value in set_buf (g_buf g ++ [h; l]) g else g.

(** The words of the last [nb] bytes of the answer are reversed. *)
Definition gdb_add_number (value precision : Z) (endian : bool) g : option (gdb V) :=
  '(buf, nb) ← uint64_to_hex (g_buf g) GDB_BUF_SZ value precision;
  let k := (length buf - Z.to_nat nb)%nat in
  Some (set_buf (if endian then take k buf ++ gdb_fix_endian (drop k buf) else buf) g).

(** [gdb_send_packet]. *)
Definition gdb_send_packet g : gdb V :=
  let acked := g_ack g in
  let g := if acked then gdb_set_ack false g else g in
  if GDB_ANSWER_SZ - GDB_ACKPKT_SZ <? Z.of_nat (length (g_buf g)) then gdb_unsupported g
  else
    gdb_io_write ((if acked then [] else [GDB_ACK_BYTE]) ++
      [GDB_PKT_BYTE] ++ g_buf g ++ [GDB_END_BYTE] ++ gdb_checksum (g_buf g)) g.

(** The strings of [gdb_send_stop_reason]: "T", "md:", ";04:", ";05:", the two
    values of [s_rip] (";16:" and ";08:" stored as 32-bit words), ";". *)
Definition str_rip64 : bytes := [59; 49; 54; 58].
Definition str_rip32 : bytes := [59; 48; 56; 58].

Definition gdb_send_stop_reason (reason : Z) g : option (gdb V) :=
  let mode := cpu_addr_sz (g_v g) in
  let '(s_rip, rlen) := if mode =? 64 then (str_rip64, 16) else (str_rip32, 8) in
  let g := gdb_add_byte reason (gdb_add_str [84] g) in
  let g := gdb_add_str [109; 100; 58] g in
  g ← gdb_add_number mode 2 false g;
  let g := gdb_add_str [59; 48; 52; 58] g in
  g ← gdb_add_number (view_rsp (g_v g)) rlen true g;
  let g := gdb_add_str [59; 48; 53; 58] g in
  g ← gdb_add_number (view_rbp (g_v g)) rlen true g;
  let g := gdb_add_str s_rip g in
  g ← gdb_add_number (view_rip (g_v g)) rlen true g;
  Some (gdb_send_packet (gdb_add_str [59] g)).

(** [__gdb_preempt] (gdbstub.c). *)
Definition gdb_preempt (reason : Z) g : option (gdb V) :=
  g ← gdb_send_stop_reason reason g;
  Some (gdb_set_lock true (gdb_set_last_stop_reason reason g)).

Definition gdb_interrupt_sequence g : option (gdb V) :=
  gdb_preempt GDB_EXIT_INT (gdb_set_ack true (gdb_reset_buffer g)).

(** ** Parsing of the operations *)

(** "addr,size" and, when [bytes] is asked for, "addr,size:bytes". *)
Definition gdb_setup_mem_op (data : bytes) (bytes_ : bool) g : option (Z * Z * bytes) * gdb V :=
  let r :=
    i ← strchr data 44;
    let s_addr := take i data in
    let s_size := drop (S i) data in
    '(s_size, rest) ← (if bytes_ then
        j ← strchr s_size 58; Some (take j s_size, drop (S j) s_size)
      else Some (s_size, []));
    addr ← gdb_get_number s_addr false;
    size ← gdb_get_number s_size false;
    Some (addr, size, rest) in
  match r with Some _ => (r, g) | None => (None, gdb_nak g) end.

(** "type,addr,kind". *)
Definition gdb_setup_brk_op (data : bytes) g : option (Z * Z * Z) * gdb V :=
  let r :=
    i ← strchr data 44;
    let s_type := take i data in
    let s_addr := drop (S i) data in
    j ← strchr s_addr 44;
    type ← gdb_get_number s_type false;
    addr ← gdb_get_number (take j s_addr) false;
    kind ← gdb_get_number (drop (S j) s_addr) false;
    Some (type, kind, addr) in
  match r with Some _ => (r, g) | None => (None, gdb_nak g) end.

(** "index" and, for a write, "index=value"; [setup_reg] is
    [__gdb_setup_reg]: [None] when it reads outside its table, [Some None] when
    it refuses the index. *)
Definition gdb_setup_reg_op {R} (setup_reg : Z -> V -> option (option R)) (data : bytes) (wr : bool) g :
    option (option (R * Z) * gdb V) :=
  let r :=
    '(s_idx, value) ← (if wr then
        i ← strchr data 61;
        value ← gdb_get_number (drop (S i) data) true;
        Some (take i data, value)
      else Some (data, 0));
    idx ← gdb_get_number s_idx false;
    Some (idx, value) in
  match r with
  | None => Some (None, gdb_nak g)
  | Some (idx, value) =>
      reg ← setup_reg idx (g_v g);
      Some (match reg with
            | None => (None, gdb_unsupported g)
            | Some reg => (Some (reg, value), g)
            end)
  end.

(** ** Reception *)

(** [gdb_process_packet] and [gdb_enable] are in other files. *)
Variable gdb_process_packet : bytes -> gdb V -> option (gdb V).
Variable gdb_enable : gdb V -> option (gdb V).

(** The bytes before the first '#', and the bytes from it on. *)
Fixpoint scan_end (data : bytes) : bytes * bytes :=
  match data with
  | [] => ([], [])
  | b :: data => if b =? GDB_END_BYTE then ([], b :: data) else
      let (p, r) := scan_end data in (b :: p, r)
  end.

(** The number of bytes consumed, 0 when the packet is not complete. *)
Definition gdb_parse_packet (data : bytes) g : option (Z * gdb V) :=
  if Z.of_nat (length data) <? GDB_PKT_SZ then Some (0, g)
  else
    let (payload, rest) := scan_end (tail data) in
    if Z.of_nat (length rest) <? GDB_PKT_SZ - 1 then Some (0, g)
    else
      let dlen := Z.of_nat (length payload) in
      if c_true dlen then
        if gdb_checksum_verify payload (rest !!! 1%nat) (rest !!! 2%nat) then
          g ← gdb_process_packet payload (gdb_reset_buffer g);
          Some (dlen + GDB_PKT_SZ, g)
        else Some (dlen + GDB_PKT_SZ, gdb_nak g)
      else Some (dlen + GDB_PKT_SZ, g).

(** One iteration of the loop of [gdb_consume_packet]: the bytes consumed, 0
    when the loop is left. *)
Definition gdb_consume_step (b : Z) (data : bytes) g : option (Z * gdb V) :=
  if b =? GDB_ACK_BYTE then
    g ← (if negb (g_on g) then gdb_enable g else Some g); Some (1, g)
  else if b =? GDB_PKT_BYTE then gdb_parse_packet data g
  else if b =? GDB_INT_BYTE then g ← gdb_interrupt_sequence g; Some (1, g)
  else if b =? GDB_NAK_BYTE then Some (1, gdb_ack g)
  else Some (1, gdb_unsupported g).

Fixpoint gdb_consume_loop (fuel : nat) (data : bytes) g : option (bytes * gdb V) :=
  match data, fuel with
  | [], _ => Some ([], g)
  | _, O => None
  | b :: _, S fuel =>
      '(done, g) ← gdb_consume_step b data g;
      if c_true done then gdb_consume_loop fuel (drop (Z.to_nat done) data) g
      else Some (data, g)
  end.

(** Each iteration consumes a byte.  The bytes that remain are a packet that is
    not complete. *)
Definition gdb_consume_packet (data : bytes) g : option (bytes * gdb V) :=
  gdb_consume_loop (length data) data g.

(** [gdb_recv_packet] with [remain] bytes at the start of the input; [None] when
    the fuel is exhausted. *)
Fixpoint gdb_recv_loop (fuel : nat) (remain : bytes) g : option (gdb V) :=
  match fuel with
  | O => None
  | S fuel =>
      let (got, g) := gdb_io_read (GDB_INPUT_SZ - Z.of_nat (length remain)) g in
      let data := remain ++ got in
      '(remain, g) ← (if c_true (Z.of_nat (length data)) then gdb_consume_packet data g else Some ([], g));
      if c_true (Z.of_nat (length remain)) || g_lock g then gdb_recv_loop fuel remain g
      else Some g
  end.

(** [while(gdb_io_read(&x, 1) != 1 && x != GDB_ACK_BYTE)], [x] being the content
    of the variable. *)
Fixpoint gdb_wait_ack (fuel : nat) (x : Z) g : option (gdb V) :=
  match fuel with
  | O => None
  | S fuel =>
      let (got, g) := gdb_io_read 1 g in
      let x := match got with b :: _ => b | [] => x end in
      if negb (length got =? 1)%nat && negb (x =? GDB_ACK_BYTE) then gdb_wait_ack fuel x g else Some g
  end.

Definition gdb_recv_packet (fuel : nat) g : option (gdb V) := gdb_recv_loop fuel [] g.
End pkt.

(** ** Words and numbers *)

Lemma words_spec data : data = unwords (words data).1 ++ (words data).2 /\
  length (words data).1 = (length data / 2)%nat.
Proof.
  remember (length data) as n eqn:Hn. revert data Hn.
  induction n as [n IH] using lt_wf_ind. intros [|a [|b data]] ->; [done|done|].
  cbn [words length]. destruct (IH (length data) ltac:(simpl; lia) data eq_refl) as [H1 H2].
  destruct (words data) as [ws t]. cbn [fst snd] in *. split.
  - rewrite H1 at 1. done.
  - cbn [length]. rewrite H2. pose proof (Nat.div_mod_eq (length data) 2).
    pose proof (Nat.mod_upper_bound (length data) 2 ltac:(lia)).
    apply (Nat.div_unique _ _ _ (length data mod 2)); lia.
Qed.

Lemma words_unwords ws : words (unwords ws) = (ws, []).
Proof. induction ws as [|[a b] ws IH]; [done|]. cbn [unwords mbind list_bind words app fst snd]. fold (unwords ws). by rewrite IH. Qed.

Lemma length_unwords ws : length (unwords ws) = (2 * length ws)%nat.
Proof. induction ws; [done|]. cbn [unwords mbind list_bind length app]. fold (unwords ws). rewrite IHws. simpl. lia. Qed.

(** The swaps reverse the words between [o] and [i]. *)
Lemma fix_loop_lookup tm : forall o i n ws, length ws = n -> (o + i = n)%nat -> tm = (n / 2 - o)%nat -> (o <= n / 2)%nat ->
  forall j, fix_loop tm o i ws !! j = if decide (o <= j < i)%nat then ws !! (n - 1 - j)%nat else ws !! j.
Proof.
  induction tm as [|tm IH]; intros o i n ws Hn Hoi Ht Ho j.
  - cbn [fix_loop]. case_decide as Hj; [|done]. f_equal.
    pose proof (Nat.div_mod_eq n 2). pose proof (Nat.mod_upper_bound n 2 ltac:(lia)). lia.
  - cbn [fix_loop]. pose proof (Nat.div_mod_eq n 2).
    rewrite (IH (S o) (i - 1)%nat n); [|rewrite !length_insert; lia|lia|lia|lia].
    destruct (lookup_lt_is_Some_2 ws o) as [x Hx]; [lia|].
    destruct (lookup_lt_is_Some_2 ws (i - 1)%nat) as [y Hy]; [lia|].
    rewrite (list_lookup_total_correct ws (i - 1)%nat y) by done.
    rewrite (list_lookup_total_correct ws o x) by done.
    assert (forall k, <[(i - 1)%nat := x]> (<[o := y]> ws) !! k =
      if decide (k = (i - 1)%nat) then Some x else if decide (k = o) then Some y else ws !! k) as Hk.
    { intros k. rewrite list_lookup_insert, length_insert. case_decide as H1.
      - destruct H1 as [<- ?]. by rewrite decide_True.
      - rewrite decide_False by lia. rewrite list_lookup_insert. case_decide as H2.
        + destruct H2 as [<- ?]. by rewrite decide_True.
        + rewrite decide_False by lia. done. }
    rewrite !Hk. repeat case_decide; try lia; try done; try (f_equal; lia); subst.
    + rewrite <- Hx. f_equal. lia.
    + rewrite <- Hy. f_equal. lia.
Qed.

Lemma fix_loop_reverse ws : fix_loop (length ws / 2) 0 (length ws) ws = reverse ws.
Proof.
  apply list_eq. intros j. rewrite (fix_loop_lookup _ 0 (length ws) (length ws)); [|done|lia..].
  case_decide.
  - rewrite reverse_lookup by lia. f_equal. lia.
  - rewrite (lookup_ge_None_2 ws), (lookup_ge_None_2 (reverse ws)); rewrite ?length_reverse; [done|lia..].
Qed.

(** The bytes of the words are reversed word by word; the odd byte stays. *)
Lemma fix_endian_words ws t : (length t <= 1)%nat ->
  gdb_fix_endian (unwords ws ++ t) = unwords (reverse ws) ++ t.
Proof.
  intros Ht. unfold gdb_fix_endian.
  assert (words (unwords ws ++ t) = (ws, t)) as ->.
  { clear - Ht. induction ws as [|[a b] ws IH].
    - by destruct t as [|x [|y t]]; simpl in *; [..|lia].
    - cbn [unwords mbind list_bind words app fst snd]. fold (unwords ws). by rewrite IH. }
  rewrite length_app, length_unwords.
  assert ((2 * length ws + length t) / 2 = length ws)%nat as ->.
  { symmetry. apply (Nat.div_unique _ _ _ (length t)); lia. }
  assert ((2 * length ws + length t) / 4 = length ws / 2)%nat as ->.
  { change 4%nat with (2 * 2)%nat. rewrite <- Nat.Div0.div_div. f_equal. symmetry.
    apply (Nat.div_unique _ _ _ (length t)); lia. }
  by rewrite fix_loop_reverse.
Qed.

Lemma fix_endian_twice data : gdb_fix_endian (gdb_fix_endian data) = data.
Proof.
  destruct (words_spec data) as [He Hl]. rewrite He at 1.
  assert (length (words data).2 <= 1)%nat as Ht.
  { apply (f_equal length) in He. rewrite length_app, length_unwords, Hl in He.
    pose proof (Nat.div_mod_eq (length data) 2). pose proof (Nat.mod_upper_bound (length data) 2 ltac:(lia)). lia. }
  rewrite !fix_endian_words by done. by rewrite reverse_involutive, <- He.
Qed.

Lemma length_fix_endian data : length (gdb_fix_endian data) = length data.
Proof.
  destruct (words_spec data) as [He Hl]. rewrite He.
  assert (length (words data).2 <= 1)%nat as Ht.
  { apply (f_equal length) in He. rewrite length_app, length_unwords, Hl in He.
    pose proof (Nat.div_mod_eq (length data) 2). pose proof (Nat.mod_upper_bound (length data) 2 ltac:(lia)). lia. }
  rewrite fix_endian_words by done. by rewrite !length_app, !length_unwords, length_reverse.
Qed.

(** With a precision of at most 16, the low nibbles of the value. *)
Lemma hex_digits_exact fuel : forall v p rep, 0 <= v -> 0 <= p <= Z.of_nat fuel -> p <= 16 ->
  exists ns, hex_digits fuel v p rep = Some (rep ++ map hexchar ns) /\ Z.of_nat (length ns) = p /\
    Forall nibble ns /\ le16 ns = v mod 16 ^ p.
Proof.
  induction fuel as [|fuel IH]; intros v p rep Hv Hp H16; cbn [hex_digits]; unfold c_true at 1.
  - assert (p = 0) as -> by lia. exists []. rewrite app_nil_r. split_and!; [done|done|constructor|].
    by rewrite Z.pow_0_r, Z.mod_1_r.
  - destruct (Z.eqb_spec p 0) as [->|]; cbn [negb andb].
    { exists []. rewrite app_nil_r. split_and!; [done|done|constructor|]. by rewrite Z.pow_0_r, Z.mod_1_r. }
    rewrite (proj2 (Z.ltb_ge 16 p)) by lia. cbn [negb andb].
    destruct (land_nibble v Hv) as [Hn Hv'].
    destruct (IH (Z.shiftr v 4) (p - 1) (rep ++ [hexchar (Z.land v 0xf)])) as (ns & -> & Hl & Hf & He);
      [by apply Z.shiftr_nonneg|lia..|].
    exists (Z.land v 0xf :: ns). rewrite <- app_assoc. split_and!; [done|simpl; lia|by constructor|].
    cbn [le16]. rewrite He. unfold nibble in Hn.
    assert (16 ^ p = 16 * 16 ^ (p - 1)) as -> by (rewrite <- Z.pow_succ_r by lia; f_equal; lia).
    assert (0 < 16 ^ (p - 1)) by (apply Z.pow_pos_nonneg; lia).
    set (w := Z.shiftr v 4) in *. pose proof (Z.div_mod w (16 ^ (p - 1)) ltac:(lia)).
    pose proof (Z.mod_pos_bound w (16 ^ (p - 1)) ltac:(lia)).
    apply (Z.mod_unique _ _ (w / 16 ^ (p - 1))); [left|]; nia.
Qed.

(** [hex_to_uint64] on at most 16 digits. *)
Lemma hex_to_uint64_digits ns : Forall nibble ns -> ns <> [] -> (length ns <= 16)%nat ->
  hex_to_uint64 (reverse (map hexchar ns)) = Some (le16 ns).
Proof.
  intros Hf Hne Hl. unfold hex_to_uint64. destruct (reverse (map hexchar ns)) as [|c cs] eqn:Hr.
  { apply (f_equal length) in Hr. rewrite length_reverse, length_map in Hr. by destruct ns. }
  rewrite <- Hr, take_ge, reverse_involutive by (rewrite length_reverse, length_map; lia).
  rewrite hex_value_spec by (done || lia). f_equal. lia.
Qed.

Section laws.
Context {V : Type} {IO : CtrlIO V} {CV : CpuView V}.
Implicit Types (g : gdb V).

(** A number that fits the answer is appended. *)
Lemma add_number_spec v p e g : fits 64 v -> 1 <= p <= 16 -> Z.of_nat (length (g_buf g)) + p <= GDB_BUF_SZ ->
  exists ds, gdb_add_number v p e g = Some (set_buf (g_buf g ++ ds) g) /\
    Z.of_nat (length ds) = p /\ gdb_get_number ds e = Some (v mod 16 ^ p).
Proof.
  intros Hv Hp Hb. unfold gdb_add_number, uint64_to_hex.
  unfold c_true. rewrite (proj2 (Z.eqb_neq p 0)), (proj2 (Z.ltb_ge 16 p)) by lia. cbn [negb orb].
  destruct (hex_digits_exact HEX_FUEL v p []) as (ns & -> & Hl & Hf & He); [apply Hv|unfold HEX_FUEL; lia|lia|].
  cbn [mbind option_bind app]. set (cs := reverse (map hexchar ns)).
  assert (length cs = length ns) as Hcs by (unfold cs; by rewrite length_reverse, length_map).
  rewrite buf_adds_fit by (rewrite Hcs; lia). rewrite length_map, length_app, Hcs, Nat2Z.id, Nat.add_sub.
  rewrite take_app_length, drop_app_length.
  assert (gdb_get_number cs false = Some (v mod 16 ^ p)) as Hg.
  { unfold gdb_get_number, cs. rewrite hex_to_uint64_digits, He; [done|done| |lia]. intros ->. simpl in Hl. lia. }
  destruct e.
  - exists (gdb_fix_endian cs). split; [done|]. rewrite length_fix_endian, Hcs. split; [done|].
    unfold gdb_get_number. by rewrite fix_endian_twice.
  - exists cs. by rewrite Hcs.
Qed.
End laws.

(** ** Packets *)

Lemma uint8_hex_back v : fits 8 v -> hex_to_uint8 (uint8_to_hex v).1 (uint8_to_hex v).2 = Some v.
Proof.
  intros Hv. unfold fits in Hv.
  assert (Forall (fun v => hex_to_uint8 (uint8_to_hex v).1 (uint8_to_hex v).2 = Some v) (seqZ 0 256)) as Hall.
  { eapply bool_decide_eq_true_1. vm_compute. reflexivity. }
  rewrite Forall_forall in Hall. apply Hall, elem_of_seqZ. lia.
Qed.

Lemma checksum_fits data : fits 8 (gdb_checksum_of data).
Proof.
  unfold gdb_checksum_of. destruct data as [|b data IH] using rev_ind; [unfold fits; simpl; lia|].
  rewrite fold_left_app. cbn [fold_left]. apply (wrap_fits 8). lia.
Qed.

Lemma checksum_verify data c0 c1 : [c0; c1] = gdb_checksum data -> gdb_checksum_verify data c0 c1 = true.
Proof.
  unfold gdb_checksum, gdb_checksum_verify. destruct (uint8_to_hex _) as [h l] eqn:He. intros [= -> ->].
  pose proof (uint8_hex_back _ (checksum_fits data)) as Hb. rewrite He in Hb. cbn [fst snd] in Hb.
  rewrite Hb. apply Z.eqb_refl.
Qed.

Lemma scan_end_no p r : (GDB_END_BYTE ∉ p) -> scan_end (p ++ GDB_END_BYTE :: r) = (p, GDB_END_BYTE :: r).
Proof.
  induction p as [|b p IH]; intros Hn; [done|]. cbn [scan_end app].
  apply not_elem_of_cons in Hn as [Hb Hn]. rewrite (proj2 (Z.eqb_neq b GDB_END_BYTE)) by done. by rewrite IH.
Qed.

Lemma scan_end_app d1 d2 : (scan_end d1).2 <> [] ->
  scan_end (d1 ++ d2) = ((scan_end d1).1, (scan_end d1).2 ++ d2).
Proof.
  induction d1 as [|b d1 IH]; [done|]. cbn [scan_end app]. destruct (Z.eqb_spec b GDB_END_BYTE); [done|].
  destruct (scan_end d1) as [p r]. cbn [fst snd] in *. intros Hr. by rewrite IH.
Qed.

Lemma scan_end_length d : length d = (length (scan_end d).1 + length (scan_end d).2)%nat.
Proof.
  induction d as [|b d IH]; [done|]. cbn [scan_end length]. destruct (b =? GDB_END_BYTE); [done|].
  destruct (scan_end d) as [p r]. cbn [fst snd length] in *. lia.
Qed.

Section stream.
Context {V : Type} {IO : CtrlIO V} {CV : CpuView V}.
Implicit Types (g : gdb V).
Variable process : bytes -> gdb V -> option (gdb V).
Variable enable : gdb V -> option (gdb V).

Abbreviation parse := (gdb_parse_packet process).
Abbreviation step := (gdb_consume_step process enable).
Abbreviation consume := (gdb_consume_packet process enable).
Abbreviation loop := (gdb_consume_loop process enable).

(** Whether the packet at the start of the data is complete. *)
Definition complete (data : bytes) : bool :=
  (3 <=? length (scan_end (tail data)).2)%nat.

Lemma parse_incomplete data g : complete data = false -> parse data g = Some (0, g).
Proof.
  unfold complete, gdb_parse_packet. intros Hc%Nat.leb_gt. destruct (_ <? GDB_PKT_SZ); [done|].
  destruct (scan_end (tail data)) as [p r]. cbn [snd] in Hc.
  by rewrite (proj2 (Z.ltb_lt (Z.of_nat (length r)) (GDB_PKT_SZ - 1))) by (unfold GDB_PKT_SZ; lia).
Qed.

(** The number of bytes of a packet that is complete. *)
Definition pkt_size (data : bytes) : Z := Z.of_nat (length (scan_end (tail data)).1) + GDB_PKT_SZ.

Lemma pkt_size_bound data : complete data = true -> 4 <= pkt_size data <= Z.of_nat (length data).
Proof.
  unfold complete, pkt_size, GDB_PKT_SZ. intros Hc%Nat.leb_le. pose proof (scan_end_length (tail data)).
  destruct data; simpl in *; lia.
Qed.

(** A complete packet: what the data after it is does not matter. *)
Lemma parse_complete data rest g : complete data = true ->
  parse (data ++ rest) g = (g' ← snd <$> parse data g; Some (pkt_size data, g')).
Proof.
  intros Hc. pose proof (pkt_size_bound _ Hc) as Hb. unfold pkt_size in *. unfold complete in Hc.
  apply Nat.leb_le in Hc. destruct data as [|b data]; [simpl in Hc; lia|]. cbn [tail] in *.
  unfold gdb_parse_packet. rewrite length_app, !(proj2 (Z.ltb_ge _ GDB_PKT_SZ)) by (unfold GDB_PKT_SZ in *; simpl in *; lia).
  cbn [tail app]. assert ((scan_end data).2 <> []) as Hne by (by intros He; rewrite He in Hc; simpl in Hc; lia).
  rewrite (scan_end_app data rest Hne). destruct (scan_end data) as [p r]. cbn [fst snd] in *.
  rewrite length_app, !(proj2 (Z.ltb_ge _ (GDB_PKT_SZ - 1))) by (unfold GDB_PKT_SZ in *; lia).
  rewrite !lookup_total_app_l by lia.
  destruct (c_true _); [|done]. destruct (gdb_checksum_verify _ _ _); [|done].
  by destruct (process p _).
Qed.

Lemma parse_complete_size data g : complete data = true ->
  parse data g = (g' ← snd <$> parse data g; Some (pkt_size data, g')).
Proof. intros Hc. rewrite <- (parse_complete data [] g Hc). by rewrite app_nil_r. Qed.

(** One iteration on data with more data after it. *)
Lemma step_app b d1 d2 g : b <> GDB_PKT_BYTE \/ complete (b :: d1) = true ->
  step b (b :: d1 ++ d2) g = step b (b :: d1) g.
Proof.
  intros Hb. unfold gdb_consume_step. destruct (b =? GDB_ACK_BYTE); [done|].
  destruct (Z.eqb_spec b GDB_PKT_BYTE) as [He|]; [|done]. destruct Hb as [|Hc]; [done|].
  rewrite app_comm_cons, parse_complete by done.
  symmetry. by apply parse_complete_size.
Qed.

Lemma step_done b d g n g' : step b (b :: d) g = Some (n, g') ->
  (n = 0 /\ g' = g /\ b = GDB_PKT_BYTE /\ complete (b :: d) = false) \/
  (1 <= n <= Z.of_nat (length (b :: d)) /\ (b <> GDB_PKT_BYTE \/ complete (b :: d) = true)).
Proof.
  unfold gdb_consume_step. destruct (Z.eqb_spec b GDB_ACK_BYTE) as [->|_].
  { intros (x & _ & [= <- <-])%bind_Some. right. split; [simpl; lia|left; discriminate]. }
  destruct (Z.eqb_spec b GDB_PKT_BYTE) as [->|Hb].
  { destruct (complete (GDB_PKT_BYTE :: d)) eqn:Hc.
    - intros Hs. rewrite (parse_complete_size _ _ Hc) in Hs. apply bind_Some in Hs as (x & _ & [= <- <-]).
      pose proof (pkt_size_bound _ Hc). right. split; [lia|by right].
    - rewrite parse_incomplete by done. intros [= <- <-]. by left. }
  assert (Z.of_nat (length (b :: d)) >= 1) by (simpl; lia).
  intros Hs. assert (n = 1) as ->; [|right; split; [lia|by left]].
  destruct (b =? GDB_INT_BYTE); [by apply bind_Some in Hs as (x & _ & [= <- <-])|].
  by destruct (b =? GDB_NAK_BYTE); injection Hs as <- <-.
Qed.

(** More fuel than bytes changes nothing. *)
Lemma loop_fuel fuel : forall data g, (length data <= fuel)%nat -> loop fuel data g = consume data g.
Proof.
  unfold gdb_consume_packet. induction fuel as [fuel IH] using lt_wf_ind. intros data g Hf.
  destruct data as [|b d]; [by destruct fuel|]. cbn [length] in *. destruct fuel as [|fuel]; [lia|].
  cbn [gdb_consume_loop]. destruct (step b (b :: d) g) as [[n g']|] eqn:Hs; [|done]. cbn [mbind option_bind].
  destruct (step_done _ _ _ _ _ Hs) as [(-> & _)|[Hn _]]; [done|].
  destruct (c_true n); [|done].
  assert (length (drop (Z.to_nat n) (b :: d)) <= length d)%nat by (rewrite length_drop; simpl; lia).
  rewrite (IH fuel) by lia. rewrite <- (IH (length d)) by lia. done.
Qed.

Lemma consume_cons b d g : consume (b :: d) g =
  ('(done, g') ← step b (b :: d) g;
   if c_true done then consume (drop (Z.to_nat done) (b :: d)) g' else Some (b :: d, g')).
Proof.
  unfold gdb_consume_packet at 1. cbn [length gdb_consume_loop].
  destruct (step b (b :: d) g) as [[n g']|] eqn:Hs; [|done]. cbn [mbind option_bind].
  destruct (step_done _ _ _ _ _ Hs) as [(-> & _)|[Hn _]]; [done|].
  destruct (c_true n); [|done]. apply loop_fuel. rewrite length_drop. simpl. lia.
Qed.

Lemma consume_app n : forall d1 d2 g, (length d1 <= n)%nat ->
  consume (d1 ++ d2) g = ('(r, g1) ← consume d1 g; consume (r ++ d2) g1).
Proof.
  induction n as [|n IH]; intros [|b d1] d2 g Hl; try done; [simpl in Hl; lia|].
  rewrite (consume_cons b d1). destruct (step b (b :: d1) g) as [[k g']|] eqn:Hs; cbn [mbind option_bind].
  - destruct (step_done _ _ _ _ _ Hs) as [(-> & -> & _)|[Hk Hb]]; [done|].
    rewrite (c_true_ne k) by lia. rewrite <- app_comm_cons, consume_cons, step_app, Hs by done.
    cbn [mbind option_bind]. rewrite (c_true_ne k) by lia.
    rewrite app_comm_cons, drop_app_le by (simpl in *; lia).
    apply IH. rewrite length_drop. simpl in *. lia.
  - rewrite <- app_comm_cons, consume_cons, step_app, Hs; [done|].
    destruct (decide (b = GDB_PKT_BYTE)) as [->|]; [right|by left].
    destruct (complete _) eqn:Hc; [done|]. unfold gdb_consume_step in Hs.
    change (GDB_PKT_BYTE =? GDB_ACK_BYTE) with false in Hs. rewrite Z.eqb_refl in Hs.
    by rewrite parse_incomplete in Hs.
Qed.
End stream.

(** ** Commas and digits *)

(** The digits of [uint64_to_hex] without precision. *)
Definition hexstr (v : Z) : bytes := default [] (fst <$> uint64_to_hex [] 16 v 0).

Lemma hexstr_spec v : fits 64 v -> hex_to_uint64 (hexstr v) = Some v /\ hexstr v <> [] /\
  Forall (fun c => c <> 44 /\ c <> 58 /\ c <> 61) (hexstr v).
Proof.
  intros Hv. unfold hexstr. destruct (uint64_to_hex_total v 0) as (ns & He & Hl & Hns); [done..|].
  destruct (Hns eq_refl) as (Hf & Hle & Hne). rewrite He. cbn [fmap option_fmap option_map fst default].
  rewrite buf_adds_fit by (rewrite length_reverse, length_map; simpl; lia). cbn [app].
  unfold id. rewrite hex_to_uint64_digits by (done || lia). split_and!; [by rewrite Hle| |].
  - intros Hr. apply (f_equal length) in Hr. rewrite length_reverse, length_map in Hr. by destruct ns.
  - apply Forall_reverse, Forall_map. eapply Forall_impl; [exact Hf|]. intros n Hn. unfold nibble in Hn. simpl.
    assert (Forall (fun n => hexchar n <> 44 /\ hexchar n <> 58 /\ hexchar n <> 61) (seqZ 0 16)) as Hall by by repeat constructor.
    rewrite Forall_forall in Hall. apply Hall, elem_of_seqZ. lia.
Qed.

Lemma strchr_first pre post c : Forall (fun x => x <> c) pre -> post <> [] ->
  strchr (pre ++ c :: post) c = Some (length pre).
Proof.
  intros Hf Hp. induction Hf as [|x pre Hx Hf IH]; cbn [app strchr length].
  - rewrite Z.eqb_refl. by destruct post.
  - rewrite (proj2 (Z.eqb_neq x c)) by done. by rewrite IH.
Qed.

Lemma take_drop_at {A} (pre : list A) c post : take (length pre) (pre ++ c :: post) = pre /\
  drop (S (length pre)) (pre ++ c :: post) = post.
Proof. split; [by rewrite take_app_length|]. by induction pre. Qed.

(** ** Properties *)

Section properties.
Context {V : Type} {IO : CtrlIO V} {CV : CpuView V}.
Implicit Types (g : gdb V).

Lemma mem_op_ok addr size bs g : fits 64 addr -> fits 64 size -> bs <> [] ->
  gdb_setup_mem_op (hexstr addr ++ 44 :: hexstr size) false g = (Some (addr, size, []), g) /\
  gdb_setup_mem_op (hexstr addr ++ 44 :: hexstr size ++ 58 :: bs) true g = (Some (addr, size, bs), g).
Proof.
  intros Ha Hs Hb. destruct (hexstr_spec addr Ha) as (Ha1 & Ha2 & Ha3). destruct (hexstr_spec size Hs) as (Hs1 & Hs2 & Hs3).
  assert (Forall (fun x => x <> 44) (hexstr addr)) as Hc by (eapply Forall_impl; [exact Ha3|by intros ? (? & ? & ?)]).
  assert (Forall (fun x => x <> 58) (hexstr size)) as Hd by (eapply Forall_impl; [exact Hs3|by intros ? (? & ? & ?)]).
  unfold gdb_setup_mem_op, gdb_get_number. split.
  - rewrite strchr_first by done. cbn [mbind option_bind].
    destruct (take_drop_at (hexstr addr) 44 (hexstr size)) as [-> ->]. by rewrite Ha1, Hs1.
  - rewrite strchr_first by (done || by destruct (hexstr size)). cbn [mbind option_bind].
    destruct (take_drop_at (hexstr addr) 44 (hexstr size ++ 58 :: bs)) as [-> ->].
    rewrite strchr_first by done. cbn [mbind option_bind].
    destruct (take_drop_at (hexstr size) 58 bs) as [-> ->]. by rewrite Ha1, Hs1.
Qed.

(** A number of the answer, written with a precision that fits the buffer, is
    read back modulo that precision, in both byte orders. *)
Theorem gdb_number_roundtrip v p e g : fits 64 v -> 1 <= p <= 16 ->
  Z.of_nat (length (g_buf g)) + p <= GDB_BUF_SZ ->
  exists ds, gdb_add_number v p e g = Some (set_buf (g_buf g ++ ds) g) /\
    Z.of_nat (length ds) = p /\ gdb_get_number ds e = Some (v mod 16 ^ p).
Proof. apply add_number_spec. Qed.

(** C36: An answer without '#' that the stub sends is one packet: a stub that
    receives it, with any bytes after it, processes exactly that answer. *)
Theorem gdb_packet_roundtrip g : g_buf g <> [] -> (GDB_END_BYTE ∉ g_buf g) ->
  Z.of_nat (length (g_buf g)) <= GDB_BUF_SZ ->
  exists out, gdb_send_packet g = gdb_io_write out (gdb_set_ack false g) /\
    forall process enable r rest, g_on r = true ->
      gdb_consume_packet process enable (out ++ rest) r =
      (r' ← process (g_buf g) (gdb_reset_buffer r); gdb_consume_packet process enable rest r').
Proof.
  intros Hne Hend Hlen. set (pkt := GDB_PKT_BYTE :: g_buf g ++ GDB_END_BYTE :: gdb_checksum (g_buf g)).
  exists ((if g_ack g then [] else [GDB_ACK_BYTE]) ++ pkt). split.
  { unfold gdb_send_packet. destruct g as [on lock [] reason buf v]; cbn [g_ack g_buf gdb_set_ack] in *;
      rewrite (proj2 (Z.ltb_ge _ _)) by done; done. }
  intros process enable r rest Hon.
  assert (gdb_consume_packet process enable (pkt ++ rest) r =
    (r' ← process (g_buf g) (gdb_reset_buffer r); gdb_consume_packet process enable rest r')) as Hp.
  { unfold pkt. rewrite <- app_comm_cons, consume_cons. unfold gdb_consume_step.
    change (GDB_PKT_BYTE =? GDB_ACK_BYTE) with false. rewrite Z.eqb_refl. cbv iota.
    destruct (gdb_checksum (g_buf g)) as [|c0 [|c1 [|]]] eqn:Hc;
      try (unfold gdb_checksum in Hc; destruct (uint8_to_hex _); discriminate Hc).
    unfold gdb_parse_packet. cbn [tail]. rewrite <- app_assoc, <- app_comm_cons, scan_end_no by done.
    cbn [app length]. rewrite !(proj2 (Z.ltb_ge _ _)) by (unfold GDB_PKT_SZ; rewrite ?length_app; simpl; lia).
    rewrite c_true_ne by (destruct (g_buf g); simpl; [done|lia]). cbn [lookup_total list_lookup_total].
    rewrite checksum_verify by done. destruct (process _ _); [|done]. cbn [mbind option_bind].
    rewrite c_true_ne by (unfold GDB_PKT_SZ; lia). f_equal.
    replace (Z.to_nat _) with (S (length (g_buf g) + 3))%nat by (unfold GDB_PKT_SZ; lia).
    cbn [drop]. rewrite drop_app_add. done. }
  destruct (g_ack g); [done|]. rewrite <- app_assoc. cbn [app]. rewrite consume_cons. unfold gdb_consume_step.
  rewrite Z.eqb_refl, Hon. cbn [negb mbind option_bind]. change (c_true 1) with true. cbv iota.
  exact Hp.
Qed.

(** A packet whose two checksum characters are not the checksum of its payload
    is answered with a NAK and is not processed. *)
Theorem gdb_packet_corrupt process enable p c0 c1 rest g : p <> [] -> (GDB_END_BYTE ∉ p) ->
  hex_to_uint8 c0 c1 <> Some (gdb_checksum_of p) ->
  gdb_consume_packet process enable (GDB_PKT_BYTE :: p ++ GDB_END_BYTE :: c0 :: c1 :: rest) g =
  gdb_consume_packet process enable rest (gdb_nak g).
Proof.
  intros Hne Hend Hc. rewrite consume_cons. unfold gdb_consume_step.
  change (GDB_PKT_BYTE =? GDB_ACK_BYTE) with false. rewrite Z.eqb_refl. cbv iota.
  unfold gdb_parse_packet. cbn [tail]. rewrite scan_end_no by done.
  cbn [length]. rewrite !(proj2 (Z.ltb_ge _ _)) by (unfold GDB_PKT_SZ; rewrite ?length_app; simpl; lia).
  rewrite c_true_ne by (destruct p; simpl; [done|lia]). cbn [lookup_total list_lookup_total].
  assert (gdb_checksum_verify p c0 c1 = false) as ->.
  { unfold gdb_checksum_verify. destruct (hex_to_uint8 c0 c1); [|done]. apply Z.eqb_neq. congruence. }
  cbn [mbind option_bind]. rewrite c_true_ne by (unfold GDB_PKT_SZ; lia). f_equal.
  replace (Z.to_nat _) with (S (length p + 3))%nat by (unfold GDB_PKT_SZ; lia).
  cbn [drop]. rewrite drop_app_add. done.
Qed.

(** C37: The input is a stream: cutting it anywhere, and keeping the bytes that
    remain in front of those read next, processes the same packets. *)
Theorem gdb_consume_split process enable d1 d2 g :
  gdb_consume_packet process enable (d1 ++ d2) g =
  ('(r, g1) ← gdb_consume_packet process enable d1 g; gdb_consume_packet process enable (r ++ d2) g1).
Proof. by apply (consume_app process enable (length d1)). Qed.

(** The operands of a memory command: an address and a size in hexadecimal,
    and, for a write, the bytes after the colon. *)
Theorem gdb_mem_op_parse addr size bs g : fits 64 addr -> fits 64 size -> bs <> [] ->
  gdb_setup_mem_op (hexstr addr ++ 44 :: hexstr size) false g = (Some (addr, size, []), g) /\
  gdb_setup_mem_op (hexstr addr ++ 44 :: hexstr size ++ 58 :: bs) true g = (Some (addr, size, bs), g).
Proof. apply mem_op_ok. Qed.

(** A packet of more than 1024 bytes never ends: the input is full, the driver
    is asked for 0 bytes, and [gdb_recv_packet] does not return. *)
Theorem gdb_recv_livelock `{!CtrlIOLaws V} process enable fuel : forall data g,
  Z.of_nat (length data) = GDB_INPUT_SZ -> head data = Some GDB_PKT_BYTE -> complete data = false ->
  gdb_recv_loop process enable fuel data g = None.
Proof.
  induction fuel as [|fuel IH]; intros data g Hl Hh Hc; [done|]. cbn [gdb_recv_loop].
  unfold gdb_io_read. pose proof (io_read_len (GDB_INPUT_SZ - Z.of_nat (length data)) (g_v g)) as Hr.
  rewrite Hl in Hr |- *. destruct (io_read _ _) as [got v]. cbn [fst] in Hr.
  destruct got; [|simpl in Hr; lia]. rewrite app_nil_r, Hl. change (c_true GDB_INPUT_SZ) with true. cbv iota.
  destruct data as [|b data]; [done|]. injection Hh as ->.
  rewrite consume_cons. unfold gdb_consume_step. change (GDB_PKT_BYTE =? GDB_ACK_BYTE) with false.
  rewrite Z.eqb_refl. cbv iota. rewrite parse_incomplete by done. cbn [mbind option_bind].
  change (c_true 0) with false. cbv iota. cbn [mbind option_bind]. rewrite Hl.
  change (c_true GDB_INPUT_SZ) with true. cbn [orb]. by apply IH.
Qed.

(** [gdb_wait_ack] returns on any byte, an acknowledgement or not. *)
Theorem gdb_wait_ack_any x b v g : io_read 1 (g_v g) = ([b], v) -> gdb_wait_ack 1 x g = Some (set_v v g).
Proof. intros He. cbn [gdb_wait_ack]. unfold gdb_io_read. by rewrite He. Qed.
End properties.

(** ** Witnesses: a stub whose output is a log *)

Definition log_io : CtrlIO bytes := {| io_write b v := v ++ b; io_read _ v := ([], v) |}.
Definition log_view : CpuView bytes :=
  {| cpu_addr_sz _ := 32; view_rsp _ := 0x1000; view_rbp _ := 0x2000; view_rip _ := 0x7c00 |}.
Definition ex_gdb : gdb bytes := mk_gdb true false true 0 [79; 75] [].

Example gdb_number_roundtrip_witness :
  exists ds, gdb_add_number 0x12345678 8 true ex_gdb = Some (set_buf (g_buf ex_gdb ++ ds) ex_gdb) /\
    Z.of_nat (length ds) = 8 /\ gdb_get_number ds true = Some (0x12345678 mod 16 ^ 8).
Proof. apply gdb_number_roundtrip; [by split|lia|by vm_compute]. Defined.

Example gdb_packet_roundtrip_witness :
  exists out, @gdb_send_packet _ log_io ex_gdb = @gdb_io_write _ log_io out (gdb_set_ack false ex_gdb) /\
    forall process enable r rest, g_on r = true ->
      @gdb_consume_packet _ log_io log_view process enable (out ++ rest) r =
      (r' ← process (g_buf ex_gdb) (gdb_reset_buffer r); @gdb_consume_packet _ log_io log_view process enable rest r').
Proof.
  apply (@gdb_packet_roundtrip bytes log_io log_view); [done| |by vm_compute].
  apply (bool_decide_unpack _). vm_compute. exact I.
Defined.

Example gdb_packet_corrupt_witness :
  @gdb_consume_packet _ log_io log_view (fun _ g => Some g) Some [36; 79; 75; 35; 57; 98] ex_gdb =
  @gdb_consume_packet _ log_io log_view (fun _ g => Some g) Some [] (@gdb_nak _ log_io ex_gdb).
Proof.
  apply (@gdb_packet_corrupt bytes log_io log_view (fun _ g => Some g) Some [79; 75] 57 98 [] ex_gdb); [done| |].
  - apply (bool_decide_unpack _). vm_compute. exact I.
  - by vm_compute.
Defined.

Example gdb_mem_op_parse_witness :
  gdb_setup_mem_op (IO := log_io) (hexstr 0x7c00 ++ 44 :: hexstr 2) false ex_gdb = (Some (0x7c00, 2, []), ex_gdb) /\
  gdb_setup_mem_op (IO := log_io) (hexstr 0x7c00 ++ 44 :: hexstr 2 ++ 58 :: [57; 48; 57; 48]) true ex_gdb =
    (Some (0x7c00, 2, [57; 48; 57; 48]), ex_gdb).
Proof. apply (gdb_mem_op_parse (V := bytes)); [by split|by split|done]. Defined.
