(* ===== verification/DbgHard.v ===== *)
(** * Hardware breakpoints and single-step (vmm/src/control/dbg_hard.c,
    dbg_hard_brk.c, dbg_hard_stp.c, core/dr.c, include/dbg_hard*.h)

    The vmm uses the debug registers of the processor for its own breakpoints
    and shows the vm a shadow of them.  [__pre_access], [__post_access] and
    [__cond_access] move fields between the processor's control structure and
    memory: a field is modelled by its current value. *)

From S2P Require Import Prelude.

(** ** State *)

(** The registers: dr0 to dr3 of the processor, dr6, dr7, rflags and the
    sysenter_cs msr of the vm, the shadow of the debug registers the vm sees,
    and whether its accesses to them are intercepted. *)
Record regs := mk_regs {
  r_dr : list Z;
  r_dr6 : Z;
  r_dr7 : Z;
  r_rflags : Z;
  r_sysenter_cs : Z;
  r_shadow : list Z;
  r_deny : bool;
}.

(** [dbg_hard_brk_t]. *)
Record brk := mk_brk {
  b_insn : bool;
  b_on : bool;
  b_dis : bool;
  b_rf : Z;
  b_dr7 : Z;
  b_hdlr : list Z;
}.

(** [dbg_hard_stp_t]. *)
Record stp := mk_stp {
  s_on : bool;
  s_tf : Z;
  s_rq : Z;
  s_ctx : Z;
}.

(** [dbg_evt_t]: the union holds a soft breakpoint or the index of a hard one. *)
Inductive evt_src := EvSoft (i : nat) | EvHard (n : Z).
Record evt := mk_evt {
  ev_type : Z;
  ev_addr : Z;
  ev_src : evt_src;
}.

(** The part of [ctrl_dbg_t] of this file, with the "traps updated" status bit of
    the controller. *)
Record hdbg := mk_hdbg {
  h_regs : regs;
  h_brk : brk;
  h_stp : stp;
  h_excp : Z;
  h_utraps : bool;
  h_dirty : bool;
  h_evt : evt;
}.

Definition set_regs (r : regs) (d : hdbg) : hdbg := mk_hdbg r (h_brk d) (h_stp d) (h_excp d) (h_utraps d) (h_dirty d) (h_evt d).
Definition set_brk (b : brk) (d : hdbg) : hdbg := mk_hdbg (h_regs d) b (h_stp d) (h_excp d) (h_utraps d) (h_dirty d) (h_evt d).
Definition set_stp (s : stp) (d : hdbg) : hdbg := mk_hdbg (h_regs d) (h_brk d) s (h_excp d) (h_utraps d) (h_dirty d) (h_evt d).
(** [info->vmm.ctrl.dbg.excp = x; ctrl_traps_set_update(1)] *)
Definition set_excp (x : Z) (d : hdbg) : hdbg := mk_hdbg (h_regs d) (h_brk d) (h_stp d) x true (h_dirty d) (h_evt d).
Definition dbg_hard_set_dr6_dirty (x : bool) (d : hdbg) : hdbg := mk_hdbg (h_regs d) (h_brk d) (h_stp d) (h_excp d) (h_utraps d) x (h_evt d).
Definition set_evt (e : evt) (d : hdbg) : hdbg := mk_hdbg (h_regs d) (h_brk d) (h_stp d) (h_excp d) (h_utraps d) (h_dirty d) e.

Definition set_dr6 (x : Z) (d : hdbg) : hdbg := let r := h_regs d in
  set_regs (mk_regs (r_dr r) x (r_dr7 r) (r_rflags r) (r_sysenter_cs r) (r_shadow r) (r_deny r)) d.
Definition set_dr7 (x : Z) (d : hdbg) : hdbg := let r := h_regs d in
  set_regs (mk_regs (r_dr r) (r_dr6 r) x (r_rflags r) (r_sysenter_cs r) (r_shadow r) (r_deny r)) d.
Definition set_rflags (x : Z) (d : hdbg) : hdbg := let r := h_regs d in
  set_regs (mk_regs (r_dr r) (r_dr6 r) (r_dr7 r) x (r_sysenter_cs r) (r_shadow r) (r_deny r)) d.
Definition set_sysenter_cs (x : Z) (d : hdbg) : hdbg := let r := h_regs d in
  set_regs (mk_regs (r_dr r) (r_dr6 r) (r_dr7 r) (r_rflags r) x (r_shadow r) (r_deny r)) d.
Definition set_shadow (x : list Z) (d : hdbg) : hdbg := let r := h_regs d in
  set_regs (mk_regs (r_dr r) (r_dr6 r) (r_dr7 r) (r_rflags r) (r_sysenter_cs r) x (r_deny r)) d.
Definition set_deny (x : bool) (d : hdbg) : hdbg := let r := h_regs d in
  set_regs (mk_regs (r_dr r) (r_dr6 r) (r_dr7 r) (r_rflags r) (r_sysenter_cs r) (r_shadow r) x) d.

Definition hbrk_set_dr7 (x : Z) (d : hdbg) : hdbg := let b := h_brk d in
  set_brk (mk_brk (b_insn b) (b_on b) (b_dis b) (b_rf b) x (b_hdlr b)) d.
Definition dbg_hard_brk_set_hdlr (n h : Z) (d : hdbg) : hdbg := let b := h_brk d in
  set_brk (mk_brk (b_insn b) (b_on b) (b_dis b) (b_rf b) (b_dr7 b) (<[Z.to_nat n := h]> (b_hdlr b))) d.
Definition dbg_hard_brk_set_enable (x : bool) (d : hdbg) : hdbg := let b := h_brk d in
  set_brk (mk_brk (b_insn b) x (b_dis b) (b_rf b) (b_dr7 b) (b_hdlr b)) d.
Definition dbg_hard_brk_set_disarm (x : bool) (d : hdbg) : hdbg := let b := h_brk d in
  set_brk (mk_brk (b_insn b) (b_on b) x (b_rf b) (b_dr7 b) (b_hdlr b)) d.
Definition dbg_hard_brk_insn_set_enable (x : bool) (d : hdbg) : hdbg := let b := h_brk d in
  set_brk (mk_brk x (b_on b) (b_dis b) (b_rf b) (b_dr7 b) (b_hdlr b)) d.
Definition dbg_hard_brk_save_rf (x : Z) (d : hdbg) : hdbg := let b := h_brk d in
  set_brk (mk_brk (b_insn b) (b_on b) (b_dis b) x (b_dr7 b) (b_hdlr b)) d.

Definition dbg_hard_stp_set_enable (x : bool) (d : hdbg) : hdbg := let s := h_stp d in
  set_stp (mk_stp x (s_tf s) (s_rq s) (s_ctx s)) d.
Definition dbg_hard_stp_save_tf (x : Z) (d : hdbg) : hdbg := let s := h_stp d in
  set_stp (mk_stp (s_on s) x (s_rq s) (s_ctx s)) d.
Definition dbg_hard_stp_set_req (x : Z) (d : hdbg) : hdbg := let s := h_stp d in
  set_stp (mk_stp (s_on s) (s_tf s) x (s_ctx s)) d.

(** ** Constants *)

Definition DB_EXCP : Z := 1.
Definition BP_EXCP : Z := 3.
Definition GP_EXCP : Z := 13.
Definition DR7_COND_X : Z := 0.
Definition DBG_EVT_TYPE_HARD_SSTEP : Z := 4.
Definition DBG_EVT_TYPE_SOFT_BRK : Z := 0xff.
Definition DBG_REQ_USR : Z := 0.
Definition DBG_REQ_VMM : Z := 1.
Definition DBG_HARD_BRK_NR : Z := 4.
Definition RFLAGS_TF : Z := 8.
Definition RFLAGS_RF : Z := 16.

(** ** dr7 fields (dbg_hard_brk.h) *)

Definition hbrk_enbl_idx (n : Z) : Z := n * 2 + 1.
Definition hbrk_conf_idx (n : Z) : Z := 16 + n * 4.
Definition hbrk_type_of (c : Z) : Z := Z.land c 3.
Definition hbrk_set_enbl (n : Z) : Z := Z.shiftl 1 (hbrk_enbl_idx n).
Definition hbrk_set_conf (n c : Z) : Z := wrap32 (Z.shiftl c (hbrk_conf_idx n)).
Definition hbrk_mke_conf (t l : Z) : Z := Z.land (Z.lor (Z.shiftl (Z.land l 3) 2) (Z.land t 3)) 0xf.

Definition hbrk_setup_bp (n t l dr7 : Z) : Z :=
  Z.lor dr7 (Z.lor (hbrk_set_conf n (hbrk_mke_conf t l)) (hbrk_set_enbl n)).
Definition hbrk_delete_bp (n dr7 : Z) : Z :=
  Z.land dr7 (wnot 32 (Z.lor (hbrk_set_conf n 0xf) (Z.shiftl 3 (hbrk_enbl_idx n)))).
Definition hbrk_get_config (n dr7 : Z) : Z := Z.land (Z.shiftr dr7 (hbrk_conf_idx n)) 0xf.
Definition hbrk_get_type (n dr7 : Z) : Z := Z.land (Z.shiftr dr7 (hbrk_conf_idx n)) 3.
Definition hbrk_enabled (n dr7 : Z) : bool := c_true (Z.land (Z.land dr7 0xff) (hbrk_set_enbl n)).
Definition hbrk_raised (n dr6 : Z) : bool := c_true (Z.land (Z.land dr6 0xff) (Z.shiftl 1 n)).

(** ** Debug registers of the processor (dr.c) *)

Definition dr_nr (n : Z) : nat := Z.to_nat (if 3 <? n then Z.land n 3 else n).
Definition get_dr (n : Z) (d : hdbg) : Z := r_dr (h_regs d) !!! dr_nr n.
Definition set_dr (n addr : Z) (d : hdbg) : hdbg := let r := h_regs d in
  set_regs (mk_regs (<[dr_nr n := addr]> (r_dr r)) (r_dr6 r) (r_dr7 r) (r_rflags r) (r_sysenter_cs r) (r_shadow r) (r_deny r)) d.

(** ** dbg_hard.c *)

Definition low32 (x : Z) : Z := bits x 0 32.
Definition set_low32 (x v : Z) : Z := set_bits x 0 32 v.

Definition dbg_hard_dr6_clean (d : hdbg) : hdbg :=
  let d := dbg_hard_set_dr6_dirty false d in
  set_dr6 (set_bits (r_dr6 (h_regs d)) 0 16 0x0ff0) d.

Definition dbg_hard_brk_dr7_clean (d : hdbg) : hdbg :=
  let d := hbrk_set_dr7 (set_low32 (b_dr7 (h_brk d)) (Z.land (low32 (b_dr7 (h_brk d))) 0x100)) d in
  set_dr7 (set_low32 (r_dr7 (h_regs d)) (Z.land (low32 (r_dr7 (h_regs d))) 0x100)) d.

(** The shadow keeps the raw values of dr0 to dr3 and the low words of dr6 and
    dr7. *)
Definition dbg_hard_protect_dr (d : hdbg) : hdbg :=
  let d := set_deny true d in
  let r := h_regs d in
  let sh := r_shadow r in
  let sh := <[0%nat := get_dr 0 d]> (<[1%nat := get_dr 1 d]> (<[2%nat := get_dr 2 d]> (<[3%nat := get_dr 3 d]> sh))) in
  let sh := <[4%nat := set_low32 (sh !!! 4%nat) (low32 (r_dr6 r))]> sh in
  let sh := <[5%nat := set_low32 (sh !!! 5%nat) (low32 (r_dr7 r))]> sh in
  dbg_hard_brk_dr7_clean (dbg_hard_dr6_clean (set_shadow sh d)).

Definition dbg_hard_release_dr (d : hdbg) : hdbg :=
  let sh := r_shadow (h_regs d) in
  let d := set_dr 3 (sh !!! 3%nat) (set_dr 2 (sh !!! 2%nat) (set_dr 1 (sh !!! 1%nat) (set_dr 0 (sh !!! 0%nat) d))) in
  let d := set_dr6 (set_low32 (r_dr6 (h_regs d)) (low32 (sh !!! 4%nat))) d in
  let d := set_dr7 (set_low32 (r_dr7 (h_regs d)) (low32 (sh !!! 5%nat))) d in
  set_deny false (dbg_hard_set_dr6_dirty false d).

Definition dbg_hard_protect (d : hdbg) : hdbg :=
  if negb (b_on (h_brk d)) && negb (s_on (h_stp d)) then d
  else if c_true (Z.land (h_excp d) (Z.shiftl 1 DB_EXCP)) then d
  else set_excp (Z.lor (h_excp d) (Z.shiftl 1 DB_EXCP)) d.

Definition dbg_hard_release (d : hdbg) : hdbg :=
  if b_on (h_brk d) || s_on (h_stp d) then d
  else if negb (c_true (Z.land (h_excp d) (Z.shiftl 1 DB_EXCP))) then d
  else set_excp (Z.land (h_excp d) (wnot 32 (Z.shiftl 1 DB_EXCP))) d.

Definition dbg_hard_setup := dbg_hard_protect_dr.

(** ** dbg_hard_brk.c *)

Definition dbg_hard_brk_insn_protect (d : hdbg) : hdbg :=
  if negb (b_insn (h_brk d)) then d
  else
    let d := dbg_hard_brk_save_rf (bits (r_rflags (h_regs d)) RFLAGS_RF 1) d in
    set_rflags (set_bits (r_rflags (h_regs d)) RFLAGS_RF 1 0) d.

Definition dbg_hard_brk_insn_release (d : hdbg) : hdbg :=
  if b_insn (h_brk d) then d
  else set_rflags (set_bits (r_rflags (h_regs d)) RFLAGS_RF 1 (b_rf (h_brk d))) d.

Definition dbg_hard_brk_insn_enable (d : hdbg) : hdbg :=
  dbg_hard_brk_insn_protect (dbg_hard_brk_insn_set_enable true d).
Definition dbg_hard_brk_insn_disable (d : hdbg) : hdbg :=
  dbg_hard_brk_insn_release (dbg_hard_brk_insn_set_enable false d).

Definition dbg_hard_brk_enable (d : hdbg) : hdbg := dbg_hard_protect (dbg_hard_brk_set_enable true d).
Definition dbg_hard_brk_disable (d : hdbg) : hdbg := dbg_hard_release (dbg_hard_brk_set_enable false d).

(** [dr7.low] of the breakpoints. *)
Definition hbrk_dr7 (d : hdbg) : Z := low32 (b_dr7 (h_brk d)).
Definition hbrk_upd (f : Z -> Z) (d : hdbg) : hdbg :=
  hbrk_set_dr7 (set_low32 (b_dr7 (h_brk d)) (f (hbrk_dr7 d))) d.

(** The first slot of [n], ... that is not enabled. *)
Definition hbrk_slots : list Z := seqZ 0 DBG_HARD_BRK_NR.
Definition hbrk_first (p : Z -> bool) : option Z := head (filter (fun n => p n = true) hbrk_slots).

(** [true] is VM_DONE, [false] VM_IGNORE. *)
Definition dbg_hard_brk_set (addr type len hdlr : Z) (d : hdbg) : bool * hdbg :=
  match hbrk_first (fun n => negb (hbrk_enabled n (hbrk_dr7 d))) with
  | None => (false, d)
  | Some n =>
      let d := hbrk_upd (hbrk_setup_bp n type len) d in
      let d := dbg_hard_brk_set_hdlr n hdlr d in
      let d := set_dr n addr d in
      let d := if (type =? DR7_COND_X) && negb (b_insn (h_brk d)) then dbg_hard_brk_insn_enable d else d in
      (true, dbg_hard_brk_enable d)
  end.

(** One slot of the loop of [dbg_hard_brk_del]: the state, and whether
    breakpoints remain ([more]), one of them on execution ([more_x]). *)
Definition hbrk_del_step (addr check : Z) (acc : bool * bool * bool * hdbg) (n : Z) : bool * bool * bool * hdbg :=
  let '(rc, more, more_x, d) := acc in
  if hbrk_enabled n (hbrk_dr7 d) then
    let conf := hbrk_get_config n (hbrk_dr7 d) in
    if (conf =? check) && (addr =? get_dr n d) then (true, more, more_x, hbrk_upd (hbrk_delete_bp n) d)
    else if negb more_x || negb more then
      (rc, true, (if hbrk_type_of conf =? DR7_COND_X then true else more_x), d)
    else acc
  else acc.

Definition dbg_hard_brk_del (addr type len : Z) (d : hdbg) : bool * hdbg :=
  let check := hbrk_mke_conf type len in
  let '(rc, more, more_x, d) := fold_left (hbrk_del_step addr check) hbrk_slots (false, false, false, d) in
  let d :=
    if negb more_x then
      let d := dbg_hard_brk_insn_disable d in
      if negb more then dbg_hard_brk_disable d else d
    else d in
  (rc, d).

Definition dbg_hard_brk_resume (d : hdbg) : hdbg :=
  match ev_src (h_evt d) with
  | EvHard n =>
      if negb (ev_type (h_evt d) =? DR7_COND_X) || negb (hbrk_enabled n (hbrk_dr7 d)) then d
      else set_rflags (set_bits (r_rflags (h_regs d)) RFLAGS_RF 1 1) d
  | EvSoft _ => d
  end.

Definition dbg_hard_brk_disarm (d : hdbg) : hdbg :=
  let d := dbg_hard_brk_set_disarm true d in
  set_dr7 (set_low32 (r_dr7 (h_regs d)) (Z.land (low32 (r_dr7 (h_regs d))) 0x100)) d.

Definition dbg_hard_brk_rearm (d : hdbg) : hdbg :=
  let d := dbg_hard_brk_set_disarm false d in
  set_dr7 (set_low32 (r_dr7 (h_regs d)) (hbrk_dr7 d)) d.

(** The handler of the breakpoint raised, if there is one. *)
Definition dbg_hard_brk_event (d : hdbg) : option Z * hdbg :=
  if negb (b_on (h_brk d)) then (None, d)
  else
    match hbrk_first (fun n => hbrk_raised n (r_dr6 (h_regs d)) && hbrk_enabled n (hbrk_dr7 d)) with
    | None => (None, d)
    | Some n =>
        let d := set_evt (mk_evt (hbrk_get_type n (hbrk_dr7 d)) (get_dr n d) (EvHard n)) d in
        (Some (b_hdlr (h_brk d) !!! Z.to_nat n), dbg_hard_set_dr6_dirty true d)
    end.

(** The status byte is cleared; dr7 and the handlers stay. *)
Definition dbg_hard_brk_reset (d : hdbg) : hdbg :=
  let d := dbg_hard_brk_disable d in
  let b := h_brk d in
  set_brk (mk_brk false false false 0 (b_dr7 b) (b_hdlr b)) d.

(** ** dbg_hard_stp.c *)

Definition dbg_hard_stp_save_context (d : hdbg) : hdbg := let s := h_stp d in
  set_stp (mk_stp (s_on s) (s_tf s) (s_rq s) (r_sysenter_cs (h_regs d))) d.
Definition dbg_hard_stp_setup_context (d : hdbg) : hdbg := set_sysenter_cs 0 d.
Definition dbg_hard_stp_restore_context (d : hdbg) : hdbg := set_sysenter_cs (s_ctx (h_stp d)) d.

Definition dbg_hard_stp_protect (d : hdbg) : hdbg :=
  if negb (s_on (h_stp d)) then d
  else
    let d := dbg_hard_stp_save_context d in
    let d := dbg_hard_stp_save_tf (bits (r_rflags (h_regs d)) RFLAGS_TF 1) d in
    let d := set_rflags (set_bits (r_rflags (h_regs d)) RFLAGS_TF 1 1) d in
    let d := set_excp (Z.lor (h_excp d) (Z.shiftl 1 GP_EXCP)) d in
    dbg_hard_protect d.

Definition dbg_hard_stp_release (d : hdbg) : hdbg :=
  if s_on (h_stp d) then d
  else
    let d := dbg_hard_stp_restore_context d in
    let d := set_rflags (set_bits (r_rflags (h_regs d)) RFLAGS_TF 1 (s_tf (h_stp d))) d in
    let d := set_excp (Z.land (h_excp d) (wnot 32 (Z.shiftl 1 GP_EXCP))) d in
    dbg_hard_release d.

Definition dbg_hard_stp_enable (req : Z) (d : hdbg) : hdbg :=
  if s_on (h_stp d) then d
  else dbg_hard_stp_protect (dbg_hard_stp_set_req req (dbg_hard_stp_set_enable true d)).

Definition dbg_hard_stp_disable (d : hdbg) : hdbg :=
  if negb (s_on (h_stp d)) then d
  else dbg_hard_stp_release (dbg_hard_stp_set_enable false d).

Definition dbg_hard_stp_reset (d : hdbg) : hdbg :=
  let d := dbg_hard_stp_disable d in
  set_stp (mk_stp false 0 0 (s_ctx (h_stp d))) d.

Definition dbg_hard_reset (d : hdbg) : hdbg :=
  dbg_hard_release_dr (dbg_hard_stp_reset (dbg_hard_brk_reset d)).

(** ** The fields of dr7 *)

Lemma testbit_one j : Z.testbit 1 j = (j =? 0).
Proof.
  destruct (Z.eqb_spec j 0) as [->|]; [done|]. destruct (Z.lt_ge_cases j 0); [by apply Z.testbit_neg_r|].
  change 1 with (2 ^ 0). by rewrite Z.pow2_bits_false by lia.
Qed.

Lemma c_true_testbit y k : 0 <= k -> c_true (Z.land y (Z.shiftl 1 k)) = Z.testbit y k.
Proof.
  intros Hk. destruct (Z.testbit y k) eqn:Hy.
  - apply c_true_ne. intros H0. apply (f_equal (fun z => Z.testbit z k)) in H0.
    rewrite Z.land_spec, Z.shiftl_spec, Z.sub_diag, Hy, Z.bits_0 in H0 by done. done.
  - assert (Z.land y (Z.shiftl 1 k) = 0) as ->; [|done]. apply Z.bits_inj'. intros i Hi.
    rewrite Z.land_spec, Z.shiftl_spec, testbit_one, Z.bits_0 by done.
    destruct (Z.eqb_spec (i - k) 0); [|by rewrite andb_false_r]. assert (i = k) as -> by lia. by rewrite Hy.
Qed.

Lemma slot_cases n : n ∈ hbrk_slots -> n = 0 \/ n = 1 \/ n = 2 \/ n = 3.
Proof. intros Hn%elem_of_seqZ. unfold DBG_HARD_BRK_NR in Hn. lia. Qed.

Lemma enabled_testbit n x : n ∈ hbrk_slots -> hbrk_enabled n x = Z.testbit x (2 * n + 1).
Proof.
  intros Hn%slot_cases. unfold hbrk_enabled, hbrk_set_enbl, hbrk_enbl_idx.
  rewrite c_true_testbit by lia. rewrite Z.land_spec. change 0xff with (Z.ones 8).
  rewrite Z.testbit_ones by lia. replace (n * 2 + 1) with (2 * n + 1) by lia. repeat zbit_split; btauto.
Qed.

Lemma config_bits n x : hbrk_get_config n x = bits x (16 + 4 * n) 4.
Proof. unfold hbrk_get_config, hbrk_conf_idx, bits. by replace (n * 4) with (4 * n) by lia. Qed.

Lemma mke_conf_fits t l : fits 4 (hbrk_mke_conf t l).
Proof. unfold hbrk_mke_conf. apply (bits_fits (Z.lor (Z.shiftl (Z.land l 3) 2) (Z.land t 3)) 0 4); lia. Qed.

(** The bits of the two updates. *)
Lemma setup_testbit m t l x i : m ∈ hbrk_slots -> 0 <= i ->
  Z.testbit (hbrk_setup_bp m t l x) i =
    Z.testbit x i || (i <? 32) && Z.testbit (hbrk_mke_conf t l) (i - (16 + 4 * m)) || (i =? 2 * m + 1).
Proof.
  intros Hm Hi. unfold hbrk_setup_bp, hbrk_set_conf, hbrk_set_enbl, hbrk_conf_idx, hbrk_enbl_idx.
  rewrite !Z.lor_spec, testbit_wrap, !Z.shiftl_spec, testbit_one by lia.
  replace (m * 4) with (4 * m) by lia. replace (i - (m * 2 + 1) =? 0) with (i =? 2 * m + 1).
  2: { repeat zbit_split; done. }
  btauto.
Qed.

Lemma delete_testbit m x i : m ∈ hbrk_slots -> 0 <= i ->
  Z.testbit (hbrk_delete_bp m x) i =
    Z.testbit x i && (i <? 32) && negb ((16 + 4 * m <=? i) && (i <? 20 + 4 * m) || (i =? 2 * m + 1) || (i =? 2 * m + 2)).
Proof.
  intros Hm%slot_cases Hi. unfold hbrk_delete_bp, hbrk_set_conf, hbrk_conf_idx, hbrk_enbl_idx, wnot.
  change 0xf with (Z.ones 4). change 3 with (Z.ones 2).
  rewrite Z.land_spec, Z.lxor_spec, Z.lor_spec, testbit_wrap, !Z.shiftl_spec by lia.
  rewrite (Z.testbit_ones 32), (Z.testbit_ones 4), (Z.testbit_ones 2) by lia.
  repeat zbit_split; rewrite ?(testbit_neg x) by lia; btauto.
Qed.

Lemma setup_enabled m n t l x : m ∈ hbrk_slots -> n ∈ hbrk_slots ->
  hbrk_enabled n (hbrk_setup_bp m t l x) = hbrk_enabled n x || (n =? m).
Proof.
  intros Hm Hn. rewrite !enabled_testbit by done. apply slot_cases in Hn as Hn'. apply slot_cases in Hm as Hm'.
  rewrite setup_testbit by (done || lia). rewrite (testbit_neg (hbrk_mke_conf t l)) by lia.
  rewrite andb_false_r, orb_false_r. f_equal. repeat zbit_split; done.
Qed.

Lemma setup_config m n t l x : m ∈ hbrk_slots -> n ∈ hbrk_slots ->
  hbrk_get_config n (hbrk_setup_bp m t l x) =
    if n =? m then Z.lor (hbrk_get_config n x) (hbrk_mke_conf t l) else hbrk_get_config n x.
Proof.
  intros Hm Hn. rewrite !config_bits. apply slot_cases in Hn as Hn'. apply slot_cases in Hm as Hm'.
  pose proof (mke_conf_fits t l) as Hc. apply Z.bits_inj'. intros i Hi.
  destruct (Z.eqb_spec n m) as [->|].
  - rewrite Z.lor_spec, !testbit_bits, setup_testbit by (done || lia).
    replace (i + (16 + 4 * m) - (16 + 4 * m)) with i by lia.
    destruct (Z.ltb_spec i 4); cbn [andb]; [|by rewrite (fits_testbit 4)].
    repeat zbit_split; cbn [andb]; btauto.
  - rewrite !testbit_bits, setup_testbit by (done || lia).
    destruct (Z.ltb_spec i 4); [|done]. cbn [andb].
    destruct (Z.lt_ge_cases n m).
    + rewrite (testbit_neg (hbrk_mke_conf t l)) by lia. repeat zbit_split; btauto.
    + rewrite (fits_testbit 4 (hbrk_mke_conf t l)) by (done || lia). repeat zbit_split; btauto.
Qed.

Lemma delete_enabled m n x : m ∈ hbrk_slots -> n ∈ hbrk_slots ->
  hbrk_enabled n (hbrk_delete_bp m x) = hbrk_enabled n x && negb (n =? m).
Proof.
  intros Hm Hn. rewrite !enabled_testbit by done. apply slot_cases in Hn as Hn'. apply slot_cases in Hm as Hm'.
  rewrite delete_testbit by (done || lia). repeat zbit_split; btauto.
Qed.

Lemma delete_config m n x : m ∈ hbrk_slots -> n ∈ hbrk_slots ->
  hbrk_get_config n (hbrk_delete_bp m x) = if n =? m then 0 else hbrk_get_config n x.
Proof.
  intros Hm Hn. rewrite !config_bits. apply slot_cases in Hn as Hn'. apply slot_cases in Hm as Hm'.
  apply Z.bits_inj'. intros i Hi. destruct (Z.eqb_spec n m) as [->|].
  - rewrite testbit_bits, delete_testbit, Z.bits_0 by (done || lia). repeat zbit_split; btauto.
  - rewrite !testbit_bits, delete_testbit by (done || lia). repeat zbit_split; btauto.
Qed.

(** ** The table of breakpoints *)

(** A breakpoint: its configuration, address and handler. *)
Abbreviation hslot := (option (Z * Z * Z)).
Definition hbrk_slot (d : hdbg) (n : Z) : hslot :=
  if hbrk_enabled n (hbrk_dr7 d)
  then Some (hbrk_get_config n (hbrk_dr7 d), get_dr n d, b_hdlr (h_brk d) !!! Z.to_nat n) else None.
Definition hbrk_abs (d : hdbg) : list hslot := hbrk_slot d <$> hbrk_slots.

(** There are four debug registers and four handlers, and the configuration of
    a slot that is not in use is clear, as [dbg_hard_brk_set] only sets bits. *)
Record hbrk_wf (d : hdbg) : Prop := {
  hw_dr : length (r_dr (h_regs d)) = 4%nat;
  hw_hdlr : length (b_hdlr (h_brk d)) = 4%nat;
  hw_clear n : n ∈ hbrk_slots -> hbrk_enabled n (hbrk_dr7 d) = false -> hbrk_get_config n (hbrk_dr7 d) = 0;
}.

Definition slot_matches (addr check : Z) (s : hslot) : bool :=
  match s with Some (conf, a, _) => (conf =? check) && (addr =? a) | None => false end.

(** [d'] has the table of [d]. *)
Definition same_slots (d d' : hdbg) : Prop :=
  r_dr (h_regs d') = r_dr (h_regs d) /\ b_dr7 (h_brk d') = b_dr7 (h_brk d) /\ b_hdlr (h_brk d') = b_hdlr (h_brk d).

Lemma same_slots_trans d1 d2 d3 : same_slots d1 d2 -> same_slots d2 d3 -> same_slots d1 d3.
Proof. unfold same_slots. intros (-> & -> & ->) (-> & -> & ->). done. Qed.

Lemma same_slots_slot d d' n : same_slots d d' -> hbrk_slot d' n = hbrk_slot d n.
Proof. intros (H1 & H2 & H3). unfold hbrk_slot, hbrk_dr7, get_dr. by rewrite H1, H2, H3. Qed.

Lemma same_slots_abs d d' : same_slots d d' -> hbrk_abs d' = hbrk_abs d.
Proof. intros Hs. apply list_fmap_ext. intros _ n _. by apply same_slots_slot. Qed.

Lemma same_slots_wf d d' : same_slots d d' -> hbrk_wf d -> hbrk_wf d'.
Proof.
  intros (H1 & H2 & H3) [? ? Hc]. split; [by rewrite H1|by rewrite H3|].
  intros n. unfold hbrk_dr7. rewrite H2. apply Hc.
Qed.

(** The functions around the table leave it alone; [slots] proves it. *)
Ltac slots f := unfold f; repeat case_match; split_and!; reflexivity.

Lemma protect_slots d : same_slots d (dbg_hard_protect d).
Proof. slots dbg_hard_protect. Qed.
Lemma release_slots d : same_slots d (dbg_hard_release d).
Proof. slots dbg_hard_release. Qed.
Lemma insn_enable_slots d : same_slots d (dbg_hard_brk_insn_enable d).
Proof. unfold dbg_hard_brk_insn_enable. slots dbg_hard_brk_insn_protect. Qed.
Lemma insn_disable_slots d : same_slots d (dbg_hard_brk_insn_disable d).
Proof. unfold dbg_hard_brk_insn_disable. slots dbg_hard_brk_insn_release. Qed.
Lemma enable_slots d : same_slots d (dbg_hard_brk_enable d).
Proof. eapply same_slots_trans; [|apply protect_slots]. done. Qed.
Lemma disable_slots d : same_slots d (dbg_hard_brk_disable d).
Proof. eapply same_slots_trans; [|apply release_slots]. done. Qed.

Lemma release_on d : b_on (h_brk (dbg_hard_release d)) = b_on (h_brk d).
Proof. unfold dbg_hard_release. by repeat case_match. Qed.
Lemma insn_disable_on d : b_on (h_brk (dbg_hard_brk_insn_disable d)) = b_on (h_brk d).
Proof. unfold dbg_hard_brk_insn_disable, dbg_hard_brk_insn_release. by repeat case_match. Qed.

Lemma dr7_upd f d : fits 32 (f (hbrk_dr7 d)) -> hbrk_dr7 (hbrk_upd f d) = f (hbrk_dr7 d).
Proof.
  intros Hf. unfold hbrk_upd, hbrk_dr7 at 1, low32, set_low32. simpl.
  rewrite bits_set_same by lia. by apply wrap_id.
Qed.

Lemma hbrk_dr7_fits d : fits 32 (hbrk_dr7 d).
Proof. apply bits_fits; lia. Qed.

Lemma setup_fits m t l x : m ∈ hbrk_slots -> fits 32 x -> fits 32 (hbrk_setup_bp m t l x).
Proof.
  intros Hm Hx. apply slot_cases in Hm as Hm'. apply fits_of_testbit; [lia| |].
  - unfold hbrk_setup_bp, hbrk_set_enbl. apply Z.lor_nonneg. split; [apply Hx|]. apply Z.lor_nonneg.
    split; [apply (wrap_fits 32); lia|]. by apply Z.shiftl_nonneg.
  - intros i Hi. rewrite setup_testbit by (done || lia). rewrite (fits_testbit 32 x) by (done || lia).
    repeat zbit_split; done.
Qed.

Lemma delete_fits m x : m ∈ hbrk_slots -> fits 32 x -> fits 32 (hbrk_delete_bp m x).
Proof.
  intros Hm Hx. apply slot_cases in Hm as Hm'. apply fits_of_testbit; [lia| |].
  - unfold hbrk_delete_bp. apply Z.land_nonneg. left. apply Hx.
  - intros i Hi. rewrite delete_testbit by (done || lia). by rewrite (fits_testbit 32 x) by (done || lia).
Qed.

Lemma dr_nr_slot n : n ∈ hbrk_slots -> dr_nr n = Z.to_nat n.
Proof. by intros [->|[->|[->| ->]]]%slot_cases. Qed.

(** The slot [m] is filled. *)
Lemma fill_slot m t l h addr d n : hbrk_wf d -> m ∈ hbrk_slots -> n ∈ hbrk_slots ->
  hbrk_enabled m (hbrk_dr7 d) = false ->
  let d' := set_dr m addr (dbg_hard_brk_set_hdlr m h (hbrk_upd (hbrk_setup_bp m t l) d)) in
  hbrk_wf d' /\ hbrk_slot d' n = if n =? m then Some (hbrk_mke_conf t l, addr, h) else hbrk_slot d n.
Proof.
  intros [Hdr Hh Hc] Hm Hn He d'.
  assert (hbrk_dr7 d' = hbrk_setup_bp m t l (hbrk_dr7 d)) as Hd
    by (apply (dr7_upd _ d), setup_fits; [done|apply hbrk_dr7_fits]).
  apply slot_cases in Hm as Hm'. apply slot_cases in Hn as Hn'. split.
  - split; [simpl; by rewrite length_insert|simpl; by rewrite length_insert|].
    intros k Hk. rewrite Hd, setup_enabled, setup_config by done. intros [Hk1 Hk2]%orb_false_iff.
    rewrite Hk2. by apply Hc.
  - unfold hbrk_slot. rewrite Hd, setup_enabled, setup_config by done. unfold get_dr.
    rewrite dr_nr_slot by done. simpl. rewrite dr_nr_slot by done.
    destruct (Z.eqb_spec n m) as [->|].
    + rewrite orb_true_r, (Hc m) by done. by rewrite !list_lookup_total_insert_eq, Z.lor_0_l by lia.
    + rewrite orb_false_r. rewrite !list_lookup_total_insert_ne by lia. done.
Qed.

Lemma del_slot m d n : hbrk_wf d -> m ∈ hbrk_slots -> n ∈ hbrk_slots ->
  let d' := hbrk_upd (hbrk_delete_bp m) d in
  hbrk_wf d' /\ hbrk_slot d' n = if n =? m then None else hbrk_slot d n.
Proof.
  intros [Hdr Hh Hc] Hm Hn d'.
  assert (hbrk_dr7 d' = hbrk_delete_bp m (hbrk_dr7 d)) as Hd
    by (apply (dr7_upd _ d), delete_fits; [done|apply hbrk_dr7_fits]).
  split.
  - split; [done..|]. intros k Hk. rewrite Hd, delete_enabled, delete_config by done.
    destruct (k =? m); [done|]. rewrite andb_true_r. by apply Hc.
  - unfold hbrk_slot. rewrite Hd, delete_enabled, delete_config by done.
    destruct (n =? m); [by rewrite andb_false_r|]. by rewrite andb_true_r.
Qed.

(** The loop of [dbg_hard_brk_del] over distinct slots. *)
Lemma del_loop addr check ns : NoDup ns -> (forall n, n ∈ ns -> n ∈ hbrk_slots) ->
  forall rc more more_x d, hbrk_wf d -> (more_x = true -> more = true) ->
  exists more' more_x' d',
    fold_left (hbrk_del_step addr check) ns (rc, more, more_x, d) =
      (rc || existsb (fun n => slot_matches addr check (hbrk_slot d n)) ns, more', more_x', d') /\
    hbrk_wf d' /\ b_on (h_brk d') = b_on (h_brk d) /\ (more_x' = true -> more' = true) /\
    (more' = more || existsb (fun n => bool_decide (is_Some (hbrk_slot d' n))) ns) /\
    forall n, n ∈ hbrk_slots -> hbrk_slot d' n =
      if bool_decide (n ∈ ns) && slot_matches addr check (hbrk_slot d n) then None else hbrk_slot d n.
Proof.
  induction 1 as [|m ns Hm Hnd IH]; intros Hns rc more more_x d Hw Hmx; cbn [fold_left existsb].
  { exists more, more_x, d. by rewrite !orb_false_r. }
  assert (m ∈ hbrk_slots) as Hms by (apply Hns; list_elem).
  assert (forall n, n ∈ ns -> n ∈ hbrk_slots) as Hns' by (intros; apply Hns; list_elem).
  assert (exists more1 more_x1 d1, hbrk_del_step addr check (rc, more, more_x, d) m =
      (rc || slot_matches addr check (hbrk_slot d m), more1, more_x1, d1) /\
    hbrk_wf d1 /\ b_on (h_brk d1) = b_on (h_brk d) /\ (more_x1 = true -> more1 = true) /\
    more1 = more || bool_decide (is_Some (hbrk_slot d1 m)) /\
    forall n, n ∈ hbrk_slots -> hbrk_slot d1 n =
      if (n =? m) && slot_matches addr check (hbrk_slot d n) then None else hbrk_slot d n)
    as (more1 & more_x1 & d1 & -> & Hw1 & Hon1 & Hmx1 & Hm1 & Hs1).
  { unfold hbrk_del_step. unfold hbrk_slot at 1. destruct (hbrk_enabled m (hbrk_dr7 d)) eqn:He.
    - cbn [slot_matches]. destruct (_ && _) eqn:Hma.
      + destruct (del_slot m d m Hw Hms Hms) as [Hw' Hself]. rewrite Z.eqb_refl in Hself.
        exists more, more_x, (hbrk_upd (hbrk_delete_bp m) d). split_and!; [by rewrite orb_true_r|done|done|done| |].
        * by rewrite Hself, orb_false_r.
        * intros n Hn. destruct (del_slot m d n Hw Hms Hn) as [_ ->]. destruct (Z.eqb_spec n m) as [->|]; [|done].
          unfold hbrk_slot. rewrite He. cbn [slot_matches]. by rewrite Hma.
      + assert (forall n, n ∈ hbrk_slots -> hbrk_slot d n =
          if (n =? m) && slot_matches addr check (hbrk_slot d n) then None else hbrk_slot d n) as Hsl.
        { intros n Hn. destruct (Z.eqb_spec n m) as [->|]; [|done]. cbn [andb]. unfold hbrk_slot at 2. rewrite He.
          cbn [slot_matches]. by rewrite Hma. }
        assert (is_Some (hbrk_slot d m)) as Hsm by (unfold hbrk_slot; by rewrite He).
        rewrite orb_false_r. destruct more_x, more; cbn [negb orb]; try (by specialize (Hmx eq_refl));
          eexists _, _, d; (split; [reflexivity|]); (split_and!; [done|done|by intros| |done]);
          by rewrite ?bool_decide_eq_true_2.
    - exists more, more_x, d. cbn [slot_matches]. rewrite orb_false_r.
      split_and!; [done|done|done|done| |].
      + unfold hbrk_slot. by rewrite He, orb_false_r.
      + intros n Hn. destruct (Z.eqb_spec n m) as [->|]; [|done]. unfold hbrk_slot. rewrite He. by destruct (_ && _). }
  destruct (IH Hns' (rc || slot_matches addr check (hbrk_slot d m)) more1 more_x1 d1 Hw1 Hmx1)
    as (more' & more_x' & d' & -> & Hw' & Hon' & Hmx' & Hm' & Hs').
  assert (forall n, n ∈ ns -> hbrk_slot d1 n = hbrk_slot d n) as Hkeep.
  { intros n Hn. rewrite Hs1 by auto. by rewrite (proj2 (Z.eqb_neq n m)) by (intros ->; done). }
  assert (existsb (fun n => slot_matches addr check (hbrk_slot d1 n)) ns =
          existsb (fun n => slot_matches addr check (hbrk_slot d n)) ns) as Hex.
  { clear - Hkeep. induction ns as [|n ns IH]; [done|]. simpl. rewrite Hkeep by list_elem.
    rewrite IH; [done|]. intros k Hk. apply Hkeep. list_elem. }
  assert (hbrk_slot d' m = hbrk_slot d1 m) as Hsame by (rewrite Hs' by done; by rewrite bool_decide_eq_false_2).
  exists more', more_x', d'. split_and!; [|done|congruence|done| |].
  - by rewrite Hex, orb_assoc.
  - rewrite Hm', Hm1, <- orb_assoc. do 2 f_equal. by rewrite Hsame.
  - intros n Hn. rewrite (Hs' n Hn), (Hs1 n Hn). destruct (Z.eqb_spec n m) as [->|Hne].
    + rewrite bool_decide_eq_false_2, bool_decide_eq_true_2 by (done || list_elem). done.
    + cbn [andb]. assert (bool_decide (n ∈ m :: ns) = bool_decide (n ∈ ns)) as ->; [|done].
      apply bool_decide_ext. rewrite elem_of_cons. naive_solver.
Qed.

Lemma first_free d : hbrk_first (fun n => negb (hbrk_enabled n (hbrk_dr7 d))) =
  (fun p => Z.of_nat p.1) <$> list_find (fun s : hslot => s = None) (hbrk_abs d).
Proof.
  unfold hbrk_first, hbrk_abs. change hbrk_slots with [0; 1; 2; 3].
  cbn [fmap list_fmap list_find]. unfold hbrk_slot.
  destruct (hbrk_enabled 0 _) eqn:H0, (hbrk_enabled 1 _) eqn:H1, (hbrk_enabled 2 _) eqn:H2, (hbrk_enabled 3 _) eqn:H3;
    repeat (rewrite filter_cons, ?H0, ?H1, ?H2, ?H3; cbn [negb]; first [rewrite decide_True by done | rewrite decide_False by done]);
    done.
Qed.

Lemma abs_ext d l : length l = 4%nat -> (forall n, n ∈ hbrk_slots -> hbrk_slot d n = l !!! Z.to_nat n) -> hbrk_abs d = l.
Proof.
  intros Hl Hs. unfold hbrk_abs. change hbrk_slots with [0; 1; 2; 3] in *.
  destruct l as [|a [|b [|c [|e [|]]]]]; try done. cbn [fmap list_fmap].
  by rewrite !Hs by (rewrite !elem_of_cons; lia).
Qed.

Lemma abs_slot d n : n ∈ hbrk_slots -> hbrk_abs d !!! Z.to_nat n = hbrk_slot d n.
Proof. by intros [->|[->|[->| ->]]]%slot_cases. Qed.

Lemma existsb_fmap {A B} (f : A -> B) (p : B -> bool) l : existsb p (f <$> l) = existsb (fun x => p (f x)) l.
Proof. induction l as [|x l IH]; [done|]. cbn [fmap list_fmap existsb]. by rewrite IH. Qed.

(** ** Properties *)

(** Setting a hardware breakpoint puts it in the first slot of the table that
    is free and leaves the others alone; when the four slots are taken nothing
    changes. *)
Theorem hard_brk_set_refines addr t l h d : hbrk_wf d ->
  match list_find (fun s : hslot => s = None) (hbrk_abs d) with
  | None => dbg_hard_brk_set addr t l h d = (false, d)
  | Some (i, _) => exists d', dbg_hard_brk_set addr t l h d = (true, d') /\ hbrk_wf d' /\
      hbrk_abs d' = <[i := Some (hbrk_mke_conf t l, addr, h)]> (hbrk_abs d) /\ b_on (h_brk d') = true
  end.
Proof.
  intros Hw. unfold dbg_hard_brk_set. rewrite first_free.
  destruct (list_find _ (hbrk_abs d)) as [[i s]|] eqn:Hf; cbn [fmap option_fmap option_map fst]; [|done].
  apply list_find_Some in Hf as (Hi & -> & _).
  assert (i < 4)%nat as Hlt by (apply lookup_lt_Some in Hi; done).
  assert (Z.of_nat i ∈ hbrk_slots) as Hs by (apply elem_of_seqZ; unfold DBG_HARD_BRK_NR; lia).
  assert (hbrk_enabled (Z.of_nat i) (hbrk_dr7 d) = false) as He.
  { apply list_lookup_total_correct in Hi. rewrite <- (Nat2Z.id i), abs_slot in Hi by done.
    unfold hbrk_slot in Hi. by destruct (hbrk_enabled _ _). }
  set (d1 := set_dr _ _ _). set (d2 := if _ && _ then _ else _).
  assert (same_slots d1 (dbg_hard_brk_enable d2)) as Hsame.
  { eapply same_slots_trans; [|apply enable_slots]. unfold d2. case_match; [apply insn_enable_slots|done]. }
  eexists. split; [done|]. split_and!.
  - eapply same_slots_wf; [exact Hsame|]. by apply (fill_slot _ t l h addr d _ Hw Hs Hs He).
  - rewrite (same_slots_abs _ _ Hsame). apply abs_ext; [by rewrite length_insert|].
    intros n Hn. pose proof (proj2 (fill_slot _ t l h addr d n Hw Hs Hn He)) as Hx. fold d1 in Hx. rewrite Hx. clear Hx.
    apply elem_of_seqZ in Hn as Hn'. destruct (Z.eqb_spec n (Z.of_nat i)) as [->|].
    + rewrite Nat2Z.id, list_lookup_total_insert_eq; [done|]. change (i < 4)%nat. lia.
    + rewrite list_lookup_total_insert_ne by lia. by rewrite abs_slot.
  - unfold dbg_hard_brk_enable, dbg_hard_protect. by repeat case_match.
Qed.

(** Deleting a hardware breakpoint empties every slot of its configuration and
    address and only those, tells whether there was one, and turns the
    breakpoints off when no slot is left. *)
Theorem hard_brk_del_refines addr t l d : hbrk_wf d ->
  let check := hbrk_mke_conf t l in
  exists d', dbg_hard_brk_del addr t l d = (existsb (slot_matches addr check) (hbrk_abs d), d') /\ hbrk_wf d' /\
    hbrk_abs d' = (fun s => if slot_matches addr check s then None else s) <$> hbrk_abs d /\
    b_on (h_brk d') = b_on (h_brk d) && existsb (fun s => bool_decide (is_Some s)) (hbrk_abs d').
Proof.
  intros Hw check. unfold dbg_hard_brk_del. fold check.
  destruct (del_loop addr check hbrk_slots (NoDup_seqZ _ _) ltac:(done) false false false d Hw ltac:(done))
    as (more & more_x & d1 & -> & Hw1 & Hon & Hmx & -> & Hs). cbn [orb] in *.
  set (m := existsb _ _) in *.
  set (d2 := if negb more_x then _ else _).
  assert (same_slots d1 d2) as Hsame.
  { unfold d2. case_match; [|done]. case_match; [|apply insn_disable_slots].
    eapply same_slots_trans; [apply insn_disable_slots|apply disable_slots]. }
  assert (hbrk_abs d2 = (fun s => if slot_matches addr check s then None else s) <$> hbrk_abs d) as Habs.
  { rewrite (same_slots_abs _ _ Hsame). apply abs_ext; [done|]. intros n Hn. rewrite Hs by done.
    rewrite bool_decide_eq_true_2 by done. cbn [andb].
    destruct (slot_cases _ Hn) as [->|[->|[->| ->]]]; done. }
  exists d2. split; [|split; [by eapply same_slots_wf|split; [done|]]].
  - by f_equal.
  - rewrite (same_slots_abs _ _ Hsame). unfold hbrk_abs at 1. rewrite existsb_fmap. fold m.
    unfold d2. destruct more_x; cbn [negb].
    + rewrite (Hmx eq_refl), andb_true_r. done.
    + destruct m; cbn [negb].
      * by rewrite insn_disable_on, Hon, andb_true_r.
      * rewrite andb_false_r. unfold dbg_hard_brk_disable. by rewrite release_on.
Qed.

(** Ending a single-step gives the vm back the rflags and the sysenter_cs it had
    when the step was requested, and the exceptions intercepted then. *)
Theorem stp_enable_disable req d : s_on (h_stp d) = false -> fits 32 (h_excp d) ->
  Z.testbit (h_excp d) GP_EXCP = false ->
  Z.testbit (h_excp d) DB_EXCP = b_on (h_brk d) ->
  let d' := dbg_hard_stp_disable (dbg_hard_stp_enable req d) in
  h_regs d' = h_regs d /\ h_excp d' = h_excp d /\ h_brk d' = h_brk d /\ s_on (h_stp d') = false.
Proof.
  intros Hoff Hf Hgp Hdb. destruct d as [[dr dr6 dr7 rf cs sh deny] [bi bo bd brf b7 bh] [so tf rq ctx] ex up di ev].
  cbn [h_stp s_on h_excp h_brk b_on] in Hoff, Hf, Hgp, Hdb. subst so. unfold GP_EXCP, DB_EXCP in *.
  assert (set_bits (set_bits rf RFLAGS_TF 1 1) RFLAGS_TF 1 (bits rf RFLAGS_TF 1) = rf) as Hrf.
  { by rewrite set_bits_twice, set_bits_bits by (unfold RFLAGS_TF; lia). }
  assert (forall e, c_true (Z.land e (Z.shiftl 1 1)) = Z.testbit e 1) as Hct by (intros; by apply c_true_testbit).
  assert (Z.lor ex (Z.shiftl 1 13) = Z.lor (Z.shiftl 1 13) ex) as Hcomm by apply Z.lor_comm.
  clear Hcomm. unfold dbg_hard_stp_enable, dbg_hard_stp_protect, dbg_hard_protect.
  cbn -[Z.lor Z.land Z.shiftl Z.testbit wnot set_bits bits c_true]. unfold GP_EXCP, DB_EXCP in *. rewrite Hct, Z.lor_spec, Hdb.
  change (Z.testbit (Z.shiftl 1 13) 1) with false.
  assert (forall e k, 0 <= k < 32 -> Z.testbit e k = false -> fits 32 e ->
    Z.land (Z.lor e (Z.shiftl 1 k)) (wnot 32 (Z.shiftl 1 k)) = e) as Hclr.
  { intros e k Hk He Hfe. apply Z.bits_inj'. intros i Hi. unfold wnot.
    rewrite Z.land_spec, Z.lxor_spec, Z.lor_spec, Z.shiftl_spec, testbit_one, Z.testbit_ones by lia.
    repeat zbit_split; try (assert (i = k) as -> by lia; rewrite He); try btauto.
    rewrite (fits_testbit 32 e) by (done || lia). btauto. }
  destruct bo; cbn [orb andb negb]; unfold dbg_hard_stp_disable, dbg_hard_stp_release, dbg_hard_release;
    cbn -[Z.lor Z.land Z.shiftl Z.testbit wnot set_bits bits c_true]; unfold DB_EXCP, GP_EXCP.
  - rewrite Hrf, Hclr by (done || lia). done.
  - assert (Z.land (Z.lor (Z.lor ex (Z.shiftl 1 13)) (Z.shiftl 1 1)) (wnot 32 (Z.shiftl 1 13)) = Z.lor ex (Z.shiftl 1 1)) as ->.
    { rewrite <- Z.lor_assoc, (Z.lor_comm (Z.shiftl 1 13)), Z.lor_assoc. apply Hclr; [lia| |].
      - by rewrite Z.lor_spec, Hgp.
      - apply fits_of_testbit; [lia|apply Z.lor_nonneg; split; [apply Hf|done]|].
        intros i Hi. rewrite Z.lor_spec, (fits_testbit 32 ex), Z.shiftl_spec, testbit_one by (done || lia).
        destruct (Z.eqb_spec (i - 1) 0); [lia|done]. }
    rewrite Hct, Z.lor_spec, Hdb. change (Z.testbit (Z.shiftl 1 1) 1) with true.
    cbn -[Z.lor Z.land Z.shiftl Z.testbit wnot set_bits bits c_true]. rewrite Hrf, Hclr by (done || lia). done.
Qed.

(** ** Witnesses *)

Definition ex_hdbg : hdbg :=
  mk_hdbg (mk_regs [0; 0; 0; 0] 0xffff0ff0 0x400 0x202 0x10 [0; 0; 0; 0; 0; 0] true)
    (mk_brk false false false 0 0 [0; 0; 0; 0]) (mk_stp false 0 0 0) 0 false false (mk_evt 0 0 (EvHard 0)).

Lemma ex_hdbg_wf : hbrk_wf ex_hdbg.
Proof. split; [done..|]. by intros n [->|[->|[->| ->]]]%slot_cases. Qed.

(** A write watchpoint of 4 bytes. *)
Definition ex_hdbg_set : hdbg := (dbg_hard_brk_set 0xc0de 1 3 7 ex_hdbg).2.

Lemma ex_hdbg_set_wf : hbrk_wf ex_hdbg_set.
Proof. split; [done..|]. by intros n [->|[->|[->| ->]]]%slot_cases. Qed.

Example hard_brk_set_refines_witness :
  exists d', dbg_hard_brk_set 0xc0de 1 3 7 ex_hdbg = (true, d') /\ hbrk_wf d' /\
    hbrk_abs d' = [Some (0xd, 0xc0de, 7); None; None; None] /\ b_on (h_brk d') = true.
Proof. apply (hard_brk_set_refines 0xc0de 1 3 7 ex_hdbg ex_hdbg_wf). Defined.

Example hard_brk_del_refines_witness :
  exists d', dbg_hard_brk_del 0xc0de 1 3 ex_hdbg_set = (true, d') /\ hbrk_wf d' /\
    hbrk_abs d' = [None; None; None; None] /\ b_on (h_brk d') = false.
Proof.
  destruct (hard_brk_del_refines 0xc0de 1 3 ex_hdbg_set ex_hdbg_set_wf) as (d' & H1 & H2 & H3 & H4).
  exists d'. split; [exact H1|]. split; [exact H2|]. split; [exact H3|].
  rewrite H4, H3. reflexivity.
Defined.

Example stp_enable_disable_witness :
  let d' := dbg_hard_stp_disable (dbg_hard_stp_enable DBG_REQ_USR ex_hdbg) in
  h_regs d' = h_regs ex_hdbg /\ h_excp d' = h_excp ex_hdbg /\ h_brk d' = h_brk ex_hdbg /\ s_on (h_stp d') = false.
Proof. apply stp_enable_disable; [reflexivity|split; reflexivity || discriminate|reflexivity|reflexivity]. Defined.
