(* ===== verification/DbgSoft.v ===== *)
(** * Software breakpoints (vmm/src/control/dbg_soft.c, dbg.c,
    include/dbg_soft.h)

    A software breakpoint replaces one byte of the vm's code by [int3].  The
    byte is saved when the breakpoint is set, written when breakpoints are
    armed, and restored when they are disarmed.  The memory of the vm is
    reached through an interface: a read and a write of one byte at a virtual
    address in an address space. *)

From S2P Require Import Prelude.
From S2P Require Import Walk.
From S2P Require Import DbgHard.

(** ** The memory of the vm *)

(** [ctrl_vmem_read_with] and [ctrl_vmem_write_with] for one byte. *)
Class GuestMem (M : Type) := {
  gm_read : Z -> Z -> M -> option (vm_code * Z * M);
  gm_write : Z -> Z -> Z -> M -> option (vm_code * M);
}.

(** What they promise for the locations [L], pairs of an address space and an
    address, that breakpoints may be set at: a location whose page is present
    in the tables of the vm holds a byte, writing it changes that byte and no
    other, and the tables are left alone; an access to a page that is not
    present is partial and changes nothing. *)
Class GuestMemLaws (M : Type) {GM : GuestMem M} (L : list (Z * Z)) := {
  gm_ok : M -> Prop;
  gm_here : M -> Z * Z -> bool;
  gm_byte : M -> Z * Z -> Z;
  gm_read_ok m k : gm_ok m -> k ∈ L -> gm_here m k = true -> gm_read k.1 k.2 m = Some (VM_DONE, gm_byte m k, m);
  gm_read_away m k : gm_ok m -> k ∈ L -> gm_here m k = false -> exists v, gm_read k.1 k.2 m = Some (VM_PARTIAL, v, m);
  gm_write_ok m k b : gm_ok m -> k ∈ L -> gm_here m k = true ->
    exists m', gm_write k.1 k.2 b m = Some (VM_DONE, m') /\ gm_ok m' /\
    (forall k', k' ∈ L -> gm_here m' k' = gm_here m k') /\
    forall k', k' ∈ L -> gm_byte m' k' = if decide (k = k') then b else gm_byte m k';
  gm_write_away m k b : gm_ok m -> k ∈ L -> gm_here m k = false -> gm_write k.1 k.2 b m = Some (VM_PARTIAL, m);
}.

(** ** State *)

Definition BREAKPOINT_INSN : Z := 0xcc.
Definition DBG_SOFT_NR : Z := 1024.

(** [dbg_soft_bp_t]. *)
Record bp := mk_bp {
  bp_on : bool;
  bp_st : bool;
  bp_addr : Z;
  bp_hdlr : Z;
  bp_byte : Z;
  bp_cr3 : Z;
}.

(** [dbg_soft_t], the rest of the debugger, the memory and the address space the
    controller is bound to. *)
Record sdbg (M : Type) := mk_sdbg {
  s_h : hdbg;
  s_m : M;
  active_cr3 : Z;
  so_on : bool;
  so_rs : bool;
  so_dis : bool;
  so_cnt : Z;
  so_list : list bp;
}.
Arguments mk_sdbg {M}.
Arguments s_h {M}. Arguments s_m {M}. Arguments active_cr3 {M}. Arguments so_on {M}.
Arguments so_rs {M}. Arguments so_dis {M}. Arguments so_cnt {M}. Arguments so_list {M}.

Section soft.
Context {M : Type} {GM : GuestMem M}.
Implicit Types (d : sdbg M) (b : bp).

Definition set_h (h : hdbg) d : sdbg M := mk_sdbg h (s_m d) (active_cr3 d) (so_on d) (so_rs d) (so_dis d) (so_cnt d) (so_list d).
Definition set_m (m : M) d : sdbg M := mk_sdbg (s_h d) m (active_cr3 d) (so_on d) (so_rs d) (so_dis d) (so_cnt d) (so_list d).
Definition dbg_soft_set_enable (x : bool) d : sdbg M := mk_sdbg (s_h d) (s_m d) (active_cr3 d) x (so_rs d) (so_dis d) (so_cnt d) (so_list d).
Definition dbg_soft_set_resume (x : bool) d : sdbg M := mk_sdbg (s_h d) (s_m d) (active_cr3 d) (so_on d) x (so_dis d) (so_cnt d) (so_list d).
Definition dbg_soft_set_disarm (x : bool) d : sdbg M := mk_sdbg (s_h d) (s_m d) (active_cr3 d) (so_on d) (so_rs d) x (so_cnt d) (so_list d).
Definition set_cnt (x : Z) d : sdbg M := mk_sdbg (s_h d) (s_m d) (active_cr3 d) (so_on d) (so_rs d) (so_dis d) (wrap64 x) (so_list d).
Definition set_bp (i : nat) b d : sdbg M := mk_sdbg (s_h d) (s_m d) (active_cr3 d) (so_on d) (so_rs d) (so_dis d) (so_cnt d) (<[i := b]> (so_list d)).

Definition bp_set_on (x : bool) b : bp := mk_bp x (bp_st b) (bp_addr b) (bp_hdlr b) (bp_byte b) (bp_cr3 b).
Definition bp_set_st (x : bool) b : bp := mk_bp (bp_on b) x (bp_addr b) (bp_hdlr b) (bp_byte b) (bp_cr3 b).
Definition bp_set_hdlr (x : Z) b : bp := mk_bp (bp_on b) (bp_st b) (bp_addr b) x (bp_byte b) (bp_cr3 b).
Definition bp_set_byte (x : Z) b : bp := mk_bp (bp_on b) (bp_st b) (bp_addr b) (bp_hdlr b) x (bp_cr3 b).

(** ** Handlers on one breakpoint *)

Definition soft_restore_insn b d : option (vm_code * bp * sdbg M) :=
  '(rc, m) ← gm_write (bp_cr3 b) (bp_addr b) (bp_byte b) (s_m d);
  Some (rc, if decide (rc = VM_DONE) then bp_set_st false b else b, set_m m d).

Definition soft_restore_bp b d : option (vm_code * bp * sdbg M) :=
  '(rc, m) ← gm_write (bp_cr3 b) (bp_addr b) BREAKPOINT_INSN (s_m d);
  Some (rc, if decide (rc = VM_DONE) then bp_set_st true b else b, set_m m d).

Definition dbg_soft_restore_insn b d : option (vm_code * bp * sdbg M) :=
  if negb (bp_on b) || negb (bp_st b) then Some (VM_IGNORE, b, d) else soft_restore_insn b d.

Definition dbg_soft_restore_bp b d : option (vm_code * bp * sdbg M) :=
  if negb (bp_on b) || bp_st b then Some (VM_IGNORE, b, d)
  else if so_rs d && (bp_addr b =? ev_addr (h_evt (s_h d))) then Some (VM_IGNORE, b, d)
  else soft_restore_bp b d.

(** [if(!__dbg_soft_restore_insn(bp)) return VM_FAIL]: no return code is 0. *)
Definition soft_del_bp b d : option (vm_code * bp * sdbg M) :=
  if negb (bp_on b) then Some (VM_IGNORE, b, d)
  else
    '(_, b, d) ← soft_restore_insn (bp_set_on false b) d;
    Some (VM_DONE, b, d).

Definition dbg_soft_set_bp (addr : Z) b d : option (vm_code * bp * sdbg M) :=
  if bp_on b && negb (bp_addr b =? addr) then Some (VM_IGNORE, b, d)
  else if negb (bp_on b) then
    let b := mk_bp true (bp_st b) addr (bp_hdlr b) (bp_byte b) (active_cr3 d) in
    '(rc, byte, m) ← gm_read (bp_cr3 b) addr (s_m d);
    Some (rc, if decide (rc = VM_DONE) then bp_set_byte byte b else b, set_m m d)
  else Some (VM_DONE, b, d).

Definition dbg_soft_del_bp (addr : Z) b d : option (vm_code * bp * sdbg M) :=
  if negb (bp_addr b =? addr) then Some (VM_IGNORE, b, d) else soft_del_bp b d.

Definition dbg_soft_check_bp (addr : Z) b d : option (vm_code * bp * sdbg M) :=
  Some (if bp_on b && (bp_addr b =? addr) then VM_DONE else VM_IGNORE, b, d).

(** The stop masks [VM_FAIL] and [VM_DONE|VM_FAIL]. *)
Definition stop_fail (rc : vm_code) : bool := match rc with VM_FAIL => true | _ => false end.
Definition stop_done (rc : vm_code) : bool := match rc with VM_FAIL | VM_DONE => true | _ => false end.

(** The last return code, and the index the loop stopped at. *)
Fixpoint for_each_from (hdl : bp -> sdbg M -> option (vm_code * bp * sdbg M)) (stop : vm_code -> bool)
    (i : nat) (l : list bp) (rc : vm_code) d : option (vm_code * option nat * sdbg M) :=
  match l with
  | [] => Some (rc, None, d)
  | b :: l =>
      '(rc, b, d) ← hdl b d;
      let d := set_bp i b d in
      if stop rc then Some (rc, Some i, d) else for_each_from hdl stop (S i) l rc d
  end.
Definition dbg_soft_for_each hdl stop d : option (vm_code * option nat * sdbg M) :=
  for_each_from hdl stop 0 (so_list d) VM_IGNORE d.

(** ** Services *)

Definition dbg_soft_protect d : sdbg M :=
  if negb (so_on d) then d else set_h (set_excp (Z.lor (h_excp (s_h d)) (Z.shiftl 1 BP_EXCP)) (s_h d)) d.
Definition dbg_soft_release d : sdbg M :=
  if so_on d then d else set_h (set_excp (Z.land (h_excp (s_h d)) (wnot 32 (Z.shiftl 1 BP_EXCP))) (s_h d)) d.
Definition dbg_soft_enable d : sdbg M := dbg_soft_protect (dbg_soft_set_enable true d).
Definition dbg_soft_disable d : sdbg M := dbg_soft_release (dbg_soft_set_enable false d).

Definition dbg_soft_del_all d : option (bool * sdbg M) :=
  '(rc, _, d) ← dbg_soft_for_each soft_del_bp stop_fail d;
  if decide (rc = VM_FAIL) then Some (false, d) else Some (true, set_cnt 0 d).

Definition dbg_soft_set (addr hdlr : Z) d : option (vm_code * sdbg M) :=
  if so_cnt d =? DBG_SOFT_NR then Some (VM_FAIL, d)
  else
    '(rc, i, d) ← dbg_soft_for_each (dbg_soft_set_bp addr) stop_done d;
    match rc, i with
    | VM_DONE, Some i =>
        b ← so_list d !! i;
        let d := set_cnt (so_cnt d + 1) (set_bp i (bp_set_hdlr hdlr b) d) in
        Some (VM_DONE, dbg_soft_enable d)
    | _, _ => Some (VM_FAIL, d)
    end.

Definition dbg_soft_del (addr : Z) d : option (vm_code * sdbg M) :=
  if so_cnt d =? 0 then Some (VM_FAIL, d)
  else
    '(rc, i, d) ← dbg_soft_for_each (dbg_soft_del_bp addr) stop_done d;
    match rc with
    | VM_DONE =>
        let d := set_cnt (so_cnt d - 1) d in
        Some (VM_DONE, if so_cnt d =? 0 then dbg_soft_disable d else d)
    | _ => Some (VM_FAIL, d)
    end.

(** [None] when the pointer of the last event is not a soft breakpoint. *)
Definition evt_bp d : option (nat * bp) :=
  match ev_src (h_evt (s_h d)) with EvSoft i => b ← so_list d !! i; Some (i, b) | EvHard _ => None end.

Definition dbg_soft_resume d : option (vm_code * sdbg M) :=
  if negb (ev_type (h_evt (s_h d)) =? DBG_EVT_TYPE_SOFT_BRK) then Some (VM_IGNORE, d)
  else
    '(i, b) ← evt_bp d;
    if negb (bp_on b) || negb (bp_addr b =? ev_addr (h_evt (s_h d))) then Some (VM_IGNORE, d)
    else
      '(rc, b, d) ← soft_restore_insn b d;
      let d := set_bp i b d in
      Some (rc, if decide (rc = VM_DONE) then dbg_soft_set_resume true d else d).

Definition dbg_soft_resume_post d : option (vm_code * sdbg M) :=
  '(i, b) ← evt_bp d;
  '(rc, b, d) ← soft_restore_bp b d;
  let d := set_bp i b d in
  Some (rc, if decide (rc = VM_DONE) then dbg_soft_set_resume false d else d).

Definition dbg_soft_disarm d : option (vm_code * sdbg M) :=
  '(rc, _, d) ← dbg_soft_for_each dbg_soft_restore_insn stop_fail d;
  if decide (rc = VM_FAIL) then Some (VM_FAIL, d) else Some (VM_DONE, dbg_soft_set_disarm true d).

Definition dbg_soft_rearm d : option (vm_code * sdbg M) :=
  '(rc, _, d) ← dbg_soft_for_each dbg_soft_restore_bp stop_fail d;
  if decide (rc = VM_FAIL) then Some (VM_FAIL, d) else Some (VM_DONE, dbg_soft_set_disarm false d).

(** [addr] is the current code address, as [vm_get_code_addr] gives it.  The
    handler of the breakpoint, if one was hit. *)
Definition dbg_soft_event (addr : Z) d : option (option Z * sdbg M) :=
  if negb (so_on d) then Some (None, d)
  else
    '(rc, i, d) ← dbg_soft_for_each (dbg_soft_check_bp addr) stop_done d;
    match rc, i with
    | VM_DONE, Some i =>
        b ← so_list d !! i;
        Some (Some (bp_hdlr b), set_h (set_evt (mk_evt DBG_EVT_TYPE_SOFT_BRK (bp_addr b) (EvSoft i)) (s_h d)) d)
    | _, _ => Some (None, d)
    end.

Definition dbg_soft_reset d : option (sdbg M) :=
  '(_, d) ← dbg_soft_del_all d;
  let d := dbg_soft_disable d in
  Some (mk_sdbg (s_h d) (s_m d) (active_cr3 d) false false false (so_cnt d) (so_list d)).

(** ** dbg.c and the single-step event (dbg_hard_stp.c) *)

Definition dbg_resume (stp : bool) d : option (vm_code * sdbg M) :=
  let d := set_h (dbg_hard_brk_resume (s_h d)) d in
  '(rc, d) ← dbg_soft_resume d;
  match rc with
  | VM_DONE => Some (VM_DONE, set_h (dbg_hard_stp_enable (if stp then DBG_REQ_USR else DBG_REQ_VMM) (s_h d)) d)
  | VM_IGNORE => Some (VM_DONE, if stp then set_h (dbg_hard_stp_enable DBG_REQ_USR (s_h d)) d else d)
  | _ => Some (rc, d)
  end.

Definition dbg_enable d : sdbg M := set_h (dbg_hard_setup (s_h d)) d.
Definition dbg_disable d : option (sdbg M) :=
  d ← dbg_soft_reset d; Some (set_h (dbg_hard_reset (s_h d)) d).

(** [dbg_hard_stp_event], at the code address [addr]. *)
Definition dbg_hard_stp_event (addr : Z) d : option (vm_code * sdbg M) :=
  if negb (s_on (h_stp (s_h d))) then Some (VM_IGNORE, d)
  else
    '(rc, d) ← (if so_rs d then dbg_soft_resume_post d else Some (VM_DONE, d));
    if decide (rc = VM_DONE) then
      let h := dbg_hard_stp_disable (s_h d) in
      if s_rq (h_stp h) =? DBG_REQ_VMM then Some (VM_INTERN, set_h (dbg_hard_dr6_clean h) d)
      else
        let h := dbg_hard_set_dr6_dirty true h in
        Some (VM_DONE, set_h (set_evt (mk_evt DBG_EVT_TYPE_HARD_SSTEP addr (ev_src (h_evt h))) h) d)
    else Some (rc, d).
End soft.

(** ** The loop *)

Section loop.
Context {M : Type} {GM : GuestMem M}.
Implicit Types (d : sdbg M) (b : bp).

Lemma set_bp_same i b d : so_list d !! i = Some b -> set_bp i b d = d.
Proof. intros Hb. destruct d. unfold set_bp. simpl in *. by rewrite list_insert_id. Qed.

(** A loop that is not stopped, with an invariant indexed by the slot. *)
Lemma for_each_inv hdl stop (I : nat -> sdbg M -> Prop) :
  (forall i b d, I i d -> so_list d !! i = Some b -> exists rc b' d',
    hdl b d = Some (rc, b', d') /\ stop rc = false /\ so_list d' = so_list d /\ I (S i) (set_bp i b' d')) ->
  forall l i rc d, stop rc = false -> drop i (so_list d) = l -> (i <= length (so_list d))%nat -> I i d ->
  exists rc' d', for_each_from hdl stop i l rc d = Some (rc', None, d') /\ stop rc' = false /\
    length (so_list d') = length (so_list d) /\ I (length (so_list d)) d'.
Proof.
  intros Hstep. induction l as [|b l IH]; intros i rc d Hrc Hl Hi HI; cbn [for_each_from].
  - exists rc, d. split_and!; [done..|]. assert (length (so_list d) = i) as ->; [|done].
    apply (f_equal length) in Hl. rewrite length_drop in Hl. simpl in Hl. lia.
  - assert (so_list d !! i = Some b) as Hb.
    { rewrite <- (Nat.add_0_r i), <- lookup_drop, Hl. done. }
    destruct (Hstep i b d HI Hb) as (rc1 & b1 & d1 & -> & Hs & Hd & HI1). cbn [mbind option_bind]. rewrite Hs.
    destruct (IH (S i) rc1 (set_bp i b1 d1)) as (rc2 & d2 & -> & Hs2 & Hl2 & HI2); [done| | |done|].
    + simpl. rewrite Hd, drop_insert_lt by lia. rewrite <- Nat.add_1_r, <- drop_drop, Hl. done.
    + simpl. rewrite length_insert, Hd. apply lookup_lt_Some in Hb. lia.
    + simpl in *. rewrite length_insert, Hd in *. by exists rc2, d2.
Qed.

(** The slots before [k] are ignored and [k] stops the loop. *)
Lemma for_each_stop hdl stop k b d b' d' rc : so_list d !! k = Some b ->
  (forall j bj, (j < k)%nat -> so_list d !! j = Some bj -> hdl bj d = Some (VM_IGNORE, bj, d)) ->
  stop VM_IGNORE = false -> hdl b d = Some (rc, b', d') -> stop rc = true ->
  dbg_soft_for_each hdl stop d = Some (rc, Some k, set_bp k b' d').
Proof.
  intros Hb Hskip Hs Hh Hrc. unfold dbg_soft_for_each.
  assert (forall n i, (i + n = k)%nat ->
    for_each_from hdl stop i (drop i (so_list d)) VM_IGNORE d = Some (rc, Some k, set_bp k b' d')) as Hgo.
  { induction n as [|n IH]; intros i Hi.
    - assert (i = k) as -> by lia. rewrite (drop_S _ _ _ Hb). cbn [for_each_from]. by rewrite Hh; cbn [mbind option_bind]; rewrite Hrc.
    - destruct (lookup_lt_is_Some_2 (so_list d) i) as [bi Hbi]; [apply lookup_lt_Some in Hb; lia|].
      rewrite (drop_S _ _ _ Hbi). cbn [for_each_from]. rewrite (Hskip i bi) by (done || lia).
      cbn [mbind option_bind]. rewrite Hs, set_bp_same by done. apply IH. lia. }
  apply (Hgo k 0%nat). lia.
Qed.
End loop.

(** ** The invariant *)

Definition bp_key (b : bp) : Z * Z := (bp_cr3 b, bp_addr b).

Section inv.
Context {M : Type} {GM : GuestMem M} {L : list (Z * Z)} {GL : GuestMemLaws M L}.
Implicit Types (d : sdbg M) (b : bp).

(** [orig] is the program of the vm: the bytes it would see without breakpoints.
    A location holds [int3] when its breakpoint is installed and the
    program's byte otherwise, and a breakpoint has saved the program's byte. *)
Record soft_ok d (orig : Z * Z -> Z) : Prop := {
  so_mem : gm_ok (s_m d);
  so_key i b : so_list d !! i = Some b -> bp_on b = true -> bp_key b ∈ L;
  so_uniq i j b b' : so_list d !! i = Some b -> so_list d !! j = Some b' ->
    bp_on b = true -> bp_on b' = true -> bp_key b = bp_key b' -> i = j;
  so_off i b : so_list d !! i = Some b -> bp_on b = false -> bp_st b = false;
  so_saved i b : so_list d !! i = Some b -> bp_on b = true -> bp_byte b = orig (bp_key b) /\
    gm_byte (s_m d) (bp_key b) = if bp_st b then BREAKPOINT_INSN else orig (bp_key b);
  so_rest k : k ∈ L -> (forall i b, so_list d !! i = Some b -> bp_on b = true -> bp_key b <> k) ->
    gm_byte (s_m d) k = orig k;
}.

(** The counter counts the breakpoints in use. *)
Definition used_bps (l : list bp) : nat := length (filter (fun b => bp_on b = true) l).
Definition soft_cnt d : Prop :=
  Z.of_nat (length (so_list d)) = DBG_SOFT_NR /\ so_cnt d = Z.of_nat (used_bps (so_list d)).

Lemma used_insert l i b b' : l !! i = Some b ->
  (used_bps (<[i := b']> l) + (if bp_on b then 1 else 0) = used_bps l + (if bp_on b' then 1 else 0))%nat.
Proof.
  intros Hb. unfold used_bps. rewrite <- (take_drop_middle l i b Hb) at 2.
  rewrite insert_take_drop by (by eapply lookup_lt_Some).
  rewrite !filter_app, !filter_cons, !length_app.
  destruct (bp_on b), (bp_on b'); repeat (rewrite decide_True by done || rewrite decide_False by done); simpl; lia.
Qed.

(** Writing the byte of a breakpoint, installed or not. *)
Lemma write_ok d orig i b (x : bool) : soft_ok d orig -> so_list d !! i = Some b -> bp_on b = true ->
  gm_here (s_m d) (bp_key b) = true ->
  exists m, gm_write (bp_cr3 b) (bp_addr b) (if x then BREAKPOINT_INSN else bp_byte b) (s_m d) = Some (VM_DONE, m) /\
    (forall k, k ∈ L -> gm_here m k = gm_here (s_m d) k) /\
    soft_ok (set_bp i (bp_set_st x b) (set_m m d)) orig.
Proof.
  intros Ho Hb Hon Hhere.
  destruct (gm_write_ok (s_m d) (bp_key b) (if x then BREAKPOINT_INSN else bp_byte b))
    as (m & Hm & Hok & Hkeep & Hbyte); [apply Ho|by eapply so_key|done|]. exists m. split; [exact Hm|]. split; [exact Hkeep|].
  destruct (so_saved _ _ Ho i b Hb Hon) as [Hs _].
  assert (forall j b', so_list (set_bp i (bp_set_st x b) (set_m m d)) !! j = Some b' ->
    (i = j /\ b' = bp_set_st x b) \/ (i <> j /\ so_list d !! j = Some b')) as Hcase.
  { intros j b'. simpl. rewrite list_lookup_insert_Some. intuition. }
  split.
  - done.
  - intros j b' [[<- ->]|[_ Hj]]%Hcase Hon'; [exact (so_key _ _ Ho i b Hb Hon)|by eapply so_key].
  - intros j j' b1 b2 [[<- ->]|[_ H1]]%Hcase [[<- ->]|[_ H2]]%Hcase Hon1 Hon2 Hk; [done|..];
      [eapply (so_uniq _ _ Ho i j' b)|eapply (so_uniq _ _ Ho j i b1 b)|eapply (so_uniq _ _ Ho j j')]; eauto.
  - intros j b' [[<- ->]|[_ Hj]]%Hcase Hoff; [simpl in *; congruence|by eapply so_off].
  - intros j b' [[<- ->]|[Hne Hj]]%Hcase Hon'.
    + split; [done|]. change (bp_key (bp_set_st x b)) with (bp_key b). cbn [s_m set_bp set_m bp_st bp_set_st].
      rewrite Hbyte by (by eapply so_key). rewrite decide_True by done. by destruct x.
    + destruct (so_saved _ _ Ho j b' Hj Hon') as [Hs1 Hs2]. split; [done|]. cbn [s_m set_bp set_m].
      rewrite Hbyte by (by eapply so_key). rewrite decide_False; [done|].
      intros Hk. apply Hne. by eapply (so_uniq _ _ Ho i j b b').
  - intros k Hk Hno. cbn [s_m set_bp set_m]. rewrite Hbyte by done. rewrite decide_False.
    + apply (so_rest _ _ Ho); [done|]. intros j b' Hj Hon'. destruct (decide (i = j)) as [<-|Hne].
      * assert (b' = b) as -> by congruence. intros Hkk. eapply (Hno i (bp_set_st x b)); [|done|done].
        simpl. apply list_lookup_insert_eq. by eapply lookup_lt_Some.
      * eapply Hno; [|done]. simpl. by rewrite list_lookup_insert_ne.
    + intros Hkk. eapply (Hno i (bp_set_st x b)); [|done|done]. simpl. apply list_lookup_insert_eq. by eapply lookup_lt_Some.
Qed.

(** A breakpoint that is not installed is taken out of use. *)
Lemma off_ok d orig i b : soft_ok d orig -> so_list d !! i = Some b -> bp_on b = true -> bp_st b = false ->
  soft_ok (set_bp i (bp_set_on false b) d) orig.
Proof.
  intros Ho Hb Hon Hst.
  assert (forall j b', so_list (set_bp i (bp_set_on false b) d) !! j = Some b' ->
    (i = j /\ b' = bp_set_on false b) \/ (i <> j /\ so_list d !! j = Some b')) as Hcase.
  { intros j b'. simpl. rewrite list_lookup_insert_Some. intuition. }
  split.
  - apply Ho.
  - intros j b' [[<- ->]|[_ Hj]]%Hcase Hon'; [done|by eapply so_key].
  - intros j j' b1 b2 [[<- ->]|[_ H1]]%Hcase [[<- ->]|[_ H2]]%Hcase Hon1 Hon2 Hk; try done.
    by eapply (so_uniq _ _ Ho j j').
  - intros j b' [[<- ->]|[_ Hj]]%Hcase Hoff; [done|by eapply so_off].
  - intros j b' [[<- ->]|[_ Hj]]%Hcase Hon'; [done|by apply (so_saved _ _ Ho j)].
  - intros k Hk Hno. cbn [s_m set_bp]. destruct (decide (bp_key b = k)) as [<-|Hne].
    + destruct (so_saved _ _ Ho i b Hb Hon) as [_ ->]. by rewrite Hst.
    + apply (so_rest _ _ Ho); [done|]. intros j b' Hj Hon'. destruct (decide (i = j)) as [<-|Hij]; [congruence|].
      eapply Hno; [|done]. simpl. by rewrite list_lookup_insert_ne.
Qed.

(** A free slot is taken for a location that has no breakpoint. *)
Lemma add_ok d orig i b cr3 addr h : soft_ok d orig -> so_list d !! i = Some b -> bp_on b = false ->
  (cr3, addr) ∈ L -> (forall j b', so_list d !! j = Some b' -> bp_on b' = true -> bp_key b' <> (cr3, addr)) ->
  soft_ok (set_bp i (mk_bp true (bp_st b) addr h (gm_byte (s_m d) (cr3, addr)) cr3) d) orig.
Proof.
  intros Ho Hb Hoff HL Hnew. set (nb := mk_bp _ _ _ _ _ _).
  assert (forall j b', so_list (set_bp i nb d) !! j = Some b' ->
    (i = j /\ b' = nb) \/ (i <> j /\ so_list d !! j = Some b')) as Hcase.
  { intros j b'. simpl. rewrite list_lookup_insert_Some. intuition. }
  pose proof (so_rest _ _ Ho _ HL Hnew) as Horig. pose proof (so_off _ _ Ho i b Hb Hoff) as Hst.
  split.
  - apply Ho.
  - intros j b' [[<- ->]|[_ Hj]]%Hcase Hon'; [done|by eapply so_key].
  - intros j j' b1 b2 [[<- ->]|[Hn1 H1]]%Hcase [[<- ->]|[Hn2 H2]]%Hcase Hon1 Hon2 Hk; [done|..].
    + by destruct (Hnew j' b2 H2 Hon2).
    + by destruct (Hnew j b1 H1 Hon1).
    + by eapply (so_uniq _ _ Ho j j').
  - intros j b' [[<- ->]|[_ Hj]]%Hcase Ho'; [done|by eapply so_off].
  - intros j b' [[<- ->]|[_ Hj]]%Hcase Hon'; [|by apply (so_saved _ _ Ho j)].
    unfold nb. cbn [bp_byte bp_st]. rewrite Hst. by split.
  - intros k Hk Hno. cbn [s_m set_bp]. apply (so_rest _ _ Ho); [done|].
    intros j b' Hj Hon'. destruct (decide (i = j)) as [<-|Hij]; [congruence|].
    eapply Hno; [|done]. simpl. by rewrite list_lookup_insert_ne.
Qed.

(** The invariant does not mention the status bits and the other registers. *)
Lemma ok_same d d' orig : s_m d' = s_m d -> so_list d' = so_list d -> soft_ok d orig -> soft_ok d' orig.
Proof. intros Hm Hl Ho. destruct Ho. split; rewrite ?Hm, ?Hl; eauto. Qed.

(** After [i] slots of a loop that installs ([x]) or removes the breakpoints at
    the addresses of [go]: those whose page is present are done, the others are
    left as they were. *)
Record upto (x : bool) (go : Z -> bool) orig d0 (i : nat) d : Prop := mk_upto {
  up_ok : soft_ok d orig;
  up_rs : so_rs d = so_rs d0;
  up_h : s_h d = s_h d0;
  up_cnt : so_cnt d = so_cnt d0 /\ used_bps (so_list d) = used_bps (so_list d0);
  up_here k : k ∈ L -> gm_here (s_m d) k = gm_here (s_m d0) k;
  up_key j b : so_list d !! j = Some b -> exists b0, so_list d0 !! j = Some b0 /\ bp_on b0 = bp_on b /\ bp_key b0 = bp_key b;
  up_away j b : so_list d !! j = Some b -> bp_on b = true -> go (bp_addr b) && gm_here (s_m d0) (bp_key b) = false -> so_list d0 !! j = Some b;
  up_done j b : (j < i)%nat -> so_list d !! j = Some b -> bp_on b = true ->
    go (bp_addr b) && gm_here (s_m d0) (bp_key b) = true -> bp_st b = x;
}.

Lemma upto_start x go orig d : soft_ok d orig -> upto x go orig d 0 d.
Proof. intros Ho. split; try done; [|intros; lia]. intros j b Hb. by exists b. Qed.

(** A slot with nothing to do, or whose page is not present. *)
Lemma upto_skip x go orig d0 i b d : upto x go orig d0 i d -> so_list d !! i = Some b ->
  (bp_on b = true -> go (bp_addr b) && gm_here (s_m d0) (bp_key b) = true -> bp_st b = x) -> upto x go orig d0 (S i) d.
Proof.
  intros [] Hb Hx. split; try done. intros j b' Hj Hl Hon Hh. destruct (decide (j = i)) as [->|]; [|by apply (up_done0 j); [lia|..]].
  assert (b' = b) as -> by congruence. auto.
Qed.
(** A slot that is written. *)
Lemma upto_write x go orig d0 i b d m : upto x go orig d0 i d -> so_list d !! i = Some b -> bp_on b = true -> go (bp_addr b) = true ->
  gm_here (s_m d) (bp_key b) = true -> (forall k, k ∈ L -> gm_here m k = gm_here (s_m d) k) ->
  soft_ok (set_bp i (bp_set_st x b) (set_m m d)) orig -> upto x go orig d0 (S i) (set_bp i (bp_set_st x b) (set_m m d)).
Proof.
  intros [] Hb Hon Hgo Hh Hkeep Hok. assert (bp_key b ∈ L) as HL by (by eapply (so_key _ _ up_ok0)).
  assert (forall j b', so_list (set_bp i (bp_set_st x b) (set_m m d)) !! j = Some b' ->
    (i = j /\ b' = bp_set_st x b) \/ (i <> j /\ so_list d !! j = Some b')) as Hcase.
  { intros j b'. simpl. rewrite list_lookup_insert_Some. intuition. }
  split; try done.
  - split; [apply up_cnt0|]. destruct up_cnt0 as [_ <-]. pose proof (used_insert (so_list d) i b (bp_set_st x b) Hb) as Hu.
    change (bp_on (bp_set_st x b)) with (bp_on b) in Hu. rewrite Hon in Hu. simpl. lia.
  - intros k Hk. simpl. by rewrite Hkeep, up_here0.
  - intros j b' [[<- ->]|[_ Hj]]%Hcase; [|by apply up_key0]. exact (up_key0 i b Hb).
  - intros j b' [[<- ->]|[_ Hj]]%Hcase Hon' Hf; [|by apply up_away0].
    change (go (bp_addr b) && gm_here (s_m d0) (bp_key b) = false) in Hf. by rewrite Hgo, <- up_here0, Hh in Hf by done.
  - intros j b' Hj [[<- ->]|[Hn Hl]]%Hcase Hon' Hh'; [done|]. eapply (up_done0 j); [lia|done..].
Qed.

(** One slot of such a loop. *)
Lemma upto_step x go orig d0 hdl i b d : upto x go orig d0 i d -> so_list d !! i = Some b ->
  (bp_on b = true -> bp_st b = negb x -> go (bp_addr b) = true -> hdl b d =
    ('(rc, m) ← gm_write (bp_cr3 b) (bp_addr b) (if x then BREAKPOINT_INSN else bp_byte b) (s_m d);
     Some (rc, if decide (rc = VM_DONE) then bp_set_st x b else b, set_m m d))) ->
  (bp_on b = false \/ bp_st b = x \/ go (bp_addr b) = false -> hdl b d = Some (VM_IGNORE, b, d)) ->
  exists rc b' d', hdl b d = Some (rc, b', d') /\ stop_fail rc = false /\ so_list d' = so_list d /\
    upto x go orig d0 (S i) (set_bp i b' d').
Proof.
  intros Hup Hb Hdo Hskip. pose proof (up_ok _ _ _ _ _ _ Hup) as Ho.
  destruct (bool_decide (bp_on b = true /\ bp_st b = negb x /\ go (bp_addr b) = true)) eqn:Hc.
  - apply bool_decide_eq_true in Hc as (Hon & Hst & Hgo). assert (bp_key b ∈ L) as HL by (by eapply so_key).
    destruct (gm_here (s_m d) (bp_key b)) eqn:Hh.
    + destruct (write_ok d orig i b x Ho Hb Hon Hh) as (m & Hm & Hkeep & Hok). rewrite (Hdo Hon Hst Hgo), Hm. cbn [mbind option_bind].
      rewrite decide_True by done. exists VM_DONE, (bp_set_st x b), (set_m m d). split_and!; [done..|]. by apply upto_write.
    + exists VM_PARTIAL, b, d. rewrite (Hdo Hon Hst Hgo), (gm_write_away (s_m d) (bp_key b)) by (done || apply Ho).
      cbn [mbind option_bind]. rewrite decide_False by done. split_and!; [by destruct d|done..|].
      rewrite (set_bp_same i b d Hb). eapply upto_skip; [done..|]. intros _ Hh'.
      rewrite <- (up_here _ _ _ _ _ _ Hup), Hh, andb_false_r in Hh' by done. done.
  - apply bool_decide_eq_false in Hc. exists VM_IGNORE, b, d. rewrite (set_bp_same i b d Hb).
    split_and!; [|done|done|eapply upto_skip; [done..|]].
    + apply Hskip. destruct (bp_on b), (bp_st b), x, (go (bp_addr b)); auto; by destruct Hc.
    + intros Hon [Hgo _]%andb_true_iff. destruct (bp_st b), x; try done; by destruct Hc.
Qed.

(** The two loops over the breakpoints in use. *)
Lemma upto_end x go orig d0 d i b : upto x go orig d0 (length (so_list d0)) d -> length (so_list d) = length (so_list d0) ->
  so_list d !! i = Some b -> bp_on b = true ->
  go (bp_addr b) && gm_here (s_m d0) (bp_key b) = true -> gm_byte (s_m d) (bp_key b) = if x then BREAKPOINT_INSN else orig (bp_key b).
Proof.
  intros Hup Hl Hb Hon Hh. destruct (so_saved _ _ (up_ok _ _ _ _ _ _ Hup) i b Hb Hon) as [_ ->].
  rewrite (up_done _ _ _ _ _ _ Hup i b); [done| |done..]. rewrite <- Hl. by eapply lookup_lt_Some.
Qed.
(** The breakpoint that is being stepped over is left out. *)
Definition over_bp d (addr : Z) : bool := so_rs d && (addr =? ev_addr (h_evt (s_h d))).
Lemma rearm_ok d orig : soft_ok d orig -> soft_cnt d ->
  exists d', dbg_soft_rearm d = Some (VM_DONE, d') /\ soft_ok d' orig /\ soft_cnt d' /\ s_h d' = s_h d /\ so_rs d' = so_rs d /\
    (forall i b, so_list d' !! i = Some b -> bp_on b = true -> gm_here (s_m d) (bp_key b) = true ->
      over_bp d (bp_addr b) = false -> gm_byte (s_m d') (bp_key b) = BREAKPOINT_INSN) /\
    forall i b, so_list d' !! i = Some b -> bp_on b = true -> over_bp d (bp_addr b) = true -> so_list d !! i = Some b.
Proof.
  intros Ho [Hlen Hcnt]. unfold dbg_soft_rearm, dbg_soft_for_each.
  destruct (for_each_inv dbg_soft_restore_bp stop_fail (upto true (fun a => negb (over_bp d a)) orig d)) with (l := so_list d) (i := 0%nat)
    (rc := VM_IGNORE) (d := d) as (rc & d' & -> & Hrc & Hl & Hup); [|done|done|lia|by apply upto_start|].
  - intros i b d1 Hup Hb. eapply upto_step; [exact Hup|exact Hb|..]; destruct Hup as [_ Hr Hh _ _ _ _ _]; unfold dbg_soft_restore_bp; rewrite Hr, Hh;
      fold (over_bp d (bp_addr b)).
    + intros Hon Hst Hgo%negb_true_iff. by rewrite Hon, Hst, Hgo.
    + intros [Hc|[Hc|Hc%negb_false_iff]]; rewrite Hc; rewrite ?orb_true_r; [done..|]. by destruct (negb (bp_on b) || bp_st b).
  - cbn [mbind option_bind]. rewrite decide_False by (by intros ->). pose proof (up_cnt _ _ _ _ _ _ Hup) as [Hc Hu].
    exists (dbg_soft_set_disarm false d'). split; [done|]. split; [apply (ok_same d'); [done..|apply Hup]|]. split.
    + split; simpl; [by rewrite Hl|by rewrite Hc, Hu].
    + split_and!; [apply Hup|apply Hup| |].
      * intros i b Hb Hon Hh Hov. apply (upto_end true (fun a => negb (over_bp d a)) orig d d' i b); try done. by rewrite Hov, Hh.
      * intros i b Hb Hon Hov. apply (up_away _ _ _ _ _ _ Hup); [done..|]. by rewrite Hov.
Qed.

Lemma disarm_ok d orig : soft_ok d orig -> soft_cnt d ->
  exists d', dbg_soft_disarm d = Some (VM_DONE, d') /\ soft_ok d' orig /\ soft_cnt d' /\ s_h d' = s_h d /\
    (forall k, k ∈ L -> gm_here (s_m d) k = true -> gm_byte (s_m d') k = orig k) /\
    forall i b, so_list d !! i = Some b -> bp_on b = true -> bp_st b = true -> gm_here (s_m d) (bp_key b) = false ->
      gm_byte (s_m d') (bp_key b) = BREAKPOINT_INSN.
Proof.
  intros Ho [Hlen Hcnt]. unfold dbg_soft_disarm, dbg_soft_for_each.
  destruct (for_each_inv dbg_soft_restore_insn stop_fail (upto false (fun _ => true) orig d)) with (l := so_list d) (i := 0%nat)
    (rc := VM_IGNORE) (d := d) as (rc & d' & -> & Hrc & Hl & Hup); [|done|done|lia|by apply upto_start|].
  - intros i b d1 Hup Hb. eapply upto_step; [exact Hup|exact Hb|..].
    + intros Hon Hst. unfold dbg_soft_restore_insn. rewrite Hon, Hst. done.
    + intros [Hc|[Hc|Hc]]; unfold dbg_soft_restore_insn; [by rewrite Hc|rewrite Hc; by rewrite orb_true_r|done].
  - cbn [mbind option_bind]. rewrite decide_False by (by intros ->). pose proof (up_cnt _ _ _ _ _ _ Hup) as [Hc Hu].
    exists (dbg_soft_set_disarm true d'). split; [done|]. split; [apply (ok_same d'); [done..|apply Hup]|].
    split; [split; simpl; [by rewrite Hl|by rewrite Hc, Hu]|]. split; [apply Hup|]. split.
    + intros k Hk Hh. simpl.
      destruct (decide (Exists (fun b => bp_on b = true /\ bp_key b = k) (so_list d'))) as [He|He].
      * apply Exists_exists in He as (b & [i Hb]%list_elem_of_lookup & Hon & <-). by apply (upto_end false (fun _ => true) orig d d' i b).
      * apply (so_rest _ _ (up_ok _ _ _ _ _ _ Hup)); [done|]. intros i b Hb Hon Hkk. apply He, Exists_exists. exists b.
        split; [by eapply list_elem_of_lookup_2|done].
    + intros i b Hb Hon Hst Hh. simpl.
      destruct (lookup_lt_is_Some_2 (so_list d') i) as [b' Hb']; [rewrite Hl; by eapply lookup_lt_Some|].
      destruct (up_key _ _ _ _ _ _ Hup i b' Hb') as (b0 & Hb0 & Hon0 & Hk0). assert (b0 = b) as -> by congruence.
      assert (bp_key b' = bp_key b) as Hk' by congruence.
      pose proof (up_away _ _ _ _ _ _ Hup i b' Hb' ltac:(congruence) ltac:(cbn [andb]; congruence)) as Hb2. assert (b' = b) as -> by congruence.
      destruct (so_saved _ _ (up_ok _ _ _ _ _ _ Hup) i b Hb' Hon) as [_ ->]. by rewrite Hst.
Qed.

(** ** Properties *)

(** Arming installs every breakpoint whose page is present, but the one that is
    being stepped over: its location holds [int3], and the program underneath
    is kept. *)
Theorem soft_rearm_installs d orig : soft_ok d orig -> soft_cnt d ->
  exists d', dbg_soft_rearm d = Some (VM_DONE, d') /\ soft_ok d' orig /\ soft_cnt d' /\
    forall i b, so_list d' !! i = Some b -> bp_on b = true -> gm_here (s_m d) (bp_key b) = true ->
      over_bp d (bp_addr b) = false -> gm_byte (s_m d') (bp_key b) = BREAKPOINT_INSN.
Proof.
  intros Ho Hc. destruct (rearm_ok d orig Ho Hc) as (d' & H1 & H2 & H3 & _ & _ & H4 & _). by exists d'.
Qed.

(** C32: Disarming the software breakpoints answers that it is done and gives
    the vm its program back, byte for byte, wherever its page is present; a
    breakpoint installed in a page that is not present any more is left in the
    program, though the answer is the same.  The locations are bytes of the vm
    that [GuestMemLaws] describes: a write of one changes no other of them and
    not the tables they are reached by. *)
Theorem soft_disarm_restores d orig : soft_ok d orig -> soft_cnt d ->
  exists d', dbg_soft_disarm d = Some (VM_DONE, d') /\ soft_ok d' orig /\ soft_cnt d' /\
    (forall k, k ∈ L -> gm_here (s_m d) k = true -> gm_byte (s_m d') k = orig k) /\
    forall i b, so_list d !! i = Some b -> bp_on b = true -> bp_st b = true -> gm_here (s_m d) (bp_key b) = false ->
      gm_byte (s_m d') (bp_key b) = BREAKPOINT_INSN.
Proof.
  intros Ho Hc. destruct (disarm_ok d orig Ho Hc) as (d' & H1 & H2 & H3 & _ & H4). by exists d'.
Qed.

(** Setting a breakpoint at a location without one, whose page is present, takes
    a free slot for it; the vm's program is unchanged. *)
Theorem soft_set_spec d orig addr h : soft_ok d orig -> soft_cnt d -> so_cnt d < DBG_SOFT_NR ->
  (active_cr3 d, addr) ∈ L -> gm_here (s_m d) (active_cr3 d, addr) = true ->
  (forall i b, so_list d !! i = Some b -> bp_on b = true -> bp_addr b <> addr) ->
  exists d' i b, dbg_soft_set addr h d = Some (VM_DONE, d') /\ soft_ok d' orig /\ soft_cnt d' /\
    so_cnt d' = so_cnt d + 1 /\ so_list d' = <[i := b]> (so_list d) /\
    bp_on b = true /\ bp_key b = (active_cr3 d, addr) /\ bp_hdlr b = h.
Proof.
  intros Ho [Hlen Hcnt] Hlt HL Hhere Hnew. unfold dbg_soft_set. rewrite (proj2 (Z.eqb_neq _ _)) by lia.
  destruct (list_find (fun b => bp_on b = false) (so_list d)) as [[i b]|] eqn:Hf.
  2: { exfalso. apply list_find_None in Hf. assert (used_bps (so_list d) = length (so_list d)) as Hall; [|lia].
       unfold used_bps. clear - Hf. induction Hf as [|b l Hb _ IH]; [done|]. rewrite filter_cons.
       rewrite decide_True by (by destruct (bp_on b)). simpl. by rewrite IH. }
  apply list_find_Some in Hf as (Hb & Hoff & Hbefore).
  pose proof (gm_read_ok (s_m d) _ (so_mem _ _ Ho) HL Hhere) as Hr. cbn [fst snd] in Hr.
  set (byte := gm_byte (s_m d) (active_cr3 d, addr)) in *.
  assert (set_m (s_m d) d = d) as Hsm by (by destruct d).
  rewrite (for_each_stop (dbg_soft_set_bp addr) stop_done i b d
    (mk_bp true (bp_st b) addr (bp_hdlr b) byte (active_cr3 d)) d VM_DONE Hb).
  - cbn [mbind option_bind]. simpl. rewrite list_lookup_insert_eq by (by eapply lookup_lt_Some).
    cbn [mbind option_bind]. eexists _, i, (mk_bp true (bp_st b) addr h byte (active_cr3 d)). split; [reflexivity|].
    unfold dbg_soft_enable, dbg_soft_protect. cbn [so_on dbg_soft_set_enable negb].
    pose proof (add_ok d orig i b (active_cr3 d) addr h Ho Hb Hoff HL) as Hadd.
    pose proof (used_insert (so_list d) i b (mk_bp true (bp_st b) addr h byte (active_cr3 d)) Hb) as Hu.
    rewrite Hoff in Hu. cbn [bp_on] in Hu. cbv iota in Hu. unfold DBG_SOFT_NR in *.
    assert (wrap64 (so_cnt d + 1) = so_cnt d + 1) as Hw by (apply (wrap_id 64); split; lia).
    split_and!; [| | |simpl; by rewrite list_insert_insert_eq|done..].
    + eapply ok_same; [| |apply Hadd]; [done|simpl; by rewrite list_insert_insert_eq|].
      intros j b' Hj Hon Hk. injection Hk as _ Hk. by eapply Hnew.
    + split.
      * simpl. by rewrite list_insert_insert_eq, length_insert.
      * etransitivity; [exact Hw|]. simpl. rewrite list_insert_insert_eq. unfold bp_set_hdlr. cbn [bp_on bp_st bp_addr bp_hdlr bp_byte bp_cr3]. lia.
    + exact Hw.
  - intros j bj Hj Hbj. specialize (Hbefore j bj Hbj Hj). unfold dbg_soft_set_bp.
    destruct (bp_on bj) eqn:Hon; [|done]. by rewrite (proj2 (Z.eqb_neq _ _)) by (by eapply Hnew).
  - done.
  - unfold dbg_soft_set_bp. rewrite Hoff. cbn [andb negb]. cbn [bp_cr3]. rewrite Hr. cbn [mbind option_bind].
    by rewrite decide_True, Hsm.
  - done.
Qed.

(** Deleting a breakpoint whose page is present takes one at that address out of
    use; the vm's program is unchanged. *)
Theorem soft_del_spec d orig addr : soft_ok d orig -> soft_cnt d -> (forall k, k ∈ L -> k.2 = addr -> gm_here (s_m d) k = true) ->
  (exists i b, so_list d !! i = Some b /\ bp_on b = true /\ bp_addr b = addr) ->
  exists d' i b, dbg_soft_del addr d = Some (VM_DONE, d') /\ soft_ok d' orig /\ soft_cnt d' /\
    so_list d !! i = Some b /\ bp_on b = true /\ bp_addr b = addr /\
    so_list d' = <[i := bp_set_on false (bp_set_st false b)]> (so_list d).
Proof.
  intros Ho [Hlen Hcnt] Hhere (i0 & b0 & Hb0 & Hon0 & Ha0).
  destruct (list_find (fun b => bp_on b = true /\ bp_addr b = addr) (so_list d)) as [[i b]|] eqn:Hf.
  2: { apply list_find_None in Hf. rewrite Forall_lookup in Hf. by destruct (Hf i0 b0 Hb0). }
  apply list_find_Some in Hf as (Hb & [Hon Ha] & Hbefore).
  pose proof (used_insert (so_list d) i b (bp_set_on false (bp_set_st false b)) Hb) as Hu.
  rewrite Hon in Hu. cbn [bp_on bp_set_on] in Hu. cbv iota in Hu.
  unfold dbg_soft_del. rewrite (proj2 (Z.eqb_neq _ _)) by lia.
  destruct (write_ok d orig i b false Ho Hb Hon) as (m & Hm & _ & Hok); [apply Hhere; [by eapply so_key|done]|].
  rewrite (for_each_stop (dbg_soft_del_bp addr) stop_done i b d (bp_set_st false (bp_set_on false b)) (set_m m d) VM_DONE Hb).
  - cbn [mbind option_bind]. set (d1 := set_cnt _ _).
    assert (so_cnt d1 = so_cnt d - 1) as Hc1.
    { apply (wrap_id 64). pose proof (used_insert (so_list d) i b b Hb). unfold DBG_SOFT_NR in *.
      assert (used_bps (so_list d) <= length (so_list d))%nat by (apply length_filter). split; lia. }
    assert (soft_ok d1 orig) as Ho1.
    { pose proof (off_ok (set_bp i (bp_set_st false b) (set_m m d)) orig i (bp_set_st false b) Hok) as Hoff.
      eapply ok_same; [| |apply Hoff]; [done|simpl; by rewrite list_insert_insert_eq| |done|done].
      simpl. apply list_lookup_insert_eq. by eapply lookup_lt_Some. }
    assert (soft_cnt d1) as Hs1.
    { split; [simpl; by rewrite length_insert|]. rewrite Hc1. unfold d1. cbn [so_list set_cnt set_bp set_m].
      change (bp_set_st false (bp_set_on false b)) with (bp_set_on false (bp_set_st false b)). lia. }
    exists (if so_cnt d1 =? 0 then dbg_soft_disable d1 else d1), i, b. split; [done|].
    destruct (so_cnt d1 =? 0); (split; [by apply (ok_same d1)|]; split; [exact Hs1|done]).
  - intros j bj Hj Hbj. specialize (Hbefore j bj Hbj Hj). unfold dbg_soft_del_bp, soft_del_bp.
    destruct (Z.eqb_spec (bp_addr bj) addr); [|done]. cbn [negb].
    destruct (bp_on bj) eqn:Honj; [|done]. by destruct Hbefore.
  - done.
  - unfold dbg_soft_del_bp, soft_del_bp. rewrite Ha, Z.eqb_refl, Hon. cbn [negb].
    unfold soft_restore_insn. cbn [bp_set_on bp_cr3 bp_addr bp_byte]. unfold bp_set_on. cbn [bp_cr3 bp_addr bp_byte].
    rewrite Hm. cbn [mbind option_bind]. by rewrite decide_True.
  - done.
Qed.

(** Stepping over a breakpoint that was hit: [dbg_soft_resume] gives the vm its
    instruction back, and [dbg_soft_resume_post], after the step, installs the
    breakpoint again. *)
Theorem soft_step_over d orig i b : soft_ok d orig -> so_list d !! i = Some b -> bp_on b = true ->
  gm_here (s_m d) (bp_key b) = true -> h_evt (s_h d) = mk_evt DBG_EVT_TYPE_SOFT_BRK (bp_addr b) (EvSoft i) ->
  exists d1 d2, dbg_soft_resume d = Some (VM_DONE, d1) /\ soft_ok d1 orig /\ so_rs d1 = true /\
    gm_byte (s_m d1) (bp_key b) = orig (bp_key b) /\
    dbg_soft_resume_post d1 = Some (VM_DONE, d2) /\ soft_ok d2 orig /\ so_rs d2 = false /\
    gm_byte (s_m d2) (bp_key b) = BREAKPOINT_INSN.
Proof.
  intros Ho Hb Hon Hhere Hevt.
  destruct (write_ok d orig i b false Ho Hb Hon Hhere) as (m & Hm & Hkeep & Hok).
  set (b1 := bp_set_st false b). set (d1 := dbg_soft_set_resume true (set_bp i b1 (set_m m d))).
  assert (so_list d1 !! i = Some b1) as Hb1 by (simpl; apply list_lookup_insert_eq; by eapply lookup_lt_Some).
  assert (soft_ok d1 orig) as Ho1 by (by apply (ok_same (set_bp i b1 (set_m m d)))).
  destruct (write_ok d1 orig i b1 true Ho1 Hb1 Hon) as (m2 & Hm2 & _ & Hok2).
  { change (gm_here m (bp_key b) = true). by rewrite Hkeep by (by eapply (so_key _ _ Ho)). }
  set (b2 := bp_set_st true b1). set (d2 := dbg_soft_set_resume false (set_bp i b2 (set_m m2 d1))).
  assert (so_list d2 !! i = Some b2) as Hb2 by (simpl; apply list_lookup_insert_eq; rewrite length_insert; by eapply lookup_lt_Some).
  assert (soft_ok d2 orig) as Ho2 by (by apply (ok_same (set_bp i b2 (set_m m2 d1)))).
  exists d1, d2. split_and!; [|done|done| | |done|done|].
  - unfold dbg_soft_resume, evt_bp. rewrite Hevt. cbn [ev_type ev_src ev_addr]. rewrite Z.eqb_refl, Hb.
    cbn [negb mbind option_bind]. rewrite Hon, Z.eqb_refl. cbn [negb orb]. unfold soft_restore_insn. rewrite Hm.
    cbn [mbind option_bind]. by rewrite !decide_True.
  - exact (proj2 (so_saved _ _ Ho1 i b1 Hb1 Hon)).
  - unfold dbg_soft_resume_post, evt_bp. change (s_h d1) with (s_h d). rewrite Hevt. cbn [ev_src]. rewrite Hb1.
    cbn [mbind option_bind]. unfold soft_restore_bp. rewrite Hm2. cbn [mbind option_bind]. by rewrite !decide_True.
  - exact (proj2 (so_saved _ _ Ho2 i b2 Hb2 Hon)).
Qed.
End inv.

(** ** Failures *)

Section failures.
Context {M : Type} {GM : GuestMem M}.
Implicit Types (d : sdbg M) (b : bp).

(** A breakpoint at an address that is not mapped is refused, but every free
    slot is in use afterwards: no other breakpoint can be set. *)
Theorem soft_set_unmapped_floods d addr addr2 h :
  (forall m, gm_read (active_cr3 d) addr m = Some (VM_PARTIAL, 0, m)) -> addr2 <> addr -> so_cnt d <> DBG_SOFT_NR ->
  (forall b, b ∈ so_list d -> bp_on b = false) ->
  exists d', dbg_soft_set addr h d = Some (VM_FAIL, d') /\ dbg_soft_set addr2 h d' = Some (VM_FAIL, d').
Proof.
  intros Hr Hne Hcnt Hoff.
  set (I := fun i d' => active_cr3 d' = active_cr3 d /\ so_cnt d' = so_cnt d /\
    (forall j b, (j < i)%nat -> so_list d' !! j = Some b -> bp_on b = true /\ bp_addr b = addr) /\
    (forall j b, (i <= j)%nat -> so_list d' !! j = Some b -> bp_on b = false)).
  destruct (for_each_inv (dbg_soft_set_bp addr) stop_done I) with (l := so_list d) (i := 0%nat)
    (rc := VM_IGNORE) (d := d) as (rc & d' & He & Hrc & Hl & Hc3 & Hc & Hon & _); [|done|done|lia| |].
  - intros i b d1 (H3 & H0 & H1 & H2) Hb.
    exists VM_PARTIAL, (mk_bp true (bp_st b) addr (bp_hdlr b) (bp_byte b) (active_cr3 d1)), (set_m (s_m d1) d1).
    split_and!; [|done|done|].
    + unfold dbg_soft_set_bp. rewrite (H2 i b) by (done || lia). cbn [andb negb bp_cr3]. rewrite H3, Hr.
      cbn [mbind option_bind]. by rewrite decide_False.
    + split_and!; [done..| |]; intros j b' Hj Hb'; simpl in Hb';
        apply list_lookup_insert_Some in Hb' as [(<- & <- & _)|[Hn Hb']]; try done; try lia.
      * by apply (H1 j); [lia|].
      * by apply (H2 j); [lia|].
  - split_and!; [done|done|intros; lia|]. intros j b _ Hb. apply Hoff. by eapply list_elem_of_lookup_2.
  - exists d'. unfold dbg_soft_set at 1. rewrite (proj2 (Z.eqb_neq _ _)) by done. unfold dbg_soft_for_each at 1. rewrite He.
    cbn [mbind option_bind]. split; [by destruct rc|]. unfold dbg_soft_set. rewrite Hc, (proj2 (Z.eqb_neq _ _)) by done.
    unfold dbg_soft_for_each.
    assert (forall l i rc0, (rc0 <> VM_DONE) -> drop i (so_list d') = l ->
      exists rc1, for_each_from (dbg_soft_set_bp addr2) stop_done i l rc0 d' = Some (rc1, None, d') /\ rc1 <> VM_DONE) as Hgo.
    { induction l as [|b l IH]; intros i rc0 Hrc0 Hd; cbn [for_each_from]; [by exists rc0|].
      assert (so_list d' !! i = Some b) as Hb by (rewrite <- (Nat.add_0_r i), <- lookup_drop, Hd; done).
      destruct (Hon i b) as [H1 H2]; [|done|].
      { rewrite <- Hl. by eapply lookup_lt_Some. }
      assert (dbg_soft_set_bp addr2 b d' = Some (VM_IGNORE, b, d')) as ->.
      { unfold dbg_soft_set_bp. by rewrite H1, H2, (proj2 (Z.eqb_neq addr addr2)) by done. }
      cbn [mbind option_bind].
      rewrite set_bp_same by done. cbn [stop_done]. apply IH; [done|]. rewrite <- Nat.add_1_r, <- drop_drop, Hd. done. }
    destruct (Hgo (so_list d') 0%nat VM_IGNORE) as (rc1 & -> & Hne1); [done|done|]. cbn [mbind option_bind]. by destruct rc1.
Qed.

(** The deletion of a breakpoint never reports that the vm's byte could not be
    restored. *)
Theorem soft_del_hides_failure b d rc m : bp_on b = true ->
  gm_write (bp_cr3 b) (bp_addr b) (bp_byte b) (s_m d) = Some (rc, m) ->
  exists b' d', dbg_soft_del_bp (bp_addr b) b d = Some (VM_DONE, b', d') /\ bp_on b' = false.
Proof.
  intros Hon Hm. unfold dbg_soft_del_bp, soft_del_bp, soft_restore_insn. rewrite Z.eqb_refl, Hon. cbn [negb].
  cbn [bp_cr3 bp_addr bp_byte bp_set_on]. unfold bp_set_on. cbn [bp_cr3 bp_addr bp_byte]. rewrite Hm.
  cbn [mbind option_bind]. eexists _, _. split; [reflexivity|]. by case_decide.
Qed.
End failures.
