(* ===== verification/DbgVm.v ===== *)
(** * The debugger on the memory of the vm

    One-byte accesses through vmm/src/core/vm.c implement the memory interface
    of the software breakpoints; its laws hold for locations whose translation
    does not depend on the bytes that breakpoints replace. *)

From S2P Require Import Prelude.
From S2P Require Import Pagemem.
From S2P Require Import Walk.
From S2P Require Import Vm.
From S2P Require Import DbgHard.
From S2P Require Import DbgSoft.

Section vm_mem.
Variable c : vm_cpu.

(** ** Accesses of one byte *)

Definition vm_mem : GuestMem vmst := {|
  gm_read cr3 a s := '(rc, ac, s) ← vm_read_vmem c cr3 a [0] 1 s; Some (rc, va_data ac !!! 0%nat, s);
  gm_write cr3 a b s := '(rc, _, s) ← vm_write_vmem c cr3 a [b] 1 s; Some (rc, s);
|}.

(** The physical address of a location, for a request of the vmm. *)
Definition vmm_translate (m : gmap Z Z) (k : Z * Z) : option Z :=
  if negb (cr0_pg c) then Some k.2
  else match pg_walk (mmu c) (rd64 m) k.1 k.2 wlk_undef with (VM_DONE, w) => Some (w_addr w) | _ => None end.

(** The page of a location is present in the tables of the vm. *)
Definition vmm_walk (m : gmap Z Z) (k : Z * Z) : vm_code :=
  if negb (cr0_pg c) then VM_DONE else (pg_walk (mmu c) (rd64 m) k.1 k.2 wlk_undef).1.
Definition vmm_here (m : gmap Z Z) (k : Z * Z) : bool := bool_decide (vmm_walk m k = VM_DONE).

(** The chunk of one byte. *)
Definition byte_access (pa : Z) (ac : vm_access) : vm_access := set_range pa 1 ac.

Lemma access_byte k data wr s pa : fits 64 k.2 -> vmm_translate (phys s) k = Some pa ->
  vmm_area_range (area (mmu c)) pa 1 = false ->
  let ac := byte_access pa (vm_access_setup k.1 k.2 data 1 wr VM_ACC_REQ_VMM false) in
  vm_access_virtual c (vm_access_setup k.1 k.2 data 1 wr VM_ACC_REQ_VMM false) s = Some (vm_access_local_operator ac s).
Proof.
  intros Hf Ht Ha ac. unfold vm_access_virtual, vmm_translate in *. destruct (cr0_pg c); cbn [negb] in *.
  - cbn [va_len vm_access_setup va_addr]. change (Z.to_nat 1) with 1%nat. cbn [vm_access_loop].
    change (c_true 1) with true. cbn [negb].
    unfold vm_access_validate. cbn [va_cr3 vm_access_setup va_rq].
    destruct (pg_walk _ _ _ _ _) as [rc w] eqn:Hw. destruct rc; try discriminate Ht. injection Ht as <-.
    rewrite decide_True by done. apply pg_walk_done in Hw as (n & Hn & Hd & _).
    destruct (chunk_bounds _ _ _ 1 Hd Hf ltac:(lia) ltac:(lia)) as (H1 & H2 & _).
    assert (Z.min 1 (wrap64 (align_next k.2 (w_size w) - k.2)) = 1) as -> by lia.
    fold (byte_access (w_addr w) (vm_access_setup k.1 k.2 data 1 wr VM_ACC_REQ_VMM false)). fold ac.
    assert (vm_access_physical c ac s = Some (vm_access_local_operator ac s)) as ->.
    { unfold vm_access_physical. change (c_true (va_len ac)) with true. cbn [negb].
      unfold vm_access_system. rewrite decide_True by done. unfold vm_access_system_identity.
      change (va_addr ac) with (w_addr w). change (va_len ac) with 1. by rewrite Ha. }
    unfold vm_access_local_operator. change (va_wr ac) with wr. destruct wr; cbn [mbind option_bind];
      (rewrite decide_True by done); done.
  - injection Ht as <-. unfold vm_access_physical. change (c_true (va_len _)) with true. cbn [negb].
    unfold vm_access_system. rewrite decide_True by done. unfold vm_access_system_identity.
    cbn [va_addr va_len vm_access_setup]. by rewrite Ha.
Qed.

Lemma access_byte_away k data wr s : vmm_walk (phys s) k = VM_FAULT ->
  exists ac, vm_access_virtual c (vm_access_setup k.1 k.2 data 1 wr VM_ACC_REQ_VMM false) s = Some (VM_PARTIAL, ac, s) /\ va_data ac = data.
Proof.
  unfold vmm_walk, vm_access_virtual. destruct (cr0_pg c); [|done]. cbn [negb va_len vm_access_setup va_addr].
  change (Z.to_nat 1) with 1%nat. cbn [vm_access_loop]. change (c_true 1) with true. cbn [negb].
  unfold vm_access_validate. cbn [va_cr3 vm_access_setup va_rq]. destruct (pg_walk _ _ _ _ _) as [rc w]. cbn [fst]. intros ->.
  rewrite decide_False by done. by eexists.
Qed.

(** ** The laws *)

(** [f] gives the physical addresses of the locations [L] whose page is present,
    in every memory that differs from [m0] at those addresses only. *)
Record stable (L : list (Z * Z)) (f : Z * Z -> Z) (m0 : gmap Z Z) : Prop := {
  st_inj k k' : k ∈ L -> k' ∈ L -> f k = f k' -> k = k';
  st_fits k : k ∈ L -> fits 64 k.2;
  st_area k : k ∈ L -> vmm_area_range (area (mmu c)) (f k) 1 = false;
  st_here m k : (forall p, (p ∉ (f <$> L)) -> rd0 m p = rd0 m0 p) -> k ∈ L -> vmm_walk m k = vmm_walk m0 k;
  st_tr m k : (forall p, (p ∉ (f <$> L)) -> rd0 m p = rd0 m0 p) -> k ∈ L -> vmm_here m k = true -> vmm_translate m k = Some (f k);
  st_away k : k ∈ L -> vmm_here m0 k = false -> vmm_walk m0 k = VM_FAULT;
}.

Definition vm_mem_laws (L : list (Z * Z)) (f : Z * Z -> Z) (m0 : gmap Z Z) (Hst : stable L f m0) :
  @GuestMemLaws vmst vm_mem L.
Proof.
  refine {| gm_ok s := forall p, (p ∉ (f <$> L)) -> rd0 (phys s) p = rd0 m0 p;
            gm_here s k := vmm_here (phys s) k;
            gm_byte s k := rd0 (phys s) (f k) |}.
  - intros s k Hok Hk Hh. cbn [gm_read vm_mem]. unfold vm_read_vmem.
    rewrite (access_byte k [0] false s (f k)); [|by eapply st_fits|by eapply st_tr|by eapply st_area].
    simpl. unfold mem_read. change (seqZ 0 1) with [0]. simpl. by rewrite Z.add_0_r.
  - intros s k Hok Hk Hh. cbn [gm_read vm_mem]. unfold vm_read_vmem.
    destruct (access_byte_away k [0] false s) as (ac & -> & _); [|by eexists].
    unfold vmm_here in Hh. rewrite (st_here _ _ _ Hst) in Hh |- * by done. by eapply st_away.
  - intros s k b Hok Hk Hh. cbn [gm_write vm_mem]. unfold vm_write_vmem.
    rewrite (access_byte k [b] true s (f k)); [|by eapply st_fits|by eapply st_tr|by eapply st_area].
    eexists. split; [reflexivity|]. simpl. match goal with |- context [insert (M := gmap Z Z) ?p ?v ?m] => set (m' := insert p v m) end.
    assert (forall p, (p ∉ (f <$> L)) -> rd0 m' p = rd0 m0 p) as Hok'.
    { intros p Hp. unfold m'. rewrite rd0_insert, decide_False; [by apply Hok|]. intros <-. by apply Hp, list_elem_of_fmap_2. }
    split; [exact Hok'|]. split.
    + intros k' Hk'. unfold vmm_here. by rewrite (st_here _ _ _ Hst m'), (st_here _ _ _ Hst (phys s)) by done.
    + intros k' Hk'. unfold m'. rewrite rd0_insert. destruct (decide (k = k')) as [->|Hne]; [by rewrite decide_True|].
      rewrite decide_False; [done|]. intros He. apply Hne. by eapply st_inj.
  - intros s k b Hok Hk Hh. cbn [gm_write vm_mem]. unfold vm_write_vmem.
    destruct (access_byte_away k [b] true s) as (ac & -> & _); [|done].
    unfold vmm_here in Hh. rewrite (st_here _ _ _ Hst) in Hh |- * by done. by eapply st_away.
Defined.
End vm_mem.

(** ** Witnesses: breakpoints in the memory of a vm in real mode *)

Definition rm_cpu : vm_cpu :=
  mk_cpu (mk_mmu_cfg false false false false false (mk_area 0x1000000 0x1002000)) false 0 0.
Definition rm_code : vmst := mk_vmst (mem_write ∅ 0x7c00 [0xfa; 0x31; 0xc0]) [] [] [].
Definition rm_locs : list (Z * Z) := [(0, 0x7c00); (0, 0x7c01)].

Lemma rm_stable : stable rm_cpu rm_locs snd (phys rm_code).
Proof.
  split.
  - intros [a b] [a' b'] H1 H2 H3. simpl in H3. subst b'.
    apply elem_of_cons in H1 as [[= -> ->]|H1]; [|apply list_elem_of_singleton in H1 as [= -> ->]];
      (apply elem_of_cons in H2 as [H2|H2]; [|apply list_elem_of_singleton in H2]); by injection H2 as ->.
  - intros k Hk. apply elem_of_cons in Hk as [->|Hk%list_elem_of_singleton]; [|subst k]; by split.
  - intros k Hk. apply elem_of_cons in Hk as [->|Hk%list_elem_of_singleton]; [|subst k]; done.
  - done.
  - done.
  - done.
Qed.

Definition rm_mem : GuestMem vmst := vm_mem rm_cpu.
Definition rm_laws : @GuestMemLaws vmst rm_mem rm_locs := vm_mem_laws rm_cpu rm_locs snd (phys rm_code) rm_stable.

Definition no_bp : bp := mk_bp false false 0 0 0 0.
Definition rm_bp : bp := mk_bp true false 0x7c00 9 0xfa 0.
Definition rm_evt (h : hdbg) : hdbg := set_evt (mk_evt DBG_EVT_TYPE_SOFT_BRK 0x7c00 (EvSoft 0)) h.
(** A debugger that has stopped at its breakpoint, at 0x7c00. *)
Definition ex_sdbg1 : sdbg vmst :=
  mk_sdbg (rm_evt ex_hdbg) rm_code 0 true false false 1 (rm_bp :: replicate 1023 no_bp).
Definition rm_orig (k : Z * Z) : Z := rd0 (phys rm_code) k.2.

Lemma replicate_no_bp n i b : replicate n no_bp !! i = Some b -> b = no_bp.
Proof. by intros [-> _]%lookup_replicate. Qed.

Lemma ex_sdbg1_bp i b : so_list ex_sdbg1 !! i = Some b -> (i = 0%nat /\ b = rm_bp) \/ b = no_bp.
Proof.
  destruct i as [|i]; intros Hb.
  - left. split; [done|]. change (Some rm_bp = Some b) in Hb. congruence.
  - right. change (replicate 1023 no_bp !! i = Some b) in Hb. by apply replicate_no_bp in Hb.
Qed.

Lemma ex_sdbg1_ok : @soft_ok _ rm_mem rm_locs rm_laws ex_sdbg1 rm_orig.
Proof.
  split.
  - done.
  - intros i b [[-> ->]| ->]%ex_sdbg1_bp Hon; [apply list_elem_of_here|done].
  - intros i j b b' [[-> ->]| ->]%ex_sdbg1_bp [[-> ->]| ->]%ex_sdbg1_bp; done.
  - intros i b [[-> ->]| ->]%ex_sdbg1_bp Hon; done.
  - intros i b [[-> ->]| ->]%ex_sdbg1_bp Hon; [|done]. split; vm_compute; reflexivity.
  - done.
Qed.

Lemma ex_sdbg1_cnt : soft_cnt ex_sdbg1.
Proof. split; vm_compute; reflexivity. Qed.

(** ** A vm with 32-bit paging

    Its tables map the page 0x7000 to itself; the page 0x8000, which was when a
    breakpoint was installed there, is not present any more. *)

Definition pm_cpu : vm_cpu :=
  mk_cpu (mk_mmu_cfg false false false false false (mk_area 0x1000000 0x1002000)) true 0 0.
Definition pm_code : vmst := mk_vmst (mem_write (mem_write (mem_write (mem_write ∅
  0x1000 [0x03; 0x20; 0; 0]) 0x201c [0x03; 0x70; 0; 0]) 0x7c00 [0xcc; 0x31; 0xc0]) 0x8c00 [0xcc]) [] [] [].
Definition pm_locs : list (Z * Z) := [(0x1000, 0x7c00); (0x1000, 0x7c01); (0x1000, 0x8c00)].

(** The walks read the page directory and one table. *)
Lemma pm_walk m v : rd64 m 0x1000 = 0x2003 -> Z.land v 0xffffffff = v -> pd32_idx v = 0 ->
  let p := entry32 0x2000 (pt32_idx v) in rd64 m (p - p mod 8) = rd64 (phys pm_code) (p - p mod 8) ->
  pg_walk (mmu pm_cpu) (rd64 m) 0x1000 v wlk_undef = pg_walk (mmu pm_cpu) (rd64 (phys pm_code)) 0x1000 v wlk_undef.
Proof.
  intros H1 Hv Hi p H2. assert (rd64 (phys pm_code) 0x1000 = 0x2003) as H1' by (vm_compute; reflexivity).
  unfold pg_walk. change (efer_lma (mmu pm_cpu)) with false. change (cr4_pae (mmu pm_cpu)) with false. cbv iota.
  unfold pg_walk_pmode. rewrite Hv, Hi. cbv zeta.
  change (entry32 (page_addr (cr3_addr32 0x1000)) 0) with 0x1000.
  assert (forall g : Z -> Z, g 0x1000 = 0x2003 -> rd32 g 0x1000 = 0x2003) as Hr.
  { intros g Hg. unfold rd32. change (0x1000 - 0x1000 mod 8) with 0x1000. rewrite Hg. reflexivity. }
  rewrite (Hr _ H1), (Hr _ H1'). change (page_addr (e32_addr 0x2003)) with 0x2000. fold p. unfold rd32. by rewrite H2.
Qed.

Lemma pm_loc k : k ∈ pm_locs -> k = (0x1000, 0x7c00) \/ k = (0x1000, 0x7c01) \/ k = (0x1000, 0x8c00).
Proof. unfold pm_locs. rewrite !elem_of_cons, elem_of_nil. tauto. Qed.
Lemma pm_same m k : (forall p, (p ∉ (snd <$> pm_locs)) -> rd0 m p = rd0 (phys pm_code) p) -> k ∈ pm_locs ->
  pg_walk (mmu pm_cpu) (rd64 m) k.1 k.2 wlk_undef = pg_walk (mmu pm_cpu) (rd64 (phys pm_code)) k.1 k.2 wlk_undef.
Proof.
  intros Hm Hk. assert (forall a, 0x1000 <= a < 0x3000 -> rd64 m a = rd64 (phys pm_code) a) as Hr.
  { intros a Ha. apply rd64_agree. intros i Hi. apply Hm. intros (k' & He & Hk')%list_elem_of_fmap.
    apply pm_loc in Hk' as [->|[->| ->]]; cbn [snd] in He; lia. }
  apply pm_loc in Hk as [->|[->| ->]]; apply pm_walk; try reflexivity; try (apply Hr; vm_compute; split; [discriminate|reflexivity]).
  all: rewrite Hr by lia; vm_compute; reflexivity.
Qed.
Lemma pm_stable : stable pm_cpu pm_locs snd (phys pm_code).
Proof.
  split.
  - intros k k' Hk Hk' He. apply pm_loc in Hk as [->|[->| ->]], Hk' as [->|[->| ->]]; done.
  - intros k Hk. apply pm_loc in Hk as [->|[->| ->]]; by split.
  - intros k Hk. apply pm_loc in Hk as [->|[->| ->]]; reflexivity.
  - intros m k Hm Hk. unfold vmm_walk. by rewrite (pm_same m k).
  - intros m k Hm Hk. unfold vmm_here, vmm_walk, vmm_translate. rewrite (pm_same m k) by done.
    apply pm_loc in Hk as [->|[->| ->]]; intros Hh; [vm_compute; reflexivity..|]. vm_compute in Hh. discriminate Hh.
  - intros k Hk. apply pm_loc in Hk as [->|[->| ->]]; intros Hh; try (vm_compute in Hh; discriminate Hh). vm_compute. reflexivity.
Qed.
Definition pm_mem : GuestMem vmst := vm_mem pm_cpu.
Definition pm_laws : @GuestMemLaws vmst pm_mem pm_locs := vm_mem_laws pm_cpu pm_locs snd (phys pm_code) pm_stable.

(** Two breakpoints are installed. *)
Definition pm_bp (a byte : Z) : bp := mk_bp true true a 9 byte 0x1000.
Definition ex_sdbg2 : sdbg vmst :=
  mk_sdbg ex_hdbg pm_code 0x1000 true false false 2 (pm_bp 0x7c00 0xfa :: pm_bp 0x8c00 0x90 :: replicate 1022 no_bp).
Definition pm_orig (k : Z * Z) : Z :=
  if decide (k = (0x1000, 0x7c00)) then 0xfa else if decide (k = (0x1000, 0x8c00)) then 0x90 else rd0 (phys pm_code) k.2.
Lemma ex_sdbg2_bp i b : so_list ex_sdbg2 !! i = Some b ->
  (i = 0%nat /\ b = pm_bp 0x7c00 0xfa) \/ (i = 1%nat /\ b = pm_bp 0x8c00 0x90) \/ b = no_bp.
Proof.
  destruct i as [|[|i]]; intros Hb; [left; by injection Hb as <-|right; left; by injection Hb as <-|do 2 right].
  change (replicate 1022 no_bp !! i = Some b) in Hb. by apply replicate_no_bp in Hb.
Qed.
Lemma ex_sdbg2_ok : @soft_ok _ pm_mem pm_locs pm_laws ex_sdbg2 pm_orig.
Proof.
  split.
  - done.
  - intros i b [[-> ->]|[[-> ->]| ->]]%ex_sdbg2_bp Hon; [apply list_elem_of_here|do 2 right; by left|done].
  - intros i j b b' [[-> ->]|[[-> ->]| ->]]%ex_sdbg2_bp [[-> ->]|[[-> ->]| ->]]%ex_sdbg2_bp; done.
  - intros i b [[-> ->]|[[-> ->]| ->]]%ex_sdbg2_bp Hon; done.
  - intros i b [[-> ->]|[[-> ->]| ->]]%ex_sdbg2_bp Hon; [split; vm_compute; reflexivity..|done].
  - intros k Hk Hno. apply pm_loc in Hk as [->|[->| ->]]; [|vm_compute; reflexivity|].
    + by destruct (Hno 0%nat (pm_bp 0x7c00 0xfa)).
    + by destruct (Hno 1%nat (pm_bp 0x8c00 0x90)).
Qed.
Lemma ex_sdbg2_cnt : soft_cnt ex_sdbg2.
Proof. split; vm_compute; reflexivity. Qed.

(** ** Witnesses *)

Example soft_rearm_installs_witness :
  exists d', @dbg_soft_rearm _ rm_mem ex_sdbg1 = Some (VM_DONE, d') /\
    @soft_ok _ rm_mem rm_locs rm_laws d' rm_orig /\ soft_cnt d' /\
    forall i b, so_list d' !! i = Some b -> bp_on b = true ->
      @gm_here _ rm_mem rm_locs rm_laws (s_m ex_sdbg1) (bp_key b) = true ->
      over_bp ex_sdbg1 (bp_addr b) = false -> @gm_byte _ rm_mem rm_locs rm_laws (s_m d') (bp_key b) = BREAKPOINT_INSN.
Proof. apply soft_rearm_installs; [exact ex_sdbg1_ok|exact ex_sdbg1_cnt]. Defined.

(** The byte at 0x7c00 is given back; the one at 0x8c00 stays [int3]. *)
Example soft_disarm_restores_witness :
  exists d', @dbg_soft_disarm _ pm_mem ex_sdbg2 = Some (VM_DONE, d') /\
    rd0 (phys (s_m ex_sdbg2)) 0x7c00 = BREAKPOINT_INSN /\ rd0 (phys (s_m d')) 0x7c00 = 0xfa /\
    rd0 (phys (s_m d')) 0x8c00 = BREAKPOINT_INSN.
Proof.
  destruct (@soft_disarm_restores _ pm_mem pm_locs pm_laws ex_sdbg2 pm_orig ex_sdbg2_ok ex_sdbg2_cnt) as (d' & E & _ & _ & Hhere & Haway).
  exists d'. split; [exact E|]. split; [vm_compute; reflexivity|]. split.
  - apply (Hhere (0x1000, 0x7c00)); [apply list_elem_of_here|vm_compute; reflexivity].
  - apply (Haway 1%nat (pm_bp 0x8c00 0x90)); [reflexivity|reflexivity|reflexivity|vm_compute; reflexivity].
Defined.

Example soft_set_spec_witness :
  exists d' i b, @dbg_soft_set _ rm_mem 0x7c01 5 ex_sdbg1 = Some (VM_DONE, d') /\
    @soft_ok _ rm_mem rm_locs rm_laws d' rm_orig /\ soft_cnt d' /\
    so_cnt d' = so_cnt ex_sdbg1 + 1 /\ so_list d' = <[i := b]> (so_list ex_sdbg1) /\
    bp_on b = true /\ bp_key b = (0, 0x7c01) /\ bp_hdlr b = 5.
Proof.
  apply (@soft_set_spec _ rm_mem rm_locs rm_laws ex_sdbg1 rm_orig); [exact ex_sdbg1_ok|exact ex_sdbg1_cnt|reflexivity| |reflexivity|].
  - apply list_elem_of_further, list_elem_of_here.
  - intros i b [[_ ->]| ->]%ex_sdbg1_bp; done.
Defined.

Example soft_del_spec_witness :
  exists d' i b, @dbg_soft_del _ rm_mem 0x7c00 ex_sdbg1 = Some (VM_DONE, d') /\
    @soft_ok _ rm_mem rm_locs rm_laws d' rm_orig /\ soft_cnt d' /\
    so_list ex_sdbg1 !! i = Some b /\ bp_on b = true /\ bp_addr b = 0x7c00 /\
    so_list d' = <[i := bp_set_on false (bp_set_st false b)]> (so_list ex_sdbg1).
Proof.
  apply soft_del_spec; [exact ex_sdbg1_ok|exact ex_sdbg1_cnt|reflexivity|]. by exists 0%nat, rm_bp.
Defined.

Example soft_step_over_witness :
  exists d1 d2, @dbg_soft_resume _ rm_mem ex_sdbg1 = Some (VM_DONE, d1) /\
    @soft_ok _ rm_mem rm_locs rm_laws d1 rm_orig /\ so_rs d1 = true /\
    @gm_byte _ rm_mem rm_locs rm_laws (s_m d1) (0, 0x7c00) = rm_orig (0, 0x7c00) /\
    @dbg_soft_resume_post _ rm_mem d1 = Some (VM_DONE, d2) /\
    @soft_ok _ rm_mem rm_locs rm_laws d2 rm_orig /\ so_rs d2 = false /\
    @gm_byte _ rm_mem rm_locs rm_laws (s_m d2) (0, 0x7c00) = BREAKPOINT_INSN.
Proof. apply (@soft_step_over _ rm_mem rm_locs rm_laws ex_sdbg1 rm_orig 0 rm_bp); [exact ex_sdbg1_ok|reflexivity..]. Defined.
