(* ===== verification/Ctrl.v ===== *)
(** * The controller (vmm/src/control/ctrl.c, ctrl_evt.c, vmm_evt.c, dbg_evt.c,
    include/ctrl.h, include/ctrl_evt.h)

    Between two runs of the vm the controller delivers the pending event and
    arms or disarms the debugger, according to the address space the vm is
    in.  Events of the vm go through the handlers of the vmm, of the debugger
    and of the user, in this order. *)

From S2P Require Import Prelude.
From S2P Require Import Walk.
From S2P Require Import DbgHard.
From S2P Require Import DbgSoft.
From S2P Require Import Vm.
From S2P Require Import DbgVm.

(** ** State *)

(** A handler: of the user table, or of a breakpoint. *)
Inductive evt_hdl := HdlUsr (type : Z) | HdlFn (f : Z).

(** [ctrl_usr_t]. *)
Record usr := mk_usr {
  u_excp : Z;
  u_cr_rd : Z;
  u_cr_wr : Z;
  u_filter : Z;
  u_cpuid : Z;
}.

(** What the controller reads of the vm's cpu: privilege level, cr3, the bits
    efer.lma and cr4.pae, the default exceptions, and the code address. *)
Record vcpu := mk_vcpu {
  c_cpl : Z;
  c_cr3v : Z;
  c_lma : bool;
  c_pae : bool;
  c_dflt_excp : Z;
  c_code : Z;
}.

(** [vmm_ctrl_t] with the debugger, the cpu, the exception and control register
    bitmaps of the processor.  The pending event is its handler and argument. *)
Record ctl (M : Type) := mk_ctl {
  c_dbg : sdbg M;
  c_cr3 : bool;
  c_keep : bool;
  c_traps : bool;
  c_stored : Z;
  c_event : option (evt_hdl * Z);
  c_usr : usr;
  c_cpu : vcpu;
  c_bitmap : Z;
  c_cr_rd_map : Z;
  c_cr_wr_map : Z;
}.
Arguments mk_ctl {M}.
Arguments c_dbg {M}. Arguments c_cr3 {M}. Arguments c_keep {M}. Arguments c_traps {M}. Arguments c_stored {M}.
Arguments c_event {M}. Arguments c_usr {M}. Arguments c_cpu {M}. Arguments c_bitmap {M}.
Arguments c_cr_rd_map {M}. Arguments c_cr_wr_map {M}.

Definition CTRL_EVT_USR_TYPE_CR_RD : Z := 0.
Definition CTRL_EVT_USR_TYPE_CR_WR : Z := 1.
Definition CTRL_EVT_USR_TYPE_EXCP : Z := 2.
Definition CTRL_EVT_USR_TYPE_BRK : Z := 3.
Definition CTRL_EVT_USR_TYPE_SSTEP : Z := 4.
Definition CTRL_EVT_USR_TYPE_NPF : Z := 5.
Definition CTRL_EVT_USR_TYPE_HYP : Z := 6.
Definition CTRL_EVT_USR_TYPE_CPUID : Z := 7.
Definition CTRL_EVT_USR_TYPE_S3 : Z := 8.
Definition CTRL_FILTER_NPF : Z := 1.
Definition CTRL_FILTER_HYP : Z := 2.
Definition CTRL_FILTER_CPUID : Z := 4.
Definition CTRL_FILTER_S3 : Z := 8.
Definition CTRL_CPUID_ALL : Z := 0xffffffff.

Section ctrl.
Context {M : Type} {GM : GuestMem M}.
Implicit Types (s : ctl M).

Definition set_dbg (d : sdbg M) s : ctl M := mk_ctl d (c_cr3 s) (c_keep s) (c_traps s) (c_stored s) (c_event s) (c_usr s) (c_cpu s) (c_bitmap s) (c_cr_rd_map s) (c_cr_wr_map s).
Definition ctrl_set_cr3 (x : bool) s : ctl M := mk_ctl (c_dbg s) x (c_keep s) (c_traps s) (c_stored s) (c_event s) (c_usr s) (c_cpu s) (c_bitmap s) (c_cr_rd_map s) (c_cr_wr_map s).
Definition ctrl_set_cr3_keep (x : bool) s : ctl M := mk_ctl (c_dbg s) (c_cr3 s) x (c_traps s) (c_stored s) (c_event s) (c_usr s) (c_cpu s) (c_bitmap s) (c_cr_rd_map s) (c_cr_wr_map s).
Definition ctrl_set_traps (x : bool) s : ctl M := mk_ctl (c_dbg s) (c_cr3 s) (c_keep s) x (c_stored s) (c_event s) (c_usr s) (c_cpu s) (c_bitmap s) (c_cr_rd_map s) (c_cr_wr_map s).
Definition set_stored (x : Z) s : ctl M := mk_ctl (c_dbg s) (c_cr3 s) (c_keep s) (c_traps s) x (c_event s) (c_usr s) (c_cpu s) (c_bitmap s) (c_cr_rd_map s) (c_cr_wr_map s).
Definition set_event (x : option (evt_hdl * Z)) s : ctl M := mk_ctl (c_dbg s) (c_cr3 s) (c_keep s) (c_traps s) (c_stored s) x (c_usr s) (c_cpu s) (c_bitmap s) (c_cr_rd_map s) (c_cr_wr_map s).
Definition set_usr (x : usr) s : ctl M := mk_ctl (c_dbg s) (c_cr3 s) (c_keep s) (c_traps s) (c_stored s) (c_event s) x (c_cpu s) (c_bitmap s) (c_cr_rd_map s) (c_cr_wr_map s).
Definition set_bitmap (x : Z) s : ctl M := mk_ctl (c_dbg s) (c_cr3 s) (c_keep s) (c_traps s) (c_stored s) (c_event s) (c_usr s) (c_cpu s) x (c_cr_rd_map s) (c_cr_wr_map s).
Definition set_cr_maps (r w : Z) s : ctl M := mk_ctl (c_dbg s) (c_cr3 s) (c_keep s) (c_traps s) (c_stored s) (c_event s) (c_usr s) (c_cpu s) (c_bitmap s) r w.

Definition hd s : hdbg := s_h (c_dbg s).
Definition set_hd (h : hdbg) s : ctl M := set_dbg (set_h h (c_dbg s)) s.
Definition ctrl_traps_updated s : bool := h_utraps (hd s).
Definition ctrl_traps_set_update (x : bool) s : ctl M := let h := hd s in
  set_hd (mk_hdbg (h_regs h) (h_brk h) (h_stp h) (h_excp h) x (h_dirty h) (h_evt h)) s.

(** ** Exception mask *)

Definition update_exception_mask s : ctl M :=
  set_bitmap (Z.lor (Z.lor (c_dflt_excp (c_cpu s)) (u_excp (c_usr s))) (h_excp (hd s))) s.

(** ** Traps (ctrl.c) *)

Definition ctrl_traps_enable s : option (ctl M) :=
  let s := if s_on (h_stp (hd s)) then set_hd (dbg_hard_stp_setup_context (hd s)) s else s in
  '(_, d) ← dbg_soft_rearm (c_dbg s);
  let s := set_dbg d s in
  let s := set_hd (dbg_hard_brk_rearm (hd s)) s in
  let s := update_exception_mask s in
  Some (ctrl_traps_set_update false (ctrl_set_traps true s)).

Definition ctrl_traps_disable s : option (ctl M) :=
  let s := if s_on (h_stp (hd s)) then set_hd (dbg_hard_stp_restore_context (hd s)) s else s in
  s ← (if negb (so_dis (c_dbg s)) then '(_, d) ← dbg_soft_disarm (c_dbg s); Some (set_dbg d s) else Some s);
  let s := set_hd (dbg_hard_brk_disarm (hd s)) s in
  let s := set_bitmap (c_dflt_excp (c_cpu s)) s in
  Some (ctrl_traps_set_update false (ctrl_set_traps false s)).

(** [__ctrl_active_cr3_check]: the fields of cr3 compared depend on the paging
    mode. *)
Definition ctrl_active_cr3_check (rpl : Z) s : bool :=
  let c := c_cpu s in
  if negb (c_cr3 s) then true
  else if c_cpl c <? rpl then false
  else if c_lma c then bits (c_cr3v c) 12 40 =? bits (c_stored s) 12 40
  else if c_pae c then bits (c_cr3v c) 5 27 =? bits (c_stored s) 5 27
  else bits (c_cr3v c) 12 20 =? bits (c_stored s) 12 20.

Definition ctrl_traps s : option (ctl M) :=
  if ctrl_active_cr3_check 0 s then
    if negb (c_traps s) || ctrl_traps_updated s then ctrl_traps_enable s else Some s
  else if c_traps s || ctrl_traps_updated s then ctrl_traps_disable s else Some s.

(** ** Address space of the controller *)

Definition bind_cr3 (cr3 : Z) (d : sdbg M) : sdbg M :=
  mk_sdbg (s_h d) (s_m d) cr3 (so_on d) (so_rs d) (so_dis d) (so_cnt d) (so_list d).

(** [active_cr3 = &__cr3]: the value the vm's cr3 has now. *)
Definition ctrl_active_cr3_disable s : option (ctl M) :=
  d ← dbg_soft_reset (c_dbg s);
  let s := set_dbg (bind_cr3 (c_cr3v (c_cpu s)) d) s in
  Some (ctrl_set_cr3 false (ctrl_set_cr3_keep false (ctrl_traps_set_update true s))).

Definition ctrl_active_cr3_enable (cr3 : Z) s : option (ctl M) :=
  s ← (if c_cr3 s then ctrl_active_cr3_disable s else Some s);
  let s := set_dbg (bind_cr3 cr3 (c_dbg s)) (set_stored cr3 s) in
  Some (ctrl_set_cr3 true (ctrl_traps_set_update true s)).

Definition ctrl_active_cr3_reset s : option (ctl M) :=
  if negb (c_keep s) then ctrl_active_cr3_disable s else Some s.

(** ** User filters *)

(** The bitmaps of AMD processors (include/svm_vmm.h, svm_vm.h). *)
Definition VMCB_CR_R_BITMAP : Z := 0.
Definition VMCB_CR_W_BITMAP : Z := 9.

Definition ctrl_usr_set_cr_rd (m : Z) s : ctl M :=
  let u := c_usr s in
  let s := set_usr (mk_usr (u_excp u) (Z.land m 0x1ff) (u_cr_wr u) (u_filter u) (u_cpuid u)) s in
  set_cr_maps (Z.lor VMCB_CR_R_BITMAP (u_cr_rd (c_usr s))) (c_cr_wr_map s) s.
Definition ctrl_usr_set_cr_wr (m : Z) s : ctl M :=
  let u := c_usr s in
  let s := set_usr (mk_usr (u_excp u) (u_cr_rd u) (Z.land m 0x1ff) (u_filter u) (u_cpuid u)) s in
  set_cr_maps (c_cr_rd_map s) (Z.lor VMCB_CR_W_BITMAP (u_cr_wr (c_usr s))) s.

Definition ctrl_usr_reset s : ctl M :=
  let u := c_usr s in
  let s := set_usr (mk_usr 0 (u_cr_rd u) (u_cr_wr u) (u_filter u) (u_cpuid u)) s in
  ctrl_usr_set_cr_wr 0 (ctrl_usr_set_cr_rd 0 (update_exception_mask s)).

(** ** Events (ctrl_evt.c, vmm_evt.c, dbg_evt.c) *)

(** [hdl] is the specific handler, 0 for none. *)
Definition ctrl_evt_setup (type hdl arg : Z) s : ctl M :=
  set_event (Some (if c_true hdl then HdlFn hdl else HdlUsr type, arg)) s.

(** Every handler of the vmm table ignores its event. *)
Definition ctrl_evt_vmm_hdl (arg : Z) s : vm_code * ctl M := (VM_IGNORE, s).

(** The argument of the debugger's events is the address of its event. *)
Definition DBG_EVT_ARG : Z := 1.

Definition dbg_evt_soft s : option (vm_code * ctl M) :=
  '(h, d) ← dbg_soft_event (c_code (c_cpu s)) (c_dbg s);
  let s := set_dbg d s in
  Some (match h with
        | Some h => (VM_DONE, ctrl_evt_setup CTRL_EVT_USR_TYPE_BRK h DBG_EVT_ARG s)
        | None => (VM_IGNORE, s)
        end).

Definition DR6_BS : Z := 14.

Definition dbg_evt_hard s : option (vm_code * ctl M) :=
  if bit (r_dr6 (h_regs (hd s))) DR6_BS then
    '(rc, d) ← dbg_hard_stp_event (c_code (c_cpu s)) (c_dbg s);
    let s := set_dbg d s in
    Some (rc, if decide (rc = VM_DONE) then ctrl_evt_setup CTRL_EVT_USR_TYPE_SSTEP 0 DBG_EVT_ARG s else s)
  else
    let (h, hd') := dbg_hard_brk_event (hd s) in
    let s := set_hd hd' s in
    Some (match h with
          | Some h => (VM_DONE, ctrl_evt_setup CTRL_EVT_USR_TYPE_BRK h DBG_EVT_ARG s)
          | None => (VM_IGNORE, s)
          end).

(** [dbg_evt_gp] disassembles the instruction that faulted; the handlers of the
    events and the gdb stub are given by the configuration. *)
Variable dbg_evt_gp : ctl M -> option (vm_code * ctl M).
Variable run_hdl : evt_hdl -> Z -> ctl M -> option (vm_code * ctl M).
Variable gdbstub : ctl M -> option (ctl M).

Definition ctrl_evt_excp_vmm (vector : Z) s : vm_code * ctl M :=
  if bit (c_dflt_excp (c_cpu s)) vector then ctrl_evt_vmm_hdl vector s else (VM_IGNORE, s).

Definition ctrl_evt_excp_dbg (vector : Z) s : option (vm_code * ctl M) :=
  if bit (h_excp (hd s)) vector then
    if vector =? DB_EXCP then dbg_evt_hard s
    else if vector =? BP_EXCP then dbg_evt_soft s
    else if vector =? GP_EXCP then dbg_evt_gp s
    else Some (VM_IGNORE, s)
  else Some (VM_IGNORE, s).

Definition ctrl_evt_excp_usr (vector : Z) s : vm_code * ctl M :=
  (VM_IGNORE, if bit (u_excp (c_usr s)) vector then ctrl_evt_setup CTRL_EVT_USR_TYPE_EXCP 0 vector s else s).

Definition ctrl_evt_excp (vector : Z) s : option (vm_code * ctl M) :=
  let (rc, s) := ctrl_evt_excp_vmm vector s in
  if decide (rc = VM_IGNORE) then
    '(rc, s) ← ctrl_evt_excp_dbg vector s;
    Some (if decide (rc = VM_IGNORE) then ctrl_evt_excp_usr vector s else (rc, s))
  else Some (rc, s).

Definition ctrl_evt_cr_rd (n : Z) s : vm_code * ctl M :=
  if bit (u_cr_rd (c_usr s)) n then (VM_DONE, ctrl_evt_setup CTRL_EVT_USR_TYPE_CR_RD 0 n s) else (VM_IGNORE, s).

Definition ctrl_evt_cr_wr_usr (n : Z) s : vm_code * ctl M :=
  if negb (bit (u_cr_wr (c_usr s)) n) then (VM_IGNORE, s)
  else (VM_DONE, ctrl_evt_setup CTRL_EVT_USR_TYPE_CR_WR 0 n s).

(** The events with a vmm handler and a user filter. *)
Definition ctrl_evt_filtered (filter type : Z) s : vm_code * ctl M :=
  if negb (c_true (Z.land (u_filter (c_usr s)) filter)) then (VM_IGNORE, s)
  else (VM_DONE, ctrl_evt_setup type 0 0 s).
Definition vmm_then_usr (arg : Z) (usr_evt : ctl M -> vm_code * ctl M) s : vm_code * ctl M :=
  let (rc, s) := ctrl_evt_vmm_hdl arg s in
  if decide (rc = VM_IGNORE) then usr_evt s else (rc, s).

Definition ctrl_evt_cr_wr (n : Z) := vmm_then_usr n (ctrl_evt_cr_wr_usr n).
Definition ctrl_evt_npf := vmm_then_usr 0 (ctrl_evt_filtered CTRL_FILTER_NPF CTRL_EVT_USR_TYPE_NPF).
Definition ctrl_evt_suspend := vmm_then_usr 0 (ctrl_evt_filtered CTRL_FILTER_S3 CTRL_EVT_USR_TYPE_S3).
Definition ctrl_evt_hypercall := vmm_then_usr 0 (ctrl_evt_filtered CTRL_FILTER_HYP CTRL_EVT_USR_TYPE_HYP).

Definition ctrl_evt_cpuid (index : Z) s : vm_code * ctl M :=
  if negb (c_true (Z.land (u_filter (c_usr s)) CTRL_FILTER_CPUID)) then (VM_IGNORE, s)
  else if negb (u_cpuid (c_usr s) =? index) && negb (u_cpuid (c_usr s) =? CTRL_CPUID_ALL) then (VM_IGNORE, s)
  else (VM_DONE, ctrl_evt_setup CTRL_EVT_USR_TYPE_CPUID 0 0 s).

Definition ctrl_event s : option (vm_code * ctl M) :=
  match c_event s with
  | None => Some (VM_DONE, s)
  | Some (h, arg) => '(rc, s) ← run_hdl h arg s; Some (rc, set_event None s)
  end.

(** The controller, after each exit of the vm. *)
Definition controller s : option (vm_code * ctl M) :=
  '(rc, s) ← (if ctrl_active_cr3_check 3 s then ctrl_event s else Some (VM_IGNORE, s));
  s ← gdbstub s;
  match rc with
  | VM_FAIL | VM_FAULT => Some (rc, s)
  | _ =>
      let s := if h_dirty (hd s) then set_hd (dbg_hard_dr6_clean (hd s)) s else s in
      s ← ctrl_traps s;
      Some (rc, s)
  end.
End ctrl.

(** ** Properties *)

Section properties.
Context {M : Type} {GM : GuestMem M} {L : list (Z * Z)} {GL : GuestMemLaws M L}.
Implicit Types (s : ctl M).

(** Nothing is installed in the pages of the vm that are present. *)
Definition disarmed (d : sdbg M) : Prop := forall i b, so_list d !! i = Some b -> bp_on b = true ->
  gm_here (s_m d) (bp_key b) = true -> bp_st b = false.

Lemma disarmed_orig (d : sdbg M) orig k : soft_ok d orig -> disarmed d -> k ∈ L -> gm_here (s_m d) k = true ->
  gm_byte (s_m d) k = orig k.
Proof.
  intros Ho Hd Hk Hh. destruct (decide (Exists (fun b => bp_on b = true /\ bp_key b = k) (so_list d))) as [He|He].
  - apply Exists_exists in He as (b & [i Hb]%list_elem_of_lookup & Hon & <-).
    destruct (so_saved _ _ Ho i b Hb Hon) as [_ ->]. by rewrite (Hd i b).
  - apply (so_rest _ _ Ho); [done|]. intros i b Hb Hon Hkk. apply He, Exists_exists. exists b.
    split; [by eapply list_elem_of_lookup_2|done].
Qed.

Lemma ok_set_h (d : sdbg M) h orig : soft_ok d orig -> soft_ok (set_h h d) orig.
Proof. by apply ok_same. Qed.

Lemma rearm_dr7 h : low32 (r_dr7 (h_regs (dbg_hard_brk_rearm h))) = hbrk_dr7 h.
Proof.
  unfold dbg_hard_brk_rearm. cbn. unfold low32 at 1, set_low32. rewrite bits_set_same by lia.
  apply (wrap_id 32), bits_fits; lia.
Qed.

(** C33: When the vm is in another address space than the one the controller is
    bound to, and the traps are on or an update of them is pending, [ctrl_traps]
    leaves the vm its own program, wherever its page is present, the exceptions
    it runs with by default and no hardware breakpoint; the traps are off and
    nothing is pending.  When the breakpoints are marked as removed they are, in
    the pages that are present.  The locations are those of [GuestMemLaws]. *)
Theorem ctrl_traps_hides s orig : soft_ok (c_dbg s) orig -> soft_cnt (c_dbg s) ->
  ctrl_active_cr3_check 0 s = false -> (c_traps s = true \/ ctrl_traps_updated s = true) ->
  (so_dis (c_dbg s) = true -> disarmed (c_dbg s)) ->
  exists s', ctrl_traps s = Some s' /\ soft_ok (c_dbg s') orig /\ c_traps s' = false /\
    ctrl_traps_updated s' = false /\
    (forall k, k ∈ L -> gm_here (s_m (c_dbg s)) k = true -> gm_byte (s_m (c_dbg s')) k = orig k) /\
    c_bitmap s' = c_dflt_excp (c_cpu s) /\
    low32 (r_dr7 (h_regs (hd s'))) = Z.land (low32 (r_dr7 (h_regs (hd s)))) 0x100.
Proof.
  intros Ho Hc Hchk Htr Hdis. unfold ctrl_traps. rewrite Hchk.
  assert (c_traps s || ctrl_traps_updated s = true) as -> by (destruct Htr as [->| ->]; [done|by rewrite orb_true_r]).
  unfold ctrl_traps_disable. set (s1 := if s_on _ then _ else s).
  assert (exists h, c_dbg s1 = set_h h (c_dbg s) /\ r_dr7 (h_regs h) = r_dr7 (h_regs (hd s)) /\ c_cpu s1 = c_cpu s)
    as (h & Hd1 & Hr & Hcpu).
  { unfold s1, hd. destruct (s_on _); [by eexists|]. exists (s_h (c_dbg s)). by destruct (c_dbg s). }
  assert (exists s2, (if negb (so_dis (c_dbg s1)) then '(_, d) ← dbg_soft_disarm (c_dbg s1); Some (set_dbg d s1) else Some s1)
     = Some s2 /\ soft_ok (c_dbg s2) orig /\ s_h (c_dbg s2) = h /\ c_cpu s2 = c_cpu s /\
       forall k, k ∈ L -> gm_here (s_m (c_dbg s)) k = true -> gm_byte (s_m (c_dbg s2)) k = orig k) as (s2 & -> & Ho2 & Hh2 & Hcpu2 & Hb2).
  { rewrite Hd1. change (so_dis (set_h h (c_dbg s))) with (so_dis (c_dbg s)). destruct (so_dis (c_dbg s)) eqn:Hd; cbn [negb].
    - exists s1. rewrite Hd1. split_and!; [done|by apply ok_set_h|done|done|].
      intros k Hk Hh. apply disarmed_orig; [by apply ok_set_h|by apply Hdis|done|done].
    - destruct (disarm_ok (set_h h (c_dbg s)) orig) as (d' & -> & H1 & H2 & H3 & H4 & _); [by apply ok_set_h|done|].
      cbn [mbind option_bind]. exists (set_dbg d' s1). by split_and!. }
  cbn [mbind option_bind]. eexists. split; [reflexivity|]. split_and!; [|done|done|done|by rewrite <- Hcpu2|].
  - by apply (ok_same (c_dbg s2)).
  - assert (r_dr7 (h_regs (hd s2)) = r_dr7 (h_regs (hd s))) as Hr2 by (change (hd s2) with (s_h (c_dbg s2)); by rewrite Hh2).
    rewrite <- Hr2. cbn. unfold low32, set_low32. rewrite bits_set_same by lia.
    apply (wrap_id 32), fits_of_testbit; [lia|by apply Z.land_nonneg; right|].
    intros i Hi. rewrite Z.land_spec, testbit_bits by lia. by rewrite (proj2 (Z.ltb_ge i 32)) by lia.
Qed.

(** C34: In the address space the controller is bound to, when the traps are off
    or an update of them is pending, [ctrl_traps] installs every software
    breakpoint whose page is present, but the one that is being stepped over,
    which is left as it was, loads the hardware breakpoints, and intercepts the
    exceptions of the vmm, of the debugger and of the user.  The locations are
    those of [GuestMemLaws]. *)
Theorem ctrl_traps_shows s orig : soft_ok (c_dbg s) orig -> soft_cnt (c_dbg s) ->
  ctrl_active_cr3_check 0 s = true -> (c_traps s = false \/ ctrl_traps_updated s = true) ->
  exists s', ctrl_traps s = Some s' /\ soft_ok (c_dbg s') orig /\ c_traps s' = true /\
    ctrl_traps_updated s' = false /\
    (forall i b, so_list (c_dbg s') !! i = Some b -> bp_on b = true -> gm_here (s_m (c_dbg s)) (bp_key b) = true ->
       over_bp (c_dbg s) (bp_addr b) = false -> gm_byte (s_m (c_dbg s')) (bp_key b) = BREAKPOINT_INSN) /\
    (forall i b, so_list (c_dbg s') !! i = Some b -> bp_on b = true -> over_bp (c_dbg s) (bp_addr b) = true ->
       so_list (c_dbg s) !! i = Some b) /\
    low32 (r_dr7 (h_regs (hd s'))) = hbrk_dr7 (hd s) /\
    c_bitmap s' = Z.lor (Z.lor (c_dflt_excp (c_cpu s)) (u_excp (c_usr s))) (h_excp (hd s)).
Proof.
  intros Ho Hc Hchk Htr. unfold ctrl_traps. rewrite Hchk.
  assert (negb (c_traps s) || ctrl_traps_updated s = true) as -> by (destruct Htr as [->| ->]; [done|by rewrite orb_true_r]).
  unfold ctrl_traps_enable. set (s1 := if s_on _ then _ else s).
  assert (exists h, c_dbg s1 = set_h h (c_dbg s) /\ h_brk h = h_brk (hd s) /\ h_excp h = h_excp (hd s) /\
    c_cpu s1 = c_cpu s /\ c_usr s1 = c_usr s /\ h_evt h = h_evt (hd s)) as (h & Hd1 & Hb & He & Hcpu & Hu & Hev).
  { unfold s1, hd. destruct (s_on _); [by eexists|]. exists (s_h (c_dbg s)). by destruct (c_dbg s). }
  destruct (rearm_ok (set_h h (c_dbg s)) orig) as (d' & Hre & H1 & H2 & H3 & _ & H4 & H5); [by apply ok_set_h|done|].
  assert (forall a, over_bp (set_h h (c_dbg s)) a = over_bp (c_dbg s) a) as Hov by (intros a; unfold over_bp; cbn; by rewrite Hev).
  rewrite Hd1, Hre. cbn [mbind option_bind]. eexists. split; [reflexivity|].
  split_and!; [by apply (ok_same d')|done|done|intros i b ? ? ? ?; apply (H4 i b); by rewrite ?Hov|intros i b ? ? ?; apply (H5 i b); by rewrite ?Hov| |].
  - assert (hd (set_dbg d' s1) = h) as Hh by exact H3.
    etransitivity; [apply (rearm_dr7 (hd (set_dbg d' s1)))|]. rewrite Hh. unfold hbrk_dr7. by rewrite Hb.
  - assert (hd (set_dbg d' s1) = h) as Hh by exact H3.
    change (Z.lor (Z.lor (c_dflt_excp (c_cpu s1)) (u_excp (c_usr s1))) (h_excp (hd (set_dbg d' s1))) =
      Z.lor (Z.lor (c_dflt_excp (c_cpu s)) (u_excp (c_usr s))) (h_excp (hd s))).
    by rewrite Hh, He, Hcpu, Hu.
Qed.

(** A pending event is delivered once: after [ctrl_event] no event is pending,
    and a second call does nothing. *)
Theorem ctrl_event_once run_hdl s rc s' : ctrl_event run_hdl s = Some (rc, s') ->
  c_event s' = None /\ ctrl_event run_hdl s' = Some (VM_DONE, s').
Proof.
  unfold ctrl_event at 1. destruct (c_event s) as [[h arg]|] eqn:He; intros H.
  - apply bind_Some in H as ([rc1 s1] & _ & [= <- <-]). by split.
  - injection H as <- <-. split; [done|]. unfold ctrl_event. by rewrite He.
Qed.

(** An exception that neither the debugger nor the user intercepts is left to
    the vm, and one that the user alone intercepts is both recorded and left to
    the vm. *)
Theorem ctrl_evt_excp_vm gp vector s : bit (h_excp (hd s)) vector = false ->
  ctrl_evt_excp gp vector s = Some (VM_IGNORE,
    if bit (u_excp (c_usr s)) vector then set_event (Some (HdlUsr CTRL_EVT_USR_TYPE_EXCP, vector)) s else s).
Proof.
  intros Hb. unfold ctrl_evt_excp, ctrl_evt_excp_vmm, ctrl_evt_vmm_hdl.
  replace (if bit (c_dflt_excp (c_cpu s)) vector then (VM_IGNORE, s) else (VM_IGNORE, s)) with (VM_IGNORE, s)
    by (destruct (bit (c_dflt_excp (c_cpu s)) vector); reflexivity).
  rewrite decide_True by done. unfold ctrl_evt_excp_dbg. rewrite Hb. cbn [mbind option_bind].
  by rewrite decide_True.
Qed.
End properties.

(** ** Witnesses: a controller bound to the address space 0x1000 *)

Definition ex_ctl (cr3 : Z) (traps : bool) (ev : option (evt_hdl * Z)) : ctl vmst :=
  mk_ctl ex_sdbg1 true false traps 0x1000 ev (mk_usr 0x40 0 0 0 0) (mk_vcpu 0 cr3 false false 0x4000 0x7c00) 0 0 9.

(** With the breakpoints of [ex_sdbg2] installed, in the address space 0x2000. *)
Definition ex_ctl2 : ctl vmst :=
  mk_ctl ex_sdbg2 true false true 0x1000 None (mk_usr 0x40 0 0 0 0) (mk_vcpu 0 0x2000 false false 0x4000 0x7c00) 0 0 9.

Example ctrl_traps_hides_witness :
  exists s', @ctrl_traps _ pm_mem ex_ctl2 = Some s' /\ c_traps s' = false /\
    rd0 (phys (s_m (c_dbg ex_ctl2))) 0x7c00 = BREAKPOINT_INSN /\ rd0 (phys (s_m (c_dbg s'))) 0x7c00 = 0xfa /\
    c_bitmap s' = 0x4000 /\ low32 (r_dr7 (h_regs (hd s'))) = 0.
Proof.
  destruct (@ctrl_traps_hides _ pm_mem pm_locs pm_laws ex_ctl2 pm_orig ex_sdbg2_ok ex_sdbg2_cnt eq_refl (or_introl eq_refl)
    (fun H : false = true => match Bool.diff_false_true H with end)) as (s' & E & _ & Ht & _ & Hb & Hm & Hd).
  exists s'. split; [exact E|]. split; [exact Ht|]. split; [vm_compute; reflexivity|]. split; [|split; [exact Hm|exact Hd]].
  apply (Hb (0x1000, 0x7c00)); [apply list_elem_of_here|vm_compute; reflexivity].
Defined.

Lemma ex_ctl_shown : option_bind _ _ (fun s => so_list (c_dbg s) !! 0%nat) (@ctrl_traps _ rm_mem (ex_ctl 0x1000 false None)) =
  Some (bp_set_st true rm_bp).
Proof. vm_compute. reflexivity. Qed.
Example ctrl_traps_shows_witness :
  exists s', @ctrl_traps _ rm_mem (ex_ctl 0x1000 false None) = Some s' /\ c_traps s' = true /\
    rd0 (phys (s_m (c_dbg (ex_ctl 0x1000 false None)))) 0x7c00 = 0xfa /\ rd0 (phys (s_m (c_dbg s'))) 0x7c00 = BREAKPOINT_INSN /\
    low32 (r_dr7 (h_regs (hd s'))) = 0 /\ c_bitmap s' = 0x4040.
Proof.
  destruct (@ctrl_traps_shows _ rm_mem rm_locs rm_laws (ex_ctl 0x1000 false None) rm_orig ex_sdbg1_ok ex_sdbg1_cnt eq_refl
    (or_introl eq_refl)) as (s' & E & _ & Ht & _ & Hb & _ & Hd & Hm).
  pose proof ex_ctl_shown as Hl. rewrite E in Hl. cbn [option_bind] in Hl.
  exists s'. split; [exact E|]. split; [exact Ht|]. split; [vm_compute; reflexivity|]. split; [|split; [exact Hd|exact Hm]].
  exact (Hb 0%nat (bp_set_st true rm_bp) Hl eq_refl eq_refl eq_refl).
Defined.

(** The command of gdb that sets the exceptions of the user rewrites the bitmap
    of the processor without an update pending: in another address space, with
    the traps off, [ctrl_traps] leaves it. *)
Example mask_without_update : let s := update_exception_mask (ex_ctl 0x2000 false None) in
  ctrl_active_cr3_check 0 s = false /\ c_traps s = false /\ ctrl_traps_updated s = false /\
  @ctrl_traps _ rm_mem s = Some s /\ c_dflt_excp (c_cpu s) = 0x4000 /\ c_bitmap s = 0x4040.
Proof. split_and!; vm_compute; reflexivity. Qed.

Example ctrl_event_once_witness :
  c_event (ex_ctl 0x1000 true None) = None /\
  ctrl_event (fun _ _ s => Some (VM_DONE, s)) (ex_ctl 0x1000 true None) = Some (VM_DONE, ex_ctl 0x1000 true None).
Proof.
  apply (ctrl_event_once (fun _ _ s => Some (VM_DONE, s)) (ex_ctl 0x1000 true (Some (HdlUsr 3, 1))) VM_DONE).
  reflexivity.
Defined.

Example ctrl_evt_excp_vm_witness :
  @ctrl_evt_excp _ rm_mem (fun s => Some (VM_IGNORE, s)) 6 (ex_ctl 0x1000 true None) =
    Some (VM_IGNORE, ex_ctl 0x1000 true (Some (HdlUsr 2, 6))).
Proof. apply (@ctrl_evt_excp_vm _ rm_mem (fun s => Some (VM_IGNORE, s)) 6 (ex_ctl 0x1000 true None)). reflexivity. Defined.
