(* ===== verification/GdbCmd.v ===== *)
(** * The commands of the gdb stub (vmm/src/control/gdbstub_cmd.c,
    gdbstub_reg.c, gdbstub.c)

    What the stub does with the payload of a packet.  The commands act on the
    debugger, the controller, the registers and the memory of the vm; [None]
    is behaviour the source leaves undefined: a panic, a read outside an array,
    or a wait that does not end. *)

From S2P Require Import Prelude.
From S2P Require Import Str.
From S2P Require Import Pagemem.
From S2P Require Import Walk.
From S2P Require Import Vm.
From S2P Require Import VmMem.
From S2P Require Import DbgHard.
From S2P Require Import DbgSoft.
From S2P Require Import DbgVm.
From S2P Require Import Ctrl.
From S2P Require Import GdbPkt.

(** ** State *)

(** The controller, and the registers of the vm: the array of general registers,
    rip, the selectors cs, ss, ds, es, fs and gs, and [cpu_addr_sz()]. *)
Record vmv := mk_vmv {
  v_ctl : ctl vmst;
  v_gpr : list Z;
  v_rip : Z;
  v_sel : list Z;
  v_mode : Z;
}.

Definition v_dbg (v : vmv) : sdbg vmst := c_dbg (v_ctl v).
Definition v_vm (v : vmv) : vmst := s_m (v_dbg v).
Definition v_rflags (v : vmv) : Z := r_rflags (h_regs (s_h (v_dbg v))).
Definition set_ctl (x : ctl vmst) (v : vmv) : vmv := mk_vmv x (v_gpr v) (v_rip v) (v_sel v) (v_mode v).
Definition set_vdbg (d : sdbg vmst) (v : vmv) : vmv := set_ctl (set_dbg d (v_ctl v)) v.
Definition set_vm (s : vmst) (v : vmv) : vmv := set_vdbg (set_m s (v_dbg v)) v.

Definition GPR64_RAX : Z := 15.
Definition GPR64_RSP : Z := 11.
Definition GPR64_RBP : Z := 10.

#[export] Instance vmv_io : CtrlIO vmv := {|
  io_write b v := let s := v_vm v in set_vm (mk_vmst (phys s) (tx s ++ b) (rx s) (excps s)) v;
  io_read n v := let (b, s) := ctrl_io_read n (v_vm v) in (b, set_vm s v);
|}.

#[export] Instance vmv_io_laws : CtrlIOLaws vmv.
Proof.
  split. intros n v. cbn [io_read vmv_io]. unfold ctrl_io_read. destruct (rx (v_vm v)) as [|ch l]; simpl; [lia|].
  rewrite length_take. lia.
Qed.

#[export] Instance vmv_view : CpuView vmv := {|
  cpu_addr_sz := v_mode;
  view_rsp v := v_gpr v !!! Z.to_nat GPR64_RSP;
  view_rbp v := v_gpr v !!! Z.to_nat GPR64_RBP;
  view_rip := v_rip;
|}.

(** ** Registers (gdbstub_reg.c) *)

Inductive reg_ref := RGpr (i : Z) | RRip | RRflags | RSel (i : nat).

(** [gdb_gpr_reg_acc]: the sixteen general registers, rip, rflags and the
    selectors. *)
Definition gdb_gpr_reg_acc : list reg_ref :=
  (RGpr <$> seqZ 0 16) ++ [RRip; RRflags; RSel 0; RSel 1; RSel 2; RSel 3; RSel 4; RSel 5].
Definition gdb_gpr_reg_acc_nr : Z := 24.

Definition fix_sz (v : vmv) : Z := if v_mode v =? 64 then 8 else 4.
Definition reg_size (r : reg_ref) (v : vmv) : Z := match r with RSel _ => 2 | _ => fix_sz v end.

(** [__gdb_setup_reg] for the general table.  The bound of the source admits the
    index [nr], which is outside of the table. *)
Definition gdb_setup_reg (idx : Z) (v : vmv) : option (option (reg_ref * Z)) :=
  let idx := if negb (v_mode v =? 64) && (7 <? idx) then wrap64 (idx + 8) else idx in
  if gdb_gpr_reg_acc_nr <? idx then Some None
  else r ← gdb_gpr_reg_acc !! Z.to_nat idx; Some (Some (r, reg_size r v)).

Definition reg_get (r : reg_ref) (v : vmv) : Z :=
  match r with
  | RGpr i => v_gpr v !!! Z.to_nat (GPR64_RAX - i)
  | RRip => v_rip v
  | RRflags => v_rflags v
  | RSel i => v_sel v !!! i
  end.
Definition reg_set (r : reg_ref) (x : Z) (v : vmv) : vmv :=
  match r with
  | RGpr i => mk_vmv (v_ctl v) (<[Z.to_nat (GPR64_RAX - i) := x]> (v_gpr v)) (v_rip v) (v_sel v) (v_mode v)
  | RRip => mk_vmv (v_ctl v) (v_gpr v) x (v_sel v) (v_mode v)
  | RRflags => let d := v_dbg v in set_vdbg (set_h (set_rflags x (s_h d)) d) v
  | RSel i => mk_vmv (v_ctl v) (v_gpr v) (v_rip v) (<[i := x]> (v_sel v)) (v_mode v)
  end.

(** ** Commands *)

Definition GDB_CMD_THREAD : Z := 72.
Definition GDB_CMD_STOP_REASON : Z := 63.
Definition GDB_CMD_R_GPR : Z := 103.
Definition GDB_CMD_W_GPR : Z := 71.
Definition GDB_CMD_R_REG : Z := 112.
Definition GDB_CMD_W_REG : Z := 80.
Definition GDB_CMD_R_MEM : Z := 109.
Definition GDB_CMD_W_MEM : Z := 77.
Definition GDB_CMD_CONT : Z := 99.
Definition GDB_CMD_STEP : Z := 115.
Definition GDB_CMD_KILL : Z := 107.
Definition GDB_CMD_DETACH : Z := 68.
Definition GDB_CMD_S_BRK : Z := 90.
Definition GDB_CMD_R_BRK : Z := 122.
Definition GDB_CMD_QUERY : Z := 113.
Definition GDB_QUERY_THREAD : Z := 67.
Definition GDB_CMD_VMM : Z := 5.

Section cmd.
Variable c : vm_cpu.
#[local] Instance cmd_mem : GuestMem vmst := vm_mem c.
Implicit Types (g : gdb vmv).

Definition on_dbg (f : sdbg vmst -> option (vm_code * sdbg vmst)) g : option (vm_code * gdb vmv) :=
  '(rc, d) ← f (v_dbg (g_v g)); Some (rc, set_v (set_vdbg d (g_v g)) g).

(** [gdb_vmem_read] and [gdb_vmem_write]. *)
Definition gdb_vmem_read (addr len : Z) g : option (vm_code * bytes * gdb vmv) :=
  '(rc, ac, s) ← vm_read_vmem c (active_cr3 (v_dbg (g_v g))) addr (replicate (Z.to_nat len) 0) len (v_vm (g_v g));
  Some (rc, va_data ac, set_v (set_vm s (g_v g)) g).
Definition gdb_vmem_write (addr : Z) (data : bytes) (len : Z) g : option (vm_code * gdb vmv) :=
  '(rc, _, s) ← vm_write_vmem c (active_cr3 (v_dbg (g_v g))) addr data len (v_vm (g_v g));
  Some (rc, set_v (set_vm s (g_v g)) g).

(** *** gdbstub.c *)

Definition gdb_disable g : option (gdb vmv) :=
  s ← ctrl_active_cr3_reset (v_ctl (g_v g));
  let s := ctrl_usr_reset s in
  d ← dbg_disable (c_dbg s);
  let g := set_v (set_ctl (set_dbg d s) (g_v g)) g in
  Some (gdb_set_lock false (gdb_set_enable false g)).
Definition gdb_reset := gdb_disable.

Definition gdb_enable g : option (gdb vmv) :=
  let g := gdb_set_lock true (gdb_set_enable true (gdb_set_last_stop_reason GDB_EXIT_INT g)) in
  Some (set_v (set_vdbg (dbg_enable (v_dbg (g_v g))) (g_v g)) g).

(** *** Queries *)

Definition gdb_query_thread g : gdb vmv := gdb_send_packet (gdb_add_str [81; 67; 48] g).
Definition gdb_cmd_query (data : bytes) g : gdb vmv :=
  if data !!! 0%nat =? GDB_QUERY_THREAD then gdb_query_thread g else gdb_unsupported g.
Definition gdb_cmd_thread (data : bytes) g : gdb vmv :=
  let b := data !!! 0%nat in
  if (b =? 103) || (b =? 99) then gdb_ok g else gdb_unsupported g.
Definition gdb_cmd_stop_reason g : option (gdb vmv) := gdb_send_stop_reason (g_reason g) g.

(** *** Registers *)

(** [for(i=GPR64_RAX; i >= (GPR64_RAX+1)-ngpr; i--)] with a 64-bit unsigned
    [i]: a bound of 0 never ends the loop, which leaves the array. *)
Fixpoint rd_gpr_loop (fuel : nat) (i lo vlen : Z) g : option (gdb vmv) :=
  if lo <=? i then
    match fuel with
    | O => None
    | S fuel =>
        r ← v_gpr (g_v g) !! Z.to_nat i;
        g ← gdb_add_number r vlen true g;
        rd_gpr_loop fuel (wrap64 (i - 1)) lo vlen g
    end
  else Some g.

Fixpoint add_numbers (l : list Z) (len : Z) g : option (gdb vmv) :=
  match l with
  | [] => Some g
  | x :: l => g ← gdb_add_number x len true g; add_numbers l len g
  end.

Definition gdb_cmd_rd_gpr g : option (gdb vmv) :=
  let '(ngpr, vlen) := if v_mode (g_v g) =? 64 then (16, 16) else (8, 8) in
  g ← rd_gpr_loop 17 GPR64_RAX (GPR64_RAX + 1 - ngpr) vlen g;
  g ← gdb_add_number (v_rip (g_v g)) vlen true g;
  g ← add_numbers (v_rflags (g_v g) :: v_sel (g_v g)) 8 g;
  Some (gdb_send_packet g).

Definition gdb_cmd_rd_reg (data : bytes) g : option (gdb vmv) :=
  '(r, g) ← gdb_setup_reg_op gdb_setup_reg data false g;
  match r with
  | None => Some g
  | Some (r, size, _) =>
      g ← gdb_add_number (reg_get r (g_v g)) (size * 2) true g;
      Some (gdb_send_packet g)
  end.

Definition gdb_cmd_wr_reg (data : bytes) g : option (gdb vmv) :=
  '(r, g) ← gdb_setup_reg_op gdb_setup_reg data true g;
  match r with
  | None => Some g
  | Some (r, size, value) =>
      let old := reg_get r (g_v g) in
      let x := if size =? 2 then set_bits old 0 16 value
               else if size =? 4 then set_bits old 0 32 value
               else if size =? 8 then value else old in
      Some (gdb_ok (set_v (reg_set r x (g_v g)) g))
  end.

(** *** Memory *)

Definition STORE_SZ : Z := 128.

Fixpoint rd_mem_loop (fuel : nat) (addr size : Z) g : option (gdb vmv) :=
  if negb (c_true size) then Some (gdb_send_packet g)
  else match fuel with
  | O => None
  | S fuel =>
      let need := Z.min size STORE_SZ in
      '(rc, store, g) ← gdb_vmem_read addr need g;
      if decide (rc = VM_DONE) then
        rd_mem_loop fuel (wrap64 (addr + need)) (size - need) (fold_left (fun g b => gdb_add_byte b g) store g)
      else Some (gdb_err_mem g)
  end.

(** There is no return after the refusal of a size that is too large. *)
Definition gdb_cmd_rd_mem (data : bytes) g : option (gdb vmv) :=
  let (r, g) := gdb_setup_mem_op data false g in
  match r with
  | None => Some g
  | Some (addr, size, _) =>
      let g := if (GDB_ANSWER_SZ - GDB_ACKPKT_SZ) / 2 <? size then gdb_unsupported g else g in
      rd_mem_loop (Z.to_nat size) addr size g
  end.

(** [can] bytes from their digits; a digit that is not one leaves the content of
    the buffer, [store], as it was.  [None] when the digits run past the
    packet. *)
Fixpoint wr_mem_bytes (can : nat) (digits store : bytes) g : option (bytes * bytes * gdb vmv) :=
  match can with
  | O => Some ([], digits, g)
  | S can =>
      match digits with
      | d0 :: d1 :: digits =>
          let '(b, g) := match hex_to_uint8 d0 d1 with
                         | Some b => (b, g)
                         | None => (store !!! 0%nat, gdb_unsupported g)
                         end in
          '(l, digits, g) ← wr_mem_bytes can digits (tail store) g;
          Some (b :: l, digits, g)
      | _ => None
      end
  end.

Fixpoint wr_mem_loop (fuel : nat) (addr size : Z) (digits store : bytes) g : option (gdb vmv) :=
  if negb (c_true size) then Some (gdb_ok g)
  else match fuel with
  | O => None
  | S fuel =>
      let can := Z.min size STORE_SZ in
      '(l, digits, g) ← wr_mem_bytes (Z.to_nat can) digits store g;
      '(rc, g) ← gdb_vmem_write addr l can g;
      if decide (rc = VM_DONE) then
        wr_mem_loop fuel (wrap64 (addr + can)) (size - can) digits (l ++ drop (length l) store) g
      else Some (gdb_err_mem g)
  end.

Definition gdb_cmd_wr_mem (store : bytes) (data : bytes) g : option (gdb vmv) :=
  let (r, g) := gdb_setup_mem_op data true g in
  match r with
  | None => Some g
  | Some (addr, size, bs) =>
      let g := if Z.of_nat (length bs / 2) =? size then g else gdb_unsupported g in
      wr_mem_loop (Z.to_nat size) addr size bs store g
  end.

(** *** Breakpoints *)

Definition brk_answer (rc : vm_code) g : gdb vmv := if decide (rc = VM_DONE) then gdb_ok g else gdb_err_mem g.
Definition hard_code (ok : bool) : vm_code := if ok then VM_DONE else VM_IGNORE.
Definition on_hard (f : hdbg -> bool * hdbg) g : vm_code * gdb vmv :=
  let d := v_dbg (g_v g) in
  let (ok, h) := f (s_h d) in (hard_code ok, set_v (set_vdbg (set_h h d) (g_v g)) g).

(** Memory breakpoints are of type 0, hardware ones of types 1, 2 and 4. *)
Definition hard_type (type : Z) : bool := (type =? 1) || (type =? 2) || (type =? 4).

Definition gdb_cmd_st_brk (data : bytes) g : option (gdb vmv) :=
  let (r, g) := gdb_setup_brk_op data g in
  match r with
  | None => Some g
  | Some (type, size, addr) =>
      if type =? 0 then '(rc, g) ← on_dbg (dbg_soft_set addr 0) g; Some (brk_answer rc g)
      else if hard_type type then
        let (rc, g) := on_hard (dbg_hard_brk_set addr (wrap8 (type - 1)) (wrap8 (size - 1)) 0) g in Some (brk_answer rc g)
      else Some (gdb_unsupported g)
  end.

Definition gdb_cmd_rm_brk (data : bytes) g : option (gdb vmv) :=
  let (r, g) := gdb_setup_brk_op data g in
  match r with
  | None => Some g
  | Some (type, size, addr) =>
      if type =? 0 then '(rc, g) ← on_dbg (dbg_soft_del addr) g; Some (brk_answer rc g)
      else if hard_type type then
        let (rc, g) := on_hard (dbg_hard_brk_del addr (wrap8 (type - 1)) (wrap8 (size - 1))) g in Some (brk_answer rc g)
      else Some (gdb_unsupported g)
  end.

(** *** Execution *)

Definition gdb_cmd_resume (stp : bool) g : option (gdb vmv) :=
  '(rc, g) ← on_dbg (dbg_resume stp) g;
  Some (if decide (rc = VM_DONE) then gdb_set_lock false (gdb_ack g) else gdb_err g).

(** An address after the command is a panic. *)
Definition gdb_cmd_cont (data : bytes) g : option (gdb vmv) :=
  if c_true (Z.of_nat (length data)) then None else gdb_cmd_resume false g.
Definition gdb_cmd_step (data : bytes) g : option (gdb vmv) :=
  if c_true (Z.of_nat (length data)) then None else gdb_cmd_resume true g.

Definition gdb_cmd_detach (fuel : nat) (x : Z) g : option (gdb vmv) :=
  g ← gdb_reset g; gdb_wait_ack fuel x (gdb_ok g).
Definition gdb_cmd_kill g : option (gdb vmv) := g ← gdb_reset g; Some (gdb_ok g).

(** *** Dispatch *)

(** The commands of the vmm are in another file; [fuel] bounds the wait of a
    detach, [x] and [store] are what its variable and the buffer of a memory
    write hold before they are assigned. *)
Variable gdb_cmd_vmm : bytes -> gdb vmv -> option (gdb vmv).
Variable fuel : nat.
Variable x : Z.
Variable store : bytes.

Definition gdb_process_packet (data : bytes) g : option (gdb vmv) :=
  let cmd := data !!! 0%nat in
  let data := tail data in
  if cmd =? GDB_CMD_R_MEM then gdb_cmd_rd_mem data g
  else if cmd =? GDB_CMD_W_MEM then gdb_cmd_wr_mem store data g
  else if cmd =? GDB_CMD_R_REG then gdb_cmd_rd_reg data g
  else if cmd =? GDB_CMD_W_REG then gdb_cmd_wr_reg data g
  else if cmd =? GDB_CMD_S_BRK then gdb_cmd_st_brk data g
  else if cmd =? GDB_CMD_R_BRK then gdb_cmd_rm_brk data g
  else if cmd =? GDB_CMD_R_GPR then gdb_cmd_rd_gpr g
  else if cmd =? GDB_CMD_W_GPR then Some (gdb_unsupported g)
  else if cmd =? GDB_CMD_CONT then gdb_cmd_cont data g
  else if cmd =? GDB_CMD_STEP then gdb_cmd_step data g
  else if cmd =? GDB_CMD_THREAD then Some (gdb_cmd_thread data g)
  else if cmd =? GDB_CMD_STOP_REASON then gdb_cmd_stop_reason g
  else if cmd =? GDB_CMD_VMM then gdb_cmd_vmm data g
  else if cmd =? GDB_CMD_QUERY then Some (gdb_cmd_query data g)
  else if cmd =? GDB_CMD_KILL then gdb_cmd_kill g
  else if cmd =? GDB_CMD_DETACH then gdb_cmd_detach fuel x g
  else Some (gdb_unsupported g).

(** [gdbstub()], at every exit of the vm when the stub is enabled, at one exit
    in [rate] otherwise; [cnt] is the number of exits. *)
Definition gdbstub (cnt rate : Z) g : option (gdb vmv) :=
  if g_on g || (cnt mod rate =? 0)
  then gdb_recv_packet gdb_process_packet gdb_enable fuel g else Some g.
End cmd.

(** ** Answers *)

Definition hexbytes (l : bytes) : bytes := l ≫= fun b => [(uint8_to_hex b).1; (uint8_to_hex b).2].

Lemma length_hexbytes l : length (hexbytes l) = (2 * length l)%nat.
Proof. induction l as [|b l IH]; [done|]. cbn [hexbytes mbind list_bind app length]. fold (hexbytes l). lia. Qed.

Lemma hexbytes_app l1 l2 : hexbytes (l1 ++ l2) = hexbytes l1 ++ hexbytes l2.
Proof. apply bind_app. Qed.

Lemma set_buf_same {V} (g : gdb V) : set_buf (g_buf g) g = g.
Proof. by destruct g. Qed.

Lemma add_bytes_fit {V} l (g : gdb V) : Z.of_nat (length (g_buf g)) + 2 * Z.of_nat (length l) <= GDB_BUF_SZ - 1 ->
  fold_left (fun g b => gdb_add_byte b g) l g = set_buf (g_buf g ++ hexbytes l) g.
Proof.
  revert g. induction l as [|b l IH]; intros g Hl; cbn [fold_left].
  { cbn [hexbytes mbind list_bind]. by rewrite app_nil_r, set_buf_same. }
  cbn [length] in Hl. unfold gdb_add_byte at 2. rewrite (proj2 (Z.ltb_lt _ _)) by lia.
  destruct (uint8_to_hex b) as [h o] eqn:Hb. rewrite IH.
  - cbn [g_buf set_buf hexbytes mbind list_bind]. rewrite Hb. cbn [fst snd]. by rewrite <- app_assoc.
  - cbn [g_buf set_buf]. rewrite length_app. simpl. lia.
Qed.

Lemma set_vm_same (v : vmv) : set_vm (v_vm v) v = v.
Proof. by destruct v as [[[]]]. Qed.

(** ** Memory of the vm

    The bytes of the range are at [pa], that the tables of the address space of
    the controller give if the vm has paging. *)

Section mapped.
Variable c : vm_cpu.
Implicit Types (g : gdb vmv).

Definition gdb_reaches g (addr n : Z) (pa : Z -> Z) : Prop :=
  reaches c (active_cr3 (v_dbg (g_v g))) VM_ACC_REQ_VMM false (phys (v_vm (g_v g))) addr n pa.
Definition gdb_steady g (addr n : Z) (pa : Z -> Z) : Prop :=
  steady c (active_cr3 (v_dbg (g_v g))) VM_ACC_REQ_VMM true (phys (v_vm (g_v g))) addr n pa.

Lemma read_mapped addr n pa g : 0 < n -> gdb_reaches g addr n pa -> 0 <= addr -> addr + n <= 2 ^ 64 ->
  gdb_vmem_read c addr n g = Some (VM_DONE, gather (phys (v_vm (g_v g))) pa n, g).
Proof.
  intros Hn Hr Ha Hw. unfold gdb_vmem_read, vm_read_vmem.
  destruct (read_reached c (active_cr3 (v_dbg (g_v g))) VM_ACC_REQ_VMM addr n (replicate (Z.to_nat n) 0) pa (v_vm (g_v g)) Ha Hn Hw)
    as (ac & -> & _ & Hd); [rewrite length_replicate; lia|exact Hr|].
  cbn [mbind option_bind]. rewrite Hd, drop_ge, app_nil_r by (rewrite length_replicate; lia).
  f_equal. f_equal. rewrite set_vm_same. by destruct g.
Qed.

(** The vm after a write. *)
Definition vm_written (pa : Z -> Z) (l : bytes) (v : vmv) : vmv :=
  set_vm (with_phys (scatter (phys (v_vm v)) pa 0 l) (v_vm v)) v.

Lemma write_mapped addr l pa g : l <> [] -> gdb_steady g addr (Z.of_nat (length l)) pa ->
  0 <= addr -> addr + Z.of_nat (length l) <= 2 ^ 64 ->
  gdb_vmem_write c addr l (Z.of_nat (length l)) g = Some (VM_DONE, set_v (vm_written pa l (g_v g)) g).
Proof.
  intros Hn Hr Ha Hw. assert (0 < Z.of_nat (length l)) as Hl by (destruct l; [done|simpl; lia]).
  unfold gdb_vmem_write, vm_write_vmem.
  destruct (write_reached c (active_cr3 (v_dbg (g_v g))) VM_ACC_REQ_VMM addr (Z.of_nat (length l)) l pa (v_vm (g_v g)) Ha Hl Hw)
    as (ac & -> & _); [lia|exact Hr|].
  cbn [mbind option_bind]. by rewrite Nat2Z.id, firstn_all.
Qed.

(** The loop of a read appends the bytes of the range. *)
Lemma rd_mem_ok fuel : forall addr size pa g, 0 <= size -> size <= Z.of_nat fuel -> 0 <= addr -> addr + size < 2 ^ 64 ->
  gdb_reaches g addr size pa -> Z.of_nat (length (g_buf g)) + 2 * size <= GDB_BUF_SZ - 1 ->
  rd_mem_loop c fuel addr size g =
    Some (gdb_send_packet (set_buf (g_buf g ++ hexbytes (gather (phys (v_vm (g_v g))) pa size)) g)).
Proof.
  induction fuel as [|fuel IH]; intros addr size pa g H0 Hf Ha Hw Hr Hb; cbn [rd_mem_loop]; unfold c_true;
    destruct (Z.eqb_spec size 0) as [->|Hne]; cbn [negb]; try lia.
  1, 2: change (gather (phys (v_vm (g_v g))) pa 0) with (@nil Z); cbn [hexbytes mbind list_bind];
    by rewrite app_nil_r, set_buf_same.
  set (need := Z.min size STORE_SZ). assert (0 < need <= size) as Hneed by (unfold need, STORE_SZ; lia).
  rewrite (read_mapped addr need pa); [|lia|intros i Hi; apply Hr; lia|lia|lia]. cbn [mbind option_bind]. rewrite decide_True by done.
  set (m := phys (v_vm (g_v g))) in *.
  assert (Z.of_nat (length (gather m pa need)) = need) as Hlen by (rewrite length_gather; lia).
  rewrite add_bytes_fit by lia. rewrite (wrap_id 64 (addr + need)) by (split; lia).
  rewrite (IH _ _ (fun i => pa (need + i))); [|lia|lia|lia|lia| |].
  - cbn [g_buf set_buf g_v]. fold m. rewrite <- app_assoc, <- hexbytes_app, <- gather_app by lia.
    by replace (need + (size - need)) with size by lia.
  - apply (reaches_sub _ _ _ _ _ _ size); [lia..|exact Hr].
  - cbn [g_buf set_buf]. rewrite length_app, length_hexbytes. lia.
Qed.

(** The digits of the bytes of a write. *)
Lemma wr_bytes_ok l : forall rest store g, Forall (fits 8) l ->
  wr_mem_bytes (length l) (hexbytes l ++ rest) store g = Some (l, rest, g).
Proof using.
  induction l as [|b l IH]; intros rest store g Hf; [done|]. apply Forall_cons in Hf as [Hb Hf].
  cbn [hexbytes mbind list_bind length app wr_mem_bytes]. fold (hexbytes l).
  rewrite uint8_hex_back by done. rewrite IH by done. done.
Qed.

Lemma vm_written_app pa l1 l2 v :
  vm_written (fun i => pa (Z.of_nat (length l1) + i)) l2 (vm_written pa l1 v) = vm_written pa (l1 ++ l2) v.
Proof using.
  assert (forall m, scatter (scatter m pa 0 l1) (fun i => pa (Z.of_nat (length l1) + i)) 0 l2 = scatter m pa 0 (l1 ++ l2)) as He.
  { intros m. rewrite scatter_app. by apply scatter_ext. }
  unfold vm_written. cbn. by rewrite He.
Qed.

Lemma vm_written_nil pa v : vm_written pa [] v = v.
Proof using. unfold vm_written. cbn [scatter]. by destruct v as [[[? [] ]]]. Qed.

Lemma wr_mem_ok fuel : forall addr l pa store g, (length l <= fuel)%nat -> Forall (fits 8) l -> 0 <= addr ->
  addr + Z.of_nat (length l) < 2 ^ 64 -> gdb_steady g addr (Z.of_nat (length l)) pa ->
  wr_mem_loop c fuel addr (Z.of_nat (length l)) (hexbytes l) store g =
    Some (gdb_ok (set_v (vm_written pa l (g_v g)) g)).
Proof.
  induction fuel as [|fuel IH]; intros addr l pa store g Hf Hl Ha Hw Hr; cbn [wr_mem_loop].
  { destruct l; [|simpl in Hf; lia]. rewrite vm_written_nil. by destruct g. }
  destruct l as [|b l]; [rewrite vm_written_nil; by destruct g|]. rewrite c_true_length. cbn [negb].
  set (l0 := b :: l) in *. set (n := Z.to_nat (Z.min (Z.of_nat (length l0)) STORE_SZ)).
  assert (0 < n <= length l0)%nat as Hn by (unfold n, STORE_SZ; subst l0; simpl; lia).
  set (l1 := take n l0). set (l2 := drop n l0).
  assert (l0 = l1 ++ l2) as H12 by (unfold l1, l2; by rewrite take_drop).
  assert (hexbytes l0 = hexbytes l1 ++ hexbytes l2) as -> by (by rewrite H12, hexbytes_app).
  assert (length l1 = n) as Hl1 by (apply length_take_le; lia).
  assert (length l0 = (n + length l2)%nat) as Hl0 by (unfold l2; rewrite length_drop; lia).
  assert (Forall (fits 8) l1 /\ Forall (fits 8) l2) as [Hf1 Hf2] by (apply Forall_app; by rewrite <- H12).
  fold n.
  assert (wr_mem_bytes n (hexbytes l1 ++ hexbytes l2) store g = Some (l1, hexbytes l2, g)) as ->
    by (rewrite <- Hl1; by apply wr_bytes_ok).
  cbn [mbind option_bind].
  replace (Z.min (Z.of_nat (length l0)) STORE_SZ) with (Z.of_nat (length l1)) by (rewrite Hl1; unfold n; lia).
  rewrite (write_mapped addr l1 pa); [|intros He; rewrite He in Hl1; simpl in Hl1; lia| |done|lia].
  2: { replace addr with (addr + 0) by lia. apply (steady_sub _ _ _ _ _ _ (Z.of_nat (length l0)) pa 0); [lia..|exact Hr]. }
  cbn [mbind option_bind]. rewrite decide_True by done. rewrite (wrap_id 64) by (split; lia).
  replace (Z.of_nat (length l0) - Z.of_nat (length l1)) with (Z.of_nat (length l2)) by lia.
  rewrite (IH _ _ (fun i => pa (Z.of_nat (length l1) + i))); [|lia|done|lia|lia|].
  - cbn [g_v set_v]. by rewrite vm_written_app, <- H12.
  - unfold gdb_steady. cbn [g_v set_v]. apply (steady_sub _ _ _ _ _ _ (Z.of_nat (length l0))); [lia..|].
    eapply steady_only; [|exact Hr]. apply only_at_scatter; [lia..|apply only_at_refl].
Qed.

(** ** Properties *)

(** C35: a memory write command of gdb followed by a read command of the same
    range: each byte is in the memory of the vm where the range says, no other
    byte of the memory changes, and the answer to the read is the digits of the
    bytes.  The range has a byte at least and its digits are fewer than the
    bytes of the buffer of the stub; it does not wrap; and its bytes reach
    different bytes of the vm, through the tables of the address space of the
    controller if the vm has paging, out of these tables and of the area of the
    vmm ([gdb_steady]). *)
Theorem gdb_mem_write_read addr bs store g pa : bs <> [] -> Forall (fits 8) bs -> 2 * Z.of_nat (length bs) < GDB_BUF_SZ ->
  let n := Z.of_nat (length bs) in
  0 <= addr -> addr + n < 2 ^ 64 -> gdb_steady g addr n pa ->
  (forall x y, 0 <= x < n -> 0 <= y < n -> pa x = pa y -> x = y) ->
  exists g1, gdb_cmd_wr_mem c store (hexstr addr ++ 44 :: hexstr n ++ 58 :: hexbytes bs) g = Some g1 /\
    (forall i b, bs !! i = Some b -> rd0 (phys (v_vm (g_v g1))) (pa (Z.of_nat i)) = b) /\
    only_at pa n (phys (v_vm (g_v g))) (phys (v_vm (g_v g1))) /\
    gdb_cmd_rd_mem c (hexstr addr ++ 44 :: hexstr n) (gdb_reset_buffer g1) =
      Some (gdb_send_packet (set_buf (hexbytes bs) g1)).
Proof.
  intros Hne Hf Hlen n Ha Hw Hr Hinj. assert (0 < n) by (subst n; destruct bs; [done|simpl; lia]).
  assert (fits 64 addr /\ fits 64 n) as [Hfa Hfn] by (split; split; lia).
  assert (hexbytes bs <> []) as Hhb by (by destruct bs).
  assert (only_at pa n (phys (v_vm (g_v g))) (scatter (phys (v_vm (g_v g))) pa 0 bs)) as Ho
    by (apply only_at_scatter; [lia..|apply only_at_refl]).
  set (g1 := gdb_ok (set_v (vm_written pa bs (g_v g)) g)). exists g1. split_and!.
  - unfold gdb_cmd_wr_mem. destruct (mem_op_ok addr n (hexbytes bs) g Hfa Hfn Hhb) as [_ ->].
    rewrite length_hexbytes, (Nat.mul_comm 2), Nat.div_mul by done. fold n. rewrite Z.eqb_refl.
    unfold n at 1. rewrite Nat2Z.id. by apply wr_mem_ok.
  - intros i b Hi. pose proof (lookup_lt_Some _ _ _ Hi). cbn.
    replace (pa (Z.of_nat i)) with (pa (0 + Z.of_nat i)) by (f_equal; lia).
    rewrite scatter_at by (done || lia). rewrite Nat2Z.id. by apply nth_lookup_Some.
  - exact Ho.
  - unfold gdb_cmd_rd_mem. destruct (mem_op_ok addr n (hexbytes bs) (gdb_reset_buffer g1) Hfa Hfn Hhb) as [-> _].
    unfold GDB_BUF_SZ in Hlen.
    rewrite (proj2 (Z.ltb_ge _ _)) by (apply Z.div_le_lower_bound; [lia|]; fold n in Hlen; unfold GDB_BUF_SZ; lia).
    rewrite (rd_mem_ok _ _ _ pa); [|lia|lia|done|done|exact (Hr _ Ho)|cbn [g_buf gdb_reset_buffer set_buf length]; unfold GDB_BUF_SZ; fold n in Hlen; lia].
    cbn [g_buf gdb_reset_buffer set_buf app g_v].
    change (phys (v_vm (g_v g1))) with (scatter (phys (v_vm (g_v g))) pa 0 bs).
    unfold n. by rewrite gather_scatter.
Qed.
End mapped.

(** ** Registers *)

Definition regs_ok (v : vmv) : Prop := length (v_gpr v) = 16%nat /\ length (v_sel v) = 6%nat.

Lemma acc_cases r : r ∈ gdb_gpr_reg_acc ->
  (exists i, r = RGpr i /\ 0 <= i < 16) \/ r = RRip \/ r = RRflags \/ (exists i, r = RSel i /\ (i < 6)%nat).
Proof.
  intros [(i & -> & Hi%elem_of_seqZ)%list_elem_of_fmap|Hr]%elem_of_app; [left; exists i; split; [done|lia]|].
  repeat (apply elem_of_cons in Hr as [->|Hr]; [eauto 8 with lia|]). by apply elem_of_nil in Hr.
Qed.

Lemma reg_get_set r r' x v : regs_ok v -> r ∈ gdb_gpr_reg_acc -> r' ∈ gdb_gpr_reg_acc ->
  (r' = r -> reg_get r' (reg_set r x v) = x) /\ (r' <> r -> reg_get r' (reg_set r x v) = reg_get r' v).
Proof.
  intros [Hg Hs] Hr Hr'. apply acc_cases in Hr, Hr'. unfold GPR64_RAX.
  destruct Hr as [(i & -> & Hi)|[->|[->|(i & -> & Hi)]]]; destruct Hr' as [(j & -> & Hj)|[->|[->|(j & -> & Hj)]]];
    split; intros He; try done; cbn [reg_get reg_set v_gpr v_sel]; unfold GPR64_RAX.
  - injection He as ->. rewrite list_lookup_total_insert_eq; [done|lia].
  - rewrite list_lookup_total_insert_ne; [done|]. intros Hn. apply He. f_equal. lia.
  - injection He as ->. rewrite list_lookup_total_insert_eq; [done|lia].
  - rewrite list_lookup_total_insert_ne; [done|]. congruence.
Qed.

(** Only the registers and the size of addresses matter to the accessors. *)
Lemma reg_get_io r b v : reg_get r (io_write b v) = reg_get r v.
Proof. by destruct r. Qed.

(** The value a write of [size] bytes leaves in a register. *)
Definition reg_write (size old value : Z) : Z :=
  if size =? 2 then set_bits old 0 16 value
  else if size =? 4 then set_bits old 0 32 value
  else if size =? 8 then value else old.

Lemma reg_write_low size old value : size = 2 \/ size = 4 \/ size = 8 -> fits 64 old -> fits 64 value ->
  fits 64 (reg_write size old value) /\ reg_write size old value mod 16 ^ (size * 2) = value mod 2 ^ (8 * size).
Proof.
  intros Hsz Ho Hv. destruct Hsz as [->|[->| ->]]; unfold reg_write; cbn [Z.eqb Pos.eqb].
  - split; [by apply set_bits_fits|]. change (16 ^ (2 * 2)) with (2 ^ 16).
    pose proof (bits_div_mod (set_bits old 0 16 value) 0 16 ltac:(lia) ltac:(lia)) as Hb.
    rewrite bits_set_same in Hb by lia. by rewrite Z.pow_0_r, Z.div_1_r in Hb.
  - split; [by apply set_bits_fits|]. change (16 ^ (4 * 2)) with (2 ^ 32).
    pose proof (bits_div_mod (set_bits old 0 32 value) 0 32 ltac:(lia) ltac:(lia)) as Hb.
    rewrite bits_set_same in Hb by lia. by rewrite Z.pow_0_r, Z.div_1_r in Hb.
  - split; [done|]. reflexivity.
Qed.

Lemma setup_reg_acc idx v r sz : gdb_setup_reg idx v = Some (Some (r, sz)) ->
  r ∈ gdb_gpr_reg_acc /\ (sz = 2 \/ sz = 4 \/ sz = 8).
Proof.
  unfold gdb_setup_reg. destruct (_ <? _); [done|]. intros (x & Hx & [= -> <-])%bind_Some.
  split; [by eapply list_elem_of_lookup_2|]. unfold reg_size, fix_sz. destruct r; [| | |by left]; (destruct (v_mode v =? 64); [right; right|right; left]; done).
Qed.

(** A register write command of gdb followed by a read command of the same
    register: the answer is the value written, cut to the size of the register,
    and no other register changes. *)
Theorem gdb_reg_write_read idx r sz x ds g : regs_ok (g_v g) -> fits 64 idx ->
  gdb_setup_reg idx (g_v g) = Some (Some (r, sz)) -> fits 64 (reg_get r (g_v g)) ->
  ds <> [] -> gdb_get_number ds true = Some x -> fits 64 x ->
  exists g1 ds1, gdb_cmd_wr_reg (hexstr idx ++ 61 :: ds) g = Some g1 /\
    gdb_cmd_rd_reg (hexstr idx) (gdb_reset_buffer g1) = Some (gdb_send_packet (set_buf ds1 g1)) /\
    gdb_get_number ds1 true = Some (x mod 2 ^ (8 * sz)) /\
    forall r', r' ∈ gdb_gpr_reg_acc -> r' <> r -> reg_get r' (g_v g1) = reg_get r' (g_v g).
Proof.
  intros Hok Hidx Hset Hold Hds Hx Hfx. destruct (setup_reg_acc _ _ _ _ Hset) as [Hr Hsz].
  destruct (hexstr_spec idx Hidx) as (Hi1 & Hi2 & Hi3).
  assert (Forall (fun c => c <> 61) (hexstr idx)) as Hno by (eapply Forall_impl; [exact Hi3|by intros ? (? & ? & ?)]).
  set (w := reg_write sz (reg_get r (g_v g)) x). destruct (reg_write_low sz _ x Hsz Hold Hfx) as [Hfw Hlow]. fold w in Hfw, Hlow.
  set (v1 := io_write msg_ok (reg_set r w (g_v g))).
  assert (reg_get r v1 = w) as Hget by (unfold v1; rewrite reg_get_io; by apply (reg_get_set r r w (g_v g))).
  assert (gdb_setup_reg idx v1 = Some (Some (r, sz))) as Hset1.
  { rewrite <- Hset. unfold gdb_setup_reg, reg_size, fix_sz.
    replace (v_mode v1) with (v_mode (g_v g)) by (by destruct r). done. }
  destruct (add_number_spec w (sz * 2) true (set_buf [] (set_v v1 g)) Hfw) as (ds1 & Ha & Hl & Hn);
    [lia|change (g_buf (set_buf [] (set_v v1 g))) with (@nil Z); unfold GDB_BUF_SZ, GDB_ANSWER_SZ, GDB_ACKPKT_SZ, GDB_PKT_SZ; simpl; lia|].
  exists (set_v v1 g), ds1. split_and!.
  - unfold gdb_cmd_wr_reg, gdb_setup_reg_op. rewrite strchr_first by done. cbn [mbind option_bind].
    destruct (take_drop_at (hexstr idx) 61 ds) as [-> ->]. rewrite Hx. cbn [mbind option_bind].
    unfold gdb_get_number. rewrite Hi1. cbn [mbind option_bind]. rewrite Hset. done.
  - unfold gdb_cmd_rd_reg, gdb_setup_reg_op. cbn [mbind option_bind]. unfold gdb_get_number at 1. rewrite Hi1.
    cbn [mbind option_bind g_v gdb_reset_buffer set_buf set_v]. rewrite Hset1. cbn [mbind option_bind].
    cbn [g_v gdb_reset_buffer set_buf set_v]. rewrite Hget.
    change (gdb_reset_buffer (set_v v1 g)) with (set_buf [] (set_v v1 g)). rewrite Ha. done.
  - by rewrite Hn, Hlow.
  - intros r' Hr' Hne. cbn [g_v set_v]. unfold v1. rewrite reg_get_io. by apply (reg_get_set r r' w (g_v g)).
Qed.

(** ** Failures *)

(** In 64-bit mode the command that reads the general registers does not
    answer: its loop counts an unsigned index down to 0 included. *)
Theorem gdb_rd_gpr_64_undefined g : v_mode (g_v g) = 64 -> gdb_cmd_rd_gpr g = None.
Proof.
  intros Hm. unfold gdb_cmd_rd_gpr. rewrite Hm. change (64 =? 64) with true. cbv iota.
  assert (forall fuel i vlen g, 0 <= i -> rd_gpr_loop fuel i 0 vlen g = None) as Hl.
  { clear. induction fuel as [|fuel IH]; intros i vlen g Hi; cbn [rd_gpr_loop]; rewrite (proj2 (Z.leb_le 0 i)) by done; [done|].
    destruct (v_gpr (g_v g) !! Z.to_nat i); [|done]. cbn [mbind option_bind].
    destruct (gdb_add_number _ _ _ _) as [g'|]; [|done]. cbn [mbind option_bind]. apply IH. apply (wrap_fits 64). lia. }
  rewrite Hl by (unfold GPR64_RAX; lia). done.
Qed.

(** The register index after the last one is not refused: the accessor is read
    past the end of its table. *)
Theorem gdb_reg_index_overflow v : v_mode v = 64 -> gdb_setup_reg 24 v = None.
Proof. intros Hm. unfold gdb_setup_reg. by rewrite Hm. Qed.

(** ** Witnesses *)

Definition ex_vmv : vmv :=
  mk_vmv (ex_ctl 0x1000 true None) (replicate 16 0x11) 0x7c00 [0; 0; 0; 0; 0; 0] 32.
Definition ex_stub : gdb vmv := mk_gdb true true true 0 [] ex_vmv.

(** A vm with paging: six bytes across two of its pages. *)
Definition ex_paged_stub : gdb vmv := set_v (set_ctl (mk_ctl
  (mk_sdbg ex_hdbg (mk_vmst ex_tables [] [] []) 0x1000 true false false 0 (replicate 1024 no_bp)) true false true 0x1000 None
  (mk_usr 0x40 0 0 0 0) (mk_vcpu 0 0x1000 false false 0x4000 0x7c00) 0 0 9) ex_vmv) ex_stub.
Definition ex_bytes : bytes := [0x90; 0xf4; 1; 2; 3; 4].
Example gdb_mem_write_read_witness :
  exists g1, gdb_cmd_wr_mem ex_paged [] (hexstr 0xffe ++ 44 :: hexstr 6 ++ 58 :: hexbytes ex_bytes) ex_paged_stub = Some g1 /\
    rd0 (phys (v_vm (g_v g1))) 0x8fff = 0xf4 /\ rd0 (phys (v_vm (g_v g1))) 0x5000 = 1 /\
    gdb_cmd_rd_mem ex_paged (hexstr 0xffe ++ 44 :: hexstr 6) (gdb_reset_buffer g1) =
      Some (gdb_send_packet (set_buf (hexbytes ex_bytes) g1)).
Proof.
  destruct (gdb_mem_write_read ex_paged 0xffe ex_bytes [] ex_paged_stub ex_pa) as (g1 & Hw & Hb & _ & Hr);
    [done|repeat constructor; unfold fits; lia|reflexivity|lia|reflexivity| | |].
  - exact (ex_steady VM_ACC_REQ_VMM true ex_tables (fun _ _ => eq_refl)).
  - unfold ex_pa. cbn. intros x y Hx Hy. destruct (Z.ltb_spec x 2), (Z.ltb_spec y 2); lia.
  - exists g1. split_and!; [exact Hw|exact (Hb 1%nat 0xf4 eq_refl)|exact (Hb 2%nat 1 eq_refl)|exact Hr].
Defined.

Example gdb_reg_write_read_witness :
  exists g1 ds1, gdb_cmd_wr_reg (hexstr 3 ++ 61 :: [55; 56; 53; 54; 51; 52; 49; 50]) ex_stub = Some g1 /\
    gdb_cmd_rd_reg (hexstr 3) (gdb_reset_buffer g1) = Some (gdb_send_packet (set_buf ds1 g1)) /\
    gdb_get_number ds1 true = Some 0x12345678 /\
    forall r', r' ∈ gdb_gpr_reg_acc -> r' <> RGpr 3 -> reg_get r' (g_v g1) = reg_get r' (g_v ex_stub).
Proof.
  apply (gdb_reg_write_read 3 (RGpr 3) 4 0x12345678 [55; 56; 53; 54; 51; 52; 49; 50] ex_stub);
    [by split|by split|reflexivity|by split|done|vm_compute; reflexivity|by split].
Defined.
